(* ===== verification/_CoqProject ===== *)
-Q . S2P
Prelude.v
State.v
Concurrent.v
GoStr.v
Regexp.v
Exec.v
Version.v
KeosTypes.v
Descriptor.v
ValidateUtils.v
Secrets.v
NetIP.v
Aws.v
ValidateCommon.v
ValidateAWS.v
ValidateAzure.v
ValidateGCP.v
Validate.v
Commons.v
Kubeconfig.v
Errors.v
KindConfig.v
Nodes.v
Docker.v
Network.v
Create.v
Base64.v
Oci.v
Worker.v
Charts.v
Builder.v
Clouds.v
Install.v
Operator.v
Providers.v
Descriptors.v
CreateWorker.v
Effects.v
Execution.v
Handover.v
Refresher.v
Masquerade.v
Kindnet.v
Patch.v
NodeCommands.v
Kubeadm.v
NodeConfig.v
KubeActions.v
Runtime.v
NodeProvider.v
Racing.v
Images.v
Machine.v
DockerProvider.v
PodmanProvider.v
Api.v
CreateCommand.v
Spinner.v
Cli.v
Load.v
Logs.v
NodeManifests.v
NodeImage.v
BuildImage.v
Commands.v
Pipes.v
Chains.v
KindnetMain.v
KubeconfigFile.v
DeepCopies.v
Sets.v
CommandTree.v
Fs.v
RefreshLoop.v
ContainerCmd.v
App.v
