(* ===== verification/Prelude.v ===== *)
(** * Skind: a verification library for the Stratio fork of kind

    The program (src/, Go) creates a Kubernetes cluster on AWS, Azure or GCP from a
    descriptor file: it starts a local kind cluster in containers, installs the
    Cluster API on it and lets that create the cluster in the cloud.  The library
    models its own logic; the cloud SDKs, YAML, the vault and the containers are
    parameters.

    ** How the code is rendered

    A call that returns [(T, error)] is a value of [res T]: the result, the text of
    the error, or a panic (nil dereference, index or slice out of range).  [;;] and
    the arrow notation run the steps in the order of the source, so a check that
    fails first hides the later ones.  Go [int]s are integers; they are bounded
    where the code parses or prints them.  Strings are byte strings; [range] over
    one decodes UTF-8.  Third-party code is a type class of operations, and what the
    code relies on of it a class of laws; one instance is one state of the outside
    world, and each witness gives a concrete one.

    ** Files

    - [Prelude]: outcomes and their monad, loops, the tactics and hint databases.
    - [GoStr]: the functions of [strings] and [strconv] the code uses, on bytes and runes.
    - [Regexp]: Go regular expressions as syntax trees with a relation for what they
      match, and a matcher by derivatives proved to decide it.
    - [Version]: src/pkg/internal/version/version.go.  Round trip of parsing and
      printing, the order of versions, and a cycle in the order of semantic
      versions.
    - [KeosTypes]: the structs of src/pkg/commons/cluster.go.
    - [Descriptor]: defaults, field validators and reading of the descriptor
      (src/pkg/commons/cluster.go).
    - [NetIP]: [net.ParseCIDR] and [net.IPNet.Contains], and the go-cidr interface.
    - [ValidateUtils], [Secrets]: src/pkg/cluster/internal/validate/utils.go and
      secrets.go, where credentials come from and what is demanded of them.
    - [Aws]: the AWS queries of src/pkg/commons/utils.go.
    - [ValidateCommon], [ValidateAWS], [ValidateAzure], [ValidateGCP], [Validate]: the files of
      the same names in src/pkg/cluster/internal/validate/.  The functional
      theorems say exactly which descriptors a check accepts; the others what an
      accepted descriptor is sure to satisfy, or what is accepted or refused by
      mistake.
    - [Commons]: the secrets file, the descriptor without its credentials, and commands
      on a node with retries (src/pkg/commons/utils.go).
    - [Kubeconfig]: src/pkg/cluster/internal/kubeconfig/internal/kubeconfig/.  Merging and
      removing entries, the choice of the file, and its update under a lock as a
      step relation: the lock excludes, and no update is lost.
    - [Errors]: src/pkg/errors/.  Aggregates and their text; [UntilErrorConcurrent] and
      [AggregateConcurrent] as step relations over goroutines and a channel, with
      termination and results for every interleaving.
    - [KindConfig]: src/pkg/internal/apis/config/ and src/pkg/apis/config/v1alpha4/.  What
      validation accepts, that the defaults are valid and idempotent, and that the
      two copies of them agree through the conversion.
    - [Nodes]: src/pkg/cluster/nodeutils/roles.go, the namer of the nodes and the cached
      list of the actions.  Names are distinct, and the choice of the bootstrap node
      does not depend on the order in which the runtime lists the nodes.
    - [Docker]: src/pkg/cluster/internal/providers/docker/provision.go.  What is planned
      for a valid configuration, and that the node of the API server is found.
    - [Network]: src/pkg/cluster/internal/providers/docker/network.go.  Success means that
      the network is there; when the choice among duplicates is deterministic, and an
      example where it is not.
    - [Create]: src/pkg/cluster/internal/create/create.go and delete/delete.go.  What is
      left of the local cluster when its creation ends.

    The state and error monad, and the program logic for long sequences of calls:

    - [State]: [st], its laws, [sat] with one rule for each construct.
    - [Concurrent]: functions that run at once take effect one by one in an unknown order;
      [until_error] returns with the first error, when as many of the others as the schedule
      says have taken their effect, and [at_once] also says which are still running.
    - [Base64]: the standard encoding, with the round trip.

    The actions on the local cluster (src/pkg/cluster/internal/create/actions/):

    - [NodeCommands]: src/pkg/cluster/nodeutils/util.go, over the log of the commands that ran
      on the nodes.
    - [Patch]: src/pkg/internal/patch/.  A patched stream keeps its documents.
    - [Kubeadm]: src/pkg/cluster/internal/kubeadm/config.go.  What is chosen for each minor
      version of Kubernetes; the texts of the two templates.
    - [NodeConfig]: actions/config/config.go.  Every node gets the configuration of its own.
    - [KubeActions]: actions/ loadbalancer, kubeadminit, installcni, installstorage,
      kubeadmjoin and waitforready.  kubeadm runs once on every node, in order; waiting
      ends.

    The installation of the cloud cluster (actions/createworker/):

    - [Oci]: oci.go.  The latest version of the best kind of the operator chart.
    - [Worker]: the world of the action: the log of the commands with their answers, and the
      global variables.
    - [Charts]: the dictionaries of charts and their overrides.  The effect of the selection
      through aliased maps refines a plan that is a function of the configuration.
    - [Builder], [Clouds], [Providers]: aws.go, gcp.go and azure.go.  Credentials, queries and
      installation steps; what is given to the cluster operator; the storage class that is
      installed satisfies the validation of [ValidateAWS].
    - [Install], [Operator]: provider.go.  The steps that run commands.
    - [Descriptors]: keosinstaller.go and overridevars.go, over a file system.
    - [CreateWorker]: createworker.go, the whole action.
    - [Effects], [Execution], [Handover]: theorems on runs of the action: a failed command
      ends it, no object is deleted before it was moved, and success means that all were.
    - [Refresher], [RefreshLoop]: src/pkg/commons/kubeconfig.go.  What a refresh writes; the
      loop with its ticker and the channel that ends it, as a step relation: when it ends, and
      that ticks which go on to come may starve the end.

    The network daemon of the nodes (src/images/kindnetd/cmd/kindnetd/):

    - [Masquerade]: masq.go.  The chain of rules is in order after any number of runs.
    - [Kindnet]: routes.go, cni.go and main.go.  Routes to the pods of the other nodes, and
      the configuration file, which is replaced and never half written.
    - [KindnetMain]: the start of main: the endpoint, the families and the agents.

    The node providers and the library (src/pkg/cluster/):

    - [Exec]: src/pkg/exec/.  A command, its outputs and its error.
    - [Pipes]: the pipe between a command and a function, as a step relation that ends and in
      which what is read is what is written; the writers of the outputs.
    - [Chains]: the causes of an error, and [errors.Is] on aggregates.
    - [ContainerCmd]: commands in containers.  The container program reads back what was set.
    - [Runtime]: what docker and podman are asked for alike, and the class of laws of the
      containers; what is left of a plan that was carried out.
    - [NodeProvider]: the interface of a provider as a class; the world of [Create] over
      any provider that keeps it.
    - [Racing]: the same world together with the functions that run on when one of those that
      make the containers has failed; what a creation leaves of the cluster then.
    - [Images]: which image a node gets, and how often its pull is tried.
    - [Machine]: a small world with containers, for the witnesses.
    - [DockerProvider], [PodmanProvider]: the two providers, and that they keep the class.
    - [Api]: provider.go, createoption.go and the kubeconfig of a cluster.
    - [Logs]: the collection of logs.  What is unpacked stays in its directory, also through
      symbolic links.
    - [KubeconfigFile]: the calls on kubeconfig files and how they fail; call by call they do
      what a process of [Kubeconfig] does in one step.
    - [DeepCopies], [Sets], [Fs]: the generated deep copies over a heap, the sets of strings,
      and the copying of trees of files (src/pkg/fs).

    The command line (src/pkg/cmd/, src/pkg/internal/cli/, src/pkg/build/nodeimage/):

    - [CreateCommand]: the command that creates a cluster, from the password to the
      validation and the creation.
    - [Spinner]: the goroutines of the spinner as a step relation with choices.
    - [Cli]: the logger, its buffers, and the status lines.
    - [Load]: loading images into nodes.
    - [NodeManifests], [NodeImage], [BuildImage]: the build of the node image.
    - [Commands]: the commands that delete, list and export.
    - [CommandTree]: NewCommand of every command: arguments, flags, defaults and handler.
    - [App]: src/cmd/kind/app, from the arguments of the process to its exit code.

    ** How the parts interact

    [Descriptor] reads the manifests that [Validate] is given with the credentials of
    [Secrets]; [Commons] then writes the secrets file and removes the credentials from
    the descriptor.  [Create] takes a [KindConfig], fills it by its defaults and
    validates it, lets the provider make the containers of [Docker] on the network of
    [Network], named and selected by [Nodes], runs the actions on them, and exports
    and removes the kubeconfig by [Kubeconfig].  [Errors] carries the failures of the
    functions that run at once.  The actions select their nodes by [Nodes];
    [NodeConfig] finds the configuration of a node by the namer of [Nodes], makes it
    by [Kubeadm] and patches it by [Patch]; the others run their commands by
    [NodeCommands].  [CreateWorker] runs after them, on the world of [Worker], with the
    versions of [Oci] and [Charts] and the builder of the cloud.  [Kindnet] and
    [Masquerade] run later, on the nodes.

    [CreateCommand] is the whole way from the flags to a cluster: it reads by [Descriptor],
    validates by [Validate], and creates through [Api], whose provider is that of
    [DockerProvider] or [PodmanProvider].  Both are instances of the class of [NodeProvider], so
    the theorems on [Create] hold of both; both rely on [Runtime], [Images] and [Exec], the
    first of them also on [Docker] and [Network].  [Load], [Logs], [Commands] and [BuildImage] are
    the other commands, over the same operations on nodes and on the host.  [CommandTree] says
    which of them an invocation means and what it is given; [App] runs it with the logger of
    [Cli].

    ** Bounds

    Recursion follows the data, or the number of attempts that the program gives: the
    attempts at the network (four more), at the export of the kubeconfig (three
    more), at a command ([retries]) and at the API server of kindnetd (five).  Fuel
    beyond that: the IPv6 parser reads at most eight groups; the scanners of lines and
    of YAML documents take one step for each byte at most, and their fuel is the
    length of the text; waiting has [rounds], one for each nanosecond that is left,
    and [waiting_ends] shows that they are enough when each takes time.  Endless
    loops (kindnetd) are given the number of their rounds.  The pull of an image has the
    number of retries that the code names (four).  A run of the spinner is any sequence of
    choices of its scheduler.  Step relations are shown
    to end by a measure.  A copy of files needs twice as much fuel as a path may have bytes, and
    one more ([Copy_ends]); a path is followed through at most 40 links, as the kernel does.
    The loop over the causes of an error has the length of its chain.  [sort.Slice] with the comparison of [Network], which is no
    order, is the insertion sort that Go runs on up to twelve elements; in [Oci] a sort
    is any function that sorts; elsewhere a sort is by a total order and its algorithm
    does not matter.

    ** What is not modelled

    - The container runtimes: docker and podman are run as commands, which are
      operations of the classes [Env], [Host], [Docker], [HostExec] and [RuntimeLaws].  [RuntimeUp]
      is the hypothesis that the runtime is running: lists can be made, and what is there can
      be inspected and removed; nothing is said of what is not there.
    - Of the actions: status messages and the waiting between attempts; the expansion of
      the text templates, which are read by their paths; the interleaving of the commands of
      functions that run at once (each takes its effect as a whole), and of those of a refresh with those of the action; the map
      of feature gates, which the nodes share ([gates_after] says what a call leaves in it).
    - Of kindnetd: its waiting, and the messages of its log.
    - Of the command line: the parsing of the arguments, the texts of the help, and the
      messages that the commands log.
    - Of running commands: the process, which is a function of the state of the machine.
    - Permissions and the modes of files (but in [Fs], where reads and writes do not fail); links
      in the directories where [Logs] collects the outputs of commands;
      and helpers of tests.
    - The wrappers of the cloud SDKs; validators of struct tags that no field has.
    - The panics of an update of a kubeconfig file under its lock; the quoting of [%q] other
      than the quotes. *)

From stdpp Require Export base list strings gmap sets.
From Stdlib Require Export ZArith Lia Ascii.

Declare Scope go_scope.
Delimit Scope go_scope with go.

(** ** Outcomes of a Go call

    A Go function that returns [(T, error)] either returns a value, returns a
    non-nil error (modelled by its [Error()] text), or panics. *)

Inductive res (A : Type) : Type :=
| Ok (a : A)
| Err (msg : string)
| Panic (why : string).
Arguments Ok {A} a.
Arguments Err {A} msg.
Arguments Panic {A} why.

#[export] Instance res_ret : MRet res := fun A a => Ok a.
#[export] Instance res_bind : MBind res := fun A B f m =>
  match m with Ok a => f a | Err e => Err e | Panic w => Panic w end.
#[export] Instance res_fmap : FMap res := fun A B f m =>
  match m with Ok a => Ok (f a) | Err e => Err e | Panic w => Panic w end.

#[export] Instance res_eq_dec `{EqDecision A} : EqDecision (res A).
Proof. solve_decision. Defined.

(** [if b { return err }] *)
Definition fail_when (b : bool) (e : string) : res unit :=
  if b then Err e else Ok tt.

(** [if b { stmts }] *)
Definition when (b : bool) (m : res unit) : res unit :=
  if b then m else Ok tt.

(** [if err := m; err != nil { return wrap err }] *)
Definition map_err {A} (f : string → string) (m : res A) : res A :=
  match m with Ok a => Ok a | Err e => Err (f e) | Panic w => Panic w end.

(** [errors.Wrap(err, message)] of github.com/pkg/errors, as its [Error()] text. *)
Definition errors_Wrap {A} (message : string) (m : res A) : res A :=
  map_err (λ e, message +:+ ": " +:+ e) m.

(** Dereference of a Go pointer. *)
Definition deref {A} (p : option A) : res A :=
  match p with Some a => Ok a | None => Panic "nil pointer dereference" end.

(** Index expression [l[i]]. *)
Definition index {A} (l : list A) (i : nat) : res A :=
  match l !! i with Some a => Ok a | None => Panic "index out of range" end.

(** Without the reductions of [injection]. *)
Lemma Ok_inj {A} (a a' : A) : Ok a = Ok a' → a = a'.
Proof. congruence. Qed.

Definition is_Ok {A} (m : res A) : bool := match m with Ok _ => true | _ => false end.
Definition is_Panic {A} (m : res A) : bool := match m with Panic _ => true | _ => false end.

(** [for i, x := range l { ... }] whose body may return an error. *)
Fixpoint for_range_from {A} (n : nat) (f : nat → A → res unit) (l : list A) : res unit :=
  match l with
  | [] => Ok tt
  | x :: l => f n x ;; for_range_from (S n) f l
  end.
Abbreviation for_range := (for_range_from 0).
Abbreviation for_each f l := (for_range_from 0 (λ _ x, f x) l).

(** ** Laws of the monad *)

Section res_laws.
Context {A B : Type}.
Implicit Types (m : res A) (f : A → res B).

Lemma bind_Ok_iff m f b : (m ≫= f) = Ok b ↔ ∃ a, m = Ok a ∧ f a = Ok b.
Proof. destruct m; naive_solver. Qed.

Lemma bind_Err_iff m f e :
  (m ≫= f) = Err e ↔ m = Err e ∨ ∃ a, m = Ok a ∧ f a = Err e.
Proof. destruct m; naive_solver. Qed.

Lemma bind_Panic_iff m f w :
  (m ≫= f) = Panic w ↔ m = Panic w ∨ ∃ a, m = Ok a ∧ f a = Panic w.
Proof. destruct m; naive_solver. Qed.

Lemma map_err_Ok_iff (g : string → string) m a : map_err g m = Ok a ↔ m = Ok a.
Proof. destruct m; naive_solver. Qed.
End res_laws.

Lemma bind_unit_Ok {B} (m : res unit) (k : res B) b :
  (m ;; k) = Ok b ↔ m = Ok tt ∧ k = Ok b.
Proof. destruct m as [[]| |]; naive_solver. Qed.

Lemma errors_Wrap_Ok_iff {A} s (m : res A) a : errors_Wrap s m = Ok a ↔ m = Ok a.
Proof. apply map_err_Ok_iff. Qed.

Lemma fail_when_Ok b e u : fail_when b e = Ok u ↔ b = false.
Proof. destruct b, u; naive_solver. Qed.

Lemma when_Ok b m u : when b m = Ok u ↔ (b = true → m = Ok tt).
Proof. destruct b, u; naive_solver. Qed.

Lemma deref_Ok {A} (p : option A) a : deref p = Ok a ↔ p = Some a.
Proof. destruct p; naive_solver. Qed.

Lemma index_Ok {A} (l : list A) i a : index l i = Ok a ↔ l !! i = Some a.
Proof. unfold index. destruct (l !! i); naive_solver. Qed.

Lemma for_range_from_Ok {A} n (f : nat → A → res unit) l u :
  for_range_from n f l = Ok u ↔ ∀ i x, l !! i = Some x → f (n + i) x = Ok tt.
Proof.
  revert n. induction l as [|y l IH]; intros n; simpl.
  - destruct u. split; [intros _ ?? H; by rewrite lookup_nil in H|done].
  - rewrite bind_unit_Ok, IH. split.
    + intros [Hy Hl] [|i] x; simpl; [intros [= <-]; by rewrite Nat.add_0_r|].
      intros Hx. rewrite <-Nat.add_succ_comm. by apply Hl.
    + intros H. split.
      * rewrite <-(Nat.add_0_r n). by apply (H 0).
      * intros i x Hx. rewrite Nat.add_succ_comm. by apply (H (S i)).
Qed.

Lemma for_each_Ok {A} (f : A → res unit) l u :
  for_each f l = Ok u ↔ Forall (λ x, f x = Ok tt) l.
Proof.
  rewrite for_range_from_Ok, Forall_lookup. naive_solver.
Qed.

(** A loop over a non-panicking body does not panic. *)
Lemma for_range_from_no_panic {A} n (f : nat → A → res unit) l :
  (∀ i x, l !! i = Some x → is_Panic (f (n + i) x) = false) →
  is_Panic (for_range_from n f l) = false.
Proof.
  revert n. induction l as [|y l IH]; intros n H; simpl; [done|].
  pose proof (H 0 y eq_refl) as Hy. rewrite Nat.add_0_r in Hy.
  destruct (f n y) as [[]| |]; simpl in *; try done.
  apply IH. intros i x Hx. rewrite Nat.add_succ_comm. by apply (H (S i)).
Qed.

(** ** The hint database [skind] and the inversion tactic of the library *)

Create HintDb skind.
Create Rewrite HintDb skind_inv.

#[export] Hint Rewrite @bind_Ok_iff @bind_unit_Ok @map_err_Ok_iff
  @errors_Wrap_Ok_iff @fail_when_Ok @when_Ok @deref_Ok @index_Ok : skind_inv.
#[export] Hint Rewrite andb_true_iff andb_false_iff orb_true_iff orb_false_iff
  negb_true_iff negb_false_iff : skind_inv.

(** Break a hypothesis that says a sequence of steps returned normally into
    one hypothesis per step. *)
Ltac res_inv H :=
  autorewrite with skind_inv in H; destruct_and?; simplify_eq/=.

Ltac res_inv_all :=
  repeat match goal with
  | H : _ = Ok _ |- _ => progress (autorewrite with skind_inv in H)
  | H : ∃ _, _ |- _ => destruct H
  | H : _ ∧ _ |- _ => destruct H
  end; simplify_eq/=.

(** Case analysis on every test of the goal. *)
Ltac case_all := repeat (case_match; simplify_eq/=; try done).

(** ** Strings built from quoted words

    A Rocq string literal cannot hold a double quote without doubling it, so
    messages that quote a word use [Q]. *)
#[global] Arguments String.append : simpl nomatch.

Definition dquote : string := String (Ascii.ascii_of_nat 34) "".
Definition Q (s : string) : string := dquote +:+ s +:+ dquote.

(** ** Option helpers *)

Definition opt_is_Some {A} (o : option A) : bool :=
  match o with Some _ => true | None => false end.

Lemma opt_is_Some_true {A} (o : option A) : opt_is_Some o = true ↔ is_Some o.
Proof. destruct o; split; naive_solver. Qed.

(** ** String decisions as booleans *)

Notation "s =s t" := (String.eqb s t) (at level 70, no associativity) : go_scope.
Notation "s <>s t" := (negb (String.eqb s t)) (at level 70, no associativity) : go_scope.

Lemma eqb_string_true s t : String.eqb s t = true ↔ s = t.
Proof. apply String.eqb_eq. Qed.
Lemma eqb_string_false s t : String.eqb s t = false ↔ s ≠ t.
Proof. apply String.eqb_neq. Qed.
#[export] Hint Rewrite eqb_string_true eqb_string_false : skind_inv.
#[export] Hint Rewrite Z.eqb_eq Z.eqb_neq Z.ltb_lt Z.ltb_ge Z.leb_le Z.leb_gt : skind_inv.
#[export] Hint Rewrite bool_decide_eq_true bool_decide_eq_false : skind_inv.

(** [commons.Contains] / [slices.Contains] are membership tests. *)
Definition str_in (s : string) (l : list string) : bool := existsb (String.eqb s) l.

Lemma str_in_true s l : str_in s l = true ↔ s ∈ l.
Proof.
  unfold str_in. rewrite existsb_exists. split.
  - intros (x & Hx & Heq). apply String.eqb_eq in Heq as ->. by apply list_elem_of_In.
  - intros Hs. exists s. split; [by apply list_elem_of_In|apply String.eqb_refl].
Qed.

Lemma str_in_false s l : str_in s l = false ↔ s ∉ l.
Proof. rewrite <-not_true_iff_false, str_in_true. done. Qed.
#[export] Hint Rewrite str_in_true str_in_false : skind_inv.

(** ** Loops that compare every two elements *)

Section pairs.
Context {A B : Type} (f : A → B).

Lemma NoDup_fmap_pairs (l : list A) :
  (∀ i x, l !! i = Some x → ∀ j y, l !! j = Some y → i ≠ j → f x ≠ f y) ↔ NoDup (f <$> l).
Proof.
  rewrite NoDup_alt. split.
  - intros H i j b Hi Hj. rewrite list_lookup_fmap in Hi, Hj.
    apply fmap_Some in Hi as (x & Hx & ->). apply fmap_Some in Hj as (y & Hy & Heq).
    destruct (decide (i = j)) as [|Hne]; [done|]. by destruct (H i x Hx j y Hy Hne).
  - intros H i x Hx j y Hy Hne Heq. apply Hne, (H i j (f x));
      rewrite list_lookup_fmap; [by rewrite Hx|by rewrite Hy, Heq].
Qed.

Lemma NoDup_fmap_later (l : list A) :
  (∀ i x, l !! i = Some x → Forall (λ y, f x ≠ f y) (drop (S i) l)) ↔ NoDup (f <$> l).
Proof.
  induction l as [|a l IH]; [split; [constructor|done]|].
  rewrite fmap_cons, NoDup_cons, <-IH. split.
  - intros H. split; [|intros i x Hx; apply (H (S i) x Hx)].
    intros (y & Heq & Hy)%list_elem_of_fmap.
    specialize (H 0 a eq_refl). rewrite drop_0 in H || simpl in H.
    rewrite Forall_forall in H. by apply (H y Hy).
  - intros [Ha Hl] [|i] x Hx; [|by apply Hl]. injection Hx as <-.
    rewrite Forall_forall. intros y Hy Heq. apply Ha. rewrite Heq. by apply list_elem_of_fmap_2.
Qed.
End pairs.

Lemma for_range_Ok {A} (f : nat → A → res unit) l u :
  for_range f l = Ok u ↔ ∀ i x, l !! i = Some x → f i x = Ok tt.
Proof. apply for_range_from_Ok. Qed.

(** ** Steps that do not panic *)

Lemma bind_no_panic {A B} (m : res A) (k : A → res B) :
  is_Panic m = false → (∀ a, m = Ok a → is_Panic (k a) = false) → is_Panic (m ≫= k) = false.
Proof. destruct m; naive_solver. Qed.

Lemma fail_when_no_panic b e : is_Panic (fail_when b e) = false.
Proof. by destruct b. Qed.

Lemma when_no_panic b m : is_Panic m = false → is_Panic (when b m) = false.
Proof. by destruct b. Qed.

Ltac no_panic :=
  repeat first
    [ assumption
    | apply fail_when_no_panic
    | apply when_no_panic
    | apply bind_no_panic; [|intros ? _]
    | apply for_range_from_no_panic; intros ? ? _ ].
