(* ===== verification/State.v ===== *)
(** * Computations that change the world

    The state and error monad of the effectful components ([st]), its laws, and a
    small program logic: [sat m S F] states that [m] leads from a world to one that
    [S] relates to it when it succeeds, and to one that [F] relates to it when it
    returns an error or panics.  A pair of relations that composes ([Effect]) gives
    one rule for every construct, so a property of a long sequence of calls is proved
    call by call. *)

From S2P Require Import Prelude.
Local Open Scope stdpp_scope.

Definition st (W A : Type) : Type := W → res A * W.

#[export] Instance st_ret {W} : MRet (st W) := λ A a w, (Ok a, w).
#[export] Instance st_bind {W} : MBind (st W) := λ A B f m w,
  match m w with
  | (Ok a, w) => f a w
  | (Err e, w) => (Err e, w)
  | (Panic x, w) => (Panic x, w)
  end.

(** A computation that does not look at the world. *)
Definition pure {W A} (m : res A) : st W A := λ w, (m, w).
Definition st_wrap {W A} (message : string) (m : st W A) : st W A := λ w,
  let '(r, w) := m w in (errors_Wrap message r, w).
(** [_ = f()]: an error is dropped. *)
Definition ignore_err {W} (m : st W unit) : st W unit := λ w,
  match m w with (Err _, w) => (Ok tt, w) | o => o end.
(** [if err := m; err != nil { cleanup; return err }] *)
Definition on_error {W} (m cleanup : st W unit) : st W unit := λ w,
  match m w with
  | (Err e, w) => match cleanup w with (Panic x, w) => (Panic x, w) | (_, w) => (Err e, w) end
  | o => o
  end.
(** [a, err := m], where what follows looks at [err]. *)
Definition try_ {W A} (m : st W A) : st W (res A) := λ w,
  match m w with (Panic x, w) => (Panic x, w) | (r, w) => (Ok r, w) end.
(** [defer cleanup]: what is done at the end, whatever the result; its own is dropped. *)
Definition finally {W A} (m : st W A) (cleanup : st W unit) : st W A := λ w,
  let '(r, w) := m w in (r, snd (cleanup w)).
(** [if b { m }] *)
Definition st_when {W} (b : bool) (m : st W unit) : st W unit := if b then m else mret tt.
Definition get {W A} (f : W → A) : st W A := λ w, (Ok (f w), w).
Definition modify {W} (f : W → W) : st W unit := λ w, (Ok tt, f w).

(** [for _, x := range l { ... }] *)
Fixpoint st_each {W A} (f : A → st W unit) (l : list A) : st W unit :=
  match l with [] => mret tt | x :: l => f x ;; st_each f l end.

(** ** The program logic *)

Section logic.
Context {W : Type}.
Implicit Types S F : relation W.

Definition sat {A} (m : st W A) S F : Prop :=
  ∀ w, match m w with (Ok _, w') => S w w' | (_, w') => F w w' end.

Class Effect (S F : relation W) : Prop := {
  eff_refl :: Reflexive S;
  eff_trans :: Transitive S;
  eff_fail w : F w w;
  eff_seq w1 w2 w3 : S w1 w2 → F w2 w3 → F w1 w3
}.

Context {S F : relation W} `{!Effect S F}.

Lemma sat_ret {A} (a : A) : sat (mret a) S F.
Proof. intros w. apply eff_refl. Qed.

Lemma sat_pure {A} (r : res A) : sat (pure r) S F.
Proof. intros w. destruct r; simpl; [apply eff_refl|apply eff_fail..]. Qed.

Lemma sat_get {A} (f : W → A) : sat (get f) S F.
Proof. intros w. apply eff_refl. Qed.

Lemma sat_bind {A B} (m : st W A) (f : A → st W B) :
  sat m S F → (∀ a, sat (f a) S F) → sat (m ≫= f) S F.
Proof.
  intros Hm Hf w. specialize (Hm w). unfold mbind, st_bind. destruct (m w) as [[a|e|x] w']; [|done..].
  specialize (Hf a w'). destruct (f a w') as [[b|e|x] w'']; [by etrans|by eapply eff_seq..].
Qed.

Lemma sat_wrap {A} s (m : st W A) : sat m S F → sat (st_wrap s m) S F.
Proof. intros Hm w. specialize (Hm w). unfold st_wrap. by destruct (m w) as [[a|e|x] w']. Qed.

Lemma sat_if {A} (b : bool) (m n : st W A) : sat m S F → sat n S F → sat (if b then m else n) S F.
Proof. by destruct b. Qed.

Lemma sat_when (b : bool) (m : st W unit) : (b = true → sat m S F) → sat (st_when b m) S F.
Proof. destruct b; [auto|]. intros _. apply sat_ret. Qed.

Lemma sat_each {A} (f : A → st W unit) l : (∀ x, x ∈ l → sat (f x) S F) → sat (st_each f l) S F.
Proof.
  induction l as [|x l IH]; simpl; intros Hf; [apply sat_ret|].
  apply sat_bind; [apply Hf; left|]. intros _. apply IH. intros y Hy. apply Hf. by right.
Qed.

Lemma sat_modify f : (∀ w, S w (f w)) → sat (modify f) S F.
Proof. intros Hf w. apply Hf. Qed.

(** A computation whose errors are no failures of what follows. *)
Lemma sat_try {A} (m : st W A) : sat m S S → (∀ w x w', m w ≠ (Panic x, w')) → sat (try_ m) S F.
Proof.
  intros Hm Hp w. specialize (Hm w). specialize (Hp w). unfold try_.
  destruct (m w) as [[a|e|x] w']; [done..|]. by destruct (Hp x w').
Qed.

Lemma sat_try_pure {A} (r : res A) : sat (try_ (pure r)) S F.
Proof. intros w. destruct r; simpl; [apply eff_refl..|apply eff_fail]. Qed.

(** What the logic gives of a run. *)
Lemma sat_Ok {A} (m : st W A) w a w' : sat m S F → m w = (Ok a, w') → S w w'.
Proof. intros Hm Hw. specialize (Hm w). by rewrite Hw in Hm. Qed.

Lemma sat_Err {A} (m : st W A) w r w' : sat m S F → m w = (r, w') → is_Ok r = false → F w w'.
Proof. intros Hm Hw Hr. specialize (Hm w). rewrite Hw in Hm. by destruct r. Qed.
End logic.

Lemma sat_mono {W A} (m : st W A) (S F S' F' : relation W) :
  sat m S F → (∀ w w', S w w' → S' w w') → (∀ w w', F w w' → F' w w') → sat m S' F'.
Proof. intros Hm HS HF w. specialize (Hm w). destruct (m w) as [[]]; auto. Qed.

Lemma st_bind_Ok {W A B} (m : st W A) (f : A → st W B) w b w' :
  (m ≫= f) w = (Ok b, w') ↔ ∃ a v, m w = (Ok a, v) ∧ f a v = (Ok b, w').
Proof. unfold mbind, st_bind. destruct (m w) as [[a|e|x] v]; naive_solver. Qed.

Lemma st_wrap_Ok {W A} s (m : st W A) w a w' : st_wrap s m w = (Ok a, w') → m w = (Ok a, w').
Proof. unfold st_wrap. destruct (m w) as [r v] eqn:E. intros [= Er <-]. by apply errors_Wrap_Ok_iff in Er as ->. Qed.

Lemma pure_run {W A} (m r : res A) (w w' : W) : pure m w = (r, w') → m = r ∧ w' = w.
Proof. unfold pure. intros E. split; congruence. Qed.

(** Running the first call. *)
Lemma st_run {W A B} (m : st W A) (f : A → st W B) w a w' : m w = (Ok a, w') → (m ≫= f) w = f a w'.
Proof. unfold mbind, st_bind. by intros ->. Qed.

(** A loop over two lists, one after the other. *)
Lemma st_each_app {W A} (f : A → st W unit) l1 l2 w : st_each f (l1 ++ l2) w = (st_each f l1 ;; st_each f l2) w.
Proof.
  revert w. induction l1 as [|x l1 IH]; intros w; [done|]. simpl. unfold mbind, st_bind.
  destruct (f x w) as [[[]| |] w1]; [|done..]. apply IH.
Qed.

(** A relation that holds however a call ends. *)
Section always.
Context {W : Type} {S : relation W} `{!PreOrder S}.

#[export] Instance always_effect : Effect S S.
Proof. split; [apply _..|reflexivity|intros ? ? ? ? ?; by etrans]. Qed.

Lemma sat_ignore (m : st W unit) : sat m S S → sat (ignore_err m) S S.
Proof. intros Hm w. specialize (Hm w). unfold ignore_err. by destruct (m w) as [[]]. Qed.

Lemma sat_on_error (m c : st W unit) : sat m S S → sat c S S → sat (on_error m c) S S.
Proof.
  intros Hm Hc w. specialize (Hm w). unfold on_error. destruct (m w) as [[]] eqn:E; [done| |done].
  specialize (Hc w0). destruct (c w0) as [[]]; by etrans.
Qed.
Lemma sat_always {A} (m : st W A) : (∀ w r w', m w = (r, w') → S w w') → sat m S S.
Proof. intros Hm w. destruct (m w) as [[]] eqn:E; by eapply Hm. Qed.
End always.

(** The rules, tried on every goal of the logic. *)
Create HintDb sat discriminated.
#[export] Hint Resolve sat_ret sat_pure sat_get sat_wrap sat_each : sat.

Ltac sat_step :=
  lazymatch goal with
  | |- sat (_ ≫= _) _ _ => apply sat_bind; [|intros ?]
  | |- sat (mret _) _ _ => apply sat_ret
  | |- sat (pure _) _ _ => apply sat_pure
  | |- sat (get _) _ _ => apply sat_get
  | |- sat (try_ (pure _)) _ _ => apply sat_try_pure
  | |- sat (st_wrap _ _) _ _ => apply sat_wrap
  | |- sat (st_when _ _) _ _ => apply sat_when; intros ?
  | |- sat (st_each _ _) _ _ => apply sat_each; intros ? ?
  | |- sat (if ?x then _ else _) _ _ => first [apply sat_if | destruct x]
  | |- sat (match ?x with _ => _ end) _ _ => destruct x
  | |- sat (let '(_, _) := ?x in _) _ _ => destruct x
  end.
