(* ===== verification/Concurrent.v ===== *)
(** * Functions that run at once

    [errors.UntilErrorConcurrent] of functions that change the world, each taken as a
    whole, in an order that is not known ([Schedule]).  The goroutines and the channel
    are in [Errors]; here is what is left of them for a caller whose functions do not
    share anything but the world.  It returns with the first error that arrives, while
    the other functions still run: [at_once] gives them back with the error, and
    [until_error] lets some of them take their effect before the caller goes on; what the
    others do later is not part of its result ([Racing] follows them for the creation of a
    cluster).  Shown: what every function keeps is kept; and when there is
    no error every function has run. *)

From S2P Require Import Prelude State.
Local Open Scope stdpp_scope.

(** The order in which [n] functions that run at once end; and how many of [n] that still
    run, in that order, take their effect before the caller does anything else. *)
Class Schedule (W : Type) := {
  finish : W → nat → list nat;
  late : W → nat → nat;
  finish_perm w n : finish w n ≡ₚ seq 0 n
}.

(** The functions end one by one, and the first error ends the waiting: the result, those
    that still run, and the world. *)
Fixpoint until_first {W A} (run : A → st W unit) (l : list A) (w : W) : res unit * list A * W :=
  match l with
  | [] => (Ok tt, [], w)
  | x :: l => match run x w with
              | (Ok _, w) => until_first run l w
              | (Err e, w) => (Err e, l, w)
              | (Panic p, w) => (Panic p, l, w)
              end
  end.
Definition at_once {W A} `{Schedule W} (run : A → st W unit) (l : list A) (w : W) : res unit * list A * W :=
  until_first run (omap (l !!.) (finish w (length l))) w.

(** Functions that still run take their effect; nobody reads what they return. *)
Fixpoint go_on {W A} (run : A → st W unit) (l : list A) (w : W) : W :=
  match l with
  | [] => w
  | x :: l => go_on run l (snd (run x w))
  end.

(** [UntilErrorConcurrent], for a caller that knows nothing of the functions. *)
Definition until_error {W} `{Schedule W} (fns : list (st W unit)) : st W unit := λ w,
  let '(r, running, w) := at_once id fns w in
  (r, go_on id (take (late w (length running)) running) w).

(** All elements of a list, in another order. *)
Lemma select_perm {A} (l : list A) idx : idx ≡ₚ seq 0 (length l) → omap (l !!.) idx ≡ₚ l.
Proof.
  intros Hi. rewrite (omap_Permutation _ _ _ Hi).
  assert (∀ l k : list A, omap ((k ++ l) !!.) (seq (length k) (length l)) = l) as Hs; [|pose proof (Hs l []) as E; simpl in E; by rewrite E].
  clear. intros l. induction l as [|x l IH]; intros k; [done|]. cbn [seq length]. simpl.
  rewrite lookup_app_r, Nat.sub_diag by lia. simpl. f_equal.
  specialize (IH (k ++ [x])). rewrite length_app in IH. simpl in IH. rewrite <-app_assoc in IH.
  by rewrite Nat.add_1_r in IH.
Qed.

Lemma select_fmap {A B} (f : A → B) (l : list A) (idx : list nat) : omap ((f <$> l) !!.) idx = f <$> omap (l !!.) idx.
Proof.
  induction idx as [|i idx IH]; [done|]. simpl. rewrite list_lookup_fmap.
  destruct (l !! i); simpl; [f_equal|]; exact IH.
Qed.

Lemma until_first_fmap {W A} (f : A → st W unit) l w :
  until_first id (f <$> l) w = let '(r, running, w') := until_first f l w in (r, f <$> running, w').
Proof.
  revert w. induction l as [|x l IH]; intros w; [done|]. cbn [until_first fmap list_fmap]. change (id (f x) w) with (f x w).
  destruct (f x w) as [[[]|e|p] w1]; [apply IH|done..].
Qed.
Lemma go_on_fmap {W A} (f : A → st W unit) l w : go_on id (f <$> l) w = go_on f l w.
Proof. revert w. induction l as [|x l IH]; intros w; [done|]. apply IH. Qed.

Lemma until_first_none {W A} (run : A → st W unit) l w running w' :
  until_first run l w = (Ok tt, running, w') → running = [].
Proof.
  revert w. induction l as [|x l IH]; intros w; cbn [until_first]; [by intros [= <- _]|].
  destruct (run x w) as [[[]|e|p] w1]; [apply IH|done..].
Qed.

Lemma until_first_running {W A} (run : A → st W unit) l w r running w' :
  until_first run l w = (r, running, w') → running ⊆ l.
Proof.
  revert w. induction l as [|x l IH]; intros w; cbn [until_first]; [by intros [= _ <- _]|].
  destruct (run x w) as [[[]|e|p] w1]; [intros Hr%IH; set_solver|intros [= _ <- _]; set_solver..].
Qed.
Lemma at_once_running {W A} `{Schedule W} (run : A → st W unit) l w r running w' :
  at_once run l w = (r, running, w') → running ⊆ l.
Proof. intros Hr%until_first_running. by rewrite (select_perm _ _ (finish_perm _ _)) in Hr. Qed.

Section keeping.
Context {W : Type} {S : relation W} `{!PreOrder S}.

Lemma sat_try_always {A} (m : st W A) : sat m S S → sat (try_ m) S S.
Proof. intros Hm w. specialize (Hm w). unfold try_. by destruct (m w) as [[]]. Qed.

Lemma until_first_sat {A} (run : A → st W unit) l w r running w' : Forall (λ x, sat (run x) S S) l →
  until_first run l w = (r, running, w') → S w w' ∧ running ⊆ l.
Proof.
  intros Hf. revert w. induction Hf as [|x l Hx _ IH]; intros w; cbn [until_first]; [by intros [= <- <- <-]|].
  specialize (Hx w). destruct (run x w) as [[[]|e|p] w1]; [|intros [= <- <- <-]; split; [done|set_solver]..].
  intros [Hs Hr]%IH. split; [by etrans|set_solver].
Qed.

Lemma go_on_sat {A} (run : A → st W unit) l w : Forall (λ x, sat (run x) S S) l → S w (go_on run l w).
Proof.
  intros Hf. revert w. induction Hf as [|x l Hx _ IH]; intros w; [done|]. cbn [go_on].
  etrans; [|apply IH]. specialize (Hx w). by destruct (run x w) as [[] w1].
Qed.

(** When nothing fails, every function has run, and none still runs. *)
Lemma until_first_Ok {A} (run : A → st W unit) l w running w' : Forall (λ x, sat (run x) S S) l →
  until_first run l w = (Ok tt, running, w') →
  running = [] ∧ ∀ x, x ∈ l → ∃ v v', run x v = (Ok tt, v') ∧ S w v ∧ S v' w'.
Proof.
  intros Hf. revert w. induction Hf as [|x l Hx Hl IH]; intros w; cbn [until_first].
  - intros [= <- <-]. split; [done|]. by intros ? ?%not_elem_of_nil.
  - pose proof (Hx w) as Hw. destruct (run x w) as [[[]|e|p] w1] eqn:Ex; [|done..]. intros E.
    pose proof (until_first_sat _ _ _ _ _ _ Hl E) as [Hs _]. apply IH in E as [-> Hall]. split; [done|].
    intros y [->|Hy]%elem_of_cons; [by exists w, w1|].
    destruct (Hall y Hy) as (u & u' & Eu & Hu & Hu'). exists u, u'. split_and!; [done|by etrans|done].
Qed.

Context `{Schedule W}.

Lemma until_error_perm {A} (fns : list A) w : omap (fns !!.) (finish w (length fns)) ≡ₚ fns.
Proof. apply select_perm, finish_perm. Qed.

Lemma at_once_sat {A} (run : A → st W unit) l w r running w' : Forall (λ x, sat (run x) S S) l →
  at_once run l w = (r, running, w') → S w w' ∧ running ⊆ l.
Proof.
  intros Hf [Hs Hr]%until_first_sat; [|by rewrite until_error_perm]. by rewrite until_error_perm in Hr.
Qed.
Lemma at_once_Ok {A} (run : A → st W unit) l w running w' : Forall (λ x, sat (run x) S S) l →
  at_once run l w = (Ok tt, running, w') →
  running = [] ∧ ∀ x, x ∈ l → ∃ v v', run x v = (Ok tt, v') ∧ S w v ∧ S v' w'.
Proof.
  intros Hf [-> Hall]%until_first_Ok; [|by rewrite until_error_perm]. split; [done|].
  intros x Hx. apply Hall. by rewrite until_error_perm.
Qed.

(** The functions of a list of what they are made from. *)
Lemma until_error_fmap {A} (f : A → st W unit) l w :
  until_error (f <$> l) w =
    let '(r, running, w') := at_once f l w in (r, go_on f (take (late w' (length running)) running) w').
Proof using.
  unfold until_error, at_once. rewrite length_fmap, select_fmap, until_first_fmap.
  destruct (until_first _ _ _) as [[r running] w']. by rewrite length_fmap, <-fmap_take, go_on_fmap.
Qed.

Lemma until_error_sat fns : Forall (λ f, sat f S S) fns → sat (until_error fns) S S.
Proof.
  intros Hf. apply sat_always. intros w r w'. unfold until_error. destruct (at_once id fns w) as [[r1 running] w1] eqn:E.
  apply at_once_sat in E as [Hs Hr]; [|done]. intros [= _ <-]. etrans; [done|]. apply go_on_sat, Forall_take.
  rewrite Forall_forall in Hf. apply Forall_forall. intros f Hin. by apply Hf, Hr.
Qed.

Lemma until_error_Ok fns w w' : Forall (λ f, sat f S S) fns → until_error fns w = (Ok tt, w') →
  ∀ f, f ∈ fns → ∃ v v', f v = (Ok tt, v') ∧ S w v ∧ S v' w'.
Proof.
  intros Hf. unfold until_error. destruct (at_once id fns w) as [[r running] w1] eqn:E. intros [= -> <-].
  apply at_once_Ok in E as [-> Hall]; [|done]. by rewrite take_nil.
Qed.
End keeping.

#[export] Hint Resolve until_error_sat sat_try_always : sat.
