(* ===== verification/GoStr.v ===== *)
(** * Go strings and the part of [strings], [strconv] and [unicode/utf8] the
    program uses

    A Go string is a sequence of bytes: a Rocq [string].  [runes] is the
    conversion [[]rune(s)], [Split]/[Join]/[Contains]/... are the functions of
    the package [strings] (with a non-empty separator), [ParseUint]/[Atoi]/[Itoa]
    those of [strconv] in base 10. *)

From S2P Require Import Prelude.
From Stdlib Require Import DecimalString DecimalFacts DecimalPos DecimalN DecimalNat.
Local Open Scope Z_scope.

(** ** Bytes and runes *)

Definition byte_code (c : Ascii.ascii) : Z := Z.of_N (Ascii.N_of_ascii c).

Fixpoint bytes (s : string) : list Z :=
  match s with
  | "" => []
  | String c s => byte_code c :: bytes s
  end.

Definition in_rng (lo hi x : Z) : bool := (lo <=? x) && (x <=? hi).

Definition RuneError : Z := 65533.

(** [utf8.DecodeRune]: the first rune and the number of bytes it takes; an
    invalid encoding gives [RuneError] and one byte. *)
Definition decode_rune (l : list Z) : Z * nat :=
  match l with
  | [] => (RuneError, 0%nat)
  | b0 :: r =>
    if b0 <? 128 then (b0, 1%nat) else
    match r with
    | b1 :: r1 =>
      if in_rng 194 223 b0 && in_rng 128 191 b1
      then ((b0 - 192) * 64 + (b1 - 128), 2%nat) else
      match r1 with
      | b2 :: r2 =>
        if in_rng 224 239 b0 && in_rng 128 191 b2 &&
           in_rng (if b0 =? 224 then 160 else 128) (if b0 =? 237 then 159 else 191) b1
        then ((b0 - 224) * 4096 + (b1 - 128) * 64 + (b2 - 128), 3%nat) else
        match r2 with
        | b3 :: _ =>
          if in_rng 240 244 b0 && in_rng 128 191 b2 && in_rng 128 191 b3 &&
             in_rng (if b0 =? 240 then 144 else 128) (if b0 =? 244 then 143 else 191) b1
          then ((b0 - 240) * 262144 + (b1 - 128) * 4096 + (b2 - 128) * 64 + (b3 - 128), 4%nat)
          else (RuneError, 1%nat)
        | [] => (RuneError, 1%nat)
        end
      | [] => (RuneError, 1%nat)
      end
    | [] => (RuneError, 1%nat)
    end
  end.

(** The loop of [range s]; [skip] counts the bytes of the current rune that are
    still to be passed over. *)
Fixpoint runes_from (skip : nat) (l : list Z) : list Z :=
  match l with
  | [] => []
  | b :: l' =>
    match skip with
    | S k => runes_from k l'
    | O => let '(r, w) := decode_rune l in r :: runes_from (pred w) l'
    end
  end.

Definition runes (s : string) : list Z := runes_from 0 (bytes s).

Definition is_ascii (s : string) : Prop := Forall (λ b, b < 128) (bytes s).

Lemma byte_code_range c : 0 <= byte_code c < 256.
Proof. unfold byte_code. pose proof (Ascii.N_ascii_bounded c). lia. Qed.

Lemma byte_code_inj c d : byte_code c = byte_code d → c = d.
Proof.
  unfold byte_code. intros H. rewrite <-(Ascii.ascii_N_embedding c), <-(Ascii.ascii_N_embedding d).
  f_equal. lia.
Qed.

Lemma bytes_app s t : bytes (s +:+ t) = bytes s ++ bytes t.
Proof. induction s as [|c s IH]; simpl; [done|]. by f_equal. Qed.

Lemma bytes_inj s t : bytes s = bytes t → s = t.
Proof.
  revert t. induction s as [|c s IH]; intros [|d t]; simpl; try done.
  intros [= H1 H2]. apply byte_code_inj in H1 as ->. f_equal. auto.
Qed.

Lemma length_bytes s : length (bytes s) = String.length s.
Proof. induction s; simpl; congruence. Qed.

Lemma runes_from_ascii l : Forall (λ b, b < 128) l → runes_from 0 l = l.
Proof.
  induction 1 as [|b l Hb _ IH]; simpl; [done|].
  rewrite (proj2 (Z.ltb_lt b 128) Hb). simpl. by f_equal.
Qed.

Lemma runes_ascii s : is_ascii s → runes s = bytes s.
Proof. apply runes_from_ascii. Qed.

Lemma decode_rune_ge128 b l : 128 <= b → (∀ x, x ∈ l → 0 <= x) → 128 <= fst (decode_rune (b :: l)).
Proof.
  intros Hb Hl. cbn [decode_rune]. rewrite (proj2 (Z.ltb_ge b 128)) by lia.
  unfold in_rng, RuneError. destruct l as [|b1 [|b2 [|b3 l]]];
  repeat case_match; simpl; autorewrite with skind_inv in *;
  destruct_and?; lia.
Qed.

(** A rune below 128 can only come from the byte itself, so a string all of
    whose runes are ASCII is an ASCII string. *)
Lemma runes_from_all_ascii l :
  (∀ x, x ∈ l → 0 <= x) → Forall (λ r, r < 128) (runes_from 0 l) → Forall (λ b, b < 128) l.
Proof.
  induction l as [|b l IH]; intros Hnn Hr; constructor.
  - destruct (Z_lt_dec b 128) as [|Hge]; [done|].
    pose proof (decode_rune_ge128 b l ltac:(lia)) as Hd.
    cbn [runes_from] in Hr. destruct (decode_rune (b :: l)) as [r w]; simpl in *.
    apply Forall_cons in Hr as [Hr _].
    enough (128 <= r) by lia. apply Hd. intros x Hx. apply Hnn. by right.
  - destruct (Z_lt_dec b 128) as [Hlt|Hge].
    + cbn [runes_from decode_rune] in Hr. rewrite (proj2 (Z.ltb_lt b 128) Hlt) in Hr. simpl in Hr.
      apply Forall_cons in Hr as [_ Hr]. apply IH; [|done]. intros x Hx. apply Hnn. by right.
    + exfalso. pose proof (decode_rune_ge128 b l ltac:(lia)) as Hd.
      cbn [runes_from] in Hr. destruct (decode_rune (b :: l)) as [r w]; simpl in *.
      apply Forall_cons in Hr as [Hr _].
      enough (128 <= r) by lia. apply Hd. intros x Hx. apply Hnn. by right.
Qed.

Lemma bytes_nonneg s x : x ∈ bytes s → 0 <= x.
Proof.
  induction s as [|c s IH]; simpl; [by intros ?%not_elem_of_nil|].
  intros [->|Hx]%elem_of_cons; [apply byte_code_range|auto].
Qed.

Lemma runes_all_ascii s : Forall (λ r, r < 128) (runes s) → is_ascii s.
Proof. apply runes_from_all_ascii. apply bytes_nonneg. Qed.

Lemma runes_determine s t : is_ascii t → runes s = runes t → s = t.
Proof.
  intros Ht Hr. assert (is_ascii s) as Hs.
  { apply runes_all_ascii. rewrite Hr, (runes_ascii t Ht). apply Ht. }
  apply bytes_inj. by rewrite <-(runes_ascii s Hs), Hr, (runes_ascii t Ht).
Qed.

(** ** The package [strings] *)

Definition HasPrefix (s p : string) : bool := String.prefix p s.

Fixpoint string_rev_app (s acc : string) : string :=
  match s with "" => acc | String c s => string_rev_app s (String c acc) end.
Definition string_rev (s : string) : string := string_rev_app s "".

Definition HasSuffix (s p : string) : bool := String.prefix (string_rev p) (string_rev s).

Fixpoint Contains (s sub : string) : bool :=
  String.prefix sub s || match s with "" => false | String _ s => Contains s sub end.

(** [strings.Split(s, sep)] for a non-empty [sep]: [skip] counts the bytes of
    the separator that are still to be passed over. *)
Fixpoint split_from (sep : string) (skip : nat) (s : string) : string * list string :=
  match s with
  | "" => ("", [])
  | String c s' =>
    match skip with
    | S k => split_from sep k s'
    | O =>
      if String.prefix sep s
      then let '(h, t) := split_from sep (pred (String.length sep)) s' in ("", h :: t)
      else let '(h, t) := split_from sep 0 s' in (String c h, t)
    end
  end.
Definition Split (s sep : string) : list string :=
  let '(h, t) := split_from sep 0 s in h :: t.

Fixpoint Join (l : list string) (sep : string) : string :=
  match l with
  | [] => ""
  | [x] => x
  | x :: l => x +:+ sep +:+ Join l sep
  end.

(** [strings.ReplaceAll] replaces the non-overlapping occurrences from the left. *)
Definition ReplaceAll (s old new : string) : string := Join (Split s old) new.

(** Case mapping of the ASCII letters. *)
Definition lower_byte (c : Ascii.ascii) : Ascii.ascii :=
  let n := Ascii.N_of_ascii c in
  if ((65 <=? n) && (n <=? 90))%N then Ascii.ascii_of_N (n + 32) else c.
Definition upper_byte (c : Ascii.ascii) : Ascii.ascii :=
  let n := Ascii.N_of_ascii c in
  if ((97 <=? n) && (n <=? 122))%N then Ascii.ascii_of_N (n - 32) else c.
Fixpoint string_map (f : Ascii.ascii → Ascii.ascii) (s : string) : string :=
  match s with "" => "" | String c s => String (f c) (string_map f s) end.
Definition ToLower : string → string := string_map lower_byte.
Definition ToUpper : string → string := string_map upper_byte.

(** [unicode.IsSpace] *)
Definition IsSpace (r : Z) : bool :=
  in_rng 9 13 r || (r =? 32) || (r =? 133) || (r =? 160) || (r =? 5760) ||
  in_rng 8192 8202 r || (r =? 8232) || (r =? 8233) || (r =? 8239) || (r =? 8287) || (r =? 12288).

(** [strings.TrimSpace(s) == ""] *)
Definition is_blank (s : string) : bool := forallb IsSpace (runes s).

(** [strings.TrimSpace]. *)
Fixpoint rune_spans (pos skip : nat) (l : list Z) : list (Z * nat * nat) :=
  match l with
  | [] => []
  | b :: l' =>
      match skip with
      | S k => rune_spans (S pos) k l'
      | O => let '(r, n) := decode_rune l in (r, pos, n) :: rune_spans (S pos) (pred n) l'
      end
  end.
Definition TrimSpace (s : string) : string :=
  match List.filter (λ x, negb (IsSpace (fst (fst x)))) (rune_spans 0 0 (bytes s)) with
  | [] => ""
  | (r, p, n) :: l =>
      let '(_, p', n') := List.last l (r, p, n) in String.substring p (p' + n' - p) s
  end.

(** JSON written with backquotes for the quotes. *)
Definition js (s : string) : string := string_map (λ c, if Ascii.eqb c "`" then Ascii.ascii_of_nat 34 else c) s.

Lemma length_app_string s t : String.length (s +:+ t) = (String.length s + String.length t)%nat.
Proof. induction s as [|c s IH]; simpl; [done|]. by f_equal. Qed.

Lemma string_app_assoc (s t u : string) : (s +:+ t) +:+ u = s +:+ (t +:+ u).
Proof. induction s as [|c s IH]; simpl; [done|]. by f_equal. Qed.

Lemma string_app_nil_r (s : string) : s +:+ "" = s.
Proof. induction s as [|c s IH]; simpl; [done|]. by f_equal. Qed.

Lemma prefix_spec p s : String.prefix p s = true ↔ ∃ t, s = p +:+ t.
Proof.
  revert s. induction p as [|c p IH]; intros s; [destruct s; split; eauto|].
  destruct s as [|d s]; simpl; [split; [done|by intros [??]]|].
  case_match; subst.
  - rewrite IH. split; intros [t Ht]; exists t; [by rewrite Ht|by injection Ht].
  - split; [done|]. intros [t Ht]. congruence.
Qed.

Lemma HasPrefix_spec s p : HasPrefix s p = true ↔ ∃ t, s = p +:+ t.
Proof. apply prefix_spec. Qed.

Lemma Contains_spec s sub : Contains s sub = true ↔ ∃ a b, s = a +:+ sub +:+ b.
Proof.
  induction s as [|c s IH]; cbn [Contains]; rewrite orb_true_iff, prefix_spec.
  - split.
    + intros [[t Ht]|?]; [by exists "", t|done].
    + intros (a & b & H). left. destruct a; [by exists b|done].
  - rewrite IH. split.
    + intros [[t Ht]|(a & b & ->)]; [by exists "", t|by exists (String c a), b].
    + intros ([|d a] & b & H); [left; by exists b|].
      right. injection H as _ H. by exists a, b.
Qed.

Lemma split_from_skip sep n s t :
  n = String.length s → split_from sep n (s +:+ t) = split_from sep 0 t.
Proof. intros ->. induction s as [|c s IH]; simpl; [by destruct t|done]. Qed.

Lemma Join_cons x y l sep : Join (x :: y :: l) sep = x +:+ sep +:+ Join (y :: l) sep.
Proof. done. Qed.

Lemma Join_cons_head c h l sep : Join (String c h :: l) sep = String c (Join (h :: l) sep).
Proof. by destruct l. Qed.

(** Joining what [Split] returns gives the string back. *)
Lemma Join_Split s sep : sep ≠ "" → Join (Split s sep) sep = s.
Proof.
  intros Hsep. unfold Split.
  assert (∀ n s, (String.length s <= n)%nat →
    Join (let '(h, t) := split_from sep 0 s in h :: t) sep = s) as Hgo.
  { clear s. intros n. induction n as [|n IH]; intros s Hn.
    { by destruct s; simpl in *; [|lia]. }
    destruct s as [|c s]; [done|]. simpl in Hn.
    cbn [split_from]. destruct (String.prefix sep (String c s)) eqn:Hp.
    - apply prefix_spec in Hp as [t Ht].
      destruct sep as [|d sep]; [done|]. injection Ht as -> ->. clear Hsep.
      cbn [String.length pred]. rewrite split_from_skip by done.
      rewrite length_app_string in Hn. specialize (IH t ltac:(lia)).
      destruct (split_from (String d sep) 0 t) as [h l].
      rewrite Join_cons, IH. done.
    - specialize (IH s ltac:(lia)). destruct (split_from sep 0 s) as [h l].
      by rewrite Join_cons_head, IH. }
  by eapply Hgo.
Qed.

Definition char_in (c : Ascii.ascii) (s : string) : Prop := ∃ a b, s = a +:+ String c b.

Lemma char_in_cons c d s : char_in c (String d s) ↔ c = d ∨ char_in c s.
Proof.
  split.
  - intros ([|e a] & b & H); simpl in H; injection H as -> ->; [by left|right; by exists a, b].
  - intros [->|(a & b & ->)]; [by exists "", s|by exists (String d a), b].
Qed.

Lemma char_in_app c s t : char_in c (s +:+ t) ↔ char_in c s ∨ char_in c t.
Proof.
  induction s as [|d s IH]; simpl.
  - split; [by right|]. intros [(a & b & H)|?]; [by destruct a|done].
  - rewrite !char_in_cons, IH. tauto.
Qed.

#[export] Instance char_in_dec c s : Decision (char_in c s).
Proof.
  induction s as [|d s IH].
  - right. by intros ([|??] & ? & ?).
  - destruct (decide (c = d)) as [->|Hne]; [left; apply char_in_cons; by left|].
    destruct IH as [Hin|Hin]; [left|right]; rewrite char_in_cons; tauto.
Defined.

(** Strings without the separator byte are the pieces [Split] finds. *)
Lemma split_from_app_sep c s t :
  ¬ char_in c s →
  split_from (String c "") 0 (s +:+ String c t) =
    (s, let '(h, l) := split_from (String c "") 0 t in h :: l).
Proof.
  induction s as [|d s IH]; intros Hs.
  - cbn [split_from String.append]. simpl. destruct (Ascii.ascii_dec c c); [|done].
    destruct t as [|d t]; [done|]. by destruct (split_from _ 0 _).
  - cbn [split_from String.append]. simpl. destruct (Ascii.ascii_dec c d) as [<-|Hne].
    { destruct Hs. by exists "", s. }
    rewrite IH; [done|]. intros (a & b & ->). apply Hs. by exists (String d a), b.
Qed.

Lemma split_from_no_sep c s : ¬ char_in c s → split_from (String c "") 0 s = (s, []).
Proof.
  induction s as [|d s IH]; intros Hs; [done|].
  cbn [split_from]. simpl. destruct (Ascii.ascii_dec c d) as [<-|Hne].
  { destruct Hs. by exists "", s. }
  rewrite IH; [done|]. intros (a & b & ->). apply Hs. by exists (String d a), b.
Qed.

Lemma Split_Join c l :
  l ≠ [] → Forall (λ s, ¬ char_in c s) l → Split (Join l (String c "")) (String c "") = l.
Proof.
  intros Hne Hl. unfold Split.
  induction l as [|x [|y l] IH]; [done| |].
  - apply Forall_cons in Hl as [Hx _]. simpl. by rewrite split_from_no_sep.
  - apply Forall_cons in Hl as [Hx Hl]. rewrite Join_cons. cbn [String.append].
    change (String c "" +:+ Join (y :: l) (String c "")) with (String c (Join (y :: l) (String c ""))).
    rewrite split_from_app_sep by done. specialize (IH ltac:(done) Hl).
    destruct (split_from _ 0 _) as [h t]. by rewrite IH.
Qed.

Lemma Split_nonempty s sep : Split s sep ≠ [].
Proof. unfold Split. by destruct (split_from sep 0 s). Qed.

(** ** The package [strconv], base 10 *)

Definition max_uint64 : Z := 18446744073709551615.
Definition max_int64 : Z := 9223372036854775807.
Definition min_int64 : Z := -9223372036854775808.

(** [strconv.ParseUint(s, 10, 64)], [None] for its error (empty string, a byte
    that is not a digit, a value out of range). *)
Definition ParseUint (s : string) : option Z :=
  match s with
  | "" => None
  | _ =>
    match NilEmpty.uint_of_string s with
    | Some u => let n := Z.of_N (N.of_uint u) in if n <=? max_uint64 then Some n else None
    | None => None
    end
  end.

(** [strconv.Atoi] on a 64-bit platform. *)
Definition Atoi (s : string) : option Z :=
  let signed sgn t :=
    match ParseUint t with
    | Some n => if in_rng min_int64 max_int64 (sgn * n) then Some (sgn * n) else None
    | None => None
    end in
  match s with
  | String c t => if Ascii.eqb c "-"%char then signed (-1) t
                  else if Ascii.eqb c "+"%char then signed 1 t else signed 1 s
  | "" => None
  end.

(** [fmt.Sprintf("%d", n)] of an unsigned integer, [strconv.Itoa]. *)
Definition fmt_uint (n : Z) : string := NilEmpty.string_of_uint (N.to_uint (Z.to_N n)).
Definition Itoa (n : Z) : string :=
  if n <? 0 then String "-"%char (fmt_uint (- n)) else fmt_uint n.

Lemma to_uint_nonnil n : N.to_uint n ≠ Decimal.Nil.
Proof.
  destruct n as [|p]; [done|]. simpl. apply DecimalPos.Unsigned.to_uint_nonnil.
Qed.

Lemma fmt_uint_nonempty n : fmt_uint n ≠ "".
Proof.
  unfold fmt_uint. intros H. apply (to_uint_nonnil (Z.to_N n)).
  by destruct (N.to_uint (Z.to_N n)).
Qed.

(** Reading back a printed number. *)
Lemma ParseUint_fmt n : 0 <= n <= max_uint64 → ParseUint (fmt_uint n) = Some n.
Proof.
  intros Hn. unfold ParseUint. destruct (fmt_uint n) as [|c s] eqn:Hs.
  { by apply fmt_uint_nonempty in Hs. }
  rewrite <-Hs. unfold fmt_uint. rewrite NilEmpty.usu, DecimalN.Unsigned.of_to.
  rewrite Z2N.id by lia. by rewrite (proj2 (Z.leb_le _ _)) by lia.
Qed.

Lemma fmt_uint_inj n m : 0 <= n <= max_uint64 → 0 <= m <= max_uint64 →
  fmt_uint n = fmt_uint m → n = m.
Proof.
  intros Hn Hm H. apply (f_equal ParseUint) in H.
  rewrite !ParseUint_fmt in H by done. congruence.
Qed.

Lemma ParseUint_range s n : ParseUint s = Some n → 0 <= n <= max_uint64.
Proof.
  unfold ParseUint. intros H. repeat case_match; simplify_eq.
  apply Z.leb_le in H2. lia.
Qed.

Definition is_digit (c : Ascii.ascii) : bool := in_rng 48 57 (byte_code c).

Fixpoint all_chars (f : Ascii.ascii → bool) (s : string) : bool :=
  match s with "" => true | String c s => f c && all_chars f s end.

Lemma all_chars_app f s t : all_chars f (s +:+ t) = all_chars f s && all_chars f t.
Proof. induction s as [|c s IH]; simpl; [done|]. by rewrite IH, andb_assoc. Qed.

Lemma all_chars_not_in f c s : all_chars f s = true → f c = false → ¬ char_in c s.
Proof.
  intros Hs Hc (a & b & ->). rewrite all_chars_app in Hs. simpl in Hs.
  rewrite Hc in Hs. by rewrite andb_false_r in Hs.
Qed.

Lemma all_chars_impl (f g : Ascii.ascii → bool) s :
  (∀ c, f c = true → g c = true) → all_chars f s = true → all_chars g s = true.
Proof.
  intros Hfg. induction s as [|c s IH]; simpl; [done|].
  rewrite !andb_true_iff. naive_solver.
Qed.

Lemma string_of_uint_digits u : all_chars is_digit (NilEmpty.string_of_uint u) = true.
Proof. by induction u. Qed.

Lemma fmt_uint_digits n : all_chars is_digit (fmt_uint n) = true.
Proof. apply string_of_uint_digits. Qed.

Lemma uint_of_string_digits s :
  all_chars is_digit s = true ↔ is_Some (NilEmpty.uint_of_string s).
Proof.
  induction s as [|c s IH]; simpl; [naive_solver|].
  rewrite andb_true_iff, IH.
  destruct (NilEmpty.uint_of_string s) as [u|]; simpl.
  - destruct c as [[] [] [] [] [] [] [] []]; simpl; split; intros H; try done;
      try (by destruct H as [? ?]); eauto.
  - split; [intros [_ [??]]; done|]. intros [? H].
    destruct c as [[] [] [] [] [] [] [] []]; simpl in H; done.
Qed.

Lemma ParseUint_digits s n : ParseUint s = Some n → all_chars is_digit s = true.
Proof.
  unfold ParseUint. intros H. repeat case_match; simplify_eq.
  apply uint_of_string_digits. eauto.
Qed.

(** A printed number has no leading zero. *)
Lemma fmt_uint_no_leading_zero n t : fmt_uint n = String "0"%char t → t = "".
Proof.
  unfold fmt_uint. intros H.
  assert (N.to_uint (Z.to_N n) = Decimal.unorm (N.to_uint (Z.to_N n))) as Hnorm.
  { by rewrite <-DecimalN.Unsigned.to_of, DecimalN.Unsigned.of_to. }
  destruct (N.to_uint (Z.to_N n)) as [|u|u|u|u|u|u|u|u|u|u]; try done.
  unfold Decimal.unorm in Hnorm.
  destruct (Decimal.nzhead (Decimal.D0 u)) eqn:Hz; try done.
  - injection Hnorm as ->. by injection H as <-.
  - by apply DecimalFacts.nzhead_nonzero in Hz.
Qed.

(** ** Removing a byte, and the text before a separator *)

Fixpoint strip (c : ascii) (s : string) : string :=
  match s with
  | "" => ""
  | String d s => if Ascii.eqb d c then strip c s else String d (strip c s)
  end.

Lemma split_from_byte c d s :
  split_from (String c "") 0 (String d s) =
    let '(h, t) := split_from (String c "") 0 s in
    if Ascii.eqb d c then ("", h :: t) else (String d h, t).
Proof.
  cbn [split_from String.prefix]. destruct (Ascii.ascii_dec c d) as [<-|Hne].
  - rewrite Ascii.eqb_refl. destruct s; done.
  - rewrite (proj2 (Ascii.eqb_neq d c)) by congruence. done.
Qed.

Lemma ReplaceAll_byte c s : ReplaceAll s (String c "") "" = strip c s.
Proof.
  unfold ReplaceAll, Split. induction s as [|d s IH]; [done|].
  rewrite split_from_byte. cbn [strip]. destruct (split_from _ 0 s) as [h t]. rewrite <-IH.
  destruct (Ascii.eqb d c); [done|]. by destruct t.
Qed.

(** [Join (Split s sep)[:2] sep]. *)
Definition first_two (s : string) : string := Join (take 2 (Split s ".")) ".".
Definition before_dot (s : string) : string := fst (split_from "." 0 s).

Lemma first_two_cons c s : c ≠ "."%char → first_two (String c s) = String c (first_two s).
Proof.
  intros Hc. unfold first_two, Split. rewrite split_from_byte.
  rewrite (proj2 (Ascii.eqb_neq c ".") Hc). destruct (split_from "." 0 s) as [h [|x t]]; done.
Qed.

Lemma first_two_dot s : first_two (String "." s) = String "." (before_dot s).
Proof.
  unfold first_two, before_dot, Split. rewrite split_from_byte. simpl.
  by destruct (split_from "." 0 s) as [h t].
Qed.

Lemma before_dot_cons c s : c ≠ "."%char → before_dot (String c s) = String c (before_dot s).
Proof.
  intros Hc. unfold before_dot. rewrite split_from_byte.
  rewrite (proj2 (Ascii.eqb_neq c ".") Hc). by destruct (split_from "." 0 s).
Qed.

Lemma before_dot_dot s : before_dot (String "." s) = "".
Proof. unfold before_dot. rewrite split_from_byte. by destruct (split_from "." 0 s). Qed.

Lemma length_Split_byte c s : (length (Split s (String c "")) < 2)%nat ↔ ¬ char_in c s.
Proof.
  split.
  - intros Hlen. unfold Split in Hlen.
    induction s as [|d s IH]; [intros ([|??] & ? & ?); done|].
    rewrite split_from_byte in Hlen. destruct (split_from _ 0 s) as [h t].
    destruct (Ascii.eqb_spec d c) as [->|Hne]; simpl in *; [lia|].
    intros ([|e a] & b & Hab); simpl in Hab; injection Hab as -> ->; [done|].
    apply IH; [lia|]. by exists a, b.
  - intros Hc. unfold Split. rewrite split_from_no_sep by done. simpl. lia.
Qed.

(** The first rune of a string: its first byte when it is below 128. *)
Lemma runes_cons_inv s r l :
  runes s = r :: l → ∃ c t, s = String c t ∧
    ((byte_code c = r ∧ r < 128 ∧ runes t = l) ∨ (128 <= byte_code c ∧ 128 <= r)).
Proof.
  destruct s as [|c t]; [done|]. intros H. exists c, t. split; [done|].
  unfold runes in *. cbn [bytes runes_from] in H.
  destruct (Z_lt_dec (byte_code c) 128) as [Hlt|Hge]; [left|right].
  - cbn [decode_rune] in H. rewrite (proj2 (Z.ltb_lt _ _) Hlt) in H. by injection H as <- <-.
  - pose proof (decode_rune_ge128 (byte_code c) (bytes t) ltac:(lia) (bytes_nonneg t)) as Hd.
    destruct (decode_rune _) as [r' w]. injection H as -> _. simpl in Hd. lia.
Qed.

Lemma runes_cons_ascii_inv s r l :
  runes s = r :: l → r < 128 → ∃ c t, s = String c t ∧ byte_code c = r ∧ runes t = l.
Proof.
  intros H Hr. apply runes_cons_inv in H as (c & t & -> & [(? & _ & ?)|[_ ?]]); [eauto|lia].
Qed.

Lemma digit_byte_ne c e : 48 <= byte_code c <= 57 → is_digit e = false → c ≠ e.
Proof. intros Hc He ->. unfold is_digit, in_rng in He. lia. Qed.

Lemma runes_cons_ascii c t : byte_code c < 128 → runes (String c t) = byte_code c :: runes t.
Proof.
  intros Hlt. unfold runes. cbn [bytes runes_from decode_rune].
  by rewrite (proj2 (Z.ltb_lt _ _) Hlt).
Qed.

(** ** Strings read backwards *)

Lemma string_rev_app_spec s acc : string_rev_app s acc = string_rev_app s "" +:+ acc.
Proof.
  revert acc. induction s as [|c s IH]; intros acc; simpl; [done|].
  rewrite (IH (String c acc)), (IH (String c "")). by rewrite string_app_assoc.
Qed.
Lemma string_rev_cat s t : string_rev (s +:+ t) = string_rev t +:+ string_rev s.
Proof.
  unfold string_rev. induction s as [|c s IH]; simpl; [by rewrite string_app_nil_r|].
  rewrite string_rev_app_spec, IH, (string_rev_app_spec s (String c "")). by rewrite string_app_assoc.
Qed.


Lemma HasSuffix_app t p : HasSuffix (t +:+ p) p = true.
Proof. unfold HasSuffix. rewrite string_rev_cat. apply prefix_spec. eauto. Qed.

Lemma all_chars_rev f s : all_chars f (string_rev s) = all_chars f s.
Proof.
  induction s as [|c s IH]; [done|]. change (String c s) with (String c "" +:+ s).
  rewrite string_rev_cat, !all_chars_app, IH. simpl. by rewrite andb_true_r, andb_comm.
Qed.

Lemma string_rev_involutive s : string_rev (string_rev s) = s.
Proof.
  induction s as [|c s IH]; [done|]. change (String c s) with (String c "" +:+ s). by rewrite !string_rev_cat, IH.
Qed.

(** [strings.TrimSuffix]. *)
Definition TrimSuffix (s p : string) : string :=
  if HasSuffix s p then String.substring 0 (String.length s - String.length p) s else s.

Lemma substring_app t p : String.substring 0 (String.length t) (t +:+ p) = t.
Proof. induction t as [|c t IH]; simpl; [by destruct p|]. by rewrite IH. Qed.

Lemma TrimSuffix_app t p : TrimSuffix (t +:+ p) p = t.
Proof.
  unfold TrimSuffix. rewrite HasSuffix_app, length_app_string.
  replace (String.length t + String.length p - String.length p)%nat with (String.length t) by lia. apply substring_app.
Qed.

(** ** The order of strings *)

Lemma ltb_le s t : String.ltb s t = true → String.le s t.
Proof. unfold String.ltb, String.le, String.leb. by destruct (String.compare s t). Qed.
Lemma not_ltb_iff s t : String.ltb s t = false ↔ String.le t s.
Proof.
  unfold String.ltb, String.le, String.leb. rewrite (String.compare_antisym t s).
  by destruct (String.compare s t).
Qed.
Lemma not_ltb_le s t : String.ltb s t = false → String.le t s.
Proof. apply not_ltb_iff. Qed.

Lemma bytes_app_inv s u v : bytes s = u ++ v → ∃ s1 s2, s = s1 +:+ s2 ∧ bytes s1 = u ∧ bytes s2 = v.
Proof.
  revert s. induction u as [|c u IH]; intros s Hs; [by exists "", s|].
  destruct s as [|d s]; [done|]. injection Hs as <- Hs. apply IH in Hs as (s1 & s2 & -> & <- & <-).
  by exists (String d s1), s2.
Qed.

Lemma not_contains_split c s t : char_in c t → ¬ char_in c s → Contains s t = false.
Proof.
  intros (a & b & ->) Hs. destruct (Contains s _) eqn:E; [|done].
  apply Contains_spec in E as (x & y & ->). destruct Hs. exists (x +:+ a), (b +:+ y).
  by rewrite !string_app_assoc.
Qed.

Lemma Split_no_sep s sep : Contains s sep = false → sep ≠ "" → split_from sep 0 s = (s, []).
Proof.
  intros H Hsep. induction s as [|c s IH]; simpl in *; [by destruct sep|].
  apply orb_false_iff in H as [Hp H]. rewrite Hp. by rewrite IH.
Qed.

(** A separator that begins with a byte that is not in the text before it. *)
Lemma split_from_mark c p s t : ¬ char_in c s →
  split_from (String c p) 0 (s +:+ String c p +:+ t) =
    (s, let '(h, l) := split_from (String c p) 0 t in h :: l).
Proof.
  intros Hs. induction s as [|d s IH].
  - change ("" +:+ String c p +:+ t) with (String c (p +:+ t)). cbn [split_from].
    assert (String.prefix (String c p) (String c (p +:+ t)) = true) as -> by (apply prefix_spec; by exists t).
    cbn [String.length pred]. rewrite split_from_skip by done. by destruct (split_from _ 0 t).
  - rewrite char_in_cons in Hs. change (String d s +:+ String c p +:+ t) with (String d (s +:+ String c p +:+ t)). cbn [split_from].
    assert (String.prefix (String c p) (String d (s +:+ String c p +:+ t)) = false) as ->.
    { apply not_true_iff_false. intros [u Hu]%prefix_spec. injection Hu as Hu _. destruct Hs. by left. }
    rewrite IH by tauto. done.
Qed.

Lemma Split_mark c p s t : ¬ char_in c s → Contains t (String c p) = false →
  Split (s +:+ String c p +:+ t) (String c p) = [s; t].
Proof. intros Hs Ht. unfold Split. rewrite split_from_mark, Split_no_sep by done. done. Qed.

(** The first [c], if there is one, splits a text in two. *)
Fixpoint cut_at (c : Ascii.ascii) (s : string) : option (string * string) :=
  match s with
  | "" => None
  | String d s => if Ascii.eqb c d then Some ("", s) else (λ p, (String d p.1, p.2)) <$> cut_at c s
  end.

Lemma cut_at_key k v : ¬ char_in "=" k → cut_at "=" (k +:+ "=" +:+ v) = Some (k, v).
Proof.
  induction k as [|d k IH]; intros Hk; [reflexivity|]. rewrite char_in_cons in Hk. cbn [cut_at String.append].
  destruct (Ascii.eqb_spec "=" d) as [<-|Hne]; [tauto|]. specialize (IH ltac:(tauto)). cbn [String.append] in IH.
  by rewrite IH.
Qed.

Lemma cut_at_none c s : ¬ char_in c s → cut_at c s = None.
Proof.
  induction s as [|d s IH]; intros Hs; [done|]. rewrite char_in_cons in Hs. cbn [cut_at].
  destruct (Ascii.eqb_spec c d) as [<-|Hne]; [tauto|]. by rewrite IH by tauto.
Qed.

(** The first one is found in the first part that has one. *)
Lemma cut_at_app_none c s t : ¬ char_in c t → cut_at c (s +:+ t) = (λ p, (p.1, p.2 +:+ t)) <$> cut_at c s.
Proof.
  intros Ht. induction s as [|d s IH]; [by rewrite cut_at_none|]. cbn [cut_at String.append].
  destruct (Ascii.eqb c d); [done|]. rewrite IH. by destruct (cut_at c s).
Qed.

Lemma Contains_char c s : Contains s (String c "") = true ↔ char_in c s.
Proof. rewrite Contains_spec. by unfold char_in. Qed.

Lemma cut_at_Some c s a b : cut_at c s = Some (a, b) → s = a +:+ String c b ∧ ¬ char_in c a.
Proof.
  revert a b. induction s as [|d s IH]; intros a b; [done|]. cbn [cut_at]. destruct (Ascii.eqb_spec c d) as [<-|Hne].
  - intros [= <- <-]. split; [done|]. by intros ([] & ? & ?).
  - destruct (cut_at c s) as [[a' b']|]; [|done]. intros [= <- <-]. destruct (IH a' b' eq_refl) as [-> Ha].
    split; [done|]. rewrite char_in_cons. tauto.
Qed.
Lemma cut_at_None c s : cut_at c s = None → ¬ char_in c s.
Proof.
  induction s as [|d s IH]; [by intros _ ([] & ? & ?)|]. cbn [cut_at]. destruct (Ascii.eqb_spec c d) as [|Hne]; [done|].
  destruct (cut_at c s); [done|]. rewrite char_in_cons. intros _ [?|?]; [done|by apply IH].
Qed.
