(* ===== verification/Regexp.v ===== *)
(** * Regular expressions of the package [regexp]

    Syntax and language of the regular expressions the program compiles, over
    runes, and an executable matcher by derivatives that decides the language.
    An expression anchored by [^...$] is matched by [MatchString]; one without
    anchors by [SearchString]. *)

From S2P Require Import Prelude GoStr.
Local Open Scope Z_scope.

(** A character class is a union of ranges of runes. *)
Abbreviation charset := (list (Z * Z)).

Definition cs_mem (cs : charset) (r : Z) : bool :=
  existsb (λ p, in_rng (fst p) (snd p) r) cs.

Inductive regex :=
| RNone
| REps
| RSet (cs : charset)
| RCat (r s : regex)
| RAlt (r s : regex)
| RStar (r : regex).

#[export] Instance regex_eq_dec : EqDecision regex.
Proof. solve_decision. Defined.

(** The language of an expression. *)
Inductive rmatch : regex → list Z → Prop :=
| M_eps : rmatch REps []
| M_set cs c : cs_mem cs c = true → rmatch (RSet cs) [c]
| M_cat r s u v : rmatch r u → rmatch s v → rmatch (RCat r s) (u ++ v)
| M_alt_l r s u : rmatch r u → rmatch (RAlt r s) u
| M_alt_r r s u : rmatch s u → rmatch (RAlt r s) u
| M_star_nil r : rmatch (RStar r) []
| M_star_app r u v : rmatch r u → rmatch (RStar r) v → rmatch (RStar r) (u ++ v).

#[export] Hint Constructors rmatch : skind.

(** ** The matcher *)

Fixpoint nullable (r : regex) : bool :=
  match r with
  | RNone | RSet _ => false
  | REps | RStar _ => true
  | RCat r s => nullable r && nullable s
  | RAlt r s => nullable r || nullable s
  end.

(** Constructors that keep derivatives small: no dead branch, no repeated
    alternative. *)
Fixpoint alt_mem (r s : regex) : bool :=
  bool_decide (r = s) ||
  match s with RAlt a b => bool_decide (r = a) || alt_mem r b | _ => false end.

Fixpoint mk_alt (r s : regex) : regex :=
  match r with
  | RNone => s
  | RAlt a b => mk_alt a (mk_alt b s)
  | _ => match s with
         | RNone => r
         | _ => if alt_mem r s then s else RAlt r s
         end
  end.

Definition mk_cat (r s : regex) : regex :=
  match r with
  | RNone => RNone
  | REps => s
  | _ => match s with RNone => RNone | _ => RCat r s end
  end.

Fixpoint deriv (c : Z) (r : regex) : regex :=
  match r with
  | RNone | REps => RNone
  | RSet cs => if cs_mem cs c then REps else RNone
  | RCat r s =>
    if nullable r then mk_alt (mk_cat (deriv c r) s) (deriv c s)
    else mk_cat (deriv c r) s
  | RAlt r s => mk_alt (deriv c r) (deriv c s)
  | RStar r => mk_cat (deriv c r) (RStar r)
  end.

Fixpoint matchb (r : regex) (u : list Z) : bool :=
  match u with [] => nullable r | c :: u => matchb (deriv c r) u end.

(** ** The matcher decides the language *)

Lemma rmatch_none u : ¬ rmatch RNone u.
Proof. inversion 1. Qed.

Lemma rmatch_eps u : rmatch REps u ↔ u = [].
Proof. split; [by inversion 1|intros ->; constructor]. Qed.

Lemma rmatch_set cs u : rmatch (RSet cs) u ↔ ∃ c, u = [c] ∧ cs_mem cs c = true.
Proof. split; [inversion 1; eauto|intros (c & -> & ?); by constructor]. Qed.

Lemma rmatch_cat r s u :
  rmatch (RCat r s) u ↔ ∃ v w, u = v ++ w ∧ rmatch r v ∧ rmatch s w.
Proof.
  split; [inversion 1; subst; eauto|intros (v & w & -> & ? & ?); by constructor].
Qed.

Lemma rmatch_alt r s u : rmatch (RAlt r s) u ↔ rmatch r u ∨ rmatch s u.
Proof. split; [inversion 1; subst; auto|intros [?|?]; eauto with skind]. Qed.

Lemma rmatch_star r u :
  rmatch (RStar r) u ↔ u = [] ∨ ∃ v w, u = v ++ w ∧ rmatch r v ∧ rmatch (RStar r) w.
Proof.
  split; [inversion 1; subst; eauto 10|].
  intros [->|(v & w & -> & ? & ?)]; by constructor.
Qed.

Lemma alt_mem_sound r s u : alt_mem r s = true → rmatch r u → rmatch s u.
Proof.
  induction s as [| | | |a _ b IH|]; cbn [alt_mem]; intros H Hr;
    rewrite orb_true_iff, bool_decide_eq_true in H; destruct H as [->|H]; try done.
  apply orb_true_iff in H as [->%bool_decide_eq_true|H]; eauto with skind.
Qed.

Lemma mk_alt_spec r s u : rmatch (mk_alt r s) u ↔ rmatch r u ∨ rmatch s u.
Proof.
  assert (∀ r s, rmatch (match s with RNone => r
    | _ => if alt_mem r s then s else RAlt r s end) u ↔ rmatch r u ∨ rmatch s u) as Hins.
  { clear. intros r s.
    assert (rmatch (if alt_mem r s then s else RAlt r s) u ↔ rmatch r u ∨ rmatch s u) as Hif.
    { destruct (alt_mem r s) eqn:Hm; [|apply rmatch_alt].
      split; [auto|intros [?|?]; [by eapply alt_mem_sound|done]]. }
    destruct s; try exact Hif. split; [auto|intros [?|?%rmatch_none]; done]. }
  revert s. induction r as [| | | |a IHa b IHb|]; intros s; cbn [mk_alt]; try apply Hins.
  - split; [auto|intros [?%rmatch_none|?]; done].
  - rewrite IHa, IHb, rmatch_alt. tauto.
Qed.

Lemma mk_cat_spec r s u : rmatch (mk_cat r s) u ↔ rmatch (RCat r s) u.
Proof.
  assert (∀ r s, rmatch (match s with RNone => RNone | _ => RCat r s end) u
    ↔ rmatch (RCat r s) u) as Hs.
  { clear. intros r s. destruct s; try done.
    rewrite rmatch_cat. split; [by intros ?%rmatch_none|].
    intros (v & w & -> & _ & ?%rmatch_none). done. }
  destruct r; cbn [mk_cat]; try apply Hs; rewrite rmatch_cat.
  - split; [by intros ?%rmatch_none|]. intros (v & w & -> & ?%rmatch_none & _). done.
  - split; [intros ?; exists [], u; eauto with skind|].
    intros (v & w & -> & ->%rmatch_eps & ?). done.
Qed.

Lemma nullable_spec r : nullable r = true ↔ rmatch r [].
Proof.
  induction r as [| |cs|r IHr s IHs|r IHr s IHs|r IHr]; simpl.
  - split; [done|by intros ?%rmatch_none].
  - rewrite rmatch_eps. done.
  - rewrite rmatch_set. split; [done|by intros (? & ? & ?)].
  - rewrite andb_true_iff, IHr, IHs, rmatch_cat. split.
    + intros [??]. by exists [], [].
    + intros (v & w & [-> ->]%eq_sym%app_nil & ? & ?). done.
  - rewrite orb_true_iff, IHr, IHs. by rewrite rmatch_alt.
  - split; [constructor|done].
Qed.

Lemma rmatch_star_cons r c u :
  rmatch (RStar r) (c :: u) ↔ ∃ v w, u = v ++ w ∧ rmatch r (c :: v) ∧ rmatch (RStar r) w.
Proof.
  split.
  - remember (RStar r) as s eqn:Hs. remember (c :: u) as x eqn:Hx. intros H.
    revert c u Hx Hs.
    induction H as [| | | | | |r' v w Hv _ Hw IH]; intros c' u' Hx [= ->]; [done|].
    destruct v as [|d v]; simpl in Hx; [by apply (IH c' u')|].
    injection Hx as -> <-. by exists v, w.
  - intros (v & w & -> & Hv & Hw). by apply (M_star_app r (c :: v) w).
Qed.

Lemma deriv_spec c r u : rmatch (deriv c r) u ↔ rmatch r (c :: u).
Proof.
  revert u. induction r as [| |cs|r IHr s IHs|r IHr s IHs|r IHr]; intros u; cbn [deriv].
  - split; by intros ?%rmatch_none.
  - rewrite rmatch_eps. split; [by intros ?%rmatch_none|done].
  - rewrite rmatch_set. destruct (cs_mem cs c) eqn:Hc.
    + rewrite rmatch_eps. split; [intros ->; eauto|]. by intros (d & [= -> ->] & _).
    + split; [by intros ?%rmatch_none|]. intros (d & [= -> ->] & ?). congruence.
  - assert (rmatch (mk_cat (deriv c r) s) u ↔
      ∃ v w, u = v ++ w ∧ rmatch r (c :: v) ∧ rmatch s w) as Hl.
    { rewrite mk_cat_spec, rmatch_cat. by setoid_rewrite IHr. }
    rewrite rmatch_cat. destruct (nullable r) eqn:Hn.
    + rewrite mk_alt_spec, Hl, IHs. apply nullable_spec in Hn. split.
      * intros [(v & w & -> & ? & ?)|?]; [by exists (c :: v), w|by exists [], (c :: u)].
      * intros ([|d v] & w & Huw & ? & ?); simpl in Huw; [right; by subst|].
        injection Huw as -> ->. left; eauto.
    + rewrite Hl. split.
      * intros (v & w & -> & ? & ?). by exists (c :: v), w.
      * intros ([|d v] & w & Huw & Hv & ?); simpl in Huw; [|injection Huw as -> ->; eauto].
        apply nullable_spec in Hv. congruence.
  - rewrite mk_alt_spec, IHr, IHs. by rewrite rmatch_alt.
  - rewrite mk_cat_spec, rmatch_cat, rmatch_star_cons. by setoid_rewrite IHr.
Qed.

Theorem matchb_spec r u : matchb r u = true ↔ rmatch r u.
Proof.
  revert r. induction u as [|c u IH]; intros r; simpl; [apply nullable_spec|].
  by rewrite IH, deriv_spec.
Qed.

#[export] Hint Rewrite matchb_spec : skind_inv.

(** ** The notations of Go's syntax *)

Definition RPlus (r : regex) : regex := RCat r (RStar r).            (* r+ *)
Definition ROpt (r : regex) : regex := RAlt r REps.                  (* r? *)
Fixpoint RRep (n : nat) (r : regex) : regex :=                       (* r{n} *)
  match n with O => REps | S n => RCat r (RRep n r) end.
Fixpoint RUpTo (n : nat) (r : regex) : regex :=                      (* r{0,n} *)
  match n with O => REps | S n => ROpt (RCat r (RUpTo n r)) end.
Definition RRange (m n : nat) (r : regex) : regex := RCat (RRep m r) (RUpTo (n - m) r).

Definition chr (c : Ascii.ascii) : Z * Z := (byte_code c, byte_code c).
Definition rng (a b : Ascii.ascii) : Z * Z := (byte_code a, byte_code b).
Definition RChar (c : Ascii.ascii) : regex := RSet [chr c].
Fixpoint RLit (s : string) : regex :=
  match s with
  | "" => REps
  | String c "" => RChar c
  | String c s => RCat (RChar c) (RLit s)
  end.
Fixpoint RSeq (l : list regex) : regex :=
  match l with [] => REps | [r] => r | r :: l => RCat r (RSeq l) end.
Fixpoint RAny (l : list regex) : regex :=
  match l with [] => RNone | [r] => r | r :: l => RAlt r (RAny l) end.

Definition max_rune : Z := 1114111.
Definition cs_dot : charset := [(0, 9); (11, max_rune)].             (* . *)
Definition cs_any : charset := [(0, max_rune)].
Definition cs_digit : charset := [rng "0" "9"].                      (* \d *)
Definition cs_word : charset :=                                      (* \w *)
  [rng "0" "9"; rng "A" "Z"; chr "_"; rng "a" "z"].
Definition cs_space : charset := [(9, 10); (12, 13); (32, 32)].      (* \s *)

(** Case-insensitive classes ([(?i)]): simple folding also equates [k] with the
    Kelvin sign and [s] with the long s. *)
Definition fold_char (c : Ascii.ascii) : charset :=
  let extra := if Ascii.eqb (lower_byte c) "k" then [(8490, 8490)]
               else if Ascii.eqb (lower_byte c) "s" then [(383, 383)] else [] in
  chr (lower_byte c) :: chr (upper_byte c) :: extra.
Fixpoint RLitFold (s : string) : regex :=
  match s with
  | "" => REps
  | String c "" => RSet (fold_char c)
  | String c s => RCat (RSet (fold_char c)) (RLitFold s)
  end.
Definition cs_word_fold : charset := cs_word ++ [(8490, 8490); (383, 383)].

(** [regexp.MatchString] of an expression [^r$], and of one with no anchor. *)
Definition MatchString (r : regex) (s : string) : bool := matchb r (runes s).
Definition SearchString (r : regex) (s : string) : bool :=
  matchb (RCat (RStar (RSet cs_any)) (RCat r (RStar (RSet cs_any)))) (runes s).

Lemma MatchString_spec r s : MatchString r s = true ↔ rmatch r (runes s).
Proof. apply matchb_spec. Qed.
#[export] Hint Rewrite MatchString_spec : skind_inv.

(** ** Inversion lemmas for the derived forms *)

Lemma rmatch_opt r u : rmatch (ROpt r) u ↔ rmatch r u ∨ u = [].
Proof. unfold ROpt. by rewrite rmatch_alt, rmatch_eps. Qed.

Lemma rmatch_char c u : rmatch (RChar c) u ↔ u = [byte_code c].
Proof.
  unfold RChar, chr. rewrite rmatch_set. unfold cs_mem, in_rng. simpl.
  setoid_rewrite orb_false_r. setoid_rewrite andb_true_iff. setoid_rewrite Z.leb_le.
  split; [intros (x & -> & ?); f_equal; lia|intros ->; eexists; split; [done|lia]].
Qed.

Lemma rmatch_lit s u : rmatch (RLit s) u ↔ u = bytes s.
Proof.
  revert u. induction s as [|c [|d s] IH]; intros u; [apply rmatch_eps|apply rmatch_char|].
  change (RLit (String c (String d s))) with (RCat (RChar c) (RLit (String d s))).
  rewrite rmatch_cat. setoid_rewrite rmatch_char. setoid_rewrite IH. split.
  - by intros (v & w & -> & -> & ->).
  - intros ->. by exists [byte_code c], (bytes (String d s)).
Qed.

(** [[cs]*] and [[cs]+] accept exactly the words over the class. *)
(** The pieces of a text. *)
Lemma rmatch_cat_bytes r s t :
  rmatch (RCat r s) (bytes t) ↔ ∃ a b, t = a +:+ b ∧ rmatch r (bytes a) ∧ rmatch s (bytes b).
Proof.
  rewrite rmatch_cat. split.
  - intros (u & v & Ht & Hu & Hv). apply bytes_app_inv in Ht as (a & b & -> & <- & <-). eauto.
  - intros (a & b & -> & Ha & Hb). exists (bytes a), (bytes b). by rewrite bytes_app.
Qed.
Lemma rmatch_char_bytes c a : rmatch (RChar c) (bytes a) ↔ a = String c "".
Proof. rewrite rmatch_char. split; [|by intros ->]. apply (bytes_inj a (String c "")). Qed.
Lemma rmatch_lit_bytes s a : rmatch (RLit s) (bytes a) ↔ a = s.
Proof. rewrite rmatch_lit. split; [apply bytes_inj|by intros ->]. Qed.

Lemma rmatch_star_set cs u : rmatch (RStar (RSet cs)) u ↔ Forall (λ c, cs_mem cs c = true) u.
Proof.
  induction u as [|c u IH].
  - split; [constructor|intros _; constructor].
  - rewrite rmatch_star_cons, Forall_cons, <-IH. split.
    + intros (v & w & -> & Hv & Hw). apply rmatch_set in Hv as (d & [= -> ->] & ?). done.
    + intros [Hc Hu]. exists [], u. split_and!; [done| |done]. by constructor.
Qed.

Lemma rmatch_plus_set cs u :
  rmatch (RPlus (RSet cs)) u ↔ u ≠ [] ∧ Forall (λ c, cs_mem cs c = true) u.
Proof.
  unfold RPlus. rewrite rmatch_cat. setoid_rewrite rmatch_set. setoid_rewrite rmatch_star_set.
  split.
  - intros (v & w & -> & (c & -> & Hc) & Hw). split; [done|]. by constructor.
  - intros [Hne Hu]. destruct u as [|c u]; [done|]. apply Forall_cons in Hu as [Hc Hu].
    exists [c], u. split_and!; eauto.
Qed.

Lemma rmatch_rep_set n cs u :
  rmatch (RRep n (RSet cs)) u ↔ length u = n ∧ Forall (λ c, cs_mem cs c = true) u.
Proof.
  revert u. induction n as [|n IH]; intros u; simpl.
  - rewrite rmatch_eps. split; [by intros ->|]. by intros [?%nil_length_inv _].
  - rewrite rmatch_cat. setoid_rewrite rmatch_set. setoid_rewrite IH. split.
    + intros (v & w & -> & (c & -> & Hc) & <- & Hw). simpl. auto.
    + intros [Hl Hu]. destruct u as [|c u]; [done|]. apply Forall_cons in Hu as [Hc Hu].
      exists [c], u. split_and!; eauto.
Qed.

Lemma rmatch_cat_assoc r s t u : rmatch (RCat (RCat r s) t) u ↔ rmatch (RCat r (RCat s t)) u.
Proof.
  rewrite !rmatch_cat. setoid_rewrite rmatch_cat. split.
  - intros (? & w & -> & (v1 & v2 & -> & ? & ?) & ?). exists v1, (v2 ++ w).
    rewrite (assoc_L (++)). eauto 10.
  - intros (v & ? & -> & ? & w1 & w2 & -> & ? & ?). exists (v ++ w1), w2.
    rewrite (assoc_L (++)). eauto 10.
Qed.

Lemma rmatch_eps_cat r u : rmatch (RCat REps r) u ↔ rmatch r u.
Proof.
  rewrite rmatch_cat. setoid_rewrite rmatch_eps. split; [by intros (? & ? & -> & -> & ?)|].
  intros H. by exists [], u.
Qed.

(** A class followed by an expression reads one rune. *)
Lemma rmatch_set_cat cs r u :
  rmatch (RCat (RSet cs) r) u ↔ ∃ c w, u = c :: w ∧ cs_mem cs c = true ∧ rmatch r w.
Proof.
  rewrite rmatch_cat. setoid_rewrite rmatch_set. split.
  - intros (v & w & -> & (c & -> & ?) & ?). by exists c, w.
  - intros (c & w & -> & ? & ?). exists [c], w. eauto.
Qed.

(** An expression all of whose classes are below [b] only matches runes below [b]. *)
Fixpoint re_below (b : Z) (r : regex) : bool :=
  match r with
  | RNone | REps => true
  | RSet cs => forallb (λ p, snd p <? b) cs
  | RCat r s | RAlt r s => re_below b r && re_below b s
  | RStar r => re_below b r
  end.

Lemma re_below_spec b r u : re_below b r = true → rmatch r u → Forall (λ c, c < b) u.
Proof.
  intros Hb H. induction H as [|cs c Hc| | | | |]; simpl in Hb;
    autorewrite with skind_inv in Hb; destruct_and?; rewrite ?Forall_app; auto.
  constructor; [|constructor]. unfold cs_mem in Hc.
  apply existsb_exists in Hc as (p & Hp & Hc). rewrite forallb_forall in Hb.
  specialize (Hb p Hp). unfold in_rng in Hc. autorewrite with skind_inv in *. lia.
Qed.

(** What an ASCII-only expression accepts is an ASCII string. *)
Lemma MatchString_ascii r s : re_below 128 r = true → MatchString r s = true → is_ascii s.
Proof.
  intros Hb H. apply runes_all_ascii. eapply re_below_spec; [done|]. by apply MatchString_spec.
Qed.
