(* ===== verification/Exec.v ===== *)
(** * Commands on the local machine

    src/pkg/exec/ (types.go, local.go, helpers.go): running a command, its output, the error
    of a command that fails.  What the machine answers is a function of its state
    ([HostExec]), which the command may change. *)

From S2P Require Import Prelude State GoStr.
Local Open Scope Z_scope.
Local Open Scope go_scope.
Local Open Scope stdpp_scope.

(** ** Lines *)

(** [bufio.ScanLines], for lines below 64 KB: the end of a line may be a carriage return
    and a line break; there is no line behind the last line break. *)
Definition drop_cr (s : string) : string :=
  match string_rev s with
  | String c t => if Nat.eqb (Ascii.nat_of_ascii c) 13 then string_rev t else s
  | "" => s
  end.
Fixpoint without_last_empty (l : list string) : list string :=
  match l with [] => [] | [""] => [] | x :: l => x :: without_last_empty l end.
Definition scan_lines (s : string) : list string :=
  drop_cr <$> without_last_empty (Split s (String (Ascii.ascii_of_nat 10) "")).

(** ** Errors *)

(** A command that failed: its name and arguments, what it printed to either output, and
    the error of the Go library. *)
Record RunError := mkRunError { re_Command : list string; re_Output : string; re_Inner : string }.
#[export] Instance RunError_eq_dec : EqDecision RunError.
Proof. solve_decision. Defined.

(** What a command prints to the standard output, what it prints to both, and the error
    when it fails. *)
Record outcome := mkOutcome { oc_stdout : string; oc_combined : string; oc_error : option string }.

(** A command is its name and arguments, with the text of its standard input if it is
    given one.  [shell_Quote] is shellescape.Quote. *)
Class HostExec (W : Type) := {
  host : list string → option string → W → outcome * W;
  shell_Quote : string → string
}.

(** The error of a call, when what follows looks for a [RunError] in its chain of causes:
    there is one, or there is none. *)
Inductive nerr := RunErr (e : RunError) | OtherErr (text : string).
Inductive nres (A : Type) := NOk (a : A) | NErr (e : nerr) | NPanic (why : string).
Arguments NOk {A} a.
Arguments NErr {A} e.
Arguments NPanic {A} why.

Definition net (W A : Type) : Type := W → nres A * W.
#[export] Instance net_ret {W} : MRet (net W) := λ A a w, (NOk a, w).
#[export] Instance net_bind {W} : MBind (net W) := λ A B f m w,
  match m w with
  | (NOk a, w) => f a w
  | (NErr e, w) => (NErr e, w)
  | (NPanic x, w) => (NPanic x, w)
  end.

Definition RunErrorForError (e : nerr) : option RunError :=
  match e with RunErr e => Some e | OtherErr _ => None end.

Section exec.
Context {W : Type} `{!HostExec W}.

Definition PrettyCommand (name : string) (args : list string) : string :=
  fold_left (λ out arg, out +:+ " " +:+ shell_Quote arg) args (shell_Quote name).

Definition RunError_Error (e : RunError) : string :=
  "command " +:+ Q (match re_Command e with [] => "" | name :: args => PrettyCommand name args end) +:+
  " failed with error: " +:+ re_Inner e.
Definition error_text (e : nerr) : string := match e with RunErr e => RunError_Error e | OtherErr t => t end.

(** ** Running *)

(** [LocalCmd.Run]: the error of a command holds all that it printed. *)
Definition run_error (args : list string) (o : outcome) : option RunError :=
  (λ inner, mkRunError args (oc_combined o) inner) <$> oc_error o.

Definition net_Output (args : list string) : net W string := λ w,
  let '(o, w) := host args None w in
  (match run_error args o with None => NOk (oc_stdout o) | Some e => NErr (RunErr e) end, w).
Definition net_Run (args : list string) : net W unit := _ ← net_Output args; mret tt.

(** The text of an error is all that is left of it. *)
Definition of_net {A} (m : net W A) : st W A := λ w,
  match m w with
  | (NOk a, w) => (Ok a, w)
  | (NErr e, w) => (Err (error_text e), w)
  | (NPanic x, w) => (Panic x, w)
  end.

Definition host_Run_with (args : list string) (stdin : option string) : st W string := λ w,
  let '(o, w) := host args stdin w in
  (match run_error args o with None => Ok (oc_stdout o) | Some e => Err (RunError_Error e) end, w).

Definition host_Output (args : list string) : st W string := host_Run_with args None.
Definition host_Run (args : list string) : st W unit := _ ← host_Output args; mret tt.
Definition host_OutputLines (args : list string) : st W (list string) :=
  out ← host_Output args; mret (scan_lines out).

(** What is printed to both outputs, for a caller that goes on after an error. *)
Definition CombinedOutputLines (args : list string) : st W (list string * option string) := λ w,
  let '(o, w) := host args None w in
  (Ok (scan_lines (oc_combined o), RunError_Error <$> run_error args o), w).
End exec.

(** ** Facts *)

Section exec_facts.
Context {W : Type} `{!HostExec W}.

Lemma net_bind_NOk {A B} (m : net W A) (f : A → net W B) w b w' :
  (m ≫= f) w = (NOk b, w') ↔ ∃ a w1, m w = (NOk a, w1) ∧ f a w1 = (NOk b, w').
Proof.
  unfold mbind, net_bind. destruct (m w) as [[a|e|x] w1]; [|split; [done|]; intros (? & ? & [=] & _)..].
  split; [eauto|]. by intros (? & ? & [= <- <-] & ?).
Qed.

Lemma net_Output_inv args (w w' : W) r : net_Output args w = (r, w') →
  ∃ o, host args None w = (o, w') ∧
    r = match run_error args o with Some e => NErr (RunErr e) | None => NOk (oc_stdout o) end.
Proof.
  unfold net_Output. destruct (host args None w) as [o w1].
  intros E. exists o. destruct (run_error args o); by injection E as <- <-.
Qed.

Lemma net_Output_NOk args (w w' : W) out : net_Output args w = (NOk out, w') →
  ∃ o, host args None w = (o, w') ∧ oc_error o = None ∧ out = oc_stdout o.
Proof.
  intros (o & E & H)%net_Output_inv. exists o. unfold run_error in H. destruct (oc_error o); by simplify_eq/=.
Qed.

Lemma net_Run_inv args (w w' : W) r : net_Run args w = (r, w') →
  ∃ o, host args None w = (o, w') ∧
    r = match run_error args o with Some e => NErr (RunErr e) | None => NOk tt end.
Proof.
  unfold net_Run, mbind, net_bind. destruct (net_Output args w) as [r1 w1] eqn:E.
  apply net_Output_inv in E as (o & E & ->). intros H. exists o.
  destruct (run_error args o); by injection H as <- <-.
Qed.

Lemma of_net_Ok {A} (m : net W A) w a w' : of_net m w = (Ok a, w') ↔ m w = (NOk a, w').
Proof. unfold of_net. destruct (m w) as [[]]; naive_solver. Qed.

Lemma host_Output_inv args (w w' : W) r : host_Output args w = (r, w') →
  ∃ o, host args None w = (o, w') ∧
    r = match run_error args o with Some e => Err (RunError_Error e) | None => Ok (oc_stdout o) end.
Proof. unfold host_Output, host_Run_with. destruct (host args None w) as [o w1]. intros [= <- <-]. eauto. Qed.

Lemma host_Output_Ok args (w w' : W) out : host_Output args w = (Ok out, w') →
  ∃ o, host args None w = (o, w') ∧ oc_error o = None ∧ oc_stdout o = out.
Proof.
  intros (o & E & H)%host_Output_inv. exists o. unfold run_error in H.
  destruct (oc_error o); simplify_eq/=; done.
Qed.

Lemma host_Run_Ok args (w w' : W) : host_Run args w = (Ok tt, w') →
  ∃ o, host args None w = (o, w') ∧ oc_error o = None.
Proof.
  unfold host_Run. intros (out & w1 & E & [= <-])%st_bind_Ok. apply host_Output_Ok in E as (o & E & He & _). eauto.
Qed.

Lemma host_Run_inv args (w w' : W) r : host_Run args w = (r, w') →
  ∃ o, host args None w = (o, w') ∧
    r = match run_error args o with Some e => Err (RunError_Error e) | None => Ok tt end.
Proof.
  unfold host_Run, mbind, st_bind. destruct (host_Output args w) as [r1 w1] eqn:E.
  apply host_Output_inv in E as (o & E & ->). intros H. exists o.
  destruct (run_error args o); by injection H as <- <-.
Qed.

Lemma host_OutputLines_Ok args (w w' : W) l : host_OutputLines args w = (Ok l, w') →
  ∃ o, host args None w = (o, w') ∧ oc_error o = None ∧ l = scan_lines (oc_stdout o).
Proof.
  unfold host_OutputLines. intros (out & w1 & E & [= <- <-])%st_bind_Ok.
  apply host_Output_Ok in E as (o & E & He & <-). eauto.
Qed.

(** A command does to the machine what [host] does, whatever is read of its output. *)
Lemma sat_host_Output args (S : relation W) : (∀ w o w', host args None w = (o, w') → S w w') → sat (host_Output args) S S.
Proof.
  intros Hh w. unfold host_Output, host_Run_with. destruct (host args None w) as [o w1] eqn:E.
  apply Hh in E. by destruct (run_error args o).
Qed.
End exec_facts.
