(* ===== verification/Version.v ===== *)
(** * Versions: [pkg/internal/version/version.go]

    Parsing, printing and comparing generic and semantic version numbers. *)

From S2P Require Import Prelude GoStr.
Local Open Scope Z_scope.

Record Version := mkVersion {
  components : list Z;        (* []uint, 64-bit *)
  semver : bool;
  preRelease : string;
  buildMetadata : string
}.

#[export] Instance version_eq_dec : EqDecision Version.
Proof. solve_decision. Defined.

(** ** The two regular expressions *)

Fixpoint span (f : ascii → bool) (s : string) : string * string :=
  match s with
  | "" => ("", "")
  | String c t => if f c then let '(a, b) := span f t in (String c a, b) else ("", s)
  end.

Definition is_re_space (c : ascii) : bool :=
  let b := byte_code c in in_rng 9 10 b || in_rng 12 13 b || (b =? 32).
Definition is_ident (c : ascii) : bool :=
  let b := byte_code c in in_rng 48 57 b || in_rng 65 90 b || in_rng 97 122 b || (b =? 45).
Definition dot : ascii := "."%char.

(** Zero or more groups of a dot and a run of [f], greedy; [n] bounds the number
    of rounds by the length of the text. *)
Fixpoint scan_tail (f : ascii → bool) (n : nat) (s : string) : string * string :=
  match n, s with
  | S n, String c t =>
    if Ascii.eqb c dot then
      let '(d, r) := span f t in
      if String.eqb d "" then ("", s)
      else let '(m, r') := scan_tail f n r in (String dot (d +:+ m), r')
    else ("", s)
  | _, _ => ("", s)
  end.

(** A run of [f] and then zero or more dotted runs, greedy. *)
Definition scan_dotted (f : ascii → bool) (s : string) : option (string * string) :=
  let '(d, r) := span f s in
  if String.eqb d "" then None
  else let '(m, r') := scan_tail f (String.length r) r in Some (d +:+ m, r').

Definition newline : ascii := ascii_of_nat 10.
Definition not_newline (c : ascii) : bool := negb (Ascii.eqb c newline).

(** [versionMatchRE.FindStringSubmatch], its groups 1 and 2: white space, an
    optional [v], dotted runs of digits (group 1), and the rest of the line
    (group 2), which no newline may follow. *)
Definition versionMatchRE (str : string) : option (string * string) :=
  let s := snd (span is_re_space str) in
  let s := match s with String c t => if Ascii.eqb c "v"%char then t else s | "" => s end in
  match scan_dotted is_digit s with
  | Some (numbers, extra) => if all_chars not_newline extra then Some (numbers, extra) else None
  | None => None
  end.

(** An optional group: [sep] and dotted runs of identifier characters. *)
Definition scan_opt_ident (sep : ascii) (s : string) : string * string :=
  match s with
  | String c t =>
    if Ascii.eqb c sep then
      match scan_dotted is_ident t with Some (a, r) => (a, r) | None => ("", s) end
    else ("", s)
  | "" => ("", s)
  end.

(** [extraMatchRE.FindStringSubmatch], its groups 1 and 2. *)
Definition extraMatchRE (extra : string) : option (string * string) :=
  let '(pre, r) := scan_opt_ident "-"%char extra in
  let '(build, r') := scan_opt_ident "+"%char r in
  if all_chars is_re_space r' then Some (pre, build) else None.

(** ** Parsing *)

Definition zero_prefixed (comp : string) : bool := HasPrefix comp "0" && negb (String.eqb comp "0").

Definition err_zero (comp str : string) : string :=
  "illegal zero-prefixed version component " +:+ Q comp +:+ " in " +:+ Q str.

(** The loop over [components]. *)
Fixpoint parse_components (str : string) (semver : bool) (i : nat) (comps : list string)
  : res (list Z) :=
  match comps with
  | [] => mret []
  | comp :: rest =>
    fail_when ((Nat.eqb i 0 || semver) && zero_prefixed comp) (err_zero comp str) ;;
    num ← match ParseUint comp with
          | Some n => Ok n
          | None => Err ("illegal non-numeric version component " +:+ Q comp +:+ " in " +:+ Q str +:+
                         ": strconv.ParseUint: parsing " +:+ Q comp +:+ ": value out of range")
          end;
    nums ← parse_components str semver (S i) rest;
    mret (num :: nums)
  end.

(** The loop that rejects numeric identifiers with leading zeroes. *)
Definition check_preRelease (str pre : string) : res unit :=
  for_each (λ comp, when (opt_is_Some (ParseUint comp))
    (fail_when (zero_prefixed comp) (err_zero comp str))) (Split pre ".").

Definition parse (str : string) (semver : bool) : res Version :=
  match versionMatchRE str with
  | None => Err ("could not parse " +:+ Q str +:+ " as version")
  | Some (numbers, extra) =>
    let components := Split numbers "." in
    fail_when ((semver && negb (Nat.eqb (length components) 3)) ||
               (negb semver && Nat.ltb (length components) 2))
      ("illegal version string " +:+ Q str) ;;
    nums ← parse_components str semver 0 components;
    if semver && negb (String.eqb extra "") then
      match extraMatchRE extra with
      | None => Err ("could not parse pre-release/metadata (" +:+ extra +:+ ") in version " +:+ Q str)
      | Some (pre, build) =>
        check_preRelease str pre ;;
        mret (mkVersion nums semver pre build)
      end
    else mret (mkVersion nums semver "" "")
  end.

Definition ParseGeneric (str : string) : res Version := parse str false.
Definition ParseSemantic (str : string) : res Version := parse str true.

Definition must_parse (r : res Version) : res Version :=
  match r with Err e => Panic e | r => r end.
Definition MustParseGeneric (str : string) : res Version := must_parse (ParseGeneric str).
Definition MustParseSemantic (str : string) : res Version := must_parse (ParseSemantic str).

(** ** Accessors *)

Definition Major (v : Version) : res Z := index (components v) 0.
Definition Minor (v : Version) : res Z := index (components v) 1.
Definition Patch (v : Version) : res Z :=
  if Nat.ltb (length (components v)) 3 then Ok 0 else index (components v) 2.
Definition Components (v : Version) : list Z := components v.

Definition WithMajor (v : Version) (major : Z) : res Version :=
  mi ← Minor v; pa ← Patch v;
  mret (mkVersion [major; mi; pa] (semver v) (preRelease v) (buildMetadata v)).
Definition WithMinor (v : Version) (minor : Z) : res Version :=
  ma ← Major v; pa ← Patch v;
  mret (mkVersion [ma; minor; pa] (semver v) (preRelease v) (buildMetadata v)).
Definition WithPatch (v : Version) (patch : Z) : res Version :=
  ma ← Major v; mi ← Minor v;
  mret (mkVersion [ma; mi; patch] (semver v) (preRelease v) (buildMetadata v)).
Definition WithPreRelease (v : Version) (pre : string) : res Version :=
  ma ← Major v; mi ← Minor v; pa ← Patch v;
  mret (mkVersion [ma; mi; pa] (semver v) pre (buildMetadata v)).
Definition WithBuildMetadata (v : Version) (build : string) : res Version :=
  ma ← Major v; mi ← Minor v; pa ← Patch v;
  mret (mkVersion [ma; mi; pa] (semver v) (preRelease v) build).

(** The method [String]; [None] is the nil pointer. *)
Definition String_ (v : option Version) : string :=
  match v with
  | None => "<nil>"
  | Some v =>
    Join (map fmt_uint (components v)) "." +:+
    (if String.eqb (preRelease v) "" then "" else "-" +:+ preRelease v) +:+
    (if String.eqb (buildMetadata v) "" then "" else "+" +:+ buildMetadata v)
  end.

(** ** Comparison *)

Definition onlyZeros (array : list Z) : bool := forallb (Z.eqb 0) array.

(** The loop over the components both versions have. *)
Fixpoint compare_common (vs os : list Z) : Z :=
  match vs, os with
  | v :: vs, o :: os => if o <? v then 1 else if v <? o then -1 else compare_common vs os
  | _, _ => 0
  end.

(** One round of the loop over the pre-release identifiers; 0 is [continue]. *)
Definition compare_ident (v o : string) : Z :=
  match ParseUint v, ParseUint o with
  | Some vNum, Some oNum => if oNum <? vNum then 1 else if vNum <? oNum then -1 else 0
  | _, _ => if String.ltb o v then 1 else if String.ltb v o then -1 else 0
  end.

Fixpoint compare_idents (vPR oPR : list string) : Z :=
  match vPR, oPR with
  | v :: vPR, o :: oPR =>
    let c := compare_ident v o in if c =? 0 then compare_idents vPR oPR else c
  | _, _ => if Nat.ltb (length oPR) (length vPR) then 1
            else if Nat.ltb (length vPR) (length oPR) then -1 else 0
  end.

Definition compare_preRelease (v o : string) : Z :=
  if String.eqb v "" && negb (String.eqb o "") then 1
  else if negb (String.eqb v "") && String.eqb o "" then -1
  else if String.eqb v o then 0
  else compare_idents (Split v ".") (Split o ".").

Definition compareInternal (v other : Version) : Z :=
  let vLen := length (components v) in
  let oLen := length (components other) in
  let c := compare_common (components v) (components other) in
  if negb (c =? 0) then c
  else if Nat.ltb oLen vLen && negb (onlyZeros (drop oLen (components v))) then 1
  else if Nat.ltb vLen oLen && negb (onlyZeros (drop vLen (components other))) then -1
  else if negb (semver v) || negb (semver other) then 0
  else compare_preRelease (preRelease v) (preRelease other).

Definition AtLeast (v min : Version) : bool := negb (compareInternal v min =? -1).
Definition LessThan (v other : Version) : bool := compareInternal v other =? -1.

Definition Compare (v : Version) (other : string) : res Z :=
  ov ← parse other (semver v);
  mret (compareInternal v ov).

Example parse_semver : ParseSemantic " v1.02.3" = Err (err_zero "02" " v1.02.3").
Proof. reflexivity. Qed.
Example parse_semver2 : ParseSemantic "v1.2.3-rc.1+b7  " = Ok (mkVersion [1;2;3] true "rc.1" "b7").
Proof. vm_compute. reflexivity. Qed.

(** ** Properties of the comparison *)

(** The [i]-th component, absent components being 0. *)
Definition component (l : list Z) (i : nat) : Z := default 0 (l !! i).
Definition lex_lt (f g : nat → Z) : Prop := ∃ i, (∀ j, (j < i)%nat → f j = g j) ∧ f i < g i.
Definition wf_components (v : Version) : Prop := Forall (λ n, 0 <= n) (components v).

(** The comparison of the components alone. *)
Definition compare_numbers (vs os : list Z) : Z :=
  let c := compare_common vs os in
  if negb (c =? 0) then c
  else if Nat.ltb (length os) (length vs) && negb (onlyZeros (drop (length os) vs)) then 1
  else if Nat.ltb (length vs) (length os) && negb (onlyZeros (drop (length vs) os)) then -1
  else 0.

(** [compare_as f g c]: [c] is the sign the comparison of [f] and [g] must have. *)
Definition compare_as (f g : nat → Z) (c : Z) : Prop :=
  (c = -1 ∧ lex_lt f g) ∨ (c = 0 ∧ ∀ i, f i = g i) ∨ (c = 1 ∧ lex_lt g f).

Lemma lex_lt_irrefl f g : (∀ i, f i = g i) → ¬ lex_lt f g.
Proof. intros Heq (i & _ & Hlt). rewrite Heq in Hlt. lia. Qed.

Lemma lex_lt_trans f g h : lex_lt f g → lex_lt g h → lex_lt f h.
Proof.
  intros (i & Hi & Hlti) (j & Hj & Hltj). destruct (Nat.lt_total i j) as [Hij|[->|Hij]].
  - exists i. split; [|by rewrite <-Hj]. intros k Hk. rewrite Hi, Hj by lia. done.
  - exists j. split; [|lia]. intros k Hk. rewrite Hi, Hj by lia. done.
  - exists j. split; [|by rewrite Hi]. intros k Hk. rewrite Hi, Hj by lia. done.
Qed.

Lemma lex_lt_asym f g : lex_lt f g → lex_lt g f → False.
Proof. intros H1 H2. by apply (lex_lt_irrefl f f), (lex_lt_trans f g f). Qed.

Lemma lex_lt_eq_l f f' g : (∀ i, f i = f' i) → lex_lt f g → lex_lt f' g.
Proof.
  intros Heq (i & Hi & Hlt). exists i. rewrite <-Heq. split; [|done].
  intros j Hj. rewrite <-Heq. auto.
Qed.

Lemma lex_lt_eq_r f g g' : (∀ i, g i = g' i) → lex_lt f g → lex_lt f g'.
Proof.
  intros Heq (i & Hi & Hlt). exists i. rewrite <-Heq. split; [|done].
  intros j Hj. rewrite <-Heq. auto.
Qed.

Lemma lex_lt_cons x vs os :
  lex_lt (component vs) (component os) → lex_lt (component (x :: vs)) (component (x :: os)).
Proof.
  intros (i & Hi & Hlt). exists (S i). split; [|done].
  intros [|j] Hj; [done|]. apply (Hi j). lia.
Qed.

Lemma onlyZeros_component l : onlyZeros l = true → ∀ i, component l i = 0.
Proof.
  unfold onlyZeros, component. rewrite forallb_forall. intros H i.
  destruct (l !! i) as [x|] eqn:Hx; simpl; [|done].
  apply list_elem_of_lookup_2, list_elem_of_In, H, Z.eqb_eq in Hx. done.
Qed.

Lemma not_onlyZeros_lex l :
  Forall (λ n, 0 <= n) l → onlyZeros l = false → lex_lt (component []) (component l).
Proof.
  induction 1 as [|x l Hx Hl IH]; simpl; [done|].
  destruct (Z.eqb_spec 0 x) as [<-|Hne]; simpl.
  - intros H. apply (lex_lt_eq_l (component [0])); [by intros [|[|i]]|].
    by apply lex_lt_cons, IH.
  - intros _. exists 0%nat. split; [lia|]. unfold component. simpl. lia.
Qed.

Lemma compare_numbers_nil_l os :
  compare_numbers [] os = if onlyZeros os then 0 else -1.
Proof. destruct os as [|o os]; [done|]. unfold compare_numbers. cbn [compare_common Z.eqb
  negb length Nat.ltb Nat.leb andb drop]. by destruct (onlyZeros (o :: os)). Qed.

Lemma compare_numbers_cons v o vs os :
  compare_numbers (v :: vs) (o :: os) =
    if o <? v then 1 else if v <? o then -1 else compare_numbers vs os.
Proof.
  unfold compare_numbers. cbn [compare_common length Nat.ltb Nat.leb drop].
  by destruct (o <? v), (v <? o).
Qed.

Lemma compare_common_antisym vs os : compare_common os vs = - compare_common vs os.
Proof.
  revert os. induction vs as [|v vs IH]; intros [|o os]; simpl; try done.
  destruct (Z.ltb_spec o v), (Z.ltb_spec v o); try lia. apply IH.
Qed.

Lemma compare_numbers_antisym vs os : compare_numbers os vs = - compare_numbers vs os.
Proof.
  unfold compare_numbers. rewrite (compare_common_antisym vs os).
  replace (- compare_common vs os =? 0) with (compare_common vs os =? 0)
    by (destruct (Z.eqb_spec (compare_common vs os) 0), (Z.eqb_spec (- compare_common vs os) 0); lia).
  destruct (negb _); [done|].
  destruct (Nat.ltb_spec (length os) (length vs)), (Nat.ltb_spec (length vs) (length os));
    try lia; simpl; try done; by destruct (onlyZeros _).
Qed.

Lemma compare_numbers_spec vs os :
  Forall (λ n, 0 <= n) vs → Forall (λ n, 0 <= n) os →
  compare_as (component vs) (component os) (compare_numbers vs os).
Proof.
  intros Hvs. revert os. induction Hvs as [|v vs Hv Hvs IH]; intros os Hos.
  - rewrite compare_numbers_nil_l. destruct (onlyZeros os) eqn:Hz.
    + right; left. split; [done|]. intros i. by rewrite (onlyZeros_component os Hz).
    + left. split; [done|]. by apply not_onlyZeros_lex.
  - destruct Hos as [|o os Ho Hos].
    + rewrite compare_numbers_antisym, compare_numbers_nil_l.
      destruct (onlyZeros (v :: vs)) eqn:Hz.
      * right; left. split; [done|]. intros i. by rewrite (onlyZeros_component (v :: vs) Hz).
      * right; right. split; [done|]. apply not_onlyZeros_lex; [by constructor|done].
    + rewrite compare_numbers_cons. destruct (Z.ltb_spec o v), (Z.ltb_spec v o); try lia.
      * right; right. split; [done|]. exists 0%nat. split; [lia|done].
      * left. split; [done|]. exists 0%nat. split; [lia|done].
      * assert (v = o) as -> by lia.
        destruct (IH os Hos) as [[-> Hlt]|[[-> Heq]|[-> Hlt]]].
        -- left. split; [done|]. by apply lex_lt_cons.
        -- right; left. split; [done|]. intros [|i]; [done|]. apply (Heq i).
        -- right; right. split; [done|]. by apply lex_lt_cons.
Qed.

(** The comparison of two versions is the comparison of their components and,
    when they agree and both are semantic, that of the pre-releases. *)
Lemma compareInternal_eq v o :
  compareInternal v o =
    let c := compare_numbers (components v) (components o) in
    if negb (c =? 0) then c
    else if negb (semver v) || negb (semver o) then 0
    else compare_preRelease (preRelease v) (preRelease o).
Proof.
  unfold compareInternal, compare_numbers.
  destruct (compare_common _ _ =? 0) eqn:Hc; simpl; [|by rewrite Hc].
  destruct (_ && negb (onlyZeros (drop (length (components o)) _))); [done|].
  by destruct (_ && _).
Qed.

Lemma string_ltb_antisym s t : String.ltb s t = true → String.ltb t s = false.
Proof.
  unfold String.ltb. rewrite (String.compare_antisym t s). by destruct (String.compare s t).
Qed.

Lemma compare_ident_antisym v o : compare_ident o v = - compare_ident v o.
Proof.
  unfold compare_ident.
  assert ((if String.ltb v o then 1 else if String.ltb o v then -1 else 0) =
    - (if String.ltb o v then 1 else if String.ltb v o then -1 else 0)) as Hs.
  { destruct (String.ltb v o) eqn:H1; [by rewrite (string_ltb_antisym _ _ H1)|].
    by destruct (String.ltb o v). }
  destruct (ParseUint v) as [n|], (ParseUint o) as [m|]; try exact Hs.
  destruct (Z.ltb_spec n m), (Z.ltb_spec m n); lia.
Qed.

Lemma compare_idents_antisym vs os : compare_idents os vs = - compare_idents vs os.
Proof.
  revert os. induction vs as [|v vs IH]; intros [|o os]; try done; simpl.
  rewrite (compare_ident_antisym v o).
  destruct (Z.eqb_spec (compare_ident v o) 0) as [->|Hne]; simpl; [apply IH|].
  destruct (Z.eqb_spec (- compare_ident v o) 0); lia.
Qed.

Lemma compare_preRelease_antisym v o : compare_preRelease o v = - compare_preRelease v o.
Proof.
  unfold compare_preRelease. rewrite (String.eqb_sym o v).
  destruct (String.eqb_spec v "") as [->|Hv], (String.eqb_spec o "") as [->|Ho]; simpl; try done.
  destruct (String.eqb v o); [done|]. apply compare_idents_antisym.
Qed.

(** Comparing two versions the other way round gives the opposite sign, so
    at most one of [LessThan v o] and [LessThan o v] holds. *)
Theorem compare_antisym v o : compareInternal o v = - compareInternal v o.
Proof.
  rewrite !compareInternal_eq. simpl. rewrite (compare_numbers_antisym (components v)).
  destruct (Z.eqb_spec (compare_numbers (components v) (components o)) 0) as [->|Hne]; simpl.
  - rewrite (orb_comm (negb (semver o))). destruct (_ || _); [done|].
    apply compare_preRelease_antisym.
  - destruct (Z.eqb_spec (- compare_numbers (components v) (components o)) 0); simpl; lia.
Qed.

(** Unless both versions are semantic, [compareInternal] is the
    lexicographic comparison of the components in which missing components
    count as 0, as the comment of [AtLeast] says. *)
Theorem compare_generic_lex v o :
  wf_components v → wf_components o → semver v && semver o = false →
  compare_as (component (components v)) (component (components o)) (compareInternal v o).
Proof.
  intros Hv Ho Hs. rewrite compareInternal_eq. simpl.
  replace (negb (semver v) || negb (semver o)) with true by (by destruct (semver v), (semver o)).
  pose proof (compare_numbers_spec _ _ Hv Ho) as Hspec.
  by destruct (Z.eqb_spec (compare_numbers (components v) (components o)) 0) as [Heq|]; simpl;
    [rewrite Heq in Hspec|].
Qed.

Lemma compare_generic_lex_witness :
  compare_as (component [1; 4]) (component [1; 4; 0])
    (compareInternal (mkVersion [1; 4] false "" "") (mkVersion [1; 4; 0] false "" "")).
Proof.
  apply (compare_generic_lex (mkVersion [1; 4] false "" "") (mkVersion [1; 4; 0] false "" ""));
    [repeat constructor; lia|repeat constructor; lia|reflexivity].
Defined.

(** On generic versions "at least" is transitive. *)
Theorem generic_AtLeast_trans a b c :
  wf_components a → wf_components b → wf_components c →
  semver a = false → semver b = false → semver c = false →
  AtLeast a b = true → AtLeast b c = true → AtLeast a c = true.
Proof.
  intros Ha Hb Hc Sa Sb Sc. unfold AtLeast.
  rewrite !negb_true_iff, !Z.eqb_neq. intros Hab Hbc Hac.
  assert (∀ x y, wf_components x → wf_components y → semver x = false →
    compare_as (component (components x)) (component (components y)) (compareInternal x y)) as Hspec.
  { intros x y Hx Hy Sx. rewrite compareInternal_eq. simpl. rewrite Sx. simpl.
    pose proof (compare_numbers_spec _ _ Hx Hy) as Hs.
    by destruct (Z.eqb_spec (compare_numbers (components x) (components y)) 0) as [Heq|]; simpl;
      [rewrite Heq in Hs|]. }
  destruct (Hspec a b Ha Hb Sa) as [[? _]|[[_ Eab]|[_ Lab]]]; [done| |];
  destruct (Hspec b c Hb Hc Sb) as [[? _]|[[_ Ebc]|[_ Lbc]]]; try done;
  destruct (Hspec a c Ha Hc Sa) as [[_ Lac]|[[? _]|[? _]]]; try lia.
  - revert Lac. apply lex_lt_irrefl. intros i. by rewrite Eab.
  - apply (lex_lt_asym _ _ Lbc). by apply (lex_lt_eq_l _ _ _ Eab).
  - apply (lex_lt_asym _ _ Lab). by apply (lex_lt_eq_r _ _ _ (λ i, eq_sym (Ebc i))).
  - apply (lex_lt_irrefl _ _ (λ i, eq_refl) (lex_lt_trans _ _ _ Lac (lex_lt_trans _ _ _ Lbc Lab))).
Qed.

Lemma generic_AtLeast_trans_witness :
  AtLeast (mkVersion [2; 0] false "" "") (mkVersion [1; 4] false "" "") = true.
Proof.
  apply (generic_AtLeast_trans (mkVersion [2; 0] false "" "") (mkVersion [1; 4; 1] false "" "")
    (mkVersion [1; 4] false "" "")); try reflexivity; repeat constructor; lia.
Defined.

(** On semantic versions with pre-releases it is not: the code compares a
    numeric identifier with an alphanumeric one as strings (Semantic Versioning
    ranks every numeric identifier lower), so three versions it parses form a
    cycle of [LessThan]. *)
Theorem semver_LessThan_cycle :
  ∃ a b c, ParseSemantic "1.0.0-9" = Ok a ∧ ParseSemantic "1.0.0-10" = Ok b ∧
    ParseSemantic "1.0.0-1a" = Ok c ∧
    LessThan a b = true ∧ LessThan b c = true ∧ LessThan c a = true.
Proof.
  exists (mkVersion [1; 0; 0] true "9" ""), (mkVersion [1; 0; 0] true "10" ""),
    (mkVersion [1; 0; 0] true "1a" "").
  split_and!; vm_compute; reflexivity.
Qed.

(** ** Printing and parsing back *)

(** Runs of [f] separated by single dots. *)
Inductive dotted (f : ascii → bool) : string → Prop :=
| dotted_one d : d ≠ "" → all_chars f d = true → dotted f d
| dotted_cons d s : d ≠ "" → all_chars f d = true → dotted f s →
    dotted f (d +:+ String dot s).

(** The text after a dotted run does not extend it. *)
Definition head_stops (f : ascii → bool) (r : string) : Prop :=
  match r with "" => True | String c _ => f c = false end.
Definition stops (f : ascii → bool) (r : string) : Prop :=
  match r with "" => True | String c _ => f c = false ∧ c ≠ dot end.

Lemma span_spec f s a b :
  span f s = (a, b) → s = a +:+ b ∧ all_chars f a = true ∧ head_stops f b.
Proof.
  revert a b. induction s as [|c s IH]; intros a b; simpl.
  - by intros [= <- <-].
  - destruct (f c) eqn:Hc.
    + destruct (span f s) as [x y]. intros [= <- <-].
      destruct (IH x y eq_refl) as (-> & Hx & Hy). simpl. by rewrite Hc.
    + intros [= <- <-]. done.
Qed.

Lemma span_app f a r :
  all_chars f a = true → head_stops f r → span f (a +:+ r) = (a, r).
Proof.
  induction a as [|c a IH]; simpl.
  - intros _ Hr. destruct r as [|d r]; simpl in *; [done|]. by rewrite Hr.
  - intros [Hc Ha]%andb_true_iff Hr. by rewrite Hc, IH.
Qed.

Lemma stops_head f r : stops f r → head_stops f r.
Proof. destruct r; simpl; naive_solver. Qed.

Lemma scan_tail_stops f n r : stops f r → scan_tail f n r = ("", r).
Proof.
  destruct n, r as [|c r]; simpl; try done. intros [_ Hd].
  destruct (Ascii.eqb_spec c dot); [done|]. done.
Qed.

Lemma scan_tail_dotted f n d r :
  f dot = false → dotted f d → stops f r → (String.length d < n)%nat →
  scan_tail f n (String dot (d +:+ r)) = (String dot d, r).
Proof.
  intros Hdot Hd Hr. revert n. induction Hd as [d Hne Ha|d s Hne Ha Hs IH]; intros n Hn;
    (destruct n as [|n]; [lia|]); cbn [scan_tail]; rewrite Ascii.eqb_refl.
  - rewrite span_app by (auto using stops_head).
    rewrite (proj2 (String.eqb_neq d "") Hne).
    by rewrite scan_tail_stops, string_app_nil_r.
  - rewrite string_app_assoc. cbn [String.append].
    rewrite span_app by done. rewrite (proj2 (String.eqb_neq d "") Hne).
    rewrite length_app_string in Hn. simpl in Hn. by rewrite IH by lia.
Qed.

Lemma scan_dotted_app f d r :
  f dot = false → dotted f d → stops f r → scan_dotted f (d +:+ r) = Some (d, r).
Proof.
  intros Hdot Hd Hr. unfold scan_dotted. destruct Hd as [d Hne Ha|d s Hne Ha Hs].
  - rewrite span_app by (auto using stops_head).
    rewrite (proj2 (String.eqb_neq d "") Hne).
    by rewrite scan_tail_stops, string_app_nil_r.
  - rewrite string_app_assoc. cbn [String.append].
    rewrite span_app by done. rewrite (proj2 (String.eqb_neq d "") Hne).
    rewrite scan_tail_dotted; try done.
    simpl. rewrite length_app_string. lia.
Qed.

Lemma scan_tail_spec f n s m r :
  scan_tail f n s = (m, r) → s = m +:+ r ∧ (m = "" ∨ ∃ d, m = String dot d ∧ dotted f d).
Proof.
  revert s m r. induction n as [|n IH]; intros s m r; simpl.
  { intros [= <- <-]. auto. }
  destruct s as [|c t]; [intros [= <- <-]; auto|].
  destruct (Ascii.eqb_spec c dot) as [->|]; [|intros [= <- <-]; auto].
  destruct (span f t) as [d r0] eqn:Hsp.
  destruct (String.eqb_spec d "") as [|Hne]; [intros [= <- <-]; auto|].
  destruct (scan_tail f n r0) as [m' r'] eqn:Hst. intros [= <- <-].
  apply span_spec in Hsp as (-> & Ha & _). destruct (IH _ _ _ Hst) as [-> Hm].
  split; [simpl; by rewrite string_app_assoc|]. right. eexists. split; [done|].
  destruct Hm as [->|(e & -> & He)]; [rewrite string_app_nil_r; by constructor|].
  by apply dotted_cons.
Qed.

Lemma scan_dotted_spec f s a r :
  scan_dotted f s = Some (a, r) → s = a +:+ r ∧ dotted f a.
Proof.
  unfold scan_dotted. destruct (span f s) as [d r0] eqn:Hsp.
  destruct (String.eqb_spec d "") as [|Hne]; [done|].
  destruct (scan_tail _ _ r0) as [m r'] eqn:Hst. intros [= <- <-].
  apply span_spec in Hsp as (-> & Ha & _). apply scan_tail_spec in Hst as [-> Hm].
  split; [by rewrite string_app_assoc|].
  destruct Hm as [->|(e & -> & He)]; [rewrite string_app_nil_r; by constructor|].
  by apply dotted_cons.
Qed.

Lemma dotted_all f g s :
  (∀ c, f c = true → g c = true) → g dot = true → dotted f s → all_chars g s = true.
Proof.
  intros Hfg Hdot. induction 1 as [d _ Ha|d s _ Ha _ IH]; [by eapply all_chars_impl|].
  rewrite all_chars_app. cbn [all_chars]. rewrite Hdot, IH.
  by rewrite (all_chars_impl f g d).
Qed.

Lemma dotted_nonempty f s : dotted f s → s ≠ "".
Proof. induction 1 as [d Hne|d s Hne]; [done|]. by destruct d. Qed.

Lemma zero_prefixed_fmt n : zero_prefixed (fmt_uint n) = false.
Proof.
  unfold zero_prefixed. destruct (HasPrefix (fmt_uint n) "0") eqn:Hp; [|done].
  apply HasPrefix_spec in Hp as [t Ht]. rewrite Ht.
  by rewrite (fmt_uint_no_leading_zero n t Ht).
Qed.

Lemma parse_components_fmt str b i l :
  Forall (λ n, 0 <= n <= max_uint64) l → parse_components str b i (map fmt_uint l) = Ok l.
Proof.
  intros Hl. revert i. induction Hl as [|n l Hn Hl IH]; intros i; simpl; [done|].
  rewrite zero_prefixed_fmt, andb_false_r. simpl. rewrite ParseUint_fmt by done. simpl.
  by rewrite IH.
Qed.

Lemma parse_components_range str b i comps l :
  parse_components str b i comps = Ok l →
  length l = length comps ∧ Forall (λ n, 0 <= n <= max_uint64) l.
Proof.
  revert i l. induction comps as [|comp comps IH]; intros i l; simpl.
  - intros [= <-]. by split; [|constructor].
  - intros H. apply bind_unit_Ok in H as [_ H]. apply bind_Ok_iff in H as (n & Hn & H).
    apply bind_Ok_iff in H as (ns & Hns & [= <-]). destruct (IH _ _ Hns) as [Hlen Hr].
    split; [simpl; congruence|]. constructor; [|done].
    destruct (ParseUint comp) as [m|] eqn:Hm; [|done]. injection Hn as ->.
    by eapply ParseUint_range.
Qed.

Lemma Join_fmt_dotted l : l ≠ [] → dotted is_digit (Join (map fmt_uint l) ".").
Proof.
  induction l as [|n [|m l] IH]; intros Hne; [done| |].
  - apply dotted_one; [apply fmt_uint_nonempty|apply fmt_uint_digits].
  - change (dotted is_digit (fmt_uint n +:+ String dot (Join (map fmt_uint (m :: l)) "."))).
    apply dotted_cons; [apply fmt_uint_nonempty|apply fmt_uint_digits|]. by apply IH.
Qed.

Lemma Split_Join_fmt l : l ≠ [] → Split (Join (map fmt_uint l) ".") "." = map fmt_uint l.
Proof.
  intros Hne. apply Split_Join; [by destruct l|].
  apply Forall_forall. intros s (n & -> & _)%list_elem_of_fmap.
  by apply (all_chars_not_in is_digit); [apply fmt_uint_digits|].
Qed.

Lemma versionMatchRE_app N tail :
  dotted is_digit N → stops is_digit tail → all_chars not_newline tail = true →
  versionMatchRE (N +:+ tail) = Some (N, tail).
Proof.
  intros HN Ht Hnl. unfold versionMatchRE.
  assert (∃ c t, N = String c t ∧ is_digit c = true) as (c & t & HNc & Hc).
  { destruct HN as [[|c d] Hne Ha|[|c d] s Hne Ha]; try done;
      simpl in Ha; apply andb_true_iff in Ha as [Hc _]; eauto. }
  assert (is_re_space c = false ∧ Ascii.eqb c "v"%char = false) as [Hsp Hv].
  { clear -Hc. by destruct c as [[] [] [] [] [] [] [] []]. }
  assert (span is_re_space (N +:+ tail) = ("", N +:+ tail)) as ->.
  { rewrite HNc. cbn [String.append span]. by rewrite Hsp. }
  cbn [snd]. assert (match N +:+ tail with String c t => if Ascii.eqb c "v"%char then t
    else N +:+ tail | "" => N +:+ tail end = N +:+ tail) as ->.
  { rewrite HNc. cbn [String.append]. by rewrite Hv. }
  rewrite scan_dotted_app by done. by rewrite Hnl.
Qed.

(** What [ParseSemantic] builds. *)
Record wf_semver (v : Version) : Prop := {
  wf_semver_flag : semver v = true;
  wf_semver_length : length (components v) = 3%nat;
  wf_semver_range : Forall (λ n, 0 <= n <= max_uint64) (components v);
  wf_semver_pre : preRelease v = "" ∨ dotted is_ident (preRelease v);
  wf_semver_build : buildMetadata v = "" ∨ dotted is_ident (buildMetadata v);
  wf_semver_zeros : ∀ str, check_preRelease str (preRelease v) = Ok tt
}.

Lemma check_preRelease_str str str' pre :
  check_preRelease str pre = Ok tt → check_preRelease str' pre = Ok tt.
Proof.
  unfold check_preRelease. rewrite !for_each_Ok. intros H.
  apply (Forall_impl _ _ _ H). intros x. rewrite !when_Ok. setoid_rewrite fail_when_Ok. done.
Qed.

Lemma scan_opt_ident_spec sep s a r :
  scan_opt_ident sep s = (a, r) → a = "" ∨ dotted is_ident a.
Proof.
  unfold scan_opt_ident. destruct s as [|c t]; [intros [= <- <-]; auto|].
  destruct (Ascii.eqb c sep); [|intros [= <- <-]; auto].
  destruct (scan_dotted is_ident t) as [[x y]|] eqn:Hs; intros [= <- <-]; [|auto].
  right. by apply scan_dotted_spec in Hs as [_ ?].
Qed.

Lemma parse_semver_wf str v : parse str true = Ok v → wf_semver v.
Proof.
  unfold parse. destruct (versionMatchRE str) as [[numbers extra]|]; [|done].
  rewrite bind_unit_Ok, fail_when_Ok. intros [Hlen H].
  apply bind_Ok_iff in H as (nums & Hnums & H).
  apply parse_components_range in Hnums as [Hl Hr].
  rewrite andb_true_l, andb_false_l, orb_false_r in Hlen.
  apply negb_false_iff, Nat.eqb_eq in Hlen. rewrite <-Hl in Hlen.
  destruct (String.eqb extra ""); simpl in H; [injection H as <-; by constructor; auto|].
  destruct (extraMatchRE extra) as [[pre build]|] eqn:He; [|done].
  apply bind_unit_Ok in H as [Hc [= <-]]. unfold extraMatchRE in He.
  destruct (scan_opt_ident _ extra) as [pre' r] eqn:H1.
  destruct (scan_opt_ident _ r) as [build' r'] eqn:H2.
  destruct (all_chars is_re_space r'); [|done]. injection He as -> ->.
  constructor; simpl; try done; try (by eapply scan_opt_ident_spec).
  intros str'. by eapply check_preRelease_str.
Qed.

Definition opt_part (sep : ascii) (s : string) : string :=
  if String.eqb s "" then "" else String sep s.

Lemma scan_opt_ident_part sep s r :
  s = "" ∨ dotted is_ident s → stops is_ident r → (head_stops (Ascii.eqb sep) r) →
  scan_opt_ident sep (opt_part sep s +:+ r) = (s, r).
Proof.
  intros [->|Hs] Hr Hh; unfold opt_part.
  - simpl. destruct r as [|c r]; [done|]. simpl in *. rewrite Ascii.eqb_sym. by rewrite Hh.
  - rewrite (proj2 (String.eqb_neq s "")) by (by eapply dotted_nonempty).
    cbn [String.append scan_opt_ident]. rewrite Ascii.eqb_refl.
    by rewrite scan_dotted_app.
Qed.

Lemma extraMatchRE_parts pre build :
  pre = "" ∨ dotted is_ident pre → build = "" ∨ dotted is_ident build →
  extraMatchRE (opt_part "-" pre +:+ opt_part "+" build) = Some (pre, build).
Proof.
  intros Hp Hb. unfold extraMatchRE.
  rewrite scan_opt_ident_part; [|done| |].
  - rewrite <-(string_app_nil_r (opt_part "+" build)).
    rewrite scan_opt_ident_part; done.
  - unfold opt_part. destruct (String.eqb build ""); [done|]. split; done.
  - unfold opt_part. by destruct (String.eqb build "").
Qed.

Lemma opt_part_not_newline sep s :
  not_newline sep = true → s = "" ∨ dotted is_ident s → all_chars not_newline (opt_part sep s) = true.
Proof.
  intros Hsep [->|Hs]; unfold opt_part; [done|].
  destruct (String.eqb s ""); [done|]. cbn [all_chars]. rewrite Hsep. simpl.
  eapply dotted_all; [|done|done]. intros c. unfold is_ident, not_newline, newline.
  destruct (Ascii.eqb_spec c (ascii_of_nat 10)) as [->|]; [|done]. by vm_compute.
Qed.

Lemma String_semver v :
  String_ (Some v) = Join (map fmt_uint (components v)) "." +:+
    (opt_part "-" (preRelease v) +:+ opt_part "+" (buildMetadata v)).
Proof. reflexivity. Qed.

Lemma parse_String_wf v : wf_semver v → ParseSemantic (String_ (Some v)) = Ok v.
Proof.
  intros [Hf Hl Hr Hp Hb Hz]. rewrite String_semver. unfold ParseSemantic, parse.
  assert (components v ≠ []) as Hne by (by destruct (components v)).
  set (tail := opt_part "-" (preRelease v) +:+ opt_part "+" (buildMetadata v)).
  rewrite versionMatchRE_app.
  - rewrite Split_Join_fmt, length_map, Hl by done. simpl.
    rewrite parse_components_fmt by done. cbn [mbind res_bind].
    destruct (String.eqb_spec tail "") as [He|He]; cbn [negb].
    + destruct v as [c s p b]; simpl in *. unfold tail, opt_part in He.
      destruct (String.eqb_spec p "") as [->|]; [|done].
      destruct (String.eqb_spec b "") as [->|]; [|done]. by rewrite Hf.
    + unfold tail. rewrite extraMatchRE_parts by done. rewrite Hz. simpl.
      destruct v as [c s p b]; simpl in *. by rewrite Hf.
  - by apply Join_fmt_dotted.
  - unfold tail, opt_part. destruct (String.eqb (preRelease v) ""); [|done].
    by destruct (String.eqb (buildMetadata v) "").
  - unfold tail. rewrite all_chars_app, !opt_part_not_newline; done.
Qed.

(** C34. Printing a parsed semantic version and parsing the text gives the same
    version, whatever white space or [v] surrounded the original. *)
Theorem parse_print_roundtrip str v :
  ParseSemantic str = Ok v → ParseSemantic (String_ (Some v)) = Ok v.
Proof. intros H. apply parse_String_wf. by eapply parse_semver_wf. Qed.

Lemma parse_print_roundtrip_witness :
  ParseSemantic (String_ (Some (mkVersion [1; 20; 3] true "rc.1" "b7"))) =
    Ok (mkVersion [1; 20; 3] true "rc.1" "b7").
Proof. apply (parse_print_roundtrip " v1.20.3-rc.1+b7 "). vm_compute. reflexivity. Defined.
