(* ===== verification/KeosTypes.v ===== *)
(** * The descriptor: the types of [pkg/commons/cluster.go]

    One record per Go struct, with the struct's fields in order under a short
    prefix, and the zero value of each.  A Go [int] is an integer, a pointer to a
    scalar or a struct is an option, a slice is a list (the code never tells a
    nil slice from an empty one) and a [map[string]string] a finite map. *)

From S2P Require Import Prelude.
Local Open Scope Z_scope.

(** [interface{}] values of the secrets file. *)
Inductive value :=
| VNil
| VStr (s : string)
| VStrPtr (p : option string)
| VList (l : list value)
| VMap (m : gmap string value).

Record Metadata := mkMetadata {
  md_Name : string;
  md_Namespace : string;
  md_Labels : gmap string string;
  md_Annotations : gmap string string
}.
Definition zero_Metadata : Metadata := mkMetadata "" "" ∅ ∅.

Record CAPX := mkCAPX {
  capx_CAPI_Version : string;
  capx_CAPA_Version : string;
  capx_CAPA_Image_version : string;
  capx_CAPG_Version : string;
  capx_CAPG_Image_version : string;
  capx_CAPZ_Version : string;
  capx_CAPZ_Image_version : string
}.
Definition zero_CAPX : CAPX := mkCAPX "" "" "" "" "" "" "".

Record Chart := mkChart {
  chart_Name : string;
  chart_Version : string
}.
Definition zero_Chart : Chart := mkChart "" "".

Record ChartEntry := mkChartEntry {
  ce_Repository : string;
  ce_Version : string;
  ce_Namespace : string;
  ce_Pull : bool;
  ce_Reconcile : bool
}.
Definition zero_ChartEntry : ChartEntry := mkChartEntry "" "" "" false false.

Record ControlplaneConfig := mkControlplaneConfig {
  cpc_MaxUnhealthy : option Z
}.
Definition zero_ControlplaneConfig : ControlplaneConfig := mkControlplaneConfig None.

Record WorkersConfig := mkWorkersConfig {
  wc_MaxUnhealthy : option Z
}.
Definition zero_WorkersConfig : WorkersConfig := mkWorkersConfig None.

Record ClusterConfigRef := mkClusterConfigRef {
  ccr_Name : string
}.
Definition zero_ClusterConfigRef : ClusterConfigRef := mkClusterConfigRef "".

Record ClusterConfigSpec := mkClusterConfigSpec {
  ccs_EKSLBController : bool;
  ccs_Private : bool;
  ccs_ControlplaneConfig : ControlplaneConfig;
  ccs_WorkersConfig : WorkersConfig;
  ccs_ClusterOperatorVersion : string;
  ccs_ClusterOperatorImageVersion : string;
  ccs_PrivateHelmRepo : bool;
  ccs_Charts : list Chart;
  ccs_Capx : CAPX;
  ccs_GitOpsEnabled : bool
}.
Definition zero_ClusterConfigSpec : ClusterConfigSpec := mkClusterConfigSpec false false zero_ControlplaneConfig zero_WorkersConfig "" "" false [] zero_CAPX false.

Record Calico := mkCalico {
  cal_ObservabilityEnabled : bool
}.
Definition zero_Calico : Calico := mkCalico false.

Record PrivateCluster := mkPrivateCluster {
  pc_EnablePrivateEndpoint : option bool;
  pc_ControlPlaneCidrBlock : string
}.
Definition zero_PrivateCluster : PrivateCluster := mkPrivateCluster None "".

Record ClusterNetwork := mkClusterNetwork {
  cn_PrivateCluster : option PrivateCluster
}.
Definition zero_ClusterNetwork : ClusterNetwork := mkClusterNetwork None.

Record CIDRBlock := mkCIDRBlock {
  cb_CIDRBlock : string;
  cb_DisplayName : string
}.
Definition zero_CIDRBlock : CIDRBlock := mkCIDRBlock "" "".

Record MasterAuthorizedNetworksConfig := mkMasterAuthorizedNetworksConfig {
  man_CIDRBlocks : list CIDRBlock;
  man_GCPPublicCIDRsAccessEnabled : option bool
}.
Definition zero_MasterAuthorizedNetworksConfig : MasterAuthorizedNetworksConfig := mkMasterAuthorizedNetworksConfig [] None.

Record MonitoringConfig := mkMonitoringConfig {
  mon_EnableManagedPrometheus : option bool
}.
Definition zero_MonitoringConfig : MonitoringConfig := mkMonitoringConfig None.

Record LoggingConfig := mkLoggingConfig {
  log_SystemComponents : option bool;
  log_Workloads : option bool
}.
Definition zero_LoggingConfig : LoggingConfig := mkLoggingConfig None None.

Record IPAllocationPolicy := mkIPAllocationPolicy {
  ipa_UseIPAliases : bool;
  ipa_ClusterSecondaryRangeName : string;
  ipa_ServicesSecondaryRangeName : string;
  ipa_ClusterIpv4CidrBlock : string;
  ipa_ServicesIpv4CidrBlock : string
}.
Definition zero_IPAllocationPolicy : IPAllocationPolicy := mkIPAllocationPolicy false "" "" "" "".

Record WorkloadIdentityConfig := mkWorkloadIdentityConfig {
  wic_WorkloadPool : string;
  wic_Enabled : option bool;
  wic_ServiceAccounts : gmap string string
}.
Definition zero_WorkloadIdentityConfig : WorkloadIdentityConfig := mkWorkloadIdentityConfig "" None ∅.

Record ClusterSecurity := mkClusterSecurity {
  csec_WorkloadIdentityConfig : option WorkloadIdentityConfig
}.
Definition zero_ClusterSecurity : ClusterSecurity := mkClusterSecurity None.

Record GCPCP := mkGCPCP {
  gcp_ReleaseChannel : string;
  gcp_ClusterNetwork : option ClusterNetwork;
  gcp_MasterAuthorizedNetworksConfig : option MasterAuthorizedNetworksConfig;
  gcp_MonitoringConfig : option MonitoringConfig;
  gcp_LoggingConfig : option LoggingConfig;
  gcp_ClusterIpv4Cidr : string;
  gcp_IPAllocationPolicy : IPAllocationPolicy;
  gcp_ClusterSecurity : option ClusterSecurity
}.
Definition zero_GCPCP : GCPCP := mkGCPCP "" None None None None "" zero_IPAllocationPolicy None.

Record Keos := mkKeos {
  keos_Flavour : string
}.
Definition zero_Keos : Keos := mkKeos "".

Record Subnets := mkSubnets {
  sn_SubnetId : string;
  sn_CidrBlock : string;
  sn_Role : string
}.
Definition zero_Subnets : Subnets := mkSubnets "" "" "".

Record Networks := mkNetworks {
  net_VPCID : string;
  net_VPCCIDRBlock : string;
  net_PodsCidrBlock : string;
  net_PodsSubnets : list Subnets;
  net_Subnets : list Subnets;
  net_ResourceGroup : string
}.
Definition zero_Networks : Networks := mkNetworks "" "" "" [] [] "".

Record AWSCPLogging := mkAWSCPLogging {
  awsl_ApiServer : bool;
  awsl_Audit : bool;
  awsl_Authenticator : bool;
  awsl_ControllerManager : bool;
  awsl_Scheduler : bool
}.
Definition zero_AWSCPLogging : AWSCPLogging := mkAWSCPLogging false false false false false.

Record AWSCP := mkAWSCP {
  awscp_AssociateOIDCProvider : bool;
  awscp_EncryptionKey : string;
  awscp_MPRoleName : string;
  awscp_Logging : AWSCPLogging
}.
Definition zero_AWSCP : AWSCP := mkAWSCP false "" "" zero_AWSCPLogging.

Record AzureCP := mkAzureCP {
  azcp_Tier : string
}.
Definition zero_AzureCP : AzureCP := mkAzureCP "".

Record SecurityAWS := mkSecurityAWS {
  secaws_CreateIAM : bool;
  secaws_NodegroupExtraPolicyARN : string
}.
Definition zero_SecurityAWS : SecurityAWS := mkSecurityAWS false "".

Record SecurityGCP := mkSecurityGCP {
  secgcp_Scopes : list string
}.
Definition zero_SecurityGCP : SecurityGCP := mkSecurityGCP [].

Record Security := mkSecurity {
  sec_ControlPlaneIdentity : string;
  sec_NodesIdentity : string;
  sec_AWS : SecurityAWS;
  sec_GCP : SecurityGCP;
  sec_EnableSecureBoot : option bool
}.
Definition zero_Security : Security := mkSecurity "" "" zero_SecurityAWS zero_SecurityGCP None.

Record RootVolume := mkRootVolume {
  rv_Size : Z;
  rv_Type : string;
  rv_Encrypted : bool;
  rv_EncryptionKey : string
}.
Definition zero_RootVolume : RootVolume := mkRootVolume 0 "" false "".

Record CustomVolume := mkCustomVolume {
  cv_Enabled : option bool;
  cv_Size : Z;
  cv_Type : string;
  cv_Encrypted : bool;
  cv_EncryptionKey : string
}.
Definition zero_CustomVolume : CustomVolume := mkCustomVolume None 0 "" false "".

Record ExtraVolume := mkExtraVolume {
  ev_Name : string;
  ev_DeviceName : string;
  ev_Size : Z;
  ev_Type : string;
  ev_Label : string;
  ev_Encrypted : bool;
  ev_EncryptionKey : string;
  ev_MountPath : string
}.
Definition zero_ExtraVolume : ExtraVolume := mkExtraVolume "" "" 0 "" "" false "" "".

Record ControlPlane := mkControlPlane {
  cp_Managed : bool;
  cp_NodeImage : string;
  cp_HighlyAvailable : option bool;
  cp_Size : string;
  cp_RootVolume : RootVolume;
  cp_Tags : list (gmap string string);
  cp_AWS : AWSCP;
  cp_Azure : AzureCP;
  cp_Gcp : GCPCP;
  cp_CRIVolume : CustomVolume;
  cp_ETCDVolume : CustomVolume;
  cp_ExtraVolumes : list ExtraVolume
}.
Definition zero_ControlPlane : ControlPlane := mkControlPlane false "" None "" zero_RootVolume [] zero_AWSCP zero_AzureCP zero_GCPCP zero_CustomVolume zero_CustomVolume [].

Record WorkerNode := mkWorkerNode {
  wn_Name : string;
  wn_NodeImage : string;
  wn_AmiType : string;
  wn_Quantity : option Z;
  wn_Size : string;
  wn_ZoneDistribution : string;
  wn_AZ : string;
  wn_SSHKey : string;
  wn_Spot : bool;
  wn_Labels : gmap string string;
  wn_AdditionalLabels : gmap string string;
  wn_Taints : list string;
  wn_NodeGroupMaxSize : Z;
  wn_NodeGroupMinSize : option Z;
  wn_RootVolume : RootVolume;
  wn_CRIVolume : CustomVolume;
  wn_ExtraVolumes : list ExtraVolume
}.
Definition zero_WorkerNode : WorkerNode := mkWorkerNode "" "" "" None "" "" "" "" false ∅ ∅ [] 0 None zero_RootVolume zero_CustomVolume [].

Record Bastion := mkBastion {
  bas_NodeImage : string;
  bas_VMSize : string;
  bas_AllowedCIDRBlocks : list string;
  bas_SSHKey : string
}.
Definition zero_Bastion : Bastion := mkBastion "" "" [] "".

Record AWSCredentials := mkAWSCredentials {
  awsc_AccessKey : string;
  awsc_SecretKey : string;
  awsc_Region : string;
  awsc_AccountID : string;
  awsc_RoleARN : option string
}.
Definition zero_AWSCredentials : AWSCredentials := mkAWSCredentials "" "" "" "" None.

Record AzureCredentials := mkAzureCredentials {
  azc_SubscriptionID : string;
  azc_TenantID : string;
  azc_ClientID : string;
  azc_ClientSecret : string
}.
Definition zero_AzureCredentials : AzureCredentials := mkAzureCredentials "" "" "" "".

Record GCPCredentials := mkGCPCredentials {
  gcpc_ProjectID : string;
  gcpc_PrivateKeyID : string;
  gcpc_PrivateKey : string;
  gcpc_ClientEmail : string;
  gcpc_ClientID : string
}.
Definition zero_GCPCredentials : GCPCredentials := mkGCPCredentials "" "" "" "" "".

Record DockerRegistryCredentials := mkDockerRegistryCredentials {
  drc_URL : string;
  drc_User : string;
  drc_Pass : string
}.
Definition zero_DockerRegistryCredentials : DockerRegistryCredentials := mkDockerRegistryCredentials "" "" "".

Record HelmRepositoryCredentials := mkHelmRepositoryCredentials {
  hrc_URL : string;
  hrc_User : string;
  hrc_Pass : string
}.
Definition zero_HelmRepositoryCredentials : HelmRepositoryCredentials := mkHelmRepositoryCredentials "" "" "".

Record Credentials := mkCredentials {
  cred_AWS : AWSCredentials;
  cred_AZURE : AzureCredentials;
  cred_GCP : GCPCredentials;
  cred_GithubToken : string;
  cred_DockerRegistries : list DockerRegistryCredentials;
  cred_HelmRepository : HelmRepositoryCredentials
}.
Definition zero_Credentials : Credentials := mkCredentials zero_AWSCredentials zero_AzureCredentials zero_GCPCredentials "" [] zero_HelmRepositoryCredentials.

Record DockerRegistry := mkDockerRegistry {
  dr_AuthRequired : bool;
  dr_Type : string;
  dr_URL : string;
  dr_KeosRegistry : bool;
  dr_ECRPullThroughCacheEnabled : bool
}.
Definition zero_DockerRegistry : DockerRegistry := mkDockerRegistry false "" "" false false.

Record HelmRepository := mkHelmRepository {
  hr_AuthRequired : bool;
  hr_URL : string;
  hr_Type : string;
  hr_ReleaseInterval : string;
  hr_ReleaseRetries : option Z;
  hr_ReleaseSourceInterval : string;
  hr_RepositoryInterval : string
}.
Definition zero_HelmRepository : HelmRepository := mkHelmRepository false "" "" "" None "" "".

Record SCParameters := mkSCParameters {
  scp_Type : string;
  scp_FsType : string;
  scp_Labels : string;
  scp_AllowAutoIOPSPerGBIncrease : string;
  scp_BlockExpress : string;
  scp_BlockSize : string;
  scp_Iops : string;
  scp_IopsPerGB : string;
  scp_Encrypted : string;
  scp_KmsKeyId : string;
  scp_Throughput : Z;
  scp_CachingMode : string;
  scp_DiskAccessID : string;
  scp_DiskEncryptionSetID : string;
  scp_DiskEncryptionType : string;
  scp_EnableBursting : string;
  scp_EnablePerformancePlus : string;
  scp_Kind : string;
  scp_NetworkAccessPolicy : string;
  scp_Provisioner : string;
  scp_PublicNetworkAccess : string;
  scp_ResourceGroup : string;
  scp_SkuName : string;
  scp_SubscriptionID : string;
  scp_Tags : string;
  scp_DiskEncryptionKmsKey : string;
  scp_ProvisionedIopsOnCreate : string;
  scp_ProvisionedThroughputOnCreate : string;
  scp_ReplicationType : string
}.
Definition zero_SCParameters : SCParameters := mkSCParameters "" "" "" "" "" "" "" "" "" "" 0 "" "" "" "" "" "" "" "" "" "" "" "" "" "" "" "" "" "".

Record StorageClass := mkStorageClass {
  sc_EncryptionKey : string;
  sc_Class : string;
  sc_Parameters : SCParameters
}.
Definition zero_StorageClass : StorageClass := mkStorageClass "" "" zero_SCParameters.

Record Dns := mkDns {
  dns_ManageZone : bool;
  dns_Forwarders : list string
}.
Definition zero_Dns : Dns := mkDns false [].

Record KeosSpec := mkKeosSpec {
  ks_DeployAutoscaler : bool;
  ks_Bastion : Bastion;
  ks_StorageClass : StorageClass;
  ks_Credentials : Credentials;
  ks_InfraProvider : string;
  ks_K8SVersion : string;
  ks_Region : string;
  ks_Networks : Networks;
  ks_Dns : Dns;
  ks_DockerRegistries : list DockerRegistry;
  ks_HelmRepository : HelmRepository;
  ks_ExternalDomain : string;
  ks_Security : Security;
  ks_Keos : Keos;
  ks_ControlPlane : ControlPlane;
  ks_WorkerNodes : list WorkerNode;
  ks_ClusterConfigRef : ClusterConfigRef;
  ks_Calico : Calico
}.
Definition zero_KeosSpec : KeosSpec := mkKeosSpec false zero_Bastion zero_StorageClass zero_Credentials "" "" "" zero_Networks zero_Dns [] zero_HelmRepository "" zero_Security zero_Keos zero_ControlPlane [] zero_ClusterConfigRef zero_Calico.

Record KeosCluster := mkKeosCluster {
  kc_APIVersion : string;
  kc_Kind : string;
  kc_Metadata : Metadata;
  kc_Spec : KeosSpec
}.
Definition zero_KeosCluster : KeosCluster := mkKeosCluster "" "" zero_Metadata zero_KeosSpec.

Record ClusterConfig := mkClusterConfig {
  cc_APIVersion : string;
  cc_Kind : string;
  cc_Metadata : Metadata;
  cc_Spec : ClusterConfigSpec
}.
Definition zero_ClusterConfig : ClusterConfig := mkClusterConfig "" "" zero_Metadata zero_ClusterConfigSpec.

Record AWS := mkAWS {
  aws_Credentials : AWSCredentials
}.
Definition zero_AWS : AWS := mkAWS zero_AWSCredentials.

Record AZURE := mkAZURE {
  azure_Credentials : AzureCredentials
}.
Definition zero_AZURE : AZURE := mkAZURE zero_AzureCredentials.

Record GCP := mkGCP {
  gcps_Credentials : GCPCredentials
}.
Definition zero_GCP : GCP := mkGCP zero_GCPCredentials.

Record Secrets := mkSecrets {
  secr_AWS : AWS;
  secr_AZURE : AZURE;
  secr_GCP : GCP;
  secr_GithubToken : string;
  secr_DockerRegistry : DockerRegistryCredentials;
  secr_DockerRegistries : list DockerRegistryCredentials;
  secr_HelmRepository : HelmRepositoryCredentials
}.
Definition zero_Secrets : Secrets := mkSecrets zero_AWS zero_AZURE zero_GCP "" zero_DockerRegistryCredentials [] zero_HelmRepositoryCredentials.

Record SecretsFile := mkSecretsFile {
  sf_Secrets : Secrets
}.

Record ClusterCredentials := mkClusterCredentials {
  clc_ProviderCredentials : gmap string string;
  clc_KeosRegistryCredentials : gmap string string;
  clc_DockerRegistriesCredentials : list (gmap string value);
  clc_HelmRepositoryCredentials : gmap string string;
  clc_GithubToken : string
}.
Definition zero_ClusterCredentials : ClusterCredentials := mkClusterCredentials ∅ ∅ [] ∅ "".

#[export] Instance Metadata_eq_dec : EqDecision Metadata.
Proof. solve_decision. Defined.
#[export] Instance CAPX_eq_dec : EqDecision CAPX.
Proof. solve_decision. Defined.
#[export] Instance Chart_eq_dec : EqDecision Chart.
Proof. solve_decision. Defined.
#[export] Instance ChartEntry_eq_dec : EqDecision ChartEntry.
Proof. solve_decision. Defined.
#[export] Instance ControlplaneConfig_eq_dec : EqDecision ControlplaneConfig.
Proof. solve_decision. Defined.
#[export] Instance WorkersConfig_eq_dec : EqDecision WorkersConfig.
Proof. solve_decision. Defined.
#[export] Instance ClusterConfigRef_eq_dec : EqDecision ClusterConfigRef.
Proof. solve_decision. Defined.
#[export] Instance ClusterConfigSpec_eq_dec : EqDecision ClusterConfigSpec.
Proof. solve_decision. Defined.
#[export] Instance Calico_eq_dec : EqDecision Calico.
Proof. solve_decision. Defined.
#[export] Instance PrivateCluster_eq_dec : EqDecision PrivateCluster.
Proof. solve_decision. Defined.
#[export] Instance ClusterNetwork_eq_dec : EqDecision ClusterNetwork.
Proof. solve_decision. Defined.
#[export] Instance CIDRBlock_eq_dec : EqDecision CIDRBlock.
Proof. solve_decision. Defined.
#[export] Instance MasterAuthorizedNetworksConfig_eq_dec : EqDecision MasterAuthorizedNetworksConfig.
Proof. solve_decision. Defined.
#[export] Instance MonitoringConfig_eq_dec : EqDecision MonitoringConfig.
Proof. solve_decision. Defined.
#[export] Instance LoggingConfig_eq_dec : EqDecision LoggingConfig.
Proof. solve_decision. Defined.
#[export] Instance IPAllocationPolicy_eq_dec : EqDecision IPAllocationPolicy.
Proof. solve_decision. Defined.
#[export] Instance WorkloadIdentityConfig_eq_dec : EqDecision WorkloadIdentityConfig.
Proof. solve_decision. Defined.
#[export] Instance ClusterSecurity_eq_dec : EqDecision ClusterSecurity.
Proof. solve_decision. Defined.
#[export] Instance GCPCP_eq_dec : EqDecision GCPCP.
Proof. solve_decision. Defined.
#[export] Instance Keos_eq_dec : EqDecision Keos.
Proof. solve_decision. Defined.
#[export] Instance Subnets_eq_dec : EqDecision Subnets.
Proof. solve_decision. Defined.
#[export] Instance Networks_eq_dec : EqDecision Networks.
Proof. solve_decision. Defined.
#[export] Instance AWSCPLogging_eq_dec : EqDecision AWSCPLogging.
Proof. solve_decision. Defined.
#[export] Instance AWSCP_eq_dec : EqDecision AWSCP.
Proof. solve_decision. Defined.
#[export] Instance AzureCP_eq_dec : EqDecision AzureCP.
Proof. solve_decision. Defined.
#[export] Instance SecurityAWS_eq_dec : EqDecision SecurityAWS.
Proof. solve_decision. Defined.
#[export] Instance SecurityGCP_eq_dec : EqDecision SecurityGCP.
Proof. solve_decision. Defined.
#[export] Instance Security_eq_dec : EqDecision Security.
Proof. solve_decision. Defined.
#[export] Instance RootVolume_eq_dec : EqDecision RootVolume.
Proof. solve_decision. Defined.
#[export] Instance CustomVolume_eq_dec : EqDecision CustomVolume.
Proof. solve_decision. Defined.
#[export] Instance ExtraVolume_eq_dec : EqDecision ExtraVolume.
Proof. solve_decision. Defined.
#[export] Instance ControlPlane_eq_dec : EqDecision ControlPlane.
Proof. solve_decision. Defined.
#[export] Instance WorkerNode_eq_dec : EqDecision WorkerNode.
Proof. solve_decision. Defined.
#[export] Instance Bastion_eq_dec : EqDecision Bastion.
Proof. solve_decision. Defined.
#[export] Instance AWSCredentials_eq_dec : EqDecision AWSCredentials.
Proof. solve_decision. Defined.
#[export] Instance AzureCredentials_eq_dec : EqDecision AzureCredentials.
Proof. solve_decision. Defined.
#[export] Instance GCPCredentials_eq_dec : EqDecision GCPCredentials.
Proof. solve_decision. Defined.
#[export] Instance DockerRegistryCredentials_eq_dec : EqDecision DockerRegistryCredentials.
Proof. solve_decision. Defined.
#[export] Instance HelmRepositoryCredentials_eq_dec : EqDecision HelmRepositoryCredentials.
Proof. solve_decision. Defined.
#[export] Instance Credentials_eq_dec : EqDecision Credentials.
Proof. solve_decision. Defined.
#[export] Instance DockerRegistry_eq_dec : EqDecision DockerRegistry.
Proof. solve_decision. Defined.
#[export] Instance HelmRepository_eq_dec : EqDecision HelmRepository.
Proof. solve_decision. Defined.
#[export] Instance SCParameters_eq_dec : EqDecision SCParameters.
Proof. solve_decision. Defined.
#[export] Instance StorageClass_eq_dec : EqDecision StorageClass.
Proof. solve_decision. Defined.
#[export] Instance Dns_eq_dec : EqDecision Dns.
Proof. solve_decision. Defined.
#[export] Instance KeosSpec_eq_dec : EqDecision KeosSpec.
Proof. solve_decision. Defined.
#[export] Instance KeosCluster_eq_dec : EqDecision KeosCluster.
Proof. solve_decision. Defined.
#[export] Instance ClusterConfig_eq_dec : EqDecision ClusterConfig.
Proof. solve_decision. Defined.
#[export] Instance AWS_eq_dec : EqDecision AWS.
Proof. solve_decision. Defined.
#[export] Instance AZURE_eq_dec : EqDecision AZURE.
Proof. solve_decision. Defined.
#[export] Instance GCP_eq_dec : EqDecision GCP.
Proof. solve_decision. Defined.
