(* ===== verification/Descriptor.v ===== *)
(** * Reading the cluster descriptor: [pkg/commons/cluster.go]

    The defaults, the registered field validators and the reading of the
    manifests of a descriptor file.  The YAML decoder and the struct validator
    are third-party: the class [DescriptorLib]. *)

From S2P Require Import Prelude GoStr KeosTypes.
Local Open Scope Z_scope.
Local Open Scope go_scope.
Local Open Scope stdpp_scope.

Definition capi_version : string := "v1.13.6".
Definition capa_version : string := "v2.13.0".
Definition capz_version : string := "v1.26.1".
Definition capg_version : string := "1.13.1-0.1.0-M1".

(** ** Defaults *)

Definition ClusterConfigSpec_Init (s : ClusterConfigSpec) : ClusterConfigSpec :=
  mkClusterConfigSpec (ccs_EKSLBController s) true (ccs_ControlplaneConfig s)
    (mkWorkersConfig (Some 100)) (ccs_ClusterOperatorVersion s) (ccs_ClusterOperatorImageVersion s)
    true (ccs_Charts s) (ccs_Capx s) false.

(** [setDefaultValue(&s, value)]: the value [s] has afterwards. *)
Definition setDefaultValue (s value : string) : string := if s =s "" then value else s.

Definition with_Capx (s : ClusterConfigSpec) (x : CAPX) : ClusterConfigSpec :=
  mkClusterConfigSpec (ccs_EKSLBController s) (ccs_Private s) (ccs_ControlplaneConfig s)
    (ccs_WorkersConfig s) (ccs_ClusterOperatorVersion s) (ccs_ClusterOperatorImageVersion s)
    (ccs_PrivateHelmRepo s) (ccs_Charts s) x (ccs_GitOpsEnabled s).

Definition InitCapx (s : ClusterConfigSpec) : ClusterConfigSpec :=
  let x := ccs_Capx s in
  let capi := setDefaultValue (capx_CAPI_Version x) capi_version in
  let capa := setDefaultValue (capx_CAPA_Version x) capa_version in
  let capa_image := setDefaultValue (capx_CAPA_Image_version x) capa in
  let capz := setDefaultValue (capx_CAPZ_Version x) capz_version in
  let capz_image := setDefaultValue (capx_CAPZ_Image_version x) capz in
  let capg := setDefaultValue (capx_CAPG_Version x) capg_version in
  let capg_image := setDefaultValue (capx_CAPG_Image_version x) capg in
  with_Capx s (mkCAPX capi capa capa_image capg capg_image capz capz_image).

(** [if p == nil { p = ToPtr(v) }] *)
Definition or_ptr {A} (p : option A) (a : A) : option A := match p with Some _ => p | None => Some a end.

Definition Init_ClusterNetwork (p : option ClusterNetwork) : option ClusterNetwork :=
  let cn := default zero_ClusterNetwork p in
  let pc := default zero_PrivateCluster (cn_PrivateCluster cn) in
  Some (mkClusterNetwork
    (Some (mkPrivateCluster (or_ptr (pc_EnablePrivateEndpoint pc) true) (pc_ControlPlaneCidrBlock pc)))).

Definition Init_Gcp (g : GCPCP) : GCPCP :=
  let man := default zero_MasterAuthorizedNetworksConfig (gcp_MasterAuthorizedNetworksConfig g) in
  let mon := default zero_MonitoringConfig (gcp_MonitoringConfig g) in
  let mon := if opt_is_Some (gcp_LoggingConfig g) then mon else mkMonitoringConfig (Some false) in
  let log := default zero_LoggingConfig (gcp_LoggingConfig g) in
  let log := if opt_is_Some (log_SystemComponents log) then log
             else mkLoggingConfig (Some false) (Some false) in
  mkGCPCP "extended" (Init_ClusterNetwork (gcp_ClusterNetwork g))
    (Some (mkMasterAuthorizedNetworksConfig (man_CIDRBlocks man)
      (or_ptr (man_GCPPublicCIDRsAccessEnabled man) false)))
    (Some mon) (Some log) (gcp_ClusterIpv4Cidr g) (gcp_IPAllocationPolicy g) (gcp_ClusterSecurity g).

Definition Init_ControlPlane (cp : ControlPlane) : ControlPlane :=
  mkControlPlane (cp_Managed cp) (cp_NodeImage cp) (Some true) (cp_Size cp) (cp_RootVolume cp) (cp_Tags cp)
    (mkAWSCP true (awscp_EncryptionKey (cp_AWS cp)) (awscp_MPRoleName (cp_AWS cp))
      (mkAWSCPLogging false false false false false))
    (mkAzureCP "Paid") (Init_Gcp (cp_Gcp cp)) (cp_CRIVolume cp) (cp_ETCDVolume cp) (cp_ExtraVolumes cp).

Definition Init_Security (provider : string) (sec : Security) : Security :=
  mkSecurity (sec_ControlPlaneIdentity sec) (sec_NodesIdentity sec)
    (mkSecurityAWS false (secaws_NodegroupExtraPolicyARN (sec_AWS sec))) (sec_GCP sec)
    (if (provider =s "gcp") && negb (opt_is_Some (sec_EnableSecureBoot sec)) then Some true
     else sec_EnableSecureBoot sec).

Definition Init (s : KeosSpec) : KeosSpec :=
  let hr := ks_HelmRepository s in
  mkKeosSpec true (ks_Bastion s) (ks_StorageClass s) (ks_Credentials s) (ks_InfraProvider s)
    (ks_K8SVersion s) (ks_Region s) (ks_Networks s)
    (mkDns true (dns_Forwarders (ks_Dns s))) (ks_DockerRegistries s)
    (mkHelmRepository false (hr_URL hr) "generic" (hr_ReleaseInterval hr) (hr_ReleaseRetries hr)
       (hr_ReleaseSourceInterval hr) (hr_RepositoryInterval hr))
    (ks_ExternalDomain s) (Init_Security (ks_InfraProvider s) (ks_Security s)) (ks_Keos s)
    (Init_ControlPlane (ks_ControlPlane s)) (ks_WorkerNodes s) (ks_ClusterConfigRef s) (ks_Calico s).

(** ** Registries behind a pull-through cache *)

Definition GetPrefixedRegistryURL (originalRegistry baseRegistryURL : string) (cache : bool) : string :=
  if negb cache || (baseRegistryURL =s "") then baseRegistryURL else
  let prefix :=
    if Contains originalRegistry "docker.io" then "/dockerhub"
    else if Contains originalRegistry "public.ecr.aws" then "/ecrpublic"
    else if Contains originalRegistry "ghcr.io" then "/ghcr"
    else if Contains originalRegistry "quay.io" then "/quay"
    else if Contains originalRegistry "k8s.io" then "/k8s"
    else "" in
  baseRegistryURL +:+ prefix.

(** ** Field validators

    Each gets the field and the fields of its parent that it looks at. *)

Definition pool_suffix : string := ".svc.id.goog".
Definition sa_suffix : string := ".iam.gserviceaccount.com".

Definition workloadPoolValidator (value : string) : bool :=
  if value =s "" then true else
  match Split value pool_suffix with
  | [p; _] => p <>s ""
  | _ => false
  end.

(** On [ServiceAccounts], a map. *)
Definition requiredIfEnabledValidator (enabled : option bool) (field : gmap string string) : bool :=
  match enabled with
  | Some true => negb (Nat.eqb (size field) 0)
  | _ => true
  end.

Definition pool_project (workloadPool : string) : string :=
  if workloadPool =s "" then "" else
  match Split workloadPool pool_suffix with
  | [p; _] => p
  | _ => ""
  end.

Definition check_service_account (poolProjectID saEmail : string) : bool :=
  HasSuffix saEmail sa_suffix &&
  match Split saEmail "@" with
  | [_; domain] =>
      if poolProjectID =s "" then true
      else match Split domain sa_suffix with
           | saProjectID :: _ => saProjectID =s poolProjectID
           | [] => false
           end
  | _ => false
  end.

Definition gcpServiceAccountsValidator (workloadPool : string) (serviceAccounts : gmap string string) : bool :=
  forallb (λ kv, check_service_account (pool_project workloadPool) (snd kv))
    (map_to_list serviceAccounts).

(** A reflected field: an int, or of another kind. *)
Inductive rfield := RInt (n : Z) | ROther.

(** Registered, and used by no field of the descriptor.  [Int()] of another kind
    panics. *)
Definition param_if_exists (cmp : Z → Z → bool) (field param : rfield) : res bool :=
  match field, param with
  | RInt 0, _ => Ok true
  | _, ROther => Ok false
  | RInt n, RInt p => Ok (if p =? 0 then true else if 0 <? p then cmp n p else false)
  | ROther, RInt p => if p =? 0 then Ok true else if 0 <? p then Panic "reflect: call of Int" else Ok false
  end.
Definition gteParamIfExists : rfield → rfield → res bool := param_if_exists (λ n p, p <=? n).
Definition lteParamIfExists : rfield → rfield → res bool := param_if_exists (λ n p, n <=? p).

(** ** The manifests *)

(** Of the spec the code looks only at whether it is set. *)
Record Resource := mkResource {
  rs_APIVersion : string;
  rs_Kind : string;
  rs_Metadata : Metadata;
  rs_SpecSet : bool
}.
Definition zero_Resource : Resource := mkResource "" "" zero_Metadata false.
#[export] Instance Resource_eq_dec : EqDecision Resource.
Proof. solve_decision. Defined.

(** What validating a struct gives: the failed fields, as struct namespace and tag,
    or another error. *)
Inductive verror :=
| ValidationErrors (fields : list (string * string)) (msg : string)
| InvalidValidation (msg : string).

(** Decoding into a struct keeps the fields the manifest does not name. *)
Class DescriptorLib := {
  Unmarshal_Resource : string → res Resource;
  Unmarshal_KeosCluster : string → KeosCluster → res KeosCluster;
  Unmarshal_ClusterConfig : string → ClusterConfig → res ClusterConfig;
  Struct_Resource : Resource → option verror;
  Struct_KeosCluster : KeosCluster → option verror;
  Struct_ClusterConfig : ClusterConfig → option verror
}.

Definition verror_msg (e : verror) : string :=
  match e with ValidationErrors _ m => m | InvalidValidation m => m end.

Definition check_struct (e : option verror) : res unit :=
  match e with None => Ok tt | Some e => Err (verror_msg e) end.

Definition nl : string := String (ascii_of_nat 10) "".

Definition wic_namespace : string :=
  "KeosCluster.Spec.ControlPlane.Gcp.ClusterSecurity.WorkloadIdentityConfig".

(** The clearer message for a failed field, if it has one. *)
Definition field_message (security_set : bool) (ve : string * string) : option string :=
  let '(ns, tag) := ve in
  if (ns =s (wic_namespace +:+ ".WorkloadPool")) && (tag =s "workloadpool") then
    Some ("ERROR: The 'workload_pool' field in 'workload_identity_config' is invalid." +:+ nl +:+
          "It must have the format: <projectid>.svc.id.goog (example: clusterapi-371111.svc.id.goog)" +:+ nl)
  else if (ns =s wic_namespace) && (tag =s "required") && security_set then
    Some ("ERROR: Invalid format in 'cluster_security'." +:+ nl +:+
          "The 'workload_identity_config' field is missing. Ensure the structure is:" +:+ nl +:+
          "cluster_security:" +:+ nl +:+ "  workload_identity_config:" +:+ nl +:+ "    enabled: true" +:+ nl +:+
          "    ..." +:+ nl)
  else if tag =s "gcp_service_accounts" then
    Some ("ERROR: The service accounts in 'service_accounts' are invalid." +:+ nl +:+
          "They must follow the format: <name>@<project_id>.iam.gserviceaccount.com" +:+ nl +:+
          "And the <project_id> must match the one defined in 'workload_pool'." +:+ nl)
  else if tag =s "required_if_enabled" then
    Some ("ERROR: 'service_accounts' is required when 'enabled' is true in 'workload_identity_config'." +:+ nl +:+
          "Add at least one GCP service account (format: <name>@<project-id>.iam.gserviceaccount.com)" +:+ nl)
  else None.

Definition keos_struct_message (kc : KeosCluster) (e : verror) : string :=
  match e with
  | ValidationErrors fields msg =>
      let set := opt_is_Some (gcp_ClusterSecurity (cp_Gcp (ks_ControlPlane (kc_Spec kc)))) in
      default msg (head (omap (field_message set) fields))
  | InvalidValidation msg => msg
  end.

(** ** Updates of nested fields *)

Definition with_Gcp (s : KeosSpec) (g : GCPCP) : KeosSpec :=
  let cp := ks_ControlPlane s in
  mkKeosSpec (ks_DeployAutoscaler s) (ks_Bastion s) (ks_StorageClass s) (ks_Credentials s)
    (ks_InfraProvider s) (ks_K8SVersion s) (ks_Region s) (ks_Networks s) (ks_Dns s)
    (ks_DockerRegistries s) (ks_HelmRepository s) (ks_ExternalDomain s) (ks_Security s) (ks_Keos s)
    (mkControlPlane (cp_Managed cp) (cp_NodeImage cp) (cp_HighlyAvailable cp) (cp_Size cp)
       (cp_RootVolume cp) (cp_Tags cp) (cp_AWS cp) (cp_Azure cp) g (cp_CRIVolume cp)
       (cp_ETCDVolume cp) (cp_ExtraVolumes cp))
    (ks_WorkerNodes s) (ks_ClusterConfigRef s) (ks_Calico s).

Definition with_WIC (g : GCPCP) (w : WorkloadIdentityConfig) : GCPCP :=
  mkGCPCP (gcp_ReleaseChannel g) (gcp_ClusterNetwork g) (gcp_MasterAuthorizedNetworksConfig g)
    (gcp_MonitoringConfig g) (gcp_LoggingConfig g) (gcp_ClusterIpv4Cidr g) (gcp_IPAllocationPolicy g)
    (Some (mkClusterSecurity (Some w))).

(** The workload identity of a spec, and a change of it where there is one. *)
Definition spec_WIC (s : KeosSpec) : option WorkloadIdentityConfig :=
  cs ← gcp_ClusterSecurity (cp_Gcp (ks_ControlPlane s)); csec_WorkloadIdentityConfig cs.

Definition alter_WIC (f : WorkloadIdentityConfig → WorkloadIdentityConfig) (s : KeosSpec) : KeosSpec :=
  match spec_WIC s with
  | Some w => with_Gcp s (with_WIC (cp_Gcp (ks_ControlPlane s)) (f w))
  | None => s
  end.

Definition with_Spec (kc : KeosCluster) (s : KeosSpec) : KeosCluster :=
  mkKeosCluster (kc_APIVersion kc) (kc_Kind kc) (kc_Metadata kc) s.

Definition with_Namespace (m : Metadata) (ns : string) : Metadata :=
  mkMetadata (md_Name m) ns (md_Labels m) (md_Annotations m).

Definition cc_with_Spec (cc : ClusterConfig) (s : ClusterConfigSpec) : ClusterConfig :=
  mkClusterConfig (cc_APIVersion cc) (cc_Kind cc) (cc_Metadata cc) s.

Definition CleanKeosClusterBeforeInstall (kc : KeosCluster) : KeosCluster :=
  with_Spec kc (alter_WIC (λ w, mkWorkloadIdentityConfig (wic_WorkloadPool w) (wic_Enabled w) ∅) (kc_Spec kc)).

(** The pool of an enabled workload identity defaults to the project's. *)
Definition default_WorkloadPool (s : KeosSpec) : KeosSpec :=
  let project := gcpc_ProjectID (cred_GCP (ks_Credentials s)) in
  alter_WIC (λ w,
    if (wic_WorkloadPool w =s "") && default false (wic_Enabled w) && (project <>s "")
    then mkWorkloadIdentityConfig (project +:+ pool_suffix) (wic_Enabled w) (wic_ServiceAccounts w)
    else w) s.

(** ** Reading *)

Section reading.
Context `{DescriptorLib}.

Definition read_keos_cluster (manifest : string) (kc : KeosCluster) : res KeosCluster :=
  kc ← Unmarshal_KeosCluster manifest (with_Spec kc (Init zero_KeosSpec));
  let kc := with_Spec kc (default_WorkloadPool (kc_Spec kc)) in
  match Struct_KeosCluster kc with
  | Some e => Err (keos_struct_message kc e)
  | None =>
      Ok (mkKeosCluster (kc_APIVersion kc) (kc_Kind kc)
            (with_Namespace (kc_Metadata kc) ("cluster-" +:+ md_Name (kc_Metadata kc))) (kc_Spec kc))
  end.

Definition read_cluster_config (manifest name : string) (cc : ClusterConfig) : res ClusterConfig :=
  cc ← Unmarshal_ClusterConfig manifest (cc_with_Spec cc (ClusterConfigSpec_Init zero_ClusterConfigSpec));
  match check_struct (Struct_ClusterConfig cc) with
  | Ok _ => Ok (mkClusterConfig (cc_APIVersion cc) (cc_Kind cc)
                  (with_Namespace (cc_Metadata cc) ("cluster-" +:+ name)) (cc_Spec cc))
  | Err e => Err e
  | Panic w => Panic w
  end.

(** The state of the loop: the two resources read so far, and whether there is a
    [ClusterConfig]. *)
Record reading := mkReading { rd_cluster : KeosCluster; rd_config : ClusterConfig; rd_found : bool }.

Definition read_manifest (st : reading) (manifest : string) : res reading :=
  resource ← Unmarshal_Resource manifest;
  if bool_decide (resource = zero_Resource) then Ok st else
  check_struct (Struct_Resource resource) ;;
  if rs_Kind resource =s "KeosCluster" then
    kc ← read_keos_cluster manifest (rd_cluster st);
    Ok (mkReading kc (rd_config st) (rd_found st))
  else if rs_Kind resource =s "ClusterConfig" then
    cc ← read_cluster_config manifest (md_Name (kc_Metadata (rd_cluster st))) (rd_config st);
    Ok (mkReading (rd_cluster st) cc true)
  else Err ("Unsupported manifest kind: " +:+ rs_Kind resource).

Fixpoint read_manifests (st : reading) (manifests : list string) : res reading :=
  match manifests with
  | [] => Ok st
  | m :: manifests => st ← read_manifest st m; read_manifests st manifests
  end.

Definition default_cluster_config (kc : KeosCluster) : ClusterConfig :=
  let spec := ClusterConfigSpec_Init zero_ClusterConfigSpec in
  mkClusterConfig "installer.stratio.com/v1beta1" "ClusterConfig"
    (mkMetadata (ks_InfraProvider (kc_Spec kc) +:+ "-config") ("cluster-" +:+ md_Name (kc_Metadata kc)) ∅ ∅)
    (if cp_Managed (ks_ControlPlane (kc_Spec kc)) then spec
     else mkClusterConfigSpec (ccs_EKSLBController spec) (ccs_Private spec)
       (mkControlplaneConfig (Some 34)) (ccs_WorkersConfig spec) (ccs_ClusterOperatorVersion spec)
       (ccs_ClusterOperatorImageVersion spec) (ccs_PrivateHelmRepo spec) (ccs_Charts spec)
       (ccs_Capx spec) (ccs_GitOpsEnabled spec)).

Definition yaml_separator : string := "---" +:+ nl.

(** [stat] and [raw]: what [os.Stat] and [os.ReadFile] answer for the path. *)
Definition GetClusterDescriptor (descriptorPath : string) (stat : bool) (raw : res string)
  : res (KeosCluster * ClusterConfig) :=
  fail_when (negb stat) ("No exists any cluster descriptor as " +:+ descriptorPath) ;;
  descriptorRAW ← raw;
  st ← read_manifests (mkReading zero_KeosCluster zero_ClusterConfig false)
         (Split descriptorRAW yaml_separator);
  let kc := rd_cluster st in
  fail_when (bool_decide (kc = zero_KeosCluster)) "Keoscluster's manifest has not been found." ;;
  let cc := if rd_found st then rd_config st else default_cluster_config kc in
  Ok (CleanKeosClusterBeforeInstall kc, cc_with_Spec cc (InitCapx (cc_Spec cc))).
End reading.

(** ** What a descriptor that is read satisfies *)

Section facts.
Context `{DescriptorLib}.

Definition namespace_of (m : Metadata) : string := "cluster-" +:+ md_Name m.

Lemma read_keos_cluster_namespace m kc kc' :
  read_keos_cluster m kc = Ok kc' → md_Namespace (kc_Metadata kc') = namespace_of (kc_Metadata kc').
Proof.
  unfold read_keos_cluster. intros (kc1 & _ & Hs)%bind_Ok_iff. cbv zeta in Hs.
  destruct (Struct_KeosCluster _); [done|]. by injection Hs as <-.
Qed.

Lemma read_cluster_config_namespace m n cc cc' :
  read_cluster_config m n cc = Ok cc' → md_Namespace (cc_Metadata cc') = "cluster-" +:+ n.
Proof.
  unfold read_cluster_config. intros (cc1 & _ & Hs)%bind_Ok_iff.
  destruct (check_struct _); simplify_eq/=. done.
Qed.

(** What holds while the manifests are read. *)
Definition reading_ok (st : reading) : Prop :=
  rd_cluster st = zero_KeosCluster ∨
  md_Namespace (kc_Metadata (rd_cluster st)) = namespace_of (kc_Metadata (rd_cluster st)).

Lemma read_manifest_ok st m st' : read_manifest st m = Ok st' → reading_ok st → reading_ok st'.
Proof.
  unfold read_manifest. intros (r & _ & Hm)%bind_Ok_iff Hst.
  case_bool_decide; [by injection Hm as <-|]. apply bind_unit_Ok in Hm as [_ Hm].
  destruct (rs_Kind r =s "KeosCluster")%go.
  - apply bind_Ok_iff in Hm as (kc & Hkc & [= <-]). right. by eapply read_keos_cluster_namespace.
  - destruct (rs_Kind r =s "ClusterConfig")%go; [|done].
    by apply bind_Ok_iff in Hm as (cc & _ & [= <-]).
Qed.

Lemma read_manifests_ok st ms st' : read_manifests st ms = Ok st' → reading_ok st → reading_ok st'.
Proof.
  revert st. induction ms as [|m ms IH]; intros st; simpl; [by intros [= ->]|].
  intros (st1 & H1 & H2)%bind_Ok_iff Hst. eapply IH; [done|]. by eapply read_manifest_ok.
Qed.

Lemma alter_WIC_spec f s : spec_WIC (alter_WIC f s) = f <$> spec_WIC s.
Proof. unfold alter_WIC. by destruct (spec_WIC s) eqn:Hw; simpl; [|rewrite Hw]. Qed.

(** The seven versions of the Cluster API providers are set. *)
Definition capx_set (x : CAPX) : Prop :=
  Forall (λ v, v ≠ "") [capx_CAPI_Version x; capx_CAPA_Version x; capx_CAPA_Image_version x;
    capx_CAPG_Version x; capx_CAPG_Image_version x; capx_CAPZ_Version x; capx_CAPZ_Image_version x].

Lemma setDefaultValue_ne s v : v ≠ "" → setDefaultValue s v ≠ "".
Proof. unfold setDefaultValue. intros Hv. by destruct (String.eqb_spec s ""). Qed.

Lemma InitCapx_set s : capx_set (ccs_Capx (InitCapx s)).
Proof.
  unfold capx_set, InitCapx. cbn -[setDefaultValue].
  repeat (apply Forall_cons_2; [repeat apply setDefaultValue_ne; done|]). constructor.
Qed.

(** C33. A descriptor that is read has a cluster in the namespace of its name, no
    service accounts left in its workload identity, and a cluster configuration
    with every Cluster API version set; where the descriptor has no [ClusterConfig],
    the configuration is in the cluster's namespace. *)
Theorem GetClusterDescriptor_sound path stat raw kc cc :
  GetClusterDescriptor path stat raw = Ok (kc, cc) →
  md_Namespace (kc_Metadata kc) = "cluster-" +:+ md_Name (kc_Metadata kc) ∧
  (∀ w, spec_WIC (kc_Spec kc) = Some w → wic_ServiceAccounts w = ∅) ∧
  capx_set (ccs_Capx (cc_Spec cc)) ∧
  (∀ text st, raw = Ok text →
     read_manifests (mkReading zero_KeosCluster zero_ClusterConfig false) (Split text yaml_separator) = Ok st →
     rd_found st = false → md_Namespace (cc_Metadata cc) = md_Namespace (kc_Metadata kc)).
Proof.
  unfold GetClusterDescriptor. intros [_ Hr]%bind_unit_Ok.
  apply bind_Ok_iff in Hr as (text & -> & Hr). apply bind_Ok_iff in Hr as (st & Hst & Hr).
  apply bind_unit_Ok in Hr as [Hz%fail_when_Ok%bool_decide_eq_false Hr]. injection Hr as <- <-.
  assert (md_Namespace (kc_Metadata (rd_cluster st)) = namespace_of (kc_Metadata (rd_cluster st))) as Hns.
  { destruct (read_manifests_ok _ _ _ Hst (or_introl eq_refl)); done. }
  split_and!; [done| | |].
  - intros w. unfold CleanKeosClusterBeforeInstall. simpl. rewrite alter_WIC_spec.
    destruct (spec_WIC _); naive_solver.
  - apply InitCapx_set.
  - intros text' st' [= <-] Hst' Hf. rewrite Hst in Hst'. injection Hst' as <-. rewrite Hf.
    simpl. by rewrite Hns.
Qed.

(** A [ClusterConfig] that stands before the [KeosCluster] is put in the
    namespace [cluster-], not in the cluster's: the name is not known yet. *)
Theorem GetClusterDescriptor_config_first path raw m1 m2 r1 r2 kc cc :
  Split raw yaml_separator = [m1; m2] →
  Unmarshal_Resource m1 = Ok r1 → rs_Kind r1 = "ClusterConfig" →
  Unmarshal_Resource m2 = Ok r2 → rs_Kind r2 = "KeosCluster" →
  GetClusterDescriptor path true (Ok raw) = Ok (kc, cc) →
  md_Namespace (cc_Metadata cc) = "cluster-" ∧
  md_Namespace (kc_Metadata kc) = "cluster-" +:+ md_Name (kc_Metadata kc).
Proof.
  intros Hsplit H1 Hk1 H2 Hk2 Hr. unfold GetClusterDescriptor in Hr.
  cbn [negb fail_when mbind res_bind] in Hr. apply bind_Ok_iff in Hr as (st & Hst & Hr).
  apply bind_unit_Ok in Hr as [_ Hr]. injection Hr as <- <-.
  rewrite Hsplit in Hst. simpl in Hst. apply bind_Ok_iff in Hst as (st1 & Hs1 & Hst).
  apply bind_Ok_iff in Hst as (st2 & Hs2 & [= ->]).
  unfold read_manifest in Hs1, Hs2. rewrite H1 in Hs1. rewrite H2 in Hs2. simpl in Hs1, Hs2.
  rewrite bool_decide_eq_false_2 in Hs1 by (by intros ->).
  rewrite bool_decide_eq_false_2 in Hs2 by (by intros ->).
  apply bind_unit_Ok in Hs1 as [_ Hs1]. apply bind_unit_Ok in Hs2 as [_ Hs2].
  rewrite Hk1 in Hs1. rewrite Hk2 in Hs2. simpl in Hs1, Hs2.
  apply bind_Ok_iff in Hs1 as (cc1 & Hc1 & [= <-]). apply bind_Ok_iff in Hs2 as (kc1 & Hc2 & [= <-]).
  simpl. split; [|by eapply read_keos_cluster_namespace].
  by apply read_cluster_config_namespace in Hc1.
Qed.

Lemma default_WorkloadPool_Security s : ks_Security (default_WorkloadPool s) = ks_Security s.
Proof. unfold default_WorkloadPool, alter_WIC. by destruct (spec_WIC s). Qed.

(** Secure boot is not turned on by default for any cloud, GCP included: the
    defaults are set on an empty spec, whose provider is not known yet. A manifest
    that does not set it leaves it unset. *)
Theorem secure_boot_not_defaulted m kc kc' :
  (∀ k k', Unmarshal_KeosCluster m k = Ok k' →
     sec_EnableSecureBoot (ks_Security (kc_Spec k')) = sec_EnableSecureBoot (ks_Security (kc_Spec k))) →
  read_keos_cluster m kc = Ok kc' →
  sec_EnableSecureBoot (ks_Security (kc_Spec kc')) = None.
Proof.
  intros Hlib. unfold read_keos_cluster. intros (kc1 & Hu & Hs)%bind_Ok_iff.
  apply Hlib in Hu. cbv zeta in Hs. destruct (Struct_KeosCluster _); [done|].
  injection Hs as <-. cbn [kc_Spec with_Spec]. by rewrite default_WorkloadPool_Security, Hu.
Qed.
End facts.

(** A decoder of two manifests, used by the witnesses. *)
Module DemoLib.
Definition spec_on (s : KeosSpec) : KeosSpec :=
  mkKeosSpec (ks_DeployAutoscaler s) (ks_Bastion s) (ks_StorageClass s) (ks_Credentials s) "gcp" "v1.32.0"
    (ks_Region s) (ks_Networks s) (ks_Dns s) (ks_DockerRegistries s) (ks_HelmRepository s)
    (ks_ExternalDomain s) (ks_Security s) (ks_Keos s) (ks_ControlPlane s) (ks_WorkerNodes s)
    (ks_ClusterConfigRef s) (ks_Calico s).

#[export] Instance lib : DescriptorLib := {|
  Unmarshal_Resource m := Ok (mkResource "v1" (if m =s "cluster" then "KeosCluster" else "ClusterConfig")
                                zero_Metadata true);
  Unmarshal_KeosCluster m k :=
    Ok (mkKeosCluster "v1" "KeosCluster" (mkMetadata "demo" "" ∅ ∅) (spec_on (kc_Spec k)));
  Unmarshal_ClusterConfig m k :=
    Ok (mkClusterConfig "v1" "ClusterConfig" (mkMetadata "config" "" ∅ ∅) (cc_Spec k));
  Struct_Resource _ := None;
  Struct_KeosCluster _ := None;
  Struct_ClusterConfig _ := None
|}.

Definition raw : string := "config" +:+ yaml_separator +:+ "cluster".
Definition result : KeosCluster * ClusterConfig :=
  match GetClusterDescriptor "cluster.yaml" true (Ok raw) with
  | Ok r => r
  | _ => (zero_KeosCluster, zero_ClusterConfig)
  end.
Lemma result_eq : GetClusterDescriptor "cluster.yaml" true (Ok raw) = Ok (fst result, snd result).
Proof. vm_compute. reflexivity. Qed.
End DemoLib.

Lemma GetClusterDescriptor_sound_witness :
  md_Namespace (kc_Metadata (fst DemoLib.result)) = "cluster-demo" ∧
  capx_set (ccs_Capx (cc_Spec (snd DemoLib.result))).
Proof.
  destruct (GetClusterDescriptor_sound (H := DemoLib.lib) _ _ _ _ _ DemoLib.result_eq) as (Hn & _ & Hc & _).
  split; [exact Hn|exact Hc].
Defined.

Lemma GetClusterDescriptor_config_first_witness :
  md_Namespace (cc_Metadata (snd DemoLib.result)) = "cluster-" ∧
  md_Namespace (kc_Metadata (fst DemoLib.result)) = "cluster-demo".
Proof.
  exact (GetClusterDescriptor_config_first (H := DemoLib.lib) "cluster.yaml" DemoLib.raw "config" "cluster"
    _ _ (fst DemoLib.result) (snd DemoLib.result) eq_refl eq_refl eq_refl eq_refl eq_refl DemoLib.result_eq).
Defined.

Lemma secure_boot_not_defaulted_witness :
  ∃ kc, read_keos_cluster (H := DemoLib.lib) "cluster" zero_KeosCluster = Ok kc ∧
    ks_InfraProvider (kc_Spec kc) = "gcp" ∧ sec_EnableSecureBoot (ks_Security (kc_Spec kc)) = None.
Proof.
  eexists. split; [reflexivity|]. split; [reflexivity|].
  apply (secure_boot_not_defaulted (H := DemoLib.lib) "cluster" zero_KeosCluster); [|reflexivity].
  intros k k' Hk. injection Hk as <-. reflexivity.
Defined.
