(* ===== verification/ValidateUtils.v ===== *)
(** * Reflection on structs: [pkg/cluster/internal/validate/utils.go]

    The validators look at the fields of a struct through [reflect]: their
    names in order and whether each is set (is not the zero value of its type).
    The class [Reflect] gives these for the structs they are used on. *)

From S2P Require Import Prelude GoStr KeosTypes.
Local Open Scope Z_scope.
Local Open Scope go_scope.
Local Open Scope stdpp_scope.

Class Reflect (A : Type) := struct_fields : A → list (string * bool).

Definition set_str (s : string) : bool := s <>s "".

#[export] Instance SCParameters_reflect : Reflect SCParameters := λ p,
  [("Type", set_str (scp_Type p)); ("FsType", set_str (scp_FsType p));
   ("Labels", set_str (scp_Labels p));
   ("AllowAutoIOPSPerGBIncrease", set_str (scp_AllowAutoIOPSPerGBIncrease p));
   ("BlockExpress", set_str (scp_BlockExpress p)); ("BlockSize", set_str (scp_BlockSize p));
   ("Iops", set_str (scp_Iops p)); ("IopsPerGB", set_str (scp_IopsPerGB p));
   ("Encrypted", set_str (scp_Encrypted p)); ("KmsKeyId", set_str (scp_KmsKeyId p));
   ("Throughput", negb (scp_Throughput p =? 0)); ("CachingMode", set_str (scp_CachingMode p));
   ("DiskAccessID", set_str (scp_DiskAccessID p));
   ("DiskEncryptionSetID", set_str (scp_DiskEncryptionSetID p));
   ("DiskEncryptionType", set_str (scp_DiskEncryptionType p));
   ("EnableBursting", set_str (scp_EnableBursting p));
   ("EnablePerformancePlus", set_str (scp_EnablePerformancePlus p));
   ("Kind", set_str (scp_Kind p)); ("NetworkAccessPolicy", set_str (scp_NetworkAccessPolicy p));
   ("Provisioner", set_str (scp_Provisioner p));
   ("PublicNetworkAccess", set_str (scp_PublicNetworkAccess p));
   ("ResourceGroup", set_str (scp_ResourceGroup p)); ("SkuName", set_str (scp_SkuName p));
   ("SubscriptionID", set_str (scp_SubscriptionID p)); ("Tags", set_str (scp_Tags p));
   ("DiskEncryptionKmsKey", set_str (scp_DiskEncryptionKmsKey p));
   ("ProvisionedIopsOnCreate", set_str (scp_ProvisionedIopsOnCreate p));
   ("ProvisionedThroughputOnCreate", set_str (scp_ProvisionedThroughputOnCreate p));
   ("ReplicationType", set_str (scp_ReplicationType p))].

#[export] Instance AWSCredentials_reflect : Reflect AWSCredentials := λ p,
  [("AccessKey", set_str (awsc_AccessKey p)); ("SecretKey", set_str (awsc_SecretKey p));
   ("Region", set_str (awsc_Region p)); ("AccountID", set_str (awsc_AccountID p));
   ("RoleARN", opt_is_Some (awsc_RoleARN p))].

#[export] Instance AzureCredentials_reflect : Reflect AzureCredentials := λ p,
  [("SubscriptionID", set_str (azc_SubscriptionID p)); ("TenantID", set_str (azc_TenantID p));
   ("ClientID", set_str (azc_ClientID p)); ("ClientSecret", set_str (azc_ClientSecret p))].

#[export] Instance GCPCredentials_reflect : Reflect GCPCredentials := λ p,
  [("ProjectID", set_str (gcpc_ProjectID p)); ("PrivateKeyID", set_str (gcpc_PrivateKeyID p));
   ("PrivateKey", set_str (gcpc_PrivateKey p)); ("ClientEmail", set_str (gcpc_ClientEmail p));
   ("ClientID", set_str (gcpc_ClientID p))].

#[export] Instance DockerRegistryCredentials_reflect : Reflect DockerRegistryCredentials := λ p,
  [("URL", set_str (drc_URL p)); ("User", set_str (drc_User p)); ("Pass", set_str (drc_Pass p))].

#[export] Instance HelmRepositoryCredentials_reflect : Reflect HelmRepositoryCredentials := λ p,
  [("URL", set_str (hrc_URL p)); ("User", set_str (hrc_User p)); ("Pass", set_str (hrc_Pass p))].

(** The error so far is formatted with [%v], which prints a nil error as [<nil>]. *)
Definition validateStruct_from {A} `{Reflect A} (s : A) : option string :=
  fold_left (λ err f,
    if snd (f : string * bool) then err
    else Some (default "<nil>" err +:+ fst f +:+ " in not set; ")) (struct_fields s) None.

Definition validateStruct {A} `{Reflect A} (s : A) : res unit :=
  match validateStruct_from s with None => Ok tt | Some e => Err e end.

Definition getFieldNames {A} `{Reflect A} (s : A) : list string :=
  fst <$> filter (λ f : string * bool, snd f = true) (struct_fields s).

(** The text of a value: a string, a pointer to one, or the [%v] format [sprint] of
    anything else.  A nil pointer leaves no entry. *)
Definition value_to_string (sprint : value → string) (v : value) : option string :=
  match v with
  | VStr s => Some s
  | VStrPtr p => p
  | _ => Some (sprint v)
  end.

Definition convertToMapStringString (sprint : value → string) (m : gmap string value)
  : gmap string string := omap (value_to_string sprint) m.

(** [fmt.Sprint] of a slice of strings. *)
Definition Sprint_strs (l : list string) : string := "[" +:+ Join l " " +:+ "]".

(** ** What [validateStruct] accepts *)

Definition all_set {A} `{Reflect A} (s : A) : Prop :=
  Forall (λ f : string * bool, snd f = true) (struct_fields s).

Lemma validate_fields_None (fs : list (string * bool)) e :
  fold_left (λ (err : option string) (f : string * bool), if snd f then err
    else Some (default "<nil>" err +:+ fst f +:+ " in not set; ")) fs e = None ↔
  e = None ∧ Forall (λ f : string * bool, snd f = true) fs.
Proof.
  revert e. induction fs as [|[n b] fs IH]; intros e; simpl; [by rewrite Forall_nil; tauto|].
  rewrite IH, Forall_cons. simpl. destruct b; naive_solver.
Qed.

Lemma validateStruct_Ok {A} `{Reflect A} (s : A) : validateStruct s = Ok tt ↔ all_set s.
Proof.
  unfold validateStruct, all_set. pose proof (validate_fields_None (struct_fields s) None) as Hn.
  fold (validateStruct_from s) in Hn. destruct (validateStruct_from s); naive_solver.
Qed.

Lemma validateStruct_no_panic {A} `{Reflect A} (s : A) w : validateStruct s ≠ Panic w.
Proof. unfold validateStruct. by case_match. Qed.

Lemma elem_of_getFieldNames {A} `{Reflect A} (s : A) n :
  n ∈ getFieldNames s ↔ (n, true) ∈ struct_fields s.
Proof.
  unfold getFieldNames. rewrite list_elem_of_fmap. setoid_rewrite list_elem_of_filter. split.
  - by intros ([? ?] & -> & Hb & ?); simpl in *; subst.
  - intros ?. by exists (n, true).
Qed.
