(* ===== verification/Secrets.v ===== *)
(** * The credentials of a cluster: [pkg/cluster/internal/validate/secrets.go]

    The credentials come from the secrets file when it has them and from the
    descriptor otherwise.  The vault and the YAML decoder, and the packages
    [reflections] and [structs] that look at fields by name, are third-party:
    the classes below, with their documentation as laws. *)

From S2P Require Import Prelude GoStr Regexp KeosTypes ValidateUtils.
Local Open Scope Z_scope.
Local Open Scope go_scope.
Local Open Scope stdpp_scope.

(** ** Keys in snake case: [pkg/commons/utils.go]

    On the ASCII names of struct fields. *)

Definition is_upper (c : ascii) : bool := in_rng 65 90 (byte_code c).

Fixpoint snake_from (prev : option ascii) (s : string) : string :=
  match s with
  | "" => ""
  | String c s' =>
      let rest := snake_from (Some c) s' in
      if is_upper c then
        match prev with
        | Some p => if is_upper p then String (lower_byte c) rest
                    else String "_" (String (lower_byte c) rest)
        | None => String (lower_byte c) rest
        end
      else String c rest
  end.
Definition snakeCase (s : string) : string := snake_from None s.

Definition ConvertMapKeysToSnakeCase (m : gmap string value) : gmap string value :=
  list_to_map (prod_map snakeCase id <$> map_to_list m).

Example snake_keys : map snakeCase ["AccessKey"; "AccountID"; "RoleARN"; "URL"; "SubscriptionID"; "region"]
  = ["access_key"; "account_id"; "role_arn"; "url"; "subscription_id"; "region"].
Proof. reflexivity. Qed.

(** ** Structs seen through reflection *)

Inductive robj :=
| OSecrets (s : Secrets)
| OCredentials (c : Credentials)
| OAWS (a : AWS) | OAZURE (a : AZURE) | OGCP (g : GCP)
| OAWSCredentials (c : AWSCredentials)
| OAzureCredentials (c : AzureCredentials)
| OGCPCredentials (c : GCPCredentials)
| ODockerRegistryCredentials (c : DockerRegistryCredentials)
| OHelmRepositoryCredentials (c : HelmRepositoryCredentials)
| OOther.

(** [reflect.DeepEqual(o, reflect.Zero(reflect.TypeOf(o)).Interface())], on the
    structs that hold a provider's credentials. *)
Definition robj_is_zero (o : robj) : bool :=
  match o with
  | OAWS a => bool_decide (a = zero_AWS)
  | OAZURE a => bool_decide (a = zero_AZURE)
  | OGCP g => bool_decide (g = zero_GCP)
  | OAWSCredentials c => bool_decide (c = zero_AWSCredentials)
  | OAzureCredentials c => bool_decide (c = zero_AzureCredentials)
  | OGCPCredentials c => bool_decide (c = zero_GCPCredentials)
  | _ => false
  end.

(** [validateStruct] on what the lookup of a provider gives: one of the credential
    structs, or nil, of whose type [Kind] panics. *)
Definition validate_robj (o : robj) : res unit :=
  match o with
  | OAWSCredentials c => validateStruct c
  | OAzureCredentials c => validateStruct c
  | OGCPCredentials c => validateStruct c
  | ODockerRegistryCredentials c => validateStruct c
  | OHelmRepositoryCredentials c => validateStruct c
  | _ => Panic "Kind of a nil reflect.Type"
  end.

Class ReflectLib := {
  GetField : robj → string → option robj;       (* None on an error *)
  structs_Map : robj → gmap string value;
  sprint_value : value → string                  (* the %v format *)
}.

(** [GetField] is the field of that name; [Map] the fields by their names. *)
Class ReflectLaws `{ReflectLib} := {
  GetField_secrets_aws s : GetField (OSecrets s) "AWS" = Some (OAWS (secr_AWS s));
  GetField_secrets_azure s : GetField (OSecrets s) "AZURE" = Some (OAZURE (secr_AZURE s));
  GetField_secrets_gcp s : GetField (OSecrets s) "GCP" = Some (OGCP (secr_GCP s));
  GetField_creds_aws c : GetField (OCredentials c) "AWS" = Some (OAWSCredentials (cred_AWS c));
  GetField_creds_azure c : GetField (OCredentials c) "AZURE" = Some (OAzureCredentials (cred_AZURE c));
  GetField_creds_gcp c : GetField (OCredentials c) "GCP" = Some (OGCPCredentials (cred_GCP c));
  GetField_aws a : GetField (OAWS a) "Credentials" = Some (OAWSCredentials (aws_Credentials a));
  GetField_azure a : GetField (OAZURE a) "Credentials" = Some (OAzureCredentials (azure_Credentials a));
  GetField_gcp g : GetField (OGCP g) "Credentials" = Some (OGCPCredentials (gcps_Credentials g));
  structs_Map_docker c : structs_Map (ODockerRegistryCredentials c) =
    {["URL" := VStr (drc_URL c); "User" := VStr (drc_User c); "Pass" := VStr (drc_Pass c)]}
}.

(** ** The secrets file *)

Class VaultLib := {
  vault_DecryptFile : string → string → res string;
  Unmarshal_SecretsFile : string → res SecretsFile
}.

Definition GetSecretsFile `{VaultLib} (secretsPath vaultPassword : string) : res SecretsFile :=
  match vault_DecryptFile secretsPath vaultPassword with
  | Ok secretRaw => Unmarshal_SecretsFile secretRaw
  | Err _ => Err "the vaultPassword is incorrect"
  | Panic w => Panic w
  end.

Section credentials.
Context `{ReflectLib}.

(** [convertToMapStringString(structs.Map(o))] *)
Definition creds_map (o : robj) : gmap string string :=
  convertToMapStringString sprint_value (structs_Map o).

(** The credentials of the provider in the secrets file, then in the descriptor. *)
Definition provider_credentials (secrets : Secrets) (spec : KeosSpec) : res robj :=
  let infraProvider := ks_InfraProvider spec in
  let missing := Err ("there is not " +:+ infraProvider +:+ " credentials in descriptor or secrets file") in
  let from_descriptor :=
    match GetField (OCredentials (ks_Credentials spec)) (ToUpper infraProvider) with
    | Some o => if robj_is_zero o then missing else Ok o
    | None => missing
    end in
  match GetField (OSecrets secrets) (ToUpper infraProvider) with
  | Some o => if robj_is_zero o then from_descriptor
              else Ok (default OOther (GetField o "Credentials"))
  | None => from_descriptor
  end.

Definition validateProviderCredentials (secrets : Secrets) (spec : KeosSpec) : res (gmap string string) :=
  credentialsProvider ← provider_credentials secrets spec;
  match validate_robj credentialsProvider with
  | Err e =>
      if Contains e "RoleARN in not set" || Contains e "RoleARN is not set"
      then Ok (creds_map credentialsProvider) else Err e
  | Ok _ => Ok (creds_map credentialsProvider)
  | Panic w => Panic w
  end.

(** ** Registries *)

Record registries := mkRegistries {
  reg_keosCount : nat;
  reg_keos : gmap string string;
  reg_docker : list (gmap string value)
}.

Definition check_unique_url (drs : list DockerRegistry) (i : nat) (dr : DockerRegistry) : res unit :=
  for_range (λ j dr2, fail_when (negb (Nat.eqb i j) && (dr_URL dr =s dr_URL dr2))
    ("there is more than one docker_registry with the same URL: " +:+ dr_URL dr)) drs.

(** One credential, for a registry that requires them: whether one was found. *)
Definition registry_credential (creds : list DockerRegistryCredentials) (dr : DockerRegistry) (l : nat)
  (found : bool) (st : registries) (c : DockerRegistryCredentials) : res (bool * registries) :=
  for_range (λ k c2, fail_when (negb (Nat.eqb l k) && (drc_URL c =s drc_URL c2))
    ("there is more than one credential for the registry: " +:+ dr_URL dr)) creds ;;
  if drc_URL c =s dr_URL dr then
    errors_Wrap ("there aren't valid credentials for the registry: " +:+ dr_URL dr) (validateStruct c) ;;
    let m := structs_Map (ODockerRegistryCredentials c) in
    Ok (true, mkRegistries (reg_keosCount st)
      (if dr_KeosRegistry dr then convertToMapStringString sprint_value m else reg_keos st)
      (reg_docker st ++ [ConvertMapKeysToSnakeCase m]))
  else Ok (found, st).

Fixpoint registry_credentials (creds : list DockerRegistryCredentials) (dr : DockerRegistry) (l : nat)
  (found : bool) (st : registries) (cs : list DockerRegistryCredentials) : res (bool * registries) :=
  match cs with
  | [] => Ok (found, st)
  | c :: cs => '(found, st) ← registry_credential creds dr l found st c;
               registry_credentials creds dr (S l) found st cs
  end.

Definition registry_step (drs : list DockerRegistry) (creds : list DockerRegistryCredentials) (i : nat)
  (st : registries) (dr : DockerRegistry) : res registries :=
  check_unique_url drs i dr ;;
  st ← (if dr_AuthRequired dr then
          '(found, st) ← registry_credentials creds dr 0 false st creds;
          fail_when (negb found) ("there aren't valid credentials for the registry: " +:+ dr_URL dr) ;;
          Ok st
        else Ok st);
  if dr_KeosRegistry dr then
    fail_when (Nat.ltb 1 (S (reg_keosCount st)))
      "there are more than one docker_registry defined as keos_registry" ;;
    Ok (mkRegistries (S (reg_keosCount st)) (reg_keos st) (reg_docker st))
  else Ok st.

Fixpoint registry_loop (drs : list DockerRegistry) (creds : list DockerRegistryCredentials) (i : nat)
  (st : registries) (l : list DockerRegistry) : res registries :=
  match l with
  | [] => Ok st
  | dr :: l => st ← registry_step drs creds i st dr; registry_loop drs creds (S i) st l
  end.

Definition registry_creds_of (secrets : Secrets) (spec : KeosSpec) : list DockerRegistryCredentials :=
  if Nat.ltb 0 (length (secr_DockerRegistries secrets)) then secr_DockerRegistries secrets
  else cred_DockerRegistries (ks_Credentials spec).

Definition validateRegistryCredentials (secrets : Secrets) (spec : KeosSpec)
  : res (gmap string string * list (gmap string value)) :=
  let drs := ks_DockerRegistries spec in
  st ← registry_loop drs (registry_creds_of secrets spec) 0 (mkRegistries 0 ∅ []) drs;
  fail_when (Nat.eqb (reg_keosCount st) 0) "there isn't any docker_registry defined as keos_registry" ;;
  Ok (reg_keos st, reg_docker st).

(** ** Helm and GitHub *)

Definition validateHelmCredentials (secrets : Secrets) (spec : KeosSpec) : res (gmap string string) :=
  let s := secr_HelmRepository secrets in
  let helmRepository :=
    if (hrc_URL s <>s "") && (hrc_User s <>s "") && (hrc_Pass s <>s "") then s
    else cred_HelmRepository (ks_Credentials spec) in
  let hr := ks_HelmRepository spec in
  if hr_AuthRequired hr then
    fail_when (hr_Type hr <>s "generic")
      ("Helm repository type: " +:+ hr_Type hr +:+ " cannot be auth_required: true") ;;
    if hrc_URL helmRepository =s hr_URL hr then
      errors_Wrap ("there aren't valid credentials for the repository: " +:+ hrc_URL helmRepository)
        (validateStruct helmRepository) ;;
      Ok (creds_map (OHelmRepositoryCredentials helmRepository))
    else Err ("there aren't valid credentials for the repository: " +:+ hrc_URL helmRepository)
  else Ok ∅.

(** [^(github_pat_|ghp_)\w+$] *)
Definition isGithubToken : string → bool :=
  MatchString (RCat (RAlt (RLit "github_pat_") (RLit "ghp_")) (RPlus (RSet cs_word))).

Definition validateGithubToken (secrets : Secrets) (spec : KeosSpec) : res string :=
  let githubToken := if secr_GithubToken secrets <>s "" then secr_GithubToken secrets
                     else cred_GithubToken (ks_Credentials spec) in
  if githubToken =s "" then Ok "" else
  if isGithubToken githubToken then Ok githubToken else Err "github_token is not valid".

(** [stat]: whether [os.Stat] finds the secrets file. *)
Definition validateCredentials `{VaultLib} (stat : bool) (secretsPath vaultPassword : string) (spec : KeosSpec)
  : res ClusterCredentials :=
  secrets ← (if stat then sf ← GetSecretsFile secretsPath vaultPassword; Ok (sf_Secrets sf)
             else Ok zero_Secrets);
  provider ← validateProviderCredentials secrets spec;
  '(keos, docker) ← validateRegistryCredentials secrets spec;
  helm ← validateHelmCredentials secrets spec;
  token ← validateGithubToken secrets spec;
  Ok (mkClusterCredentials provider keos docker helm token).
End credentials.

(** ** Provider credentials *)

Section provider_facts.
Context `{ReflectLaws}.

(** AWS credentials of the descriptor that name no role are accepted as soon as
    one field is set: the missing access key, secret key, region or account is
    reported in the same error as the missing role, which is ignored. *)
Theorem aws_credentials_unchecked secrets spec :
  ks_InfraProvider spec = "aws" → secr_AWS secrets = zero_AWS →
  cred_AWS (ks_Credentials spec) ≠ zero_AWSCredentials →
  awsc_RoleARN (cred_AWS (ks_Credentials spec)) = None →
  validateProviderCredentials secrets spec =
    Ok (creds_map (OAWSCredentials (cred_AWS (ks_Credentials spec)))).
Proof.
  intros Hp Hs Hne Hr. unfold validateProviderCredentials, provider_credentials.
  rewrite Hp. change (ToUpper "aws") with "AWS".
  rewrite GetField_secrets_aws, GetField_creds_aws, Hs. cbn [robj_is_zero].
  rewrite (bool_decide_eq_true_2 (zero_AWS = zero_AWS)) by done.
  rewrite bool_decide_eq_false_2 by done. cbn [mbind res_bind validate_robj].
  unfold validateStruct, validateStruct_from, struct_fields, AWSCredentials_reflect. rewrite Hr.
  by destruct (set_str _), (set_str _), (set_str _), (set_str _).
Qed.

(** The credentials of Azure that are used. *)
Definition azure_selected (secrets : Secrets) (spec : KeosSpec) : AzureCredentials :=
  if bool_decide (secr_AZURE secrets = zero_AZURE) then cred_AZURE (ks_Credentials spec)
  else azure_Credentials (secr_AZURE secrets).

(** The credentials of Azure are accepted exactly when they are not all missing,
    in the secrets file or else in the descriptor, and none of them is missing. *)
Theorem azure_credentials_required secrets spec m :
  ks_InfraProvider spec = "azure" →
  validateProviderCredentials secrets spec = Ok m ↔
    all_set (azure_selected secrets spec) ∧ m = creds_map (OAzureCredentials (azure_selected secrets spec)).
Proof.
  intros Hp. unfold validateProviderCredentials, provider_credentials.
  rewrite Hp. change (ToUpper "azure") with "AZURE".
  rewrite GetField_secrets_azure, GetField_creds_azure. simpl.
  assert (∀ c, match validateStruct c with
    | Err e => if Contains e "RoleARN in not set" || Contains e "RoleARN is not set"
               then Ok (creds_map (OAzureCredentials c)) else Err e
    | Ok _ => Ok (creds_map (OAzureCredentials c))
    | Panic w => Panic w
    end = Ok m ↔ all_set c ∧ m = creds_map (OAzureCredentials c)) as Hc.
  { intros c. rewrite <-validateStruct_Ok.
    unfold validateStruct, validateStruct_from, struct_fields, AzureCredentials_reflect.
    destruct (set_str _), (set_str _), (set_str _), (set_str _); simpl;
      (split; [by intros [= <-]|by intros [? ->]]). }
  unfold azure_selected. case_bool_decide as Hz; simpl.
  - case_bool_decide as Hc0; simpl; [|apply Hc]. rewrite Hc0.
    split; [done|]. intros [Ha _]. by apply Forall_cons in Ha as [? _].
  - rewrite GetField_azure. simpl. apply Hc.
Qed.
End provider_facts.

(** ** Registries *)

Section registry_facts.
Context `{ReflectLib}.

Definition has_credential (creds : list DockerRegistryCredentials) (docker : list (gmap string value))
  (dr : DockerRegistry) : Prop :=
  ∃ c, c ∈ creds ∧ drc_URL c = dr_URL dr ∧ all_set c ∧
    ConvertMapKeysToSnakeCase (structs_Map (ODockerRegistryCredentials c)) ∈ docker.

Lemma registry_credentials_Ok creds dr l found st cs r :
  registry_credentials creds dr l found st cs = Ok r →
  reg_keosCount (snd r) = reg_keosCount st ∧ (∃ more, reg_docker (snd r) = reg_docker st ++ more) ∧
  (fst r = true → found = true ∨ has_credential cs (reg_docker (snd r)) dr).
Proof.
  revert l found st. induction cs as [|c cs IH]; intros l found st; simpl.
  - intros [= <-]. simpl. split_and!; [done|exists []; by rewrite app_nil_r|auto].
  - intros ([found' st'] & Hc & Hr)%bind_Ok_iff.
    destruct (IH _ _ _ Hr) as (Hk & (more & Hd) & Hf). clear IH Hr.
    unfold registry_credential in Hc. apply bind_unit_Ok in Hc as [_ Hc].
    destruct (String.eqb_spec (drc_URL c) (dr_URL dr)) as [Hu|Hu].
    + apply bind_unit_Ok in Hc as [Hv%errors_Wrap_Ok_iff%validateStruct_Ok Hc].
      injection Hc as <- <-. simpl in *. split_and!; [done| |].
      * eexists. by rewrite Hd, <-(assoc_L (++)).
      * intros _. right. exists c. split_and!; [apply list_elem_of_here|done|done|].
        rewrite Hd. set_solver.
    + injection Hc as <- <-. split_and!; [done|by eexists|].
      intros [?|(c' & ? & ?)]%Hf; [auto|]. right. exists c'. split; [by apply list_elem_of_further|done].
Qed.

Definition keos_registries (l : list DockerRegistry) : nat :=
  length (filter (λ dr, dr_KeosRegistry dr = true) l).

Lemma registry_step_Ok drs creds i st dr st' :
  registry_step drs creds i st dr = Ok st' → (reg_keosCount st ≤ 1)%nat →
  check_unique_url drs i dr = Ok tt ∧
  reg_keosCount st' = (reg_keosCount st + keos_registries [dr])%nat ∧ (reg_keosCount st' ≤ 1)%nat ∧
  (∃ more, reg_docker st' = reg_docker st ++ more) ∧
  (dr_AuthRequired dr = true → has_credential creds (reg_docker st') dr).
Proof.
  unfold registry_step. intros [Hu Hs]%bind_unit_Ok Hle. apply bind_Ok_iff in Hs as (st1 & H1 & H2).
  assert (reg_keosCount st1 = reg_keosCount st ∧ (∃ more, reg_docker st1 = reg_docker st ++ more) ∧
    (dr_AuthRequired dr = true → has_credential creds (reg_docker st1) dr)) as (Hk & Hd & Ha).
  { destruct (dr_AuthRequired dr).
    - apply bind_Ok_iff in H1 as ([found st2] & Hc & Hf). apply bind_unit_Ok in Hf as [Hf%fail_when_Ok [= ->]].
      apply registry_credentials_Ok in Hc as (? & ? & Hf'). simpl in *. split_and!; [done..|].
      intros _. by destruct Hf' as [|]; [by apply negb_false_iff|..].
    - injection H1 as ->. split_and!; [done|exists []; by rewrite app_nil_r|done]. }
  unfold keos_registries. rewrite filter_cons, filter_nil.
  destruct (dr_KeosRegistry dr).
  - apply bind_unit_Ok in H2 as [Hn%fail_when_Ok%Nat.ltb_ge [= <-]]. simpl. split_and!; [done|lia|lia|done|done].
  - injection H2 as <-. simpl. split_and!; [done|lia|lia|done|done].
Qed.

Lemma registry_loop_Ok drs creds i st l st' :
  registry_loop drs creds i st l = Ok st' → (reg_keosCount st ≤ 1)%nat →
  (∀ k dr, l !! k = Some dr → check_unique_url drs (i + k) dr = Ok tt) ∧
  reg_keosCount st' = (reg_keosCount st + keos_registries l)%nat ∧ (reg_keosCount st' ≤ 1)%nat ∧
  (∃ more, reg_docker st' = reg_docker st ++ more) ∧
  (∀ dr, dr ∈ l → dr_AuthRequired dr = true → has_credential creds (reg_docker st') dr).
Proof.
  revert i st. induction l as [|dr l IH]; intros i st; simpl.
  - intros [= ->] ?. unfold keos_registries. rewrite filter_nil. simpl.
    split_and!; [done|lia|done|exists []; by rewrite app_nil_r|]. intros dr Hin. by apply not_elem_of_nil in Hin.
  - intros (st1 & H1 & H2)%bind_Ok_iff Hle.
    apply registry_step_Ok in H1 as (Hu & Hk & Hle1 & (more1 & Hd1) & Ha); [|done].
    apply IH in H2 as (Hus & Hks & Hle2 & (more & Hd) & Has); [|done].
    split_and!.
    + intros [|k] dr' Hk'; simpl in Hk'; [injection Hk' as <-; by rewrite Nat.add_0_r|].
      rewrite <-Nat.add_succ_comm. by apply Hus.
    + rewrite Hks, Hk. unfold keos_registries. change (dr :: l) with ([dr] ++ l).
      rewrite filter_app, length_app. lia.
    + done.
    + eexists. by rewrite Hd, Hd1, <-(assoc_L (++)).
    + intros dr' [->|Hin]%elem_of_cons Hauth; [|by apply Has].
      destruct (Ha Hauth) as (c & ? & ? & ? & Hin). exists c. split_and!; [done..|].
      rewrite Hd. apply elem_of_app. auto.
Qed.

(** Registries that are accepted have different URLs, exactly one of them is the
    keos registry, and each one that requires it has complete credentials for its
    URL, which are among those returned. *)
Theorem validateRegistryCredentials_sound secrets spec keos docker :
  validateRegistryCredentials secrets spec = Ok (keos, docker) →
  NoDup (dr_URL <$> ks_DockerRegistries spec) ∧
  keos_registries (ks_DockerRegistries spec) = 1%nat ∧
  ∀ dr, dr ∈ ks_DockerRegistries spec → dr_AuthRequired dr = true →
    has_credential (registry_creds_of secrets spec) docker dr.
Proof.
  unfold validateRegistryCredentials. intros (st & Hl & Hr)%bind_Ok_iff.
  apply bind_unit_Ok in Hr as [Hn%fail_when_Ok%Nat.eqb_neq [= <- <-]].
  apply registry_loop_Ok in Hl as (Hu & Hk & Hle & _ & Ha); [|simpl; lia]. simpl in *.
  split_and!; [|lia|done].
  apply NoDup_fmap_pairs. intros i dr Hi j dr2 Hj Hne Heq.
  specialize (Hu i dr Hi). simpl in Hu. unfold check_unique_url in Hu. rewrite for_range_Ok in Hu.
  specialize (Hu j dr2 Hj). apply fail_when_Ok in Hu.
  rewrite Heq, String.eqb_refl, andb_true_r, negb_false_iff, Nat.eqb_eq in Hu. done.
Qed.
End registry_facts.

(** The libraries as they are documented, used by the witnesses. *)
Module DemoReflect.
Definition vptr (p : option string) : value := VStrPtr p.

#[export] Instance lib : ReflectLib := {|
  GetField o f :=
    match o with
    | OSecrets s => if f =s "AWS" then Some (OAWS (secr_AWS s)) else
                    if f =s "AZURE" then Some (OAZURE (secr_AZURE s)) else
                    if f =s "GCP" then Some (OGCP (secr_GCP s)) else None
    | OCredentials c => if f =s "AWS" then Some (OAWSCredentials (cred_AWS c)) else
                        if f =s "AZURE" then Some (OAzureCredentials (cred_AZURE c)) else
                        if f =s "GCP" then Some (OGCPCredentials (cred_GCP c)) else None
    | OAWS a => if f =s "Credentials" then Some (OAWSCredentials (aws_Credentials a)) else None
    | OAZURE a => if f =s "Credentials" then Some (OAzureCredentials (azure_Credentials a)) else None
    | OGCP g => if f =s "Credentials" then Some (OGCPCredentials (gcps_Credentials g)) else None
    | _ => None
    end;
  structs_Map o :=
    match o with
    | OAWSCredentials c =>
        {["AccessKey" := VStr (awsc_AccessKey c); "SecretKey" := VStr (awsc_SecretKey c);
          "Region" := VStr (awsc_Region c); "AccountID" := VStr (awsc_AccountID c);
          "RoleARN" := vptr (awsc_RoleARN c)]}
    | OAzureCredentials c =>
        {["SubscriptionID" := VStr (azc_SubscriptionID c); "TenantID" := VStr (azc_TenantID c);
          "ClientID" := VStr (azc_ClientID c); "ClientSecret" := VStr (azc_ClientSecret c)]}
    | ODockerRegistryCredentials c =>
        {["URL" := VStr (drc_URL c); "User" := VStr (drc_User c); "Pass" := VStr (drc_Pass c)]}
    | OHelmRepositoryCredentials c =>
        {["URL" := VStr (hrc_URL c); "User" := VStr (hrc_User c); "Pass" := VStr (hrc_Pass c)]}
    | _ => ∅
    end;
  sprint_value _ := "?"
|}.
#[export] Instance laws : ReflectLaws.
Proof. split; reflexivity. Defined.

Definition spec (provider : string) (creds : Credentials) (drs : list DockerRegistry) : KeosSpec :=
  mkKeosSpec false zero_Bastion zero_StorageClass creds provider "v1.32.0" "eu-1"
    zero_Networks zero_Dns drs zero_HelmRepository "" zero_Security zero_Keos zero_ControlPlane
    [] zero_ClusterConfigRef zero_Calico.

(** Only the region is given. *)
Definition aws : KeosSpec :=
  spec "aws" (mkCredentials (mkAWSCredentials "" "" "eu-1" "" None) zero_AzureCredentials
    zero_GCPCredentials "" [] zero_HelmRepositoryCredentials) [].
Definition azure : KeosSpec :=
  spec "azure" (mkCredentials zero_AWSCredentials (mkAzureCredentials "s" "t" "c" "p")
    zero_GCPCredentials "" [] zero_HelmRepositoryCredentials) [].
Definition docker : KeosSpec :=
  spec "aws" (mkCredentials zero_AWSCredentials zero_AzureCredentials zero_GCPCredentials ""
    [mkDockerRegistryCredentials "r.io" "u" "p"] zero_HelmRepositoryCredentials)
    [mkDockerRegistry true "generic" "r.io" true false; mkDockerRegistry false "ecr" "e.io" false false].

Definition docker_result : gmap string string * list (gmap string value) :=
  match validateRegistryCredentials zero_Secrets docker with Ok r => r | _ => (∅, []) end.
Lemma docker_result_eq :
  validateRegistryCredentials zero_Secrets docker = Ok (fst docker_result, snd docker_result).
Proof. vm_compute. reflexivity. Qed.
End DemoReflect.

Lemma aws_credentials_unchecked_witness :
  is_Ok (validateProviderCredentials (H := DemoReflect.lib) zero_Secrets DemoReflect.aws) = true ∧
  awsc_AccessKey (cred_AWS (ks_Credentials DemoReflect.aws)) = "".
Proof.
  split; [|reflexivity].
  rewrite (aws_credentials_unchecked (H0 := DemoReflect.laws) zero_Secrets DemoReflect.aws
    eq_refl eq_refl); [reflexivity|discriminate|reflexivity].
Defined.

Lemma azure_credentials_required_witness :
  is_Ok (validateProviderCredentials (H := DemoReflect.lib) zero_Secrets DemoReflect.azure) = true ∧
  all_set (mkAzureCredentials "s" "t" "c" "p").
Proof.
  split; [vm_compute; reflexivity|].
  refine (proj1 (proj1 (azure_credentials_required (H0 := DemoReflect.laws) zero_Secrets DemoReflect.azure
    (creds_map (H := DemoReflect.lib) (OAzureCredentials (mkAzureCredentials "s" "t" "c" "p"))) eq_refl) _)).
  vm_compute. reflexivity.
Defined.

Lemma validateRegistryCredentials_sound_witness :
  keos_registries (ks_DockerRegistries DemoReflect.docker) = 1%nat.
Proof.
  exact (proj1 (proj2 (validateRegistryCredentials_sound (H := DemoReflect.lib) _ _ _ _
    DemoReflect.docker_result_eq))).
Defined.
