(* ===== verification/NetIP.v ===== *)
(** * Addresses and networks of Go's [net] package, and the go-cidr interface

    [net.ParseCIDR] and [net.IPNet.Contains] of the standard library, which the
    validators use on the CIDR blocks of the descriptor.  An address is a number
    of 32 or of 128 bits; a network holds its masked address and the length of
    its prefix.  The third-party go-cidr functions are the operations of the
    class [GoCidr]; their documentation is the class [GoCidrLaws]. *)

From S2P Require Import Prelude GoStr.
Local Open Scope Z_scope.

Record IP := mkIP { ip_bits : Z; ip_val : Z }.
Record IPNet := mkIPNet { in_bits : Z; in_val : Z; in_ones : Z }.

(** ** Parsing *)

(** One field of a dotted address: no leading zero, at most 255. *)
Definition parse_octet (s : string) : option Z :=
  if all_chars is_digit s && negb (s =? "")%string &&
     negb (HasPrefix s "0" && negb (s =? "0")%string)
  then match ParseUint s with Some n => if n <=? 255 then Some n else None | None => None end
  else None.

Definition parse_ipv4 (s : string) : option Z :=
  match Split s "." with
  | [a; b; c; d] =>
      a ← parse_octet a; b ← parse_octet b; c ← parse_octet c; d ← parse_octet d;
      Some (((a * 256 + b) * 256 + c) * 256 + d)
  | _ => None
  end.

Definition hex_digit (c : ascii) : option Z :=
  let n := byte_code c in
  if in_rng 48 57 n then Some (n - 48)
  else if in_rng 97 102 n then Some (n - 87)
  else if in_rng 65 70 n then Some (n - 55)
  else None.

(** The hexadecimal digits at the start of [s]: their value, how many there are
    and what follows them; more than four are refused. *)
Fixpoint hex_group (off : nat) (acc : Z) (s : string) : option (Z * nat * string) :=
  match s with
  | "" => Some (acc, off, s)
  | String c s' =>
      match hex_digit c with
      | None => Some (acc, off, s)
      | Some d => if Nat.ltb 3 off then None else hex_group (S off) (acc * 16 + d) s'
      end
  end.

(** The loop of [parseIPv6] over the 16-bit groups read so far, last first, and
    the position of the double colon; at most eight rounds. *)
Fixpoint ipv6_groups (fuel : nat) (groups : list Z) (ellipsis : option nat) (s : string)
  : option (list Z * option nat) :=
  match fuel with
  | O => if (s =? "")%string then Some (groups, ellipsis) else None
  | S fuel =>
      '(acc, off, rest) ← hex_group 0 0 s;
      if Nat.eqb off 0 then None else
      if HasPrefix rest "." then
        if negb (opt_is_Some ellipsis) && negb (Nat.eqb (length groups) 6) then None
        else if Nat.ltb 6 (length groups) then None
        else a ← parse_ipv4 s; Some (Z.modulo a 65536 :: Z.div a 65536 :: groups, ellipsis)
      else
        let groups := acc :: groups in
        match rest with
        | "" => Some (groups, ellipsis)
        | String ":" "" => None
        | String ":" (String ":" rest) =>
            if opt_is_Some ellipsis then None
            else if (rest =? "")%string then Some (groups, Some (length groups))
            else ipv6_groups fuel groups (Some (length groups)) rest
        | String ":" rest => ipv6_groups fuel groups ellipsis rest
        | _ => None
        end
  end.

Definition groups_val (gs : list Z) : Z := fold_left (λ n g, n * 65536 + g) gs 0.

Definition parse_ipv6 (s : string) : option Z :=
  let '(ellipsis, s') := match s with
    | String ":" (String ":" s') => (Some O, s')
    | _ => (None, s) end in
  if opt_is_Some ellipsis && (s' =? "")%string then Some 0 else
  '(rgroups, ellipsis) ← ipv6_groups 8 [] ellipsis s';
  let groups := rev rgroups in
  let missing := (8 - length groups)%nat in
  match ellipsis with
  | None => if Nat.eqb missing 0 then Some (groups_val groups) else None
  | Some e => if Nat.eqb missing 0 then None
              else Some (groups_val (take e groups ++ replicate missing 0 ++ drop e groups))
  end.

(** [netip.ParseAddr] decides by the first dot, colon or percent sign. A zone,
    which follows a percent sign, is refused by [ParseCIDR]. *)
Fixpoint first_sep (s : string) : option ascii :=
  match s with
  | "" => None
  | String c s => if (c =? ".")%char || (c =? ":")%char || (c =? "%")%char then Some c else first_sep s
  end.

Definition ParseAddr (s : string) : option IP :=
  match first_sep s with
  | Some "."%char => mkIP 32 <$> parse_ipv4 s
  | Some ":"%char => if Contains s "%" then None else mkIP 128 <$> parse_ipv6 s
  | _ => None
  end.

(** [dtoi]: digits only, and less than [0xFFFFFF]. *)
Definition dtoi (s : string) : option Z :=
  if all_chars is_digit s && negb (s =? "")%string then
    n ← ParseUint s; if n <? 16777215 then Some n else None
  else None.

(** The [k] low bits of [x] cleared. *)
Definition mask_low (x k : Z) : Z := Z.shiftl (Z.shiftr x k) k.

Definition ParseCIDR (s : string) : option IPNet :=
  match Split s "/" with
  | addr :: m :: more =>
      ip ← ParseAddr addr;
      n ← dtoi (Join (m :: more) "/");
      if n <=? ip_bits ip then Some (mkIPNet (ip_bits ip) (mask_low (ip_val ip) (ip_bits ip - n)) n)
      else None
  | _ => None
  end.

Example parse_cidr_4 : ParseCIDR "100.64.3.7/16" = Some (mkIPNet 32 1681915904 16).
Proof. vm_compute. reflexivity. Qed.
Example parse_cidr_6 : ParseCIDR "::ffff:100.64.0.0/112" = Some (mkIPNet 128 281472363659264 112).
Proof. vm_compute. reflexivity. Qed.
Example parse_cidr_bad :
  map ParseCIDR ["10.0.0.0"; "10.00.0.0/8"; "10.0.0.0/33"; "10.0.0/8"; "1::2::3/8"; ":1/8"; "10.0.0.0/8/9"]
  = replicate 7 None.
Proof. vm_compute. reflexivity. Qed.

(** ** Membership *)

(** [IP.To4]: the 32-bit form of an address that has one. *)
Definition To4 (ip : IP) : IP :=
  if (ip_bits ip =? 128) && (Z.shiftr (ip_val ip) 32 =? 65535)
  then mkIP 32 (Z.land (ip_val ip) 4294967295) else ip.

(** [IPNet.Contains]. *)
Definition net_Contains (n : IPNet) (ip : IP) : bool :=
  let ip := To4 ip in
  (ip_bits ip =? in_bits n) &&
  (mask_low (in_val n) (in_bits n - in_ones n) =? mask_low (ip_val ip) (in_bits n - in_ones n)).

(** ** github.com/apparentlymart/go-cidr/cidr *)

Class GoCidr := {
  AddressCount : IPNet → Z;
  AddressRange : IPNet → IP * IP
}.

(** Their documentation: [AddressCount] is the number of distinct addresses of a
    network, meaningful below 2^64 of them; [AddressRange] its first and last
    addresses. *)
Class GoCidrLaws `{GoCidr} := {
  AddressCount_spec : ∀ n, 0 <= in_ones n <= in_bits n → in_bits n - in_ones n < 64 →
    AddressCount n = 2 ^ (in_bits n - in_ones n);
  AddressRange_spec : ∀ n, 0 <= in_ones n <= in_bits n →
    AddressRange n =
      (mkIP (in_bits n) (in_val n), mkIP (in_bits n) (in_val n + 2 ^ (in_bits n - in_ones n) - 1))
}.

(** ** Facts on prefixes *)

Lemma mask_low_div x k : 0 <= k → mask_low x k = x / 2 ^ k * 2 ^ k.
Proof. intros Hk. unfold mask_low. by rewrite Z.shiftl_mul_pow2, Z.shiftr_div_pow2. Qed.

(** A network [a / p] within [b / q], [q <= p]: its last address is in [b / q] when
    its first is. *)
Lemma last_in_prefix a p q :
  0 <= p <= q → a mod 2 ^ p = 0 → (a + 2 ^ p - 1) / 2 ^ q = a / 2 ^ q.
Proof.
  intros Hpq Ha.
  assert (0 < 2 ^ p) by (apply Z.pow_pos_nonneg; lia).
  assert (2 ^ q = 2 ^ (q - p) * 2 ^ p) as -> by (rewrite <-Z.pow_add_r by lia; f_equal; lia).
  assert (0 < 2 ^ (q - p)) by (apply Z.pow_pos_nonneg; lia).
  rewrite (Z.mul_comm (2 ^ (q - p))), <-!Z.div_div by lia. f_equal.
  pose proof (Z.div_mod a (2 ^ p) ltac:(lia)) as Hdm. rewrite Ha in Hdm.
  replace (a + 2 ^ p - 1) with ((2 ^ p - 1) + a / 2 ^ p * 2 ^ p) by lia.
  rewrite Z.div_add, Z.div_small by lia. lia.
Qed.

(** What [ParseCIDR] returns is a network in normal form. *)
Lemma ParseAddr_bits s ip : ParseAddr s = Some ip → ip_bits ip = 32 ∨ ip_bits ip = 128.
Proof.
  unfold ParseAddr. intros Hs. destruct (first_sep s) as [sep|]; [|done].
  repeat case_match; simplify_option_eq; auto.
Qed.

Lemma ParseCIDR_wf s n :
  ParseCIDR s = Some n →
    (in_bits n = 32 ∨ in_bits n = 128) ∧ 0 <= in_ones n <= in_bits n ∧
    in_val n mod 2 ^ (in_bits n - in_ones n) = 0.
Proof.
  unfold ParseCIDR. intros Hs.
  destruct (Split s "/") as [|addr [|m more]]; [done..|].
  apply bind_Some in Hs as (ip & Hip & Hs). apply bind_Some in Hs as (k & Hk & Hs).
  destruct (Z.leb_spec k (ip_bits ip)) as [Hle|]; [|done]. simplify_eq/=.
  assert (0 <= k) as Hk0.
  { unfold dtoi in Hk. case_match; [|done]. apply bind_Some in Hk as (k' & Hk%ParseUint_range & ?).
    case_match; simplify_eq. lia. }
  split_and!; [by eapply ParseAddr_bits|lia|lia|].
  rewrite mask_low_div by lia. apply Z_mod_mult.
Qed.
