(* ===== verification/Aws.v ===== *)
(** * The AWS account: the client of [pkg/commons/utils.go] and its queries

    The AWS SDK is third-party: a class of operations, each of which returns
    what the account holds or an error.  A field the SDK returns as a pointer is
    an option, and dereferencing a nil one panics.  One value of the class is
    one state of the account, which does not change during a validation. *)

From S2P Require Import Prelude GoStr KeosTypes.
Local Open Scope Z_scope.
Local Open Scope go_scope.
Local Open Scope stdpp_scope.

Record Route := mkRoute {
  rt_DestinationCidrBlock : option string;
  rt_GatewayId : option string
}.
Record Ec2Subnet := mkEc2Subnet {
  es_SubnetId : option string;
  es_AvailabilityZone : option string
}.
Record Ec2AZ := mkEc2AZ { az_RegionName : option string; az_ZoneName : option string }.

Class AwsSdk := {
  AwsConfig : Type;
  LoadDefaultConfig : string → string → string → res AwsConfig;   (* access key, secret key, region *)
  AssumeRole : AwsConfig → string → res (option string * option string * option string);
  WithSessionCredentials : AwsConfig → string → string → string → AwsConfig;
  WithRegion : AwsConfig → string → AwsConfig;
  DescribeRegions : AwsConfig → res (list (option string));
  DescribeVpcs : AwsConfig → res (list (option string));
  DescribeSubnetsOfVpc : AwsConfig → string → res (list Ec2Subnet);
  DescribeSubnetIds : AwsConfig → list string → res (list Ec2Subnet);
  DescribeRouteTables : AwsConfig → string → res (list (list Route));
  DescribeInstanceTypes : AwsConfig → string → res unit;
  DescribeAvailabilityZones : AwsConfig → res (list Ec2AZ)
}.

(** [m[k]] of a [map[string]string]. *)
Definition map_get (m : gmap string string) (k : string) : string := default "" (m !! k).

(** [for _, x := range l { acc = append(acc, *x) }]. *)
Fixpoint deref_all (l : list (option string)) : res (list string) :=
  match l with
  | [] => Ok []
  | p :: l => s ← deref p; r ← deref_all l; Ok (s :: r)
  end.

Section aws.
Context `{AwsSdk}.

Definition AWSGetConfig (secrets : gmap string string) : res AwsConfig :=
  let region := map_get secrets "Region" in
  fail_when (region =s "") "AWS region is required but not provided in secrets" ;;
  cfg ← LoadDefaultConfig (map_get secrets "AccessKey") (map_get secrets "SecretKey") region;
  let roleARN := map_get secrets "RoleARN" in
  if roleARN <>s "" then
    '(access, secret, token) ← AssumeRole cfg roleARN;
    access ← deref access; secret ← deref secret; token ← deref token;
    mret (WithSessionCredentials cfg access secret token)
  else mret cfg.

Definition is_public_route (route : Route) : bool :=
  match rt_DestinationCidrBlock route, rt_GatewayId route with
  | Some dest, Some gw => (dest =s "0.0.0.0/0") && Contains gw "igw"
  | _, _ => false
  end.

Definition AWSIsPrivateSubnet (svc : AwsConfig) (subnetID : string) : res bool :=
  rt ← DescribeRouteTables svc subnetID;
  mret (negb (existsb (existsb is_public_route) rt)).

(** The zones of the subnets described, each added once. *)
Fixpoint add_azs (azs : list string) (ds : list Ec2Subnet) : res (list string) :=
  match ds with
  | [] => Ok azs
  | d :: ds =>
      az ← deref (es_AvailabilityZone d);
      add_azs (if str_in az azs then azs else azs ++ [az]) ds
  end.

(** The errors of the SDK are dropped: the result is then an empty list. *)
Fixpoint private_azs_from (svc : AwsConfig) (azs : list string) (subnets : list Subnets)
  : res (list string) :=
  match subnets with
  | [] => Ok azs
  | s :: subnets =>
      match AWSIsPrivateSubnet svc (sn_SubnetId s) with
      | Panic w => Panic w
      | Err _ => Ok []
      | Ok false => private_azs_from svc azs subnets
      | Ok true =>
          match DescribeSubnetIds svc [sn_SubnetId s] with
          | Panic w => Panic w
          | Err _ => Ok []
          | Ok ds => azs ← add_azs azs ds; private_azs_from svc azs subnets
          end
      end
  end.

Definition AWSGetPrivateAZs (svc : AwsConfig) (subnets : list Subnets) : res (list string) :=
  private_azs_from svc [] subnets.

Definition AWSGetAZs (svc : AwsConfig) : res (list string) :=
  result ← DescribeAvailabilityZones svc;
  deref_all (az_ZoneName <$> take 3 result).

(** ** The zones found for the private subnets *)

Lemma add_azs_Ok azs ds r :
  add_azs azs ds = Ok r → NoDup azs →
    NoDup r ∧ ∀ az, az ∈ r ↔ az ∈ azs ∨ ∃ d, d ∈ ds ∧ es_AvailabilityZone d = Some az.
Proof.
  revert azs. induction ds as [|d ds IH]; intros azs; simpl.
  - intros [= ->] ?. split; [done|]. set_solver.
  - intros (az & Hd%deref_Ok & Hr)%bind_Ok_iff Hnd.
    assert (NoDup (if str_in az azs then azs else azs ++ [az])) as Hnd'.
    { destruct (str_in az azs) eqn:E; [done|]. apply str_in_false in E.
      apply NoDup_app. split_and!; [done|set_solver|apply NoDup_singleton]. }
    destruct (IH _ Hr Hnd') as [Hndr Hin]. split; [done|]. intros az'. rewrite Hin.
    setoid_rewrite elem_of_cons.
    destruct (str_in az azs) eqn:E; [apply str_in_true in E|rewrite elem_of_app, list_elem_of_singleton];
      split; intros; destruct_or?; naive_solver.
Qed.

(** The subnets are private and the SDK answers for them. *)
Definition subnet_az (svc : AwsConfig) (s : Subnets) (az : string) : Prop :=
  AWSIsPrivateSubnet svc (sn_SubnetId s) = Ok true ∧
  ∃ ds d, DescribeSubnetIds svc [sn_SubnetId s] = Ok ds ∧ d ∈ ds ∧ es_AvailabilityZone d = Some az.

Lemma private_azs_from_sound svc azs subnets r :
  private_azs_from svc azs subnets = Ok r → NoDup azs →
    NoDup r ∧ ∀ az, az ∈ r → az ∈ azs ∨ ∃ s, s ∈ subnets ∧ subnet_az svc s az.
Proof.
  revert azs. induction subnets as [|s ss IH]; intros azs; simpl.
  - intros [= ->] ?. split; [done|auto].
  - destruct (AWSIsPrivateSubnet svc (sn_SubnetId s)) as [[]| |] eqn:Ep; [|..].
    + destruct (DescribeSubnetIds svc [sn_SubnetId s]) as [ds| |] eqn:Ed; [| |done].
      * intros (azs' & Ha & Hr)%bind_Ok_iff Hnd.
        destruct (add_azs_Ok _ _ _ Ha Hnd) as [Hnd' Hin].
        destruct (IH _ Hr Hnd') as [Hndr Hsub]. split; [done|]. intros az Haz.
        destruct (Hsub az Haz) as [[|(d & ? & ?)]%Hin|(s' & ? & ?)]; [auto| |].
        -- right. exists s. split; [apply list_elem_of_here|]. split; [done|]. eauto.
        -- right. exists s'. split; [by apply list_elem_of_further|done].
      * intros [= <-] _. split; [constructor|]. intros az Haz. by apply not_elem_of_nil in Haz.
    + intros Hr Hnd. destruct (IH _ Hr Hnd) as [? Hsub]. split; [done|]. intros az Haz.
      destruct (Hsub az Haz) as [|(s' & ? & ?)]; [auto|].
      right. exists s'. split; [by apply list_elem_of_further|done].
    + intros [= <-] _. split; [constructor|]. intros az Haz. by apply not_elem_of_nil in Haz.
    + done.
Qed.

(** Every zone that [AWSGetPrivateAZs] returns is the zone of one of the
    subnets, one without a default route to an internet gateway, and no zone is
    returned twice: three zones are three distinct zones. *)
Theorem AWSGetPrivateAZs_sound svc subnets azs :
  AWSGetPrivateAZs svc subnets = Ok azs →
    NoDup azs ∧ ∀ az, az ∈ azs → ∃ s rts ds d, s ∈ subnets ∧
      DescribeRouteTables svc (sn_SubnetId s) = Ok rts ∧
      (∀ rt route, rt ∈ rts → route ∈ rt → is_public_route route = false) ∧
      DescribeSubnetIds svc [sn_SubnetId s] = Ok ds ∧ d ∈ ds ∧ es_AvailabilityZone d = Some az.
Proof.
  intros (Hnd & Hsub)%private_azs_from_sound; [|constructor]. split; [done|].
  intros az [?%not_elem_of_nil|(s & Hs & Hp & ds & d & ? & ? & ?)]%Hsub; [done|].
  unfold AWSIsPrivateSubnet in Hp. apply bind_Ok_iff in Hp as (rts & Hrts & [= Hp]).
  exists s, rts, ds, d. split_and!; [done..| |done|done|done].
  intros rt route Hrt Hroute. apply negb_true_iff in Hp. rewrite <-not_true_iff_false in *.
  intros Hpub. apply Hp, existsb_exists. exists rt. split; [by apply list_elem_of_In|].
  apply existsb_exists. exists route. split; [by apply list_elem_of_In|done].
Qed.
End aws.

(** An account with three private subnets, one in each of three zones, and a public
    one; used by the witnesses. *)
Module Demo.
Definition subnet_zone (s : string) : string :=
  if s =s "s1" then "eu-1a" else if s =s "s2" then "eu-1b" else "eu-1c".

#[export] Instance sdk : AwsSdk := {|
  AwsConfig := string;
  LoadDefaultConfig _ _ region := Ok region;
  AssumeRole _ _ := Ok (Some "a", Some "s", Some "t");
  WithSessionCredentials cfg _ _ _ := cfg;
  WithRegion _ region := region;
  DescribeRegions _ := Ok [Some "eu-1"; Some "eu-2"];
  DescribeVpcs _ := Ok [Some "vpc-1"];
  DescribeSubnetsOfVpc _ _ :=
    Ok [mkEc2Subnet (Some "s1") None; mkEc2Subnet (Some "s2") None; mkEc2Subnet (Some "s3") None;
        mkEc2Subnet (Some "pub") None];
  DescribeSubnetIds _ ids := Ok (map (λ s, mkEc2Subnet (Some s) (Some (subnet_zone s))) ids);
  DescribeRouteTables _ s :=
    if s =s "pub" then Ok [[mkRoute (Some "0.0.0.0/0") (Some "igw-1")]]
    else Ok [[mkRoute (Some "0.0.0.0/0") (Some "nat-1")]];
  DescribeInstanceTypes _ t := if t =s "m5.large" then Ok tt else Err "no such type";
  DescribeAvailabilityZones _ :=
    Ok [mkEc2AZ (Some "eu-1") (Some "eu-1a"); mkEc2AZ (Some "eu-1") (Some "eu-1b");
        mkEc2AZ (Some "eu-1") (Some "eu-1c"); mkEc2AZ (Some "eu-1") (Some "eu-1d")]
|}.

Definition subnets : list Subnets :=
  [mkSubnets "s1" "" ""; mkSubnets "pub" "" ""; mkSubnets "s2" "" ""; mkSubnets "s3" "" ""].
End Demo.

Lemma AWSGetPrivateAZs_sound_witness :
  AWSGetPrivateAZs (H := Demo.sdk) "eu-1" Demo.subnets = Ok ["eu-1a"; "eu-1b"; "eu-1c"] ∧
  NoDup ["eu-1a"; "eu-1b"; "eu-1c"].
Proof.
  assert (AWSGetPrivateAZs (H := Demo.sdk) "eu-1" Demo.subnets = Ok ["eu-1a"; "eu-1b"; "eu-1c"]) as Hr
    by (vm_compute; reflexivity).
  split; [exact Hr|]. exact (proj1 (AWSGetPrivateAZs_sound (H := Demo.sdk) _ _ _ Hr)).
Defined.
