(* ===== verification/ValidateCommon.v ===== *)
(** * Validation common to the three clouds: [pkg/cluster/internal/validate/common.go] *)

From S2P Require Import Prelude GoStr Regexp KeosTypes.
Local Open Scope Z_scope.
Local Open Scope go_scope.
Local Open Scope stdpp_scope.

Definition MaxWorkerNodeNameLength : Z := 25.
Definition MinWorkerNodeNameLength : Z := 3.
Definition k8sVersionSupported : list string := ["1.32"; "1.33"; "1.34"; "1.35"].

(** ** Kubernetes version *)

(** [^v\d.\d{2}.\d{1,2}(-gke.\d{3,4})?$] *)
Definition k8sVersionRE : regex :=
  RSeq [RChar "v"; RSet cs_digit; RSet cs_dot; RRep 2 (RSet cs_digit); RSet cs_dot;
        RRange 1 2 (RSet cs_digit);
        ROpt (RSeq [RLit "-gke"; RSet cs_dot; RRange 3 4 (RSet cs_digit)])].

(** [l[:n]] of a slice whose capacity is its length. *)
Definition slice_to {A} (l : list A) (n : nat) : res (list A) :=
  if Nat.ltb (length l) n then Panic "slice bounds out of range" else Ok (take n l).

Definition validateK8SVersion (v : string) : res unit :=
  fail_when (negb (MatchString k8sVersionRE v))
    ("spec: Invalid value: " +:+ Q "k8s_version" +:+
     ": regex used for validation is '^v\d.\d{2}.\d{1,2}(-gke.\d{3,4})?$'") ;;
  mm ← slice_to (Split v ".") 2;
  let k8sVersion := Join mm "." in
  fail_when (negb (str_in (ReplaceAll k8sVersion "v" "") k8sVersionSupported))
    ("spec: Invalid value: " +:+ Q "k8s_version" +:+ ": kubernetes versions supported: " +:+
     Join k8sVersionSupported ", ").

(** ** The cluster configuration *)

Definition validateClusterConfig (spec : KeosSpec) (clusterConfigSpec : ClusterConfigSpec) : res unit :=
  when (cp_Managed (ks_ControlPlane spec))
    (fail_when (opt_is_Some (cpc_MaxUnhealthy (ccs_ControlplaneConfig clusterConfigSpec)))
      ("spec: Invalid value: " +:+ Q "controlplane_config.max_unhealthy" +:+
       " in clusterConfig: This field cannot be set with managed cluster")) ;;
  for_range (λ i chart, for_range (λ j chartCheck,
    fail_when (negb (Nat.eqb i j) && (chart_Name chart =s chart_Name chartCheck))
      ("spec: Invalid value: Cannot be indicated more than one version: " +:+ chart_Version chart +:+
       ", " +:+ chart_Version chartCheck +:+ " for the same chart: " +:+ chart_Name chart))
    (ccs_Charts clusterConfigSpec)) (ccs_Charts clusterConfigSpec).

(** ** Worker nodes *)

(** [^[-a-z]([-a-z0-9]*[a-z0-9])+$] *)
Definition workerNameRE : regex :=
  RCat (RSet [chr "-"; rng "a" "z"])
       (RPlus (RCat (RStar (RSet [chr "-"; rng "a" "z"; rng "0" "9"]))
                    (RSet [rng "a" "z"; rng "0" "9"]))).

Definition validateWorkersName (workerNodes : list WorkerNode) : res unit :=
  for_range (λ i worker,
    fail_when (negb (MatchString workerNameRE (wn_Name worker)))
      (wn_Name worker +:+ " is invalid: " +:+
       "must consist of lower case alphanumeric characters, '-' or '.', start with an alphabetic character and end with an alphanumeric character, " +:+
       "regex used for validation is '^[-a-z]([-a-z0-9]*[a-z0-9])+$'") ;;
    let len := Z.of_nat (length (runes (wn_Name worker))) in
    fail_when ((MaxWorkerNodeNameLength <? len) || (len <? MinWorkerNodeNameLength))
      (wn_Name worker +:+ " is invalid: must be no more than " +:+ Itoa MaxWorkerNodeNameLength +:+
       " & no less than " +:+ Itoa MinWorkerNodeNameLength +:+ " characters long") ;;
    for_range (λ j worker2,
      fail_when (negb (Nat.eqb i j) && (wn_Name worker =s wn_Name worker2))
        ("WorkerNodes name " +:+ wn_Name worker +:+ " is duplicated")) workerNodes) workerNodes.

Definition isBalanced (wn : WorkerNode) : bool :=
  (wn_ZoneDistribution wn =s "balanced") || ((wn_ZoneDistribution wn =s "") && (wn_AZ wn =s "")).

(** The body of the loop: the checks every group must pass... *)
Definition quantity_checks (wn : WorkerNode) : res Z :=
  q ← deref (wn_Quantity wn);
  fail_when ((wn_NodeGroupMaxSize wn <? q) && negb (wn_NodeGroupMaxSize wn =? 0))
    ("max_size in WorkerNodes " +:+ wn_Name wn +:+ " must be equal or greater than quantity") ;;
  fail_when (match wn_NodeGroupMinSize wn with Some m => q <? m | None => false end)
    ("quantity in WorkerNodes " +:+ wn_Name wn +:+ " must be equal or greater than min_size") ;;
  fail_when ((wn_AZ wn <>s "") && (wn_ZoneDistribution wn <>s ""))
    ("az and zone_distribution cannot be used at the same time for " +:+ wn_Name wn) ;;
  fail_when (isBalanced wn && negb (Z.rem q 3 =? 0))
    ("quantity in WorkerNode: " +:+ wn_Name wn +:+ " must be zero or multiple of 3") ;;
  mret q.

(** ... and the count of the groups that start with nodes. *)
Definition quantity_count (numberOfNodes : nat) (counters : Z * Z) (wn : WorkerNode) (q : Z)
  : res (Z * Z) :=
  let '(balanced, unbalanced) := counters in
  if Nat.eqb numberOfNodes 1 then
    if isBalanced wn && ((q =? 0) || negb (Z.rem q 3 =? 0)) then
      Err ("in case of defining one WorkerNode, quantity must be multiple of 3 for " +:+ wn_Name wn)
    else if negb (isBalanced wn) && (q <? 1) then
      Err ("in case of defining one WorkerNode, quantity must be greater than 0 for " +:+ wn_Name wn)
    else if isBalanced wn then Ok (balanced + 1, unbalanced) else Ok (balanced, unbalanced + 1)
  else if Nat.ltb 1 numberOfNodes && (0 <? q) then
    if isBalanced wn && (Z.rem q 3 =? 0) then Ok (balanced + 1, unbalanced)
    else if negb (isBalanced wn) then Ok (balanced, unbalanced + 1)
    else Ok (balanced, unbalanced)
  else Ok (balanced, unbalanced).

Definition quantity_step (numberOfNodes : nat) (counters : Z * Z) (wn : WorkerNode) : res (Z * Z) :=
  q ← quantity_checks wn;
  quantity_count numberOfNodes counters wn q.

Fixpoint quantity_loop (numberOfNodes : nat) (counters : Z * Z) (wns : list WorkerNode) : res (Z * Z) :=
  match wns with
  | [] => Ok counters
  | wn :: wns => c ← quantity_step numberOfNodes counters wn; quantity_loop numberOfNodes c wns
  end.

Definition validateWorkersQuantity (workerNodes : list WorkerNode) : res unit :=
  c ← quantity_loop (length workerNodes) (0, 0) workerNodes;
  fail_when ((fst c =? 0) && (snd c =? 0))
    "at least one WorkerNode must have quantity equal or greater than 1 for unbalanced and greater than 0 and multiple of 3 for balanced".

(** [key=value:effect], where key and value are a word or any text without a
    newline and the effect is one of the three the source lists. *)
Definition taintRE : regex :=
  RSeq [RAlt (RPlus (RSet cs_word)) (RStar (RSet cs_dot)); RChar "=";
        RAlt (RPlus (RSet cs_word)) (RStar (RSet cs_dot)); RChar ":";
        RAny [RLit "NoSchedule"; RLit "PreferNoSchedule"; RLit "NoExecute"]].

Definition validateWorkersTaints (wns : list WorkerNode) : res unit :=
  for_each (λ wn, for_range (λ i taint,
    fail_when (negb (MatchString taintRE taint))
      ("Incorrect taint format in taint[" +:+ Itoa (Z.of_nat i) +:+ "] of wn: " +:+ wn_Name wn))
    (wn_Taints wn)) wns.

Definition is_node_system (wn : WorkerNode) : bool :=
  Nat.eqb (length (wn_Taints wn)) 0 && negb (wn_Spot wn).

Definition validateWorkersType (wns : list WorkerNode) : res unit :=
  let hasNodeSystem := fold_left (λ b wn, if is_node_system wn then true else b) wns false in
  fail_when (negb hasNodeSystem) "at least one worker node must be non spot and without taints".

Definition validateWorkers (wn : list WorkerNode) : res unit :=
  validateWorkersName wn ;;
  validateWorkersQuantity wn ;;
  validateWorkersTaints wn ;;
  validateWorkersType wn.

(** ** Volumes *)

(** The checks on the [i]-th of a list of extra volumes; [pre] starts the
    messages on its own fields, [dup] those on a later volume [ev2]. *)
Definition check_extra_volume (pre dup : string) (evs : list ExtraVolume) (i : nat) (ev : ExtraVolume)
  : res unit :=
  let at_ (p f what : string) :=
    p +:+ Itoa (Z.of_nat i) +:+ "]: Invalid value: " +:+ Q f +:+ what in
  fail_when (ev_MountPath ev =s "") (at_ pre "mount_path" ": cannot be empty") ;;
  fail_when (ev_Label ev =s "") (at_ pre "label" ": cannot be empty") ;;
  fail_when (ev_Size ev =? 0) (at_ pre "size" ": cannot be empty or 0") ;;
  for_each (λ ev2,
    fail_when (ev_Label ev =s ev_Label ev2) (at_ dup "label" ": is duplicated") ;;
    fail_when (ev_MountPath ev =s ev_MountPath ev2) (at_ dup "mount_path" ": is duplicated"))
    (drop (S i) evs).

Definition validateVolumes (spec : KeosSpec) : res unit :=
  let cp := ks_ControlPlane spec in
  when (cp_Managed cp) (
    fail_when (bool_decide (cp_CRIVolume cp ≠ zero_CustomVolume))
      "spec.control_plane.cri_volume: Invalid value: cannot be set with managed control plane" ;;
    fail_when (bool_decide (cp_ETCDVolume cp ≠ zero_CustomVolume))
      "spec.control_plane.etcd_volume: Invalid value: cannot be set with managed control plane") ;;
  when (negb (cp_Managed cp))
    (for_range (check_extra_volume "spec.control_plane.extra_volumes[" "spec.control_plane.extra_volumes["
      (cp_ExtraVolumes cp)) (cp_ExtraVolumes cp)) ;;
  for_each (λ wn,
    when (cp_Managed cp && (ks_InfraProvider spec <>s "aws"))
      (fail_when (bool_decide (wn_CRIVolume wn ≠ zero_CustomVolume))
        ("spec.worker_nodes." +:+ wn_Name wn +:+
         ".cri_volume: Invalid value: cannot be set in workernodes with managed control plane in " +:+
         ks_InfraProvider spec)) ;;
    for_range (check_extra_volume "spec.control_plane.extra_volumes["
      ("spec.worker_nodes." +:+ wn_Name wn +:+ ".extra_volumes[") (wn_ExtraVolumes wn))
      (wn_ExtraVolumes wn)) (ks_WorkerNodes spec).

Definition validateVolumeType (t : string) (supportedTypes : list string) : res unit :=
  fail_when ((t <>s "") && negb (str_in t supportedTypes))
    (t +:+ ", supported types: " +:+ Join supportedTypes ", ").

Definition validateCommon (spec : KeosSpec) (clusterConfigSpec : ClusterConfigSpec) : res unit :=
  validateK8SVersion (ks_K8SVersion spec) ;;
  validateWorkers (ks_WorkerNodes spec) ;;
  validateVolumes spec ;;
  validateClusterConfig spec clusterConfigSpec.

Example k8s_ok : validateK8SVersion "v1.34.12-gke.1234" = Ok tt.
Proof. vm_compute. reflexivity. Qed.
Example k8s_panic : validateK8SVersion "v1x32x1" = Panic "slice bounds out of range".
Proof. vm_compute. reflexivity. Qed.

(** ** The worker names that are accepted *)

(** Names as the source means them: lower case letters, digits and dashes, a
    letter or a dash first, a letter or a digit last, 3 to 25 bytes. *)
Definition is_lower (b : Z) : bool := in_rng 97 122 b.
Definition is_dash (b : Z) : bool := b =? 45.
Definition is_dec (b : Z) : bool := in_rng 48 57 b.

Definition worker_name_ok (name : string) : Prop :=
  (∃ c m d, bytes name = c :: m ++ [d] ∧
    is_dash c || is_lower c = true ∧
    Forall (λ b, is_dash b || is_lower b || is_dec b = true) m ∧
    is_lower d || is_dec d = true) ∧
  (3 <= String.length name <= 25)%nat.

Lemma cs_mem_cons p cs c : cs_mem (p :: cs) c = in_rng (fst p) (snd p) c || cs_mem cs c.
Proof. reflexivity. Qed.

Lemma in_rng_single b c : in_rng b b c = (c =? b).
Proof. unfold in_rng. destruct (Z.eqb_spec c b), (Z.leb_spec b c), (Z.leb_spec c b); lia. Qed.

Lemma name_first c : cs_mem [chr "-"; rng "a" "z"] c = is_dash c || is_lower c.
Proof. rewrite !cs_mem_cons. simpl. by rewrite in_rng_single, orb_false_r. Qed.
Lemma name_middle c :
  cs_mem [chr "-"; rng "a" "z"; rng "0" "9"] c = is_dash c || is_lower c || is_dec c.
Proof. rewrite !cs_mem_cons. simpl. by rewrite in_rng_single, orb_false_r, orb_assoc. Qed.
Lemma name_last c : cs_mem [rng "a" "z"; rng "0" "9"] c = is_lower c || is_dec c.
Proof. rewrite !cs_mem_cons. simpl. by rewrite orb_false_r. Qed.

(** [(X*Y)+] is [X*Y] when Y is a part of X. *)
Lemma rmatch_plus_star_last X Y u :
  (∀ c, cs_mem Y c = true → cs_mem X c = true) →
  rmatch (RPlus (RCat (RStar (RSet X)) (RSet Y))) u ↔
    ∃ m d, u = m ++ [d] ∧ Forall (λ c, cs_mem X c = true) m ∧ cs_mem Y d = true.
Proof.
  intros HXY.
  assert (∀ v, rmatch (RCat (RStar (RSet X)) (RSet Y)) v ↔
    ∃ m d, v = m ++ [d] ∧ Forall (λ c, cs_mem X c = true) m ∧ cs_mem Y d = true) as Hone.
  { intros v. rewrite rmatch_cat. setoid_rewrite rmatch_star_set. setoid_rewrite rmatch_set.
    split; [intros (m & w & -> & Hm & d & -> & Hd); eauto|].
    intros (m & d & -> & Hm & Hd). exists m, [d]. eauto. }
  unfold RPlus. rewrite rmatch_cat. split.
  - intros (v & w & -> & Hv & Hw). revert v Hv.
    remember (RStar (RCat (RStar (RSet X)) (RSet Y))) as r eqn:Hr.
    induction Hw as [| | | | | |r' w1 w2 Hw1 _ Hw2 IH]; intros x Hx; simplify_eq/=.
    + rewrite app_nil_r. by apply Hone.
    + destruct (IH eq_refl w1 Hw1) as (m & d & -> & Hm & Hd).
      apply Hone in Hx as (m' & d' & -> & Hm' & Hd').
      exists ((m' ++ [d']) ++ m), d. rewrite (assoc_L (++)). split_and!; [done| |done].
      rewrite !Forall_app. split_and!; [done| |done]. constructor; [auto|constructor].
  - intros H. exists u, []. rewrite app_nil_r. split_and!; [done|by apply Hone|constructor].
Qed.

Lemma worker_name_match name :
  MatchString workerNameRE name = true ↔
    ∃ c m d, bytes name = c :: m ++ [d] ∧ is_dash c || is_lower c = true ∧
      Forall (λ b, is_dash b || is_lower b || is_dec b = true) m ∧ is_lower d || is_dec d = true.
Proof.
  assert (∀ u, rmatch workerNameRE u ↔ ∃ c m d, u = c :: m ++ [d] ∧
    is_dash c || is_lower c = true ∧
    Forall (λ b, is_dash b || is_lower b || is_dec b = true) m ∧ is_lower d || is_dec d = true) as Hre.
  { intros u. unfold workerNameRE. rewrite rmatch_cat. setoid_rewrite rmatch_set.
    setoid_rewrite rmatch_plus_star_last; [|intros c; rewrite name_middle, name_last;
      destruct (is_dash c), (is_lower c), (is_dec c); done].
    setoid_rewrite name_first. setoid_rewrite name_middle. setoid_rewrite name_last.
    split; [intros (v & w & -> & (c & -> & Hc) & m & d & -> & Hm & Hd); eauto 10|].
    intros (c & m & d & -> & Hc & Hm & Hd). exists [c], (m ++ [d]). eauto 10. }
  rewrite MatchString_spec, Hre. split.
  - intros H. rewrite <-runes_ascii; [done|]. apply runes_all_ascii.
    apply Hre in H. by apply (re_below_spec 128) in H.
  - intros (c & m & d & Hb & Hc & Hm & Hd). rewrite runes_ascii; [eauto 10|].
    unfold is_ascii. rewrite Hb. unfold is_dash, is_lower, is_dec, in_rng in *.
    constructor; [|rewrite Forall_app; split; [|constructor; [|constructor]]];
      [ | eapply Forall_impl; [exact Hm|intros x Hx; simpl in Hx] | ];
      autorewrite with skind_inv in *; lia.
Qed.

Lemma worker_name_ascii name : MatchString workerNameRE name = true → runes name = bytes name.
Proof. intros H. apply runes_ascii. by eapply MatchString_ascii; [|exact H]. Qed.

(** The names of the worker groups are accepted exactly when each is a
    well-formed name of 3 to 25 bytes and no two groups have the same one. *)
Theorem validateWorkersName_spec wns :
  validateWorkersName wns = Ok tt ↔
    Forall worker_name_ok (wn_Name <$> wns) ∧ NoDup (wn_Name <$> wns).
Proof.
  unfold validateWorkersName. rewrite for_range_Ok, <-NoDup_fmap_pairs.
  rewrite Forall_fmap, Forall_lookup. split.
  - intros H. split.
    + intros i wn Hwn. specialize (H i wn Hwn). apply bind_unit_Ok in H as [Hm H].
      apply bind_unit_Ok in H as [Hl _]. apply fail_when_Ok, negb_false_iff in Hm.
      split; [by apply worker_name_match|].
      apply fail_when_Ok, orb_false_iff in Hl as [Hmax Hmin].
      rewrite worker_name_ascii, length_bytes in Hmax, Hmin by done.
      unfold MaxWorkerNodeNameLength, MinWorkerNodeNameLength in *. lia.
    + intros i wn Hwn j wn2 Hwn2 Hne Heq. specialize (H i wn Hwn).
      apply bind_unit_Ok in H as [_ H]. apply bind_unit_Ok in H as [_ H].
      rewrite for_range_Ok in H. specialize (H j wn2 Hwn2). apply fail_when_Ok in H.
      rewrite Heq, String.eqb_refl, andb_true_r in H.
      apply negb_false_iff, Nat.eqb_eq in H. done.
  - intros [Hok Hnd] i wn Hwn. destruct (Hok i wn Hwn) as [Hm Hl].
    apply worker_name_match in Hm. rewrite Hm. cbn [negb fail_when]. cbn [mbind res_bind].
    rewrite worker_name_ascii, length_bytes by done.
    unfold MaxWorkerNodeNameLength, MinWorkerNodeNameLength.
    rewrite (proj2 (Z.ltb_ge _ _)), (proj2 (Z.ltb_ge _ _)) by lia. cbn [orb fail_when].
    apply for_range_Ok. intros j wn2 Hwn2. apply fail_when_Ok.
    destruct (Nat.eqb_spec i j) as [|Hne]; [done|]. simpl. apply String.eqb_neq. eauto.
Qed.

(** ** The quantities that are accepted *)

Record wn_quantity_ok (wn : WorkerNode) (q : Z) : Prop := {
  quantity_max : wn_NodeGroupMaxSize wn = 0 ∨ q <= wn_NodeGroupMaxSize wn;
  quantity_min : ∀ m, wn_NodeGroupMinSize wn = Some m → m <= q;
  quantity_az : wn_AZ wn = "" ∨ wn_ZoneDistribution wn = "";
  quantity_balanced : isBalanced wn = true → Z.rem q 3 = 0
}.

(** The demands on a group that is the only one. *)
Definition single_ok (n : nat) (wn : WorkerNode) (q : Z) : Prop :=
  n = 1%nat → if isBalanced wn then q ≠ 0 else 1 <= q.

Lemma quantity_checks_Ok wn q :
  quantity_checks wn = Ok q ↔ wn_Quantity wn = Some q ∧ wn_quantity_ok wn q.
Proof.
  unfold quantity_checks. rewrite bind_Ok_iff. setoid_rewrite deref_Ok. split.
  - intros (x & Hq & H).
    apply bind_unit_Ok in H as [Hmax%fail_when_Ok H]. apply bind_unit_Ok in H as [Hmin%fail_when_Ok H].
    apply bind_unit_Ok in H as [Haz%fail_when_Ok H]. apply bind_unit_Ok in H as [Hb%fail_when_Ok H].
    injection H as ->. split; [done|]. constructor.
    + destruct (Z.eqb_spec (wn_NodeGroupMaxSize wn) 0); [by left|right; lia].
    + intros m Hm. rewrite Hm in Hmin. lia.
    + destruct (String.eqb_spec (wn_AZ wn) ""); [by left|right]. simpl in Haz.
      by apply negb_false_iff, String.eqb_eq in Haz.
    + intros Hbal. rewrite Hbal in Hb. simpl in Hb. lia.
  - intros [Hq [Hmax Hmin Haz Hb]]. exists q. split; [done|].
    repeat (apply bind_unit_Ok; split; [apply fail_when_Ok|]); [| | | |done].
    + destruct (Z.eqb_spec (wn_NodeGroupMaxSize wn) 0); [apply andb_false_r|]. lia.
    + destruct (wn_NodeGroupMinSize wn) as [m|]; [|done]. specialize (Hmin m eq_refl). lia.
    + destruct Haz as [->| ->]; [done|apply andb_false_r].
    + destruct (isBalanced wn); [|done]. rewrite Hb by done. done.
Qed.

Lemma quantity_count_Ok n b u wn q c :
  (isBalanced wn = true → Z.rem q 3 = 0) →
  quantity_count n (b, u) wn q = Ok c ↔
    single_ok n wn q ∧
    c = (let k := Z.b2z (Nat.eqb n 1 || Nat.ltb 1 n && (0 <? q)) in
         if isBalanced wn then (b + k, u) else (b, u + k)).
Proof.
  intros Hb. unfold quantity_count, single_ok.
  destruct (Nat.eqb_spec n 1) as [->|Hn]; simpl.
  - destruct (isBalanced wn); simpl.
    + rewrite Hb by done. rewrite orb_false_r. destruct (Z.eqb_spec q 0); naive_solver.
    + destruct (Z.ltb_spec q 1); split; [done| |naive_solver lia|naive_solver lia].
      intros [Hs _]. specialize (Hs eq_refl). lia.
  - destruct (Nat.ltb 1 n && (0 <? q)); simpl; destruct (isBalanced wn); simpl;
      rewrite ?Hb, ?Z.add_0_r by done; simpl; naive_solver.
Qed.

(** Whether the group is counted as one that starts with nodes. *)
Definition counted (n : nat) (wn : WorkerNode) : bool :=
  Nat.eqb n 1 || match wn_Quantity wn with Some q => Nat.ltb 1 n && (0 <? q) | None => false end.

Definition group_ok (n : nat) (wn : WorkerNode) : Prop :=
  ∃ q, wn_Quantity wn = Some q ∧ wn_quantity_ok wn q ∧ single_ok n wn q.

Lemma quantity_step_Ok n b u wn c :
  quantity_step n (b, u) wn = Ok c ↔
    group_ok n wn ∧
    c = (let k := Z.b2z (counted n wn) in if isBalanced wn then (b + k, u) else (b, u + k)).
Proof.
  unfold quantity_step, group_ok, counted. rewrite bind_Ok_iff.
  setoid_rewrite quantity_checks_Ok. split.
  - intros (q & [Hq Hok] & Hc). apply quantity_count_Ok in Hc as [Hs ->]; [|apply Hok].
    rewrite Hq. eauto.
  - intros [(q & Hq & Hok & Hs) ->]. rewrite Hq. exists q. split; [done|].
    apply quantity_count_Ok; [apply Hok|done].
Qed.

Lemma quantity_loop_Ok n b u wns :
  0 <= b → 0 <= u →
  (∃ b' u', quantity_loop n (b, u) wns = Ok (b', u') ∧ (b' ≠ 0 ∨ u' ≠ 0)) ↔
    Forall (group_ok n) wns ∧ (b ≠ 0 ∨ u ≠ 0 ∨ Exists (λ wn, counted n wn = true) wns).
Proof.
  revert b u. induction wns as [|wn wns IH]; intros b u Hb Hu; simpl.
  - rewrite Exists_nil. split; [|naive_solver]. intros (? & ? & [= <- <-] & ?).
    split; [constructor|naive_solver].
  - rewrite Forall_cons, Exists_cons. setoid_rewrite bind_Ok_iff.
    assert (0 <= Z.b2z (counted n wn)) by (destruct (counted n wn); simpl; lia).
    split.
    + intros (b' & u' & (c & Hc & Hl) & Hne). apply quantity_step_Ok in Hc as [Hg ->].
      destruct (counted n wn) eqn:Hcnt, (isBalanced wn); simpl in *; rewrite ?Z.add_0_r in Hl;
        (edestruct (λ H1 H2, proj1 (IH _ _ H1 H2) (ex_intro _ b' (ex_intro _ u' (conj Hl Hne))))
          as [Hall Hex]; [lia..|]); naive_solver.
    + intros [[Hg Hall] Hex].
      edestruct (λ H1 H2 H3, proj2 (IH (if isBalanced wn then b + Z.b2z (counted n wn) else b)
        (if isBalanced wn then u else u + Z.b2z (counted n wn)) H1 H2) (conj Hall H3))
        as (b' & u' & Hl & Hne).
      * destruct (isBalanced wn); lia.
      * destruct (isBalanced wn); lia.
      * destruct Hex as [?|[?|[Hcnt|?]]]; [| | |auto].
        -- left. destruct (isBalanced wn); lia.
        -- right; left. destruct (isBalanced wn); lia.
        -- rewrite Hcnt. simpl. destruct (isBalanced wn); [left|right; left]; lia.
      * exists b', u'. split; [|done]. eexists. split; [by apply quantity_step_Ok|].
        simpl. by destruct (isBalanced wn).
Qed.

(** The quantities are accepted exactly when every group has a quantity
    within its autoscaling limits, a multiple of 3 when it is balanced, with not
    both a zone and a distribution, and some group starts with nodes. *)
Theorem validateWorkersQuantity_spec wns :
  validateWorkersQuantity wns = Ok tt ↔
    Forall (group_ok (length wns)) wns ∧ Exists (λ wn, counted (length wns) wn = true) wns.
Proof.
  unfold validateWorkersQuantity. rewrite bind_Ok_iff.
  transitivity (∃ b u, quantity_loop (length wns) (0, 0) wns = Ok (b, u) ∧ (b ≠ 0 ∨ u ≠ 0)).
  - split.
    + intros ([b u] & Hl & Hc%fail_when_Ok). exists b, u. split; [done|]. simpl in Hc. lia.
    + intros (b & u & Hl & Hne). exists (b, u). split; [done|]. apply fail_when_Ok. simpl. lia.
  - rewrite quantity_loop_Ok by done. naive_solver.
Qed.

(** ** The Kubernetes versions that are accepted *)

(** The part of the pattern after the second dot. *)
Definition k8sPatchRE : regex :=
  RSeq [RRange 1 2 (RSet cs_digit); ROpt (RSeq [RLit "-gke"; RSet cs_dot; RRange 3 4 (RSet cs_digit)])].

Lemma cs_digit_byte r : cs_mem cs_digit r = true ↔ 48 <= r <= 57.
Proof. unfold cs_mem, cs_digit, in_rng. simpl. vm_compute (byte_code _). lia. Qed.

Lemma k8sPatchRE_first u : rmatch k8sPatchRE u → ∃ d w, u = d :: w ∧ 48 <= d <= 57.
Proof.
  unfold k8sPatchRE, RRange. cbn [RSeq RRep]. rewrite !rmatch_cat_assoc, rmatch_set_cat.
  intros (d & w & -> & Hd%cs_digit_byte & _). eauto.
Qed.

Lemma k8sVersionRE_inv u :
  rmatch k8sVersionRE u ↔ ∃ d x d1 d2 y w, u = 118 :: d :: x :: d1 :: d2 :: y :: w ∧
    48 <= d <= 57 ∧ 48 <= d1 <= 57 ∧ 48 <= d2 <= 57 ∧
    cs_mem cs_dot x = true ∧ cs_mem cs_dot y = true ∧ rmatch k8sPatchRE w.
Proof.
  unfold k8sVersionRE. cbn [RSeq RRep].
  change (RCat (RRange 1 2 (RSet cs_digit)) _) with k8sPatchRE. unfold RChar.
  assert (∀ v, cs_mem [chr "v"] v = true ↔ v = 118) as Hv.
  { intros v. rewrite cs_mem_cons. simpl. rewrite in_rng_single, orb_false_r. apply Z.eqb_eq. }
  split.
  - intros H. apply rmatch_set_cat in H as (v & w0 & -> & ->%Hv & H).
    apply rmatch_set_cat in H as (d & w1 & -> & ?%cs_digit_byte & H).
    apply rmatch_set_cat in H as (x & w2 & -> & ? & H).
    apply rmatch_cat_assoc, rmatch_set_cat in H as (d1 & w3 & -> & ?%cs_digit_byte & H).
    apply rmatch_cat_assoc, rmatch_set_cat in H as (d2 & w4 & -> & ?%cs_digit_byte & H).
    apply rmatch_eps_cat, rmatch_set_cat in H as (y & w & -> & ? & H). eauto 20.
  - intros (d & x & d1 & d2 & y & w & -> & ? & ? & ? & ? & ? & ?).
    repeat (apply rmatch_set_cat; eexists _, _; split; [done|split; [by apply Hv || by apply cs_digit_byte || done|]]).
    repeat (apply rmatch_cat_assoc, rmatch_set_cat; eexists _, _; split; [done|split; [by apply cs_digit_byte|]]).
    apply rmatch_eps_cat, rmatch_set_cat. eauto.
Qed.

(** The check on the first two parts, when the slice does not panic. *)
Lemma validateK8SVersion_Ok v :
  validateK8SVersion v = Ok tt ↔
    MatchString k8sVersionRE v = true ∧ char_in "." v ∧ strip "v" (first_two v) ∈ k8sVersionSupported.
Proof.
  unfold validateK8SVersion, slice_to. rewrite bind_unit_Ok, fail_when_Ok, negb_false_iff.
  destruct (Nat.ltb_spec (length (Split v ".")) 2) as [Hlt|Hge].
  - apply length_Split_byte in Hlt. split; [by intros [_ ?]|]. by intros (_ & ? & _).
  - cbn [mbind res_bind]. rewrite fail_when_Ok, negb_false_iff, str_in_true, ReplaceAll_byte.
    destruct (decide (char_in "." v)) as [|Hn]; [tauto|]. apply length_Split_byte in Hn. lia.
Qed.

(** [validateK8SVersion] panics, on the slice of the split version, exactly on
    the texts that match its pattern and hold no dot: the dots of the pattern are
    not escaped. *)
Theorem validateK8SVersion_panic v :
  is_Panic (validateK8SVersion v) = true ↔
    MatchString k8sVersionRE v = true ∧ ¬ char_in "." v.
Proof.
  unfold validateK8SVersion, slice_to.
  destruct (MatchString k8sVersionRE v); simpl; [|naive_solver].
  destruct (Nat.ltb_spec (length (Split v ".")) 2) as [Hlt|Hge].
  - apply length_Split_byte in Hlt. naive_solver.
  - simpl. unfold fail_when. split; [by destruct (negb _)|].
    intros [_ Hn]. apply length_Split_byte in Hn. lia.
Qed.

Lemma strip_digit c s :
  48 <= byte_code c <= 57 → strip "v" (String c s) = String c (strip "v" s).
Proof.
  intros Hc. cbn [strip]. by rewrite (proj2 (Ascii.eqb_neq c "v") (digit_byte_ne c "v" Hc eq_refl)).
Qed.

Lemma strip_v s : strip "v" (String "v" s) = strip "v" s.
Proof. reflexivity. Qed.
Lemma strip_dot s : strip "v" (String "." s) = String "." (strip "v" s).
Proof. reflexivity. Qed.

Lemma supported_shape s : s ∈ k8sVersionSupported → ∃ k, s = String "1" (String "." (String "3" (String k ""))).
Proof. unfold k8sVersionSupported. rewrite !elem_of_cons, elem_of_nil. naive_solver. Qed.

(** After the two digits of the minor version only the second dot can come. *)
Lemma k8s_rest t y w :
  runes t = y :: w → rmatch k8sPatchRE w → strip "v" (before_dot t) = "" →
  ∃ rest, t = String "." rest ∧ runes rest = w.
Proof.
  intros Ht Hw Hs. apply runes_cons_inv in Ht as (c & t' & -> & Hc).
  destruct (decide (c = "."%char)) as [->|Hne].
  - destruct Hc as [(_ & _ & ?)|[Hc _]]; [eauto|]. vm_compute in Hc. done.
  - rewrite before_dot_cons in Hs by done. cbn [strip] in Hs.
    destruct (Ascii.eqb_spec c "v") as [->|]; [|done].
    destruct Hc as [(_ & _ & Hr)|[Hc _]]; [|vm_compute in Hc; done].
    apply k8sPatchRE_first in Hw as (d & w' & -> & Hd).
    apply runes_cons_ascii_inv in Hr as (c & t2 & -> & <- & _); [|lia].
    rewrite before_dot_cons in Hs by (by apply digit_byte_ne).
    by rewrite strip_digit in Hs.
Qed.

(** The accepted Kubernetes versions are [v], a supported minor version, a
    dot, and a patch number with an optional GKE suffix. *)
Theorem validateK8SVersion_accepts v :
  validateK8SVersion v = Ok tt ↔
    ∃ m rest, m ∈ k8sVersionSupported ∧ v = "v" +:+ m +:+ "." +:+ rest ∧
      MatchString k8sPatchRE rest = true.
Proof.
  rewrite validateK8SVersion_Ok, MatchString_spec, k8sVersionRE_inv. split.
  - intros ((d & x & d1 & d2 & y & w & Hv & Hd & Hd1 & Hd2 & _ & _ & Hw) & _ & Hsup).
    apply runes_cons_ascii_inv in Hv as (c0 & v0 & -> & Hc0 & Hv); [|lia].
    assert (c0 = "v"%char) as -> by (by apply byte_code_inj).
    apply runes_cons_ascii_inv in Hv as (c & t & -> & <- & Ht); [|lia].
    pose proof (digit_byte_ne c "." Hd eq_refl) as Hcd.
    rewrite !first_two_cons, strip_v in Hsup by done.
    pose proof Hsup as Hm. apply supported_shape in Hsup as [k Hk].
    rewrite Hk in Hm. rewrite strip_digit in Hk by done. injection Hk as -> Hk.
    apply runes_cons_inv in Ht as (cx & t1 & -> & Hx).
    destruct (decide (cx = "."%char)) as [->|Hne].
    + destruct Hx as [(_ & _ & Ht1)|[Hx _]]; [|by vm_compute in Hx].
      apply runes_cons_ascii_inv in Ht1 as (c1 & t2 & -> & <- & Ht2); [|lia].
      apply runes_cons_ascii_inv in Ht2 as (c2 & t3 & -> & <- & Ht3); [|lia].
      rewrite first_two_dot, !before_dot_cons in Hk by (by apply digit_byte_ne).
      rewrite strip_dot, !strip_digit in Hk by done. injection Hk as -> -> Hk.
      destruct (k8s_rest t3 y w Ht3 Hw Hk) as (rest & -> & Hrest).
      exists (String "1" (String "." (String "3" (String k "")))), rest. split_and!; [done|done|].
      by rewrite MatchString_spec, Hrest.
    + exfalso. rewrite first_two_cons in Hk by done. cbn [strip] in Hk.
      destruct (Ascii.eqb_spec cx "v") as [->|Hv]; [|by injection Hk].
      destruct Hx as [(_ & _ & Ht1)|[Hx _]]; [|by vm_compute in Hx].
      apply runes_cons_ascii_inv in Ht1 as (c1 & t2 & -> & <- & _); [|lia].
      rewrite first_two_cons in Hk by (by apply digit_byte_ne).
      rewrite strip_digit in Hk by done. injection Hk as -> _. exfalso; clear -Hd1; vm_compute in Hd1; destruct Hd1; congruence.
  - intros (m & rest & Hm & -> & Hr). apply MatchString_spec in Hr.
    pose proof Hm as Hm'. apply supported_shape in Hm' as [k ->].
    assert (48 <= byte_code k <= 57) as Hk.
    { unfold k8sVersionSupported in Hm. rewrite !elem_of_cons, elem_of_nil in Hm.
      destruct_or?; simplify_eq; by vm_compute. }
    cbn [String.append]. split_and!.
    + rewrite !runes_cons_ascii by (done || lia).
      exists 49, 46, 51, (byte_code k), 46, (runes rest). split_and!; done || lia.
    + exists "v1", (String "3" (String k (String "." rest))). done.
    + rewrite !first_two_cons, first_two_dot, !before_dot_cons, before_dot_dot
        by (done || by apply digit_byte_ne).
      rewrite strip_v, !strip_digit, strip_dot by (done || by vm_compute).
      by rewrite !strip_digit.
Qed.

(** ** The volumes that are accepted *)

(** What the code wants of the extra volumes of one node group. *)
Definition extra_volumes_ok (evs : list ExtraVolume) : Prop :=
  Forall (λ ev, ev_MountPath ev ≠ "" ∧ ev_Label ev ≠ "" ∧ ev_Size ev ≠ 0) evs ∧
  NoDup (ev_Label <$> evs) ∧ NoDup (ev_MountPath <$> evs).

Lemma check_extra_volumes_Ok pre dup evs :
  for_range (check_extra_volume pre dup evs) evs = Ok tt ↔ extra_volumes_ok evs.
Proof.
  unfold extra_volumes_ok. rewrite for_range_Ok, <-!NoDup_fmap_later, Forall_lookup.
  unfold check_extra_volume. split.
  - intros H. split_and!; intros i ev Hi; specialize (H i ev Hi);
      rewrite !bind_unit_Ok, !fail_when_Ok, !eqb_string_false, Z.eqb_neq, for_each_Ok in H;
      destruct H as (? & ? & ? & H); [done| |];
      (eapply Forall_impl; [exact H|]); intros ev2 He;
      rewrite bind_unit_Ok, !fail_when_Ok, !eqb_string_false in He; naive_solver.
  - intros (H1 & H2 & H3) i ev Hi. specialize (H1 i ev Hi). specialize (H2 i ev Hi).
    specialize (H3 i ev Hi). destruct H1 as (? & ? & ?).
    rewrite !bind_unit_Ok, !fail_when_Ok, !eqb_string_false, Z.eqb_neq, for_each_Ok.
    split_and!; [done..|]. rewrite Forall_forall in *. intros ev2 Hev2.
    rewrite bind_unit_Ok, !fail_when_Ok, !eqb_string_false. auto.
Qed.

(** Volumes are accepted exactly when a managed control plane sets no CRI and
    no ETCD volume (nor, outside AWS, do its workers a CRI volume), and the extra
    volumes of the workers and of an unmanaged control plane all have a mount
    path, a label and a size, with no label and no mount path used twice in a
    group. *)
Theorem validateVolumes_spec spec :
  validateVolumes spec = Ok tt ↔
    (cp_Managed (ks_ControlPlane spec) = true →
       cp_CRIVolume (ks_ControlPlane spec) = zero_CustomVolume ∧
       cp_ETCDVolume (ks_ControlPlane spec) = zero_CustomVolume ∧
       (ks_InfraProvider spec ≠ "aws" →
        Forall (λ wn, wn_CRIVolume wn = zero_CustomVolume) (ks_WorkerNodes spec))) ∧
    (cp_Managed (ks_ControlPlane spec) = false →
       extra_volumes_ok (cp_ExtraVolumes (ks_ControlPlane spec))) ∧
    Forall (λ wn, extra_volumes_ok (wn_ExtraVolumes wn)) (ks_WorkerNodes spec).
Proof.
  unfold validateVolumes. rewrite !bind_unit_Ok, !when_Ok, for_each_Ok, negb_true_iff.
  rewrite bind_unit_Ok, !fail_when_Ok, !bool_decide_eq_false, check_extra_volumes_Ok.
  rewrite !Forall_forall.
  assert (∀ wn, (when (cp_Managed (ks_ControlPlane spec) && (ks_InfraProvider spec <>s "aws"))
      (fail_when (bool_decide (wn_CRIVolume wn ≠ zero_CustomVolume))
        ("spec.worker_nodes." +:+ wn_Name wn +:+
         ".cri_volume: Invalid value: cannot be set in workernodes with managed control plane in " +:+
         ks_InfraProvider spec)) ;;
    for_range (check_extra_volume "spec.control_plane.extra_volumes["
      ("spec.worker_nodes." +:+ wn_Name wn +:+ ".extra_volumes[") (wn_ExtraVolumes wn))
      (wn_ExtraVolumes wn)) = Ok tt ↔
    (cp_Managed (ks_ControlPlane spec) = true → ks_InfraProvider spec ≠ "aws" →
      wn_CRIVolume wn = zero_CustomVolume) ∧ extra_volumes_ok (wn_ExtraVolumes wn)) as Hwn.
  { intros wn. rewrite bind_unit_Ok, when_Ok, check_extra_volumes_Ok, fail_when_Ok,
      bool_decide_eq_false, andb_true_iff, negb_true_iff, eqb_string_false.
    destruct (decide (wn_CRIVolume wn = zero_CustomVolume)); naive_solver. }
  split.
  - intros (Hm & Hu & Hw). split_and!; [|done|intros wn Hin; by apply Hwn, Hw].
    intros Hman. destruct (Hm Hman) as [H1 H2]. split_and!;
      [by apply dec_stable|by apply dec_stable|intros Haws wn Hin; by eapply Hwn; eauto].
  - intros (Hm & Hu & Hw). split_and!; [intros (? & ? & _)%Hm; tauto|done|].
    intros wn Hin. apply Hwn. split; [|by apply Hw]. intros (_ & _ & H)%Hm Haws. by apply H.
Qed.

(** ** The cluster configuration that is accepted *)

(** The cluster configuration is accepted exactly when no chart is named twice
    and a managed control plane sets no [max_unhealthy]. *)
Theorem validateClusterConfig_spec spec ccs :
  validateClusterConfig spec ccs = Ok tt ↔
    NoDup (chart_Name <$> ccs_Charts ccs) ∧
    (cp_Managed (ks_ControlPlane spec) = true →
     cpc_MaxUnhealthy (ccs_ControlplaneConfig ccs) = None).
Proof.
  unfold validateClusterConfig. rewrite bind_unit_Ok, when_Ok, for_range_Ok.
  rewrite <-NoDup_fmap_pairs, fail_when_Ok. unfold opt_is_Some. split.
  - intros [Hm Hc]. split; [|intros Hman; specialize (Hm Hman);
      by destruct (cpc_MaxUnhealthy (ccs_ControlplaneConfig ccs))].
    intros i x Hx j y Hy Hne Heq. specialize (Hc i x Hx). rewrite for_range_Ok in Hc.
    specialize (Hc j y Hy). apply fail_when_Ok in Hc.
    rewrite Heq, String.eqb_refl, andb_true_r, negb_false_iff, Nat.eqb_eq in Hc. done.
  - intros [Hc Hm]. split; [intros Hman; by rewrite Hm|]. intros i x Hx. apply for_range_Ok. intros j y Hy.
    apply fail_when_Ok. destruct (Nat.eqb_spec i j); [done|]. simpl.
    apply eqb_string_false. eauto.
Qed.

(** ** The system group *)

Lemma node_system_fold b wns :
  fold_left (λ b wn, if is_node_system wn then true else b) wns b = true ↔
    b = true ∨ ∃ wn, wn ∈ wns ∧ is_node_system wn = true.
Proof.
  revert b. induction wns as [|wn wns IH]; intros b; simpl.
  - split; [auto|]. intros [?|(? & Hn & _)]; [done|]. by apply not_elem_of_nil in Hn.
  - rewrite IH. setoid_rewrite elem_of_cons. split.
    + destruct (is_node_system wn) eqn:E; [right; exists wn; auto|]. intros [?|(w & ? & ?)]; eauto.
    + intros [->|(w & [->|?] & Hw)]; [left; by destruct (is_node_system wn)|rewrite Hw; auto|eauto].
Qed.

Lemma validateWorkersType_Ok wns :
  validateWorkersType wns = Ok tt ↔ ∃ wn, wn ∈ wns ∧ wn_Taints wn = [] ∧ wn_Spot wn = false.
Proof.
  unfold validateWorkersType. rewrite fail_when_Ok, negb_false_iff.
  rewrite node_system_fold. unfold is_node_system. split.
  - intros [?|(wn & Hin & Hs)]; [done|]. rewrite andb_true_iff, negb_true_iff, Nat.eqb_eq,
      length_zero_iff_nil in Hs. naive_solver.
  - intros (wn & Hin & Ht & Hs). right. exists wn. by rewrite Ht, Hs.
Qed.
