(* ===== verification/ValidateAWS.v ===== *)
(** * Validation of an AWS descriptor: [pkg/cluster/internal/validate/aws.go] *)

From S2P Require Import Prelude GoStr Regexp KeosTypes NetIP ValidateUtils Aws ValidateCommon.
Local Open Scope Z_scope.
Local Open Scope go_scope.
Local Open Scope stdpp_scope.

Definition cidrSizeMax : Z := 65536.
Definition cidrSizeMin : Z := 16.

(** [^/dev/(sd[a-z]|xvd([a-d]|[a-d][a-z]|[e-z]))$] *)
Definition DeviceNameRegex : regex :=
  RSeq [RLit "/dev/";
    RAlt (RSeq [RLit "sd"; RSet [rng "a" "z"]])
         (RSeq [RLit "xvd"; RAny [RSet [rng "a" "d"];
            RSeq [RSet [rng "a" "d"]; RSet [rng "a" "z"]]; RSet [rng "e" "z"]]])].

Definition AWSVolumes : list string :=
  ["io1"; "io2"; "gp2"; "gp3"; "sc1"; "st1"; "standard"; "sbp1"; "sbg1"].

(** [^ami-\w+$] *)
Definition isAWSNodeImage : string → bool :=
  MatchString (RSeq [RLit "ami-"; RPlus (RSet cs_word)]).
Definition AWSNodeImageFormat : string := "ami-[IMAGE_ID]".

(** [arn:aws:iam::\d{12}:KIND/[\w+=,.@-]+], for a role and for a policy. *)
Definition iam_arn (kind : string) : regex :=
  RSeq [RLit "arn:aws:iam::"; RRep 12 (RSet cs_digit); RLit (":" +:+ kind +:+ "/");
        RPlus (RSet (cs_word ++ [chr "+"; chr "="; chr ","; chr "."; chr "@"; chr "-"]))].

Definition validateAWSCredentials (spec : KeosSpec) : res unit :=
  match awsc_RoleARN (cred_AWS (ks_Credentials spec)) with
  | Some arn =>
      fail_when ((arn <>s "") && negb (MatchString (iam_arn "role") arn))
        "spec.credentials.aws.roleARN: Invalid value: must have the format arn:aws:iam::ACCOUNT_ID:role/ROLE_NAME"
  | None => Ok tt
  end.

Definition validateAWSSecurity (spec : KeosSpec) : res unit :=
  let arn := secaws_NodegroupExtraPolicyARN (sec_AWS (ks_Security spec)) in
  when (arn <>s "") (
    fail_when (negb (MatchString (iam_arn "policy") arn))
      "spec.security.aws.nodegroup_extra_policy_arn: Invalid value: must have the format arn:aws:iam::ACCOUNT_ID:policy/POLICY_NAME" ;;
    fail_when (negb (secaws_CreateIAM (sec_AWS (ks_Security spec))))
      "spec.security.aws.nodegroup_extra_policy_arn requires spec.security.aws.create_iam to be true").

(** ** Storage class *)

(** [^arn:aws:kms:[a-zA-Z0-9-]+:\d{12}:key/[\w-]+$] *)
Definition awsKeyRE : regex :=
  RSeq [RLit "arn:aws:kms:"; RPlus (RSet [rng "a" "z"; rng "A" "Z"; rng "0" "9"; chr "-"]);
        RLit ":"; RRep 12 (RSet cs_digit); RLit ":key/"; RPlus (RSet (cs_word ++ [chr "-"]))].

(** Two or more [key=value] between commas, each comma with at most one space on
    either side: [^(kv)(\s?,\s?kv)*$] *)
Definition labelsRE (key value : regex) : regex :=
  let kv := RSeq [key; RChar "="; value] in
  RCat kv (RStar (RSeq [ROpt (RSet cs_space); RChar ","; ROpt (RSet cs_space); kv])).

(** [[\w\.\/-]+] *)
Definition awsLabelPart : regex := RPlus (RSet (cs_word ++ [chr "."; chr "/"; chr "-"])).

Definition validateAWSLabel (l : string) : res unit :=
  fail_when (negb (MatchString (labelsRE awsLabelPart awsLabelPart) l))
    "incorrect format. Must have the format 'key1=value1,key2=value2'".

Definition AWSFSTypes : list string := ["xfs"; "ext3"; "ext4"; "ext2"].
Definition AWSSCFields : list string :=
  ["Type"; "FsType"; "Labels"; "AllowAutoIOPSPerGBIncrease"; "BlockExpress"; "BlockSize"; "Iops";
   "IopsPerGB"; "Encrypted"; "KmsKeyId"; "Throughput"].
Definition AWSSCYamlFields : list string :=
  ["type"; "fsType"; "Labels"; "allowAutoIOPSPerGBIncrease"; "blockExpress"; "blockSize"; "iops";
   "iopsPerGB"; "encrypted"; "kmsKeyId"; "throughput"].
Definition typesSupportedForIOPS : list string := ["io1"; "io2"; "gp3"].

(** The checks that the three clouds share on the fields and the class. *)
Definition check_sc_fields (sc : StorageClass) (supported yaml : list string) : res unit :=
  for_each (λ f, fail_when (negb (str_in f supported))
    (Q "parameters" +:+ ": unsupported " +:+ f +:+ ", supported fields: " +:+ Join yaml ", "))
    (getFieldNames (sc_Parameters sc)) ;;
  fail_when ((sc_Class sc <>s "") && bool_decide (sc_Parameters sc ≠ zero_SCParameters))
    (Q "class" +:+ ": cannot be set when " +:+ Q "parameters" +:+ " is set").

(** The value and the name of the parameter that is given last. *)
Definition iops_param (p : SCParameters) : string * string :=
  if scp_IopsPerGB p <>s "" then (scp_IopsPerGB p, "iopsPerGB")
  else if scp_Iops p <>s "" then (scp_Iops p, "iops") else ("", "").

Definition check_iops (sc : StorageClass) : res unit :=
  let p := sc_Parameters sc in
  let '(iopsValue, iopsKey) := iops_param p in
  fail_when ((iopsValue <>s "") && (scp_Type p <>s "") && negb (str_in (scp_Type p) typesSupportedForIOPS))
    (iopsKey +:+ " only can be specified for " +:+ Join typesSupportedForIOPS ", " +:+ " types") ;;
  when (iopsValue <>s "") (
    match Atoi iopsValue with
    | None => Err ("invalid " +:+ iopsKey +:+ " parameter. It must be a number in string format")
    | Some iops =>
        when (((sc_Class sc =s "standard") && (scp_Type p =s "")) || (scp_Type p =s "gp3"))
          (fail_when ((iops <? 3000) || (16000 <? iops))
            ("invalid " +:+ iopsKey +:+ " parameter. It must be greater than 3000 and lower than 16000 for gp3 type")) ;;
        when (((sc_Class sc =s "premium") && (scp_Type p =s "")) || (scp_Type p =s "io1") || (scp_Type p =s "io2"))
          (fail_when ((iops <? 16000) || (64000 <? iops))
            ("invalid " +:+ iopsKey +:+ " parameter. It must be greater than 16000 and lower than 64000 for io1 and io2 types"))
    end).

(** The text of a message whose source has the escape [\f] for a quote. *)
Definition fsType_msg (fs : string) (supported : list string) : string :=
  String (ascii_of_nat 12) ("sType" +:+ dquote +:+ ": unsupported " +:+ fs +:+ ", supported types: " +:+ Join supported ", ").

Definition awsKeyMsg (f : string) : string :=
  Q f +:+ ": it must have the format arn:aws:kms:[REGION]:[ACCOUNT_ID]:key/[KEY_ID]".

Definition validateAWSStorageClass (sc : StorageClass) : res unit :=
  let p := sc_Parameters sc in
  check_sc_fields sc AWSSCFields AWSSCYamlFields ;;
  fail_when ((scp_Type p <>s "") && negb (str_in (scp_Type p) AWSVolumes))
    (Q "type" +:+ ": unsupported " +:+ scp_Type p +:+ ", supported types: " +:+ Join AWSVolumes ", ") ;;
  when (sc_EncryptionKey sc <>s "") (
    fail_when (bool_decide (p ≠ zero_SCParameters))
      (Q "encryptionKey" +:+ ": cannot be set when " +:+ Q "parameters" +:+ " is set") ;;
    fail_when (negb (MatchString awsKeyRE (sc_EncryptionKey sc))) (awsKeyMsg "encryptionKey")) ;;
  when (scp_KmsKeyId p <>s "") (
    fail_when (negb (MatchString awsKeyRE (scp_KmsKeyId p))) (awsKeyMsg "kmsKeyId") ;;
    fail_when (scp_Encrypted p <>s "true")
      (Q "kmsKeyId" +:+ ": cannot be set when " +:+ Q "parameters.encrypted" +:+ " is not set to true")) ;;
  fail_when ((scp_FsType p <>s "") && negb (str_in (scp_FsType p) AWSFSTypes))
    (fsType_msg (scp_FsType p) AWSFSTypes) ;;
  check_iops sc ;;
  when (scp_Labels p <>s "") (errors_Wrap "invalid labels" (validateAWSLabel (scp_Labels p))).

(** ** Networks *)

Section networks.
Context `{GoCidr}.

(** [net.IPNet{ParseIP("100.64.0.0"), IPv4Mask(255, 192, 0, 0)}] and
    [net.IPNet{ParseIP("198.19.0.0"), IPv4Mask(255, 255, 0, 0)}]; both are printed as
    they are written. *)
Definition validRange1 : IPNet := mkIPNet 32 1681915904 10.
Definition validRange2 : IPNet := mkIPNet 32 3323133952 16.

Definition validateAWSPodsNetwork (podsNetwork : string) : res unit :=
  match ParseCIDR podsNetwork with
  | None => Err (Q "pods_cidr" +:+ ": CIDR block must be a valid IPv4 CIDR block")
  | Some ipv4Net =>
      let cidrSize := AddressCount ipv4Net in
      fail_when ((cidrSizeMax <? cidrSize) || (cidrSize <? cidrSizeMin))
        (Q "pods_cidr" +:+ ": CIDR block sizes must be between a /16 and /28 netmask") ;;
      let '(start, end_) := AddressRange ipv4Net in
      fail_when ((negb (net_Contains validRange1 start) || negb (net_Contains validRange1 end_)) &&
                 (negb (net_Contains validRange2 start) || negb (net_Contains validRange2 end_)))
        (Q "pods_cidr" +:+ ": CIDR block must be between 100.64.0.0/10 and 198.19.0.0/16")
  end.

Context `{AwsSdk}.
Implicit Types cfg : AwsConfig.

Definition getAWSRegions cfg (spec : KeosSpec) : res (list string) :=
  output ← DescribeRegions (WithRegion cfg (ks_Region spec)); deref_all output.

Definition getAWSVPCs cfg : res (list string) :=
  output ← DescribeVpcs cfg; deref_all output.

Definition getAWSSubnets (vpcId : string) cfg : res (list string) :=
  output ← DescribeSubnetsOfVpc cfg vpcId; deref_all (es_SubnetId <$> output).

Definition validateAWSInstanceType cfg (instanceType : string) : res unit :=
  DescribeInstanceTypes cfg instanceType.

Fixpoint azs_of_region (azs : list string) (l : list Ec2AZ) (region : string) : res (list string) :=
  match l with
  | [] => Ok azs
  | az :: l =>
      r ← deref (az_RegionName az);
      if r =s region then z ← deref (az_ZoneName az); azs_of_region (azs ++ [z]) l region
      else azs_of_region azs l region
  end.

Definition getAWSAzs cfg (region : string) : res (list string) :=
  result ← DescribeAvailabilityZones cfg; azs_of_region [] result region.

Definition validateAWSAZs cfg (spec : KeosSpec) : res unit :=
  let nets := ks_Networks spec in
  azs ← (if net_VPCID nets <>s "" then
           if Nat.ltb 0 (length (net_Subnets nets)) then
             azs ← AWSGetPrivateAZs cfg (net_Subnets nets);
             fail_when (Nat.ltb (length azs) 3)
               ("insufficient Availability Zones in region " +:+ ks_Region spec +:+
                ". Please add at least 3 private subnets in different Availability Zones") ;;
             mret azs
           else mret []
         else
           azs ← AWSGetAZs cfg;
           fail_when (Nat.ltb (length azs) 3)
             ("insufficient Availability Zones in region " +:+ ks_Region spec +:+ ". Must have at least 3") ;;
           mret azs);
  for_each (λ node,
    fail_when ((wn_ZoneDistribution node =s "unbalanced") && (wn_AZ node <>s "") &&
               negb (str_in (wn_AZ node) azs))
      ("worker node " +:+ wn_Name node +:+ " whose AZ is defined in " +:+ wn_AZ node +:+
       " must match with the AZs associated to the defined subnets in descriptor"))
    (ks_WorkerNodes spec).

(** [l, _ := f()]: the value of a call whose error is dropped, the empty list then. *)
Definition drop_err {A} (m : res (list A)) : res (list A) :=
  match m with Err _ => Ok [] | m => m end.

Definition check_vpc cfg (spec : KeosSpec) : res unit :=
  let nets := ks_Networks spec in
  fail_when (net_VPCCIDRBlock nets <>s "")
    (Q "vpc_id" +:+ " and " +:+ Q "vpc_cidr" +:+ " are mutually exclusive") ;;
  vpcs ← drop_err (getAWSVPCs cfg);
  fail_when (Nat.ltb 0 (length vpcs) && negb (str_in (net_VPCID nets) vpcs))
    (Q "vpc_id" +:+ ": " +:+ net_VPCID nets +:+ " does not exist") ;;
  fail_when (Nat.eqb (length (net_Subnets nets)) 0)
    (Q "subnets" +:+ ": are required when " +:+ Q "vpc_id" +:+ " is set") ;;
  for_each (λ s, fail_when (sn_SubnetId s =s "") (Q "subnet_id" +:+ ": is required")) (net_Subnets nets) ;;
  validateAWSAZs cfg spec ;;
  subnets ← drop_err (getAWSSubnets (net_VPCID nets) cfg);
  when (Nat.ltb 0 (length subnets))
    (for_each (λ subnet, fail_when (negb (str_in (sn_SubnetId subnet) subnets))
      (Q "subnets" +:+ ": " +:+ sn_SubnetId subnet +:+ " does not belong to vpc with id: " +:+ net_VPCID nets))
      (net_Subnets nets)) ;;
  fail_when (Nat.ltb 0 (length (net_PodsSubnets nets)) && (net_PodsCidrBlock nets <>s ""))
    (Q "pods_cidr" +:+ ": is ignored when " +:+ Q "pods_subnets" +:+ " are set").

Definition check_vpc_cidr (nets : Networks) : res unit :=
  match ParseCIDR (net_VPCCIDRBlock nets) with
  | None => Err (Q "vpc_cidr" +:+ ": CIDR block must be a valid IPv4 CIDR block")
  | Some ipv4Net =>
      fail_when (AddressCount ipv4Net <? 256)
        (Q "vpc_cidr" +:+ ": CIDR block size must be at least /24 netmask") ;;
      fail_when (Nat.ltb 0 (length (net_Subnets nets)))
        (Q "subnets" +:+ ": are not supported when " +:+ Q "vpc_cidr" +:+ " is defined")
  end.

Definition validateAWSNetwork cfg (spec : KeosSpec) : res unit :=
  let nets := ks_Networks spec in
  (if net_VPCID nets <>s "" then check_vpc cfg spec
   else fail_when (Nat.ltb 0 (length (net_PodsSubnets nets)))
     (Q "vpc_id" +:+ ": is required when " +:+ Q "pods_subnets" +:+ " is set")) ;;
  when (net_VPCCIDRBlock nets <>s "") (check_vpc_cidr nets) ;;
  when ((net_PodsCidrBlock nets <>s "") && cp_Managed (ks_ControlPlane spec))
    (validateAWSPodsNetwork (net_PodsCidrBlock nets)).

(** ** Nodes *)

(** The error of a call replaced by another. *)
Definition or_err {A} (m : res A) (e : string) : res A := map_err (λ _, e) m.

(** A volume given as disabled must have no other field. *)
Definition disabled_CustomVolume : CustomVolume := mkCustomVolume (Some false) 0 "" false "".

Definition check_aws_cp_volume (field : string) (cv : CustomVolume) : res unit :=
  match cv_Enabled cv with
  | None => Ok tt
  | Some false =>
      fail_when (bool_decide (cv ≠ disabled_CustomVolume))
        ("spec.control_plane." +:+ field +:+ ": Invalid state: no other fields should be specified if enabled is false")
  | Some true =>
      errors_Wrap ("spec.control_plane." +:+ field +:+ ": Invalid value: " +:+ Q "type")
        (validateVolumeType (cv_Type cv) AWSVolumes) ;;
      fail_when (bool_decide (cv ≠ zero_CustomVolume) && (cv_Size cv <? 8))
        ("spec.control_plane." +:+ field +:+ ": Invalid value: " +:+ Q "size" +:+ ": must be greater or equal to 8")
  end.

Definition check_aws_wn_volume (wn : WorkerNode) : res unit :=
  let pre := "spec.worker_nodes." +:+ wn_Name wn +:+ ".cri_volume: Invalid " in
  let cv := wn_CRIVolume wn in
  match cv_Enabled cv with
  | None => Ok tt
  | Some false =>
      fail_when (bool_decide (cv ≠ disabled_CustomVolume))
        (pre +:+ "state: no other fields should be specified if enabled is false")
  | Some true =>
      errors_Wrap (pre +:+ "value: " +:+ Q "type") (validateVolumeType (cv_Type cv) AWSVolumes) ;;
      fail_when (cv_Size cv <? 8) (pre +:+ "value: " +:+ Q "size" +:+ ": must be greater or equal to 8")
  end.

(** The checks on the [i]-th extra volume of a group whose messages start with [grp];
    its device name is compared with those of [others]. *)
Definition check_aws_extra_volume (grp : string) (others : list ExtraVolume) (i : nat) (ev : ExtraVolume)
  : res unit :=
  let pre := grp +:+ ".extra_volumes[" +:+ Itoa (Z.of_nat i) +:+ "]: Invalid value: " in
  fail_when (ev_DeviceName ev =s "") (pre +:+ Q "device_name" +:+ ": is required") ;;
  errors_Wrap (pre +:+ Q "type") (validateVolumeType (ev_Type ev) AWSVolumes) ;;
  fail_when (ev_Size ev <? 8) (pre +:+ Q "size" +:+ ": must be greater or equal to 8") ;;
  fail_when (negb (MatchString DeviceNameRegex (ev_DeviceName ev)))
    (pre +:+ Q "device_name" +:+
     ": invalid name, must be ^/dev/(sd[a-z]|xvd([a-d][a-z]|[e-z]))$ format") ;;
  for_range (λ j ev2, fail_when (negb (Nat.eqb i j) && (ev_DeviceName ev =s ev_DeviceName ev2))
    (pre +:+ Q "device_name" +:+ ": is duplicated")) others.

Definition check_aws_control_plane cfg (spec : KeosSpec) : res unit :=
  let cp := ks_ControlPlane spec in
  fail_when ((cp_NodeImage cp <>s "") && negb (isAWSNodeImage (cp_NodeImage cp)))
    ("spec.control_plane: Invalid value: " +:+ Q "node_image" +:+ ": must have the format " +:+ AWSNodeImageFormat) ;;
  or_err (validateAWSInstanceType cfg (cp_Size cp))
    ("spec.control_plane.size: " +:+ cp_Size cp +:+ " does not exists in AWS instance types") ;;
  errors_Wrap ("spec.control_plane.root_volume: Invalid value: " +:+ Q "type")
    (validateVolumeType (rv_Type (cp_RootVolume cp)) AWSVolumes) ;;
  check_aws_cp_volume "cri_volume" (cp_CRIVolume cp) ;;
  check_aws_cp_volume "etcd_volume" (cp_ETCDVolume cp) ;;
  for_range (check_aws_extra_volume "spec.control_plane" (cp_ExtraVolumes cp)) (cp_ExtraVolumes cp).

(** The extra volumes of a worker group are compared with those of the control
    plane. *)
Definition check_aws_worker cfg (azs : list string) (cp : ControlPlane) (wn : WorkerNode) : res unit :=
  let pre := "spec.worker_nodes." +:+ wn_Name wn in
  fail_when ((wn_NodeImage wn <>s "") && negb (isAWSNodeImage (wn_NodeImage wn)))
    (pre +:+ ": " +:+ Q "node_image" +:+ ": must have the format " +:+ AWSNodeImageFormat) ;;
  fail_when ((wn_AmiType wn <>s "") && (wn_NodeImage wn <>s ""))
    (pre +:+ ": ami_type and node_image are mutually exclusive") ;;
  fail_when ((wn_AmiType wn <>s "") && negb (cp_Managed cp))
    (pre +:+ ": ami_type is only valid for EKS managed clusters") ;;
  fail_when ((wn_AZ wn <>s "") && Nat.ltb 0 (length azs) && negb (str_in (wn_AZ wn) azs))
    (wn_AZ wn +:+ " does not exist in this region, azs: " +:+ Sprint_strs azs) ;;
  when (wn_Size wn <>s "")
    (or_err (validateAWSInstanceType cfg (wn_Size wn))
      (pre +:+ ".size: " +:+ wn_Size wn +:+ " does not exists in AWS instance types")) ;;
  errors_Wrap (pre +:+ ".root_volume: Invalid value: " +:+ Q "type")
    (validateVolumeType (rv_Type (wn_RootVolume wn)) AWSVolumes) ;;
  check_aws_wn_volume wn ;;
  for_range (check_aws_extra_volume pre (cp_ExtraVolumes cp)) (wn_ExtraVolumes wn).

(** Go ranges over a map in no fixed order; every failing tag gives the same error. *)
Definition check_aws_tags (tags : list (gmap string string)) : res unit :=
  for_each (λ tag, for_each (λ kv,
    errors_Wrap "spec.control_plane.tags: Invalid value" (validateAWSLabel (fst kv +:+ "=" +:+ snd kv)))
    (map_to_list (tag : gmap string string))) tags.

Definition check_aws_registries (drs : list DockerRegistry) : res unit :=
  for_range (λ i dr, fail_when ((dr_Type dr <>s "ecr") && (dr_Type dr <>s "generic"))
    ("spec.docker_registries[" +:+ Itoa (Z.of_nat i) +:+ "]: Invalid value: " +:+ Q "type" +:+
     ": only 'ecr' or 'generic' are supported in aws clusters")) drs.

Definition validateAWS (spec : KeosSpec) (providerSecrets : gmap string string) : res unit :=
  validateAWSCredentials spec ;;
  validateAWSSecurity spec ;;
  cfg ← AWSGetConfig providerSecrets;
  regions ← getAWSRegions cfg spec;
  fail_when (negb (str_in (ks_Region spec) regions))
    ("spec.region: " +:+ ks_Region spec +:+ " region does not exist") ;;
  azs ← getAWSAzs cfg (ks_Region spec);
  when (bool_decide (ks_StorageClass spec ≠ zero_StorageClass))
    (errors_Wrap "spec.storageclass: Invalid value" (validateAWSStorageClass (ks_StorageClass spec))) ;;
  when (bool_decide (ks_Networks spec ≠ zero_Networks))
    (errors_Wrap "spec.networks: Invalid value" (validateAWSNetwork cfg spec)) ;;
  check_aws_registries (ks_DockerRegistries spec) ;;
  check_aws_tags (cp_Tags (ks_ControlPlane spec)) ;;
  when (negb (cp_Managed (ks_ControlPlane spec))) (check_aws_control_plane cfg spec) ;;
  for_each (check_aws_worker cfg azs (ks_ControlPlane spec)) (ks_WorkerNodes spec).
End networks.

(** ** Pods CIDR blocks *)

Section pods.
Context `{GoCidrLaws}.

Lemma pow2_le_iff a b : 0 <= b → 2 ^ a <= 2 ^ b ↔ a <= b.
Proof. intros Hb. symmetry. apply Z.pow_le_mono_r_iff; lia. Qed.

Lemma pow2_16 a : 2 ^ a <= 65536 ↔ a <= 16.
Proof. apply (pow2_le_iff a 16). lia. Qed.
Lemma pow2_4 a : 0 <= a → 16 <= 2 ^ a ↔ 4 <= a.
Proof. intros Ha. by apply (pow2_le_iff 4 a). Qed.

Lemma net_Contains_4 n a :
  in_bits n = 32 → 0 <= in_ones n <= 32 →
  net_Contains n (mkIP 32 a) = true ↔
    in_val n / 2 ^ (32 - in_ones n) = a / 2 ^ (32 - in_ones n).
Proof.
  intros Hb Ho. unfold net_Contains, To4. simpl. rewrite Hb. simpl.
  rewrite !mask_low_div by lia. rewrite Z.eqb_eq.
  pose proof (Z.pow_pos_nonneg 2 (32 - in_ones n)). nia.
Qed.

(** The last address is in a shorter prefix when the first one is. *)
Lemma contains_last n a p :
  in_bits n = 32 → 0 <= in_ones n <= 32 → 0 <= p <= 32 - in_ones n → a mod 2 ^ p = 0 →
  net_Contains n (mkIP 32 (a + 2 ^ p - 1)) = net_Contains n (mkIP 32 a).
Proof.
  intros Hb Ho Hp Ha. apply eq_true_iff_eq. rewrite !net_Contains_4 by done.
  by rewrite (last_in_prefix a p) by (lia || done).
Qed.

(** An IPv4 pods CIDR block is accepted exactly when its prefix is between 16
    and 28 bits long and its network address is in 100.64.0.0/10 or in
    198.19.0.0/16; its last address is then in the same range. *)
Theorem validateAWSPodsNetwork_spec s n :
  ParseCIDR s = Some n → in_bits n = 32 →
  validateAWSPodsNetwork s = Ok tt ↔
    16 <= in_ones n <= 28 ∧
    (net_Contains validRange1 (mkIP 32 (in_val n)) = true ∨
     net_Contains validRange2 (mkIP 32 (in_val n)) = true).
Proof.
  intros Hs Hb. pose proof (ParseCIDR_wf s n Hs) as (_ & Ho & Hm). rewrite Hb in Ho, Hm.
  unfold validateAWSPodsNetwork, cidrSizeMax, cidrSizeMin. rewrite Hs.
  rewrite AddressCount_spec, AddressRange_spec, Hb by lia.
  rewrite bind_unit_Ok, !fail_when_Ok.
  assert ((65536 <? 2 ^ (32 - in_ones n)) || (2 ^ (32 - in_ones n) <? 16) = false ↔
          16 <= in_ones n <= 28) as ->.
  { rewrite orb_false_iff, !Z.ltb_ge.
    rewrite pow2_16, pow2_4 by lia. lia. }
  split; intros [Hr Hc]; (split; [done|]).
  - rewrite !(contains_last _ _ (32 - in_ones n)) in Hc by (simpl; lia || done).
    by destruct (net_Contains validRange1 _); [left|right; destruct (net_Contains validRange2 _)].
  - rewrite !(contains_last _ _ (32 - in_ones n)) by (simpl; lia || done).
    destruct Hc as [-> | ->]; [reflexivity|apply andb_false_r].
Qed.
End pods.

(** ** Storage classes *)

(** A storage class that is accepted sets the parameters or a class, not both;
    it sets only the parameters of AWS; IOPS are a number, given for a type that
    has them, between 3000 and 16000 on gp3 and 16000 and 64000 on io1 and io2. *)
Theorem validateAWSStorageClass_sound sc :
  validateAWSStorageClass sc = Ok tt →
  let p := sc_Parameters sc in
  (sc_Class sc = "" ∨ p = zero_SCParameters) ∧
  (sc_EncryptionKey sc = "" ∨ p = zero_SCParameters ∧ MatchString awsKeyRE (sc_EncryptionKey sc) = true) ∧
  (∀ f, (f, true) ∈ struct_fields p → f ∈ AWSSCFields) ∧
  (scp_Type p = "" ∨ scp_Type p ∈ AWSVolumes) ∧
  (scp_FsType p = "" ∨ scp_FsType p ∈ AWSFSTypes) ∧
  (scp_KmsKeyId p = "" ∨ scp_Encrypted p = "true") ∧
  (∀ iops, fst (iops_param p) = iops → iops ≠ "" →
     ∃ n, Atoi iops = Some n ∧ (scp_Type p = "" ∨ scp_Type p ∈ typesSupportedForIOPS) ∧
       (scp_Type p = "gp3" → 3000 <= n <= 16000) ∧
       (scp_Type p = "io1" ∨ scp_Type p = "io2" → 16000 <= n <= 64000)).
Proof.
  intros Hv p. unfold validateAWSStorageClass in Hv. fold p in Hv.
  unfold check_sc_fields, check_iops in Hv. fold p in Hv.
  destruct (iops_param p) as [iv ik] eqn:Eio.
  rewrite !bind_unit_Ok, !when_Ok, for_each_Ok, !bind_unit_Ok, !fail_when_Ok in Hv.
  destruct Hv as ([Hf Hcl] & Hty & Henc & Hkms & Hfs & [Hsup Hio] & _).
  rewrite bool_decide_eq_false in Henc. rewrite !andb_false_iff, !negb_false_iff in *.
  rewrite !eqb_string_true, ?str_in_true, bool_decide_eq_false in *.
  split_and!; [| | |done|done| |].
  - destruct Hcl as [|Hcl%dec_stable]; auto.
  - destruct (decide (sc_EncryptionKey sc = "")) as [|Hne]; [auto|right].
    destruct Henc as [Hz Hm]; [by apply negb_true_iff, eqb_string_false|].
    split; [by apply dec_stable|done].
  - intros f Hin. rewrite Forall_forall in Hf. specialize (Hf f).
    rewrite fail_when_Ok, negb_false_iff, str_in_true in Hf. by apply Hf, elem_of_getFieldNames.
  - destruct (decide (scp_KmsKeyId p = "")) as [|Hne]; [auto|right].
    destruct Hkms as [_ Hk]; [by apply negb_true_iff, eqb_string_false|].
    done.
  - cbn [fst]. intros iops <- Hne.
    specialize (Hio (proj2 (negb_true_iff _) (proj2 (eqb_string_false _ _) Hne))).
    destruct (Atoi iv) as [n|] eqn:Ha; [|done]. exists n.
    rewrite bind_unit_Ok, !when_Ok, !fail_when_Ok, !orb_true_iff, !orb_false_iff in Hio.
    rewrite !Z.ltb_ge, !eqb_string_true in Hio. naive_solver.
Qed.

Definition demo_sc : StorageClass :=
  mkStorageClass "" "" (mkSCParameters "gp3" "ext4" "" "" "" "" "3000" "" "true"
    "arn:aws:kms:eu-west-1:123456789012:key/abc-1" 0 "" "" "" "" "" "" "" "" "" "" "" "" "" "" "" "" "" "").

Lemma validateAWSStorageClass_sound_witness :
  validateAWSStorageClass demo_sc = Ok tt ∧
  ∃ n, Atoi "3000" = Some n ∧ (scp_Type (sc_Parameters demo_sc) = "gp3" → 3000 <= n <= 16000).
Proof.
  assert (validateAWSStorageClass demo_sc = Ok tt) as Hv by (vm_compute; reflexivity).
  split; [exact Hv|].
  destruct (validateAWSStorageClass_sound demo_sc Hv) as (_ & _ & _ & _ & _ & _ & Hi).
  destruct (Hi "3000" eq_refl) as (n & Hn & _ & Hg & _); [discriminate|]. exists n. split; assumption.
Defined.

(** The go-cidr functions as their documentation states them. *)
Module DemoCidr.
#[export] Instance cidr : GoCidr := {|
  AddressCount n := 2 ^ (in_bits n - in_ones n);
  AddressRange n := (mkIP (in_bits n) (in_val n),
                     mkIP (in_bits n) (in_val n + 2 ^ (in_bits n - in_ones n) - 1))
|}.
#[export] Instance laws : GoCidrLaws.
Proof. split; reflexivity. Defined.
End DemoCidr.

Lemma validateAWSPodsNetwork_spec_witness :
  ParseCIDR "100.65.0.0/16" = Some (mkIPNet 32 1681981440 16) ∧
  validateAWSPodsNetwork (H := DemoCidr.cidr) "100.65.0.0/16" = Ok tt.
Proof.
  assert (ParseCIDR "100.65.0.0/16" = Some (mkIPNet 32 1681981440 16)) as Hp by (vm_compute; reflexivity).
  split; [exact Hp|].
  apply (validateAWSPodsNetwork_spec (H := DemoCidr.cidr) (H0 := DemoCidr.laws) _ _ Hp eq_refl).
  split; [simpl; lia|]. left. vm_compute. reflexivity.
Defined.

(** ** Extra volumes *)

(** The checks on one extra volume by itself. *)
Definition aws_volume_ok (ev : ExtraVolume) : Prop :=
  MatchString DeviceNameRegex (ev_DeviceName ev) = true ∧ 8 <= ev_Size ev ∧
  (ev_Type ev = "" ∨ ev_Type ev ∈ AWSVolumes).

Lemma validateVolumeType_Ok t l : validateVolumeType t l = Ok tt ↔ t = "" ∨ t ∈ l.
Proof.
  unfold validateVolumeType. rewrite fail_when_Ok, andb_false_iff, !negb_false_iff.
  by rewrite eqb_string_true, str_in_true.
Qed.

Lemma check_aws_extra_volume_Ok grp others i ev :
  check_aws_extra_volume grp others i ev = Ok tt ↔
    aws_volume_ok ev ∧ ∀ j ev2, others !! j = Some ev2 → i ≠ j → ev_DeviceName ev ≠ ev_DeviceName ev2.
Proof.
  unfold check_aws_extra_volume, aws_volume_ok. rewrite !bind_unit_Ok, !fail_when_Ok, errors_Wrap_Ok_iff.
  rewrite validateVolumeType_Ok, for_range_Ok, eqb_string_false, negb_false_iff, Z.ltb_ge.
  setoid_rewrite fail_when_Ok. setoid_rewrite andb_false_iff.
  setoid_rewrite negb_false_iff. setoid_rewrite Nat.eqb_eq. setoid_rewrite eqb_string_false.
  split.
  - intros (Hne & Hty & Hsz & Hre & Hd). split; [done|]. intros j ev2 Hj Hij.
    by destruct (Hd j ev2 Hj).
  - intros ((Hre & Hsz & Hty) & Hd). split_and!; [|done..|].
    + intros He. by rewrite He in Hre.
    + intros j ev2 Hj. destruct (decide (i = j)); eauto.
Qed.

(** The extra volumes of an unmanaged control plane are accepted exactly when
    each has a device name of the AWS form, at least 8 GiB and a known type, and no
    device is used twice. *)
Theorem aws_control_plane_volumes_spec grp evs :
  for_range (check_aws_extra_volume grp evs) evs = Ok tt ↔
    Forall aws_volume_ok evs ∧ NoDup (ev_DeviceName <$> evs).
Proof.
  rewrite for_range_Ok, <-NoDup_fmap_pairs, Forall_lookup. split.
  - intros Hc. split; intros i ev Hi; apply (check_aws_extra_volume_Ok grp evs i ev), Hc; done.
  - intros [Ha Hd] i ev Hi. apply check_aws_extra_volume_Ok. eauto.
Qed.

(** The extra volumes of a worker group are compared with those of the control
    plane, not with each other: when the control plane has none, as in every
    managed cluster, a group with two volumes on the same device is accepted. *)
Theorem aws_worker_volumes_duplicates `{AwsSdk} cfg azs cp wn evs :
  cp_ExtraVolumes cp = [] → wn_ExtraVolumes wn = evs →
  check_aws_worker cfg azs cp wn = Ok tt →
  let wn' := mkWorkerNode (wn_Name wn) (wn_NodeImage wn) (wn_AmiType wn) (wn_Quantity wn) (wn_Size wn)
    (wn_ZoneDistribution wn) (wn_AZ wn) (wn_SSHKey wn) (wn_Spot wn) (wn_Labels wn)
    (wn_AdditionalLabels wn) (wn_Taints wn) (wn_NodeGroupMaxSize wn) (wn_NodeGroupMinSize wn)
    (wn_RootVolume wn) (wn_CRIVolume wn) (evs ++ evs) in
  check_aws_worker cfg azs cp wn' = Ok tt.
Proof.
  intros Hcp Hevs Hc. unfold check_aws_worker in *. rewrite Hcp in *. cbn.
  rewrite !bind_unit_Ok, for_range_Ok in *.
  destruct Hc as (? & ? & ? & ? & ? & ? & ? & Hv). split_and!; [done..|].
  intros i ev Hi. apply check_aws_extra_volume_Ok. split; [|by intros j ev2 Hj; rewrite lookup_nil in Hj].
  assert (ev ∈ evs) as [k Hk]%list_elem_of_lookup.
  { apply list_elem_of_lookup_2 in Hi. set_solver. }
  rewrite Hevs in Hv. specialize (Hv k ev Hk).
  apply check_aws_extra_volume_Ok in Hv. apply Hv.
Qed.

Definition demo_worker : WorkerNode :=
  mkWorkerNode "workers" "" "" (Some 3) "m5.large" "" "" "" false ∅ ∅ [] 0 None zero_RootVolume
    zero_CustomVolume [mkExtraVolume "" "/dev/sdf" 8 "gp3" "data" false "" "/data"].

Lemma aws_worker_volumes_duplicates_witness :
  check_aws_worker (H0 := Demo.sdk) "eu-1" ["eu-1a"] zero_ControlPlane
    (mkWorkerNode "workers" "" "" (Some 3) "m5.large" "" "" "" false ∅ ∅ [] 0 None zero_RootVolume
      zero_CustomVolume
      [mkExtraVolume "" "/dev/sdf" 8 "gp3" "data" false "" "/data";
       mkExtraVolume "" "/dev/sdf" 8 "gp3" "data" false "" "/data"]) = Ok tt.
Proof.
  apply (aws_worker_volumes_duplicates (H := Demo.sdk) "eu-1" ["eu-1a"] zero_ControlPlane demo_worker
    (wn_ExtraVolumes demo_worker)); [reflexivity|reflexivity|vm_compute; reflexivity].
Defined.

(** ** Networks *)

Section network_sound.
Context `{GoCidr} `{AwsSdk}.
Implicit Types cfg : AwsConfig.

(** The account lists nothing, or cannot be asked. *)
Definition none_listed {A} (m : res (list A)) : Prop := match m with Ok l => l = [] | Err _ => True | Panic _ => False end.
Lemma drop_err_listed {A} (m : res (list A)) l : drop_err m = Ok l → (m = Ok l ∧ l ≠ []) ∨ none_listed m.
Proof. destruct m as [[|x l']|e|x]; simpl; [by right| |by right|done]. intros [= <-]. by left. Qed.
Lemma drop_err_Ok {A} (m : res (list A)) l : drop_err m = Ok l → m = Ok l ∨ l = [].
Proof. destruct m; simpl; intros; simplify_eq; auto. Qed.

Lemma validateAWSAZs_vpc cfg spec :
  net_VPCID (ks_Networks spec) ≠ "" → net_Subnets (ks_Networks spec) ≠ [] →
  validateAWSAZs cfg spec = Ok tt →
  ∃ azs, AWSGetPrivateAZs cfg (net_Subnets (ks_Networks spec)) = Ok azs ∧ (3 <= length azs)%nat ∧
    Forall (λ wn, wn_ZoneDistribution wn = "unbalanced" → wn_AZ wn ≠ "" → wn_AZ wn ∈ azs)
      (ks_WorkerNodes spec).
Proof.
  intros Hvpc Hsub Hv. unfold validateAWSAZs in Hv.
  rewrite (proj2 (negb_true_iff _) (proj2 (eqb_string_false _ _) Hvpc)) in Hv.
  destruct (Nat.ltb_spec 0 (length (net_Subnets (ks_Networks spec)))) as [_|Hl];
    [|destruct (net_Subnets (ks_Networks spec)); simpl in Hl; [done|lia]].
  apply bind_Ok_iff in Hv as (azs & Haz & Hw). apply bind_Ok_iff in Haz as (azs' & Haz & Hl).
  apply bind_unit_Ok in Hl as [Hl%fail_when_Ok%Nat.ltb_ge [= ->]].
  exists azs. split_and!; [done|done|]. apply for_each_Ok in Hw.
  eapply Forall_impl; [exact Hw|]. intros wn Hwn%fail_when_Ok Hz Ha.
  rewrite Hz, !andb_false_iff, !negb_false_iff, eqb_string_true, str_in_true in Hwn.
  by destruct Hwn as [[]|].
Qed.

(** C32. A network that is accepted with a VPC names no VPC CIDR block and lists subnets, all
    with an identifier; the private ones lie in at least three different zones, and every
    pinned worker group is in one of them; pods take a CIDR block or subnets, not both.  The
    VPC is one of the account, and the subnets are subnets of the VPC, when the account lists
    any: when it cannot be asked or answers with none, neither is checked. *)
Theorem validateAWSNetwork_vpc cfg spec :
  let nets := ks_Networks spec in
  validateAWSNetwork cfg spec = Ok tt → net_VPCID nets ≠ "" →
  net_VPCCIDRBlock nets = "" ∧ net_Subnets nets ≠ [] ∧
  Forall (λ s, sn_SubnetId s ≠ "") (net_Subnets nets) ∧
  ((∃ vpcs, getAWSVPCs cfg = Ok vpcs ∧ net_VPCID nets ∈ vpcs) ∨ none_listed (getAWSVPCs cfg)) ∧
  ((∃ subnets, getAWSSubnets (net_VPCID nets) cfg = Ok subnets ∧
      Forall (λ s, sn_SubnetId s ∈ subnets) (net_Subnets nets)) ∨ none_listed (getAWSSubnets (net_VPCID nets) cfg)) ∧
  (net_PodsSubnets nets = [] ∨ net_PodsCidrBlock nets = "") ∧
  ∃ azs, AWSGetPrivateAZs cfg (net_Subnets nets) = Ok azs ∧ (3 <= length azs)%nat ∧ NoDup azs ∧
    (∀ az, az ∈ azs → ∃ s rts ds d, s ∈ net_Subnets nets ∧
      DescribeRouteTables cfg (sn_SubnetId s) = Ok rts ∧ (∀ rt route, rt ∈ rts → route ∈ rt → is_public_route route = false) ∧
      DescribeSubnetIds cfg [sn_SubnetId s] = Ok ds ∧ d ∈ ds ∧ es_AvailabilityZone d = Some az) ∧
    Forall (λ wn, wn_ZoneDistribution wn = "unbalanced" → wn_AZ wn ≠ "" → wn_AZ wn ∈ azs)
      (ks_WorkerNodes spec).
Proof.
  intros nets Hv Hvpc. unfold validateAWSNetwork in Hv. fold nets in Hv.
  rewrite (proj2 (negb_true_iff _) (proj2 (eqb_string_false _ _) Hvpc)) in Hv.
  apply bind_unit_Ok in Hv as [Hc _]. unfold check_vpc in Hc. fold nets in Hc.
  apply bind_unit_Ok in Hc as [Hcidr%fail_when_Ok Hc].
  apply bind_Ok_iff in Hc as (vpcs & Hvpcs & Hc). rewrite !bind_unit_Ok in Hc.
  destruct Hc as (Hin & Hne%fail_when_Ok & Hids & Hazs & Hc).
  apply bind_Ok_iff in Hc as (subs & Hsubs & [Hbel Hpods]%bind_unit_Ok).
  apply Nat.eqb_neq in Hne. assert (net_Subnets nets ≠ []) as Hnil by (by intros Heq; rewrite Heq in Hne).
  destruct (validateAWSAZs_vpc cfg spec Hvpc Hnil Hazs) as (azs & Ha & Hl & Hw).
  destruct (AWSGetPrivateAZs_sound _ _ _ Ha) as [Hnd Hzones].
  split_and!; [by apply negb_false_iff, eqb_string_true in Hcidr|done| | | | |by exists azs].
  - apply for_each_Ok in Hids. eapply Forall_impl; [exact Hids|].
    by intros s ?%fail_when_Ok%eqb_string_false.
  - apply drop_err_listed in Hvpcs as [[Hv0 ?]|?]; [left|by right]. exists vpcs. split; [done|].
    apply fail_when_Ok, andb_false_iff in Hin as [Hin|Hin%negb_false_iff%str_in_true]; [|done].
    apply Nat.ltb_ge in Hin. destruct vpcs; [done|simpl in Hin; lia].
  - apply drop_err_listed in Hsubs as [[Hs0 ?]|?]; [left|by right]. exists subs. split; [done|].
    rewrite when_Ok, for_each_Ok in Hbel.
    assert (Nat.ltb 0 (length subs) = true) as Hl0 by (apply Nat.ltb_lt; destruct subs; simpl; [done|lia]).
    specialize (Hbel Hl0). eapply Forall_impl; [exact Hbel|].
    by intros s ?%fail_when_Ok%negb_false_iff%str_in_true.
  - apply fail_when_Ok, andb_false_iff in Hpods as [Hl0%Nat.ltb_ge|Hp%negb_false_iff%eqb_string_true];
      [left; destruct (net_PodsSubnets nets); [done|simpl in Hl0; lia]|auto].
Qed.
End network_sound.

Definition demo_spec : KeosSpec :=
  mkKeosSpec false zero_Bastion zero_StorageClass zero_Credentials "aws" "v1.32.0" "eu-1"
    (mkNetworks "vpc-1" "" "" [] Demo.subnets "") zero_Dns [] zero_HelmRepository "" zero_Security
    zero_Keos zero_ControlPlane [demo_worker] zero_ClusterConfigRef zero_Calico.

Lemma validateAWSNetwork_vpc_witness :
  validateAWSNetwork (H := DemoCidr.cidr) (H0 := Demo.sdk) "eu-1" demo_spec = Ok tt ∧
  ∃ azs, AWSGetPrivateAZs (H := Demo.sdk) "eu-1" Demo.subnets = Ok azs ∧ (3 <= length azs)%nat.
Proof.
  assert (validateAWSNetwork (H := DemoCidr.cidr) (H0 := Demo.sdk) "eu-1" demo_spec = Ok tt) as Hv
    by (vm_compute; reflexivity).
  split; [exact Hv|].
  destruct (validateAWSNetwork_vpc (H := DemoCidr.cidr) (H0 := Demo.sdk) "eu-1" demo_spec Hv)
    as (_ & _ & _ & _ & _ & _ & azs & Ha & Hl & _); [discriminate|].
  exists azs. split; assumption.
Defined.

(** The account cannot be asked for the subnets of the VPC: any are accepted. *)
Definition unlisted_sdk : AwsSdk := {|
  AwsConfig := string;
  LoadDefaultConfig _ _ region := Ok region;
  AssumeRole _ _ := Ok (Some "a", Some "s", Some "t");
  WithSessionCredentials cfg _ _ _ := cfg;
  WithRegion _ region := region;
  DescribeRegions := DescribeRegions (AwsSdk:=Demo.sdk);
  DescribeVpcs := DescribeVpcs (AwsSdk:=Demo.sdk);
  DescribeSubnetsOfVpc _ _ := Err "RequestLimitExceeded";
  DescribeSubnetIds := DescribeSubnetIds (AwsSdk:=Demo.sdk);
  DescribeRouteTables := DescribeRouteTables (AwsSdk:=Demo.sdk);
  DescribeInstanceTypes := DescribeInstanceTypes (AwsSdk:=Demo.sdk);
  DescribeAvailabilityZones := DescribeAvailabilityZones (AwsSdk:=Demo.sdk)
|}.
Lemma subnets_elsewhere_accepted :
  let elsewhere := mkKeosSpec false zero_Bastion zero_StorageClass zero_Credentials "aws" "v1.32.0" "eu-1"
    (mkNetworks "vpc-1" "" "" [] (Demo.subnets ++ [mkSubnets "elsewhere" "" ""]) "") zero_Dns [] zero_HelmRepository "" zero_Security
    zero_Keos zero_ControlPlane [demo_worker] zero_ClusterConfigRef zero_Calico in
  is_Ok (validateAWSNetwork (H := DemoCidr.cidr) (H0 := Demo.sdk) "eu-1" elsewhere) = false ∧
  validateAWSNetwork (H := DemoCidr.cidr) (H0 := unlisted_sdk) "eu-1" elsewhere = Ok tt.
Proof. split; vm_compute; reflexivity. Qed.
