(* ===== verification/ValidateAzure.v ===== *)
(** * Validation of an Azure descriptor: [pkg/cluster/internal/validate/azure.go] *)

From S2P Require Import Prelude GoStr Regexp KeosTypes NetIP ValidateUtils Aws ValidateCommon ValidateAWS.
Local Open Scope Z_scope.
Local Open Scope go_scope.
Local Open Scope stdpp_scope.

(** ** The Azure SDK

    A pager is the list of its pages, each of which may fail to load. *)
Abbreviation pager A := (list (res (list A))).

Record AzSku := mkAzSku { sku_Name : option string; sku_ResourceType : option string }.
Record AzLocation := mkAzLocation { loc_Name : option string; loc_LogicalZones : list (option string) }.
Record AzVNet := mkAzVNet { vnet_Location : option string; vnet_Name : option string }.

Class AzureSdk := {
  AzCred : Type;
  NewClientSecretCredential : string → string → string → res AzCred;   (* tenant, client, secret *)
  ListResourceSKUs : string → AzCred → string → res (pager AzSku);      (* subscription, filter *)
  ListLocations : AzCred → string → res (pager AzLocation);
  ListVirtualNetworks : string → AzCred → string → res (pager AzVNet);  (* subscription, group *)
  ListSubnets : string → AzCred → string → string → res (pager (option string));
  ListKubernetesVersions : string → AzCred → string → res (list (list (list (option string))))
}.

(** [for pager.More() { page, err := pager.NextPage(ctx); ... }] *)
Fixpoint for_pages {A B} (f : B → list A → res B) (acc : B) (pages : pager A) : res B :=
  match pages with
  | [] => Ok acc
  | page :: pages => l ← page; acc ← f acc l; for_pages f acc pages
  end.

Definition AKSMaxNodeNameLength : Z := 9.
Definition AzureVolumes : list string :=
  ["Standard_LRS"; "Premium_LRS"; "StandardSSD_LRS"; "UltraSSD_LRS"; "Premium_ZRS"; "StandardSSD_ZRS";
   "PremiumV2_LRS"].
Definition AzureAKSVolumes : list string := ["Managed"; "Ephemeral"].

(** [[\w-]+] and [[\w\.-]+] under [(?i)]. *)
Definition az_id : regex := RPlus (RSet (cs_word_fold ++ [chr "-"])).
Definition az_name : regex := RPlus (RSet (cs_word_fold ++ [chr "."; chr "-"])).

(** [(?i)^\/subscriptions\/[\w-]+\/resourceGroups\/[\w\.-]+\/providers\/P\/[\w\.-]+$] *)
Definition az_resource (provider : string) : regex :=
  RSeq [RLitFold "/subscriptions/"; az_id; RLitFold "/resourceGroups/"; az_name;
        RLitFold ("/providers/" +:+ provider +:+ "/"); az_name].

Definition isAzureNodeImage : string → bool :=
  MatchString (RAlt (az_resource "Microsoft.Compute/images")
    (RSeq [RLitFold "/CommunityGalleries/"; az_name; RLitFold "/images/"; az_name;
           RLitFold "/versions/"; az_name])).
Definition AzureNodeImageFormat : string :=
  "/subscriptions/[SUBSCRIPTION_ID]/resourceGroups/[RESOURCE_GROUP]/providers/Microsoft.Compute/images/[IMAGE_NAME] or /CommunityGalleries/[GALLERY_ID]/Images/[REPO_NAME]/Versions/[IMAGE_VERSION]".
Definition isAzureIdentity : string → bool :=
  MatchString (az_resource "Microsoft.ManagedIdentity/userAssignedIdentities").
Definition AzureIdentityFormat : string :=
  "/subscriptions/[SUBSCRIPTION_ID]/resourceGroups/[RESOURCE_GROUP]/providers/Microsoft.ManagedIdentity/userAssignedIdentities/[IDENTITY_NAME]".

(** [^(Premium|Ultra).*$] *)
Definition isPremium : string → bool :=
  MatchString (RCat (RAlt (RLit "Premium") (RLit "Ultra")) (RStar (RSet cs_dot))).

Definition hasAzurePremiumStorage (s : string) : bool :=
  Contains (ToLower (ReplaceAll s "Standard_" "")) "s".

(** ** Storage class and tags *)

Definition validateAzureTag (t : string) : res unit :=
  let part := RPlus (RSet (cs_word ++ [chr "-"])) in
  fail_when (negb (MatchString (labelsRE part part) t))
    "incorrect format. Must have the format 'key1=value1,key2=value2'".

Definition AzureFSTypes : list string := ["xfs"; "ext3"; "ext4"; "ext2"; "btrfs"].
Definition AzureSCFields : list string :=
  ["FsType"; "Kind"; "CachingMode"; "DiskAccessID"; "DiskEncryptionSetID"; "DiskEncryptionType";
   "EnableBursting"; "EnablePerformancePlus"; "NetworkAccessPolicy"; "Provisioner";
   "PublicNetworkAccess"; "ResourceGroup"; "SkuName"; "SubscriptionID"; "Tags"].
Definition AzureSCYamlFields : list string :=
  ["fsType"; "kind"; "cachingMode"; "diskAccessID"; "diskEncryptionSetID"; "diskEncryptionType";
   "enableBursting"; "enablePerformancePlus"; "networkAccessPolicy"; "provisioner";
   "publicNetworkAccess"; "resourceGroup"; "skuName"; "subscriptionID"; "tags"].
Definition azureKeyRE : regex := az_resource "Microsoft.Compute/diskEncryptionSets".
Definition azureKeyMsg : string :=
  "t must have the format /subscriptions/[SUBSCRIPTION_ID]/resourceGroups/[RESOURCE_GROUP]/providers/Microsoft.ManagedIdentity/diskEncryptionSets/[DISK_ENCRYPION_SETS_NAME]".

Definition validateAzureStorageClass (sc : StorageClass) (wn : list WorkerNode) : res unit :=
  let p := sc_Parameters sc in
  check_sc_fields sc AzureSCFields AzureSCYamlFields ;;
  fail_when ((scp_SkuName p <>s "") && negb (str_in (scp_SkuName p) AzureVolumes))
    (Q "type" +:+ ": unsupported " +:+ scp_Type p +:+ ", supported types: " +:+ Join AzureVolumes ", ") ;;
  when (sc_EncryptionKey sc <>s "") (
    fail_when (bool_decide (p ≠ zero_SCParameters))
      (Q "encryptionKey" +:+ ": cannot be set when " +:+ Q "parameters" +:+ " is set") ;;
    fail_when (negb (MatchString azureKeyRE (sc_EncryptionKey sc)))
      (Q "encryptionKey" +:+ ": i" +:+ azureKeyMsg)) ;;
  when (scp_DiskEncryptionSetID p <>s "") (
    fail_when (negb (MatchString azureKeyRE (scp_DiskEncryptionSetID p)))
      ("incorrect diskEncryptionSetID format. I" +:+ azureKeyMsg)) ;;
  fail_when ((scp_FsType p <>s "") && negb (str_in (scp_FsType p) AzureFSTypes))
    ("unsupported fsType: " +:+ scp_FsType p +:+ ". Supported types: " +:+ Join AzureFSTypes ", ") ;;
  when ((sc_Class sc =s "premium") || isPremium (scp_SkuName p))
    (fail_when (negb (existsb (λ n, hasAzurePremiumStorage (wn_Size n)) wn))
      "premium storage is not supported in any workers nodes") ;;
  fail_when ((scp_CachingMode p =s "ReadOnly") && (scp_SkuName p =s "PremiumV2_LRS"))
    "with skuName PremiumV2_LRS, CachingMode only can be none" ;;
  when (scp_Tags p <>s "") (errors_Wrap "invalid tags" (validateAzureTag (scp_Tags p))).

(** ** Nodes of a managed cluster *)

Definition is_system_pool (n : WorkerNode) : bool :=
  Nat.eqb (length (wn_Taints n)) 0 && negb (wn_Spot n) &&
  match wn_NodeGroupMinSize n with None => true | Some m => negb (m =? 0) end.

Definition aksNameRE : regex := RPlus (RSet [rng "a" "z"; rng "0" "9"]).

Definition check_aks_node (n : WorkerNode) : res unit :=
  let pre := "spec.worker_nodes." +:+ wn_Name n in
  match wn_NodeGroupMinSize n with
  | Some m =>
      let minSizeThreshold := if isBalanced n then 3 else 1 in
      when (is_system_pool n) (fail_when (m <? minSizeThreshold)
        (pre +:+ ": as a system node group must have min_size equal or greater than " +:+ Itoa minSizeThreshold))
  | None => Ok tt
  end ;;
  fail_when (negb (MatchString aksNameRE (wn_Name n)) ||
             (AKSMaxNodeNameLength <=? Z.of_nat (String.length (wn_Name n))))
    (pre +:+ ": Invalid value " +:+ Q "name" +:+ ": in AKS must be " +:+ Itoa AKSMaxNodeNameLength +:+
     " characters or less & contain only lowercase alphanumeric characters") ;;
  fail_when ((rv_Type (wn_RootVolume n) <>s "") && negb (str_in (rv_Type (wn_RootVolume n)) AzureAKSVolumes))
    (pre +:+ ".root_volume: Invalid value " +:+ Q "type" +:+ ": " +:+ rv_Type (wn_RootVolume n) +:+
     " unsupported, supported types: " +:+ Join AzureAKSVolumes ", ") ;;
  fail_when (Nat.ltb 0 (length (wn_ExtraVolumes n)))
    (pre +:+ ".extra_volumes: Invalid value " +:+ Q "extra_volumes" +:+
     ": unsupported, extra_volumes cannot be indicated").

Definition validateAKSNodes (wn : list WorkerNode) : res unit :=
  for_each check_aks_node wn ;;
  let numberOfSystemPool := fold_left (λ k n, if is_system_pool n then S k else k) wn 0%nat in
  fail_when (Nat.eqb numberOfSystemPool 0) "spec.worker_nodes: At least one system node group must exist".

Section azure.
Context `{GoCidr} `{AzureSdk}.
Implicit Types creds : AzCred.

Definition validateAzureCredentials (secrets : gmap string string) : res AzCred :=
  NewClientSecretCredential (map_get secrets "TenantID") (map_get secrets "ClientID")
    (map_get secrets "ClientSecret").

(** The first SKU of the pages with the name and of a virtual machine. *)
Fixpoint sku_in_page (instanceType : string) (page : list AzSku) : res bool :=
  match page with
  | [] => Ok false
  | sku :: page =>
      n ← deref (sku_Name sku);
      if n =s instanceType then
        t ← deref (sku_ResourceType sku);
        if t =s "virtualMachines" then Ok true else sku_in_page instanceType page
      else sku_in_page instanceType page
  end.

Fixpoint sku_in_pages (instanceType : string) (pages : pager AzSku) : res bool :=
  match pages with
  | [] => Ok false
  | page :: pages =>
      l ← page; b ← sku_in_page instanceType l;
      if (b : bool) then Ok true else sku_in_pages instanceType pages
  end.

Definition validateAzureInstanceType creds (instanceType subscription region : string) : res unit :=
  pages ← ListResourceSKUs subscription creds ("location eq '" +:+ region +:+ "'");
  found ← sku_in_pages instanceType pages;
  fail_when (negb found) ("nonexistent instance type: " +:+ instanceType +:+ " in region " +:+ region).

(** The zones of the first location of the page with the region's name. *)
Fixpoint azs_in_page (region : string) (azs : list string) (page : list AzLocation) : res (list string) :=
  match page with
  | [] => Ok azs
  | v :: page =>
      n ← deref (loc_Name v);
      if n =s region then zs ← deref_all (loc_LogicalZones v); Ok (azs ++ zs)
      else azs_in_page region azs page
  end.

Definition getAzureAzs creds (subscription region : string) : res (list string) :=
  pages ← ListLocations creds subscription; for_pages (azs_in_page region) [] pages.

(** Append what is not there yet. *)
Definition add_new (l : list string) (s : string) : list string := if str_in s l then l else l ++ [s].

Definition getAzureRegions creds (subscription : string) : res (list string) :=
  pages ← ListLocations creds subscription;
  for_pages (λ regions page, ns ← deref_all (loc_Name <$> page); Ok (fold_left add_new ns regions)) [] pages.

Fixpoint vnets_in_page (region : string) (vpcs : list string) (page : list AzVNet) : res (list string) :=
  match page with
  | [] => Ok vpcs
  | v :: page =>
      l ← deref (vnet_Location v);
      if l =s region then n ← deref (vnet_Name v); vnets_in_page region (vpcs ++ [n]) page
      else vnets_in_page region vpcs page
  end.

Definition getAzureVpcs creds (subscription region resourceGroup : string) : res (list string) :=
  pages ← ListVirtualNetworks subscription creds resourceGroup;
  for_pages (vnets_in_page region) [] pages.

Definition getAzureSubnets creds (subscription resourceGroup vpcId : string) : res (list string) :=
  pages ← ListSubnets subscription creds resourceGroup vpcId;
  for_pages (λ subnets page, ns ← deref_all page; Ok (subnets ++ ns)) [] pages.

(** The JSON text of the versions, which hold no character that JSON escapes. *)
Definition json_versions (l : list string) : string :=
  match l with [] => "null" | _ => "[" +:+ Join (Q <$> l) "," +:+ "]" end.

(** The upgrades of the patch versions of the versions, each once. *)
Definition validateAKSVersion (spec : KeosSpec) creds (subscription : string) : res unit :=
  vs ← ListKubernetesVersions subscription creds (ks_Region spec);
  us ← deref_all (concat (concat vs));
  let availableVersions := fold_left add_new us [] in
  fail_when (negb (str_in (ReplaceAll (ks_K8SVersion spec) "v" "") availableVersions))
    ("spec: Invalid value: " +:+ Q "k8s_version" +:+ ": AKS only supports Kubernetes versions: " +:+
     json_versions availableVersions).

(** ** Networks *)

Definition check_azure_subnet (network : Networks) (managed : bool) (rg : string) (subnets : list string)
  (s : Subnets) : res unit :=
  fail_when (sn_SubnetId s =s "") (Q "subnet_id" +:+ ": is required") ;;
  fail_when (Nat.ltb 0 (length subnets) && negb (str_in (sn_SubnetId s) subnets))
    (Q "subnet_id" +:+ ": " +:+ sn_SubnetId s +:+ " does not belong to VPC: " +:+ net_VPCID network +:+
     " and resourceGroup: " +:+ rg) ;;
  if managed then
    fail_when (sn_CidrBlock s =s "") (Q "cidr" +:+ ": is required") ;;
    fail_when (sn_Role s <>s "") (Q "role" +:+ ": is only supported in azure unmanaged clusters")
  else
    fail_when (sn_Role s =s "") (Q "role" +:+ ": is required") ;;
    fail_when (sn_CidrBlock s <>s "") (Q "cidr" +:+ ": is only supported in azure managed clusters").

Definition validateAzureNetwork (network : Networks) (spec : KeosSpec) creds
  (subscription clusterName : string) : res unit :=
  let managed := cp_Managed (ks_ControlPlane spec) in
  let rg := if (net_VPCID network <>s "") && (net_ResourceGroup (ks_Networks spec) <>s "")
            then net_ResourceGroup (ks_Networks spec) else clusterName in
  (if net_VPCID network <>s "" then
     vpcs ← getAzureVpcs creds subscription (ks_Region spec) rg;
     fail_when (Nat.ltb 0 (length vpcs) && negb (str_in (net_VPCID network) vpcs))
       (Q "vpc_id" +:+ ": " +:+ net_VPCID network +:+ " does not exist in this resourceGroup") ;;
     fail_when (Nat.eqb (length (net_Subnets network)) 0)
       (Q "subnets" +:+ ": are required when " +:+ Q "vpc_id" +:+ " is set") ;;
     fail_when (managed && (net_VPCCIDRBlock network =s ""))
       (Q "vpc_cidr" +:+ ": is required when " +:+ Q "vpc_id" +:+ " is set")
   else
     fail_when (Nat.ltb 0 (length (net_Subnets network)))
       (Q "vpc_id" +:+ ": is required when " +:+ Q "subnets" +:+ " is set") ;;
     fail_when (net_VPCCIDRBlock network <>s "")
       (if managed then Q "vpc_id" +:+ ": is required when " +:+ Q "vpc_cidr" +:+ " is set"
        else Q "vpc_cidr" +:+ ": is only supported in azure managed clusters")) ;;
  when (managed && (net_VPCCIDRBlock network <>s ""))
    (match ParseCIDR (net_VPCCIDRBlock network) with
     | None => Err (Q "pods_cidr" +:+ ": CIDR block must be a valid IPv4 CIDR block")
     | Some ipv4Net => fail_when (AddressCount ipv4Net <? 256)
         (Q "vpc_cidr" +:+ ": CIDR block size must be at least /24 netmask")
     end) ;;
  when (Nat.ltb 0 (length (net_Subnets network)))
    (subnets ← getAzureSubnets creds subscription rg (net_VPCID network);
     for_each (check_azure_subnet network managed rg subnets) (net_Subnets network)).

(** ** The descriptor *)

Definition check_azure_registries (first : string) (managed : bool) (drs : list DockerRegistry) : res unit :=
  for_range (λ i dr,
    let pre := "spec.docker_registries[" +:+ Itoa (Z.of_nat i) +:+ "]: Invalid value: " +:+ Q "type" +:+ ": " in
    fail_when (first <>s dr_Type dr)
      (pre +:+ "inconsistent registry types, the types among the defined registries must be the same") ;;
    fail_when ((dr_Type dr <>s "acr") && managed)
      (pre +:+ "only acr is supported in azure managed clusters") ;;
    fail_when ((dr_Type dr <>s "acr") && (dr_Type dr <>s "generic"))
      (pre +:+ "only acr and generic are supported in azure unmanaged clusters")) drs.

(** The extra volumes of a group, compared with the later ones; [premium] is what
    the type must satisfy besides. *)
Definition check_azure_extra_volumes (grp : string) (premium : string → bool) (evs : list ExtraVolume)
  : res unit :=
  for_range (λ i ev,
    let pre := grp +:+ ".extra_volumes[" +:+ Itoa (Z.of_nat i) +:+ "]: " in
    fail_when (ev_Name ev =s "") (pre +:+ "Required value: " +:+ Q "name") ;;
    errors_Wrap (pre +:+ "Invalid value: " +:+ Q "type") (validateVolumeType (ev_Type ev) AzureVolumes) ;;
    fail_when (negb (premium (ev_Type ev)))
      (pre +:+ "Invalid value: " +:+ Q "type" +:+ ": size doesn't support premium storage") ;;
    for_each (λ ev2, fail_when (ev_Name ev =s ev_Name ev2)
      (pre +:+ "Invalid value: " +:+ Q "name" +:+ ": is duplicated")) (drop (S i) evs)) evs.

Definition check_azure_control_plane (spec : KeosSpec) creds (subscription : string) : res unit :=
  let cp := ks_ControlPlane spec in
  fail_when ((cp_NodeImage cp <>s "") && negb (isAzureNodeImage (cp_NodeImage cp)))
    ("spec.control_plane: Invalid value: " +:+ Q "node_image" +:+ ": must have the format " +:+ AzureNodeImageFormat) ;;
  or_err (validateAzureInstanceType creds (cp_Size cp) subscription (ks_Region spec))
    ("spec.control_plane.size: " +:+ cp_Size cp +:+ " does not exist as a GCP instance types in region " +:+ ks_Region spec) ;;
  errors_Wrap ("spec.control_plane.root_volume: Invalid value: " +:+ Q "type")
    (validateVolumeType (rv_Type (cp_RootVolume cp)) AzureVolumes) ;;
  errors_Wrap ("spec.control_plane.cri_volume: Invalid value: " +:+ Q "type")
    (validateVolumeType (cv_Type (cp_CRIVolume cp)) AzureVolumes) ;;
  errors_Wrap ("spec.control_plane.etcd_volume: Invalid value: " +:+ Q "type")
    (validateVolumeType (cv_Type (cp_ETCDVolume cp)) AzureVolumes) ;;
  check_azure_extra_volumes "spec.control_plane" (λ _, true) (cp_ExtraVolumes cp).

Definition check_azure_worker (wn : WorkerNode) : res unit :=
  let pre := "spec.worker_nodes." +:+ wn_Name wn in
  fail_when ((wn_NodeImage wn <>s "") && negb (isAzureNodeImage (wn_NodeImage wn)))
    (pre +:+ ": " +:+ Q "node_image" +:+ ": must have the format " +:+ AzureNodeImageFormat) ;;
  errors_Wrap (pre +:+ ".root_volume: Invalid value: " +:+ Q "type")
    (validateVolumeType (rv_Type (wn_RootVolume wn)) AzureVolumes) ;;
  errors_Wrap (pre +:+ ".cri_volume: Invalid value: " +:+ Q "type")
    (validateVolumeType (cv_Type (wn_CRIVolume wn)) AzureVolumes) ;;
  let premiumStorage := hasAzurePremiumStorage (wn_Size wn) in
  fail_when (isPremium (rv_Type (wn_RootVolume wn)) && negb premiumStorage)
    (pre +:+ ".root_volume: Invalid value: " +:+ Q "type" +:+ ": size doesn't support premium storage") ;;
  check_azure_extra_volumes pre (λ t, negb (isPremium t) || premiumStorage) (wn_ExtraVolumes wn).

Definition check_azure_worker_place (spec : KeosSpec) creds (subscription : string) (azs : list string)
  (wn : WorkerNode) : res unit :=
  fail_when ((wn_AZ wn <>s "") && Nat.ltb 0 (length azs) && negb (str_in (wn_AZ wn) azs))
    (wn_AZ wn +:+ " does not exist in this region, azs: " +:+ Sprint_strs azs) ;;
  when (wn_Size wn <>s "")
    (or_err (validateAzureInstanceType creds (wn_Size wn) subscription (ks_Region spec))
      ("spec.worker_nodes." +:+ wn_Name wn +:+ ".size: " +:+ wn_Size wn +:+
       " does not exist as a Azure instance types in region " +:+ ks_Region spec)).

Definition validateAzure (spec : KeosSpec) (providerSecrets : gmap string string) (clusterName : string)
  : res unit :=
  let subscription := map_get providerSecrets "SubscriptionID" in
  let cp := ks_ControlPlane spec in
  creds ← validateAzureCredentials providerSecrets;
  regions ← getAzureRegions creds subscription;
  fail_when (negb (str_in (ks_Region spec) regions))
    ("spec.region: " +:+ ks_Region spec +:+ " region does not exist") ;;
  azs ← getAzureAzs creds subscription (ks_Region spec);
  for_each (check_azure_worker_place spec creds subscription azs) (ks_WorkerNodes spec) ;;
  when (bool_decide (ks_StorageClass spec ≠ zero_StorageClass))
    (errors_Wrap "spec.storageclass: Invalid value"
      (validateAzureStorageClass (ks_StorageClass spec) (ks_WorkerNodes spec))) ;;
  when (bool_decide (ks_Networks spec ≠ zero_Networks))
    (errors_Wrap "spec.networks: Invalid value"
      (validateAzureNetwork (ks_Networks spec) spec creds subscription clusterName)) ;;
  fail_when (negb (isAzureIdentity (sec_ControlPlaneIdentity (ks_Security spec))))
    ("spec.security: Invalid value: " +:+ Q "control_plane_identity" +:+
     ": is required and have the format " +:+ AzureIdentityFormat) ;;
  fail_when ((sec_NodesIdentity (ks_Security spec) <>s "") &&
             negb (isAzureIdentity (sec_NodesIdentity (ks_Security spec))))
    ("spec.security: Invalid value: " +:+ Q "nodes_identity" +:+ ": it must have the format " +:+ AzureIdentityFormat) ;;
  first ← index (ks_DockerRegistries spec) 0;
  check_azure_registries (dr_Type first) (cp_Managed cp) (ks_DockerRegistries spec) ;;
  when (cp_Managed cp) (
    fail_when (Nat.ltb 0 (length (cp_ExtraVolumes cp)))
      ("spec.control_plane.extra_volumes: Invalid value " +:+ Q "extra_volumes" +:+
       ": unsupported, extra_volumes cannot be indicated") ;;
    validateAKSVersion spec creds subscription ;;
    validateAKSNodes (ks_WorkerNodes spec)) ;;
  when (negb (cp_Managed cp)) (
    check_azure_control_plane spec creds subscription ;;
    for_each check_azure_worker (ks_WorkerNodes spec)).
End azure.

(** ** The groups of a managed cluster that are accepted *)

(** What AKS wants of a group: its name has 1 to 8 lower case letters and digits. *)
Definition aks_node_ok (n : WorkerNode) : Prop :=
  Forall (λ b, in_rng 97 122 b || in_rng 48 57 b = true) (bytes (wn_Name n)) ∧
  (1 <= String.length (wn_Name n) <= 8)%nat ∧
  (rv_Type (wn_RootVolume n) = "" ∨ rv_Type (wn_RootVolume n) ∈ AzureAKSVolumes) ∧
  wn_ExtraVolumes n = [] ∧
  (is_system_pool n = true → ∀ m, wn_NodeGroupMinSize n = Some m →
     if isBalanced n then 3 <= m else 1 <= m).

Lemma aks_name_match s :
  MatchString aksNameRE s = true ↔
    s ≠ "" ∧ Forall (λ b, in_rng 97 122 b || in_rng 48 57 b = true) (bytes s).
Proof.
  assert (∀ u, rmatch aksNameRE u ↔ u ≠ [] ∧ Forall (λ b, in_rng 97 122 b || in_rng 48 57 b = true) u)
    as Hre.
  { intros u. unfold aksNameRE. rewrite rmatch_plus_set.
    assert (∀ b, cs_mem [rng "a" "z"; rng "0" "9"] b = in_rng 97 122 b || in_rng 48 57 b) as Hcs.
    { intros b. rewrite !cs_mem_cons. simpl. by rewrite orb_false_r. }
    by setoid_rewrite Hcs. }
  rewrite MatchString_spec. split.
  - intros Hm. rewrite runes_ascii in Hm.
    + apply Hre in Hm as [Hne Hf]. split; [by intros ->|done].
    + apply runes_all_ascii. by apply (re_below_spec 128) in Hm.
  - intros [Hne Hf]. rewrite runes_ascii.
    + apply Hre. split; [by destruct s|done].
    + eapply Forall_impl; [exact Hf|]. intros b. unfold in_rng. simpl. lia.
Qed.

Lemma check_aks_node_Ok n : check_aks_node n = Ok tt ↔ aks_node_ok n.
Proof.
  unfold check_aks_node, aks_node_ok, AKSMaxNodeNameLength.
  rewrite !bind_unit_Ok, !fail_when_Ok, andb_false_iff, orb_false_iff, !negb_false_iff.
  rewrite Z.leb_gt, aks_name_match, eqb_string_true, str_in_true, Nat.ltb_ge.
  assert ((length (wn_ExtraVolumes n) <= 0)%nat ↔ wn_ExtraVolumes n = []) as ->
    by (destruct (wn_ExtraVolumes n); simpl; split; [done|lia|lia|done]).
  assert (wn_Name n ≠ "" ↔ (1 <= String.length (wn_Name n))%nat) as ->
    by (destruct (wn_Name n); simpl; split; [done|lia|lia|done]).
  destruct (wn_NodeGroupMinSize n) as [m|].
  - rewrite when_Ok, fail_when_Ok, Z.ltb_ge. split.
    + intros (Hm & [[? ?] ?] & ? & ?). split_and!; try done; [lia|].
      intros Hs m' [= <-]. specialize (Hm Hs). by destruct (isBalanced n).
    + intros (? & ? & ? & ? & Hm). split_and!; try done; try lia.
      intros Hs. specialize (Hm Hs m eq_refl). by destruct (isBalanced n).
  - split; [intros (_ & [[? ?] ?] & ? & ?); split_and!; try done; lia|].
    intros (? & ? & ? & ? & _). split_and!; try done; lia.
Qed.

Lemma system_pool_count wns k :
  fold_left (λ k n, if is_system_pool n then S k else k) wns k =
    (k + length (filter (λ n, is_system_pool n = true) wns))%nat.
Proof.
  revert k. induction wns as [|n wns IH]; intros k; simpl; [lia|].
  rewrite IH, filter_cons. destruct (is_system_pool n); case_decide; simpl; try done; lia.
Qed.

(** The worker groups of an AKS cluster are accepted exactly when each has a
    name of 1 to 8 lower case letters and digits, a known root volume, no extra
    volume, and, when it is a system group, a minimum size of 3 (1 when it is not
    balanced); and some group is a system group. *)
Theorem validateAKSNodes_spec wns :
  validateAKSNodes wns = Ok tt ↔
    Forall aks_node_ok wns ∧ Exists (λ n, is_system_pool n = true) wns.
Proof.
  unfold validateAKSNodes. rewrite bind_unit_Ok, for_each_Ok, fail_when_Ok, system_pool_count.
  rewrite Nat.eqb_neq, Exists_exists, !Forall_forall. simpl.
  assert (length (filter (λ n, is_system_pool n = true) wns) ≠ 0%nat ↔
          ∃ n, n ∈ wns ∧ is_system_pool n = true) as ->.
  { rewrite length_zero_iff_nil. split.
    - intros Hne. destruct (filter _ wns) as [|n l] eqn:Hf; [done|].
      assert (n ∈ filter (λ n, is_system_pool n = true) wns) as Hin
        by (rewrite Hf; apply list_elem_of_here).
      apply list_elem_of_filter in Hin. exists n. tauto.
    - intros (n & Hin & Hs) Hnil. apply not_elem_of_nil with (x := n). rewrite <-Hnil.
      by apply list_elem_of_filter. }
  by setoid_rewrite check_aks_node_Ok.
Qed.
