(* ===== verification/ValidateGCP.v ===== *)
(** * Validation of a GCP descriptor: [pkg/cluster/internal/validate/gcp.go] *)

From S2P Require Import Prelude GoStr Regexp KeosTypes Descriptor ValidateUtils Aws ValidateCommon ValidateAWS ValidateAzure.
Local Open Scope Z_scope.
Local Open Scope go_scope.
Local Open Scope stdpp_scope.

(** ** The compute API *)

Record GcpSubnetwork := mkGcpSubnetwork { gsn_Name : string; gsn_Network : string }.

(** Items of the aggregated list are a map from a zone ([zones/ZONE]) to its machine
    types, of which the code looks at the number only. *)
Class GcpSdk := {
  GcpService : Type;
  NewService : gmap string string → res GcpService;
  RegionsList : GcpService → string → res (list string);
  NetworksList : GcpService → string → res (list string);
  SubnetworksList : GcpService → string → string → res (list GcpSubnetwork);
  ZonesList : GcpService → string → string → res (list string);
  MachineTypesAggregatedList : GcpService → string → string → res (gmap string nat)
}.

Definition GCPVolumes : list string := ["pd-balanced"; "pd-ssd"; "pd-standard"; "pd-extreme"].

Definition cs_word_dash : list (Z * Z) := cs_word ++ [chr "-"].
Definition cs_alnum_dash : list (Z * Z) := [rng "a" "z"; rng "A" "Z"; rng "0" "9"; chr "-"].

(** [^projects/[\w-]+/global/images/[\w-]+$] *)
Definition isGCPNodeImage : string → bool :=
  MatchString (RSeq [RLit "projects/"; RPlus (RSet cs_word_dash); RLit "/global/images/";
                     RPlus (RSet cs_word_dash)]).
Definition GCPNodeImageFormat : string := "projects/[PROJECT_ID]/global/images/[IMAGE_NAME]".

(** One to three digits, the prefix lengths 0 to 32, and the three private ranges. *)
Definition d13 : regex := RRange 1 3 (RSet cs_digit).
Definition prefixRE : regex :=
  RAny [RCat (RChar "3") (RSet [rng "0" "2"]); RCat (RSet [rng "1" "2"]) (RSet cs_digit);
        RSet [rng "0" "9"]].
Definition privateRE (mask : regex) : regex :=
  RAny [RSeq [RLit "10."; d13; RChar "."; d13; RChar "."; d13; RChar "/"; mask];
        RSeq [RLit "172."; RAny [RCat (RChar "1") (RSet [rng "6" "9"]);
                                 RCat (RChar "2") (RSet [rng "0" "9"]);
                                 RCat (RChar "3") (RSet [rng "0" "1"])];
              RChar "."; d13; RChar "."; d13; RChar "/"; mask];
        RSeq [RLit "192.168."; d13; RChar "."; d13; RChar "/"; mask]].

Definition GCPCPPrivatePattern : string :=
  "^(10\.\d{1,3}\.\d{1,3}\.\d{1,3}\/28)$|^(172\.(1[6-9]|2[0-9]|3[0-1])\.\d{1,3}\.\d{1,3}\/28)$|^(192\.168\.\d{1,3}\.\d{1,3}\/28)$".
Definition GCPPrivatePattern : string :=
  "^(10\.\d{1,3}\.\d{1,3}\.\d{1,3}\/(3[0-2]|[12]\d|[0-9]))$|^(172\.(1[6-9]|2[0-9]|3[0-1])\.\d{1,3}\.\d{1,3}\/(3[0-2]|[12]\d|[0-9]))$|^(192\.168\.\d{1,3}\.\d{1,3}\/(3[0-2]|[12]\d|[0-9]))$".
Definition GCPMANPattern : string :=
  "^(25[0-5]|2[0-4]\d|[01]?\d?\d)(\.(25[0-5]|2[0-4]\d|[01]?\d?\d)){3}\/(3[0-2]|[12]\d|[0-9])$".

Definition GCPControlPlaneCidrBlock : string → bool := MatchString (privateRE (RLit "28")).
Definition GCPPrivateCIDRBlock : string → bool := MatchString (privateRE prefixRE).

(** [25[0-5]|2[0-4]\d|[01]?\d?\d] *)
Definition octetRE : regex :=
  RAny [RCat (RLit "25") (RSet [rng "0" "5"]); RSeq [RChar "2"; RSet [rng "0" "4"]; RSet cs_digit];
        RSeq [ROpt (RSet [rng "0" "1"]); ROpt (RSet cs_digit); RSet cs_digit]].
Definition GCPMANCIDRBlock : string → bool :=
  MatchString (RSeq [octetRE; RRep 3 (RCat (RChar ".") octetRE); RChar "/"; prefixRE]).

Definition GCPPublicCIDRBlock (cidr : string) : bool :=
  negb (GCPPrivateCIDRBlock cidr) && GCPMANCIDRBlock cidr.

Definition GCPReleaseChannels : list string := ["unspecified"; "extended"].
Definition GCPScopesPattern : string := "^https:\/\/www\.googleapis\.com\/auth\/.*$".
Definition GCPScopes : string → bool :=
  MatchString (RCat (RLit "https://www.googleapis.com/auth/") (RStar (RSet cs_dot))).

(** [^projects/[a-zA-Z0-9-]+/locations/[a-zA-Z0-9-]+/keyRings/.../cryptoKeys/...$] *)
Definition isKeyValid : string → bool :=
  MatchString (RSeq [RLit "projects/"; RPlus (RSet cs_alnum_dash); RLit "/locations/";
    RPlus (RSet cs_alnum_dash); RLit "/keyRings/"; RPlus (RSet cs_alnum_dash); RLit "/cryptoKeys/";
    RPlus (RSet cs_alnum_dash)]).

(** ** Credentials *)

Definition hex_upper (n : Z) : ascii :=
  ascii_of_nat (Z.to_nat (if n <? 10 then 48 + n else 55 + n)).

(** [url.QueryEscape] *)
Fixpoint QueryEscape (s : string) : string :=
  match s with
  | "" => ""
  | String c s =>
      let n := byte_code c in
      if in_rng 97 122 n || in_rng 65 90 n || in_rng 48 57 n ||
         (n =? 45) || (n =? 95) || (n =? 46) || (n =? 126) then String c (QueryEscape s)
      else if n =? 32 then String "+" (QueryEscape s)
      else String "%" (String (hex_upper (n / 16)) (String (hex_upper (n mod 16)) (QueryEscape s)))
  end.

(** The JSON object of the service account.  The code writes it as text, takes that
    through base64 and back, and every reader decodes it into a map again; the
    model keeps the map. *)
Definition getGCPCreds (providerSecrets : gmap string string) : gmap string string :=
  list_to_map
    [("type", "service_account");
     ("project_id", map_get providerSecrets "ProjectID");
     ("private_key_id", map_get providerSecrets "PrivateKeyID");
     ("private_key", map_get providerSecrets "PrivateKey");
     ("client_email", map_get providerSecrets "ClientEmail");
     ("client_id", map_get providerSecrets "ClientID");
     ("auth_uri", "https://accounts.google.com/o/oauth2/auth");
     ("token_uri", "https://accounts.google.com/o/oauth2/token");
     ("auth_provider_x509_cert_url", "https://www.googleapis.com/oauth2/v1/certs");
     ("client_x509_cert_url", "https://www.googleapis.com/robot/v1/metadata/x509/" +:+
        QueryEscape (map_get providerSecrets "ClientEmail"))].

(** ** Storage class *)

(** [^kv(\s?,\s?kv)*$] with a key that starts with a letter. *)
Definition validateGCPLabel (l : string) : res unit :=
  let rest := [rng "a" "z"; rng "0" "9"; chr "_"; chr "-"] in
  fail_when (negb (MatchString
      (labelsRE (RCat (RSet [rng "a" "z"]) (RStar (RSet rest))) (RPlus (RSet rest))) l))
    "incorrect format. Must have the format 'key1=value1,key2=value2'".

Definition GCPFSTypes : list string := ["xfs"; "ext3"; "ext4"; "ext2"].
Definition GCPSCFields : list string :=
  ["Type"; "FsType"; "Labels"; "DiskEncryptionKmsKey"; "ProvisionedIopsOnCreate";
   "ProvisionedThroughputOnCreate"; "ReplicationType"].
Definition GCPYamlFields : list string :=
  ["type"; "fsType"; "labels"; "disk-encryption-kms-key"; "provisioned-iops-on-create";
   "provisioned-throughput-on-create"; "replication-type"].

(** [regexp.MustCompile(".[0-9]+$").Split(s, -1)[0]]: what comes before the digits at
    the end of [s] and the byte in front of them, all of [s] when it does not
    end so.  The text has no newline and one byte per character, as a Kubernetes
    version that has been validated. *)
Fixpoint before_last_number (s : string) : string :=
  match s with
  | "" => ""
  | String c t =>
      if all_chars is_digit t && negb (t =s "") then "" else String c (before_last_number t)
  end.

(** [strconv.ParseFloat] of digits with at most one dot, as a numerator and the
    number of decimals; 0 on the error of any other text, which the code drops. *)
Definition ParseFloat (s : string) : Z * Z :=
  match Split s "." with
  | [a] => match ParseUint a with Some n => (n, 0) | None => (0, 0) end
  | [a; b] =>
      match ParseUint (a +:+ b) with
      | Some n => (n, Z.of_nat (String.length b))
      | None => (0, 0)
      end
  | _ => (0, 0)
  end.

(** [version < 1.26] *)
Definition below_1_26 (v : Z * Z) : bool := fst v * 100 <? 126 * 10 ^ snd v.

Definition gke_version (k8s : string) : Z * Z :=
  ParseFloat (before_last_number (ReplaceAll k8s "v" "")).

Definition gcpKeyMsg (f : string) : string :=
  Q f +:+ ": it must have the format projects/[PROJECT_ID]/locations/[REGION]/keyRings/[RING_NAME]/cryptoKeys/[KEY_NAME]".

Definition validateGCPStorageClass (spec : KeosSpec) : res unit :=
  let sc := ks_StorageClass spec in
  let p := sc_Parameters sc in
  check_sc_fields sc GCPSCFields GCPYamlFields ;;
  fail_when ((scp_Type p <>s "") && negb (str_in (scp_Type p) GCPVolumes))
    (Q "type" +:+ ": unsupported " +:+ scp_Type p +:+ ", supported types: " +:+ Join GCPVolumes ", ") ;;
  when (sc_EncryptionKey sc <>s "") (
    fail_when (bool_decide (p ≠ zero_SCParameters))
      (Q "encryptionKey" +:+ ": cannot be set when " +:+ Q "parameters" +:+ " is set") ;;
    fail_when (negb (isKeyValid (sc_EncryptionKey sc))) (gcpKeyMsg "encryptionKey")) ;;
  when (scp_DiskEncryptionKmsKey p <>s "")
    (fail_when (negb (isKeyValid (scp_DiskEncryptionKmsKey p))) (gcpKeyMsg "disk-encryption-kms-key")) ;;
  fail_when ((scp_FsType p <>s "") && negb (str_in (scp_FsType p) GCPFSTypes))
    (fsType_msg (scp_FsType p) GCPFSTypes) ;;
  when (cp_Managed (ks_ControlPlane spec))
    (fail_when ((scp_Type p =s "pd-extreme") && below_1_26 (gke_version (ks_K8SVersion spec)))
      (Q "pd-extreme" +:+ ": is only supported in GKE 1.26 or later")) ;;
  when (scp_ProvisionedIopsOnCreate p <>s "") (
    fail_when (scp_Type p <>s "pd-extreme")
      (Q "provisioned-iops-on-create" +:+ ": is only supported for pd-extreme type") ;;
    fail_when (negb (opt_is_Some (Atoi (scp_ProvisionedIopsOnCreate p))))
      (Q "provisioned-iops-on-create" +:+ ": must be an integer")) ;;
  fail_when ((scp_ReplicationType p <>s "") &&
             negb (MatchString (RAlt (RLit "none") (RLit "regional-pd")) (scp_ReplicationType p)))
    (Q "replication-type" +:+ ": supported values are 'none' or 'regional-pd'") ;;
  when (scp_Labels p <>s "") (errors_Wrap "invalid labels" (validateGCPLabel (scp_Labels p))).

(** ** The managed control plane *)

(** The cluster network; the endpoint flag is dereferenced, and so is the
    configuration of the authorised networks when it is set. *)
Definition check_gcp_cluster_network (gcp : GCPCP) : res unit :=
  match gcp_ClusterNetwork gcp with
  | None => Err "spec.control_plane.gcp.cluster_network: is required"
  | Some cn =>
      match cn_PrivateCluster cn with
      | None => Err "spec.control_plane.gcp.cluster_network.private_cluster: is required"
      | Some pc =>
          fail_when (default false (pc_EnablePrivateEndpoint pc) && (pc_ControlPlaneCidrBlock pc =s ""))
            "ControlPlaneCidrBlock is required when EnablePrivateEndpoint is true" ;;
          fail_when ((pc_ControlPlaneCidrBlock pc <>s "") &&
                     negb (GCPControlPlaneCidrBlock (pc_ControlPlaneCidrBlock pc)))
            ("ControlPlaneCidrBlock invalid format." +:+ String (ascii_of_nat 10) "It must be a Private CIDR with format: " +:+
             GCPCPPrivatePattern) ;;
          endpoint ← deref (pc_EnablePrivateEndpoint pc);
          if (endpoint : bool) then
            man ← deref (gcp_MasterAuthorizedNetworksConfig gcp);
            public ← deref (man_GCPPublicCIDRsAccessEnabled man);
            fail_when public
              "Invalid value for 'master_authorized_networks_config': 'master_authorized_networks_config.gcp_public_cidrs_access_enabled' cannot be enabled if private endpoint is enabled"
          else Ok tt
      end
  end.

(** [*spec.ControlPlane.Gcp.ClusterNetwork.PrivateCluster.EnablePrivateEndpoint] *)
Definition private_endpoint (gcp : GCPCP) : res bool :=
  cn ← deref (gcp_ClusterNetwork gcp); pc ← deref (cn_PrivateCluster cn);
  deref (pc_EnablePrivateEndpoint pc).

Definition check_man_block (gcp : GCPCP) (public : bool) (block : CIDRBlock) : res unit :=
  let cidr := cb_CIDRBlock block in
  fail_when (cidr =s "") "CIDRBlock is required" ;;
  fail_when (negb (GCPMANCIDRBlock cidr) && negb (GCPPrivateCIDRBlock cidr))
    ("CIDRBlock invalid format." +:+ String (ascii_of_nat 10) "It must be a CIDR with format " +:+ GCPMANPattern +:+
     " or " +:+ GCPPrivatePattern) ;;
  when (negb public) (
    endpoint ← private_endpoint gcp;
    fail_when (endpoint && GCPPublicCIDRBlock cidr)
      ("Invalid master authorized networks: network " +:+ cidr +:+
       " is not a reserved network, which is required for private endpoints." +:+ String (ascii_of_nat 10)
       "Check if enable_private_endpoint is true (default) and gcp_public_cidrs_access_enabled is false (that could be the reason)")).

Definition check_gcp_man (gcp : GCPCP) : res unit :=
  match gcp_MasterAuthorizedNetworksConfig gcp with
  | Some (mkMasterAuthorizedNetworksConfig blocks (Some public)) =>
      for_each (check_man_block gcp public) blocks
  | _ => Err "If master_authorized_networks_config is provided, configuration must be set"
  end.

Definition check_gcp_observability (gcp : GCPCP) : res unit :=
  fail_when (negb (opt_is_Some (gcp_MonitoringConfig gcp)))
    "spec.control_plane.gcp.monitoring_config: 'If monitoring_config is provided, enable_managed_prometheus must be set'" ;;
  match gcp_LoggingConfig gcp with
  | None => Err "spec.control_plane.gcp.logging_config: 'If logging_config is provided, at least system_components or workloads must be set'"
  | Some log =>
      fail_when (negb (opt_is_Some (log_SystemComponents log)))
        "spec.control_plane.gcp.logging_config.system_components: 'if system_components is provided, it must be set'" ;;
      fail_when (negb (opt_is_Some (log_Workloads log)))
        "spec.control_plane.gcp.logging_config.workloads: 'if workloads is provided, it must be set'"
  end.

Definition check_ip_policy (p : IPAllocationPolicy) : res unit :=
  let cs := ipa_ClusterSecondaryRangeName p in
  let ss := ipa_ServicesSecondaryRangeName p in
  let cb := ipa_ClusterIpv4CidrBlock p in
  let sb := ipa_ServicesIpv4CidrBlock p in
  let pre := "spec.control_plane.gcp.ip_allocation_policy: '" in
  fail_when (((cs <>s "") && (ss <>s "")) && ((cb <>s "") || (sb <>s "")))
    (pre +:+ "if cluster_secondary_range_name and services_secondary_range_name are provided, cluster_ipv4_cidr_block and services_ipv4_cidr_block must not be set'") ;;
  fail_when (((cb <>s "") && (sb <>s "")) && ((cs <>s "") || (ss <>s "")))
    (pre +:+ "if cluster_ipv4_cidr_block and services_ipv4_cidr_block are provided, cluster_secondary_range_name and services_secondary_range_name must not be set'") ;;
  fail_when (((cs =s "") || (ss =s "")) && ((cb =s "") || (sb =s "")))
    (pre +:+ "either cluster_secondary_range_name and services_secondary_range_name or cluster_ipv4_cidr_block and services_ipv4_cidr_block must be set'").

(** The root volumes' keys; the source has this loop twice. *)
Definition check_gcp_cmek (wns : list WorkerNode) : res unit :=
  for_each (λ wn, when (rv_Encrypted (wn_RootVolume wn)) (
    fail_when (rv_EncryptionKey (wn_RootVolume wn) =s "")
      ("spec.control_plane.root_volume: " +:+ Q "encryption_key" +:+ ": is required when " +:+
       Q "encrypted" +:+ " is set to true") ;;
    fail_when (negb (isKeyValid (rv_EncryptionKey (wn_RootVolume wn))))
      ("spec.control_plane.root_volume: " +:+ gcpKeyMsg "encryption_key"))) wns.

(** The block on a managed control plane: [true] when it ends the validation, on an
    empty IP allocation policy. *)
Definition check_gcp_managed (spec : KeosSpec) : res bool :=
  let gcp := cp_Gcp (ks_ControlPlane spec) in
  for_each (λ scope, fail_when (negb (GCPScopes scope))
    ("spec.security.gcp.scopes: 'Invalid scope: " +:+ scope +:+ " must begin with " +:+ GCPScopesPattern))
    (secgcp_Scopes (sec_GCP (ks_Security spec))) ;;
  fail_when (negb (str_in (gcp_ReleaseChannel gcp) GCPReleaseChannels))
    ("spec.control_plane.gcp.release_channel: Invalid value: " +:+ gcp_ReleaseChannel gcp +:+
     " supported values are " +:+ Join GCPReleaseChannels ", ") ;;
  check_gcp_cluster_network gcp ;;
  check_gcp_man gcp ;;
  check_gcp_observability gcp ;;
  if bool_decide (gcp_IPAllocationPolicy gcp = zero_IPAllocationPolicy) then Ok true else
  check_ip_policy (gcp_IPAllocationPolicy gcp) ;;
  check_gcp_cmek (ks_WorkerNodes spec) ;;
  check_gcp_cmek (ks_WorkerNodes spec) ;;
  Ok false.

Section gcp.
Context `{GcpSdk}.
Implicit Types creds : gmap string string.

Definition getGCPRegions creds : res (list string) :=
  svc ← NewService creds; regions ← RegionsList svc (map_get creds "project_id");
  Ok (fold_left add_new regions []).

Definition getGoogleVPCs creds : res (list string) :=
  svc ← NewService creds; NetworksList svc (map_get creds "project_id").

(** The subnetworks whose network's last path element is the VPC. *)
Definition getGoogleSubnets creds (region vpcId : string) : res (list string) :=
  svc ← NewService creds;
  subnetworks ← SubnetworksList svc (map_get creds "project_id") region;
  Ok (map gsn_Name
    (List.filter (λ s, default "" (last (Split (gsn_Network s) "/")) =s vpcId) subnetworks)).

Definition getGoogleAZs creds (region : string) : res (list string) :=
  svc ← NewService creds; ZonesList svc (map_get creds "project_id") ("name=" +:+ region +:+ "*").

(** The map is ranged over in no fixed order; every failing entry gives the same
    error. *)
Definition validateGCPInstanceType (instanceType : string) creds (region : string) (azs : list string)
  (azWorker : string) : res unit :=
  svc ← NewService creds;
  let iterateAZs := if azWorker <>s "" then [azWorker] else azs in
  items ← MachineTypesAggregatedList svc (map_get creds "project_id")
    ("(zone eq " +:+ region +:+ ".*) (name eq " +:+ instanceType +:+ ")");
  for_each (λ iterateAZ, for_each (λ item,
    az ← index (Split (fst item) "/") 1;
    fail_when ((iterateAZ =s az) && Nat.eqb (snd item) 0)
      ("nonexistent instance type: " +:+ instanceType +:+ " in region " +:+ region))
    (map_to_list (items : gmap string nat))) iterateAZs.

Definition validateGCPNetwork (network : Networks) creds (region : string) : res unit :=
  (if net_VPCID network <>s "" then
     vpcs ← drop_err (getGoogleVPCs creds);
     fail_when (Nat.ltb 0 (length vpcs) && negb (str_in (net_VPCID network) vpcs))
       (Q "vpc_id" +:+ ": " +:+ net_VPCID network +:+ " does not exist") ;;
     fail_when (negb (Nat.eqb (length (net_Subnets network)) 1))
       (Q "subnet" +:+ ": when " +:+ Q "vpc_id" +:+ " is set, one subnet must be specified") ;;
     subnet ← index (net_Subnets network) 0;
     fail_when (sn_SubnetId subnet =s "") (Q "subnet_id" +:+ ": required") ;;
     subnets ← drop_err (getGoogleSubnets creds region (net_VPCID network));
     fail_when (negb (str_in (sn_SubnetId subnet) subnets))
       (Q "subnets" +:+ ": " +:+ sn_SubnetId subnet +:+ " does not belong to vpc with id: " +:+ net_VPCID network)
   else
     fail_when (Nat.ltb 0 (length (net_Subnets network)))
       (Q "vpc_id" +:+ ": is required when " +:+ Q "subnets" +:+ " is set")) ;;
  when (Nat.ltb 0 (length (net_Subnets network))) (
    fail_when (Nat.ltb 1 (length (net_Subnets network))) (Q "subnet" +:+ ": only one subnet is supported") ;;
    subnet ← index (net_Subnets network) 0;
    fail_when (sn_SubnetId subnet =s "") (Q "subnet_id" +:+ ": required")) ;;
  fail_when (net_VPCCIDRBlock network <>s "") (Q "vpc_cidr" +:+ ": is not supported").

Definition check_gcp_registries (managed : bool) (drs : list DockerRegistry) : res unit :=
  for_range (λ i dr,
    let pre := "spec.docker_registries[" +:+ Itoa (Z.of_nat i) +:+ "]: Invalid value: " +:+ Q "type" +:+ ": only " in
    let own := (dr_Type dr =s "gar") || (dr_Type dr =s "gcr") in
    fail_when (negb own && managed) (pre +:+ "'gar' and 'gcr' are supported in gcp managed clusters") ;;
    fail_when (negb own && (dr_Type dr <>s "generic"))
      (pre +:+ "'gar', 'gcr' and 'generic' are supported in gcp unmanaged clusters")) drs.

(** The volume types of a group of nodes. *)
Definition check_gcp_extra_volumes (grp : string) (evs : list ExtraVolume) : res unit :=
  for_range (λ i ev,
    errors_Wrap (grp +:+ ".extra_volumes[" +:+ Itoa (Z.of_nat i) +:+ "]: Invalid value: " +:+ Q "type")
      (validateVolumeType (ev_Type ev) GCPVolumes)) evs.

Definition check_gcp_unmanaged (spec : KeosSpec) creds (azs : list string) : res unit :=
  let cp := ks_ControlPlane spec in
  let volume grp f t := errors_Wrap (grp +:+ "." +:+ f +:+ ": Invalid value: " +:+ Q "type")
    (validateVolumeType t GCPVolumes) in
  fail_when ((cp_NodeImage cp =s "") || negb (isGCPNodeImage (cp_NodeImage cp)))
    ("spec.control_plane: Invalid value: " +:+ Q "node_image" +:+ ": is required and have the format " +:+ GCPNodeImageFormat) ;;
  or_err (validateGCPInstanceType (cp_Size cp) creds (ks_Region spec) azs "")
    ("spec.control_plane.size: " +:+ cp_Size cp +:+ " does not exist as a GCP instance types in region " +:+ ks_Region spec) ;;
  volume "spec.control_plane" "root_volume" (rv_Type (cp_RootVolume cp)) ;;
  volume "spec.control_plane" "cri_volume" (cv_Type (cp_CRIVolume cp)) ;;
  volume "spec.control_plane" "etcd_volume" (cv_Type (cp_ETCDVolume cp)) ;;
  check_gcp_extra_volumes "spec.control_plane" (cp_ExtraVolumes cp) ;;
  for_each (λ wn,
    let grp := "spec.worker_nodes." +:+ wn_Name wn in
    fail_when ((wn_NodeImage wn =s "") || negb (isGCPNodeImage (wn_NodeImage wn)))
      (grp +:+ ": " +:+ Q "node_image" +:+ ": is required and have the format " +:+ GCPNodeImageFormat) ;;
    volume grp "root_volume" (rv_Type (wn_RootVolume wn)) ;;
    volume grp "cri_volume" (cv_Type (wn_CRIVolume wn)) ;;
    check_gcp_extra_volumes grp (wn_ExtraVolumes wn)) (ks_WorkerNodes spec).

Definition check_gcp_worker_place (spec : KeosSpec) creds (azs : list string) (wn : WorkerNode) : res unit :=
  fail_when ((wn_AZ wn <>s "") && Nat.ltb 0 (length azs) && negb (str_in (wn_AZ wn) azs))
    (wn_AZ wn +:+ " does not exist in this region, azs: " +:+ Sprint_strs azs) ;;
  when (wn_Size wn <>s "")
    (or_err (validateGCPInstanceType (wn_Size wn) creds (ks_Region spec) azs (wn_AZ wn))
      ("spec.worker_nodes." +:+ wn_Name wn +:+ ".size: " +:+ wn_Size wn +:+
       " does not exist as a GCP instance types in region " +:+ ks_Region spec)).

Definition validateGCP (spec : KeosSpec) (providerSecrets : gmap string string) : res unit :=
  let managed := cp_Managed (ks_ControlPlane spec) in
  let creds := getGCPCreds providerSecrets in
  regions ← getGCPRegions creds;
  fail_when (negb (str_in (ks_Region spec) regions))
    ("spec.region: " +:+ ks_Region spec +:+ " region does not exist") ;;
  azs ← getGoogleAZs creds (ks_Region spec);
  when (bool_decide (ks_StorageClass spec ≠ zero_StorageClass))
    (errors_Wrap "spec.storageclass: Invalid value" (validateGCPStorageClass spec)) ;;
  when (bool_decide (ks_Networks spec ≠ zero_Networks))
    (errors_Wrap "spec.networks: Invalid value" (validateGCPNetwork (ks_Networks spec) creds (ks_Region spec))) ;;
  check_gcp_registries managed (ks_DockerRegistries spec) ;;
  when (negb managed) (check_gcp_unmanaged spec creds azs) ;;
  done ← (if managed then check_gcp_managed spec else Ok false);
  if (done : bool) then Ok tt
  else for_each (check_gcp_worker_place spec creds azs) (ks_WorkerNodes spec).
End gcp.

(** ** IP allocation policies *)

(** An IP allocation policy is accepted exactly when it gives both secondary
    range names and no CIDR block, or both CIDR blocks and no range name. *)
Theorem check_ip_policy_spec p :
  check_ip_policy p = Ok tt ↔
    (ipa_ClusterSecondaryRangeName p ≠ "" ∧ ipa_ServicesSecondaryRangeName p ≠ "" ∧
     ipa_ClusterIpv4CidrBlock p = "" ∧ ipa_ServicesIpv4CidrBlock p = "") ∨
    (ipa_ClusterSecondaryRangeName p = "" ∧ ipa_ServicesSecondaryRangeName p = "" ∧
     ipa_ClusterIpv4CidrBlock p ≠ "" ∧ ipa_ServicesIpv4CidrBlock p ≠ "").
Proof.
  unfold check_ip_policy. rewrite !bind_unit_Ok, !fail_when_Ok.
  destruct p as [? cs ss cb sb]; cbn [ipa_ClusterSecondaryRangeName ipa_ServicesSecondaryRangeName
    ipa_ClusterIpv4CidrBlock ipa_ServicesIpv4CidrBlock].
  destruct (String.eqb_spec cs ""), (String.eqb_spec ss ""), (String.eqb_spec cb ""),
    (String.eqb_spec sb ""); simpl; naive_solver.
Qed.

(** ** The master authorised networks *)

(** Authorised networks that are accepted are all public or private CIDR texts;
    with a private endpoint and no access for Google's public addresses, all are
    private. *)
Theorem check_gcp_man_sound gcp :
  check_gcp_man gcp = Ok tt →
  ∃ man public, gcp_MasterAuthorizedNetworksConfig gcp = Some man ∧
    man_GCPPublicCIDRsAccessEnabled man = Some public ∧
    Forall (λ b, GCPMANCIDRBlock (cb_CIDRBlock b) = true ∨ GCPPrivateCIDRBlock (cb_CIDRBlock b) = true)
      (man_CIDRBlocks man) ∧
    (public = false → private_endpoint gcp = Ok true →
     Forall (λ b, GCPPrivateCIDRBlock (cb_CIDRBlock b) = true) (man_CIDRBlocks man)).
Proof.
  unfold check_gcp_man. destruct (gcp_MasterAuthorizedNetworksConfig gcp) as [[blocks [public|]]|]; try done.
  rewrite for_each_Ok. intros Hb. exists (mkMasterAuthorizedNetworksConfig blocks (Some public)), public.
  rewrite Forall_forall in Hb. split_and!; [done|done| |]; simpl.
  - apply Forall_forall. intros b Hin. specialize (Hb b Hin). unfold check_man_block in Hb.
    rewrite !bind_unit_Ok, !fail_when_Ok, andb_false_iff, !negb_false_iff in Hb. tauto.
  - intros -> Hpe. apply Forall_forall. intros b Hin. specialize (Hb b Hin). unfold check_man_block in Hb.
    rewrite !bind_unit_Ok, !fail_when_Ok, when_Ok in Hb. destruct Hb as (_ & Hf & Hp).
    specialize (Hp eq_refl). rewrite Hpe in Hp. cbn [mbind res_bind] in Hp. apply fail_when_Ok in Hp.
    unfold GCPPublicCIDRBlock in Hp. apply andb_false_iff in Hf.
    destruct (GCPPrivateCIDRBlock (cb_CIDRBlock b)), (GCPMANCIDRBlock (cb_CIDRBlock b)); naive_solver.
Qed.

Definition demo_gcp : GCPCP :=
  mkGCPCP "extended" (Some (mkClusterNetwork (Some (mkPrivateCluster (Some true) "10.0.0.0/28"))))
    (Some (mkMasterAuthorizedNetworksConfig [mkCIDRBlock "10.1.0.0/16" "office"] (Some false)))
    (Some (mkMonitoringConfig (Some true))) (Some (mkLoggingConfig (Some true) (Some false)))
    "" zero_IPAllocationPolicy None.

Lemma check_gcp_man_sound_witness :
  check_gcp_man demo_gcp = Ok tt ∧ private_endpoint demo_gcp = Ok true ∧
  Forall (λ b, GCPPrivateCIDRBlock (cb_CIDRBlock b) = true) [mkCIDRBlock "10.1.0.0/16" "office"].
Proof.
  assert (check_gcp_man demo_gcp = Ok tt) as Hc by (vm_compute; reflexivity).
  split; [exact Hc|]. split; [reflexivity|].
  destruct (check_gcp_man_sound demo_gcp Hc) as (man & public & Hm & Hp & _ & Hf).
  injection Hm as <-. injection Hp as <-. exact (Hf eq_refl eq_refl).
Defined.

(** The control plane's block is matched by a text that is no CIDR block. *)
Example control_plane_cidr_lax : GCPControlPlaneCidrBlock "10.999.999.999/28" = true.
Proof. vm_compute. reflexivity. Qed.

(** ** The end of the validation on an empty IP allocation policy *)

Definition with_workers (spec : KeosSpec) (wns : list WorkerNode) : KeosSpec :=
  mkKeosSpec (ks_DeployAutoscaler spec) (ks_Bastion spec) (ks_StorageClass spec) (ks_Credentials spec)
    (ks_InfraProvider spec) (ks_K8SVersion spec) (ks_Region spec) (ks_Networks spec) (ks_Dns spec)
    (ks_DockerRegistries spec) (ks_HelmRepository spec) (ks_ExternalDomain spec) (ks_Security spec)
    (ks_Keos spec) (ks_ControlPlane spec) wns (ks_ClusterConfigRef spec) (ks_Calico spec).

Lemma check_gcp_managed_empty_policy spec wns :
  gcp_IPAllocationPolicy (cp_Gcp (ks_ControlPlane spec)) = zero_IPAllocationPolicy →
  check_gcp_managed (with_workers spec wns) = check_gcp_managed spec ∧
  check_gcp_managed spec ≠ Ok false.
Proof.
  intros Hip. unfold check_gcp_managed. simpl. rewrite Hip.
  split; [reflexivity|]. rewrite bool_decide_eq_true_2 by done.
  intros (_ & Hb)%bind_unit_Ok. repeat apply bind_unit_Ok in Hb as [_ Hb]. done.
Qed.

(** In a managed cluster without an IP allocation policy nothing of the worker
    nodes is validated for GCP: not their zone, their instance type nor the
    encryption key of their root volume. *)
Theorem validateGCP_ignores_workers `{GcpSdk} spec wns secrets :
  cp_Managed (ks_ControlPlane spec) = true →
  gcp_IPAllocationPolicy (cp_Gcp (ks_ControlPlane spec)) = zero_IPAllocationPolicy →
  validateGCP (with_workers spec wns) secrets = validateGCP spec secrets.
Proof.
  intros Hm Hip. destruct (check_gcp_managed_empty_policy spec wns Hip) as [Heq Hne].
  unfold validateGCP. cbn [with_workers ks_ControlPlane ks_Region ks_StorageClass ks_Networks
    ks_DockerRegistries ks_WorkerNodes]. rewrite Hm, Heq. cbn [negb when].
  change (validateGCPStorageClass (with_workers spec wns)) with (validateGCPStorageClass spec).
  by destruct (check_gcp_managed spec) as [[]| |].
Qed.

(** A project with one region, used by the witness. *)
Module DemoGcp.
#[export] Instance sdk : GcpSdk := {|
  GcpService := unit;
  NewService _ := Ok tt;
  RegionsList _ _ := Ok ["europe-west1"];
  NetworksList _ _ := Ok [];
  SubnetworksList _ _ _ := Ok [];
  ZonesList _ _ _ := Ok ["europe-west1-b"];
  MachineTypesAggregatedList _ _ _ := Ok ∅
|}.

Definition spec : KeosSpec :=
  mkKeosSpec false zero_Bastion zero_StorageClass zero_Credentials "gcp" "v1.32.0" "europe-west1"
    zero_Networks zero_Dns [] zero_HelmRepository "" zero_Security zero_Keos
    (mkControlPlane true "" None "" zero_RootVolume [] zero_AWSCP zero_AzureCP demo_gcp
       zero_CustomVolume zero_CustomVolume [])
    [] zero_ClusterConfigRef zero_Calico.
End DemoGcp.

Lemma validateGCP_ignores_workers_witness :
  validateGCP (H := DemoGcp.sdk) DemoGcp.spec ∅ = Ok tt ∧
  validateGCP (H := DemoGcp.sdk)
    (with_workers DemoGcp.spec [mkWorkerNode "w" "" "" (Some 3) "no-such-type" "" "mars-1" "" false ∅ ∅ []
       0 None (mkRootVolume 0 "" true "no-key") zero_CustomVolume []]) ∅ = Ok tt.
Proof.
  assert (validateGCP (H := DemoGcp.sdk) DemoGcp.spec ∅ = Ok tt) as Hv by (vm_compute; reflexivity).
  split; [exact Hv|].
  rewrite (validateGCP_ignores_workers (H := DemoGcp.sdk) DemoGcp.spec _ ∅ eq_refl eq_refl). exact Hv.
Defined.

(** ** Extreme disks and the GKE suffix of a version *)

Lemma strip_app c s t : strip c (s +:+ t) = strip c s +:+ strip c t.
Proof. induction s as [|a s IH]; simpl; [done|]. rewrite IH. by destruct (Ascii.eqb a c). Qed.

Lemma strip_all_chars f c s : all_chars f s = true → f c = false → strip c s = s.
Proof.
  intros Hs Hc. induction s as [|a s IH]; simpl in *; [done|].
  apply andb_true_iff in Hs as [Ha Hs]. rewrite IH by done.
  destruct (Ascii.eqb_spec a c); [congruence|done].
Qed.

Lemma before_last_number_app s c d :
  is_digit c = false → all_chars is_digit d = true → d ≠ "" → before_last_number (s +:+ String c d) = s.
Proof.
  intros Hc Hd Hne. induction s as [|a s IH]; cbn [String.append before_last_number].
  - by rewrite Hd, (proj2 (eqb_string_false _ _) Hne).
  - rewrite all_chars_app. cbn [all_chars]. by rewrite Hc, andb_false_r, IH.
Qed.

Lemma supported_minor m :
  m ∈ k8sVersionSupported → ∃ k, m = "1." +:+ k ∧ all_chars is_digit k = true ∧ below_1_26 (ParseFloat m) = false.
Proof.
  unfold k8sVersionSupported. rewrite !elem_of_cons, elem_of_nil.
  intros Hm. destruct_or? Hm; subst; [exists "32"|exists "33"|exists "34"|exists "35"]; done.
Qed.

Lemma gke_version_plain m p :
  m ∈ k8sVersionSupported → all_chars is_digit p = true → p ≠ "" →
  gke_version ("v" +:+ m +:+ "." +:+ p) = ParseFloat m.
Proof.
  intros (k & -> & Hk & _)%supported_minor Hp Hne. unfold gke_version. rewrite ReplaceAll_byte.
  rewrite !strip_app, (strip_all_chars is_digit "v" k), (strip_all_chars is_digit "v" p) by done.
  change (strip "v" "v" +:+ (strip "v" "1." +:+ k) +:+ strip "v" "." +:+ p)
    with (("1." +:+ k) +:+ String "." p).
  by rewrite before_last_number_app.
Qed.

Lemma gke_version_suffix m p d :
  m ∈ k8sVersionSupported → all_chars is_digit p = true → all_chars is_digit d = true → d ≠ "" →
  gke_version ("v" +:+ m +:+ "." +:+ p +:+ "-gke." +:+ d) = (0, 0).
Proof.
  intros (k & -> & Hk & _)%supported_minor Hp Hd Hne. unfold gke_version. rewrite ReplaceAll_byte.
  rewrite !strip_app, (strip_all_chars is_digit "v" k), (strip_all_chars is_digit "v" p),
    (strip_all_chars is_digit "v" d) by done.
  change (strip "v" "v" +:+ (strip "v" "1." +:+ k) +:+ strip "v" "." +:+ p +:+ strip "v" "-gke." +:+ d)
    with (("1." +:+ k) +:+ "." +:+ p +:+ "-gke" +:+ String "." d).
  replace (("1." +:+ k) +:+ "." +:+ p +:+ "-gke" +:+ String "." d)
    with ((Join ["1"; k; p +:+ "-gke"] ".") +:+ String "." d)
    by (cbn [Join]; by rewrite !string_app_assoc).
  rewrite before_last_number_app by done. unfold ParseFloat.
  rewrite Split_Join; [done|done|].
  assert (∀ s, all_chars is_digit s = true → ¬ char_in "." s) as Hnd
    by (intros s Hs; by apply (all_chars_not_in is_digit)).
  repeat apply Forall_cons_2; [by apply Hnd|by apply Hnd| |constructor].
  apply (all_chars_not_in (λ c, negb (Ascii.eqb c "."))); [|done].
  rewrite all_chars_app, andb_true_iff. split; [|done].
  eapply all_chars_impl; [|exact Hp]. intros c Hc. destruct (Ascii.eqb_spec c "."); [by subst|done].
Qed.

(** The type [pd-extreme], which is meant for GKE 1.26 and later, is refused for
    every managed cluster whose supported version has a GKE suffix: the minor
    version is then not read, and the error of reading it is dropped. *)
Theorem pd_extreme_refused_with_gke_suffix spec m p d :
  m ∈ k8sVersionSupported → all_chars is_digit p = true → all_chars is_digit d = true → d ≠ "" →
  ks_K8SVersion spec = "v" +:+ m +:+ "." +:+ p +:+ "-gke." +:+ d →
  cp_Managed (ks_ControlPlane spec) = true →
  scp_Type (sc_Parameters (ks_StorageClass spec)) = "pd-extreme" →
  validateGCPStorageClass spec ≠ Ok tt.
Proof.
  intros Hm Hp Hd Hne Hv Hman Ht Hok. unfold validateGCPStorageClass in Hok.
  rewrite !bind_unit_Ok, !when_Ok in Hok. destruct Hok as (_ & _ & _ & _ & _ & Hpd & _).
  specialize (Hpd Hman). apply fail_when_Ok in Hpd.
  by rewrite Ht, Hv, gke_version_suffix in Hpd.
Qed.

(** Without the suffix the version is read, and the check lets it pass. *)
Lemma pd_extreme_version_ok m p :
  m ∈ k8sVersionSupported → all_chars is_digit p = true → p ≠ "" →
  below_1_26 (gke_version ("v" +:+ m +:+ "." +:+ p)) = false.
Proof. intros Hm Hp Hne. rewrite gke_version_plain by done. by apply supported_minor in Hm as (? & _ & _ & ?). Qed.

Definition demo_gke_spec (version : string) : KeosSpec :=
  mkKeosSpec false zero_Bastion
    (mkStorageClass "" "" (mkSCParameters "pd-extreme" "" "" "" "" "" "" "" "" "" 0 "" "" "" "" "" "" "" "" ""
       "" "" "" "" "" "" "" "" "")) zero_Credentials "gcp" version "europe-west1"
    zero_Networks zero_Dns [] zero_HelmRepository "" zero_Security zero_Keos
    (ks_ControlPlane DemoGcp.spec) [] zero_ClusterConfigRef zero_Calico.

Lemma pd_extreme_refused_with_gke_suffix_witness :
  validateK8SVersion "v1.34.1-gke.1234" = Ok tt ∧
  validateGCPStorageClass (demo_gke_spec "v1.34.1-gke.1234") ≠ Ok tt ∧
  validateGCPStorageClass (demo_gke_spec "v1.34.1") = Ok tt.
Proof.
  split; [vm_compute; reflexivity|]. split; [|vm_compute; reflexivity].
  apply (pd_extreme_refused_with_gke_suffix _ "1.34" "1" "1234"); try reflexivity; [|discriminate].
  apply str_in_true. reflexivity.
Defined.

(** ** The defaults make the validation of a managed GCP cluster safe *)

Lemma check_gcp_cmek_no_panic wns : is_Panic (check_gcp_cmek wns) = false.
Proof. unfold check_gcp_cmek. no_panic. Qed.

Lemma private_endpoint_Init s : ∃ b, private_endpoint (cp_Gcp (ks_ControlPlane (Init s))) = Ok b.
Proof. unfold private_endpoint. simpl. by destruct (pc_EnablePrivateEndpoint _); eexists. Qed.

Lemma check_gcp_man_no_panic s : is_Panic (check_gcp_man (cp_Gcp (ks_ControlPlane (Init s)))) = false.
Proof.
  assert (is_Panic (private_endpoint (cp_Gcp (ks_ControlPlane (Init s)))) = false) as Hpe
    by (by destruct (private_endpoint_Init s) as [endpoint ->]).
  unfold check_gcp_man. repeat case_match; try done. no_panic.
Qed.

Lemma check_gcp_cluster_network_no_panic s :
  is_Panic (check_gcp_cluster_network (cp_Gcp (ks_ControlPlane (Init s)))) = false.
Proof.
  unfold check_gcp_cluster_network. simpl. unfold or_ptr.
  destruct (pc_EnablePrivateEndpoint _) as [[]|], (man_GCPPublicCIDRsAccessEnabled _); no_panic; done.
Qed.

(** The validation of a managed GCP control plane dereferences its optional
    settings without a check; with the defaults of [Init] none of these
    dereferences panics, whatever else the spec holds. *)
Theorem Init_gcp_no_panic s : is_Panic (check_gcp_managed (Init s)) = false.
Proof.
  pose proof (check_gcp_cluster_network_no_panic s). pose proof (check_gcp_man_no_panic s).
  pose proof (check_gcp_cmek_no_panic (ks_WorkerNodes (Init s))).
  assert (is_Panic (check_gcp_observability (cp_Gcp (ks_ControlPlane (Init s)))) = false)
    by (unfold check_gcp_observability; no_panic; case_match; no_panic; done).
  unfold check_gcp_managed. no_panic. case_bool_decide; [done|]. unfold check_ip_policy. no_panic; done.
Qed.

(** Without them it does: a private cluster that leaves its endpoint out. *)
Example gcp_panics_without_Init :
  is_Panic (check_gcp_cluster_network
    (mkGCPCP "extended" (Some (mkClusterNetwork (Some zero_PrivateCluster))) None None None ""
       zero_IPAllocationPolicy None)) = true.
Proof. reflexivity. Qed.
