(* ===== verification/Validate.v ===== *)
(** * Validation of a cluster: [pkg/cluster/internal/validate/validate.go]

    The credentials, the checks common to the clouds, then those of the
    provider. *)

From S2P Require Import Prelude GoStr Regexp KeosTypes Descriptor NetIP ValidateUtils Secrets Aws ValidateCommon ValidateAWS ValidateAzure ValidateGCP.
Local Open Scope Z_scope.
Local Open Scope go_scope.
Local Open Scope stdpp_scope.

(** [vp_SecretsStat] is what [os.Stat] answers on the secrets path. *)
Record ValidateParams := mkValidateParams {
  vp_KeosCluster : KeosCluster;
  vp_ClusterConfig : option ClusterConfig;
  vp_SecretsPath : string;
  vp_VaultPassword : string;
  vp_SecretsStat : bool
}.

Section cluster.
Context `{ReflectLib, VaultLib, GoCidr, AwsSdk, AzureSdk, GcpSdk}.

Definition validateProvider (params : ValidateParams) (creds : ClusterCredentials) : res unit :=
  let spec := kc_Spec (vp_KeosCluster params) in
  let secrets := clc_ProviderCredentials creds in
  if ks_InfraProvider spec =s "aws" then validateAWS spec secrets
  else if ks_InfraProvider spec =s "gcp" then validateGCP spec secrets
  else if ks_InfraProvider spec =s "azure" then
    validateAzure spec secrets (md_Name (kc_Metadata (vp_KeosCluster params)))
  else Ok tt.

Definition Cluster (params : ValidateParams) : res ClusterCredentials :=
  let spec := kc_Spec (vp_KeosCluster params) in
  creds ← validateCredentials (vp_SecretsStat params) (vp_SecretsPath params) (vp_VaultPassword params) spec;
  let clusterConfigSpec :=
    match vp_ClusterConfig params with Some cc => cc_Spec cc | None => zero_ClusterConfigSpec end in
  validateCommon spec clusterConfigSpec ;;
  validateProvider params creds ;;
  Ok creds.

(** A cluster that is accepted has a registry: the unchecked index of
    [validateAzure] is in range. *)
Lemma keos_registries_nonempty l : keos_registries l = 1%nat → l ≠ [].
Proof. by intros Hk ->. Qed.

(** Each step of the validation passed, with the credentials that are returned. *)
Lemma Cluster_Ok params creds :
  Cluster params = Ok creds ↔
    let spec := kc_Spec (vp_KeosCluster params) in
    validateCredentials (vp_SecretsStat params) (vp_SecretsPath params) (vp_VaultPassword params) spec = Ok creds ∧
    validateCommon spec (match vp_ClusterConfig params with Some cc => cc_Spec cc | None => zero_ClusterConfigSpec end) = Ok tt ∧
    validateProvider params creds = Ok tt.
Proof.
  unfold Cluster. rewrite bind_Ok_iff. cbv zeta. split.
  - intros (c & Hc & [Hcm Hk]%bind_unit_Ok). apply bind_unit_Ok in Hk as [Hp [= ->]]. done.
  - intros (Hc & Hcm & Hp). exists creds. split; [done|]. apply bind_unit_Ok. split; [done|].
    apply bind_unit_Ok. done.
Qed.
End cluster.
