(* ===== verification/Commons.v ===== *)
(** * Shared helpers: [pkg/commons/utils.go]

    The encrypted secrets file, the removal of the credentials from the
    descriptor, and the execution of a command on a node with retries. *)

From S2P Require Import Prelude GoStr Regexp KeosTypes Descriptor ValidateUtils Secrets.
Local Open Scope Z_scope.
Local Open Scope go_scope.
Local Open Scope stdpp_scope.

(** ** The secrets file *)

Definition convertStringMapToInterfaceMap (m : gmap string string) : gmap string value := VStr <$> m.

Definition snake_value (m : gmap string string) : value :=
  VMap (ConvertMapKeysToSnakeCase (convertStringMapToInterfaceMap m)).

Definition registries_value (l : list (gmap string value)) : value :=
  VList (VMap <$> (ConvertMapKeysToSnakeCase <$> l)).

Definition credentials_value (m : gmap string string) : value :=
  VMap {["credentials" := snake_value m]}.

(** [credentials["region"] = spec.Region] on managed clusters and on GCP. *)
Definition provider_creds (spec : KeosSpec) (cc : ClusterCredentials) : gmap string string :=
  let m := clc_ProviderCredentials cc in
  if (ks_InfraProvider spec =s "gcp") || cp_Managed (ks_ControlPlane spec)
  then <["region" := ks_Region spec]> m else m.

Definition nonempty {A} (m : gmap string A) : bool := negb (Nat.eqb (size m) 0).

(** An entry of the map when the condition holds. *)
Definition put_if (b : bool) (k : string) (v : value) (m : gmap string value) : gmap string value :=
  if b then <[k := v]> m else m.

(** The content of a file that is created; a blank role is left out of it. *)
Definition new_secrets (spec : KeosSpec) (cc : ClusterCredentials) : gmap string value :=
  let credentials := provider_creds spec cc in
  let credentials' := match credentials !! "RoleARN" with
                      | Some v => if is_blank v then delete "RoleARN" credentials else credentials
                      | None => credentials end in
  put_if (nonempty (clc_HelmRepositoryCredentials cc)) "helm_repository"
    (snake_value (clc_HelmRepositoryCredentials cc))
  (put_if (Nat.ltb 0 (length (clc_DockerRegistriesCredentials cc))) "docker_registries"
    (registries_value (clc_DockerRegistriesCredentials cc))
  (put_if (nonempty (clc_KeosRegistryCredentials cc)) "docker_registry"
    (snake_value (clc_KeosRegistryCredentials cc))
  (put_if (nonempty credentials) (ks_InfraProvider spec) (credentials_value credentials')
  (put_if (clc_GithubToken cc <>s "") "github_token" (VStr (clc_GithubToken cc)) ∅)))).

(** A [map[string]interface{}] that may be nil: reading a nil map gives nil, writing
    to it panics. *)
Abbreviation secrets_map := (option (gmap string value)).

Definition is_nil (m : secrets_map) (k : string) : bool :=
  match m with
  | None => true
  | Some m => match m !! k with None | Some VNil => true | _ => false end
  end.

Definition put (m : secrets_map) (k : string) (v : value) : res secrets_map :=
  match m with
  | None => Panic "assignment to entry in nil map"
  | Some m => Ok (Some (<[k := v]> m))
  end.

(** [if m[k] == nil && b { edited = true; m[at] = v }] *)
Definition add_missing (k : string) (b : bool) (at_ : string) (v : value) (st : secrets_map * bool)
  : res (secrets_map * bool) :=
  let '(m, edited) := st in
  if is_nil m k && b then m ← put m at_ v; Ok (m, true) else Ok (m, edited).

(** The changes to a file that exists. *)
Definition updated_secrets (spec : KeosSpec) (cc : ClusterCredentials) (m : secrets_map)
  : res (secrets_map * bool) :=
  let credentials := provider_creds spec cc in
  st ← add_missing (ks_InfraProvider spec) (nonempty credentials) (ks_InfraProvider spec)
         (credentials_value credentials) (m, false);
  st ← add_missing "docker_registry" (nonempty (clc_KeosRegistryCredentials cc)) "docker_registry"
         (snake_value (clc_KeosRegistryCredentials cc)) st;
  st ← add_missing "helm_repository" (nonempty (clc_HelmRepositoryCredentials cc)) "docker_registry"
         (snake_value (clc_HelmRepositoryCredentials cc)) st;
  st ← add_missing "github_token" (clc_GithubToken cc <>s "") "github_token"
         (VStr (clc_GithubToken cc)) st;
  add_missing "docker_registries" (Nat.ltb 0 (length (clc_DockerRegistriesCredentials cc)))
    "docker_registries" (registries_value (clc_DockerRegistriesCredentials cc)) st.

(** The vault and the YAML of the secrets: [decrypt] reads the file, [unmarshal] its
    text; the files are maps of maps. *)
Section ensure.
Context (decrypt : res string) (unmarshal : string → res (gmap string (gmap string value))).

(** What is encrypted into the file, if anything. *)
Definition EnsureSecretsFile (exists_ : bool) (spec : KeosSpec) (cc : ClusterCredentials)
  : res (option (gmap string (gmap string value))) :=
  if negb exists_ then Ok (Some {["secrets" := new_secrets spec cc]}) else
  secretRaw ← decrypt;
  secretMap ← unmarshal secretRaw;
  '(m, edited) ← updated_secrets spec cc (secretMap !! "secrets");
  Ok (if (edited : bool) then
        Some (match m with Some m => <["secrets" := m]> secretMap | None => secretMap end)
      else None).
End ensure.

(** ** Removing a key from a YAML tree *)

Inductive ykind := DocumentNode | SequenceNode | MappingNode | ScalarNode | AliasNode.
Inductive ynode := YNode (kind : ykind) (val : string) (content : list ynode).

Definition node_value (n : ynode) : string := match n with YNode _ v _ => v end.

(** The pairs of a mapping whose key is not [key], both nodes mapped by [f]. *)
Section pairs.
Context (f : ynode → ynode) (g : ynode → bool) (key : string).
Fixpoint map_pairs (l : list ynode) : list ynode :=
  match l with
  | k :: w :: l => if node_value k =s key then map_pairs l else f k :: f w :: map_pairs l
  | [k] => [f k]
  | [] => []
  end.

(** Some pair has the key, or some node satisfies [g]. *)
Fixpoint any_pairs (l : list ynode) : bool :=
  match l with
  | k :: w :: l => (node_value k =s key) || g k || g w || any_pairs l
  | [k] => g k
  | [] => false
  end.
End pairs.

(** Of a mapping the pairs with the key go, and the rest is searched; of a sequence
    every element is.  (The source deletes the pairs first and then searches what
    is left of the content.) *)
Fixpoint remove_node (key : string) (n : ynode) : ynode :=
  match n with
  | YNode MappingNode v content => YNode MappingNode v (map_pairs (remove_node key) key content)
  | YNode SequenceNode v content => YNode SequenceNode v (map (remove_node key) content)
  | n => n
  end.

(** The key is in a mapping that the search reaches. *)
Fixpoint has_key (key : string) (n : ynode) : bool :=
  match n with
  | YNode MappingNode _ content => any_pairs (has_key key) key content
  | YNode SequenceNode _ content => existsb (has_key key) content
  | _ => false
  end.

Definition removeKey (nodes : list ynode) (key : string) : list ynode := map (remove_node key) nodes.

(** ** The descriptor without its credentials *)

Section rewrite.
Context (unmarshal : string → res ynode) (marshal : ynode → res string).

(** The last manifest with the text [kind: KeosCluster]. *)
Fixpoint last_keos (i : nat) (found : option nat) (ms : list string) : option nat :=
  match ms with
  | [] => found
  | m :: ms => last_keos (S i) (if Contains m "kind: KeosCluster" then Some i else found) ms
  end.

(** What is written back.  An error of reading the file is not looked at: the text is
    then empty. *)
Definition RewriteDescriptorFile (raw : res string) : res string :=
  let descriptorRAW := match raw with Ok s => s | _ => "" end in
  let manifests := Split descriptorRAW yaml_separator in
  match last_keos 0 None manifests with
  | None => Err "KeosCluster manifest not found."
  | Some i =>
      manifest ← index manifests i;
      data ← unmarshal manifest;
      let '(YNode _ _ content) := data in
      root ← index (removeKey content "credentials") 0;
      b ← marshal root;
      Ok (Join (take i manifests ++ [b] ++ drop (S i) manifests) yaml_separator)
  end.
End rewrite.

(** ** Commands on a node *)

(** What an attempt to run the command gives: its output and whether it failed. *)
Record attempt := mkAttempt { at_output : string; at_error : option string }.

Definition retryConditions : list regex :=
  [RLit "dial tcp"; RLit "NotFound"; RLit "timed out waiting";
   RSeq [RLit "failed calling webhook"; RStar (RSet cs_dot); RLit "timeout"; RStar (RSet cs_dot)];
   RSeq [RLit "etcdserver:"; RStar (RSet cs_dot); RLit "timed out"]; RLit "etcdserver: leader changed"].

Definition should_retry (command : string) (a : attempt) : bool :=
  let provision := Contains command "kubectl" || Contains command "helm" || Contains command "clusterctl" in
  opt_is_Some (at_error a) && provision &&
  existsb (λ r, SearchString r (at_output a)) retryConditions.

(** [run i] is the [i]-th attempt; the result is the last attempt made, and how many
    were. *)
Fixpoint attempts (command : string) (run : nat → attempt) (i retries : nat) (last : attempt) : attempt * nat :=
  match retries with
  | O => (last, i)
  | S retries =>
      let a := run i in
      if should_retry command a then attempts command run (S i) retries a else (a, S i)
  end.

Definition ExecuteCommand (command : string) (run : nat → attempt) (retries : nat) : res string :=
  let a := fst (attempts command run 0 retries (mkAttempt "" None)) in
  if Contains (at_output a) "Error:" || Contains (at_output a) "Error from server"
  then Err ("Command Output: " +:+ at_output a)
  else match at_error a with Some e => Err e | None => Ok (at_output a) end.

(** ** What happens to an existing secrets file *)

(** Whether an entry is there, and not null. *)
Definition present (m : secrets_map) (k : string) : Prop := is_nil m k = false.

Definition entry (m : secrets_map) (k : string) : option value := m ≫= λ m, m !! k.

Lemma present_entry m k : present m k ↔ ∃ v, entry m k = Some v ∧ v ≠ VNil.
Proof.
  unfold present, entry, is_nil. destruct m as [m|]; simpl; [|naive_solver].
  destruct (m !! k) as [[]|]; naive_solver.
Qed.

(** A step that puts an entry where it looks for it keeps what is there. *)
Lemma add_missing_keeps k b v st st' k' :
  add_missing k b k v st = Ok st' → present (fst st) k' →
  entry (fst st') k' = entry (fst st) k' ∧ present (fst st') k'.
Proof.
  destruct st as [m edited]. unfold add_missing. simpl. intros Hs Hk.
  destruct (is_nil m k && b) eqn:Hc; [|by injection Hs as <-].
  apply andb_true_iff in Hc as [Hn _]. apply bind_Ok_iff in Hs as (m' & Hp & [= <-]). simpl.
  destruct m as [m|]; [|done]. injection Hp as <-.
  assert (k ≠ k') as Hne by (intros ->; unfold present in Hk; congruence).
  unfold entry, present, is_nil in *. simpl. by rewrite lookup_insert_ne.
Qed.

Lemma add_missing_skip k at_ v st : add_missing k false at_ v st = Ok st.
Proof. destruct st as [m e]. unfold add_missing. by rewrite andb_false_r. Qed.

Section ensure_facts.
Context (decrypt : res string) (unmarshal : string → res (gmap string (gmap string value))).

Lemma EnsureSecretsFile_Ok spec cc raw m r :
  decrypt = Ok raw → unmarshal raw = Ok m →
  EnsureSecretsFile decrypt unmarshal true spec cc = Ok r →
  ∃ m' edited, updated_secrets spec cc (m !! "secrets") = Ok (m', edited) ∧
    (r = Some (match m' with Some s => <["secrets" := s]> m | None => m end) ∧ edited = true ∨
     r = None ∧ edited = false).
Proof.
  intros Hd Hu. unfold EnsureSecretsFile. rewrite Hd. cbn [negb mbind res_bind]. rewrite Hu.
  cbn [mbind res_bind]. intros ([m' edited] & Hs & Hr)%bind_Ok_iff. injection Hr as <-.
  exists m', edited. split; [done|]. destruct edited; auto.
Qed.

(** Without Helm credentials, what an existing secrets file holds is kept: every
    entry that is not null is in the file that is written, unchanged. *)
Theorem EnsureSecretsFile_keeps spec cc raw m out k v :
  decrypt = Ok raw → unmarshal raw = Ok m → clc_HelmRepositoryCredentials cc = ∅ →
  EnsureSecretsFile decrypt unmarshal true spec cc = Ok (Some out) →
  entry (m !! "secrets") k = Some v → v ≠ VNil →
  entry (out !! "secrets") k = Some v ∧ ∀ s, s ≠ "secrets" → out !! s = m !! s.
Proof.
  intros Hd Hu Hh Hr Hk Hv. destruct (EnsureSecretsFile_Ok _ _ _ _ _ Hd Hu Hr) as (m' & e & Hs & Hout).
  destruct Hout as [[[= ->] ->]|[? _]]; [|done].
  assert (present (m !! "secrets") k) as Hp by (apply present_entry; eauto).
  unfold updated_secrets in Hs. rewrite Hh in Hs.
  apply bind_Ok_iff in Hs as (st1 & H1 & Hs). apply bind_Ok_iff in Hs as (st2 & H2 & Hs).
  change (nonempty (∅ : gmap string string)) with false in Hs. rewrite add_missing_skip in Hs.
  cbn [mbind res_bind] in Hs. apply bind_Ok_iff in Hs as (st3 & H3 & H4).
  destruct (add_missing_keeps _ _ _ _ _ k H1 Hp) as [E1 P1].
  destruct (add_missing_keeps _ _ _ _ _ k H2 P1) as [E2 P2].
  destruct (add_missing_keeps _ _ _ _ _ k H3 P2) as [E3 P3].
  destruct (add_missing_keeps _ _ _ _ _ k H4 P3) as [E4 _]. simpl in *.
  assert (entry m' k = Some v) as He by congruence.
  destruct m' as [s'|]; [|done]. split; [by rewrite lookup_insert_eq|].
  intros s Hne. by rewrite lookup_insert_ne.
Qed.

(** The steps that do not name an entry leave it as it is. *)
Lemma add_missing_other k b at_ v st st' k' :
  add_missing k b at_ v st = Ok st' → at_ ≠ k' → entry (fst st') k' = entry (fst st) k'.
Proof.
  destruct st as [m edited]. unfold add_missing. intros Hs Hne.
  destruct (is_nil m k && b); [|by injection Hs as <-].
  apply bind_Ok_iff in Hs as (m' & Hp & [= <-]). simpl.
  destruct m as [m|]; [|done]. injection Hp as <-. unfold entry. simpl. by rewrite lookup_insert_ne.
Qed.

Lemma is_nil_entry m m' k : entry m k = entry m' k → is_nil m k = is_nil m' k.
Proof. unfold entry, is_nil. destruct m, m'; simpl; intros Heq; rewrite ?Heq; try done. by rewrite <-Heq. Qed.

(** Helm credentials that an existing secrets file does not have yet are written
    in the place of the registry credentials, which are lost, and the file still
    has none for Helm. *)
Theorem EnsureSecretsFile_helm_lost spec cc raw m out :
  decrypt = Ok raw → unmarshal raw = Ok m → ks_InfraProvider spec ∈ ["aws"; "gcp"; "azure"] →
  clc_HelmRepositoryCredentials cc ≠ ∅ → is_nil (m !! "secrets") "helm_repository" = true →
  EnsureSecretsFile decrypt unmarshal true spec cc = Ok out →
  ∃ file, out = Some file ∧
    entry (file !! "secrets") "docker_registry" = Some (snake_value (clc_HelmRepositoryCredentials cc)) ∧
    is_nil (file !! "secrets") "helm_repository" = true.
Proof.
  intros Hd Hu Hprov Hh Hn Hr. destruct (EnsureSecretsFile_Ok _ _ _ _ _ Hd Hu Hr) as (m' & e & Hs & Hout).
  assert (∀ k, k ∈ ["helm_repository"; "docker_registry"] → ks_InfraProvider spec ≠ k) as Hpk.
  { intros k Hk Heq. rewrite Heq in Hprov. rewrite !elem_of_cons, !elem_of_nil in *.
    destruct_or? Hk; destruct_or?; subst; done. }
  assert (nonempty (clc_HelmRepositoryCredentials cc) = true) as Hne.
  { unfold nonempty. apply negb_true_iff, Nat.eqb_neq. intros ?%map_size_empty_inv. done. }
  unfold updated_secrets in Hs. apply bind_Ok_iff in Hs as (st1 & H1 & Hs).
  apply bind_Ok_iff in Hs as (st2 & H2 & Hs). apply bind_Ok_iff in Hs as (st3 & H3 & Hs).
  apply bind_Ok_iff in Hs as (st4 & H4 & H5).
  assert (is_nil (fst st2) "helm_repository" = true) as Hn2.
  { transitivity (is_nil (m !! "secrets") "helm_repository"); [|done]. apply is_nil_entry. rewrite (add_missing_other _ _ _ _ _ _ _ H2) by done.
    rewrite (add_missing_other _ _ _ _ _ _ _ H1); [done|]. apply Hpk. rewrite elem_of_cons. by left. }
  destruct st2 as [m2 e2]. unfold add_missing in H3. simpl in Hn2. rewrite Hn2, Hne in H3. simpl in H3.
  apply bind_Ok_iff in H3 as (m3 & Hput & [= <-]). destruct m2 as [m2|]; [|done]. injection Hput as <-.
  assert (∀ k, k = "docker_registry" ∨ k = "helm_repository" →
    entry m' k = entry (Some (<["docker_registry" := snake_value (clc_HelmRepositoryCredentials cc)]> m2)) k) as Hm'.
  { intros k Hk.
    pose proof (add_missing_other _ _ _ _ _ _ k H5 ltac:(by destruct Hk as [-> | ->])) as E5.
    pose proof (add_missing_other _ _ _ _ _ _ k H4 ltac:(by destruct Hk as [-> | ->])) as E4.
    simpl in E4, E5. by rewrite E5, E4. }
  assert (e = true) as ->.
  { unfold add_missing in H4, H5. destruct st4 as [m4 e4].
    assert (e4 = true) as -> by (destruct (is_nil _ _ && _); [by apply bind_Ok_iff in H4 as (? & _ & [= _ <-])|by injection H4]).
    destruct (is_nil m4 _ && _); [by apply bind_Ok_iff in H5 as (? & _ & [= _ <-])|by injection H5]. }
  destruct Hout as [[-> _]|[_ ?]]; [|done]. eexists. split; [done|].
  pose proof (Hm' "docker_registry" (or_introl eq_refl)) as Hdr.
  unfold entry in Hdr. simpl in Hdr. rewrite lookup_insert_eq in Hdr.
  destruct m' as [s'|]; [|done]. rewrite lookup_insert_eq. split; [done|].
  transitivity (is_nil (Some m2) "helm_repository"); [|done]. apply is_nil_entry.
  rewrite (Hm' "helm_repository") by auto. unfold entry. simpl. by rewrite lookup_insert_ne.
Qed.
End ensure_facts.

(** ** Witnesses for the secrets file *)

Module DemoSecrets.
Definition cc : ClusterCredentials :=
  mkClusterCredentials {["AccessKey" := "a"]} {["URL" := "r.io"]} [] {["URL" := "h.io"]} "".
Definition cc_no_helm : ClusterCredentials :=
  mkClusterCredentials {["AccessKey" := "a"]} {["URL" := "r.io"]} [] ∅ "".
Definition file : gmap string (gmap string value) := {["secrets" := {["aws" := VStr "old"]}]}.
Definition ensure (cc : ClusterCredentials) : res (option (gmap string (gmap string value))) :=
  EnsureSecretsFile (Ok "raw") (λ _, Ok file) true DemoReflect.aws cc.
Definition result (cc : ClusterCredentials) : gmap string (gmap string value) :=
  match ensure cc with Ok (Some r) => r | _ => ∅ end.
Lemma result_helm : ensure cc = Ok (Some (result cc)).
Proof. vm_compute. reflexivity. Qed.
Lemma result_no_helm : ensure cc_no_helm = Ok (Some (result cc_no_helm)).
Proof. vm_compute. reflexivity. Qed.
End DemoSecrets.

Lemma EnsureSecretsFile_keeps_witness :
  entry (DemoSecrets.result DemoSecrets.cc_no_helm !! "secrets") "aws" = Some (VStr "old").
Proof.
  refine (proj1 (EnsureSecretsFile_keeps (Ok "raw") (λ _, Ok DemoSecrets.file) DemoReflect.aws
    DemoSecrets.cc_no_helm "raw" DemoSecrets.file _ "aws" (VStr "old") eq_refl eq_refl eq_refl
    DemoSecrets.result_no_helm eq_refl _)).
  discriminate.
Defined.

Lemma EnsureSecretsFile_helm_lost_witness :
  ∃ file, Some (DemoSecrets.result DemoSecrets.cc) = Some file ∧
    entry (file !! "secrets") "docker_registry" = Some (snake_value {["URL" := "h.io"]}) ∧
    is_nil (file !! "secrets") "helm_repository" = true.
Proof.
  refine (EnsureSecretsFile_helm_lost (Ok "raw") (λ _, Ok DemoSecrets.file) DemoReflect.aws
    DemoSecrets.cc "raw" DemoSecrets.file _ eq_refl eq_refl _ _ eq_refl DemoSecrets.result_helm).
  - apply list_elem_of_here.
  - discriminate.
Defined.

(** ** The key is gone from the tree *)

Section ynode_ind.
Context (Q : ynode → Prop) (HQ : ∀ k v content, Forall Q content → Q (YNode k v content)).
Fixpoint ynode_forall_ind (n : ynode) : Q n :=
  match n with
  | YNode k v content =>
      HQ k v content ((fix go l : Forall Q l :=
        match l with [] => Forall_nil_2 Q | n :: l => Forall_cons_2 Q n l (ynode_forall_ind n) (go l) end) content)
  end.
End ynode_ind.

Lemma pairs_ind {A} (Q : list A → Prop) :
  Q [] → (∀ x, Q [x]) → (∀ x y l, Q l → Q (x :: y :: l)) → ∀ l, Q l.
Proof.
  intros H0 H1 H2. fix IH 1. intros [|x [|y l]]; [done|done|]. by apply H2.
Qed.

Lemma node_value_remove key n : node_value (remove_node key n) = node_value n.
Proof. by destruct n as [[] ? ?]. Qed.

Lemma remove_node_clean key n : has_key key (remove_node key n) = false.
Proof.
  induction n as [k v content IH] using ynode_forall_ind.
  destruct k; simpl; try done.
  - induction IH as [|n l Hn _ IHl]; simpl; [done|]. by rewrite Hn, IHl.
  - revert IH. induction content as [|n|n w l IHl] using pairs_ind; intros IH; simpl; [done| |].
    + by apply Forall_cons in IH as [Hn _].
    + apply Forall_cons in IH as [Hn IH]. apply Forall_cons in IH as [Hw IH].
      destruct (String.eqb_spec (node_value n) key) as [|Hne]; [by apply IHl|]. simpl.
      rewrite node_value_remove, (proj2 (eqb_string_false _ _) Hne), Hn, Hw. by apply IHl.
Qed.

Lemma remove_node_absent key n : has_key key n = false → remove_node key n = n.
Proof.
  induction n as [k v content IH] using ynode_forall_ind.
  destruct k; simpl; intros Hk; try done; f_equal.
  - induction IH as [|n l Hn _ IHl]; simpl in *; [done|].
    apply orb_false_iff in Hk as [Hk1 Hk2]. by rewrite Hn, IHl.
  - revert IH Hk. induction content as [|n|n w l IHl] using pairs_ind; intros IH Hk; simpl in *; [done| |].
    + apply Forall_cons in IH as [Hn _]. by rewrite Hn.
    + apply Forall_cons in IH as [Hn IH]. apply Forall_cons in IH as [Hw IH].
      apply orb_false_iff in Hk as [Hk Hl]. apply orb_false_iff in Hk as [Hk Hkw].
      apply orb_false_iff in Hk as [Hkn Hkk]. by rewrite Hkn, Hn, Hw, IHl.
Qed.

(** After [removeKey] no mapping that it reaches, through mappings and sequences,
    has the key; a tree that does not have it is left as it is, so doing it again
    changes nothing. *)
Theorem removeKey_spec nodes key :
  Forall (λ n, has_key key n = false) (removeKey nodes key) ∧
  (Forall (λ n, has_key key n = false) nodes → removeKey nodes key = nodes) ∧
  removeKey (removeKey nodes key) key = removeKey nodes key.
Proof.
  assert (∀ ns, Forall (λ n, has_key key n = false) ns → removeKey ns key = ns) as Habs.
  { intros ns Hns. unfold removeKey. induction Hns as [|n l Hn _ IH]; simpl; [done|].
    by rewrite remove_node_absent, IH. }
  assert (Forall (λ n, has_key key n = false) (removeKey nodes key)) as Hc.
  { apply Forall_fmap, Forall_true. intros n. apply remove_node_clean. }
  auto.
Qed.

(** ** Retries *)

Lemma attempts_spec command run i retries last :
  (0 < retries)%nat →
  ∃ k, (i ≤ k < i + retries)%nat ∧ attempts command run i retries last = (run k, S k) ∧
    (∀ l, (i ≤ l < k)%nat → should_retry command (run l) = true) ∧
    (should_retry command (run k) = false ∨ S k = (i + retries)%nat).
Proof.
  revert i last. induction retries as [|r IH]; intros i last Hr; [lia|]. simpl.
  destruct (should_retry command (run i)) eqn:Hs.
  - destruct r as [|r]; [exists i; simpl; split_and!; try done; lia|].
    destruct (IH (S i) (run i) ltac:(lia)) as (k & Hk & Ha & Hb & He).
    exists k. split_and!; [lia|lia|done| |destruct He; [auto|right; lia]].
    intros l Hl. destruct (decide (l = i)) as [->|]; [done|]. apply Hb. lia.
  - exists i. split_and!; [lia|lia|done|lia|auto].
Qed.

(** [ExecuteCommand] makes at least one and at most [retries] attempts, each but
    the last a failed [kubectl], [helm] or [clusterctl] whose output names a passing
    condition; it returns the output of the last attempt exactly when that did not
    fail and its output names no error. *)
Theorem ExecuteCommand_spec command run retries :
  (0 < retries)%nat →
  ∃ k, (k < retries)%nat ∧
    (∀ l, (l < k)%nat → should_retry command (run l) = true) ∧
    (should_retry command (run k) = false ∨ S k = retries) ∧
    ∀ out, ExecuteCommand command run retries = Ok out ↔
      out = at_output (run k) ∧ at_error (run k) = None ∧
      Contains out "Error:" = false ∧ Contains out "Error from server" = false.
Proof.
  intros Hr. destruct (attempts_spec command run 0 retries (mkAttempt "" None) Hr) as (k & Hk & Ha & Hb & He).
  exists k. split_and!; [lia| |by destruct He; auto|].
  - intros l Hl. apply Hb. lia.
  - intros out. unfold ExecuteCommand. rewrite Ha. cbn [fst].
    destruct (Contains (at_output (run k)) "Error:") eqn:H1; simpl.
    { split; [done|]. intros (-> & _ & ? & _). congruence. }
    destruct (Contains (at_output (run k)) "Error from server") eqn:H2; simpl.
    { split; [done|]. intros (-> & _ & _ & ?). congruence. }
    destruct (at_error (run k)) as [e|]; [by split; [|intros (_ & ? & _)]|].
    split; [intros [= <-]; done|]. by intros (-> & _).
Qed.

(** A passing failure, then success. *)
Definition demo_run (i : nat) : attempt :=
  match i with O => mkAttempt "dial tcp: refused" (Some "exit 1") | _ => mkAttempt "ok" None end.

Lemma ExecuteCommand_spec_witness :
  ∃ k, (k < 3)%nat ∧ (should_retry "kubectl get nodes" (demo_run k) = false ∨ S k = 3%nat).
Proof.
  destruct (ExecuteCommand_spec "kubectl get nodes" demo_run 3) as (k & Hk & _ & He & _); [lia|].
  exists k. split; assumption.
Defined.
