(* ===== verification/Kubeconfig.v ===== *)
(** * kubeconfig files: [pkg/cluster/internal/kubeconfig/internal/kubeconfig]

    The entries of a cluster in a kubeconfig, merging and removing them, the files
    that are considered, and the update of a file under its lock by several
    processes at once. *)

From S2P Require Import Prelude GoStr KeosTypes.
Local Open Scope Z_scope.
Local Open Scope go_scope.
Local Open Scope stdpp_scope.

(** ** Types *)

(** [map[string]interface{}]: the fields that are only carried along. *)
Abbreviation fields := (gmap string value).

Record Cluster := mkCluster { cl_Server : string; cl_OtherFields : fields }.
Record NamedCluster := mkNamedCluster { nc_Name : string; nc_Cluster : Cluster }.
Record NamedUser := mkNamedUser { nu_Name : string; nu_User : fields }.
Record Context_ := mkContext { cx_Cluster : string; cx_User : string; cx_OtherFields : fields }.
Record NamedContext := mkNamedContext { nx_Name : string; nx_Context : Context_ }.
Record Config := mkConfig {
  cfg_Clusters : list NamedCluster;
  cfg_Users : list NamedUser;
  cfg_Contexts : list NamedContext;
  cfg_CurrentContext : string;
  cfg_OtherFields : fields
}.
Definition zero_Config : Config := mkConfig [] [] [] "" ∅.

Definition KINDClusterKey (clusterName : string) : string := "kind-" +:+ clusterName.

Definition checkKubeadmExpectations (cfg : Config) : res unit :=
  let check (n : nat) (what : string) :=
    fail_when (negb (Nat.eqb n 1))
      ("kubeadm KUBECONFIG should have one " +:+ what +:+ ", but read " +:+ Itoa (Z.of_nat n)) in
  check (length (cfg_Clusters cfg)) "cluster" ;;
  check (length (cfg_Users cfg)) "user" ;;
  check (length (cfg_Contexts cfg)) "context".

(** ** Merging *)

(** Every entry with the name of [x] is replaced by it; with none, it is appended. *)
Definition insert_or_append {A} (name : A → string) (x : A) (l : list A) : list A :=
  let l' := map (λ y, if name y =s name x then x else y) l in
  if existsb (λ y, name y =s name x) l then l' else l ++ [x].

Definition merge (existing kind : Config) : res Config :=
  checkKubeadmExpectations kind ;;
  cluster ← index (cfg_Clusters kind) 0;
  user ← index (cfg_Users kind) 0;
  context ← index (cfg_Contexts kind) 0;
  Ok (mkConfig
    (insert_or_append nc_Name cluster (cfg_Clusters existing))
    (insert_or_append nu_Name user (cfg_Users existing))
    (insert_or_append nx_Name context (cfg_Contexts existing))
    (cfg_CurrentContext kind)
    (if Nat.eqb (size (cfg_OtherFields existing)) 0 then cfg_OtherFields kind
     else cfg_OtherFields existing)).

(** ** Removing *)

(** The entries kept, and whether one was dropped. *)
Fixpoint keep {A} (name : A → string) (key : string) (l : list A) : list A * bool :=
  match l with
  | [] => ([], false)
  | x :: l =>
      let '(kept, mutated) := keep name key l in
      if name x <>s key then (x :: kept, mutated) else (kept, true)
  end.

Definition remove (cfg : Config) (kindClusterName : string) : Config * bool :=
  let key := KINDClusterKey kindClusterName in
  let '(clusters, m1) := keep nc_Name key (cfg_Clusters cfg) in
  let '(users, m2) := keep nu_Name key (cfg_Users cfg) in
  let '(contexts, m3) := keep nx_Name key (cfg_Contexts cfg) in
  let current := cfg_CurrentContext cfg =s key in
  (mkConfig clusters users contexts (if current then "" else cfg_CurrentContext cfg) (cfg_OtherFields cfg),
   m1 || m2 || m3 || current).

(** ** The kubeconfig of a kind cluster *)

(** [decode] is the YAML decoder. *)
Definition KINDFromRawKubeadm (decode : string → res Config) (raw clusterName server : string) : res Config :=
  cfg ← decode raw;
  checkKubeadmExpectations cfg ;;
  let key := KINDClusterKey clusterName in
  cluster ← index (cfg_Clusters cfg) 0;
  user ← index (cfg_Users cfg) 0;
  context ← index (cfg_Contexts cfg) 0;
  Ok (mkConfig
    [mkNamedCluster key (mkCluster (if server <>s "" then server else cl_Server (nc_Cluster cluster))
                           (cl_OtherFields (nc_Cluster cluster)))]
    [mkNamedUser key (nu_User user)]
    [mkNamedContext key (mkContext key key (cx_OtherFields (nx_Context context)))]
    key (cfg_OtherFields cfg)).

(** ** Paths *)

(** What [os.Stat] answers. *)
Inductive stat := StatFile | StatDir (writable : bool) | StatNotExist | StatError.

Definition is_set (s : string) : bool := negb (Nat.eqb (String.length s) 0).

Section paths.
Context (getEnv : string → string) (osStat : string → stat).

(** [filepath.SplitList], the list separator being [:] outside Windows. *)
Definition SplitList (GOOS p : string) : list string :=
  if p =s "" then [] else Split p (if GOOS =s "windows" then ";" else ":").

(** [filepath.Join(p, ".kube", "config")], for a clean [p]. *)
Definition kube_config_of (p : string) : string :=
  if p =s "" then ".kube/config" else p +:+ "/.kube/config".

(** [filepath.Join] of the same on Windows. *)
Definition windows_kube_config_of (p : string) : string := p +:+ "\.kube\config".

Fixpoint discard_from (seen : list string) (paths : list string) : list string :=
  match paths with
  | [] => []
  | p :: paths =>
      if (p <>s "") && negb (str_in p seen) then p :: discard_from (p :: seen) paths
      else discard_from seen paths
  end.
Definition discardEmptyAndDuplicates (paths : list string) : list string := discard_from [] paths.

Definition stat_ok (s : stat) : bool :=
  match s with StatFile | StatDir _ => true | _ => false end.

(** The first of the homes that holds a kubeconfig; else the first that is set, exists and is
    a directory the owner may write to; else the first that exists; else the first set. *)
Fixpoint first_with_config (l : list string) : option string :=
  match l with
  | [] => None
  | p :: l => if is_set p && stat_ok (osStat (windows_kube_config_of p)) then Some p else first_with_config l
  end.

Fixpoint first_writeable (firstSet firstExisting : string) (l : list string) : string :=
  match l with
  | [] => if is_set firstExisting then firstExisting else firstSet
  | p :: l =>
      if negb (is_set p) then first_writeable firstSet firstExisting l else
      let firstSet := if is_set firstSet then firstSet else p in
      match osStat p with
      | StatNotExist | StatError => first_writeable firstSet firstExisting l
      | StatDir true => p
      | _ => first_writeable firstSet (if is_set firstExisting then firstExisting else p) l
      end
  end.

Definition homeDir (GOOS : string) : string :=
  if GOOS =s "windows" then
    let home := getEnv "HOME" in
    let homeDriveHomePath :=
      if is_set (getEnv "HOMEDRIVE") && is_set (getEnv "HOMEPATH")
      then getEnv "HOMEDRIVE" +:+ getEnv "HOMEPATH" else "" in
    let userProfile := getEnv "USERPROFILE" in
    match first_with_config [home; homeDriveHomePath; userProfile] with
    | Some p => p
    | None => first_writeable "" "" [home; userProfile; homeDriveHomePath]
    end
  else getEnv "HOME".

Definition paths (GOOS explicitPath : string) : list string :=
  if explicitPath <>s "" then [explicitPath] else
  let l := discardEmptyAndDuplicates (SplitList GOOS (getEnv "KUBECONFIG")) in
  if negb (Nat.eqb (length l) 0) then l else [kube_config_of (homeDir GOOS)].

(** An error other than that the file does not exist leaves no info to look at. *)
Definition fileExists (filename : string) : res bool :=
  match osStat filename with
  | StatNotExist => Ok false
  | StatFile => Ok true
  | StatDir _ => Ok false
  | StatError => Panic "nil pointer dereference"
  end.

Fixpoint first_existing (l : list string) : res (option string) :=
  match l with
  | [] => Ok None
  | p :: l => b ← fileExists p; if (b : bool) then Ok (Some p) else first_existing l
  end.

Definition pathForMerge (GOOS explicitPath : string) : res string :=
  let p := paths GOOS explicitPath in
  match p with
  | [q] => Ok q
  | _ => e ← first_existing p;
         match e with Some q => Ok q | None => index p (length p - 1) end
  end.
End paths.

(** ** Updating a file under its lock *)

Definition lockName (filename : string) : string := filename +:+ ".lock".

(** Decoding and encoding: [Decode] of a file that is not there is [None]. *)
Class KubeYaml := {
  yaml_decode : string → res Config;
  yaml_encode : Config → res string
}.

(** [read]: a file that is not there is an empty config. *)
Definition read `{KubeYaml} (content : option string) : res Config :=
  match content with None => Ok zero_Config | Some s => yaml_decode s end.

(** What happens to a locked file: nothing, a new content, or an error.  A failure
    to open or to read the file is the step [P_read_fail]; one to write it is not
    modelled. *)
Abbreviation update := (option string → res (option string)).

Definition merge_update `{KubeYaml} (kindConfig : Config) : update := λ content,
  existing ← errors_Wrap "failed to get kubeconfig to merge" (read content);
  merged ← merge existing kindConfig;
  text ← yaml_encode merged;
  Ok (Some text).

Definition remove_update `{KubeYaml} (kindClusterName : string) : update := λ content,
  existing ← errors_Wrap "failed to read kubeconfig to remove KIND entry" (read content);
  let '(cfg, mutated) := remove existing kindClusterName in
  if mutated then text ← yaml_encode cfg; Ok (Some text) else Ok None.

Record job := mkJob { j_path : string; j_update : update }.

(** [WriteMerged] is one job on one file, [RemoveKIND] a job per path in order. *)
Definition WriteMerged `{KubeYaml} (kindConfig : Config) (configPath : string) : list job :=
  [mkJob configPath (merge_update kindConfig)].
Definition RemoveKIND `{KubeYaml} (kindClusterName : string) (ps : list string) : list job :=
  map (λ p, mkJob p (remove_update kindClusterName)) ps.

(** A process is at the start of its first job, has locked its file, has read it, or
    is about to unlock it with the outcome so far; without jobs it has ended. *)
Inductive pc :=
| Start
| Locked
| HasRead (content : option string)
| Unlocking (outcome : res unit).

Record proc := mkProc { p_jobs : list job; p_pc : pc; p_result : res unit }.

(** The files, the processes, and the updates that were written, oldest first. *)
Record system := mkSystem {
  s_files : gmap string string;
  s_procs : list proc;
  s_log : list (string * update)
}.

Definition lock_error : string := "failed to lock config file".

(** One step of a process on the files; the last component is what it wrote. *)
Inductive pstep : gmap string string → proc → gmap string string → proc → list (string * update) → Prop :=
| P_lock fs j js r :
    fs !! lockName (j_path j) = None →
    pstep fs (mkProc (j :: js) Start r) (<[lockName (j_path j) := ""]> fs) (mkProc (j :: js) Locked r) []
| P_lock_fail fs j js r s :
    fs !! lockName (j_path j) = Some s →
    pstep fs (mkProc (j :: js) Start r) fs (mkProc [] Start (Err lock_error)) []
| P_read fs j js r :
    pstep fs (mkProc (j :: js) Locked r) fs (mkProc (j :: js) (HasRead (fs !! j_path j)) r) []
| P_read_fail fs j js r e :
    pstep fs (mkProc (j :: js) Locked r) fs (mkProc (j :: js) (Unlocking (Err e)) r) []
| P_write fs j js r content text :
    j_update j content = Ok (Some text) →
    pstep fs (mkProc (j :: js) (HasRead content) r) (<[j_path j := text]> fs)
      (mkProc (j :: js) (Unlocking (Ok tt)) r) [(j_path j, j_update j)]
| P_keep fs j js r content :
    j_update j content = Ok None →
    pstep fs (mkProc (j :: js) (HasRead content) r) fs (mkProc (j :: js) (Unlocking (Ok tt)) r) []
| P_error fs j js r content e :
    j_update j content = Err e →
    pstep fs (mkProc (j :: js) (HasRead content) r) fs (mkProc (j :: js) (Unlocking (Err e)) r) []
| P_unlock fs j js r outcome :
    pstep fs (mkProc (j :: js) (Unlocking outcome) r) (delete (lockName (j_path j)) fs)
      (match outcome with Ok _ => mkProc js Start r | _ => mkProc [] Start outcome end) [].

(** Any process may take the next step. *)
Inductive step : system → system → Prop :=
| Step fs ps log i p fs' p' w :
    ps !! i = Some p → pstep fs p fs' p' w →
    step (mkSystem fs ps log) (mkSystem fs' (<[i := p']> ps) (log ++ w)).

Definition initial (fs : gmap string string) (programs : list (list job)) : system :=
  mkSystem fs (map (λ js, mkProc js Start (Ok tt)) programs) [].

Definition reachable (fs : gmap string string) (programs : list (list job)) : system → Prop :=
  rtc step (initial fs programs).

(** ** The lock keeps updates apart *)

Section locking.
Context (P : string → Prop).
Hypothesis P_no_lock : ∀ p q, P p → P q → lockName p ≠ q.
Context (fs0 : gmap string string).

Lemma lockName_inj p q : lockName p = lockName q → p = q.
Proof.
  unfold lockName. intros Heq. apply (f_equal bytes) in Heq. rewrite !bytes_app in Heq.
  apply app_inv_tail in Heq. by apply bytes_inj.
Qed.

(** The process has the lock of the file. *)
Definition holds (pr : proc) (q : string) : Prop :=
  p_pc pr ≠ Start ∧ ∃ j js, p_jobs pr = j :: js ∧ j_path j = q.

(** The updates written to a file, and their results one after another. *)
Definition updates_of (q : string) (log : list (string * update)) : list update :=
  snd <$> filter (λ w, fst w = q) log.

Fixpoint replay (content : option string) (us : list update) : option (option string) :=
  match us with
  | [] => Some content
  | u :: us => match u content with Ok (Some text) => replay (Some text) us | _ => None end
  end.

Lemma replay_app content us vs :
  replay content (us ++ vs) = c ← replay content us; replay c vs.
Proof.
  revert content. induction us as [|u us IH]; intros content; simpl; [done|].
  by destruct (u content) as [[text|]| |].
Qed.

Record inv (st : system) : Prop := {
  inv_paths : ∀ i pr, s_procs st !! i = Some pr → Forall (λ j, P (j_path j)) (p_jobs pr);
  inv_lock : ∀ i pr q, s_procs st !! i = Some pr → holds pr q → is_Some (s_files st !! lockName q);
  inv_mutex : ∀ i k pr pr' q, s_procs st !! i = Some pr → s_procs st !! k = Some pr' →
    holds pr q → holds pr' q → i = k;
  inv_read : ∀ i pr j js c, s_procs st !! i = Some pr → p_jobs pr = j :: js →
    p_pc pr = HasRead c → s_files st !! j_path j = c;
  inv_log : ∀ q, P q → replay (fs0 !! q) (updates_of q (s_log st)) = Some (s_files st !! q)
}.

Lemma inv_initial programs :
  (∀ js j, js ∈ programs → j ∈ js → P (j_path j)) → inv (initial fs0 programs).
Proof.
  intros Hp. assert (∀ i pr, s_procs (initial fs0 programs) !! i = Some pr →
    p_pc pr = Start ∧ p_jobs pr ∈ programs) as Hs.
  { intros i pr Hi. simpl in Hi. rewrite list_lookup_fmap in Hi.
    apply fmap_Some in Hi as (js & Hjs & ->). split; [done|]. by eapply list_elem_of_lookup_2. }
  split.
  - intros i pr Hi. apply Forall_forall. intros j Hj. eapply Hp; [by apply (Hs i)|done].
  - intros i pr q Hi [Hne _]. by destruct (Hs i pr Hi).
  - intros i k pr pr' q Hi _ [Hne _]. by destruct (Hs i pr Hi).
  - intros i pr j js c Hi _ Hc. destruct (Hs i pr Hi) as [Hst _]. by rewrite Hst in Hc.
  - done.
Qed.

(** What a step does: it takes a free lock, writes a file it has locked and just
    read, leaves a lock, or does not touch the files. *)
Inductive effect (fs : gmap string string) (pr : proc) (fs' : gmap string string) (pr' : proc)
  (w : list (string * update)) : Prop :=
| E_lock q : fs !! lockName q = None → fs' = <[lockName q := ""]> fs → w = [] →
    P q → (∀ q', ¬ holds pr q') → (∀ q', holds pr' q' → q' = q) → (∀ c, p_pc pr' ≠ HasRead c) →
    effect fs pr fs' pr' w
| E_quiet : fs' = fs → w = [] → (∀ q, holds pr' q → holds pr q) →
    (∀ j js c, p_jobs pr' = j :: js → p_pc pr' = HasRead c → fs !! j_path j = c) →
    effect fs pr fs' pr' w
| E_write q u c text : (∀ j js, p_jobs pr = j :: js → j_path j = q) → holds pr q → p_pc pr = HasRead c →
    u c = Ok (Some text) → fs' = <[q := text]> fs → w = [(q, u)] → P q →
    (∀ q', holds pr' q' → holds pr q') → (∀ c, p_pc pr' ≠ HasRead c) →
    effect fs pr fs' pr' w
| E_unlock q : holds pr q → fs' = delete (lockName q) fs → w = [] → P q →
    (∀ q', ¬ holds pr' q') → (∀ c, p_pc pr' ≠ HasRead c) → effect fs pr fs' pr' w.

Lemma pstep_effect fs pr fs' pr' w :
  pstep fs pr fs' pr' w → Forall (λ j, P (j_path j)) (p_jobs pr) →
  effect fs pr fs' pr' w ∧ Forall (λ j, P (j_path j)) (p_jobs pr').
Proof.
  intros Hs HP. destruct Hs; simpl in *; (split; [|done || (by constructor) || (by case_match; simpl; inversion HP; constructor) || idtac]).
  all: try (apply Forall_cons in HP as [Hj HP]).
  - eapply (E_lock _ _ _ _ _ (j_path j)); try done; [by intros q' [? _]|].
    by intros q' (_ & j' & js' & [= <- <-] & <-).
  - apply E_quiet; try done; by intros q' (? & ? & ? & ? & ?).
  - apply E_quiet; try done; [intros q' (_ & Hq); by split|]. by intros j' js' c [= <- <-] [= <-].
  - apply E_quiet; try done. intros q' (_ & Hq). by split.
  - eapply (E_write _ _ _ _ _ (j_path j)); try done; [by intros j' js' [= <- <-]|by split; [|eauto]|].
    intros q' (_ & Hq). by split.
  - apply E_quiet; try done. intros q' (_ & Hq). by split.
  - apply E_quiet; try done. intros q' (_ & Hq). by split.
  - eapply (E_unlock _ _ _ _ _ (j_path j)); try done;
      [by split; [|eauto]|intros q' [Hne _]; by destruct outcome|by destruct outcome].
  - destruct outcome; [done|constructor..].
Qed.

Lemma holds_P st i pr q : inv st → s_procs st !! i = Some pr → holds pr q → P q.
Proof.
  intros Hinv Hi (_ & j & js & Hj & <-). pose proof (inv_paths _ Hinv i pr Hi) as HP.
  rewrite Hj in HP. by apply Forall_cons in HP as [? _].
Qed.

Lemma read_holds pr j js c : p_jobs pr = j :: js → p_pc pr = HasRead c → holds pr (j_path j).
Proof. intros Hj Hc. split; [by rewrite Hc|eauto]. Qed.

Section preservation.
Context (fs : gmap string string) (ps : list proc) (log : list (string * update)).
Context (i : nat) (pr pr' : proc) (fs' : gmap string string) (w : list (string * update)).
Context (Hinv : inv (mkSystem fs ps log)) (Hi : ps !! i = Some pr) (Heff : effect fs pr fs' pr' w).

(** A process other than the one that steps keeps its locks. *)
Lemma others_keep_lock k pk q : k ≠ i → ps !! k = Some pk → holds pk q → is_Some (fs' !! lockName q).
Proof.
  intros Hki Hk Hq. pose proof (inv_lock _ Hinv k pk q Hk Hq) as Hl. simpl in Hl.
  pose proof (holds_P _ k pk q Hinv Hk Hq) as HPq.
  destruct Heff as [q0 _ -> _ _ _ _ _| -> _ _ _|q0 u c text _ _ _ _ -> _ HP0 _ _|q0 Hh -> _ _ _ _].
  - destruct (decide (q0 = q)) as [->|Hne]; [by rewrite lookup_insert_eq|].
    by rewrite lookup_insert_ne by (by intros ?%lockName_inj).
  - done.
  - by rewrite lookup_insert_ne by (intros Heq; by apply (P_no_lock q q0)).
  - rewrite lookup_delete_ne; [done|]. intros ->%lockName_inj.
    by apply Hki, (inv_mutex _ Hinv k i pk pr q).
Qed.

(** A file that another process has read does not change. *)
Lemma others_keep_file k pk q : k ≠ i → ps !! k = Some pk → holds pk q → fs' !! q = fs !! q.
Proof.
  intros Hki Hk Hq. pose proof (holds_P _ k pk q Hinv Hk Hq) as HPq.
  destruct Heff as [q0 _ -> _ HP0 _ _ _| -> _ _ _|q0 u c text _ Hh _ _ -> _ HP0 _ _|q0 Hh -> _ HP0 _ _].
  - by rewrite lookup_insert_ne by (by apply P_no_lock).
  - done.
  - rewrite lookup_insert_ne; [done|]. intros ->. by apply Hki, (inv_mutex _ Hinv k i pk pr q).
  - by rewrite lookup_delete_ne by (by apply P_no_lock).
Qed.

Lemma self_lock q : holds pr' q → is_Some (fs' !! lockName q).
Proof.
  intros Hq.
  destruct Heff as [q0 _ -> _ _ _ Hq0 _| -> _ Hq0 _|q0 u c text _ Hh _ _ -> _ HP0 Hq0 _|q0 Hh -> _ _ Hq0 _].
  - rewrite (Hq0 q Hq). by rewrite lookup_insert_eq.
  - apply (inv_lock _ Hinv i pr q Hi), Hq0, Hq.
  - apply Hq0 in Hq. pose proof (holds_P _ i pr q Hinv Hi Hq).
    rewrite lookup_insert_ne by (intros Heq; by apply (P_no_lock q q0)).
    by apply (inv_lock _ Hinv i pr q Hi).
  - by apply Hq0 in Hq.
Qed.

(** Two processes do not get the same lock. *)
Lemma self_mutex k pk q : ps !! k = Some pk → holds pk q → holds pr' q → k = i.
Proof.
  intros Hk Hq Hq'.
  destruct Heff as [q0 Hfree _ _ _ _ Hq0 _|_ _ Hq0 _|q0 u c text _ _ _ _ _ _ _ Hq0 _|q0 _ _ _ _ Hq0 _].
  - destruct (inv_lock _ Hinv k pk q Hk Hq) as [l Hl]. simpl in Hl.
    rewrite (Hq0 q Hq'), Hfree in Hl. done.
  - by apply (inv_mutex _ Hinv k i pk pr q), Hq0.
  - by apply (inv_mutex _ Hinv k i pk pr q), Hq0.
  - by apply Hq0 in Hq'.
Qed.

Lemma log_step q : P q → replay (fs0 !! q) (updates_of q (log ++ w)) = Some (fs' !! q).
Proof.
  intros HPq. pose proof (inv_log _ Hinv q HPq) as Hlog. simpl in Hlog. unfold updates_of in *.
  rewrite filter_app, fmap_app, replay_app, Hlog. simpl.
  destruct Heff as [q0 _ -> -> HP0 _ _ _| -> -> _ _|q0 u c text Hj Hh Hc Hu -> -> HP0 _ _|q0 _ -> -> HP0 _ _];
    simpl.
  - by rewrite lookup_insert_ne by (by apply P_no_lock).
  - done.
  - rewrite filter_cons, filter_nil. simpl. destruct (decide (q0 = q)) as [->|Hne]; simpl.
    + destruct Hh as (_ & j & js & Hjs & Hjq). subst q.
      pose proof (inv_read _ Hinv i pr j js c Hi Hjs Hc) as Hrd. simpl in Hrd.
      by rewrite Hrd, Hu, lookup_insert_eq.
    + by rewrite lookup_insert_ne.
  - by rewrite lookup_delete_ne by (by apply P_no_lock).
Qed.
End preservation.

Lemma inv_step st st' : inv st → step st st' → inv st'.
Proof.
  intros Hinv Hs. destruct Hs as [fs ps log i pr fs' pr' w Hi Hp].
  apply pstep_effect in Hp as [Heff HP']; [|by apply (inv_paths _ Hinv i)].
  split; simpl.
  - intros k pk [(<- & <- & _)|[_ Hk]]%list_lookup_insert_Some; [done|]. by apply (inv_paths _ Hinv k).
  - intros k pk q [(<- & <- & _)|[Hne Hk]]%list_lookup_insert_Some Hq; [by eapply self_lock|].
    eapply (others_keep_lock fs ps log i); eauto.
  - intros k l pk pl q [(<- & <- & _)|[Hnk Hk]]%list_lookup_insert_Some
      [(<- & <- & _)|[Hnl Hl]]%list_lookup_insert_Some Hqk Hql; [done| | |].
    + symmetry. by eapply self_mutex.
    + by eapply self_mutex.
    + by apply (inv_mutex _ Hinv k l pk pl q).
  - intros k pk j js c [(<- & <- & _)|[Hne Hk]]%list_lookup_insert_Some Hj Hc.
    + destruct Heff as [| -> _ _ Hr| |]; [naive_solver|eauto|naive_solver|naive_solver].
    + rewrite (others_keep_file fs ps log i pr pr' fs' w Hinv Hi Heff k pk) by
        (eauto || by eapply read_holds). by apply (inv_read _ Hinv k pk j js).
  - intros q HPq. eapply log_step; eauto.
Qed.

Lemma inv_reachable programs st :
  (∀ js j, js ∈ programs → j ∈ js → P (j_path j)) → reachable fs0 programs st → inv st.
Proof.
  intros HP Hr. eapply (rtc_ind_r (λ st, inv st)); [by apply inv_initial| |exact Hr].
  intros. by eapply inv_step.
Qed.
End locking.

(** No job works on a file that is the lock of another. *)
Definition no_lock_files (programs : list (list job)) : Prop :=
  ∀ js j js' j', js ∈ programs → j ∈ js → js' ∈ programs → j' ∈ js' → lockName (j_path j) ≠ j_path j'.

Lemma reachable_inv fs0 programs st :
  no_lock_files programs → reachable fs0 programs st →
  inv (λ q, ∃ js j, js ∈ programs ∧ j ∈ js ∧ j_path j = q) fs0 st.
Proof.
  intros Hn. apply inv_reachable; [|eauto].
  intros p q (js & j & Hjs & Hj & <-) (js' & j' & Hjs' & Hj' & <-). by apply (Hn js j js' j').
Qed.

(** At most one process at a time has the lock of a kubeconfig file, however the
    steps of the processes interleave. *)
Theorem kubeconfig_mutual_exclusion fs0 programs st i k pr pr' q :
  no_lock_files programs → reachable fs0 programs st →
  s_procs st !! i = Some pr → s_procs st !! k = Some pr' → holds pr q → holds pr' q → i = k.
Proof. intros Hn Hr. by apply (inv_mutex _ _ _ (reachable_inv _ _ _ Hn Hr)). Qed.

(** C3. No update of a kubeconfig file is lost: at any time the file is what the
    updates written to it give one after another, each on the result of the one
    before, starting from the file at the beginning. *)
Theorem kubeconfig_no_lost_update fs0 programs st js j :
  no_lock_files programs → reachable fs0 programs st → js ∈ programs → j ∈ js →
  replay (fs0 !! j_path j) (updates_of (j_path j) (s_log st)) = Some (s_files st !! j_path j).
Proof. intros Hn Hr Hjs Hj. apply (inv_log _ _ _ (reachable_inv _ _ _ Hn Hr)). eauto. Qed.

(** Two processes that write a file: the first runs to its end while the second,
    which comes when the file is locked, fails. *)
Module Demo.
Definition put (text : string) : update := λ c, Ok (Some (default "" c +:+ text)).
Definition programs : list (list job) := [[mkJob "config" (put "a")]; [mkJob "config" (put "b")]].

Lemma no_lock : no_lock_files programs.
Proof.
  intros js j js' j' Hjs Hj Hjs' Hj'. unfold programs in *.
  rewrite !elem_of_cons, elem_of_nil in *. destruct_or?; subst; try done;
    rewrite !elem_of_cons, elem_of_nil in *; destruct_or?; by subst.
Qed.

Definition locked : system :=
  mkSystem {["config.lock" := ""]}
    [mkProc [mkJob "config" (put "a")] Locked (Ok tt); mkProc [] Start (Err lock_error)] [].
Definition written : system :=
  mkSystem (<["config" := "a"]> {["config.lock" := ""]})
    [mkProc [mkJob "config" (put "a")] (Unlocking (Ok tt)) (Ok tt); mkProc [] Start (Err lock_error)]
    [("config", put "a")].

Lemma run_locked : reachable ∅ programs locked.
Proof.
  eapply rtc_l; [apply (Step ∅ _ [] 0 (mkProc [mkJob "config" (put "a")] Start (Ok tt))); [reflexivity|]|].
  { apply P_lock. reflexivity. }
  eapply rtc_l; [eapply (Step _ _ _ 1 (mkProc [mkJob "config" (put "b")] Start (Ok tt))); [reflexivity|]|].
  { eapply P_lock_fail. reflexivity. }
  apply rtc_refl.
Qed.

Lemma run_written : reachable ∅ programs written.
Proof.
  unfold reachable. etrans; [apply run_locked|].
  eapply rtc_l; [apply (Step _ _ _ 0 (mkProc [mkJob "config" (put "a")] Locked (Ok tt))); [reflexivity|]|].
  { apply P_read. }
  eapply rtc_l; [apply (Step _ _ _ 0 (mkProc [mkJob "config" (put "a")] (HasRead None) (Ok tt))); [reflexivity|]|].
  { apply P_write. reflexivity. }
  apply rtc_refl.
Qed.
End Demo.

Lemma kubeconfig_mutual_exclusion_witness :
  holds (mkProc [mkJob "config" (Demo.put "a")] Locked (Ok tt)) "config" ∧
  ∀ k pr, s_procs Demo.locked !! k = Some pr → holds pr "config" → 0%nat = k.
Proof.
  assert (holds (mkProc [mkJob "config" (Demo.put "a")] Locked (Ok tt)) "config") as Hh
    by (split; [discriminate|]; eexists _, _; split; reflexivity).
  split; [exact Hh|]. intros k pr Hk Hpr.
  exact (kubeconfig_mutual_exclusion ∅ Demo.programs Demo.locked 0 k _ pr "config" Demo.no_lock
    Demo.run_locked eq_refl Hk Hh Hpr).
Defined.

Lemma kubeconfig_no_lost_update_witness :
  replay None [Demo.put "a"] = Some (Some "a").
Proof.
  refine (kubeconfig_no_lost_update ∅ Demo.programs Demo.written _ (mkJob "config" (Demo.put "a"))
    Demo.no_lock Demo.run_written (list_elem_of_here _ _) (list_elem_of_here _ _)).
Defined.

(** ** Merging and removing are inverse on the entries of a cluster *)

Lemma keep_spec {A} (name : A → string) key l :
  keep name key l = (List.filter (λ x, name x <>s key) l, existsb (λ x, name x =s key) l).
Proof.
  induction l as [|x l IH]; simpl; [done|]. rewrite IH.
  by destruct (String.eqb_spec (name x) key).
Qed.

Lemma insert_or_append_filter {A} (name : A → string) x l :
  List.filter (λ y, name y <>s name x) (insert_or_append name x l) = List.filter (λ y, name y <>s name x) l.
Proof.
  assert (List.filter (λ y, name y <>s name x) (map (λ y, if name y =s name x then x else y) l) =
          List.filter (λ y, name y <>s name x) l) as Hm.
  { induction l as [|y l IH]; simpl; [done|].
    destruct (String.eqb_spec (name y) (name x)); simpl; [by rewrite String.eqb_refl|].
    rewrite (proj2 (eqb_string_false _ _)) by done. simpl. by rewrite IH. }
  unfold insert_or_append. destruct (existsb _ l) eqn:He; [done|].
  rewrite List.filter_app. simpl. by rewrite String.eqb_refl, app_nil_r.
Qed.

Lemma insert_or_append_only {A} (name : A → string) x l y :
  y ∈ insert_or_append name x l → name y = name x → y = x.
Proof.
  unfold insert_or_append. intros Hy Hn. destruct (existsb _ l) eqn:He.
  - apply list_elem_of_In, in_map_iff in Hy as (z & Hz & _).
    destruct (String.eqb_spec (name z) (name x)); [done|]. by subst.
  - apply elem_of_app in Hy as [Hy|Hy]; [|by apply list_elem_of_singleton in Hy].
    rewrite <-not_true_iff_false in He. exfalso. apply He, existsb_exists. exists y.
    split; [by apply list_elem_of_In|]. by apply String.eqb_eq.
Qed.

Lemma insert_or_append_has {A} (name : A → string) x l :
  existsb (λ y, name y =s name x) (insert_or_append name x l) = true.
Proof.
  unfold insert_or_append. destruct (existsb _ l) eqn:He.
  - apply existsb_exists in He as (y & Hy & Hn). apply existsb_exists. exists x.
    split; [|apply String.eqb_refl]. apply in_map_iff. exists y. by rewrite Hn.
  - rewrite existsb_app. simpl. by rewrite String.eqb_refl, orb_true_r.
Qed.

(** An entry in a list: those of its name are replaced, in their places; if there are none it
    comes last. *)
Definition updated {A} (name : A → string) (x : A) (l l' : list A) : Prop :=
  (∀ i y, l !! i = Some y → l' !! i = Some (if name y =s name x then x else y)) ∧
  ((∃ y, y ∈ l ∧ name y = name x) ∧ length l' = length l ∨ (∀ y, y ∈ l → name y ≠ name x) ∧ l' = l ++ [x]).
Lemma insert_or_append_updated {A} (name : A → string) x l : updated name x l (insert_or_append name x l).
Proof.
  unfold updated, insert_or_append. destruct (existsb _ l) eqn:He.
  - split.
    + intros i y Hy. change (map ?f l) with (f <$> l). by rewrite list_lookup_fmap, Hy.
    + left. apply existsb_exists in He as (y & Hy & Hn). split; [|by rewrite length_map].
      exists y. split; [by apply list_elem_of_In|by apply String.eqb_eq].
  - assert (∀ y, y ∈ l → name y ≠ name x) as Hno.
    { intros y Hy Hn. rewrite <-not_true_iff_false in He. apply He, existsb_exists. exists y.
      split; [by apply list_elem_of_In|by apply String.eqb_eq]. }
    split; [|by right]. intros i y Hy. rewrite lookup_app_l by (by eapply lookup_lt_Some).
    rewrite Hy, (proj2 (eqb_string_false _ _)); [done|]. by eapply Hno, list_elem_of_lookup_2.
Qed.

(** C38. The kubeconfig of a kind cluster has one cluster, with the server that is given, one
    user and one context, which joins them, all under the name of the cluster; and it can
    always be merged.  Each entry replaces those of its name or else is appended, the other
    entries stay in their places, the context is current, and fields that are not known are
    taken over when there were none; so a kubeconfig that was empty holds exactly the new
    entries.  Removing the cluster gives back every other entry, in order, and no current
    context. *)
Theorem merge_then_remove decode raw name server kind existing :
  KINDFromRawKubeadm decode raw name server = Ok kind →
  let key := KINDClusterKey name in
  let others {A} (n : A → string) (l : list A) := List.filter (λ x, n x <>s key) l in
  ∃ m cl us cx, merge existing kind = Ok m ∧ cfg_CurrentContext m = key ∧
    kind = mkConfig [mkNamedCluster key cl] [mkNamedUser key us] [mkNamedContext key cx] key (cfg_OtherFields kind) ∧
    (server ≠ "" → cl_Server cl = server) ∧ cx_Cluster cx = key ∧ cx_User cx = key ∧
    updated nc_Name (mkNamedCluster key cl) (cfg_Clusters existing) (cfg_Clusters m) ∧
    updated nu_Name (mkNamedUser key us) (cfg_Users existing) (cfg_Users m) ∧
    updated nx_Name (mkNamedContext key cx) (cfg_Contexts existing) (cfg_Contexts m) ∧
    cfg_OtherFields m = (if decide (cfg_OtherFields existing = ∅) then cfg_OtherFields kind else cfg_OtherFields existing) ∧
    (existing = zero_Config → m = kind) ∧
    remove m name =
      (mkConfig (others nc_Name (cfg_Clusters existing)) (others nu_Name (cfg_Users existing))
         (others nx_Name (cfg_Contexts existing)) "" (cfg_OtherFields m), true).
Proof.
  intros Hk key others. unfold KINDFromRawKubeadm in Hk.
  apply bind_Ok_iff in Hk as (cfg & _ & Hk). apply bind_unit_Ok in Hk as [_ Hk]. fold key in Hk.
  apply bind_Ok_iff in Hk as (cl & _ & Hk). apply bind_Ok_iff in Hk as (us & _ & Hk).
  apply bind_Ok_iff in Hk as (cx & _ & <-%Ok_inj).
  unfold merge. cbn -[insert_or_append]. do 4 eexists. split; [reflexivity|]. cbn -[insert_or_append].
  split; [done|]. split; [done|]. split; [by intros ?%eqb_string_false; rewrite H|]. do 2 (split; [done|]).
  do 3 (split; [apply insert_or_append_updated|]). split_and!.
  - case_decide as Hd; [by rewrite Hd|]. by destruct (Nat.eqb_spec (size (cfg_OtherFields existing)) 0) as [?%map_size_empty_inv|].
  - by intros ->.
  - unfold remove. fold key. rewrite !keep_spec. cbn -[insert_or_append]. rewrite String.eqb_refl.
    rewrite orb_true_r. unfold others. f_equal. f_equal;
      match goal with |- context [insert_or_append ?n ?x ?l] => apply (insert_or_append_filter n x l) end.
Qed.

Definition demo_kubeadm : Config :=
  mkConfig [mkNamedCluster "kubernetes" (mkCluster "https://10.0.0.1" ∅)] [mkNamedUser "admin" ∅]
    [mkNamedContext "admin@kubernetes" (mkContext "kubernetes" "admin" ∅)] "admin@kubernetes" ∅.

Lemma merge_then_remove_witness :
  let kind := mkConfig [mkNamedCluster "kind-demo" (mkCluster "https://127.0.0.1:1234" ∅)] [mkNamedUser "kind-demo" ∅]
      [mkNamedContext "kind-demo" (mkContext "kind-demo" "kind-demo" ∅)] "kind-demo" ∅ in
  merge zero_Config kind = Ok kind ∧ fst (remove kind "demo") = zero_Config.
Proof.
  intros kind. destruct (merge_then_remove (λ _, Ok demo_kubeadm) "" "demo" "https://127.0.0.1:1234" kind zero_Config eq_refl)
    as (m & cl & us & cx & Hm & _ & _ & _ & _ & _ & _ & _ & _ & _ & He & Hr).
  specialize (He eq_refl) as ->. split; [exact Hm|]. by rewrite Hr.
Defined.

(** ** The files considered *)

Lemma discard_from_spec seen l :
  NoDup (discard_from seen l) ∧ ∀ p, p ∈ discard_from seen l ↔ p ∈ l ∧ p ≠ "" ∧ p ∉ seen.
Proof.
  revert seen. induction l as [|q l IH]; intros seen; simpl.
  - split; [constructor|]. intros p. rewrite elem_of_nil. tauto.
  - destruct (String.eqb_spec q "") as [->|Hq]; simpl.
    + destruct (IH seen) as [Hnd Hin]. split; [done|]. intros p. rewrite Hin, elem_of_cons. naive_solver.
    + destruct (str_in q seen) eqn:Hs; simpl; [apply str_in_true in Hs|apply str_in_false in Hs].
      * destruct (IH seen) as [Hnd Hin]. split; [done|]. intros p. rewrite Hin, elem_of_cons. naive_solver.
      * destruct (IH (q :: seen)) as [Hnd Hin]. split.
        -- constructor; [|done]. rewrite Hin, elem_of_cons. tauto.
        -- intros p. rewrite !elem_of_cons, Hin, elem_of_cons.
           destruct (decide (p = q)) as [->|]; naive_solver.
Qed.

(** What is there and no directory. *)
Definition is_file (s : stat) : bool := match s with StatFile => true | _ => false end.
Lemma first_existing_spec osStat l e : first_existing osStat l = Ok e →
  match e with
  | Some p => ∃ before after, l = before ++ p :: after ∧ osStat p = StatFile ∧ Forall (λ q, is_file (osStat q) = false) before
  | None => Forall (λ q, is_file (osStat q) = false) l
  end.
Proof.
  revert e. induction l as [|q l IH]; intros e; simpl; [by intros [= <-]|]. unfold fileExists.
  destruct (osStat q) as [|b| |] eqn:Hq; simpl; [intros [= <-]; by exists [], l| | |done].
  all: intros He%IH; destruct e as [p|]; [destruct He as (before & after & -> & Hp & Hb); exists (q :: before), after|].
  all: try (split_and!; [done..|constructor; [by rewrite Hq|done]]). all: constructor; [by rewrite Hq|done].
Qed.
Lemma paths_from_env getEnv osStat GOOS p : p ∈ SplitList GOOS (getEnv "KUBECONFIG") → p ≠ "" → p ∈ paths getEnv osStat GOOS "".
Proof.
  intros Hp Hn. assert (p ∈ discardEmptyAndDuplicates (SplitList GOOS (getEnv "KUBECONFIG"))) as Hd.
  { apply discard_from_spec. split_and!; [done|done|by intros ?%not_elem_of_nil]. }
  unfold paths. cbn [negb String.eqb]. cbv zeta. by destruct (discardEmptyAndDuplicates _); [apply not_elem_of_nil in Hd|].
Qed.

(** C39. The kubeconfig paths are never empty and hold no path twice; they are the one that
    is given, or else hold every path of the environment that is not empty.  To merge into
    is the only one of them; or the first that is there and is no directory; or, if there is
    none, the last.  The choice panics only where the status of a path cannot be read. *)
Theorem paths_wf getEnv osStat GOOS explicit :
  let ps := paths getEnv osStat GOOS explicit in
  ps ≠ [] ∧ NoDup ps ∧
  (explicit ≠ "" → ps = [explicit]) ∧
  (explicit = "" → ∀ p, p ∈ SplitList GOOS (getEnv "KUBECONFIG") → p ≠ "" → p ∈ ps) ∧
  (∀ p, pathForMerge getEnv osStat GOOS explicit = Ok p →
     ps = [p] ∨
     (∃ before after, ps = before ++ p :: after ∧ osStat p = StatFile ∧ Forall (λ q, is_file (osStat q) = false) before) ∨
     (Forall (λ q, is_file (osStat q) = false) ps ∧ last ps = Some p)) ∧
  (is_Panic (pathForMerge getEnv osStat GOOS explicit) = true → ∃ p, p ∈ ps ∧ osStat p = StatError).
Proof.
  intros ps.
  assert (ps ≠ [] ∧ NoDup ps) as [Hne Hnd].
  { subst ps. unfold paths. destruct (explicit <>s "")%go; [split; [done|apply NoDup_singleton]|].
    destruct (discardEmptyAndDuplicates _) as [|p l] eqn:Hd; simpl; [split; [done|apply NoDup_singleton]|].
    split; [done|]. rewrite <-Hd. apply discard_from_spec. }
  split; [done|]. split; [done|].
  split; [intros He; subst ps; unfold paths; by rewrite (proj2 (eqb_string_false _ _) He)|].
  split; [intros ->; apply paths_from_env|].
  split; unfold pathForMerge; fold ps; destruct ps as [|p1 [|p2 l]]; try done.
  - intros p [= <-]. by left.
  - intros p (e & He%first_existing_spec & Hp)%bind_Ok_iff. right. destruct e as [q|].
    + injection Hp as ->. by left.
    + apply index_Ok in Hp. right. split; [done|].
      rewrite last_lookup. by rewrite <-Hp; f_equal; simpl; lia.
  - intros Hpan. destruct (first_existing osStat (p1 :: p2 :: l)) as [[q|]|e|w] eqn:He; try done.
    + cbn [mbind res_bind] in Hpan. unfold index in Hpan.
      destruct ((p1 :: p2 :: l) !! _) eqn:Hl; [done|]. apply lookup_ge_None in Hl. simpl in Hl. lia.
    + clear -He. induction (p1 :: p2 :: l) as [|q l' IH]; [done|]. simpl in He. unfold fileExists in He.
      destruct (osStat q) eqn:Hq; simpl in He;
        [done|destruct (IH He) as (p & ? & ?); exists p; split; [by apply list_elem_of_further|done]..|].
      exists q. split; [apply list_elem_of_here|done].
Qed.

(** Of three paths only the second is there. *)
Lemma paths_wf_witness :
  let env v := if v =s "KUBECONFIG" then "a:b:c" else "" in
  let there p := if p =s "b" then StatFile else StatNotExist in
  pathForMerge env there "linux" "" = Ok "b" ∧
  ∃ before after, ["a"; "b"; "c"] = before ++ "b" :: after ∧ Forall (λ q, is_file (there q) = false) before.
Proof.
  intros env there. assert (pathForMerge env there "linux" "" = Ok "b") as E by reflexivity. split; [exact E|].
  destruct (paths_wf env there "linux" "") as (_ & _ & _ & _ & H & _).
  destruct (H "b" E) as [Hp|[(before & after & Hp & _ & Hb)|[_ Hp]]]; [discriminate Hp|by exists before, after|discriminate Hp].
Defined.
