(* ===== verification/Errors.v ===== *)
(** * Errors: [pkg/errors]

    Aggregates of errors, what they flatten to and the text they print, and the
    two functions that run others concurrently, as step relations over the
    goroutines and the channel. *)

From S2P Require Import Prelude GoStr.
Local Open Scope stdpp_scope.

(** ** Values of type [error] that are not nil

    [New], [Errorf], [Wrap] and [WithStack] are those of github.com/pkg/errors, by
    its documentation: an error with a text, one that puts a message before the text
    of its cause, one that only records the stack.  The last two have a [Cause].
    [Aggregate] is the type [aggregate], the only [Aggregate] of the program.  A nil
    error is [None]. *)
Inductive error : Type :=
| Fundamental (msg : string)
| WithMessage (msg : string) (cause : error)
| WithStack_ (cause : error)
| Aggregate (errs : list error).

Section error_ind.
Context (P : error → Prop)
  (HF : ∀ m, P (Fundamental m)) (HM : ∀ m e, P e → P (WithMessage m e))
  (HS : ∀ e, P e → P (WithStack_ e)) (HA : ∀ l, Forall P l → P (Aggregate l)).
Fixpoint error_nested_ind (e : error) : P e :=
  match e with
  | Fundamental m => HF m
  | WithMessage m e => HM m e (error_nested_ind e)
  | WithStack_ e => HS e (error_nested_ind e)
  | Aggregate l => HA l ((fix go l : Forall P l :=
      match l with [] => Forall_nil_2 P | e :: l => Forall_cons_2 P e l (error_nested_ind e) (go l) end) l)
  end.
End error_ind.

Definition New (message : string) : option error := Some (Fundamental message).
Definition WithStack (err : option error) : option error := WithStack_ <$> err.
Definition Wrap (err : option error) (message : string) : option error :=
  (λ e, WithStack_ (WithMessage message e)) <$> err.

(** ** Aggregates *)

Definition newAggregate (errlist : list (option error)) : option error :=
  if Nat.eqb (length errlist) 0 then None else
  let errs := omap id errlist in
  if Nat.eqb (length errs) 0 then None else Some (Aggregate errs).

(** The method [Errors] of an aggregate. *)
Definition agg_Errors (agg : option error) : list error :=
  match agg with Some (Aggregate errs) => errs | _ => [] end.

(** [flatten] on an aggregate that is not nil. *)
Fixpoint flatten_agg (agg : error) : option error :=
  match agg with
  | Aggregate errs =>
      newAggregate (concat (map (λ err,
        match err with
        | Aggregate _ => map Some (agg_Errors (flatten_agg err))
        | _ => [Some err]
        end) errs))
  | _ => None
  end.

Definition flatten (agg : option error) : option error := agg ≫= flatten_agg.

Definition reduce (err : option error) : option error :=
  match err with
  | Some (Aggregate [e]) => Some e
  | Some (Aggregate []) => None
  | _ => err
  end.

Definition NewAggregate (errlist : list (option error)) : option error :=
  WithStack (reduce (flatten (newAggregate errlist))).

(** The deepest aggregate in a chain of causes; an aggregate has no cause. *)
Fixpoint Errors_of (e : error) : list error :=
  match e with
  | Aggregate errs => errs
  | WithMessage _ e | WithStack_ e => Errors_of e
  | Fundamental _ => []
  end.
Definition Errors (err : option error) : list error :=
  match err with Some e => Errors_of e | None => [] end.

(** ** The text of an error *)

(** The closure that [Error] passes to [visit]: the texts seen, and the result so far. *)
Definition add_text (st : gset string * string) (msg : string) : gset string * string :=
  let '(seen, result) := st in
  if decide (msg ∈ seen) then st else
  let seen := {[msg]} ∪ seen in
  (seen, (if Nat.ltb 1 (size seen) then result +:+ ", " else result) +:+ msg).

Definition join_texts (msgs : list string) : string :=
  let '(seen, result) := fold_left add_text msgs (∅, "") in
  if Nat.eqb (size seen) 1 then result else "[" +:+ result +:+ "]".

(** The text of an error, and those of the errors that [visit] reaches from it: the
    elements of aggregates within aggregates, other errors as they are. *)
Fixpoint texts (e : error) : string * list string :=
  match e with
  | Fundamental m => (m, [m])
  | WithMessage m e => let t := m +:+ ": " +:+ fst (texts e) in (t, [t])
  | WithStack_ e => let t := fst (texts e) in (t, [t])
  | Aggregate errs =>
      let ts := map texts errs in
      let visited := concat (map snd ts) in
      (match ts with [] => "" | [t] => fst t | _ => join_texts visited end, visited)
  end.

Definition Error (e : error) : string := fst (texts e).

(** ** What [NewAggregate] gives *)

(** The errors of nested aggregates, in order. *)
Fixpoint leaves (e : error) : list error :=
  match e with
  | Aggregate errs => concat (map leaves errs)
  | _ => [e]
  end.

Definition is_aggregate (e : error) : bool := match e with Aggregate _ => true | _ => false end.

Lemma leaves_plain e : Forall (λ x, is_aggregate x = false) (leaves e).
Proof.
  induction e as [m|m e _|e _|l IH] using error_nested_ind; simpl; try by repeat constructor.
  apply Forall_concat, Forall_fmap. done.
Qed.

Lemma omap_id_Some {A} (l : list A) : omap id (map Some l) = l.
Proof. induction l as [|x l IH]; simpl; [done|by f_equal]. Qed.

Lemma newAggregate_some (l : list error) :
  newAggregate (map Some l) = if Nat.eqb (length l) 0 then None else Some (Aggregate l).
Proof. unfold newAggregate. rewrite length_map, omap_id_Some. by destruct l. Qed.

Lemma agg_Errors_newAggregate (l : list error) : agg_Errors (newAggregate (map Some l)) = l.
Proof. rewrite newAggregate_some. by destruct l. Qed.

Lemma flatten_agg_leaves errs :
  flatten_agg (Aggregate errs) = newAggregate (map Some (leaves (Aggregate errs))).
Proof.
  enough (∀ e, (∀ l, e = Aggregate l → flatten_agg e = newAggregate (map Some (leaves e)))) as H by (by eapply H).
  clear errs. intros e. induction e as [m|m e _|e _|l IH] using error_nested_ind; try done.
  intros _ _. cbn [flatten_agg leaves]. f_equal. rewrite concat_map, map_map. f_equal.
  apply map_ext_Forall. eapply Forall_impl; [exact IH|]. clear. intros e He.
  destruct e as [| | |l0]; [done..|]. rewrite (He l0 eq_refl). by rewrite agg_Errors_newAggregate.
Qed.

Lemma newAggregate_omap errlist :
  newAggregate errlist = newAggregate (map Some (omap id errlist)).
Proof.
  unfold newAggregate. rewrite length_map, omap_id_Some. destruct errlist as [|x l]; [done|].
  by destruct (omap id (x :: l)).
Qed.

(** The chain of causes from [e] leads to [e']. *)
Inductive caused : error → error → Prop :=
| caused_refl e : caused e e
| caused_message m e e' : caused e e' → caused (WithMessage m e) e'
| caused_stack e e' : caused e e' → caused (WithStack_ e) e'.

Lemma Errors_caused e e' : caused e e' → Errors (Some e) = Errors (Some e').
Proof. by induction 1. Qed.

Lemma NewAggregate_eq errlist :
  NewAggregate errlist =
    match concat (map leaves (omap id errlist)) with
    | [] => None
    | [e] => Some (WithStack_ e)
    | ls => Some (WithStack_ (Aggregate ls))
    end.
Proof.
  unfold NewAggregate. rewrite newAggregate_omap, newAggregate_some.
  destruct (omap id errlist) as [|e0 l0]; [done|]. cbn [length Nat.eqb flatten mbind option_bind].
  rewrite flatten_agg_leaves, newAggregate_some. cbn [leaves].
  by destruct (concat _) as [|? [|? ?]].
Qed.

(** [NewAggregate] is nil when every error is; a single error, whatever the
    aggregates around it, is that error with a stack; several are one aggregate of
    them, in order, with no aggregate among them, which [Errors] gives back from
    under any wrapping. *)
Theorem NewAggregate_spec errlist :
  let ls := concat (map leaves (omap id errlist)) in
  Forall (λ e, is_aggregate e = false) ls ∧
  NewAggregate errlist =
    match ls with [] => None | [e] => Some (WithStack_ e) | _ => Some (WithStack_ (Aggregate ls)) end ∧
  ((2 <= length ls)%nat → ∀ e e', caused e e' → NewAggregate errlist = Some e' → Errors (Some e) = ls).
Proof.
  intros ls. split_and!; [|rewrite NewAggregate_eq; fold ls; by destruct ls as [|? [|? ?]]|].
  - apply Forall_concat, Forall_fmap, Forall_true. intros e. apply leaves_plain.
  - intros Hlen e e' Hc He'. rewrite (Errors_caused _ _ Hc). rewrite NewAggregate_eq in He'. fold ls in He'.
    destruct ls as [|? [|? ?]]; simpl in Hlen; [lia|lia|]. by injection He' as <-.
Qed.

(** ** What an aggregate prints *)

(** The first occurrences in a list. *)
Fixpoint firsts (seen : list string) (l : list string) : list string :=
  match l with
  | [] => []
  | x :: l => if str_in x seen then firsts seen l else x :: firsts (x :: seen) l
  end.

Lemma firsts_NoDup seen l : NoDup (firsts seen l) ∧ ∀ x, x ∈ firsts seen l ↔ x ∈ l ∧ x ∉ seen.
Proof.
  revert seen. induction l as [|y l IH]; intros seen; simpl.
  { split; [constructor|]. intros x. rewrite elem_of_nil. tauto. }
  destruct (str_in y seen) eqn:Hs; [apply str_in_true in Hs|apply str_in_false in Hs].
  - destruct (IH seen) as [Hn Hi]. split; [done|]. intros x. rewrite Hi, elem_of_cons. naive_solver.
  - destruct (IH (y :: seen)) as [Hn Hi]. split.
    + constructor; [|done]. rewrite Hi, elem_of_cons. tauto.
    + intros x. rewrite elem_of_cons, Hi, !elem_of_cons. destruct (decide (x = y)); naive_solver.
Qed.

(** Texts put after those that are there, with a comma between two. *)
Definition append_texts (first : bool) (result : string) (l : list string) : string :=
  match l with [] => result | _ => (if first then result else result +:+ ", ") +:+ Join l ", " end.

Lemma add_texts_spec l seen result (seenl : list string) :
  (∀ x, x ∈ seen ↔ x ∈ seenl) →
  fold_left add_text l (seen, result) =
    (list_to_set (firsts seenl l) ∪ seen, append_texts (bool_decide (seen = ∅)) result (firsts seenl l)).
Proof.
  revert seen result seenl. induction l as [|x l IH]; intros seen result seenl Hs.
  { simpl. f_equal. set_solver. }
  cbn [fold_left firsts]. unfold add_text at 2. destruct (str_in x seenl) eqn:Hx.
  - apply str_in_true, Hs in Hx. rewrite decide_True by done. by apply IH.
  - apply str_in_false in Hx. rewrite decide_False by (by rewrite Hs).
    rewrite (IH _ _ (x :: seenl)) by (intros y; rewrite elem_of_cons, <-Hs; set_solver).
    rewrite (bool_decide_eq_false_2 ({[x]} ∪ seen = ∅)) by set_solver.
    f_equal; [set_solver|].
    assert (Nat.ltb 1 (size ({[x]} ∪ seen)) = negb (bool_decide (seen = ∅))) as ->.
    { rewrite size_union by (apply disjoint_singleton_l; rewrite Hs; done). rewrite size_singleton.
      destruct (bool_decide_reflect (seen = ∅)) as [->|Hne]; [done|].
      apply Nat.ltb_lt. assert (size seen ≠ 0%nat) by (by rewrite size_empty_iff, leibniz_equiv_iff). lia. }
    unfold append_texts. destruct (firsts (x :: seenl) l) as [|y l']; simpl.
    + by destruct (bool_decide (seen = ∅)).
    + destruct (bool_decide (seen = ∅)); simpl; by rewrite !string_app_assoc.
Qed.

(** The text of an aggregate of two or more errors names each distinct text of
    the errors in it once, where it first occurs, separated by commas, and in
    brackets when there are several. *)
Theorem aggregate_Error_spec e1 e2 errs :
  let visited := snd (texts (Aggregate (e1 :: e2 :: errs))) in
  Error (Aggregate (e1 :: e2 :: errs)) =
    match firsts [] visited with [t] => t | ts => "[" +:+ Join ts ", " +:+ "]" end ∧
  NoDup (firsts [] visited) ∧ ∀ t, t ∈ firsts [] visited ↔ t ∈ visited.
Proof.
  intros visited. split.
  - change (join_texts visited = match firsts [] visited with [t] => t | ts => "[" +:+ Join ts ", " +:+ "]" end).
    unfold join_texts. rewrite (add_texts_spec _ _ _ []) by set_solver.
    rewrite union_empty_r_L, size_list_to_set by (apply firsts_NoDup).
    rewrite bool_decide_eq_true_2 by done.
    destruct (firsts [] visited) as [|x [|y l]]; [done|by destruct x|done].
  - destruct (firsts_NoDup [] visited) as [Hn Hi]. split; [done|]. intros t. rewrite Hi, elem_of_nil. tauto.
Qed.

(** ** Running functions concurrently

    The goroutines that have not sent yet, as the results their functions give; what
    is in the channel, which holds as many as there are functions; and the caller. *)
Inductive caller := Receiving (i : nat) | Returned (r : option error).
Record cstate := mkC {
  c_running : list (option error);
  c_chan : list (option error);
  c_caller : caller
}.

(** A goroutine sends when the channel has room. *)
Inductive send (cap : nat) : cstate → cstate → Prop :=
| Send l1 r l2 ch m :
    (length ch < cap)%nat → send cap (mkC (l1 ++ r :: l2) ch m) (mkC (l1 ++ l2) (ch ++ [r]) m).

(** The loop of [UntilErrorConcurrent] receives up to [n] results. *)
Inductive UntilErrorConcurrent (n : nat) : cstate → cstate → Prop :=
| U_send st st' : send n st st' → UntilErrorConcurrent n st st'
| U_nil rs ch i : (i < n)%nat →
    UntilErrorConcurrent n (mkC rs (None :: ch) (Receiving i)) (mkC rs ch (Receiving (S i)))
| U_error rs e ch i : (i < n)%nat →
    UntilErrorConcurrent n (mkC rs (Some e :: ch) (Receiving i)) (mkC rs ch (Returned (Some e)))
| U_end rs ch :
    UntilErrorConcurrent n (mkC rs ch (Receiving n)) (mkC rs ch (Returned None)).

(** What is returned for the results in the closed channel. *)
Definition collect (ch : list (option error)) : option error :=
  let errs := omap id ch in
  match errs with
  | [] => None
  | [e] => Some e
  | _ => NewAggregate (map Some errs)
  end.

(** [AggregateConcurrent] waits for every goroutine to end. *)
Inductive AggregateConcurrent (n : nat) : cstate → cstate → Prop :=
| A_send st st' : send n st st' → AggregateConcurrent n st st'
| A_closed ch :
    AggregateConcurrent n (mkC [] ch (Receiving 0)) (mkC [] ch (Returned (collect ch))).

(** [funcs] are the results that the functions will give. *)
Definition started (funcs : list (option error)) : cstate := mkC funcs [] (Receiving 0).

(** Every step takes a result further. *)
Definition c_measure (st : cstate) : nat :=
  2 * length (c_running st) + length (c_chan st) +
  match c_caller st with Receiving _ => 1 | Returned _ => 0 end.

Lemma send_measure cap st st' : send cap st st' → (c_measure st' < c_measure st)%nat.
Proof. destruct 1. unfold c_measure. simpl. rewrite !length_app. simpl. lia. Qed.

Lemma measure_sn (R : relation cstate) :
  (∀ st st', R st st' → (c_measure st' < c_measure st)%nat) → ∀ st, sn R st.
Proof.
  intros HR st. remember (c_measure st) as k eqn:Hk. revert st Hk.
  induction (lt_wf k) as [k _ IH]. intros st ->. constructor. intros st' Hst'.
  by eapply IH; [apply HR, Hst'|].
Qed.

(** The results are all somewhere: running, in the channel, or with the caller. *)
Definition with_caller (n : nat) (m : caller) (got : list (option error)) : Prop :=
  match m with
  | Receiving i => got = replicate i None
  | Returned (Some e) => ∃ i, got = Some e :: replicate i None
  | Returned None => got = replicate n None
  end.

Definition u_inv (funcs : list (option error)) (st : cstate) : Prop :=
  ∃ got, with_caller (length funcs) (c_caller st) got ∧ c_running st ++ c_chan st ++ got ≡ₚ funcs.

Lemma u_inv_step funcs st st' :
  u_inv funcs st → UntilErrorConcurrent (length funcs) st st' → u_inv funcs st'.
Proof.
  intros (got & Hg & Hp) Hs. destruct Hs as [? ? [l1 r l2 ch m Hroom]|rs ch i Hi|rs e ch i Hi|rs ch]; simpl in *.
  - exists got. split; [done|]. simpl. rewrite <-Hp. simplify_list_eq. solve_Permutation.
  - exists (None :: got). split; [by subst|]. simpl. rewrite <-Hp. simpl. solve_Permutation.
  - exists (Some e :: got). split; [by exists i; subst|]. simpl. rewrite <-Hp. simpl. solve_Permutation.
  - exists got. done.
Qed.

Lemma room_left funcs (rs ch got : list (option error)) :
  rs ++ ch ++ got ≡ₚ funcs → rs ≠ [] → (length ch < length funcs)%nat.
Proof. intros <-. rewrite !length_app. destruct rs; [done|]. simpl. lia. Qed.

Lemma send_possible cap rs ch m : rs ≠ [] → (length ch < cap)%nat → ∃ st', send cap (mkC rs ch m) st'.
Proof. destruct rs as [|r rs]; [done|]. intros _ Hc. eexists. by apply (Send cap [] r rs). Qed.

(** C35. [UntilErrorConcurrent] returns, however the functions interleave: no run is
    infinite, and one that cannot go on has returned and has every goroutine ended,
    none of them blocked on the channel.  It returns nil exactly when every function
    does, and otherwise an error that one of them gave. *)
Theorem UntilErrorConcurrent_spec funcs :
  let n := length funcs in
  sn (UntilErrorConcurrent n) (started funcs) ∧
  ∀ st, rtc (UntilErrorConcurrent n) (started funcs) st →
    (nf (UntilErrorConcurrent n) st → c_running st = [] ∧ ∃ r, c_caller st = Returned r) ∧
    (∀ r, c_caller st = Returned r →
       (r = None ↔ Forall (λ x, x = None) funcs) ∧ ∀ e, r = Some e → Some e ∈ funcs).
Proof.
  intros n. split.
  { apply measure_sn. intros st st' [? ? Hsend| | |]; [by eapply send_measure|unfold c_measure; simpl; lia..]. }
  intros st Hr. assert (u_inv funcs st) as (got & Hg & Hp).
  { eapply (rtc_ind_r (u_inv funcs)); [|intros; by eapply u_inv_step|exact Hr].
    exists []. split; [done|]. simpl. by rewrite app_nil_r. }
  destruct st as [rs ch m]. simpl in *. split.
  - intros Hnf. destruct (decide (rs = [])) as [->|Hne].
    + split; [done|]. destruct m as [i|r]; [|eauto]. exfalso. simpl in Hg. subst got.
      apply Permutation_length in Hp. simpl in Hp. rewrite length_app, length_replicate in Hp.
      destruct ch as [|[e|] ch]; simpl in Hp; apply Hnf.
      * subst n. rewrite <-Hp. eexists. apply U_end.
      * eexists. apply U_error. subst n. lia.
      * eexists. apply U_nil. subst n. lia.
    + exfalso. apply Hnf. destruct (send_possible n rs ch m Hne) as [st' Hst']; [by eapply room_left|].
      exists st'. by apply U_send.
  - intros r ->. simpl in Hg. destruct r as [e|].
    + destruct Hg as [i ->]. assert (Some e ∈ funcs) as He.
      { rewrite <-Hp, !elem_of_app, elem_of_cons. auto. }
      split; [|by intros ? [= <-]]. split; [done|]. rewrite Forall_forall. intros Hall. by apply Hall in He.
    + split; [|done]. split; [|done]. intros _. subst got.
      assert (length rs = 0 ∧ length ch = 0)%nat as [->%nil_length_inv ->%nil_length_inv].
      { apply Permutation_length in Hp. rewrite !length_app, length_replicate in Hp. lia. }
      simpl in Hp. rewrite <-Hp. apply Forall_replicate. done.
Qed.

Definition a_inv (funcs : list (option error)) (st : cstate) : Prop :=
  c_running st ++ c_chan st ≡ₚ funcs ∧
  match c_caller st with
  | Receiving i => i = 0%nat
  | Returned r => c_running st = [] ∧ r = collect (c_chan st)
  end.

Lemma a_inv_step funcs st st' :
  a_inv funcs st → AggregateConcurrent (length funcs) st st' → a_inv funcs st'.
Proof.
  intros [Hp Hm] Hs. destruct Hs as [? ? [l1 r l2 ch m Hroom]|ch]; simpl in *; [|done].
  split; simpl.
  - rewrite <-Hp. simplify_list_eq. solve_Permutation.
  - destruct m as [|r']; [done|]. destruct Hm as [Hnil _]. by destruct l1.
Qed.

(** An aggregate of no errors, which [newAggregate] never makes, is nowhere in it. *)
Definition has_error (e : error) : Prop := leaves e ≠ [].

Lemma omap_nil_iff (ch : list (option error)) : omap id ch = [] ↔ Forall (λ x, x = None) ch.
Proof.
  induction ch as [|[e|] ch IH]; simpl; rewrite ?Forall_cons; [split; [by constructor|done]|naive_solver|].
  rewrite IH. naive_solver.
Qed.

Lemma collect_None ch :
  (∀ e, Some e ∈ ch → has_error e) → collect ch = None ↔ Forall (λ x, x = None) ch.
Proof.
  intros Hwf. rewrite <-omap_nil_iff. unfold collect.
  destruct (omap id ch) as [|e1 [|e2 l]] eqn:He; [done..|]. split; [|done]. intros Hn. exfalso.
  rewrite NewAggregate_eq, omap_id_Some in Hn. simpl in Hn.
  assert (has_error e1) as H1.
  { apply Hwf. assert (e1 ∈ omap id ch) as Hin by (rewrite He; apply list_elem_of_here).
    apply list_elem_of_omap in Hin as (x & Hx & Heq). simpl in Heq. by subst. }
  unfold has_error in H1. destruct (leaves e1) as [|a [|b m]]; [done| |done].
  simpl in Hn. by destruct (leaves e2 ++ _).
Qed.

(** [AggregateConcurrent] returns, however the functions interleave, when every
    function has; what it returns is nil exactly when every function gives nil, the
    error when one gives an error, and else the aggregate of all of them, in the
    order in which they ended. *)
Theorem AggregateConcurrent_spec funcs :
  (∀ e, Some e ∈ funcs → has_error e) →
  let n := length funcs in
  sn (AggregateConcurrent n) (started funcs) ∧
  ∀ st, rtc (AggregateConcurrent n) (started funcs) st →
    (nf (AggregateConcurrent n) st → ∃ r, c_caller st = Returned r) ∧
    (∀ r, c_caller st = Returned r →
       c_running st = [] ∧ (r = None ↔ Forall (λ x, x = None) funcs) ∧
       ∃ order, order ≡ₚ funcs ∧ r = collect order).
Proof.
  intros Hwf n. split.
  { apply measure_sn. intros st st' [? ? Hsend|ch]; [by eapply send_measure|unfold c_measure; simpl; lia]. }
  intros st Hr. assert (a_inv funcs st) as [Hp Hm].
  { eapply (rtc_ind_r (a_inv funcs)); [|intros; by eapply a_inv_step|exact Hr].
    split; [|done]. simpl. by rewrite app_nil_r. }
  destruct st as [rs ch m]. simpl in *. split.
  - intros Hnf. destruct m as [i|r]; [|eauto]. subst i. exfalso. apply Hnf.
    destruct (decide (rs = [])) as [->|Hne]; [eexists; apply A_closed|].
    destruct (send_possible n rs ch (Receiving 0) Hne) as [st' Hst'].
    { eapply (room_left funcs rs ch []); [by rewrite app_nil_r|done]. }
    exists st'. by apply A_send.
  - intros r ->. destruct Hm as [-> ->]. simpl in Hp. split_and!; [done| |by exists ch].
    rewrite collect_None; [by rewrite Hp|]. intros e He. apply Hwf. by rewrite <-Hp.
Qed.

(** Two functions of which one fails. *)
Lemma AggregateConcurrent_spec_witness :
  (∀ e, Some e ∈ [None; Some (Fundamental "a")] → has_error e) ∧
  sn (AggregateConcurrent 2) (started [None; Some (Fundamental "a")]).
Proof.
  assert (∀ e, Some e ∈ [None; Some (Fundamental "a")] → has_error e) as Hwf.
  { intros e He. rewrite !elem_of_cons, elem_of_nil in He. destruct He as [He|[[= ->]|[]]]; [discriminate|].
    unfold has_error. simpl. discriminate. }
  split; [exact Hwf|]. exact (proj1 (AggregateConcurrent_spec _ Hwf)).
Defined.

(** An aggregate that was made by [NewAggregate] is not flattened by another: the
    stack around it hides it. *)
Example nested_not_flattened :
  NewAggregate [NewAggregate [New "a"; New "b"]; New "c"] =
    Some (WithStack_ (Aggregate [WithStack_ (Aggregate [Fundamental "a"; Fundamental "b"]); Fundamental "c"])) ∧
  option_map Error (NewAggregate [NewAggregate [New "a"; New "b"]; New "c"]) = Some "[[a, b], c]".
Proof. split; reflexivity. Qed.
