(* ===== verification/KindConfig.v ===== *)
(** * The configuration of the local kind cluster

    [pkg/internal/apis/config] and [pkg/apis/config/v1alpha4]: the types, their
    defaults, the conversion of the public version to the internal one, and the
    validation. *)

From S2P Require Import Prelude GoStr Regexp NetIP Errors.
Local Open Scope Z_scope.
Local Open Scope go_scope.
Local Open Scope stdpp_scope.

(** ** The internal types *)

Record PatchJSON6902 := mkPatchJSON6902 {
  pj_Group : string; pj_Version : string; pj_Kind : string; pj_Patch : string }.
Record Mount := mkMount {
  mo_ContainerPath : string; mo_HostPath : string; mo_Readonly : bool;
  mo_SelinuxRelabel : bool; mo_Propagation : string }.
Record PortMapping := mkPortMapping {
  pm_ContainerPort : Z; pm_HostPort : Z; pm_ListenAddress : string; pm_Protocol : string }.
Record Node := mkNode {
  no_Role : string;
  no_Image : string;
  no_Labels : gmap string string;
  no_ExtraMounts : list Mount;
  no_ExtraPortMappings : list PortMapping;
  no_KubeadmConfigPatches : list string;
  no_KubeadmConfigPatchesJSON6902 : list PatchJSON6902
}.
Record Networking := mkNetworking {
  nt_IPFamily : string;
  nt_APIServerPort : Z;
  nt_APIServerAddress : string;
  nt_PodSubnet : string;
  nt_ServiceSubnet : string;
  nt_DisableDefaultCNI : bool;
  nt_KubeProxyMode : string
}.
Record Cluster := mkCluster {
  kc_Name : string;
  kc_Nodes : list Node;
  kc_Networking : Networking;
  kc_FeatureGates : gmap string bool;
  kc_RuntimeConfig : gmap string string;
  kc_KubeadmConfigPatches : list string;
  kc_KubeadmConfigPatchesJSON6902 : list PatchJSON6902;
  kc_ContainerdConfigPatches : list string;
  kc_ContainerdConfigPatchesJSON6902 : list string
}.
(** The zero value of the type. *)
Definition zero_Cluster : Cluster :=
  mkCluster "" [] (mkNetworking "" 0 "" "" "" false "") ∅ ∅ [] [] [] [].

Definition ControlPlaneRole : string := "control-plane".
Definition WorkerRole : string := "worker".
Definition IPv4Family : string := "ipv4".
Definition IPv6Family : string := "ipv6".
Definition DualStackFamily : string := "dual".
Definition IPTablesProxyMode : string := "iptables".
Definition IPVSProxyMode : string := "ipvs".
Definition NoneProxyMode : string := "none".
Definition DefaultClusterName : string := "kind".

(** ** The default image *)

(** The variables of pkg/cmd/kind/version that are set when the program is built. *)
Record build := mkBuild {
  versionPreRelease : string; gitTag : string; gitCommitCount : string; gitCommit : string }.
Definition versionCore : string := "0.10.0".

Definition truncate (s : string) (maxLen : nat) : string :=
  if Nat.ltb (String.length s) maxLen then s else String.substring 0 maxLen s.

(** [version.Version]. *)
Definition CLIVersion (b : build) (useGitCommit : bool) : string :=
  if versionPreRelease b <>s "" then
    if gitTag b <>s "" then gitTag b else
    let preRelease := versionPreRelease b +:+
      (if (versionPreRelease b =s "SNAPSHOT") && (gitCommitCount b <>s "") then "." +:+ gitCommitCount b else "") in
    versionCore +:+ "-" +:+ preRelease +:+
      (if useGitCommit && (gitCommit b <>s "") then "+" +:+ truncate (gitCommit b) 14 else "")
  else versionCore.

Definition Image (b : build) : string := "cloud-provisioner:" +:+ CLIVersion b false.

(** ** Defaults *)

(** [if s == "" { s = d }] *)
Definition dflt (s d : string) : string := if s =s "" then d else s.

Definition SetDefaultsNode (b : build) (obj : Node) : Node :=
  mkNode (dflt (no_Role obj) ControlPlaneRole) (dflt (no_Image obj) (Image b)) (no_Labels obj)
    (no_ExtraMounts obj) (no_ExtraPortMappings obj) (no_KubeadmConfigPatches obj)
    (no_KubeadmConfigPatchesJSON6902 obj).

(** The addresses for a family. *)
Definition default_address (family : string) : string :=
  if family =s IPv6Family then "::1" else "127.0.0.1".
Definition default_PodSubnet (family : string) : string :=
  if family =s DualStackFamily then "10.244.0.0/16,fd00:10:244::/56"
  else if family =s IPv6Family then "fd00:10:244::/56" else "10.244.0.0/16".
Definition default_ServiceSubnet (family : string) : string :=
  if family =s DualStackFamily then "10.96.0.0/16,fd00:10:96::/112"
  else if family =s IPv6Family then "fd00:10:96::/112" else "10.96.0.0/16".

Definition SetDefaultsNetworking (n : Networking) : Networking :=
  let family := dflt (nt_IPFamily n) IPv4Family in
  mkNetworking family (nt_APIServerPort n)
    (dflt (nt_APIServerAddress n) (default_address family))
    (dflt (nt_PodSubnet n) (default_PodSubnet family))
    (dflt (nt_ServiceSubnet n) (default_ServiceSubnet family))
    (nt_DisableDefaultCNI n) (dflt (nt_KubeProxyMode n) IPTablesProxyMode).

Definition default_node (b : build) : Node := mkNode ControlPlaneRole (Image b) ∅ [] [] [] [].

(** A cluster without nodes gets one. *)
Definition default_nodes (b : build) (nodes : list Node) : list Node :=
  map (SetDefaultsNode b) (if Nat.eqb (length nodes) 0 then [default_node b] else nodes).

Definition SetDefaultsCluster (b : build) (obj : Cluster) : Cluster :=
  mkCluster (dflt (kc_Name obj) DefaultClusterName) (default_nodes b (kc_Nodes obj))
    (SetDefaultsNetworking (kc_Networking obj)) (kc_FeatureGates obj) (kc_RuntimeConfig obj)
    (kc_KubeadmConfigPatches obj) (kc_KubeadmConfigPatchesJSON6902 obj)
    (kc_ContainerdConfigPatches obj) (kc_ContainerdConfigPatchesJSON6902 obj).

(** ** Validation *)

Definition cs_cluster_name : charset := [rng "a" "z"; rng "0" "9"; chr "."; chr "-"].
Definition validNameRE : regex := RPlus (RSet cs_cluster_name).

Definition Errorf (msg : string) : error := Fundamental msg.
Definition Wrapf (err : error) (msg : string) : error := WithStack_ (WithMessage msg err).

(** [errs = append(errs, e)] when [err] is not nil. *)
Definition append_err (f : error → error) (err : option error) : list error :=
  match err with Some e => [f e] | None => [] end.
Definition append_if (b : bool) (e : error) : list error := if b then [e] else [].

(** [if len(errs) > 0 { return errors.NewAggregate(errs) }; return nil] *)
Definition aggregate_of (errs : list error) : option error :=
  if Nat.ltb 0 (length errs) then NewAggregate (map Some errs) else None.

Definition validatePort (port : Z) : option error :=
  if (port <? -1) || (65535 <? port) then Some (Errorf ("invalid port number: " +:+ Itoa port)) else None.

Definition check_mapping (m : PortMapping) : list error :=
  append_err (λ e, Wrapf e "invalid hostPort") (validatePort (pm_HostPort m)) ++
  append_err (λ e, Wrapf e "invalid containerPort") (validatePort (pm_ContainerPort m)).

(** The method [Validate] of a node. *)
Definition Node_Validate (n : Node) : option error :=
  aggregate_of
    (append_if (negb (str_in (no_Role n) [ControlPlaneRole; WorkerRole]))
       (Errorf (Q (no_Role n) +:+ " is not a valid node role")) ++
     append_if (no_Image n =s "") (Errorf "image is a required field") ++
     concat (map check_mapping (no_ExtraPortMappings n))).

(** Whether the address of a network has a [To4] form. *)
Definition is_v4 (n : IPNet) : bool := ip_bits (To4 (mkIP (in_bits n) (in_val n))) =? 32.

(** The loop of [isDualStackCIDRs]; a network that [ParseCIDR] returns is not nil. *)
Fixpoint families_found (v4Found v6Found : bool) (cidrs : list IPNet) : bool :=
  match cidrs with
  | [] => v4Found && v6Found
  | c :: cidrs =>
      if v4Found && v6Found then families_found v4Found v6Found cidrs
      else if negb (is_v4 c) then families_found v4Found true cidrs
      else families_found true v6Found cidrs
  end.
Definition isDualStackCIDRs (cidrs : list IPNet) : bool := families_found false false cidrs.

(** The first text that is no network, or the networks. *)
Fixpoint parse_subnets (l : list string) : string + list IPNet :=
  match l with
  | [] => inr []
  | s :: l =>
      match ParseCIDR s with
      | None => inl s
      | Some n => match parse_subnets l with inl s => inl s | inr ns => inr (n :: ns) end
      end
  end.

Definition dual_msg : string :=
  "expected one (IPv4 or IPv6) CIDR or two CIDRs from each family for dual-stack networking".

Definition check_subnets (ipFamily : string) (subnets : list IPNet) : list error :=
  let dualstack := ipFamily =s DualStackFamily in
  let n := length subnets in
  match subnets with
  | [] => [Errorf "no subnets defined"]
  | s0 :: _ =>
      if dualstack && Nat.ltb 2 n then [Errorf dual_msg]
      else if dualstack && Nat.eqb n 2 then append_if (negb (isDualStackCIDRs subnets)) (Errorf dual_msg)
      else if negb dualstack && Nat.ltb 1 n then [Errorf "only one CIDR allowed for single-stack networking"]
      else if (ipFamily =s IPv4Family) && negb (is_v4 s0) then [Errorf "expected IPv4 CIDR for IPv4 family"]
      else append_if ((ipFamily =s IPv6Family) && is_v4 s0) (Errorf "expected IPv6 CIDR for IPv6 family")
  end.

Definition validateSubnets (subnetStr ipFamily : string) : option error :=
  match parse_subnets (Split subnetStr ",") with
  | inl s => Some (Errorf ("failed to parse cidr value:" +:+ Q s +:+ " with error: invalid CIDR address: " +:+ s))
  | inr subnets => aggregate_of (check_subnets ipFamily subnets)
  end.

(** The nodes of each role. *)
Definition count_role (numByRole : gmap string Z) (n : Node) : gmap string Z :=
  match numByRole !! no_Role n with
  | Some num => <[no_Role n := 1 + num]> numByRole
  | None => <[no_Role n := 1]> numByRole
  end.

(** The method [Validate] of a cluster. *)
Definition Validate (c : Cluster) : option error :=
  let nt := kc_Networking c in
  let numByRole := fold_left count_role (kc_Nodes c) ∅ in
  aggregate_of
    (append_if (negb (MatchString validNameRE (kc_Name c)))
       (Errorf ("'" +:+ kc_Name c +:+ "' is not a valid cluster name, cluster names must match `^[a-z0-9.-]+$`")) ++
     (if nt_APIServerPort nt =? 0 then [] else
        append_err (λ e, Wrapf e "invalid apiServerPort") (validatePort (nt_APIServerPort nt))) ++
     append_err (λ e, Errorf ("invalid pod subnet " +:+ Error e))
       (validateSubnets (nt_PodSubnet nt) (nt_IPFamily nt)) ++
     append_err (λ e, Errorf ("invalid service subnet " +:+ Error e))
       (validateSubnets (nt_ServiceSubnet nt) (nt_IPFamily nt)) ++
     append_if ((nt_KubeProxyMode nt <>s IPTablesProxyMode) && (nt_KubeProxyMode nt <>s IPVSProxyMode) &&
                (nt_KubeProxyMode nt <>s NoneProxyMode))
       (Errorf ("invalid kubeProxyMode: " +:+ nt_KubeProxyMode nt)) ++
     concat (imap (λ i n,
       append_err (λ e, Errorf ("invalid configuration for node " +:+ Itoa (Z.of_nat i) +:+ ": " +:+ Error e))
         (Node_Validate n)) (kc_Nodes c)) ++
     append_if (match numByRole !! ControlPlaneRole with None => true | Some num => num <? 1 end)
       (Errorf ("must have at least one " +:+ ControlPlaneRole +:+ " node"))).

Definition ClusterHasIPv6 (c : Cluster) : bool :=
  (nt_IPFamily (kc_Networking c) =s IPv6Family) || (nt_IPFamily (kc_Networking c) =s DualStackFamily).

Definition ClusterHasImplicitLoadBalancer (c : Cluster) : bool :=
  Nat.ltb 1 (length (List.filter (λ n, no_Role n =s ControlPlaneRole) (kc_Nodes c))).

(** ** The public version [v1alpha4] *)

Module v1alpha4.
Record V1PatchJSON6902 := mkPatchJSON6902 { Group : string; Version : string; Kind : string; Patch : string }.
Record V1Mount := mkMount {
  ContainerPath : string; HostPath : string; Readonly : bool; SelinuxRelabel : bool; Propagation : string }.
Record V1PortMapping := mkPortMapping {
  ContainerPort : Z; HostPort : Z; ListenAddress : string; Protocol : string }.
Record V1Node := mkNode {
  Role : string;
  NodeImage : string;
  Labels : gmap string string;
  ExtraMounts : list V1Mount;
  ExtraPortMappings : list V1PortMapping;
  NodeKubeadmConfigPatches : list string;
  NodeKubeadmConfigPatchesJSON6902 : list V1PatchJSON6902
}.
Record V1Networking := mkNetworking {
  IPFamily : string; APIServerPort : Z; APIServerAddress : string; PodSubnet : string;
  ServiceSubnet : string; DisableDefaultCNI : bool; KubeProxyMode : string }.
Record TypeMeta := mkTypeMeta { TKind : string; APIVersion : string }.
Record V1Cluster := mkCluster {
  Meta : TypeMeta;
  Name : string;
  Nodes : list V1Node;
  Networking_ : V1Networking;
  FeatureGates : gmap string bool;
  RuntimeConfig : gmap string string;
  KubeadmConfigPatches : list string;
  KubeadmConfigPatchesJSON6902 : list V1PatchJSON6902;
  ContainerdConfigPatches : list string;
  ContainerdConfigPatchesJSON6902 : list string
}.

(** [UnmarshalYAML] of the two types, after the fields are decoded. *)
Definition Mount_UnmarshalYAML (a : V1Mount) : res V1Mount :=
  if str_in (Propagation a) [""; "None"; "HostToContainer"; "Bidirectional"] then Ok a
  else Err ("Unknown MountPropagation: " +:+ Q (Propagation a)).
Definition PortMapping_UnmarshalYAML (a : V1PortMapping) : res V1PortMapping :=
  let p := ToUpper (Protocol a) in
  if str_in p [""; "TCP"; "UDP"; "SCTP"]
  then Ok (mkPortMapping (ContainerPort a) (HostPort a) (ListenAddress a) p)
  else Err ("Unknown PortMappingProtocol: " +:+ Q p).

Definition V1SetDefaultsNode (b : build) (obj : V1Node) : V1Node :=
  mkNode (dflt (Role obj) ControlPlaneRole) (dflt (NodeImage obj) (Image b)) (Labels obj)
    (ExtraMounts obj) (ExtraPortMappings obj) (NodeKubeadmConfigPatches obj)
    (NodeKubeadmConfigPatchesJSON6902 obj).

Definition V1SetDefaultsNetworking (n : V1Networking) : V1Networking :=
  let family := dflt (IPFamily n) IPv4Family in
  mkNetworking family (APIServerPort n)
    (dflt (APIServerAddress n) (if family =s IPv6Family then "::1" else "127.0.0.1"))
    (dflt (PodSubnet n)
       (if family =s DualStackFamily then "10.244.0.0/16,fd00:10:244::/56"
        else if family =s IPv6Family then "fd00:10:244::/56" else "10.244.0.0/16"))
    (dflt (ServiceSubnet n)
       (if family =s DualStackFamily then "10.96.0.0/16,fd00:10:96::/112"
        else if family =s IPv6Family then "fd00:10:96::/112" else "10.96.0.0/16"))
    (DisableDefaultCNI n) (dflt (KubeProxyMode n) IPTablesProxyMode).

(** Unlike the internal one it leaves the name. *)
Definition V1SetDefaultsCluster (b : build) (obj : V1Cluster) : V1Cluster :=
  let nodes := if Nat.eqb (length (Nodes obj)) 0
               then [mkNode ControlPlaneRole (Image b) ∅ [] [] [] []] else Nodes obj in
  mkCluster (Meta obj) (Name obj) (map (V1SetDefaultsNode b) nodes)
    (V1SetDefaultsNetworking (Networking_ obj)) (FeatureGates obj) (RuntimeConfig obj)
    (KubeadmConfigPatches obj) (KubeadmConfigPatchesJSON6902 obj)
    (ContainerdConfigPatches obj) (ContainerdConfigPatchesJSON6902 obj).
End v1alpha4.

Definition convertv1alpha4PatchJSON6902 (x : v1alpha4.V1PatchJSON6902) : PatchJSON6902 :=
  mkPatchJSON6902 (v1alpha4.Group x) (v1alpha4.Version x) (v1alpha4.Kind x) (v1alpha4.Patch x).
Definition convertv1alpha4Mount (x : v1alpha4.V1Mount) : Mount :=
  mkMount (v1alpha4.ContainerPath x) (v1alpha4.HostPath x) (v1alpha4.Readonly x)
    (v1alpha4.SelinuxRelabel x) (v1alpha4.Propagation x).
Definition convertv1alpha4PortMapping (x : v1alpha4.V1PortMapping) : PortMapping :=
  mkPortMapping (v1alpha4.ContainerPort x) (v1alpha4.HostPort x) (v1alpha4.ListenAddress x)
    (v1alpha4.Protocol x).
Definition convertv1alpha4Networking (x : v1alpha4.V1Networking) : Networking :=
  mkNetworking (v1alpha4.IPFamily x) (v1alpha4.APIServerPort x) (v1alpha4.APIServerAddress x)
    (v1alpha4.PodSubnet x) (v1alpha4.ServiceSubnet x) (v1alpha4.DisableDefaultCNI x)
    (v1alpha4.KubeProxyMode x).
Definition convertv1alpha4Node (x : v1alpha4.V1Node) : Node :=
  mkNode (v1alpha4.Role x) (v1alpha4.NodeImage x) (v1alpha4.Labels x)
    (map convertv1alpha4Mount (v1alpha4.ExtraMounts x))
    (map convertv1alpha4PortMapping (v1alpha4.ExtraPortMappings x))
    (v1alpha4.NodeKubeadmConfigPatches x)
    (map convertv1alpha4PatchJSON6902 (v1alpha4.NodeKubeadmConfigPatchesJSON6902 x)).
Definition Convertv1alpha4 (x : v1alpha4.V1Cluster) : Cluster :=
  mkCluster (v1alpha4.Name x) (map convertv1alpha4Node (v1alpha4.Nodes x))
    (convertv1alpha4Networking (v1alpha4.Networking_ x)) (v1alpha4.FeatureGates x)
    (v1alpha4.RuntimeConfig x) (v1alpha4.KubeadmConfigPatches x)
    (map convertv1alpha4PatchJSON6902 (v1alpha4.KubeadmConfigPatchesJSON6902 x))
    (v1alpha4.ContainerdConfigPatches x) (v1alpha4.ContainerdConfigPatchesJSON6902 x).

Definition V1Alpha4ToInternal (b : build) (cluster : v1alpha4.V1Cluster) : Cluster :=
  Convertv1alpha4 (v1alpha4.V1SetDefaultsCluster b cluster).

(** ** Loading a file *)

(** The YAML decoder: the type of the text, and strictly the cluster. *)
Section loading.
Context (decode_meta : string → res v1alpha4.TypeMeta) (decode_strict : string → res v1alpha4.V1Cluster).
Context (b : build).

Definition Parse (raw : string) : res Cluster :=
  tm ← errors_Wrap "could not determine kind / apiVersion for config" (decode_meta raw);
  if v1alpha4.APIVersion tm =s "kind.x-k8s.io/v1alpha4" then
    fail_when (v1alpha4.TKind tm <>s "Cluster")
      ("unknown kind " +:+ v1alpha4.TKind tm +:+ " for apiVersion: " +:+ v1alpha4.APIVersion tm) ;;
    cfg ← errors_Wrap "unable to decode config" (decode_strict raw);
    Ok (V1Alpha4ToInternal b cfg)
  else Err ("unknown apiVersion: " +:+ v1alpha4.APIVersion tm).

Definition Load (readFile : string → res string) (path : string) : res Cluster :=
  if path =s "" then Ok (SetDefaultsCluster b zero_Cluster) else
  raw ← errors_Wrap "error reading file" (readFile path);
  Parse raw.
End loading.

(** ** What a valid configuration is *)

Definition name_ok (s : string) : Prop :=
  bytes s ≠ [] ∧ Forall (λ c, cs_mem cs_cluster_name c = true) (bytes s).
Definition port_ok (p : Z) : Prop := -1 <= p <= 65535.
Definition node_ok (n : Node) : Prop :=
  no_Role n ∈ [ControlPlaneRole; WorkerRole] ∧ no_Image n ≠ "" ∧
  Forall (λ m, port_ok (pm_HostPort m) ∧ port_ok (pm_ContainerPort m)) (no_ExtraPortMappings n).

(** One network for a single family, of that family; for both families one of any, or
    one of each. *)
Definition subnets_ok (s family : string) : Prop :=
  ∃ nets, mapM ParseCIDR (Split s ",") = Some nets ∧
    if decide (family = DualStackFamily)
    then length nets = 1%nat ∨ ∃ x y, nets = [x; y] ∧ is_v4 x ≠ is_v4 y
    else ∃ x, nets = [x] ∧ (family = IPv4Family → is_v4 x = true) ∧ (family = IPv6Family → is_v4 x = false).

(** *** Lists of problems *)

Lemma append_err_nil f err : append_err f err = [] ↔ err = None.
Proof. by destruct err. Qed.
Lemma append_if_nil b e : append_if b e = [] ↔ b = false.
Proof. by destruct b. Qed.
Lemma append_err_plain f err :
  (∀ e, is_aggregate (f e) = false) → Forall (λ e, is_aggregate e = false) (append_err f err).
Proof. intros Hf. destruct err; repeat constructor; done. Qed.
Lemma append_if_plain b e : is_aggregate e = false → Forall (λ e, is_aggregate e = false) (append_if b e).
Proof. intros He. destruct b; repeat constructor; done. Qed.
Lemma concat_nil_iff {A} (l : list (list A)) : concat l = [] ↔ Forall (λ x, x = []) l.
Proof.
  induction l as [|x l IH]; simpl; [split; [constructor|done]|].
  rewrite Forall_cons, app_nil, IH. tauto.
Qed.

(** A list of problems is reported unless it is empty. *)
Lemma aggregate_of_None errs :
  Forall (λ e, is_aggregate e = false) errs → aggregate_of errs = None ↔ errs = [].
Proof.
  intros Hp. unfold aggregate_of. destruct errs as [|e l]; [done|]. cbn [length Nat.ltb Nat.leb].
  rewrite NewAggregate_eq, omap_id_Some. split; [|done]. apply Forall_cons in Hp as [He _].
  simpl. destruct (leaves e) as [|a m] eqn:Hl; [by destruct e|]. simpl. by destruct (m ++ _).
Qed.

Lemma validatePort_None p : validatePort p = None ↔ port_ok p.
Proof.
  unfold validatePort, port_ok. destruct (Z.ltb_spec p (-1)), (Z.ltb_spec 65535 p); simpl; split; intros; try done; lia.
Qed.

Ltac plain := repeat (apply Forall_app; split);
  try (apply append_err_plain; done); try (apply append_if_plain; done).

Lemma Node_Validate_None n : Node_Validate n = None ↔ node_ok n.
Proof.
  unfold Node_Validate, node_ok. rewrite aggregate_of_None.
  - rewrite !app_nil, !append_if_nil, negb_false_iff, str_in_true, eqb_string_false, concat_nil_iff.
    rewrite Forall_map. setoid_rewrite app_nil. setoid_rewrite append_err_nil. by setoid_rewrite validatePort_None.
  - plain. apply Forall_concat, Forall_fmap, Forall_true. intros m. simpl. plain.
Qed.

Lemma parse_subnets_inr l ns : parse_subnets l = inr ns ↔ mapM ParseCIDR l = Some ns.
Proof.
  revert ns. induction l as [|s l IH]; intros ns; simpl; [by split; intros [= <-]|].
  destruct (ParseCIDR s) as [n|]; [|done]. simpl. destruct (parse_subnets l) as [e|ns'].
  - split; [done|]. destruct (mapM ParseCIDR l) as [ns'|]; [|done]. by pose proof (proj2 (IH ns') eq_refl).
  - rewrite (proj1 (IH ns') eq_refl). simpl. by split; intros [= <-].
Qed.

Lemma check_subnets_plain f ns : Forall (λ e, is_aggregate e = false) (check_subnets f ns).
Proof.
  unfold check_subnets. destruct ns; [by repeat constructor|].
  repeat case_match; try (by repeat constructor); by apply append_if_plain.
Qed.

Lemma validateSubnets_None s family : validateSubnets s family = None ↔ subnets_ok s family.
Proof.
  unfold validateSubnets, subnets_ok. destruct (parse_subnets _) as [e|ns] eqn:Hp.
  - split; [done|]. intros (ns & Hns%parse_subnets_inr & _). congruence.
  - rewrite aggregate_of_None by apply check_subnets_plain.
    assert (check_subnets family ns = [] ↔
      if decide (family = DualStackFamily)
      then length ns = 1%nat ∨ ∃ x y, ns = [x; y] ∧ is_v4 x ≠ is_v4 y
      else ∃ x, ns = [x] ∧ (family = IPv4Family → is_v4 x = true) ∧ (family = IPv6Family → is_v4 x = false))
      as Hc.
    2: { rewrite Hc. apply parse_subnets_inr in Hp. rewrite Hp. split; [eauto|]. by intros (? & [= <-] & ?). }
    clear Hp s. unfold check_subnets.
    destruct (decide (family = DualStackFamily)) as [->|Hd].
    + rewrite String.eqb_refl. destruct ns as [|x [|y [|z ns]]]; simpl.
      * split; [done|]. by intros [?|(? & ? & ? & ?)].
      * tauto.
      * rewrite append_if_nil, negb_false_iff. unfold isDualStackCIDRs. cbn.
        destruct (is_v4 x) eqn:Hx, (is_v4 y) eqn:Hy; cbn; split; try done;
          try (intros [|(? & ? & [= <- <-] & ?)]; congruence); intros _; right; exists x, y; by rewrite Hx, Hy.
      * split; [done|]. by intros [?|(? & ? & ? & ?)].
    + rewrite (proj2 (String.eqb_neq family DualStackFamily) Hd).
      destruct ns as [|x [|y ns]]; simpl; [split; [done|]; intros (? & Heq & _); discriminate Heq| |
        split; [done|]; intros (? & Heq & _); discriminate Heq].
      destruct (String.eqb_spec family IPv4Family) as [->|H4]; simpl.
      * destruct (is_v4 x) eqn:Hx; simpl.
        -- split; [intros _; by exists x|done].
        -- split; [done|]. intros (z & [= <-] & H & _). specialize (H eq_refl). congruence.
      * rewrite append_if_nil. destruct (String.eqb_spec family IPv6Family) as [->|H6]; simpl.
        -- split; [intros Hx; by exists x|]. intros (? & [= <-] & _ & H). by apply H.
        -- split; [|done]. intros _. by exists x.
Qed.

Lemma validNameRE_spec s : MatchString validNameRE s = true ↔ name_ok s.
Proof.
  unfold validNameRE, name_ok. rewrite MatchString_spec, rmatch_plus_set. split.
  - intros H. assert (is_ascii s) as Ha.
    { eapply (MatchString_ascii validNameRE); [reflexivity|]. by apply MatchString_spec, rmatch_plus_set. }
    by rewrite runes_ascii in H.
  - intros [Hne Hf]. rewrite runes_ascii; [done|]. eapply Forall_impl; [exact Hf|].
    intros x. unfold cs_mem. simpl. unfold in_rng, byte_code. simpl. intros Hx.
    autorewrite with skind_inv in Hx. lia.
Qed.

Lemma count_roles nodes acc r :
  (∀ k v, acc !! k = Some v → 1 <= v) →
  let m := fold_left count_role nodes acc in
  (∀ k v, m !! k = Some v → 1 <= v) ∧
  (m !! r = None ↔ acc !! r = None ∧ Forall (λ n, no_Role n ≠ r) nodes).
Proof.
  revert acc. induction nodes as [|n nodes IH]; intros acc Hacc; simpl.
  { split; [done|]. split; [by split|by intros []]. }
  assert (∃ v, 1 <= v ∧ count_role acc n = <[no_Role n := v]> acc) as (v & Hv & ->).
  { unfold count_role. destruct (acc !! no_Role n) as [num|] eqn:Hn; [|by exists 1].
    exists (1 + num). split; [|done]. apply Hacc in Hn. lia. }
  destruct (IH (<[no_Role n := v]> acc)) as [Hpos Hnone].
  { intros k w [[<- <-]|[_ Hk]]%lookup_insert_Some; [done|by eapply Hacc]. }
  split; [exact Hpos|]. rewrite Hnone, lookup_insert_None, Forall_cons. tauto.
Qed.

Lemma no_control_plane nodes :
  match fold_left count_role nodes ∅ !! ControlPlaneRole with None => true | Some num => num <? 1 end = false ↔
  Exists (λ n, no_Role n = ControlPlaneRole) nodes.
Proof.
  destruct (count_roles nodes ∅ ControlPlaneRole) as [Hpos Hnone]; [done|].
  rewrite lookup_empty, Forall_forall in Hnone. rewrite Exists_exists.
  destruct (_ !! _) as [num|] eqn:Hm.
  - apply Hpos in Hm. split; [|intros _; by apply Z.ltb_ge]. intros _.
    destruct (decide (Exists (λ n, no_Role n = ControlPlaneRole) nodes)) as [He|He]; [by apply Exists_exists|].
    rewrite Exists_exists in He. exfalso. enough (Some num = None) by done. apply Hnone. naive_solver.
  - split; [done|]. intros (n & Hn & Hr). exfalso. by apply (proj2 (proj1 Hnone eq_refl) n).
Qed.

Lemma Forall_imap_concat {A} (f : nat → A → list error) (g : A → Prop) l :
  (∀ i x, f i x = [] ↔ g x) → concat (imap f l) = [] ↔ Forall g l.
Proof.
  revert f. induction l as [|x l IH]; intros f Hf; simpl; [split; [constructor|done]|].
  rewrite app_nil, Forall_cons, Hf, (IH (f ∘ S)); [done|]. intros i y. apply Hf.
Qed.

(** What a valid configuration is. *)
Definition config_ok (c : Cluster) : Prop :=
  name_ok (kc_Name c) ∧ port_ok (nt_APIServerPort (kc_Networking c)) ∧
  subnets_ok (nt_PodSubnet (kc_Networking c)) (nt_IPFamily (kc_Networking c)) ∧
  subnets_ok (nt_ServiceSubnet (kc_Networking c)) (nt_IPFamily (kc_Networking c)) ∧
  nt_KubeProxyMode (kc_Networking c) ∈ [IPTablesProxyMode; IPVSProxyMode; NoneProxyMode] ∧
  Forall node_ok (kc_Nodes c) ∧ Exists (λ n, no_Role n = ControlPlaneRole) (kc_Nodes c).

Lemma Validate_iff c : Validate c = None ↔ config_ok c.
Proof.
  unfold config_ok, Validate. set (nt := kc_Networking c). rewrite aggregate_of_None.
  - rewrite !app_nil, !append_if_nil, !append_err_nil, !validateSubnets_None, negb_false_iff, validNameRE_spec,
      no_control_plane.
    rewrite (Forall_imap_concat _ node_ok) by (intros; by rewrite append_err_nil, Node_Validate_None).
    assert ((if nt_APIServerPort nt =? 0 then [] else
        append_err (λ e, Wrapf e "invalid apiServerPort") (validatePort (nt_APIServerPort nt))) = [] ↔
      port_ok (nt_APIServerPort nt)) as ->.
    { destruct (Z.eqb_spec (nt_APIServerPort nt) 0) as [->|]; [|by rewrite append_err_nil, validatePort_None].
      split; [|done]. intros _. unfold port_ok. lia. }
    assert ((nt_KubeProxyMode nt <>s IPTablesProxyMode) && (nt_KubeProxyMode nt <>s IPVSProxyMode) &&
      (nt_KubeProxyMode nt <>s NoneProxyMode) = false ↔
      nt_KubeProxyMode nt ∈ [IPTablesProxyMode; IPVSProxyMode; NoneProxyMode]) as ->; [|tauto].
    rewrite !andb_false_iff, !negb_false_iff, !String.eqb_eq, !elem_of_cons, elem_of_nil. tauto.
  - plain.
    + destruct (nt_APIServerPort nt =? 0); [constructor|plain].
    + apply Forall_concat, Forall_lookup. intros i x. rewrite list_lookup_imap.
      intros (n & _ & ->)%fmap_Some. plain.
Qed.

(** The kind configuration is accepted exactly when its name is a word of the
    allowed characters, the ports are -1 to 65535, each subnet fits the address
    family, the proxy mode is known, each node is valid, and one of them is a control
    plane. *)
Theorem Validate_spec c :
  Validate c = None ↔
    name_ok (kc_Name c) ∧ port_ok (nt_APIServerPort (kc_Networking c)) ∧
    subnets_ok (nt_PodSubnet (kc_Networking c)) (nt_IPFamily (kc_Networking c)) ∧
    subnets_ok (nt_ServiceSubnet (kc_Networking c)) (nt_IPFamily (kc_Networking c)) ∧
    nt_KubeProxyMode (kc_Networking c) ∈ [IPTablesProxyMode; IPVSProxyMode; NoneProxyMode] ∧
    Forall node_ok (kc_Nodes c) ∧ Exists (λ n, no_Role n = ControlPlaneRole) (kc_Nodes c).
Proof. apply Validate_iff. Qed.

(** ** Defaults *)

Lemma dflt_idemp s d : dflt (dflt s d) d = dflt s d.
Proof. unfold dflt. destruct (String.eqb_spec s "") as [->|H]; [by destruct (String.eqb d "")|].
  by rewrite (proj2 (String.eqb_neq s "") H). Qed.

Lemma dflt_set s d : d ≠ "" → dflt s d ≠ "".
Proof. unfold dflt. by destruct (String.eqb_spec s ""). Qed.

Lemma dflt_keep s d : s ≠ "" → dflt s d = s.
Proof. unfold dflt. by destruct (String.eqb_spec s ""). Qed.

Lemma SetDefaultsNode_idemp b n : SetDefaultsNode b (SetDefaultsNode b n) = SetDefaultsNode b n.
Proof. unfold SetDefaultsNode. cbn -[dflt]. by rewrite !dflt_idemp. Qed.

Lemma default_nodes_idemp b l : default_nodes b (default_nodes b l) = default_nodes b l.
Proof.
  unfold default_nodes. rewrite length_map. destruct l as [|n l]; cbn [length Nat.eqb map].
  - by rewrite SetDefaultsNode_idemp.
  - rewrite SetDefaultsNode_idemp, map_map. f_equal. apply map_ext, SetDefaultsNode_idemp.
Qed.

Lemma SetDefaultsNetworking_idemp n : SetDefaultsNetworking (SetDefaultsNetworking n) = SetDefaultsNetworking n.
Proof. unfold SetDefaultsNetworking. cbn -[dflt default_address default_PodSubnet default_ServiceSubnet].
  by rewrite !dflt_idemp. Qed.

Lemma SetDefaultsCluster_idemp b c : SetDefaultsCluster b (SetDefaultsCluster b c) = SetDefaultsCluster b c.
Proof.
  unfold SetDefaultsCluster. cbn -[dflt default_nodes SetDefaultsNetworking].
  by rewrite dflt_idemp, default_nodes_idemp, SetDefaultsNetworking_idemp.
Qed.

(** Conversion commutes with the defaults of nodes and networking. *)
Lemma convert_default_nodes b v :
  map convertv1alpha4Node (v1alpha4.Nodes (v1alpha4.V1SetDefaultsCluster b v)) =
  default_nodes b (map convertv1alpha4Node (v1alpha4.Nodes v)).
Proof.
  unfold default_nodes, v1alpha4.V1SetDefaultsCluster. cbn [v1alpha4.Nodes]. rewrite length_map.
  destruct (v1alpha4.Nodes v) as [|n l]; [done|]. cbn [length Nat.eqb]. by rewrite !map_map.
Qed.

Lemma convert_default_networking n :
  convertv1alpha4Networking (v1alpha4.V1SetDefaultsNetworking n) =
  SetDefaultsNetworking (convertv1alpha4Networking n).
Proof. done. Qed.

(** Setting the defaults twice is setting them once, and the defaults of the
    public version followed by the conversion give, up to the name, what the
    conversion followed by the internal defaults gives. *)
Theorem defaults_agree b c v :
  SetDefaultsCluster b (SetDefaultsCluster b c) = SetDefaultsCluster b c ∧
  SetDefaultsCluster b (V1Alpha4ToInternal b v) = SetDefaultsCluster b (Convertv1alpha4 v) ∧
  (v1alpha4.Name v ≠ "" → V1Alpha4ToInternal b v = SetDefaultsCluster b (Convertv1alpha4 v)).
Proof.
  assert (v1alpha4.Name v ≠ "" → V1Alpha4ToInternal b v = SetDefaultsCluster b (Convertv1alpha4 v)) as Hconv.
  { intros Hname. unfold V1Alpha4ToInternal, Convertv1alpha4 at 1. rewrite convert_default_nodes.
    unfold SetDefaultsCluster. cbn -[dflt default_nodes SetDefaultsNetworking convertv1alpha4Networking
      v1alpha4.V1SetDefaultsNetworking].
    by rewrite convert_default_networking, dflt_keep. }
  split_and!; [apply SetDefaultsCluster_idemp| |done].
  unfold V1Alpha4ToInternal, Convertv1alpha4 at 1. rewrite convert_default_nodes.
  unfold SetDefaultsCluster. cbn -[dflt default_nodes SetDefaultsNetworking convertv1alpha4Networking
    v1alpha4.V1SetDefaultsNetworking].
  by rewrite convert_default_networking, SetDefaultsNetworking_idemp, default_nodes_idemp.
Qed.

(** ** The defaults are valid *)

Definition families : list string := [""; IPv4Family; IPv6Family; DualStackFamily].

Lemma default_subnets_ok family :
  family ∈ families →
  subnets_ok (default_PodSubnet (dflt family IPv4Family)) (dflt family IPv4Family) ∧
  subnets_ok (default_ServiceSubnet (dflt family IPv4Family)) (dflt family IPv4Family).
Proof.
  intros Hf. rewrite <-!validateSubnets_None. unfold families in Hf.
  rewrite !elem_of_cons, elem_of_nil in Hf. destruct_or? Hf; subst; try done; split; vm_compute; reflexivity.
Qed.

(** What a configuration must have set right for the defaults to complete it. *)
Definition node_fields_ok (n : Node) : Prop :=
  no_Role n ∈ [""; ControlPlaneRole; WorkerRole] ∧
  Forall (λ m, port_ok (pm_HostPort m) ∧ port_ok (pm_ContainerPort m)) (no_ExtraPortMappings n).

Lemma SetDefaultsNode_ok b n : node_fields_ok n → node_ok (SetDefaultsNode b n).
Proof.
  intros [Hr Hp]. unfold node_ok. cbn -[dflt]. split_and!; [|by apply dflt_set|done].
  rewrite !elem_of_cons, elem_of_nil in *. destruct_or? Hr; subst; rewrite ?Hr; auto; done.
Qed.

(** A configuration without name, subnets and proxy mode, whose family, ports and
    nodes are right as far as they are set, and which has a node that is no worker or
    none at all, is valid once the defaults are set; so is the empty one, which is
    what no file at all gives. *)
Theorem SetDefaultsCluster_valid b c :
  kc_Name c = "" → nt_PodSubnet (kc_Networking c) = "" → nt_ServiceSubnet (kc_Networking c) = "" →
  nt_KubeProxyMode (kc_Networking c) = "" → nt_IPFamily (kc_Networking c) ∈ families →
  port_ok (nt_APIServerPort (kc_Networking c)) → Forall node_fields_ok (kc_Nodes c) →
  (kc_Nodes c = [] ∨ Exists (λ n, no_Role n ∈ [""; ControlPlaneRole]) (kc_Nodes c)) →
  Validate (SetDefaultsCluster b c) = None.
Proof.
  intros Hname Hpod Hsvc Hmode Hfam Hport Hnodes Hcp. apply Validate_iff.
  unfold SetDefaultsCluster, SetDefaultsNetworking. cbn -[dflt default_nodes default_PodSubnet default_ServiceSubnet].
  rewrite Hname, Hpod, Hsvc, Hmode. destruct (default_subnets_ok _ Hfam) as [Hp Hs].
  split_and!; [|done|exact Hp|exact Hs|by apply list_elem_of_here| |].
  - apply validNameRE_spec. vm_compute. reflexivity.
  - unfold default_nodes. destruct (kc_Nodes c) as [|n l] eqn:Hl; cbn [length Nat.eqb].
    + repeat constructor. apply SetDefaultsNode_ok. split; [by apply list_elem_of_further, list_elem_of_here|constructor].
    + apply Forall_fmap. eapply Forall_impl; [exact Hnodes|]. intros x. apply SetDefaultsNode_ok.
  - unfold default_nodes. destruct Hcp as [-> |Hcp].
    + by apply Exists_cons_hd.
    + destruct (kc_Nodes c) as [|n l]; [by apply Exists_nil in Hcp|]. cbn [length Nat.eqb].
      apply Exists_fmap. eapply Exists_impl; [exact Hcp|]. intros x Hx. cbn -[dflt].
      rewrite !elem_of_cons, elem_of_nil in Hx. destruct_or? Hx; by rewrite ?Hx.
Qed.

Definition demo_build : build := mkBuild "SNAPSHOT" "" "" "".
Definition demo_cluster : Cluster :=
  mkCluster "" [mkNode "worker" "" ∅ [] [mkPortMapping 80 (-1) "" "TCP"] [] []; mkNode "" "" ∅ [] [] [] []]
    (mkNetworking "dual" 0 "" "" "" false "") ∅ ∅ [] [] [] [].

Lemma SetDefaultsCluster_valid_witness :
  Validate (SetDefaultsCluster demo_build demo_cluster) = None.
Proof.
  apply SetDefaultsCluster_valid; try reflexivity.
  - apply list_elem_of_In. simpl. auto.
  - unfold port_ok. simpl. lia.
  - repeat constructor; simpl; unfold port_ok; simpl; try lia; apply list_elem_of_In; simpl; auto.
  - right. apply Exists_cons_tl, Exists_cons_hd. apply list_elem_of_In. simpl. auto.
Defined.
