(* ===== verification/Nodes.v ===== *)
(** * The nodes of the local cluster

    Names of nodes ([providers/common/namer.go]), selection of nodes by role
    ([nodeutils/roles.go]) and the cached list of nodes of the actions
    ([create/actions/action.go]).  A node is its name; its role is what the container
    runtime answers. *)

From stdpp Require Import sorting.
From Stdlib Require Import DecimalString DecimalN.
From S2P Require Import Prelude GoStr KindConfig.
Local Open Scope Z_scope.
Local Open Scope go_scope.
Local Open Scope stdpp_scope.

Definition ControlPlaneNodeRoleValue : string := "control-plane".
Definition WorkerNodeRoleValue : string := "worker".
Definition ExternalLoadBalancerNodeRoleValue : string := "external-load-balancer".

(** What a provider says of itself (providers/provider.go). *)
Record ProviderInfo := mkProviderInfo {
  Rootless : bool; Cgroup2 : bool; SupportsMemoryLimit : bool; SupportsPidsLimit : bool;
  SupportsCPUShares : bool }.

(** ** Selection by role *)

Section roles.
Context (Role : string → res string).

Fixpoint SelectNodesByRole (allNodes : list string) (role : string) : res (list string) :=
  match allNodes with
  | [] => Ok []
  | node :: allNodes =>
      nodeRole ← Role node;
      out ← SelectNodesByRole allNodes role;
      Ok (if nodeRole =s role then node :: out else out)
  end.

Fixpoint InternalNodes (allNodes : list string) : res (list string) :=
  match allNodes with
  | [] => Ok []
  | node :: allNodes =>
      nodeRole ← Role node;
      out ← InternalNodes allNodes;
      Ok (if (nodeRole =s WorkerNodeRoleValue) || (nodeRole =s ControlPlaneNodeRoleValue)
          then node :: out else out)
  end.

Definition ExternalLoadBalancerNode (allNodes : list string) : res (option string) :=
  loadBalancerNodes ← SelectNodesByRole allNodes ExternalLoadBalancerNodeRoleValue;
  match loadBalancerNodes with
  | [] => Ok None
  | [n] => Ok (Some n)
  | _ => Err ("unexpected number of " +:+ ExternalLoadBalancerNodeRoleValue +:+ " nodes " +:+
              Itoa (Z.of_nat (length loadBalancerNodes)))
  end.

(** [sort.Slice] by [strings.Compare] on the names. *)
Definition ControlPlaneNodes (allNodes : list string) : res (list string) :=
  controlPlaneNodes ← SelectNodesByRole allNodes ControlPlaneNodeRoleValue;
  Ok (merge_sort String.le controlPlaneNodes).

Definition APIServerEndpointNode (allNodes : list string) : res string :=
  lb ← errors_Wrap "failed to find api-server endpoint node" (ExternalLoadBalancerNode allNodes);
  match lb with
  | Some n => Ok n
  | None =>
      n ← errors_Wrap "failed to find api-server endpoint node" (ControlPlaneNodes allNodes);
      if negb (Nat.eqb (length n) 1)
      then Err ("expected one control plane node or a load balancer, not " +:+
                Itoa (Z.of_nat (length n)) +:+ " and none")
      else index n 0
  end.

Definition at_least_one : string := "expected at least one " +:+ ControlPlaneNodeRoleValue +:+ " node".

Definition BootstrapControlPlaneNode (allNodes : list string) : res string :=
  controlPlaneNodes ← ControlPlaneNodes allNodes;
  fail_when (Nat.ltb (length controlPlaneNodes) 1) at_least_one ;;
  index controlPlaneNodes 0.

Definition SecondaryControlPlaneNodes (allNodes : list string) : res (list string) :=
  controlPlaneNodes ← ControlPlaneNodes allNodes;
  fail_when (Nat.ltb (length controlPlaneNodes) 1) at_least_one ;;
  Ok (drop 1 controlPlaneNodes).

(** ** The cached list of nodes *)

(** [Nodes] of an action context: [listed] is what the provider would list now.  The
    result, and the cache afterwards. *)
Definition Nodes (cache : option (list string)) (listed : res (list string))
  : res (list string) * option (list string) :=
  match cache with
  | Some n => (Ok n, cache)
  | None => match listed with Ok n => (Ok n, Some n) | e => (e, None) end
  end.

(** The first control plane node; without one the index is out of range. *)
Definition GetNode (cache : option (list string)) (listed : res (list string))
  : res string * option (list string) :=
  let '(allNodes, cache) := Nodes cache listed in
  (allNodes ← allNodes; controlPlanes ← ControlPlaneNodes allNodes; index controlPlanes 0, cache).
End roles.

(** ** Names *)

(** The closure of [MakeNodeNamer]: the counters of the roles, and the name. *)
Definition nodeNamer (clusterName : string) (counter : gmap string Z) (role : string)
  : gmap string Z * string :=
  let '(count, suffix) :=
    match counter !! role with
    | Some v => (1 + v, Itoa (1 + v))
    | None => (1, "")
    end in
  (<[role := count]> counter, clusterName +:+ "-" +:+ role +:+ suffix).

(** The names of a list of roles, one call after the other. *)
Fixpoint name_nodes (clusterName : string) (counter : gmap string Z) (roles : list string) : list string :=
  match roles with
  | [] => []
  | r :: roles =>
      let '(counter, name) := nodeNamer clusterName counter r in
      name :: name_nodes clusterName counter roles
  end.

(** ** The roles do not depend on the order of the list *)

Lemma SelectNodesByRole_Ok Role l role out :
  SelectNodesByRole Role l role = Ok out →
  out = List.filter (λ n, bool_decide (Role n = Ok role)) l.
Proof.
  revert out. induction l as [|n l IH]; intros out; simpl; [by intros [= <-]|].
  intros (r & Hr & Hl)%bind_Ok_iff. apply bind_Ok_iff in Hl as (out' & Hl & [= <-]).
  rewrite Hr, (IH _ Hl). destruct (String.eqb_spec r role) as [->|Hne].
  - by rewrite bool_decide_eq_true_2.
  - rewrite bool_decide_eq_false_2; [done|congruence].
Qed.

Lemma SelectNodesByRole_total Role l role :
  Forall (λ n, is_Ok (Role n) = true) l →
  SelectNodesByRole Role l role = Ok (List.filter (λ n, bool_decide (Role n = Ok role)) l).
Proof.
  intros Hl. destruct (SelectNodesByRole Role l role) as [out|e|w] eqn:Hs.
  - by rewrite (SelectNodesByRole_Ok _ _ _ _ Hs).
  - exfalso. induction Hl as [|n l Hn _ IH]; simpl in Hs; [done|].
    destruct (Role n); [|done..]. simpl in Hs. by destruct (SelectNodesByRole Role l role); [|apply IH|].
  - exfalso. induction Hl as [|n l Hn _ IH]; simpl in Hs; [done|].
    destruct (Role n); [|done..]. simpl in Hs. by destruct (SelectNodesByRole Role l role); [| |apply IH].
Qed.

Lemma filter_Permutation {A} (f : A → bool) l l' : l ≡ₚ l' → List.filter f l ≡ₚ List.filter f l'.
Proof.
  induction 1 as [|x l l' _ IH|x y l|l1 l2 l3 _ IH1 _ IH2]; simpl; [done| | |by etrans].
  - destruct (f x); by rewrite IH.
  - destruct (f x), (f y); try done. apply perm_swap.
Qed.

(** Sorting forgets the order. *)
Lemma sort_Permutation l l' : l ≡ₚ l' → merge_sort String.le l = merge_sort String.le l'.
Proof.
  intros Hp. eapply (Sorted_unique String.le).
  - apply Sorted_merge_sort. apply _.
  - apply Sorted_merge_sort. apply _.
  - by rewrite !merge_sort_Permutation.
Qed.

Definition is_control_plane (Role : string → res string) (n : string) : bool :=
  bool_decide (Role n = Ok ControlPlaneNodeRoleValue).

Lemma ControlPlaneNodes_total Role l :
  Forall (λ n, is_Ok (Role n) = true) l →
  ControlPlaneNodes Role l = Ok (merge_sort String.le (List.filter (is_control_plane Role) l)).
Proof. intros Hl. unfold ControlPlaneNodes. by rewrite SelectNodesByRole_total. Qed.

Lemma ControlPlaneNodes_perm Role l l' :
  Forall (λ n, is_Ok (Role n) = true) l → l ≡ₚ l' → ControlPlaneNodes Role l = ControlPlaneNodes Role l'.
Proof.
  intros Hl Hp. rewrite !ControlPlaneNodes_total; [|by rewrite <-Hp|done].
  f_equal. by apply sort_Permutation, filter_Permutation.
Qed.

(** The node of the API server does not depend on the order either. *)
Lemma APIServerEndpointNode_perm Role l l' :
  Forall (λ n, is_Ok (Role n) = true) l → l ≡ₚ l' → APIServerEndpointNode Role l = APIServerEndpointNode Role l'.
Proof.
  intros Hl Hp. unfold APIServerEndpointNode. rewrite (ControlPlaneNodes_perm _ _ _ Hl Hp).
  assert (ExternalLoadBalancerNode Role l = ExternalLoadBalancerNode Role l') as ->; [|done].
  unfold ExternalLoadBalancerNode. rewrite !SelectNodesByRole_total; [|by rewrite <-Hp|done]. cbn [mbind res_bind].
  set (f := λ n, bool_decide (Role n = Ok ExternalLoadBalancerNodeRoleValue)).
  assert (List.filter f l ≡ₚ List.filter f l') as Hf by by apply filter_Permutation.
  destruct (List.filter f l) as [|x [|y k]].
  - apply Permutation_nil_l in Hf. by rewrite <-Hf.
  - apply Permutation_singleton_l in Hf. by rewrite <-Hf.
  - pose proof (Permutation_length Hf) as Hlen. destruct (List.filter f l') as [|x' [|y' k']]; [done..|].
    by rewrite Hlen.
Qed.

(** The sorted list of some nodes starts with the least. *)
Lemma sorted_head l n rest :
  merge_sort String.le l = n :: rest → n ∈ l ∧ (∀ m, m ∈ l → String.le n m) ∧ n :: rest ≡ₚ l.
Proof.
  intros Hs. assert (n :: rest ≡ₚ l) as Hp by (by rewrite <-Hs, merge_sort_Permutation).
  split_and!; [rewrite <-Hp; apply list_elem_of_here| |done].
  intros m Hm. rewrite <-Hp in Hm. pose proof (StronglySorted_merge_sort String.le l) as Hss.
  rewrite Hs in Hss. apply StronglySorted_inv in Hss as [_ Hle].
  apply elem_of_cons in Hm as [->|Hm]; [done|]. rewrite Forall_forall in Hle. by apply Hle.
Qed.

Lemma elem_of_control_planes Role l m :
  m ∈ List.filter (is_control_plane Role) l ↔ m ∈ l ∧ Role m = Ok ControlPlaneNodeRoleValue.
Proof.
  rewrite list_elem_of_In, filter_In, <-list_elem_of_In. unfold is_control_plane.
  by rewrite bool_decide_eq_true.
Qed.

(** The bootstrap node is the least control plane node. *)
Lemma Bootstrap_least Role l n :
  Forall (λ n, is_Ok (Role n) = true) l → n ∈ l → Role n = Ok ControlPlaneNodeRoleValue →
  (∀ m, m ∈ l → Role m = Ok ControlPlaneNodeRoleValue → String.le n m) →
  BootstrapControlPlaneNode Role l = Ok n.
Proof.
  intros Hl Hn Hr Hle. unfold BootstrapControlPlaneNode. rewrite ControlPlaneNodes_total by done.
  cbn [mbind res_bind]. assert (n ∈ List.filter (is_control_plane Role) l) as Hin by (by apply elem_of_control_planes).
  destruct (merge_sort _ _) as [|n0 rest] eqn:Hs.
  - rewrite <-(merge_sort_Permutation String.le), Hs in Hin. by apply elem_of_nil in Hin.
  - apply sorted_head in Hs as (H0 & Hle0 & _). cbn. f_equal.
    apply elem_of_control_planes in H0 as [H0 Hr0].
    apply (anti_symm String.le); [by apply Hle0|by apply Hle].
Qed.

(** Where the roles of all nodes are known, the control plane nodes, and so the
    bootstrap node and the others, are the same in whatever order the runtime lists
    the nodes; the bootstrap node is the least of the control plane nodes by name,
    and the others are the rest of them. *)
Theorem ControlPlaneNodes_stable Role l l' :
  Forall (λ n, is_Ok (Role n) = true) l → l ≡ₚ l' →
  ControlPlaneNodes Role l = ControlPlaneNodes Role l' ∧
  BootstrapControlPlaneNode Role l = BootstrapControlPlaneNode Role l' ∧
  SecondaryControlPlaneNodes Role l = SecondaryControlPlaneNodes Role l' ∧
  ∀ n, BootstrapControlPlaneNode Role l = Ok n →
    Role n = Ok ControlPlaneNodeRoleValue ∧
    (∀ m, m ∈ l → Role m = Ok ControlPlaneNodeRoleValue → String.le n m) ∧
    ∃ others, SecondaryControlPlaneNodes Role l = Ok others ∧
      n :: others ≡ₚ List.filter (is_control_plane Role) l.
Proof.
  intros Hl Hp.
  assert (ControlPlaneNodes Role l = ControlPlaneNodes Role l') as Hcp by by apply ControlPlaneNodes_perm.
  unfold BootstrapControlPlaneNode, SecondaryControlPlaneNodes. rewrite <-Hcp. split_and!; [done..|].
  rewrite ControlPlaneNodes_total by done. cbn [mbind res_bind].
  destruct (merge_sort _ _) as [|n0 rest] eqn:Hs; [done|]. intros n [= <-].
  apply sorted_head in Hs as (H0 & Hle & Hperm). split_and!.
  - by apply elem_of_control_planes in H0 as [_ ?].
  - intros m Hm Hr. by apply Hle, elem_of_control_planes.
  - exists rest. by split.
Qed.

Definition demo_role (n : string) : res string :=
  Ok (if HasPrefix n "a-control" then ControlPlaneNodeRoleValue else WorkerNodeRoleValue).

Lemma ControlPlaneNodes_stable_witness :
  ControlPlaneNodes demo_role ["a-worker"; "a-control-plane2"; "a-control-plane"] =
  ControlPlaneNodes demo_role ["a-control-plane"; "a-worker"; "a-control-plane2"].
Proof.
  refine (proj1 (ControlPlaneNodes_stable demo_role _ _ _ _)).
  - apply Forall_true. reflexivity.
  - apply (Permutation_app_comm ["a-worker"; "a-control-plane2"] ["a-control-plane"]).
Defined.

(** ** The names are distinct *)

Definition kind_roles : list string :=
  [ControlPlaneNodeRoleValue; WorkerNodeRoleValue; ExternalLoadBalancerNodeRoleValue].

(** The name of the [k]-th node of a role. *)
Definition name_of (clusterName role : string) (k : Z) : string :=
  clusterName +:+ "-" +:+ role +:+ (if k =? 1 then "" else Itoa k).

Definition count_of (counter : gmap string Z) (role : string) : Z := default 0 (counter !! role).

Lemma nodeNamer_spec cl counter r :
  (∀ k v, counter !! k = Some v → 1 <= v) →
  nodeNamer cl counter r =
    (<[r := count_of counter r + 1]> counter, name_of cl r (count_of counter r + 1)).
Proof.
  intros Hc. unfold nodeNamer, name_of, count_of. destruct (counter !! r) as [v|] eqn:Hr; simpl; [|done].
  apply Hc in Hr. rewrite (proj2 (Z.eqb_neq (v + 1) 1)) by lia. by rewrite Z.add_comm.
Qed.

(** The names that are still to come number the nodes of each role upwards from its
    counter. *)
Lemma name_nodes_elem cl counter roles name :
  (∀ k v, counter !! k = Some v → 1 <= v) → name ∈ name_nodes cl counter roles →
  ∃ r k, r ∈ roles ∧ name = name_of cl r k ∧ count_of counter r < k ∧ 0 < k.
Proof.
  revert counter. induction roles as [|r roles IH]; intros counter Hc; simpl; [by intros ?%elem_of_nil|].
  rewrite nodeNamer_spec by done.
  assert (0 <= count_of counter r) as H0.
  { unfold count_of. destruct (counter !! r) as [v|] eqn:Hr; simpl; [apply Hc in Hr; lia|done]. }
  intros [->|Hn]%elem_of_cons.
  - exists r, (count_of counter r + 1). split_and!; [apply list_elem_of_here|done|lia|lia].
  - apply IH in Hn as (r' & k & Hr' & -> & Hlt & Hk).
    2: { intros k v [[<- <-]|[_ Hk]]%lookup_insert_Some; [lia|by eapply Hc]. }
    exists r', k. split_and!; [by apply list_elem_of_further|done| |done].
    unfold count_of in *. destruct (decide (r = r')) as [->|Hne].
    + rewrite lookup_insert_eq in Hlt. simpl in Hlt. lia.
    + by rewrite lookup_insert_ne in Hlt.
Qed.

Lemma fmt_uint_inj_nonneg n m : 0 <= n → 0 <= m → fmt_uint n = fmt_uint m → n = m.
Proof.
  intros Hn Hm H. unfold fmt_uint in H. apply (f_equal NilEmpty.uint_of_string) in H.
  rewrite !NilEmpty.usu in H. injection H as H. apply (f_equal N.of_uint) in H.
  rewrite !DecimalN.Unsigned.of_to in H. lia.
Qed.

Lemma app_inj_string (s t u : string) : s +:+ t = s +:+ u → t = u.
Proof. intros H. apply (f_equal bytes) in H. rewrite !bytes_app in H. by apply app_inv_head, bytes_inj in H. Qed.

Lemma name_of_inj cl r1 r2 k1 k2 :
  r1 ∈ kind_roles → r2 ∈ kind_roles → 0 < k1 → 0 < k2 →
  name_of cl r1 k1 = name_of cl r2 k2 → r1 = r2 ∧ k1 = k2.
Proof.
  intros Hr1 Hr2 Hk1 Hk2 Heq. unfold name_of in Heq. apply app_inj_string, app_inj_string in Heq.
  assert (r1 = r2) as <-.
  { unfold kind_roles in *. rewrite !elem_of_cons, elem_of_nil in *.
    destruct_or? Hr1; destruct_or? Hr2; subst; try done; discriminate Heq. }
  split; [done|]. apply app_inj_string in Heq. revert Heq. unfold Itoa.
  rewrite !(proj2 (Z.ltb_ge _ _)) by lia.
  destruct (Z.eqb_spec k1 1) as [->|], (Z.eqb_spec k2 1) as [->|]; intros Heq; [done| | |].
  - by apply eq_sym, fmt_uint_nonempty in Heq.
  - by apply fmt_uint_nonempty in Heq.
  - apply fmt_uint_inj_nonneg in Heq; lia.
Qed.

Lemma name_nodes_NoDup cl counter roles :
  (∀ k v, counter !! k = Some v → 1 <= v) → Forall (λ r, r ∈ kind_roles) roles →
  NoDup (name_nodes cl counter roles).
Proof.
  revert counter. induction roles as [|r roles IH]; intros counter Hc Hr; simpl; [constructor|].
  apply Forall_cons in Hr as [Hr Hrs]. rewrite nodeNamer_spec by done.
  assert (0 <= count_of counter r) as H0.
  { unfold count_of. destruct (counter !! r) as [v|] eqn:Hv; simpl; [apply Hc in Hv; lia|done]. }
  assert (∀ k v, <[r := count_of counter r + 1]> counter !! k = Some v → 1 <= v) as Hc'.
  { intros k v [[<- <-]|[_ Hk]]%lookup_insert_Some; [lia|by eapply Hc]. }
  constructor; [|by apply IH]. intros Hin. apply name_nodes_elem in Hin as (r' & k & Hr' & Heq & Hlt & Hk); [|done].
  rewrite Forall_forall in Hrs. apply name_of_inj in Heq as [<- <-]; [|done|by apply Hrs|lia|done].
  unfold count_of at 1 in Hlt. rewrite lookup_insert_eq in Hlt. simpl in Hlt. lia.
Qed.

Lemma length_name_nodes cl counter roles : length (name_nodes cl counter roles) = length roles.
Proof.
  revert counter. induction roles as [|r roles IH]; intros counter; simpl; [done|].
  destruct (nodeNamer cl counter r). simpl. by rewrite IH.
Qed.

(** The names go with the roles. *)
Lemma name_nodes_lookup cl counter roles i name :
  (∀ k v, counter !! k = Some v → 1 <= v) → name_nodes cl counter roles !! i = Some name →
  ∃ r k, roles !! i = Some r ∧ name = name_of cl r k ∧ 0 < k.
Proof.
  revert counter i. induction roles as [|r roles IH]; intros counter i Hc; simpl; [done|].
  rewrite nodeNamer_spec by done.
  assert (0 <= count_of counter r) as H0.
  { unfold count_of. destruct (counter !! r) as [v|] eqn:Hr; simpl; [apply Hc in Hr; lia|done]. }
  destruct i as [|i]; simpl.
  - intros [= <-]. exists r, (count_of counter r + 1). split_and!; [done|done|lia].
  - apply IH. intros k v [[<- <-]|[_ Hk]]%lookup_insert_Some; [lia|by eapply Hc].
Qed.

(** The first node of a role has the name without a number. *)
Lemma name_nodes_first cl counter roles r :
  (∀ k v, counter !! k = Some v → 1 <= v) → r ∈ roles → counter !! r = None →
  name_of cl r 1 ∈ name_nodes cl counter roles.
Proof.
  revert counter. induction roles as [|r' roles IH]; intros counter Hc Hr Hn; simpl; [by apply elem_of_nil in Hr|].
  rewrite nodeNamer_spec by done.
  assert (0 <= count_of counter r') as H0.
  { unfold count_of. destruct (counter !! r') as [v|] eqn:Hv; simpl; [apply Hc in Hv; lia|done]. }
  destruct (decide (r' = r)) as [->|Hne].
  - unfold count_of. rewrite Hn. apply list_elem_of_here.
  - apply elem_of_cons in Hr as [->|Hr]; [done|]. apply list_elem_of_further, IH; [|done|].
    + intros k v [[<- <-]|[_ Hk]]%lookup_insert_Some; [lia|by eapply Hc].
    + by rewrite lookup_insert_ne.
Qed.

Lemma prefix_le s t : String.le s (s +:+ t).
Proof.
  unfold String.le, String.leb. induction s as [|c s IH]; simpl; [by destruct t|].
  unfold Ascii.compare. by rewrite N.compare_refl.
Qed.

Lemma name_of_le cl r k : String.le (name_of cl r 1) (name_of cl r k).
Proof.
  unfold name_of. rewrite Z.eqb_refl, string_app_nil_r.
  rewrite <-(string_app_assoc "-" r), <-(string_app_assoc cl ("-" +:+ r)). apply prefix_le.
Qed.

(** The nodes of a cluster get distinct names, one for each.  Where the runtime
    answers for each name the role it was made for, every role can be selected, and
    the bootstrap node is the first control plane node of the configuration, the one
    without a number. *)
Theorem node_names_spec cl roles :
  Forall (λ r, r ∈ kind_roles) roles →
  let names := name_nodes cl ∅ roles in
  NoDup names ∧ length names = length roles ∧
  ∀ Role, (∀ i name r, names !! i = Some name → roles !! i = Some r → Role name = Ok r) →
    Forall (λ n, is_Ok (Role n) = true) names ∧
    (ControlPlaneNodeRoleValue ∈ roles →
     BootstrapControlPlaneNode Role names = Ok (cl +:+ "-" +:+ ControlPlaneNodeRoleValue)).
Proof.
  intros Hroles names. assert (∀ k v, (∅ : gmap string Z) !! k = Some v → 1 <= v) as Hemp by done.
  split_and!; [by apply name_nodes_NoDup|apply length_name_nodes|].
  intros Role HRole.
  assert (Forall (λ n, is_Ok (Role n) = true) names) as Hok.
  { apply Forall_lookup. intros i name Hi.
    destruct (name_nodes_lookup _ _ _ _ _ Hemp Hi) as (r & k & Hr & _). by rewrite (HRole _ _ _ Hi Hr). }
  split; [done|]. intros Hcp.
  pose proof (name_nodes_first cl ∅ roles _ Hemp Hcp eq_refl) as Hfirst. fold names in Hfirst.
  assert (∀ n, n ∈ names → Role n = Ok ControlPlaneNodeRoleValue → String.le (name_of cl ControlPlaneNodeRoleValue 1) n)
    as Hleast.
  { intros n (i & Hi)%list_elem_of_lookup Hr.
    destruct (name_nodes_lookup _ _ _ _ _ Hemp Hi) as (r & k & Hr' & -> & _).
    rewrite (HRole _ _ _ Hi Hr') in Hr. injection Hr as ->. apply name_of_le. }
  pose proof Hfirst as (i & Hi)%list_elem_of_lookup.
  destruct (name_nodes_lookup _ _ _ _ _ Hemp Hi) as (r & k & Hr & Heq & Hk).
  apply name_of_inj in Heq as [<- _]; [|by apply list_elem_of_here| |done|done].
  2: { rewrite Forall_forall in Hroles. apply Hroles. by eapply list_elem_of_lookup_2. }
  rewrite (Bootstrap_least Role names (name_of cl ControlPlaneNodeRoleValue 1)); [|done|done| |done].
  - reflexivity.
  - by apply (HRole i).
Qed.

Lemma node_names_spec_witness :
  NoDup (name_nodes "a" ∅ [WorkerNodeRoleValue; ControlPlaneNodeRoleValue; ControlPlaneNodeRoleValue]) ∧
  name_nodes "a" ∅ [WorkerNodeRoleValue; ControlPlaneNodeRoleValue; ControlPlaneNodeRoleValue] =
    ["a-worker"; "a-control-plane"; "a-control-plane2"].
Proof.
  split; [|vm_compute; reflexivity].
  refine (proj1 (node_names_spec "a" [WorkerNodeRoleValue; ControlPlaneNodeRoleValue; ControlPlaneNodeRoleValue] _)).
  repeat constructor; apply list_elem_of_In; simpl; auto.
Defined.
