(* ===== verification/Docker.v ===== *)
(** * Planning the containers of the local cluster

    [pkg/cluster/internal/providers/docker/provision.go], what it asks docker for
    ([util.go], [info] of [provider.go]), and [providers/common/{proxy,getport}.go]: the
    arguments of [docker run] for every node. *)

From S2P Require Import Prelude State GoStr Exec KindConfig Nodes.
Local Open Scope Z_scope.
Local Open Scope go_scope.
Local Open Scope stdpp_scope.

Definition clusterLabelKey : string := "io.x-k8s.kind.cluster".
Definition nodeRoleLabelKey : string := "io.x-k8s.kind.role".
Definition APIServerInternalPort : Z := 6443.
Definition loadbalancer_Image : string := "kindest/haproxy:v20220607-9a4d8d2a".

(** The machine: its environment, its working directory, and its free ports.
    [GetFreePort i] is the free port found for the [i]-th mapping of a container. *)
Class Host := {
  Getenv : string → string;
  filepath_Abs : string → res string;
  GetFreePort : nat → string → res Z
}.

(** [docker info --format '{{json .}}']. *)
Record dockerInfo := mkDockerInfo {
  di_CgroupDriver : string; di_CgroupVersion : string;
  di_MemoryLimit : bool; di_PidsLimit : bool; di_CPUShares : bool;
  di_SecurityOptions : list string
}.

(** The decoders of JSON and CSV. *)
Class DockerLibs := {
  json_dockerInfo : string → res dockerInfo;
  json_DriverStatus : string → option (list (list string));
  csv_ReadAll : string → res (list (list string))
}.

(** [net.JoinHostPort]. *)
Definition JoinHostPort (host port : string) : string :=
  if Contains host ":" then "[" +:+ host +:+ "]:" +:+ port else host +:+ ":" +:+ port.

(** ** What docker says of itself *)

Section util.
Context {W : Type} `{!HostExec W, !DockerLibs}.

Definition usernsRemap : st W bool :=
  lines ← try_ (host_OutputLines ["docker"; "info"; "--format"; "'{{json .SecurityOptions}}'"]);
  mret (match lines with Ok (l :: _) => Contains l "name=userns" | _ => false end).

(** The file system below the storage driver: the first entry of that name. *)
Fixpoint BackingFilesystem (dat : list (list string)) (storage : string) : res string :=
  match dat with
  | [] => Ok storage
  | item :: dat =>
      key ← index item 0;
      if key =s "Backing Filesystem" then (fs ← index item 1; Ok (ToLower fs)) else BackingFilesystem dat storage
  end.

Definition mountDevMapper : st W bool :=
  lines ← try_ (host_OutputLines ["docker"; "info"; "-f"; "{{.Driver}}"]);
  match lines with
  | Ok [l] =>
      let storage := ToLower (TrimSpace l) in
      if str_in storage ["btrfs"; "zfs"; "devicemapper"] then mret true else
      lines ← try_ (host_OutputLines ["docker"; "info"; "-f"; "{{json .DriverStatus }}"]);
      match lines with
      | Ok [l] =>
          match json_DriverStatus l with
          | Some dat => storage ← pure (BackingFilesystem dat storage); mret (str_in storage ["btrfs"; "zfs"; "xfs"])
          | None => mret false
          end
      | _ => mret false
      end
  | _ => mret false
  end.

(** The records of every option, or the error of the first that cannot be read. *)
Fixpoint security_fields (options : list string) : res (list string) :=
  match options with
  | [] => Ok []
  | o :: options =>
      records ← csv_ReadAll o;
      fs ← security_fields options;
      Ok (concat records ++ fs)
  end.

Definition info : st W ProviderInfo :=
  out ← st_wrap "failed to get docker info" (host_Output ["docker"; "info"; "--format"; "{{json .}}"]);
  dInfo ← pure (json_dockerInfo out);
  let limits := di_CgroupDriver dInfo <>s "none" in
  fs ← pure (security_fields (di_SecurityOptions dInfo));
  mret (mkProviderInfo (str_in "name=rootless" fs) (di_CgroupVersion dInfo =s "2")
    (limits && di_MemoryLimit dInfo) (limits && di_PidsLimit dInfo) (limits && di_CPUShares dInfo)).

Definition mountFuse : st W bool :=
  i ← try_ info;
  mret (match i with Ok i => Rootless i | _ => false end).

(** No line, and the index is out of range. *)
Definition subnets_format : string := js "{{range (index (index . `IPAM`) `Config`)}}{{index . `Subnet`}} {{end}}".
Definition getSubnets (networkName : string) : st W (list string) :=
  lines ← st_wrap "failed to get subnets"
            (host_OutputLines ["docker"; "network"; "inspect"; "-f"; subnets_format; networkName]);
  line ← pure (index lines 0);
  mret (Split (TrimSpace line) " ").
End util.

Section docker.
Context `{Host}.

(** ** Proxies *)

Definition HTTPProxy : string := "HTTP_PROXY".
Definition HTTPSProxy : string := "HTTPS_PROXY".
Definition NOProxy : string := "NO_PROXY".

(** A variable, under its name or its lower case one, is set under both. *)
Definition add_proxy_env (envs : gmap string string) (name : string) : gmap string string :=
  let val := if Getenv name =s "" then Getenv (ToLower name) else Getenv name in
  if val <>s "" then <[ToLower name := val]> (<[name := val]> envs) else envs.

Definition set_both (v : string) (envs : gmap string string) : gmap string string :=
  <[ToLower NOProxy := v]> (<[NOProxy := v]> envs).

Definition GetProxyEnvs (cfg : Cluster) : gmap string string :=
  let envs := fold_left add_proxy_env [HTTPProxy; HTTPSProxy; NOProxy] ∅ in
  if Nat.ltb 0 (size envs) then
    let noProxy := default "" (envs !! NOProxy) in
    let noProxy := if noProxy <>s "" then noProxy +:+ "," else noProxy in
    set_both (noProxy +:+ nt_ServiceSubnet (kc_Networking cfg) +:+ "," +:+ nt_PodSubnet (kc_Networking cfg)) envs
  else envs.

(** The subnets of the network and the names of the nodes are not to be reached through
    the proxy. *)
Definition with_no_proxy (subnets nodeNames : list string) (envs : gmap string string) : gmap string string :=
  set_both (Join (subnets ++ [default "" (envs !! NOProxy)] ++ nodeNames ++
                  [".svc"; ".svc.cluster"; ".svc.cluster.local"]) ",") envs.

(** ** Mounts and ports *)

Definition generateMountBinding (m : Mount) : string :=
  let attrs := (if mo_Readonly m then ["ro"] else []) ++ (if mo_SelinuxRelabel m then ["Z"] else []) ++
    (if mo_Propagation m =s "Bidirectional" then ["rshared"]
     else if mo_Propagation m =s "HostToContainer" then ["rslave"] else []) in
  let bind := mo_HostPath m +:+ ":" +:+ mo_ContainerPath m in
  "--volume=" +:+ (if Nat.ltb 0 (length attrs) then bind +:+ ":" +:+ Join attrs "," else bind).
Definition generateMountBindings (mounts : list Mount) : list string := map generateMountBinding mounts.

Definition PortOrGetFreePort (i : nat) (port : Z) (listenAddr : string) : res Z :=
  if port =? -1 then Ok 0 else if port =? 0 then GetFreePort i listenAddr else Ok port.

Definition mapping_address (clusterIPFamily : string) (pm : PortMapping) : res string :=
  if pm_ListenAddress pm =s "" then
    if str_in clusterIPFamily [IPv4Family; DualStackFamily] then Ok "0.0.0.0"
    else if clusterIPFamily =s IPv6Family then Ok "::"
    else Err ("unknown cluster IP family: " +:+ clusterIPFamily)
  else Ok (pm_ListenAddress pm).

Definition generatePortMapping (clusterIPFamily : string) (i : nat) (pm : PortMapping) : res string :=
  listen ← mapping_address clusterIPFamily pm;
  let protocol := dflt (pm_Protocol pm) "TCP" in
  fail_when (negb (str_in protocol ["TCP"; "UDP"; "SCTP"])) ("unknown port mapping protocol: " +:+ protocol) ;;
  hostPort ← errors_Wrap "failed to get random host port for port mapping"
               (PortOrGetFreePort i (pm_HostPort pm) listen);
  Ok ("--publish=" +:+ JoinHostPort listen (Itoa hostPort) +:+ ":" +:+ Itoa (pm_ContainerPort pm) +:+ "/" +:+ protocol).

Fixpoint generatePortMappings_from (clusterIPFamily : string) (i : nat) (pms : list PortMapping)
  : res (list string) :=
  match pms with
  | [] => Ok []
  | pm :: pms =>
      arg ← generatePortMapping clusterIPFamily i pm;
      args ← generatePortMappings_from clusterIPFamily (S i) pms;
      Ok (arg :: args)
  end.
Definition generatePortMappings (clusterIPFamily : string) (pms : list PortMapping) : res (list string) :=
  generatePortMappings_from clusterIPFamily 0 pms.

(** ** Arguments of [docker run] *)

Section containers.
Context {W : Type} `{!HostExec W, !DockerLibs}.

Definition getProxyEnv (cfg : Cluster) (networkName : string) (nodeNames : list string)
  : st W (gmap string string) :=
  let envs := GetProxyEnvs cfg in
  if Nat.ltb 0 (size envs) then
    subnets ← getSubnets networkName;
    mret (with_no_proxy subnets nodeNames envs)
  else mret envs.

Definition env_args (envs : gmap string string) : list string :=
  concat (map (λ kv, ["-e"; fst kv +:+ "=" +:+ snd kv]) (map_to_list envs)).
Definition ipv6_args (cfg : Cluster) : list string :=
  if ClusterHasIPv6 cfg
  then ["--sysctl=net.ipv6.conf.all.disable_ipv6=0"; "--sysctl=net.ipv6.conf.all.forwarding=1"] else [].

(** The variables of the proxy are passed in some order, that of the map. *)
Definition commonArgs (cluster : string) (cfg : Cluster) (networkName : string) (nodeNames : list string)
  : st W (list string) :=
  let args := ["--detach"; "--tty"; "--label"; clusterLabelKey +:+ "=" +:+ cluster;
               "--net"; networkName; "--restart=on-failure:1"; "--init=false"] in
  let args := args ++ ipv6_args cfg in
  proxyEnv ← st_wrap "proxy setup error" (getProxyEnv cfg networkName nodeNames);
  let args := args ++ env_args proxyEnv in
  remapped ← usernsRemap;
  let args := args ++ (if remapped : bool then ["--userns=host"] else []) in
  mapper ← mountDevMapper;
  let args := args ++ (if mapper : bool then ["--volume"; "/dev/mapper:/dev/mapper"] else []) in
  fuse ← mountFuse;
  mret (args ++ (if fuse : bool then ["--device"; "/dev/fuse"] else [])).

Definition runArgsForNode (node : Node) (clusterIPFamily name : string) (args : list string) : res (list string) :=
  let args := ["--hostname"; name; "--label"; nodeRoleLabelKey +:+ "=" +:+ no_Role node;
    "--privileged"; "--security-opt"; "seccomp=unconfined"; "--security-opt"; "apparmor=unconfined";
    "--tmpfs"; "/tmp"; "--tmpfs"; "/run"; "--volume"; "/var"; "--volume"; "/lib/modules:/lib/modules:ro";
    "-e"; "KIND_EXPERIMENTAL_CONTAINERD_SNAPSHOTTER"] ++ args in
  let args := args ++ generateMountBindings (no_ExtraMounts node) in
  mappingArgs ← generatePortMappings clusterIPFamily (no_ExtraPortMappings node);
  let args := args ++ mappingArgs in
  let args := args ++ (if no_Role node =s ControlPlaneRole
                       then ["-e"; "KUBECONFIG=/etc/kubernetes/admin.conf"] else []) in
  Ok (args ++ [no_Image node]).

Definition runArgsForLoadBalancer (cfg : Cluster) (name : string) (args : list string) : res (list string) :=
  let args := ["--hostname"; name; "--label"; nodeRoleLabelKey +:+ "=" +:+ ExternalLoadBalancerNodeRoleValue] ++ args in
  let nt := kc_Networking cfg in
  mappingArgs ← generatePortMappings (nt_IPFamily nt)
    [mkPortMapping APIServerInternalPort (nt_APIServerPort nt) (nt_APIServerAddress nt) ""];
  Ok (args ++ mappingArgs ++ [loadbalancer_Image]).

(** ** The plan *)

(** A container that a planned function creates: its name and the arguments that the
    function computes, after [docker run --name name]; whether it is waited for. *)
Record container := mkContainer {
  ct_name : string;
  ct_args : st W (list string);
  ct_wait : bool
}.

Definition with_mounts (n : Node) (mounts : list Mount) : Node :=
  mkNode (no_Role n) (no_Image n) (no_Labels n) mounts (no_ExtraPortMappings n)
    (no_KubeadmConfigPatches n) (no_KubeadmConfigPatchesJSON6902 n).
Definition with_mapping (n : Node) (pm : PortMapping) : Node :=
  mkNode (no_Role n) (no_Image n) (no_Labels n) (no_ExtraMounts n) (no_ExtraPortMappings n ++ [pm])
    (no_KubeadmConfigPatches n) (no_KubeadmConfigPatchesJSON6902 n).

(** Host paths are made absolute. *)
Definition IsAbs (p : string) : bool := HasPrefix p "/".
Definition fix_mount (m : Mount) : res Mount :=
  if IsAbs (mo_HostPath m) then Ok m else
  p ← errors_Wrap ("unable to resolve absolute path for hostPath: " +:+ Q (mo_HostPath m))
        (filepath_Abs (mo_HostPath m));
  Ok (mkMount (mo_ContainerPath m) p (mo_Readonly m) (mo_SelinuxRelabel m) (mo_Propagation m)).
(** What a runtime does for a mount, and the arguments for a node and for the load
    balancer; the rest of the plan does not depend on the runtime. *)
Section plan.
Context (fix_mount : Mount → res Mount) (run_node : Node → string → st W (list string))
  (run_lb : string → st W (list string)).

Fixpoint fix_mounts (mounts : list Mount) : res (list Mount) :=
  match mounts with
  | [] => Ok []
  | m :: mounts =>
      m ← fix_mount m;
      mounts ← fix_mounts mounts;
      Ok (m :: mounts)
  end.

(** The function planned for a node. *)
Definition plan_node (api : PortMapping) (node : Node) (name : string) : res container :=
  mounts ← fix_mounts (no_ExtraMounts node);
  let node := with_mounts node mounts in
  if no_Role node =s ControlPlaneRole then Ok (mkContainer name (run_node (with_mapping node api) name) true)
  else if no_Role node =s WorkerRole then Ok (mkContainer name (run_node node name) true)
  else Err ("unknown node role: " +:+ Q (no_Role node)).

Fixpoint plan_nodes (api : PortMapping) (nodes : list Node) (names : list string) : res (list container) :=
  match nodes, names with
  | node :: nodes, name :: names =>
      c ← plan_node api node name;
      cs ← plan_nodes api nodes names;
      Ok (c :: cs)
  | [], _ => Ok []
  | _, [] => Panic "index out of range"
  end.

(** The mapping of the API server port: with a load balancer, only that reflects the
    configured port. *)
Definition api_mapping (cfg : Cluster) : PortMapping :=
  let nt := kc_Networking cfg in
  if ClusterHasImplicitLoadBalancer cfg then
    mkPortMapping APIServerInternalPort 0 (if nt_IPFamily nt =s IPv6Family then "::1" else "127.0.0.1") ""
  else mkPortMapping APIServerInternalPort (nt_APIServerPort nt) (nt_APIServerAddress nt) "".

(** The load balancer has the last name, and is planned first. *)
Definition plan (cfg : Cluster) (names : list string) : res (list container) :=
  lb ← (if ClusterHasImplicitLoadBalancer cfg then
          name ← index names (length names - 1);
          Ok [mkContainer name (run_lb name) false]
        else Ok []);
  cs ← plan_nodes (api_mapping cfg) (kc_Nodes cfg) names;
  Ok (lb ++ cs).
End plan.

(** The roles of the containers, in the order in which they are named. *)
Definition planned_roles (cfg : Cluster) : list string :=
  map no_Role (kc_Nodes cfg) ++
  (if ClusterHasImplicitLoadBalancer cfg then [ExternalLoadBalancerNodeRoleValue] else []).

Definition planCreation (cfg : Cluster) (networkName : string) : st W (list container) :=
  let names := name_nodes (kc_Name cfg) ∅ (planned_roles cfg) in
  genericArgs ← commonArgs (kc_Name cfg) cfg networkName names;
  pure (plan fix_mount
    (λ node name, pure (runArgsForNode node (nt_IPFamily (kc_Networking cfg)) name genericArgs))
    (λ name, pure (runArgsForLoadBalancer cfg name genericArgs)) cfg names).
End containers.
End docker.

(** ** What is planned for a valid configuration *)

Definition has_label (cluster : string) (args : list string) : Prop :=
  ∃ pre post, args = pre ++ ["--label"; clusterLabelKey +:+ "=" +:+ cluster] ++ post.

(** The label of its role follows the host name, and that of the cluster is there. *)
Definition labelled {W} (cluster : string) (nr : string * string) (c : @container W) : Prop :=
  ct_name c = fst nr ∧
  ∀ args w w', ct_args c w = (Ok args, w') →
    take 4 args = ["--hostname"; fst nr; "--label"; nodeRoleLabelKey +:+ "=" +:+ snd nr] ∧
    has_label cluster args.

Lemma has_label_app_l cluster l l' : has_label cluster l → has_label cluster (l ++ l').
Proof. intros (pre & post & ->). exists pre, (post ++ l'). by rewrite <-!app_assoc. Qed.
Lemma has_label_app_r cluster l l' : has_label cluster l' → has_label cluster (l ++ l').
Proof. intros (pre & post & ->). exists (l ++ pre), post. by rewrite <-app_assoc. Qed.

Lemma has_label_here cluster pre post : has_label cluster (pre ++ ["--label"; clusterLabelKey +:+ "=" +:+ cluster] ++ post).
Proof. by exists pre, post. Qed.
#[export] Hint Resolve has_label_app_l has_label_app_r : skind.

(** *** Every plan *)

Lemma planned_roles_ok cfg : Forall node_ok (kc_Nodes cfg) → Forall (λ r, r ∈ kind_roles) (planned_roles cfg).
Proof.
  intros Hn. unfold planned_roles. apply Forall_app. split.
  - apply Forall_fmap. eapply Forall_impl; [exact Hn|]. intros n (Hr & _). simpl.
    unfold kind_roles. rewrite !elem_of_cons, elem_of_nil in *. tauto.
  - destruct (ClusterHasImplicitLoadBalancer cfg); repeat constructor.
Qed.

Section any_plan.
Context {W : Type} (fixm : Mount → res Mount) (run_node : Node → string → st W (list string))
  (run_lb : string → st W (list string)).

Lemma fix_mounts_ok mounts : (∀ m, is_Ok (fixm m) = true) → is_Ok (fix_mounts fixm mounts) = true.
Proof.
  intros Hf. induction mounts as [|m mounts IH]; simpl; [done|]. specialize (Hf m).
  destruct (fixm m); [|done..]. simpl. by destruct (fix_mounts fixm mounts).
Qed.

Lemma plan_nodes_ok api nodes names :
  (∀ m, is_Ok (fixm m) = true) →
  Forall (λ n, no_Role n ∈ [ControlPlaneRole; WorkerRole]) nodes → (length nodes <= length names)%nat →
  is_Ok (plan_nodes fixm run_node api nodes names) = true.
Proof.
  intros Habs Hr. revert names. induction Hr as [|n nodes Hn _ IH]; intros names Hl; simpl; [done|].
  destruct names as [|name names]; [simpl in Hl; lia|]. unfold plan_node.
  pose proof (fix_mounts_ok (no_ExtraMounts n) Habs) as Hm. destruct (fix_mounts _ _) as [ms| |]; [|done..].
  simpl in Hl. specialize (IH names ltac:(lia)).
  rewrite !elem_of_cons, elem_of_nil in Hn. cbn [mbind res_bind no_Role with_mounts].
  destruct Hn as [-> |[-> |[]]]; simpl; by destruct (plan_nodes _ _ _ _ _).
Qed.

(** Whatever holds of the functions for nodes and for the load balancer. *)
Lemma plan_Forall (Q : @container W → Prop) cfg names cs :
  (∀ node name wait, Q (mkContainer name (run_node node name) wait)) → (∀ name, Q (mkContainer name (run_lb name) false)) →
  plan fixm run_node run_lb cfg names = Ok cs → Forall Q cs.
Proof.
  intros Hn Hl. unfold plan. intros (lb & Elb & (ns & Hns & <-%Ok_inj)%bind_Ok_iff)%bind_Ok_iff. apply Forall_app. split.
  - destruct (ClusterHasImplicitLoadBalancer cfg); [|injection Elb as <-; constructor].
    apply bind_Ok_iff in Elb as (name & _ & <-%Ok_inj). by repeat constructor.
  - clear Elb. revert ns Hns. generalize (kc_Nodes cfg) as nodes. intros nodes. revert names.
    induction nodes as [|node nodes IH]; intros names ns; cbn [plan_nodes]; [by intros [= <-]|].
    destruct names as [|name names]; [done|]. intros (c & Hc & (cs' & Hcs & <-%Ok_inj)%bind_Ok_iff)%bind_Ok_iff.
    constructor; [|by eapply IH]. unfold plan_node in Hc. apply bind_Ok_iff in Hc as (mounts & _ & Hc). cbv zeta in Hc.
    destruct (no_Role _ =s ControlPlaneRole); [|destruct (no_Role _ =s WorkerRole); [|done]]; by injection Hc as <-.
Qed.

Context (P : string * string → @container W → Prop).

Lemma plan_nodes_all api nodes names cs :
  (∀ node name c, node ∈ nodes → plan_node fixm run_node api node name = Ok c → P (name, no_Role node) c) →
  plan_nodes fixm run_node api nodes names = Ok cs →
  Forall2 P (zip (take (length nodes) names) (map no_Role nodes)) cs ∧ (length nodes <= length names)%nat.
Proof.
  intros HP. revert names cs. induction nodes as [|node nodes IH]; intros names cs; simpl.
  { intros [= <-]. split; [constructor|lia]. }
  destruct names as [|name names]; [done|].
  intros (c & Hc & Hcs)%bind_Ok_iff. apply bind_Ok_iff in Hcs as (cs' & Hcs & [= <-]).
  apply IH in Hcs as [Hf Hl]; [|intros n x y Hn; apply HP; by right]. simpl. split; [|lia]. constructor; [|done].
  by apply HP; [left|].
Qed.

(** The names and roles of a plan. *)
Lemma plan_all cfg cs :
  let names := name_nodes (kc_Name cfg) ∅ (planned_roles cfg) in
  Forall node_ok (kc_Nodes cfg) → plan fixm run_node run_lb cfg names = Ok cs →
  (∀ node name c, node ∈ kc_Nodes cfg → plan_node fixm run_node (api_mapping cfg) node name = Ok c →
     P (name, no_Role node) c) →
  (∀ name, P (name, ExternalLoadBalancerNodeRoleValue) (mkContainer name (run_lb name) false)) →
  ∃ lb nodes, cs = lb ++ nodes ∧ length lb = (if ClusterHasImplicitLoadBalancer cfg then 1%nat else 0%nat) ∧
    Forall2 P (zip names (planned_roles cfg)) (nodes ++ lb).
Proof.
  intros names Hnodes Hcs HP Hlb. assert (length names = length (planned_roles cfg)) as Hlen by apply length_name_nodes.
  assert (length (planned_roles cfg) = (length (kc_Nodes cfg) +
    (if ClusterHasImplicitLoadBalancer cfg then 1 else 0))%nat) as Hroles.
  { unfold planned_roles. rewrite length_app, length_map. by destruct (ClusterHasImplicitLoadBalancer cfg). }
  unfold plan in Hcs. apply bind_Ok_iff in Hcs as (lb & Elb & Hcs). apply bind_Ok_iff in Hcs as (ns & Hns & <-%Ok_inj).
  eapply plan_nodes_all in Hns as [Hf Hle]; [|exact HP]. exists lb, ns. split; [done|].
  unfold planned_roles in *. destruct (ClusterHasImplicitLoadBalancer cfg).
  - apply bind_Ok_iff in Elb as (name & Hname%index_Ok & <-%Ok_inj). split; [done|].
    assert (names = take (length (kc_Nodes cfg)) names ++ [name]) as ->.
    { rewrite <-(take_drop (length (kc_Nodes cfg)) names) at 1. f_equal.
      apply drop_S in Hname. replace (length names - 1)%nat with (length (kc_Nodes cfg)) in Hname by lia.
      rewrite Hname. f_equal. apply drop_ge. lia. }
    rewrite zip_with_app by (rewrite length_take, length_map; lia).
    apply Forall2_app; [done|]. apply Forall2_cons. by split; [|constructor].
  - apply Ok_inj in Elb as <-. split; [done|]. rewrite !app_nil_r in *. rewrite take_ge in Hf by lia. done.
Qed.

Lemma plan_ok cfg :
  let names := name_nodes (kc_Name cfg) ∅ (planned_roles cfg) in
  Forall node_ok (kc_Nodes cfg) → (∀ m, is_Ok (fixm m) = true) → is_Ok (plan fixm run_node run_lb cfg names) = true.
Proof.
  intros names Hnodes Habs. assert (length names = length (planned_roles cfg)) as Hlen by apply length_name_nodes.
  assert (length (planned_roles cfg) = (length (kc_Nodes cfg) +
    (if ClusterHasImplicitLoadBalancer cfg then 1 else 0))%nat) as Hroles.
  { unfold planned_roles. rewrite length_app, length_map. by destruct (ClusterHasImplicitLoadBalancer cfg). }
  unfold plan. pose proof (plan_nodes_ok (api_mapping cfg) (kc_Nodes cfg) names Habs
    ltac:(eapply Forall_impl; [exact Hnodes|by intros n [? _]]) ltac:(lia)) as Hok.
  destruct (plan_nodes _ _ _ _ _) as [cs| |]; [|done..].
  destruct (ClusterHasImplicitLoadBalancer cfg); [|done]. unfold index.
  destruct (names !! _) eqn:Hi; [done|]. apply lookup_ge_None in Hi. lia.
Qed.
End any_plan.

(** The names of a plan. *)
Lemma plan_ct_names {W} (P : string * string → @container W → Prop) cfg lb nodes :
  let names := name_nodes (kc_Name cfg) ∅ (planned_roles cfg) in
  (∀ nr c, P nr c → ct_name c = nr.1) → Forall node_ok (kc_Nodes cfg) →
  Forall2 P (zip names (planned_roles cfg)) (nodes ++ lb) → NoDup (map ct_name (lb ++ nodes)).
Proof.
  intros names HP Hn Hf. assert (map ct_name (nodes ++ lb) = (zip names (planned_roles cfg)).*1) as E.
  { induction Hf as [|nr c nrs cs Hc _ IH]; simpl; [done|]. by rewrite (HP _ _ Hc), IH. }
  rewrite fst_zip in E by (unfold names; by rewrite length_name_nodes).
  assert (map ct_name (lb ++ nodes) ≡ₚ names) as ->; [|by apply name_nodes_NoDup, planned_roles_ok].
  by rewrite (Permutation_app_comm lb nodes), E.
Qed.

Section plan_facts.
Context `{Host} {W : Type} `{!HostExec W, !DockerLibs}.

Lemma commonArgs_label cluster cfg net names w args w' :
  commonArgs cluster cfg net names w = (Ok args, w') → has_label cluster args.
Proof.
  unfold commonArgs. intros (env & w1 & _ & E)%st_bind_Ok. apply st_bind_Ok in E as (b1 & w2 & _ & E).
  apply st_bind_Ok in E as (b2 & w3 & _ & E). apply st_bind_Ok in E as (b3 & w4 & _ & [= <- _]).
  eexists ["--detach"; "--tty"], _. reflexivity.
Qed.

Lemma runArgsForNode_labelled cluster node family name args :
  has_label cluster args →
  labelled cluster (name, no_Role node) (mkContainer (W:=W) name (pure (runArgsForNode node family name args)) true).
Proof.
  intros Hargs. split; [done|]. unfold runArgsForNode. cbn [ct_args fst snd].
  intros args' w0 w1 [(ms & _ & <-%Ok_inj)%bind_Ok_iff _]%pure_run. split; [cbn [app take]; reflexivity|].
  do 4 apply has_label_app_l. by apply has_label_app_r.
Qed.

Lemma runArgsForLoadBalancer_labelled cluster cfg name args :
  has_label cluster args →
  labelled cluster (name, ExternalLoadBalancerNodeRoleValue)
    (mkContainer (W:=W) name (pure (runArgsForLoadBalancer cfg name args)) false).
Proof.
  intros Hargs. split; [done|]. unfold runArgsForLoadBalancer. cbn [ct_args fst snd].
  intros args' w0 w1 [(ms & _ & <-%Ok_inj)%bind_Ok_iff _]%pure_run. split; [cbn [app take]; reflexivity|].
  apply has_label_app_l. by apply has_label_app_r.
Qed.

Lemma plan_node_labelled cluster family args api node name c :
  has_label cluster args →
  plan_node fix_mount (λ node name, pure (W:=W) (runArgsForNode node family name args)) api node name = Ok c →
  labelled cluster (name, no_Role node) c.
Proof.
  intros Hargs. unfold plan_node. intros (mounts & _ & Hc)%bind_Ok_iff. cbn [no_Role with_mounts] in Hc.
  destruct (no_Role node =s ControlPlaneRole) eqn:Hcp; [injection Hc as <-|
    destruct (no_Role node =s WorkerRole); [injection Hc as <-|done]].
  - by apply (runArgsForNode_labelled cluster (with_mapping (with_mounts node mounts) api)).
  - by apply (runArgsForNode_labelled cluster (with_mounts node mounts)).
Qed.

Lemma fix_mount_ok : (∀ p, is_Ok (filepath_Abs p) = true) → ∀ m, is_Ok (fix_mount m) = true.
Proof.
  intros Habs m. unfold fix_mount. destruct (IsAbs _); [done|]. specialize (Habs (mo_HostPath m)).
  by destruct (filepath_Abs _).
Qed.

(** For a valid configuration a plan can be made whenever the common arguments and
    the paths of the mounts can be told.  A plan has a container for each node,
    and one for the load balancer before them when there are several control planes;
    their names are distinct, and each is run with its host name, the label of its
    role and the label of the cluster. *)
Theorem planCreation_spec cfg net (w : W) :
  Validate cfg = None →
  let names := name_nodes (kc_Name cfg) ∅ (planned_roles cfg) in
  (∀ args w', (∀ p, is_Ok (filepath_Abs p) = true) → commonArgs (kc_Name cfg) cfg net names w = (Ok args, w') →
     ∃ cs, planCreation cfg net w = (Ok cs, w')) ∧
  ∀ cs w', planCreation cfg net w = (Ok cs, w') →
    NoDup (map ct_name cs) ∧
    ∃ lb nodes, cs = lb ++ nodes ∧
      length lb = (if ClusterHasImplicitLoadBalancer cfg then 1%nat else 0%nat) ∧
      Forall2 (labelled (kc_Name cfg)) (zip names (planned_roles cfg)) (nodes ++ lb).
Proof.
  intros (_ & _ & _ & _ & _ & Hnodes & _)%Validate_iff names. unfold planCreation. fold names. split.
  - intros args w' Habs Hargs. rewrite (st_run _ _ _ _ _ Hargs). unfold pure at 1.
    match goal with |- ∃ cs, (plan ?f ?r ?l cfg names, _) = _ => pose proof (plan_ok f r l cfg Hnodes (fix_mount_ok Habs)) as Hok end.
    fold names in Hok. destruct (plan _ _ _ cfg names); [eauto|done..].
  - intros cs w' (args & w1 & Hargs%commonArgs_label & [Hcs _]%pure_run)%st_bind_Ok.
    eapply plan_all in Hcs as (lb & nodes & -> & Hl & Hf); [|done|..].
    + split; [|by exists lb, nodes]. eapply plan_ct_names; [|done|exact Hf]. by intros nr c [? _].
    + intros node name c _ Hc. by eapply plan_node_labelled.
    + intros name. by apply runArgsForLoadBalancer_labelled.
Qed.
End plan_facts.

(** ** The node of the API server *)

(** The nodes that a role selects, for nodes that have the roles of a list. *)
Lemma SelectNodesByRole_length Role names roles x :
  Forall2 (λ n r, Role n = Ok r) names roles →
  ∃ out, SelectNodesByRole Role names x = Ok out ∧
    length out = length (List.filter (λ r, r =s x) roles) ∧
    ∀ n, n ∈ names → Role n = Ok x → n ∈ out.
Proof.
  induction 1 as [|n r names roles Hn _ (out & Hout & Hl & Hin)]; simpl.
  { exists []. split_and!; [done|done|]. by intros n ?%elem_of_nil. }
  rewrite Hn, Hout. simpl. eexists. split; [reflexivity|].
  destruct (String.eqb_spec r x) as [->|Hne]; simpl; (split; [lia|]).
  - intros m [->|Hm]%elem_of_cons Hr; [apply list_elem_of_here|]. by apply list_elem_of_further, Hin.
  - intros m [->|Hm]%elem_of_cons Hr; [congruence|]. by apply Hin.
Qed.

Lemma planned_role_count cfg :
  Forall node_ok (kc_Nodes cfg) →
  length (List.filter (λ r, r =s ExternalLoadBalancerNodeRoleValue) (planned_roles cfg)) =
    (if ClusterHasImplicitLoadBalancer cfg then 1%nat else 0%nat) ∧
  length (List.filter (λ r, r =s ControlPlaneNodeRoleValue) (planned_roles cfg)) =
    length (List.filter (λ n, no_Role n =s ControlPlaneRole) (kc_Nodes cfg)).
Proof.
  intros Hn. unfold planned_roles. rewrite !List.filter_app, !length_app.
  assert (length (List.filter (λ r, r =s ExternalLoadBalancerNodeRoleValue) (map no_Role (kc_Nodes cfg))) = 0%nat ∧
    length (List.filter (λ r, r =s ControlPlaneNodeRoleValue) (map no_Role (kc_Nodes cfg))) =
    length (List.filter (λ n, no_Role n =s ControlPlaneRole) (kc_Nodes cfg))) as [-> ->].
  { induction Hn as [|n l (Hr & _) _ [IH1 IH2]]; simpl; [done|].
    rewrite !elem_of_cons, elem_of_nil in Hr. destruct Hr as [-> |[-> |[]]]; simpl; rewrite ?IH2; auto. }
  destruct (ClusterHasImplicitLoadBalancer cfg); simpl; lia.
Qed.

(** The only node of a role is the one without a number. *)
Lemma select_single Role cl roles x :
  Forall (λ r, r ∈ kind_roles) roles → x ∈ kind_roles →
  Forall2 (λ n r, Role n = Ok r) (name_nodes cl ∅ roles) roles →
  length (List.filter (λ r, r =s x) roles) = 1%nat →
  SelectNodesByRole Role (name_nodes cl ∅ roles) x = Ok [cl +:+ "-" +:+ x].
Proof.
  intros Hr Hx HRole Hl. destruct (SelectNodesByRole_length _ _ _ x HRole) as (out & -> & Hlen & Hin).
  rewrite Hl in Hlen. destruct out as [|n [|? ?]]; [done| |done]. do 2 f_equal.
  assert (name_of cl x 1 = cl +:+ "-" +:+ x) as <- by (unfold name_of; simpl; by rewrite string_app_nil_r).
  assert (x ∈ roles) as Hxr.
  { destruct (List.filter _ roles) as [|y l] eqn:Hf; [done|]. assert (In y (y :: l)) as Hy by (by left).
    rewrite <-Hf in Hy. apply filter_In in Hy as [Hy ->%String.eqb_eq]. by apply list_elem_of_In. }
  assert (∀ k v, (∅ : gmap string Z) !! k = Some v → 1 <= v) as Hemp by done.
  pose proof (name_nodes_first cl ∅ roles x Hemp Hxr eq_refl) as Hfirst.
  assert (name_of cl x 1 ∈ [n]) as Hn; [|by apply list_elem_of_singleton in Hn].
  apply Hin; [done|]. pose proof Hfirst as (i & Hi)%list_elem_of_lookup.
  destruct (name_nodes_lookup _ _ _ _ _ Hemp Hi) as (r & k & Hri & Heq & Hk).
  rewrite Forall_forall in Hr. apply name_of_inj in Heq as [<- _]; [|done| |done|done].
  - by apply (Forall2_lookup_lr _ _ _ _ _ _ HRole Hi Hri).
  - by apply Hr, list_elem_of_lookup_2 with i.
Qed.

(** For a valid configuration whose nodes have the labels they were planned with,
    the node of the API server can be told: the load balancer where there are several
    control planes, and else the only control plane. *)
Theorem APIServerEndpointNode_planned Role cfg :
  Validate cfg = None →
  let names := name_nodes (kc_Name cfg) ∅ (planned_roles cfg) in
  Forall2 (λ n r, Role n = Ok r) names (planned_roles cfg) →
  APIServerEndpointNode Role names =
    Ok (kc_Name cfg +:+ "-" +:+
        (if ClusterHasImplicitLoadBalancer cfg then ExternalLoadBalancerNodeRoleValue else ControlPlaneNodeRoleValue)).
Proof.
  intros (_ & _ & _ & _ & _ & Hnodes & Hcp)%Validate_iff names HRole.
  pose proof (planned_roles_ok cfg Hnodes) as Hroles. pose proof (planned_role_count cfg Hnodes) as [Hlb Hcps].
  unfold APIServerEndpointNode, ExternalLoadBalancerNode.
  destruct (ClusterHasImplicitLoadBalancer cfg) eqn:Himp.
  - unfold names. rewrite (select_single _ _ _ _ Hroles) by (done || by repeat constructor). reflexivity.
  - destruct (SelectNodesByRole_length _ _ _ ExternalLoadBalancerNodeRoleValue HRole) as (out & Hout & Hlen & _).
    fold names in Hout. rewrite Hout. rewrite Hlb in Hlen. destruct out; [|done]. cbn [mbind res_bind errors_Wrap map_err].
    unfold ControlPlaneNodes, names.
    assert (length (List.filter (λ r, r =s ControlPlaneNodeRoleValue) (planned_roles cfg)) = 1%nat) as H1.
    { rewrite Hcps. unfold ClusterHasImplicitLoadBalancer in Himp. apply Nat.ltb_ge in Himp.
      apply Exists_exists in Hcp as (n & Hn & Hr).
      assert (In n (List.filter (λ n, no_Role n =s ControlPlaneRole) (kc_Nodes cfg))) as Hin.
      { apply filter_In. split; [by apply list_elem_of_In|by apply String.eqb_eq]. }
      destruct (List.filter _ (kc_Nodes cfg)); [done|]. simpl in *. lia. }
    rewrite (select_single _ _ _ _ Hroles) by (done || by repeat constructor). reflexivity.
Qed.

(** ** A host, and a cluster with two control planes *)

#[export] Instance demo_host : Host := {|
  Getenv := λ s, if s =s "HTTP_PROXY" then "http://proxy" else "";
  filepath_Abs := λ p, Ok ("/work/" +:+ p);
  GetFreePort := λ i _, Ok (40000 + Z.of_nat i)
|}.

(** A docker that has one subnet and says nothing of itself. *)
Definition demo_docker : HostExec unit := {|
  host := λ args _ w, (mkOutcome (if str_in "network" args then "172.18.0.0/16 " else "x") "" None, w);
  shell_Quote := λ s, s
|}.
Definition demo_docker_libs : DockerLibs := {|
  json_dockerInfo := λ _, Ok (mkDockerInfo "systemd" "2" true true true ["name=seccomp,profile=default"]);
  json_DriverStatus := λ _, Some [["Backing Filesystem"; "extfs"]];
  csv_ReadAll := λ s, Ok [Split s ","]
|}.
Definition demo_plan_of (cfg : Cluster) : res (list container) * unit :=
  @planCreation demo_host unit demo_docker demo_docker_libs cfg "kind" tt.

Definition demo_ha : Cluster :=
  SetDefaultsCluster demo_build
    (mkCluster "ha" [mkNode "control-plane" "" ∅ [mkMount "/data" "data" true false ""] [] [] [];
                     mkNode "worker" "" ∅ [] [] [] []; mkNode "control-plane" "" ∅ [] [] [] []]
       (mkNetworking "" 6000 "" "" "" false "") ∅ ∅ [] [] [] []).

Example demo_plan :
  (map ct_name <$> fst (demo_plan_of demo_ha)) =
    Ok ["ha-external-load-balancer"; "ha-control-plane"; "ha-worker"; "ha-control-plane2"].
Proof. vm_compute. reflexivity. Qed.

Lemma planCreation_spec_witness :
  Validate demo_ha = None ∧ ∃ cs, demo_plan_of demo_ha = (Ok cs, tt).
Proof.
  assert (Validate demo_ha = None) as Hv by (vm_compute; reflexivity). split; [exact Hv|].
  refine (proj1 (@planCreation_spec demo_host unit demo_docker demo_docker_libs demo_ha "kind" tt Hv) _ tt (λ _, eq_refl) _).
  unfold commonArgs, mbind, st_bind. vm_compute. reflexivity.
Defined.

Definition demo_labels (n : string) : res string :=
  Ok (if HasPrefix n "ha-control-plane" then "control-plane"
      else if HasPrefix n "ha-worker" then "worker" else "external-load-balancer").

Lemma APIServerEndpointNode_planned_witness :
  APIServerEndpointNode demo_labels (name_nodes "ha" ∅ (planned_roles demo_ha)) =
    Ok "ha-external-load-balancer".
Proof.
  refine (APIServerEndpointNode_planned demo_labels demo_ha _ _).
  - vm_compute. reflexivity.
  - repeat constructor.
Defined.
