(* ===== verification/Network.v ===== *)
(** * The network of the local cluster

    [pkg/cluster/internal/providers/docker/network.go]: several processes may create
    the network at once, and each removes the duplicates. *)

From stdpp Require Import sorting.
From S2P Require Import Prelude GoStr Exec.
Local Open Scope Z_scope.
Local Open Scope go_scope.
Local Open Scope stdpp_scope.

Definition newline : string := String (Ascii.ascii_of_nat 10) "".

Record networkInspectEntry := mkEntry { ni_ID : string; ni_Containers : gmap string (gmap string string) }.

(** [decode_networks] is the JSON decoder, [sha1_sum] the hash (20 bytes), [subnet_String] the
    text of an IPv6 network of prefix 64. *)
Class NetLibs := {
  decode_networks : string → option (list networkInspectEntry);
  sha1_sum : list Z → list Z;
  subnet_String : list Z → string
}.

(** ** Classification of errors *)

Definition isIPv6UnavailableError (e : nerr) : bool :=
  match e with
  | RunErr e => HasPrefix (re_Output e) "Error response from daemon: Cannot read IPv6 setup for bridge"
  | OtherErr _ => false
  end.

(** The second test is outside of the one for nil. *)
Definition isPoolOverlapError (e : nerr) : option bool :=
  match e with
  | RunErr e => Some (HasPrefix (re_Output e) "Error response from daemon: Pool overlaps with other one on this address space" ||
                      Contains (re_Output e) "networks have overlapping")
  | OtherErr _ => None
  end.

Definition isNetworkAlreadyExistsError (e : nerr) : bool :=
  match e with
  | RunErr e => HasPrefix (re_Output e) "Error response from daemon: network with name" && Contains (re_Output e) "already exists"
  | OtherErr _ => false
  end.

(** Every line that is ended by a newline. *)
Definition isOnlyErrorNoSuchNetwork (e : nerr) : bool :=
  match e with
  | RunErr e => forallb (λ l, HasPrefix l "Error: No such network:" || negb (HasPrefix l "Error: "))
                  (removelast (Split (re_Output e) newline))
  | OtherErr _ => false
  end.

(** ** Sorting *)

Definition less (x y : networkInspectEntry) : bool :=
  if Nat.ltb (size (ni_Containers y)) (size (ni_Containers x)) then true else String.ltb (ni_ID x) (ni_ID y).

(** [sort.Slice] on up to twelve elements is an insertion sort: each element moves to
    the left while it is less than its neighbour.  [before] is what is to the left,
    last first. *)
Fixpoint insert_left (x : networkInspectEntry) (before : list networkInspectEntry) : list networkInspectEntry :=
  match before with
  | [] => [x]
  | y :: before' => if less x y then y :: insert_left x before' else x :: before
  end.
Definition sortNetworkInspectEntries (networks : list networkInspectEntry) : list networkInspectEntry :=
  reverse (fold_left (λ before x, insert_left x before) networks []).

(** ** Subnets *)

(** Little-endian 32-bit integer, as [binary.Write] writes an [int32]. *)
Definition le32 (n : Z) : list Z :=
  map (λ k, Z.land (Z.shiftr n (8 * k)) 255) [0; 1; 2; 3].

Definition ULA_bytes (sha1 : list Z → list Z) (name : string) (attempt : Z) : list Z :=
  let bs := sha1 (bytes name ++ le32 attempt) in
  [252; 0] ++ map (λ i, nth i bs 0) [2; 3; 4; 5; 6; 7]%nat ++ replicate 8 0.

(** [regexp.QuoteMeta]. *)
Fixpoint QuoteMeta (s : string) : string :=
  match s with
  | "" => ""
  | String c s => if str_in (String c "") ["\"; "."; "+"; "*"; "?"; "("; ")"; "|"; "["; "]"; "{"; "}"; "^"; "$"]
                  then String "\" (String c (QuoteMeta s)) else String c (QuoteMeta s)
  end.

Section network.
Context {W : Type} `{!HostExec W, !NetLibs}.

Definition generateULASubnetFromName (name : string) (attempt : Z) : string :=
  subnet_String (ULA_bytes sha1_sum name attempt).

(** ** Commands *)

Definition docker_run (args : list string) : net W unit := net_Run ("docker" :: args).

Definition ls_args (name column : string) : list string :=
  ["network"; "ls"; "--filter=name=^" +:+ QuoteMeta name +:+ "$"; "--format={{." +:+ column +:+ "}}"].

(** The identifiers in the output, one in a line. *)
Definition parse_ids (out : string) : list string :=
  let cleaned := if HasSuffix out newline then String.substring 0 (String.length out - 1) out else out in
  if cleaned =s "" then [] else Split cleaned newline.

Definition networksWithName (name : string) : net W (list string) :=
  lsOut ← net_Output ("docker" :: ls_args name "ID");
  mret (parse_ids lsOut).

(** The output of a command that failed is read when all that it misses is a network. *)
Definition decode (inspectOut : string) : net W (list networkInspectEntry) := λ w,
  (match decode_networks inspectOut with
   | Some ns => NOk ns
   | None => NErr (OtherErr "failed to decode networks list")
   end, w).
Definition inspectNetworks (networkIDs : list string) : net W (list networkInspectEntry) := λ w,
  let args := ["docker"; "network"; "inspect"] ++ networkIDs in
  let '(o, w) := host args None w in
  match run_error args o with
  | Some e => if isOnlyErrorNoSuchNetwork (RunErr e) then decode (oc_stdout o) w else (NErr (RunErr e), w)
  | None => decode (oc_stdout o) w
  end.

Definition sortedNetworksWithName (name : string) : net W (list string) :=
  ids ← networksWithName name;
  if Nat.ltb (length ids) 2 then mret ids else
  networks ← inspectNetworks ids;
  mret (map ni_ID (sortNetworkInspectEntries networks)).

Definition deleteNetworks (networks : list string) : net W unit := docker_run (["network"; "rm"] ++ networks).

(** [if err := m; err != nil && !harmless(err) { return err }] *)
Definition forgive (harmless : nerr → bool) (m : net W unit) : net W unit := λ w,
  match m w with
  | (NErr e, w) => if harmless e then (NOk tt, w) else (NErr e, w)
  | o => o
  end.

(** All but the first of the sorted networks are deleted; whether there was any. *)
Definition removeDuplicateNetworks (name : string) : net W bool :=
  networks ← sortedNetworksWithName name;
  (if Nat.ltb 1 (length networks)
   then forgive isOnlyErrorNoSuchNetwork (deleteNetworks (drop 1 networks)) else mret tt) ;;
  mret (Nat.ltb 0 (length networks)).

Definition create_args (name ipv6Subnet : string) (mtu : Z) : list string :=
  ["network"; "create"; "-d=bridge"; "-o"; "com.docker.network.bridge.enable_ip_masquerade=true"] ++
  (if 0 <? mtu then ["-o"; "com.docker.network.driver.mtu=" +:+ Itoa mtu] else []) ++
  (if ipv6Subnet <>s "" then ["--ipv6"; "--subnet"; ipv6Subnet] else []) ++ [name].

Definition createNetwork (name ipv6Subnet : string) (mtu : Z) : net W unit :=
  docker_run (create_args name ipv6Subnet mtu).

Definition createNetworkNoDuplicates (name ipv6Subnet : string) (mtu : Z) : net W unit :=
  forgive isNetworkAlreadyExistsError (createNetwork name ipv6Subnet mtu) ;;
  _ ← removeDuplicateNetworks name;
  mret tt.

Definition checkIfNetworkExists (name : string) : net W bool :=
  out ← net_Output ("docker" :: ls_args name "Name");
  mret (HasPrefix out name).

(** The only line of the output as a number; 0 otherwise. *)
Definition getDefaultNetworkMTU : net W Z := λ w,
  let '(o, w) := host ["docker"; "network"; "inspect"; "bridge"; "-f";
    "{{ index .Options " +:+ Q "com.docker.network.driver.mtu" +:+ " }}"] None w in
  (NOk (match oc_error o, scan_lines (oc_stdout o) with
        | None, [l] => default 0 (Atoi l)
        | _, _ => 0
        end), w).

(** ** Ensuring the network *)

(** After a failed attempt: the network of another process will do; else try again. *)
Definition after_overlap (name : string) (retry : net W unit) : net W unit :=
  exists_ ← checkIfNetworkExists name;
  if (exists_ : bool) then mret tt else retry.

(** The attempts [attempt, ..., 4]. *)
Fixpoint more_attempts (name : string) (mtu attempt : Z) (more : nat) : net W unit :=
  match more with
  | O => λ w, (NErr (OtherErr "exhausted attempts trying to find a non-overlapping subnet"), w)
  | S more => λ w,
      match createNetworkNoDuplicates name (generateULASubnetFromName name attempt) mtu w with
      | (NErr e, w) =>
          match isPoolOverlapError e with
          | None => (NPanic "nil pointer dereference", w)
          | Some true => after_overlap name (more_attempts name mtu (attempt + 1) more) w
          | Some false => (NErr e, w)
          end
      | o => o
      end
  end.

Definition first_attempt (name : string) (mtu : Z) : net W unit := λ w,
  match createNetworkNoDuplicates name (generateULASubnetFromName name 0) mtu w with
  | (NErr e, w) =>
      if isIPv6UnavailableError e then createNetworkNoDuplicates name "" mtu w
      else match isPoolOverlapError e with
           | None => (NPanic "nil pointer dereference", w)
           | Some true => after_overlap name (more_attempts name mtu 1 4) w
           | Some false => (NErr e, w)
           end
  | o => o
  end.

Definition ensureNetwork (name : string) : net W unit :=
  exists_ ← removeDuplicateNetworks name;
  if (exists_ : bool) then mret tt else
  mtu ← getDefaultNetworkMTU;
  first_attempt name mtu.
End network.

(** ** Sorting *)

Lemma insert_left_perm x l : insert_left x l ≡ₚ x :: l.
Proof.
  induction l as [|y l IH]; simpl; [done|]. destruct (less x y); [|done].
  rewrite IH. apply perm_swap.
Qed.

Lemma sort_perm_acc l acc : fold_left (λ before x, insert_left x before) l acc ≡ₚ l ++ acc.
Proof.
  revert acc. induction l as [|x l IH]; intros acc; simpl; [done|].
  rewrite IH, insert_left_perm. symmetry. apply Permutation_middle.
Qed.

Lemma sort_perm l : sortNetworkInspectEntries l ≡ₚ l.
Proof. unfold sortNetworkInspectEntries. by rewrite reverse_Permutation, sort_perm_acc, app_nil_r. Qed.

(** At the left of an entry there is nothing with a greater identifier. *)
Definition not_after (x y : networkInspectEntry) : Prop := String.le (ni_ID y) (ni_ID x).

#[export] Instance not_after_trans : Transitive not_after.
Proof. intros x y z Hxy Hyz. unfold not_after in *. by etrans. Qed.

Section same_size.
Context (k : nat).
Definition sized (x : networkInspectEntry) : Prop := size (ni_Containers x) = k.

Lemma less_sized x y : sized x → sized y → less x y = String.ltb (ni_ID x) (ni_ID y).
Proof. unfold less, sized. intros -> ->. by rewrite Nat.ltb_irrefl. Qed.

Lemma insert_left_sorted x l :
  sized x → Forall sized l → StronglySorted not_after l → StronglySorted not_after (insert_left x l).
Proof.
  intros Hx Hl Hs. induction Hs as [|y l Hs IH Hy]; simpl; [by repeat constructor|].
  apply Forall_cons in Hl as [Hsy Hl]. rewrite less_sized by done.
  destruct (String.ltb (ni_ID x) (ni_ID y)) eqn:Hlt.
  - constructor; [by apply IH|]. rewrite insert_left_perm. constructor; [by apply ltb_le|done].
  - assert (not_after x y) as Hxy by (by apply not_ltb_le).
    repeat constructor; try done. eapply Forall_impl; [exact Hy|]. intros z Hz. by etrans.
Qed.

Lemma sort_sorted_acc l acc :
  Forall sized l → Forall sized acc → StronglySorted not_after acc →
  StronglySorted not_after (fold_left (λ before x, insert_left x before) l acc).
Proof.
  revert acc. induction l as [|x l IH]; intros acc Hl Ha Hs; simpl; [done|].
  apply Forall_cons in Hl as [Hx Hl]. apply IH; [done| |by apply insert_left_sorted].
  rewrite insert_left_perm. by constructor.
Qed.
End same_size.

(** Networks of which none has more containers than another are sorted by their
    identifiers, so that all processes keep the same one, in whatever order docker
    lists them. *)
Theorem sortNetworkInspectEntries_deterministic k l l' :
  Forall (sized k) l → l ≡ₚ l' →
  Sorted String.le (map ni_ID (sortNetworkInspectEntries l)) ∧
  map ni_ID (sortNetworkInspectEntries l) = map ni_ID (sortNetworkInspectEntries l').
Proof.
  intros Hl Hp.
  assert (∀ l, Forall (sized k) l → Sorted String.le (map ni_ID (sortNetworkInspectEntries l))) as Hs.
  { clear. intros l Hl. apply (Sorted_fmap ni_ID (flip not_after) String.le); [done|].
    unfold sortNetworkInspectEntries. apply Sorted_reverse, StronglySorted_Sorted.
    apply (sort_sorted_acc k); [done|constructor|constructor]. }
  split; [by apply Hs|]. eapply (Sorted_unique String.le); [by apply Hs|apply Hs; by rewrite <-Hp|].
  change (ni_ID <$> sortNetworkInspectEntries l ≡ₚ ni_ID <$> sortNetworkInspectEntries l').
  by rewrite !sort_perm, Hp.
Qed.

Definition entry_of (ID : string) (containers : list string) : networkInspectEntry :=
  mkEntry ID (list_to_map (map (λ c, (c, ∅)) containers)).

(** Otherwise the test is no order: of two networks each is less than the other, and
    the one that is kept depends on the order in which docker lists them; it may be
    the one without containers. *)
Example kept_network_depends_on_order :
  let a := entry_of "1" [] in let b := entry_of "2" ["c"] in
  less a b = true ∧ less b a = true ∧
  map ni_ID (sortNetworkInspectEntries [a; b]) = ["2"; "1"] ∧
  map ni_ID (sortNetworkInspectEntries [b; a]) = ["1"; "2"].
Proof. vm_compute. done. Qed.

Lemma sortNetworkInspectEntries_deterministic_witness :
  map ni_ID (sortNetworkInspectEntries [entry_of "2" []; entry_of "1" []]) =
  map ni_ID (sortNetworkInspectEntries [entry_of "1" []; entry_of "2" []]).
Proof.
  refine (proj2 (sortNetworkInspectEntries_deterministic 0 [entry_of "2" []; entry_of "1" []] _ _ _)).
  - repeat constructor.
  - apply perm_swap.
Defined.

(** ** The network is there *)

(** Docker's commands on networks: the lists are those of the networks there are,
    [rm] removes no other network than those it is given, and a network is there after
    it has been created, or where docker says that there is one. *)
Class DockerLaws (W : Type) `{!HostExec W, !NetLibs} := {
  networks : string → W → list string;
  networks_NoDup name w : NoDup (networks name w);
  ls_ID name w o w' : host ("docker" :: ls_args name "ID") None w = (o, w') → oc_error o = None →
    parse_ids (oc_stdout o) = networks name w ∧ ∀ n, networks n w' = networks n w;
  ls_Name name w o w' : host ("docker" :: ls_args name "Name") None w = (o, w') → oc_error o = None →
    HasPrefix (oc_stdout o) name = true → networks name w' ≠ [];
  inspect_spec name w o w' : host (["docker"; "network"; "inspect"] ++ networks name w) None w = (o, w') →
    (∀ es, decode_networks (oc_stdout o) = Some es → map ni_ID es ≡ₚ networks name w) ∧
    ∀ n, networks n w' = networks n w;
  rm_spec ids w o w' : host (["docker"; "network"; "rm"] ++ ids) None w = (o, w') →
    ∀ n x, x ∈ networks n w → x ∉ ids → x ∈ networks n w';
  create_spec name s m o w w' : host ("docker" :: create_args name s m) None w = (o, w') →
    match run_error ("docker" :: create_args name s m) o with
    | None => True | Some e => isNetworkAlreadyExistsError (RunErr e) = true end →
    networks name w' ≠ []
}.

Section ensure_facts.
Context {W : Type} `{!HostExec W, !NetLibs, !DockerLaws W}.

Lemma forgive_NOk harmless (m : net W unit) w w' :
  forgive harmless m w = (NOk tt, w') → ∃ r, m w = (r, w') ∧
    match r with NOk _ => True | NErr e => harmless e = true | NPanic _ => False end.
Proof.
  unfold forgive. destruct (m w) as [[[]|e|] w1]; [intros [= <-]; by exists (NOk tt)| |done].
  destruct (harmless e) eqn:He; [|done]. intros [= <-]. exists (NErr e). done.
Qed.

Lemma sortedNetworks_perm name (w w' : W) ids :
  sortedNetworksWithName name w = (NOk ids, w') →
  ids ≡ₚ networks name w ∧ ∀ n, networks n w' = networks n w.
Proof.
  unfold sortedNetworksWithName. intros (l & w1 & Hl & Hs)%net_bind_NOk. unfold networksWithName in Hl.
  apply net_bind_NOk in Hl as (out & w2 & (o & Hd & He & ->)%net_Output_NOk & [= <- <-]).
  apply ls_ID in Hd as [Hp Hw]; [|done]. destruct (Nat.ltb _ 2); [injection Hs as <- <-; by rewrite Hp|].
  apply net_bind_NOk in Hs as (es & w3 & Hi & [= <- <-]). unfold inspectNetworks in Hi.
  rewrite Hp, <-(Hw name) in Hi. destruct (host _ None w2) as [o2 w4] eqn:Hd2.
  apply inspect_spec in Hd2 as [Hes Hw2].
  assert (decode_networks (oc_stdout o2) = Some es ∧ w3 = w4) as [Hdec ->].
  { unfold decode in Hi. destruct (run_error _ o2); [destruct (isOnlyErrorNoSuchNetwork _); [|done]|];
      (destruct (decode_networks (oc_stdout o2)); [by injection Hi as -> ->|done]). }
  split; [|by intros n; rewrite Hw2, Hw]. rewrite <-(Hw name), <-(Hes _ Hdec).
  change (ni_ID <$> sortNetworkInspectEntries es ≡ₚ ni_ID <$> es). by rewrite sort_perm.
Qed.

(** The duplicates go, the network stays. *)
Lemma removeDuplicateNetworks_keeps name (w w' : W) b :
  removeDuplicateNetworks name w = (NOk b, w') →
  (b = true ↔ networks name w ≠ []) ∧ (networks name w ≠ [] → networks name w' ≠ []).
Proof.
  unfold removeDuplicateNetworks. intros (ids & w1 & Hids & Hr)%net_bind_NOk.
  apply sortedNetworks_perm in Hids as [Hp Hw].
  apply net_bind_NOk in Hr as ([] & w2 & Hrm & [= <- <-]).
  assert (Nat.ltb 0 (length ids) = true ↔ networks name w ≠ []) as Hb.
  { rewrite Nat.ltb_lt, Hp. destruct (networks name w); simpl; split; [lia|done|done|lia]. }
  split; [exact Hb|]. intros Hne.
  destruct (Nat.ltb 1 (length ids)) eqn:H1; [|injection Hrm as <-; by rewrite Hw].
  apply forgive_NOk in Hrm as (r & Hrm & _). apply net_Run_inv in Hrm as (o & Hrm & _).
  pose proof (networks_NoDup name w) as Hnd. rewrite <-Hp in Hnd.
  destruct ids as [|x ids]; [done|]. apply NoDup_cons in Hnd as [Hx _].
  assert (x ∈ networks name w2) as Hin.
  { apply (rm_spec _ _ _ _ Hrm); [|by rewrite drop_0 in *||done]. rewrite Hw, <-Hp. apply list_elem_of_here. }
  intros Hnil. rewrite Hnil in Hin. by apply elem_of_nil in Hin.
Qed.

Lemma createNetworkNoDuplicates_has name s m (w w' : W) :
  createNetworkNoDuplicates name s m w = (NOk tt, w') → networks name w' ≠ [].
Proof.
  unfold createNetworkNoDuplicates. intros ([] & w1 & Hc & Hr)%net_bind_NOk.
  apply net_bind_NOk in Hr as (b & w2 & Hr & [= <-]).
  apply removeDuplicateNetworks_keeps in Hr as [_ Hkeep]. apply Hkeep.
  apply forgive_NOk in Hc as (r & Hc & Hf). apply net_Run_inv in Hc as (o & Hc & ->).
  apply create_spec in Hc; [done|]. by destruct (run_error _ o).
Qed.

Lemma after_overlap_has name retry (w w' : W) :
  (∀ w, retry w = (NOk tt, w') → networks name w' ≠ []) →
  after_overlap name retry w = (NOk tt, w') → networks name w' ≠ [].
Proof.
  intros Hretry. unfold after_overlap. intros (b & w1 & Hc & Hr)%net_bind_NOk.
  destruct b; [injection Hr as <-|by eapply Hretry]. unfold checkIfNetworkExists in Hc.
  apply net_bind_NOk in Hc as (out & w2 & (o & Hd & He & ->)%net_Output_NOk & [= Hpre ->]).
  by eapply ls_Name.
Qed.

Lemma more_attempts_has name mtu attempt more (w w' : W) :
  more_attempts name mtu attempt more w = (NOk tt, w') → networks name w' ≠ [].
Proof.
  revert attempt w. induction more as [|more IH]; intros attempt w; cbn [more_attempts]; [done|].
  destruct (createNetworkNoDuplicates _ _ _ w) as [[[]|e|] w1] eqn:Hc; [intros [= <-]| |done].
  { by eapply createNetworkNoDuplicates_has. }
  destruct (isPoolOverlapError e) as [[]|]; [|done..]. apply after_overlap_has. intros w2. apply IH.
Qed.

(** When [ensureNetwork] succeeds there is a network of the name: it was there, or
    has been created by this process or by another, and is not among the duplicates
    that were removed. *)
Theorem ensureNetwork_has name (w w' : W) :
  ensureNetwork name w = (NOk tt, w') → networks name w' ≠ [].
Proof.
  unfold ensureNetwork. intros (b & w1 & Hr & He)%net_bind_NOk.
  apply removeDuplicateNetworks_keeps in Hr as [Hb Hkeep]. destruct b.
  { injection He as <-. by apply Hkeep, Hb. }
  apply net_bind_NOk in He as (mtu & w2 & _ & He). unfold first_attempt in He.
  destruct (createNetworkNoDuplicates _ _ _ w2) as [[[]|e|] w3] eqn:Hc; [injection He as <-| |done].
  { by eapply createNetworkNoDuplicates_has. }
  destruct (isIPv6UnavailableError e); [by eapply createNetworkNoDuplicates_has|].
  destruct (isPoolOverlapError e) as [[]|]; [|done..].
  eapply after_overlap_has; [|exact He]. intros w4. apply more_attempts_has.
Qed.
End ensure_facts.

(** ** A docker with at most one network, of any name *)

Definition printed (out : string) : outcome := mkOutcome out out None.
Definition failed (out : string) : outcome := mkOutcome "" out (Some "exit status 1").
Definition demo_libs : NetLibs := {|
  decode_networks := λ _, None; sha1_sum := λ _, []; subnet_String := λ _, "fc00::/64" |}.

Module DemoDocker.
Definition run (args : list string) (_ : option string) (w : bool) : outcome * bool :=
  match args with
  | _ :: _ :: cmd :: rest =>
      if cmd =s "ls" then
        if str_in "--format={{.ID}}" rest then (printed (if w then "1" +:+ newline else ""), w)
        else (failed "Error: no names", w)
      else if cmd =s "create" then (printed "", true)
      else (printed "", w)
  | _ => (printed "", w)
  end.
#[global] Instance demo : HostExec bool := {| host := run; shell_Quote := λ s, s |}.
#[global] Instance libs : NetLibs := demo_libs.
Definition laws : DockerLaws bool.
Proof.
  refine (@Build_DockerLaws _ demo demo_libs (λ _ w, if w then ["1"] else []) _ _ _ _ _ _).
  - intros _ [|]; repeat constructor. by intros ?%elem_of_nil.
  - intros name w o w' Hd _. cbn in Hd. injection Hd as <- <-. split; [|done]. destruct w; reflexivity.
  - intros name w o w' Hd He. cbn in Hd. injection Hd as <- <-. discriminate He.
  - intros name w o w' Hd. cbn in Hd. injection Hd as <- <-. done.
  - intros ids w o w' Hd. cbn in Hd. injection Hd as <- <-. done.
  - intros name s m o w w' Hd _. cbn in Hd. by injection Hd as <- <-.
Defined.
Lemma created : ensureNetwork "kind" false = (NOk tt, true).
Proof. vm_compute. reflexivity. Qed.
End DemoDocker.

Lemma ensureNetwork_has_witness :
  @networks bool DemoDocker.demo DemoDocker.libs DemoDocker.laws "kind" true ≠ [].
Proof.
  exact (@ensureNetwork_has bool DemoDocker.demo DemoDocker.libs DemoDocker.laws "kind" false true DemoDocker.created).
Defined.

(** A decoding error of [docker network inspect] is no [RunError]: the test for an
    overlap dereferences nil. *)
Module DemoPanic.
Definition run (args : list string) (_ : option string) (w : nat) : outcome * nat :=
  match args with
  | _ :: _ :: cmd :: rest =>
      if (cmd =s "ls") && Nat.ltb 0 w then (printed ("1" +:+ newline +:+ "2" +:+ newline), w)
      else if cmd =s "create" then (printed "", S w)
      else (printed "", w)
  | _ => (printed "", w)
  end.
Definition demo : HostExec nat := {| host := run; shell_Quote := λ s, s |}.
Example decoding_error_panics :
  fst (@ensureNetwork nat demo demo_libs "kind" 0%nat) = NPanic "nil pointer dereference".
Proof. vm_compute. reflexivity. Qed.
End DemoPanic.
