(* ===== verification/Create.v ===== *)
(** * Creating and deleting the local cluster

    [create.Cluster] (pkg/cluster/internal/create/create.go) and [delete.Cluster]
    (pkg/cluster/internal/delete/delete.go) over a world that the node provider, the
    kubeconfig files and the actions change, given by the class [Env]. *)

From S2P Require Import Prelude State GoStr KeosTypes Errors KindConfig Nodes.
Local Open Scope Z_scope.
Local Open Scope go_scope.
Local Open Scope stdpp_scope.

(** ** Options *)

Record ClusterOptions := mkClusterOptions {
  opt_Config : option Cluster;
  opt_NameOverride : string;
  opt_VaultPassword : string;
  opt_DescriptorPath : string;
  opt_MoveManagement : bool;
  opt_AvoidCreation : bool;
  opt_UseLocalStratioImage : bool;
  opt_BuildStratioImage : bool;
  opt_KeosCluster : KeosCluster;
  opt_ClusterConfig : option ClusterConfig;
  opt_ClusterCredentials : ClusterCredentials;
  opt_DockerRegUrl : string;
  opt_ForceDelete : bool;
  opt_NodeImage : string;
  opt_Retain : bool;
  opt_WaitForReady : Z;
  opt_KubeconfigPath : string;
  opt_StopBeforeSettingUpKubernetes : bool;
  opt_DisplayUsage : bool;
  opt_DisplaySalutation : bool
}.

Record CAPX_Options := mkCAPX_Options {
  CAPI_Version : string; CAPA_Version : string; CAPG_Version : string; CAPZ_Version : string }.

Definition getCAPXVersion (capx : CAPX) : CAPX_Options :=
  mkCAPX_Options (capx_CAPI_Version capx) (capx_CAPA_Version capx) (capx_CAPG_Version capx)
    (capx_CAPZ_Version capx).

(** The actions, with what they are given. *)
Inductive action :=
| Loadbalancer
| ConfigAction
| KubeadmInit (cfg : Cluster)
| InstallCNI
| InstallStorage
| KubeadmJoin
| WaitForReady (wait : Z)
| CreateWorker (vaultPassword descriptorPath : string) (moveManagement avoidCreation : bool)
    (keosCluster : KeosCluster) (clusterCredentials : ClusterCredentials) (clusterConfig : option ClusterConfig).

(** The world: the node provider ([providers.Provider]), the kubeconfig files, the
    global [Capx_opts], and the execution of an action. *)
Class Env (W : Type) := {
  Info : st W ProviderInfo;
  ListNodes : string → st W (list string);
  Provision : Cluster → string → bool → bool → st W unit;
  DeleteNodes : list string → st W unit;
  kubeconfig_Export : string → string → bool → st W unit;
  kubeconfig_Remove : string → string → st W unit;
  set_Capx_opts : CAPX_Options → st W unit;
  Execute : action → Cluster → st W unit
}.

Section create.
Context {W : Type} `{!Env W} (b : build).

(** ** Deletion *)

(** A failure to update the kubeconfig is only logged.  (Neither the logger nor the
    provider is nil for the callers.) *)
Definition delete_Cluster (name explicitKubeconfigPath : string) : st W unit :=
  pure (fail_when (name =s "") "name is empty") ;;
  n ← st_wrap "error listing nodes" (ListNodes name);
  ignore_err (kubeconfig_Remove name explicitKubeconfigPath) ;;
  DeleteNodes n.

(** ** Creation *)

Definition validateProvider : st W unit :=
  info ← Info;
  pure (when (Rootless info)
    (fail_when (negb (Cgroup2 info))
       "running kind with rootless provider requires cgroup v2, see https://kind.sigs.k8s.io/docs/user/rootless/" ;;
     fail_when (negb (SupportsMemoryLimit info) || negb (SupportsPidsLimit info) || negb (SupportsCPUShares info))
       ("running kind with rootless provider requires setting systemd property " +:+ Q "Delegate=yes" +:+
        ", see https://kind.sigs.k8s.io/docs/user/rootless/"))).

Definition with_image (image : string) (n : Node) : Node :=
  mkNode (no_Role n) image (no_Labels n) (no_ExtraMounts n) (no_ExtraPortMappings n)
    (no_KubeadmConfigPatches n) (no_KubeadmConfigPatchesJSON6902 n).

(** The configuration that the options give. *)
Definition fixupOptions (opts : ClusterOptions) : Cluster :=
  let cfg := match opt_Config opts with Some c => c | None => SetDefaultsCluster b zero_Cluster end in
  let name := if opt_NameOverride opts <>s "" then opt_NameOverride opts else kc_Name cfg in
  let nodes := if opt_NodeImage opts <>s "" then map (with_image (opt_NodeImage opts)) (kc_Nodes cfg)
               else kc_Nodes cfg in
  SetDefaultsCluster b
    (mkCluster name nodes (kc_Networking cfg) (kc_FeatureGates cfg) (kc_RuntimeConfig cfg)
       (kc_KubeadmConfigPatches cfg) (kc_KubeadmConfigPatchesJSON6902 cfg)
       (kc_ContainerdConfigPatches cfg) (kc_ContainerdConfigPatchesJSON6902 cfg)).

Definition alreadyExists (name : string) : st W unit :=
  n ← ListNodes name;
  pure (fail_when (negb (Nat.eqb (length n) 0))
    ("node(s) already exist for a cluster with the name " +:+ Q name)).

(** Any error of the check is taken to say that the cluster is there. *)
Definition check_exists (opts : ClusterOptions) (cfg : Cluster) : st W unit := λ w,
  match alreadyExists (kc_Name cfg) w with
  | (Err _, w) =>
      if opt_ForceDelete opts then ignore_err (delete_Cluster (kc_Name cfg) (opt_KubeconfigPath opts)) w
      else (Err ("A cluster with the name " +:+ Q (kc_Name cfg) +:+ " already exists " +:+
                 String (Ascii.ascii_of_nat 10) "" +:+
                 "Please use a different cluster name or delete the current container with --delete-previous flag"), w)
  | o => o
  end.

Definition actionsToRun (opts : ClusterOptions) (cfg : Cluster) : list action :=
  [Loadbalancer; ConfigAction] ++
  (if opt_StopBeforeSettingUpKubernetes opts then [] else
     [KubeadmInit cfg] ++
     (if nt_DisableDefaultCNI (kc_Networking cfg) then [] else [InstallCNI]) ++
     [InstallStorage; KubeadmJoin; WaitForReady (opt_WaitForReady opts);
      CreateWorker (opt_VaultPassword opts) (opt_DescriptorPath opts) (opt_MoveManagement opts)
        (opt_AvoidCreation opts) (opt_KeosCluster opts) (opt_ClusterCredentials opts) (opt_ClusterConfig opts)]).

(** [if !opts.Retain { _ = delete.Cluster(...) }] *)
Definition cleanup (opts : ClusterOptions) (cfg : Cluster) : st W unit :=
  if opt_Retain opts then mret tt
  else ignore_err (delete_Cluster (kc_Name cfg) (opt_KubeconfigPath opts)).

Fixpoint run_actions (opts : ClusterOptions) (cfg : Cluster) (l : list action) : st W unit :=
  match l with
  | [] => mret tt
  | a :: l => on_error (Execute a cfg) (cleanup opts cfg) ;; run_actions opts cfg l
  end.

(** The first attempt and up to three more, whatever the error. *)
Fixpoint export_attempts (name path : string) (more : nat) : st W unit := λ w,
  match kubeconfig_Export name path true w with
  | (Err e, w) => match more with O => (Err e, w) | S more => export_attempts name path more w end
  | o => o
  end.

(** [create.Cluster]. *)
Definition create_Cluster (opts : ClusterOptions) : st W unit :=
  validateProvider ;;
  let cfg := fixupOptions opts in
  check_exists opts cfg ;;
  pure (match Validate cfg with Some e => Err (Error e) | None => Ok tt end) ;;
  cc ← pure (deref (opt_ClusterConfig opts));
  set_Capx_opts (getCAPXVersion (ccs_Capx (cc_Spec cc))) ;;
  on_error (Provision cfg (opt_DockerRegUrl opts) (opt_UseLocalStratioImage opts) (opt_BuildStratioImage opts))
    (cleanup opts cfg) ;;
  run_actions opts cfg (actionsToRun opts cfg) ;;
  if opt_StopBeforeSettingUpKubernetes opts then mret tt else
  export_attempts (kc_Name cfg) (opt_KubeconfigPath opts) 3 ;;
  cleanup opts cfg.
End create.

(** ** What is left when the creation ends *)

(** What can be seen of a world: the nodes of each cluster; the names of the nodes that
    functions which still run may make, whenever it suits them; and whether these do no
    more than that. *)
Class EnvView (W : Type) := {
  nodes_of : string → W → list string;
  stray : W → list string;
  sane : W → Prop
}.
(** Nothing happened but what such functions did. *)
Definition calm {W} `{!EnvView W} : relation W := λ w w', sane w → sane w' ∧ stray w' ⊆ stray w.
Definition later {W} `{!EnvView W} : relation W := λ w w',
  calm w w' ∧ (sane w → ∀ c, ∃ new, nodes_of c w' = new ++ nodes_of c w ∧ new ⊆ stray w).

(** What the creation relies on: the runtime lists the nodes of a cluster and deletes the
    nodes it is given, if they are there; the other operations that are not part of the
    creation leave the nodes as they are; and only provisioning leaves functions running,
    when it fails. *)
Class EnvLaws (W : Type) `{!Env W} := {
  env_view :: EnvView W;
  nodes_of_NoDup name w : NoDup (nodes_of name w);
  ListNodes_spec name w : ∃ w', ListNodes name w = (Ok (nodes_of name w'), w') ∧ later w w';
  DeleteNodes_spec name l w : sane w → NoDup l → l ⊆ nodes_of name w → ∃ w', DeleteNodes l w = (Ok tt, w') ∧ calm w w' ∧
    ∀ c, ∃ new, nodes_of c w' = List.filter (λ n, negb (str_in n l)) (new ++ nodes_of c w) ∧ new ⊆ stray w;
  Remove_spec name path w r w' : kubeconfig_Remove name path w = (r, w') → is_Panic r = false ∧ later w w';
  Info_spec w r w' : Info w = (r, w') → later w w';
  set_Capx_spec v w : ∃ w', set_Capx_opts v w = (Ok tt, w') ∧ later w w';
  Provision_spec cfg url l b w r w' : Provision cfg url l b w = (r, w') → sane w →
    sane w' ∧ (r = Ok tt → stray w' ⊆ stray w);
  Export_spec name path internal w r w' : kubeconfig_Export name path internal w = (r, w') → calm w w';
  Execute_spec a cfg w r w' : Execute a cfg w = (r, w') → calm w w'
}.

Lemma st_bind_inv {W A B} (m : st W A) (f : A → st W B) w r w' :
  (m ≫= f) w = (r, w') →
  (∃ a w1, m w = (Ok a, w1) ∧ f a w1 = (r, w')) ∨
  (∃ r0, m w = (r0, w') ∧ is_Ok r0 = false ∧ ((∃ e, r0 = Err e ∧ r = Err e) ∨ (∃ x, r0 = Panic x ∧ r = Panic x))).
Proof.
  unfold mbind, st_bind. destruct (m w) as [[a|e|x] w1]; [eauto|intros [= <- <-]..]; right; eauto 10.
Qed.

Lemma filter_all_gone (l : list string) : List.filter (λ n, negb (str_in n l)) l = [].
Proof.
  assert (∀ l', l' ⊆ l → List.filter (λ n, negb (str_in n l)) l' = []) as H; [|by apply H].
  intros l'. induction l' as [|x l' IH]; intros Hsub; simpl; [done|].
  rewrite (proj2 (str_in_true x l)) by set_solver. apply IH. set_solver.
Qed.

Section later.
Context {W : Type} `{!EnvView W}.
#[export] Instance calm_preorder : PreOrder (calm (W:=W)).
Proof.
  split; [by intros w|]. intros w1 w2 w3 H12 H23 Hs. destruct (H12 Hs) as [Hs2 S2], (H23 Hs2) as [Hs3 S3].
  split; [done|by etrans].
Qed.
#[export] Instance later_preorder : PreOrder (later (W:=W)).
Proof.
  split; [intros w; split; [reflexivity|]; intros _ c; exists []; split; [done|set_solver]|].
  intros w1 w2 w3 [S12 H12] [S23 H23]. split; [by etrans|]. intros Hs c. destruct (S12 Hs) as [Hs2 S2].
  destruct (H12 Hs c) as (n1 & E1 & N1), (H23 Hs2 c) as (n2 & E2 & N2). exists (n2 ++ n1).
  rewrite E2, E1, app_assoc. split; [done|]. intros x [Hx|Hx]%elem_of_app; [by apply S2, N2|by apply N1].
Qed.

(** No function runs; nothing else goes wrong. *)
Definition still (w : W) : Prop := sane w ∧ stray w = [].
Lemma calm_still (w w' : W) : calm w w' → still w → still w'.
Proof. intros H [Hs E]. destruct (H Hs) as [Hs' Hr]. rewrite E in Hr. split; [done|by apply list_nil_subseteq]. Qed.
(** Where no function runs, nothing happens meanwhile. *)
Lemma later_still (w w' : W) : later w w' → still w → still w' ∧ ∀ c, nodes_of c w' = nodes_of c w.
Proof.
  intros [Hc Hn] Hw. split; [by eapply calm_still|]. intros c. destruct Hw as [Hs E].
  destruct (Hn Hs c) as (new & -> & Hnew). rewrite E in Hnew. by apply list_nil_subseteq in Hnew as ->.
Qed.
End later.

Section facts.
Context {W : Type} `{!Env W, !EnvLaws W} (b : build).

Lemma pure_world {A} (m r : res A) (w w' : W) : pure m w = (r, w') → w' = w ∧ r = m.
Proof. by intros [= -> ->]. Qed.

(** Deleting a cluster succeeds, and only what functions that still run make is left of it. *)
Lemma delete_removes name path (w : W) :
  name ≠ "" → sane w → ∃ w', delete_Cluster name path w = (Ok tt, w') ∧ nodes_of name w' ⊆ stray w ∧ calm w w'.
Proof.
  intros Hn Hs. unfold delete_Cluster, mbind, st_bind, pure.
  rewrite (proj2 (String.eqb_neq name "") Hn). simpl. unfold st_wrap.
  destruct (ListNodes_spec name w) as (w1 & -> & [C1 _]). simpl. unfold ignore_err. destruct (C1 Hs) as [Hs1 S1].
  destruct (kubeconfig_Remove name path w1) as [r w2] eqn:Hr. apply Remove_spec in Hr as [Hp [C2 H2]].
  destruct (H2 Hs1 name) as (new & E2 & N2). destruct (C2 Hs1) as [Hs2 S2].
  destruct (DeleteNodes_spec name (nodes_of name w1) w2) as (w3 & Hd & C3 & H3); [done|..].
  { apply nodes_of_NoDup. }
  { rewrite E2. intros x Hx. apply elem_of_app. by right. }
  destruct (H3 name) as (new3 & E3 & N3).
  assert (nodes_of name w3 ⊆ stray w) as Hleft.
  { rewrite E3, E2. intros x [Hx Hno]%list_elem_of_In%filter_In. apply list_elem_of_In in Hx.
    apply negb_true_iff, not_true_iff_false in Hno. rewrite str_in_true in Hno. rewrite !elem_of_app in Hx.
    destruct Hx as [Hx|[Hx|Hx]]; [by apply S1, S2, N3|by apply S1, N2|done]. }
  assert (calm w w3) as Hc by (do 2 (etrans; [done|]); done).
  exists w3. destruct r; [| |done]; by rewrite Hd.
Qed.

(** No node is left, and no function runs. *)
Definition clean (name : string) (w : W) : Prop := nodes_of name w = [] ∧ still w.

Lemma delete_removes_all name path (w : W) : name ≠ "" → still w →
  ∃ w', delete_Cluster name path w = (Ok tt, w') ∧ clean name w'.
Proof.
  intros Hn Hw. destruct (delete_removes name path w Hn (proj1 Hw)) as (w' & Hd & Hl & Hc). exists w'.
  split; [done|]. split; [|by eapply calm_still]. destruct Hw as [_ E]. rewrite E in Hl. by apply list_nil_subseteq.
Qed.

(** With an error and no [Retain], the cleanup has removed the nodes. *)
Lemma on_error_cleans opts cfg (m : st W unit) (w w' : W) e :
  opt_Retain opts = false → kc_Name cfg ≠ "" →
  on_error m (cleanup opts cfg) w = (Err e, w') →
  ∃ w1, m w = (Err e, w1) ∧ (sane w1 → nodes_of (kc_Name cfg) w' ⊆ stray w1 ∧ stray w' ⊆ stray w1) ∧ (still w1 → clean (kc_Name cfg) w').
Proof.
  intros Hret Hn. unfold on_error, cleanup. rewrite Hret.
  destruct (m w) as [[?|e'|?] w1]; [done| |done]. intros H. exists w1.
  assert (e' = e) as -> by (revert H; destruct (ignore_err _ w1) as [[]]; congruence). split; [done|]. split.
  - intros Hs. destruct (delete_removes (kc_Name cfg) (opt_KubeconfigPath opts) w1 Hn Hs) as (w2 & Ed & Hl & Hc).
    unfold ignore_err in H. rewrite Ed in H. injection H as <-. split; [done|]. by apply Hc.
  - intros Hs. destruct (delete_removes_all (kc_Name cfg) (opt_KubeconfigPath opts) w1 Hn Hs) as (w2 & Ed & Hl).
    unfold ignore_err in H. rewrite Ed in H. by injection H as <-.
Qed.
Lemma on_error_Ok opts cfg (m : st W unit) (w w' : W) : on_error m (cleanup opts cfg) w = (Ok tt, w') → m w = (Ok tt, w').
Proof.
  unfold on_error. destruct (m w) as [[[]|e|p] w1]; [done| |done]. by destruct (cleanup opts cfg w1) as [[]].
Qed.

Lemma run_actions_Ok opts cfg l (w w' : W) : run_actions opts cfg l w = (Ok tt, w') → calm w w'.
Proof.
  revert w. induction l as [|a l IH]; intros w; [by intros [= <-]|]. cbn [run_actions].
  intros ([] & w1 & Ha%on_error_Ok%Execute_spec & Hrun%IH)%st_bind_Ok. by etrans.
Qed.
Lemma run_actions_cleans opts cfg l (w w' : W) e :
  opt_Retain opts = false → kc_Name cfg ≠ "" → still w →
  run_actions opts cfg l w = (Err e, w') → clean (kc_Name cfg) w'.
Proof.
  intros Hret Hn. revert w. induction l as [|a l IH]; intros w Hs Hrun; [done|]. cbn [run_actions] in Hrun.
  apply st_bind_inv in Hrun as [([] & w1 & Ha%on_error_Ok%Execute_spec & Hrun)|(r0 & Hm & _ & [(e0 & -> & [= <-])|(x & _ & [=])])].
  - eapply IH; [|exact Hrun]. by eapply calm_still.
  - apply on_error_cleans in Hm as (w1 & He%Execute_spec & _ & Hc); [|done..]. apply Hc. by eapply calm_still.
Qed.

(** The check for the cluster leaves the nodes, or deletes all of them. *)
Lemma check_exists_nodes opts cfg (w w' : W) r :
  kc_Name cfg ≠ "" → still w → check_exists opts cfg w = (r, w') →
  still w' ∧ (nodes_of (kc_Name cfg) w' = nodes_of (kc_Name cfg) w ∨ nodes_of (kc_Name cfg) w' = []).
Proof.
  intros Hn Hs. unfold check_exists, alreadyExists, mbind, st_bind, pure.
  destruct (ListNodes_spec (kc_Name cfg) w) as (w1 & -> & Hl). destruct (later_still _ _ Hl Hs) as [Hs1 Hw1].
  destruct (fail_when _ _) as [u|e|x]; [intros [= _ <-]; auto| |intros [= _ <-]; auto].
  destruct (opt_ForceDelete opts); [|intros [= _ <-]; auto]. unfold ignore_err.
  destruct (delete_removes_all (kc_Name cfg) (opt_KubeconfigPath opts) w1 Hn Hs1) as (w2 & -> & Hw2 & Hs2).
  intros [= _ <-]. auto.
Qed.

Lemma fixupOptions_name opts : kc_Name (fixupOptions b opts) ≠ "".
Proof. unfold fixupOptions, SetDefaultsCluster. cbn [kc_Name]. by apply dflt_set. Qed.

Lemma export_attempts_spec name path n (w w' : W) r :
  export_attempts name path n w = (r, w') → calm w w' ∧
  ∀ e, r = Err e → ∃ w1, kubeconfig_Export name path true w1 = (Err e, w').
Proof.
  revert w. induction n as [|n IH]; intros w; cbn [export_attempts];
    destruct (kubeconfig_Export name path true w) as [[?|e'|?] w1] eqn:He; apply Export_spec in He as Hs.
  - by intros [= <- <-].
  - intros [= <- <-]. split; [done|]. intros e [= <-]. eauto.
  - by intros [= <- <-].
  - by intros [= <- <-].
  - intros [Hs1 Hr]%IH. split; [by etrans|done].
  - by intros [= <- <-].
Qed.

Lemma validateProvider_nodes (w w' : W) r : validateProvider w = (r, w') → later w w'.
Proof.
  unfold validateProvider, mbind, st_bind. destruct (Info w) as [i w1] eqn:Hi. apply Info_spec in Hi.
  destruct i; [intros [-> _]%pure_world|intros [= _ <-]..]; done.
Qed.

(** How a creation ends that has made nodes and is not to retain them: nothing is left and no
    function runs; or the kubeconfig could not be exported; or provisioning has failed, and
    all that is left or may still come are nodes of the functions that ran on then. *)
Definition ends_clean (opts : ClusterOptions) (cfg : Cluster) (r : res unit) (w' : W) : Prop :=
  clean (kc_Name cfg) w' ∨
  (still w' ∧ ∃ e w1, r = Err e ∧ kubeconfig_Export (kc_Name cfg) (opt_KubeconfigPath opts) true w1 = (Err e, w')) ∨
  ∃ e w1 w2, r = Err e ∧ still w1 ∧
    Provision cfg (opt_DockerRegUrl opts) (opt_UseLocalStratioImage opts) (opt_BuildStratioImage opts) w1 = (Err e, w2) ∧
    nodes_of (kc_Name cfg) w' ⊆ stray w2 ∧ stray w' ⊆ stray w2.

Lemma provisioned_nodes opts cfg (w w' : W) r :
  opt_Retain opts = false → opt_StopBeforeSettingUpKubernetes opts = false → kc_Name cfg ≠ "" → still w →
  (on_error (Provision cfg (opt_DockerRegUrl opts) (opt_UseLocalStratioImage opts) (opt_BuildStratioImage opts))
      (cleanup opts cfg) ;;
   run_actions opts cfg (actionsToRun opts cfg) ;;
   export_attempts (kc_Name cfg) (opt_KubeconfigPath opts) 3 ;;
   cleanup opts cfg) w = (r, w') →
  is_Panic r = false → ends_clean opts cfg r w'.
Proof.
  intros Hret _ Hn Hs H Hp.
  apply st_bind_inv in H as [([] & w1 & Hm%on_error_Ok & H)|(r0 & Hm & _ & [(e & -> & ->)|(x & _ & ->)])]; [| |done].
  2: { right; right. apply on_error_cleans in Hm as (w1 & Hm & Hl & _); [|done..].
       exists e, w, w1. do 3 (split; [done|]). by apply Hl, (Provision_spec _ _ _ _ _ _ _ Hm), Hs. }
  assert (still w1) as Hs1.
  { destruct Hs as [Hs E]. destruct (Provision_spec _ _ _ _ _ _ _ Hm Hs) as [Hs1 Hr]. split; [done|].
    specialize (Hr eq_refl). rewrite E in Hr. by apply list_nil_subseteq. }
  apply st_bind_inv in H as [([] & w2 & Ha & H)|(r0 & Hm2 & _ & [(e & -> & ->)|(x & _ & ->)])]; [| |done].
  2: { left. by eapply run_actions_cleans. }
  assert (still w2) as Hs2 by (eapply calm_still; [by eapply run_actions_Ok|done]).
  apply st_bind_inv in H as [([] & w3 & He & H)|(r0 & Hm3 & _ & [(e & -> & ->)|(x & _ & ->)])]; [| |done].
  2: { right; left. apply export_attempts_spec in Hm3 as [Hc3 Hm3]. split; [by eapply calm_still|].
       destruct (Hm3 e eq_refl) as [w3 ?]. eauto. }
  left. apply export_attempts_spec in He as [Hc3 _].
  unfold cleanup in H. rewrite Hret in H. unfold ignore_err in H.
  destruct (delete_removes_all (kc_Name cfg) (opt_KubeconfigPath opts) w3 Hn) as (w4 & Hd & Hnil); [by eapply calm_still|].
  rewrite Hd in H. by injection H as <- <-.
Qed.

(** What is left of the nodes. *)
Lemma create_nodes_left opts (w w' : W) r :
  opt_Retain opts = false → opt_StopBeforeSettingUpKubernetes opts = false → still w →
  create_Cluster b opts w = (r, w') → is_Panic r = false →
  let cfg := fixupOptions b opts in
  still w' ∧ nodes_of (kc_Name cfg) w' = nodes_of (kc_Name cfg) w ∨ ends_clean opts cfg r w'.
Proof.
  intros Hret Hstop Hs H Hp cfg. pose proof (fixupOptions_name opts) as Hn. unfold create_Cluster in H.
  rewrite Hstop in H. fold cfg in Hn, H.
  apply st_bind_inv in H as [([] & w1 & Hm & H)|(r0 & Hm & _)];
    apply validateProvider_nodes in Hm as Hw1; destruct (later_still _ _ Hw1 Hs) as [Hs1 Hn1]; [|auto].
  assert (∀ v, still v ∧ (nodes_of (kc_Name cfg) v = nodes_of (kc_Name cfg) w1 ∨ nodes_of (kc_Name cfg) v = []) →
    still v ∧ nodes_of (kc_Name cfg) v = nodes_of (kc_Name cfg) w ∨ ends_clean opts cfg r v) as Hstill.
  { intros v [Hv [Ev|Ev]]; [left; by rewrite Ev, Hn1|right; left; by split]. }
  apply st_bind_inv in H as [([] & w2 & Hm2 & H)|(r0 & Hm2 & _)];
    apply check_exists_nodes in Hm2 as Hw2; [|done|done|by apply Hstill|done|done].
  apply st_bind_inv in H as [([] & w3 & [-> _]%pure_world & H)|(r0 & [-> _]%pure_world & _)]; [|by apply Hstill].
  apply st_bind_inv in H as [(cc & w4 & [-> _]%pure_world & H)|(r0 & [-> _]%pure_world & _)]; [|by apply Hstill].
  destruct (set_Capx_spec (getCAPXVersion (ccs_Capx (cc_Spec cc))) w2) as (w6 & Heq & Hl).
  destruct (later_still _ _ Hl (proj1 Hw2)) as [Hs6 _].
  apply st_bind_inv in H as [([] & w5 & Hm5 & H)|(r0 & Hm5 & Hno & _)]; rewrite Heq in Hm5; [|by injection Hm5 as <- _].
  injection Hm5 as <-. right. by apply provisioned_nodes in H.
Qed.
End facts.

(** ** A small world: the nodes of one cluster

    [fails] says which actions fail, [exports] whether the kubeconfig can be written. *)
Module DemoEnv.
Section demo.
Context (fails : action → bool) (exports : bool).
Definition env : Env (list string) := {|
  Info := λ w, (Ok (mkProviderInfo false true true true true), w);
  ListNodes := λ _ w, (Ok w, w);
  Provision := λ cfg _ _ _ w, (Ok tt, (kc_Name cfg +:+ "-control-plane") :: w);
  DeleteNodes := λ l w, (Ok tt, List.filter (λ n, negb (str_in n l)) w);
  kubeconfig_Export := λ _ _ _ w, (if exports then Ok tt else Err "failed to lock config file", w);
  kubeconfig_Remove := λ _ _ w, (Ok tt, w);
  set_Capx_opts := λ _ w, (Ok tt, w);
  Execute := λ a _ w, (if fails a then Err "failed" else Ok tt, w)
|}.
End demo.

Definition fails_init (a : action) : bool := match a with KubeadmInit _ => true | _ => false end.

Definition opts : ClusterOptions :=
  mkClusterOptions None "demo" "" "" false false false false zero_KeosCluster (Some zero_ClusterConfig)
    (mkClusterCredentials ∅ ∅ [] ∅ "") "" false "" false 0 "" false false false.

(** The creation fails in [kubeadm init], and nothing is left. *)
Lemma init_fails :
  @create_Cluster _ (env fails_init true) demo_build opts [] = (Err "failed", []).
Proof. vm_compute. reflexivity. Qed.

(** Everything succeeds but the export: the nodes are still there. *)
Example export_failure_keeps_nodes :
  @create_Cluster _ (env (λ _, false) false) demo_build opts [] =
    (Err "failed to lock config file", ["demo-control-plane"]).
Proof. vm_compute. reflexivity. Qed.

(** A cluster that is there is refused, unless its deletion is asked for. *)
Example existing_refused :
  @create_Cluster _ (env (λ _, false) true) demo_build opts ["demo-worker"] =
    (Err ("A cluster with the name " +:+ Q "demo" +:+ " already exists " +:+
       String (Ascii.ascii_of_nat 10) "" +:+
       "Please use a different cluster name or delete the current container with --delete-previous flag"),
     ["demo-worker"]).
Proof. vm_compute. reflexivity. Qed.
End DemoEnv.
