(* ===== verification/Base64.v ===== *)
(** * The standard base64 encoding

    [base64.StdEncoding] of the Go library, with which the credentials of the
    providers reach the commands: encoding, decoding with its error cases, and that
    decoding undoes encoding. *)

From S2P Require Import Prelude GoStr.
Local Open Scope Z_scope.
Local Open Scope go_scope.
Local Open Scope stdpp_scope.

(** ** The alphabet *)

Definition char_of (z : Z) : Ascii.ascii := Ascii.ascii_of_N (Z.to_N z).

(** The character of a 6-bit digit. *)
Definition digit_char (d : Z) : Ascii.ascii :=
  char_of (if d <? 26 then 65 + d else if d <? 52 then 71 + d else if d <? 62 then d - 4
           else if d =? 62 then 43 else 47).

Definition char_digit (c : Ascii.ascii) : option Z :=
  let z := byte_code c in
  if in_rng 65 90 z then Some (z - 65) else if in_rng 97 122 z then Some (z - 71)
  else if in_rng 48 57 z then Some (z + 4) else if z =? 43 then Some 62
  else if z =? 47 then Some 63 else None.

Definition pad : Ascii.ascii := "="%char.

(** ** Encoding *)

(** Digit [k] of a 24-bit value. *)
Definition digit (v k : Z) : Z := Z.land (Z.shiftr v (6 * (3 - k))) 63.
Definition triple (a b c : Z) : Z := Z.lor (Z.lor (Z.shiftl a 16) (Z.shiftl b 8)) c.

Fixpoint encode (l : list Z) : list Ascii.ascii :=
  match l with
  | a :: b :: c :: l =>
      let v := triple a b c in
      digit_char (digit v 0) :: digit_char (digit v 1) :: digit_char (digit v 2) :: digit_char (digit v 3) :: encode l
  | [a; b] => let v := triple a b 0 in
      [digit_char (digit v 0); digit_char (digit v 1); digit_char (digit v 2); pad]
  | [a] => let v := triple a 0 0 in [digit_char (digit v 0); digit_char (digit v 1); pad; pad]
  | [] => []
  end.

Definition EncodeToString (s : string) : string := String.string_of_list_ascii (encode (bytes s)).

(** ** Decoding *)

(** The bytes that are decoded, and whether there was no error: four characters give
    three bytes; padding is allowed at the end only. *)
Fixpoint decode (l : list Ascii.ascii) : list Z * bool :=
  match l with
  | [] => ([], true)
  | a :: b :: c :: d :: l =>
      match char_digit a, char_digit b, char_digit c, char_digit d with
      | Some a, Some b, Some c, Some d =>
          let v := Z.lor (Z.lor (Z.shiftl a 18) (Z.shiftl b 12)) (Z.lor (Z.shiftl c 6) d) in
          let '(r, ok) := decode l in
          (Z.land (Z.shiftr v 16) 255 :: Z.land (Z.shiftr v 8) 255 :: Z.land v 255 :: r, ok)
      | Some a, Some b, Some c, None =>
          let v := Z.lor (Z.lor (Z.shiftl a 18) (Z.shiftl b 12)) (Z.shiftl c 6) in
          if Ascii.eqb d pad
          then ([Z.land (Z.shiftr v 16) 255; Z.land (Z.shiftr v 8) 255], match l with [] => true | _ => false end)
          else ([], false)
      | Some a, Some b, None, None =>
          let v := Z.lor (Z.shiftl a 18) (Z.shiftl b 12) in
          if Ascii.eqb c pad && Ascii.eqb d pad
          then ([Z.land (Z.shiftr v 16) 255], match l with [] => true | _ => false end)
          else ([], false)
      | _, _, _, _ => ([], false)
      end
  | _ => ([], false)
  end.

Definition is_newline (c : Ascii.ascii) : bool := (byte_code c =? 10) || (byte_code c =? 13).

Definition string_of_bytes (l : list Z) : string := String.string_of_list_ascii (map char_of l).

(** Line breaks are skipped; what was decoded before an error is returned with it. *)
Definition DecodeString (s : string) : string * bool :=
  let '(l, ok) := decode (List.filter (λ c, negb (is_newline c)) (String.list_ascii_of_string s)) in
  (string_of_bytes l, ok).

(** ** Bits *)

Lemma lor_add a b n : 0 <= n → 0 <= b < 2 ^ n → Z.lor (Z.shiftl a n) b = a * 2 ^ n + b.
Proof.
  intros Hn Hb. rewrite <- Z.shiftl_mul_pow2 by done.
  rewrite Z.add_nocarry_lxor; [|].
  - apply Z.bits_inj'. intros k Hk. rewrite Z.lxor_spec, Z.lor_spec.
    destruct (decide (k < n)); [by rewrite Z.shiftl_spec_low by lia|].
    replace (Z.testbit b k) with false; [by destruct (Z.testbit _ k)|].
    symmetry. rewrite <- (Z.mod_small b (2 ^ n)) by done. apply Z.mod_pow2_bits_high. lia.
  - apply Z.bits_inj'. intros k Hk. rewrite Z.land_spec, Z.bits_0.
    destruct (decide (k < n)); [by rewrite Z.shiftl_spec_low by lia|].
    replace (Z.testbit b k) with false; [by destruct (Z.testbit _ k)|].
    symmetry. rewrite <- (Z.mod_small b (2 ^ n)) by done. apply Z.mod_pow2_bits_high. lia.
Qed.

Definition is_byte (b : Z) : Prop := 0 <= b < 256.
Definition is_digit6 (d : Z) : Prop := 0 <= d < 64.

Lemma triple_add a b c : is_byte b → is_byte c → triple a b c = a * 65536 + b * 256 + c.
Proof.
  unfold is_byte, triple. intros Hb Hc.
  rewrite <- Z.lor_assoc, (lor_add b c 8) by lia. rewrite lor_add by lia. lia.
Qed.

Lemma digit_div v k : 0 <= k <= 3 → digit v k = v / 2 ^ (6 * (3 - k)) mod 64.
Proof. intros. unfold digit. rewrite Z.shiftr_div_pow2 by lia. by rewrite (Z.land_ones _ 6). Qed.

Lemma digit_range v k : is_digit6 (digit v k).
Proof. unfold is_digit6, digit. rewrite (Z.land_ones _ 6) by lia. by apply Z.mod_pos_bound. Qed.

Lemma land255 v : Z.land v 255 = v mod 256.
Proof. by rewrite (Z.land_ones _ 8). Qed.

(** The three bytes of four digits. *)
Lemma undigits a b c : is_byte a → is_byte b → is_byte c →
  let v := triple a b c in
  let w := Z.lor (Z.lor (Z.shiftl (digit v 0) 18) (Z.shiftl (digit v 1) 12))
             (Z.lor (Z.shiftl (digit v 2) 6) (digit v 3)) in
  Z.land (Z.shiftr w 16) 255 = a ∧ Z.land (Z.shiftr w 8) 255 = b ∧ Z.land w 255 = c.
Proof.
  intros Ha Hb Hc v w.
  assert (w = v) as ->.
  { unfold w. pose proof (digit_range v 1) as H1. pose proof (digit_range v 2) as H2. pose proof (digit_range v 3) as H3.
    unfold is_digit6 in *. rewrite (lor_add _ _ 6) by lia. rewrite <- Z.lor_assoc.
    rewrite (lor_add (digit v 1) _ 12) by lia. rewrite lor_add by lia.
    rewrite !digit_div by lia. simpl (6 * _). assert (0 <= v < 16777216) by (unfold v, is_byte in *; rewrite triple_add by done; lia).
    change (2 ^ 18) with 262144. change (2 ^ 12) with 4096. change (2 ^ 6) with 64. change (2 ^ 0) with 1.
    Z.to_euclidean_division_equations. lia. }
  rewrite !land255, !Z.shiftr_div_pow2 by lia. unfold v. rewrite triple_add by done.
  change (2 ^ 16) with 65536. change (2 ^ 8) with 256. unfold is_byte in *.
  Z.to_euclidean_division_equations. lia.
Qed.

(** ** Decoding undoes encoding *)

Lemma seq_forall (P : Z → bool) n : forallb (λ k, P (Z.of_nat k)) (seq 0 n) = true →
  ∀ d, 0 <= d < Z.of_nat n → P d = true.
Proof.
  intros H d Hd. rewrite forallb_forall in H. rewrite <- (Z2Nat.id d) by lia.
  apply (H (Z.to_nat d)). apply in_seq. lia.
Qed.

Lemma char_digit_char d : is_digit6 d → char_digit (digit_char d) = Some d.
Proof.
  intros Hd. pose proof (seq_forall (λ d, bool_decide (char_digit (digit_char d) = Some d)) 64 eq_refl d Hd) as H.
  by apply bool_decide_eq_true in H.
Qed.

Lemma decode_encode l : Forall is_byte l → decode (encode l) = (l, true).
Proof.
  induction l as [l IH] using (induction_ltof1 _ length). intros Hl.
  destruct l as [|a [|b [|c l]]]; [done| | |]; simpl encode; cbn [decode];
    rewrite ?char_digit_char by apply digit_range.
  - apply Forall_cons in Hl as [Ha _].
    pose proof (undigits a 0 0 Ha ltac:(by split) ltac:(by split)) as (E & _ & _). cbv zeta in E.
    assert (digit (triple a 0 0) 2 = 0 ∧ digit (triple a 0 0) 3 = 0) as [E2 E3].
    { rewrite !digit_div, triple_add by (done || lia). simpl (6 * _). split.
      - change (2 ^ 6) with 64. Z.to_euclidean_division_equations. lia.
      - change (2 ^ 0) with 1. Z.to_euclidean_division_equations. lia. }
    rewrite E2, E3, Z.shiftl_0_l, Z.lor_0_l, Z.lor_0_r in E. simpl. by rewrite E.
  - apply Forall_cons in Hl as [Ha [Hb _]%Forall_cons].
    pose proof (undigits a b 0 Ha Hb ltac:(by split)) as (E & E' & _). cbv zeta in E, E'.
    assert (digit (triple a b 0) 3 = 0) as E3.
    { rewrite digit_div, triple_add by (done || lia). simpl (6 * _). change (2 ^ 0) with 1.
      Z.to_euclidean_division_equations. lia. }
    rewrite E3, Z.lor_0_r in E, E'. simpl. by rewrite E, E'.
  - apply Forall_cons in Hl as [Ha [Hb [Hc Hl]%Forall_cons]%Forall_cons].
    rewrite IH; [|unfold ltof; simpl; lia|done]. pose proof (undigits a b c Ha Hb Hc) as (E & E' & E''). cbv zeta in *.
    by rewrite E, E', E''.
Qed.

Lemma bytes_are_bytes s : Forall is_byte (bytes s).
Proof. induction s; constructor; [apply byte_code_range|done]. Qed.

Lemma string_of_bytes_bytes s : string_of_bytes (bytes s) = s.
Proof.
  unfold string_of_bytes. induction s as [|c s IH]; [done|]. simpl. rewrite IH. unfold char_of, byte_code.
  by rewrite N2Z.id, Ascii.ascii_N_embedding.
Qed.

(** Every character of an encoding is one of the alphabet, or padding. *)
Definition b64_char (c : Ascii.ascii) : bool := opt_is_Some (char_digit c) || Ascii.eqb c pad.

Lemma encode_chars l : Forall (λ c, b64_char c = true) (encode l).
Proof.
  induction l as [l IH] using (induction_ltof1 _ length).
  destruct l as [|a [|b [|c l]]]; simpl; repeat constructor;
    try (unfold b64_char; rewrite char_digit_char by apply digit_range; done).
  apply IH. unfold ltof. simpl. lia.
Qed.

Lemma all_chars_list f s : all_chars f s = forallb f (String.list_ascii_of_string s).
Proof. induction s; simpl; congruence. Qed.

Lemma EncodeToString_chars s : all_chars b64_char (EncodeToString s) = true.
Proof.
  rewrite all_chars_list. unfold EncodeToString. rewrite String.list_ascii_of_string_of_list_ascii.
  apply forallb_forall. intros c Hc. pose proof (encode_chars (bytes s)) as H. rewrite Forall_forall in H.
  apply H. by apply list_elem_of_In.
Qed.

Lemma filter_no_newline l : Forall (λ c, b64_char c = true) l → List.filter (λ c, negb (is_newline c)) l = l.
Proof.
  induction 1 as [|c l Hc _ IH]; [done|]. simpl. rewrite IH.
  replace (is_newline c) with false; [done|]. symmetry. unfold is_newline. apply orb_false_iff.
  rewrite !Z.eqb_neq. split; intros E; unfold b64_char, char_digit in Hc; rewrite E in Hc; simpl in Hc;
    apply Ascii.eqb_eq in Hc as ->; discriminate E.
Qed.

(** Decoding the encoding of any text gives the text, without an error. *)
Theorem base64_roundtrip s : DecodeString (EncodeToString s) = (s, true).
Proof.
  unfold DecodeString, EncodeToString. rewrite String.list_ascii_of_string_of_list_ascii.
  rewrite filter_no_newline by apply encode_chars. rewrite decode_encode by apply bytes_are_bytes.
  by rewrite string_of_bytes_bytes.
Qed.

Example encode_demo : EncodeToString "[default]" = "W2RlZmF1bHRd" ∧ EncodeToString "ab" = "YWI=" ∧ EncodeToString "a" = "YQ==".
Proof. by vm_compute. Qed.

(** ** An encoding after a name *)

Lemma Split_app_sep p t : p ≠ "" → Contains t p = false → Split (p +:+ t) p = [""; t].
Proof.
  intros Hp Ht. unfold Split. destruct p as [|c p]; [done|].
  change (String c p +:+ t) with (String c (p +:+ t)). cbn [split_from].
  replace (String.prefix (String c p) (String c (p +:+ t))) with true
    by (symmetry; apply prefix_spec; by exists t).
  change (pred (String.length (String c p))) with (String.length p).
  by rewrite split_from_skip, Split_no_sep.
Qed.

(** [strings.Split(env, name)[1]] of a variable that holds an encoding, where the
    name has an underscore: what follows the name. *)
Lemma Split_encoding name s : char_in "_" name →
  Split (name +:+ EncodeToString s) name = [""; EncodeToString s].
Proof.
  intros Hn. apply Split_app_sep.
  - intros ->. by destruct Hn as ([|] & ? & ?).
  - eapply not_contains_split; [done|]. eapply all_chars_not_in; [apply EncodeToString_chars|done].
Qed.
