(* ===== verification/Oci.v ===== *)
(** * The version of the cluster operator chart (createworker/oci.go)

    The tags of the chart are sorted into the kinds of version that the five patterns
    name, and the latest of the best kind is taken.  [versions] is a global map: the
    tags of an earlier call stay in it.  The order in which Go ranges over that map is
    an argument, an arbitrary permutation for each tag. *)

From Stdlib Require Import Sorting.Sorted.
From S2P Require Import Prelude State GoStr Regexp Base64.
Local Open Scope Z_scope.
Local Open Scope go_scope.
Local Open Scope stdpp_scope.

(** ** Numbers and sorting of the Go library *)

(** The value that [strconv.Atoi] returns with an error, too: 0 for a text that is no
    number, the nearest integer for one out of range. *)
Fixpoint scan_uint (n : Z) (s : string) : option Z :=
  match s with
  | "" => Some n
  | String c s =>
      if is_digit c then
        let n' := n * 10 + (byte_code c - 48) in
        if max_uint64 <? n' then Some max_uint64 else scan_uint n' s
      else None
  end.
Definition Atoi_value (s : string) : Z :=
  let value sgn t := match t with "" => 0 | _ =>
      match scan_uint 0 t with Some n => Z.max min_int64 (Z.min max_int64 (sgn * n)) | None => 0 end end in
  match s with
  | String c t => if Ascii.eqb c "-" then value (-1) t else if Ascii.eqb c "+" then value 1 t else value 1 s
  | "" => 0
  end.

(** A comparison that [sort.Slice] can sort the elements of [l] with. *)
Record strict_weak {A} (less : A → A → bool) (l : list A) : Prop := {
  sw_asym x y : x ∈ l → y ∈ l → less x y = true → less y x = false;
  sw_trans x y z : x ∈ l → y ∈ l → z ∈ l → less x y = false → less y z = false → less x z = false
}.

(** [sort.Slice]: its algorithm is not fixed. *)
Class SortSlice := {
  sort_slice {A} : (A → A → bool) → list A → list A;
  sort_slice_perm {A} (less : A → A → bool) l : sort_slice less l ≡ₚ l;
  sort_slice_sorted {A} (less : A → A → bool) l : strict_weak less l →
    StronglySorted (λ x y, less y x = false) (sort_slice less l)
}.

(** ** Kinds of version *)

Inductive kind := release_pattern | prerelease_pattern | milestone_pattern | snapshot_pattern | pr_pattern.
#[export] Instance kind_eq_dec : EqDecision kind.
Proof. solve_decision. Defined.

Definition number : regex := RPlus (RSet cs_digit).
Definition three_numbers : regex := RSeq [number; RChar "."; number; RChar "."; number].
Definition suffix_re (k : kind) : regex :=
  match k with
  | release_pattern => REps
  | prerelease_pattern => RSeq [RLit "-"; RAny [RLit "alpha"; RLit "beta"; RLit "rc"]; RLit "."; number]
  | milestone_pattern => RSeq [RLit "-m."; number]
  | snapshot_pattern => RLit "-SNAPSHOT"
  | pr_pattern => RSeq [RLit "-PR"; number; RLit "-SNAPSHOT"]
  end.
Definition pattern (k : kind) : regex := RCat three_numbers (suffix_re k).
Definition all_kinds : list kind :=
  [release_pattern; prerelease_pattern; milestone_pattern; pr_pattern; snapshot_pattern].

(** The global map [versions]. *)
Definition versions : Type := kind → list string.
Definition no_versions : versions := λ _, [].
Definition append_version (k : kind) (tag : string) (vs : versions) : versions :=
  λ k', if decide (k' = k) then vs k ++ [tag] else vs k'.

(** [order i] is the order in which the map is ranged over for tag [i]. *)
Fixpoint filterTags (order : nat → list kind) (tags : list string) (vs : versions) : versions :=
  match tags with
  | [] => vs
  | tag :: tags =>
      filterTags (λ i, order (S i)) tags
        match List.find (λ k, MatchString (pattern k) tag) (order O) with
        | Some k => append_version k tag vs
        | None => vs
        end
  end.

(** ** Comparison *)

Fixpoint compare_main (main1 main2 : list string) : option bool :=
  match main1, main2 with
  | n1 :: main1, n2 :: main2 =>
      if Z.eqb (Atoi_value n1) (Atoi_value n2) then compare_main main1 main2
      else Some (Z.ltb (Atoi_value n2) (Atoi_value n1))
  | _, _ => None
  end.

Definition version_parts (v : string) : list string := Split (TrimSuffix v "-SNAPSHOT") "-".
Definition main_part (v : string) : list string := Split (nth 0 (version_parts v) "") ".".

Definition compareVersions (v1 v2 : string) : bool :=
  let parts1 := version_parts v1 in
  let parts2 := version_parts v2 in
  let main1 := main_part v1 in
  let main2 := main_part v2 in
  match compare_main main1 main2 with
  | Some b => b
  | None => if Nat.ltb 1 (length parts1) && Nat.ltb 1 (length parts2)
            then String.ltb (nth 1 parts2 "") (nth 1 parts1 "")
            else Nat.ltb (length main2) (length main1)
  end.

Section last_version.
Context `{SortSlice}.

Definition getVersion (tags : list string) (k : kind) : res string :=
  let tags := match k with prerelease_pattern => tags | _ => sort_slice compareVersions tags end in
  index tags 0.

Definition getLastVersion (order : nat → list kind) (tags : list string) : st versions string := λ vs,
  let vs := filterTags order tags vs in
  (match List.find (λ k, negb (Nat.eqb (length (vs k)) 0))
           [release_pattern; prerelease_pattern; milestone_pattern; snapshot_pattern; pr_pattern] with
   | Some k => getVersion (vs k) k
   | None => Err "No chart version matching the patterns defined by Stratio has been found."
   end, vs).
End last_version.

(** ** Where the tags come from *)

Record HelmRegistry := mkHelmRegistry { hreg_URL : string; hreg_User : string; hreg_Pass : string; hreg_Type : string }.
Definition zero_HelmRegistry : HelmRegistry := mkHelmRegistry "" "" "" "".

(** [ChartEntry] of oci.go. *)
Record IndexEntry := mkIndexEntry { ie_Version : string; ie_Created : string }.

(** The registry libraries, the HTTP client and the YAML decoder. *)
Class ChartRepositories := {
  DockerReference : Type;
  docker_Transport_Name : string;
  reference_ParseNormalizedNamed : string → res DockerReference;
  reference_IsNameOnly : DockerReference → bool;
  docker_NewReference : DockerReference → res DockerReference;
  DockerReference_Name : DockerReference → string;
  docker_GetRepositoryTags : string → string → DockerReference → res (list string); (* user, password *)
  retry_IfNecessary {A} : nat → res A → res A;
  http_NewRequest : string → res unit;
  http_Do : string → option string → res (res string);      (* URL, Authorization: the body *)
  unmarshal_Index : string → res (string → list IndexEntry);
  time_Parse : string → option Z                             (* RFC3339Nano *)
}.

Section repositories.
Context `{SortSlice} `{ChartRepositories}.

Definition Less (x y : IndexEntry) : bool :=
  match time_Parse (ie_Created x), time_Parse (ie_Created y) with
  | Some timeI, Some timeJ => Z.ltb timeJ timeI
  | _, _ => false
  end.

Definition parseDockerRepositoryReference (refString : string) : res DockerReference :=
  fail_when (negb (HasPrefix refString (docker_Transport_Name +:+ "://")))
    ("docker: image reference " +:+ refString +:+ " does not start with " +:+ docker_Transport_Name +:+ "://") ;;
  let '(_, rest) := split_from ":" 0 refString in
  match rest with
  | [] => Err ("Invalid image name " +:+ Q refString +:+ ", expected colon-separated transport:reference")
  | _ =>
      let dockerImageName := Join rest ":" in
      let name := if HasPrefix dockerImageName "//" then String.substring 2 (String.length dockerImageName - 2) dockerImageName
                  else dockerImageName in
      ref ← reference_ParseNormalizedNamed name;
      fail_when (negb (reference_IsNameOnly ref)) "No tag or digest allowed in reference" ;;
      docker_NewReference ref
  end.

Definition listDockerTags (user pass : string) (imgRef : DockerReference) : res (string * list string) :=
  tags ← map_err (λ e, "Error listing repository tags: " +:+ e) (docker_GetRepositoryTags user pass imgRef);
  mret (DockerReference_Name imgRef, tags).

Definition listDockerRepoTags (user pass userInput : string) : res (string * list string) :=
  imgRef ← parseDockerRepositoryReference userInput;
  retry_IfNecessary 5 (listDockerTags user pass imgRef).

Definition getLastChartVersionFromContainerReg (order : nat → list kind) (creds : HelmRegistry) : st versions string :=
  '(_, tags) ← pure (listDockerRepoTags (hreg_User creds) (hreg_Pass creds) (hreg_URL creds +:+ "/cluster-operator"));
  getLastVersion order tags.

Definition getLastChartVersionByIndex (order : nat → list kind) (creds : HelmRegistry) : st versions string :=
  let url := hreg_URL creds +:+ "/index.yaml" in
  _ ← pure (errors_Wrap "Error creating request: " (http_NewRequest url));
  let authorization := if (hreg_User creds <>s "") && (hreg_Pass creds <>s "")
    then Some ("Basic " +:+ EncodeToString (hreg_User creds +:+ ":" +:+ hreg_Pass creds)) else None in
  resp ← pure (errors_Wrap "Error getting index: " (http_Do url authorization));
  body ← pure (errors_Wrap "Error reading response: " resp);
  idx ← pure (errors_Wrap "Error decoding respose: " (unmarshal_Index body));
  getLastVersion order (map ie_Version (sort_slice Less (idx "cluster-operator"))).

Definition getLastChartVersion (order : nat → list kind) (creds : HelmRegistry) : st versions string :=
  let url := hreg_URL creds in
  if HasPrefix url "oci://" || HasPrefix url "docker://" then
    let url := if HasPrefix url "oci" then "docker" +:+ String.substring 3 (String.length url - 3) url else url in
    getLastChartVersionFromContainerReg order (mkHelmRegistry url (hreg_User creds) (hreg_Pass creds) (hreg_Type creds))
  else getLastChartVersionByIndex order creds.
End repositories.

(** ** The sorting of up to twelve elements *)

Section insertion.
Context {A : Type} (less : A → A → bool).

Fixpoint insert_sorted (x : A) (l : list A) : list A :=
  match l with [] => [x] | y :: l' => if less y x then y :: insert_sorted x l' else x :: l end.
Definition insertion_sort (l : list A) : list A := foldr insert_sorted [] l.

Lemma insert_sorted_perm x l : insert_sorted x l ≡ₚ x :: l.
Proof. induction l as [|y l IH]; simpl; [done|]. destruct (less y x); [|done]. rewrite IH. apply perm_swap. Qed.

Lemma insertion_sort_perm l : insertion_sort l ≡ₚ l.
Proof. induction l as [|x l IH]; simpl; [done|]. by rewrite insert_sorted_perm, IH. Qed.

Lemma insert_sorted_sorted x l : strict_weak less (x :: l) →
  StronglySorted (λ x y, less y x = false) l → StronglySorted (λ x y, less y x = false) (insert_sorted x l).
Proof.
  intros [Has Htr] Hs. induction Hs as [|y l Hs IH Hy]; simpl; [by repeat constructor|].
  destruct (less y x) eqn:Hlt.
  - constructor.
    + apply IH; intros; [apply Has|eapply Htr]; eauto; set_solver.
    + rewrite insert_sorted_perm. constructor; [|done]. apply Has; [set_solver..|done].
  - constructor; [by constructor|]. constructor; [done|].
    rewrite Forall_forall in *. intros z Hz. eapply (Htr _ y); [set_solver..|by apply Hy|done].
Qed.
End insertion.

Lemma strict_weak_sub {A} (less : A → A → bool) l l' : strict_weak less l → l' ⊆ l → strict_weak less l'.
Proof. intros [H1 H2] Hs. constructor; [intros x y ??; apply H1; auto|intros x y z ???; apply (H2 x y z); auto]. Qed.

Definition insertion : SortSlice.
Proof.
  refine {| sort_slice := @insertion_sort; sort_slice_perm := @insertion_sort_perm |}.
  intros A less l Hsw. induction l as [|x l IH]; simpl; [constructor|].
  apply insert_sorted_sorted.
  - eapply strict_weak_sub; [exact Hsw|]. intros z. by rewrite insertion_sort_perm.
  - apply IH. eapply strict_weak_sub; [exact Hsw|]. set_solver.
Defined.

(** ** What the patterns match *)

Lemma digits_bytes a : Forall (λ c, cs_mem cs_digit c = true) (bytes a) ↔ all_chars is_digit a = true.
Proof.
  induction a as [|c a IH]; simpl; [done|]. rewrite Forall_cons, IH, andb_true_iff.
  unfold is_digit, cs_digit, rng, cs_mem. simpl. by rewrite orb_false_r.
Qed.

Definition is_number (a : string) : Prop := a ≠ "" ∧ all_chars is_digit a = true.

Lemma rmatch_number a : rmatch number (bytes a) ↔ is_number a.
Proof.
  unfold number, is_number. rewrite rmatch_plus_set, digits_bytes.
  destruct a; simpl; split; intros [??]; split; done.
Qed.

Definition mains (a b c : string) : string := a +:+ "." +:+ b +:+ "." +:+ c.

Lemma pattern_inv k t : MatchString (pattern k) t = true →
  ∃ a b c s, t = mains a b c +:+ s ∧ is_number a ∧ is_number b ∧ is_number c ∧ rmatch (suffix_re k) (bytes s).
Proof.
  intros Hm. assert (is_ascii t) as Ha by (eapply MatchString_ascii; [|exact Hm]; by destruct k).
  apply MatchString_spec in Hm. rewrite (runes_ascii t Ha) in Hm.
  apply rmatch_cat in Hm as (u & v & Ht & Hu & Hv).
  apply rmatch_cat in Hu as (u1 & r1 & -> & H1 & Hu). apply rmatch_cat in Hu as (d1 & r2 & -> & Hd1 & Hu).
  apply rmatch_cat in Hu as (u2 & r3 & -> & H2 & Hu). apply rmatch_cat in Hu as (d2 & u3 & -> & Hd2 & H3).
  rewrite rmatch_char in Hd1, Hd2. subst d1 d2. rewrite <- !app_assoc in Ht.
  apply bytes_app_inv in Ht as (a & t1 & -> & <- & Ht). apply (bytes_app_inv _ [_]) in Ht as (p1 & t2 & -> & Hp1 & Ht).
  apply bytes_app_inv in Ht as (b & t3 & -> & <- & Ht). apply (bytes_app_inv _ [_]) in Ht as (p2 & t4 & -> & Hp2 & Ht).
  apply bytes_app_inv in Ht as (c & s & -> & <- & <-).
  apply (bytes_inj p1 ".") in Hp1 as ->. apply (bytes_inj p2 ".") in Hp2 as ->.
  rewrite rmatch_number in H1, H2, H3. exists a, b, c, s. split_and!; try done.
  unfold mains. by rewrite !string_app_assoc.
Qed.

(** The kind of a tag shows in the second byte of its suffix. *)
Definition suffix_kind (u : list Z) : kind :=
  match u with
  | _ :: x :: _ => if x =? 109 then milestone_pattern else if x =? 83 then snapshot_pattern
                   else if x =? 80 then pr_pattern else prerelease_pattern
  | _ => release_pattern
  end.

Lemma suffix_re_kind k u : rmatch (suffix_re k) u → suffix_kind u = k ∧ (u = [] ∨ ∃ v, u = 45 :: v).
Proof.
  destruct k; cbn [suffix_re RSeq RAny].
  - intros ->%rmatch_eps. auto.
  - intros (v & w & -> & ->%rmatch_lit & Hw)%rmatch_cat. apply rmatch_cat in Hw as (x & y & -> & Hx & _).
    rewrite !rmatch_alt, !rmatch_lit in Hx. destruct Hx as [->|[->| ->]]; simpl; eauto.
  - intros (v & w & -> & ->%rmatch_lit & Hw)%rmatch_cat. simpl. eauto.
  - intros ->%rmatch_lit. simpl. eauto.
  - intros (v & w & -> & ->%rmatch_lit & Hw)%rmatch_cat. simpl. eauto.
Qed.

Definition main_byte (x : Z) : bool := in_rng 48 57 x || (x =? 46).

Lemma number_main a : is_number a → Forall (λ x, main_byte x = true) (bytes a).
Proof.
  intros [_ Ha%digits_bytes]. eapply Forall_impl; [exact Ha|]. intros x Hx. unfold main_byte.
  unfold cs_mem, cs_digit, rng in Hx. cbn [existsb fst snd] in Hx. rewrite orb_false_r in Hx.
  change (in_rng 48 57 x = true) in Hx. by rewrite Hx.
Qed.

Lemma mains_main a b c : is_number a → is_number b → is_number c → Forall (λ x, main_byte x = true) (bytes (mains a b c)).
Proof.
  intros. unfold mains. rewrite !bytes_app. repeat (apply Forall_app; split); try by apply number_main.
  all: by repeat constructor.
Qed.

Lemma span_unique (P : Z → bool) (u u' v v' : list Z) :
  Forall (λ x, P x = true) u → Forall (λ x, P x = true) u' →
  (v = [] ∨ ∃ w, v = 45 :: w) → (v' = [] ∨ ∃ w, v' = 45 :: w) → P 45 = false →
  u ++ v = u' ++ v' → u = u' ∧ v = v'.
Proof.
  intros Hu. revert u'. induction Hu as [|x u Hx Hu IH]; intros u' Hu' Hv Hv' H45 E.
  - destruct Hu' as [|x u' Hx Hu']; [done|]. destruct Hv as [->|[w ->]]; [done|]. simpl in E. injection E as <- _. congruence.
  - destruct Hu' as [|x' u' Hx' Hu']; simpl in E.
    + destruct Hv' as [->|[w ->]]; [done|]. injection E as -> _. congruence.
    + injection E as <- E. destruct (IH u' Hu' Hv Hv' H45 E) as [-> ->]. done.
Qed.

(** A tag matches one of the patterns at most. *)
Lemma patterns_exclusive k k' t :
  MatchString (pattern k) t = true → MatchString (pattern k') t = true → k = k'.
Proof.
  intros (a & b & c & s & Ht & Ha & Hb & Hc & Hs)%pattern_inv (a' & b' & c' & s' & Ht' & Ha' & Hb' & Hc' & Hs')%pattern_inv.
  apply suffix_re_kind in Hs as [<- Hs], Hs' as [<- Hs'].
  assert (bytes (mains a b c) ++ bytes s = bytes (mains a' b' c') ++ bytes s') as E by (rewrite <- !bytes_app; congruence).
  eapply (span_unique main_byte) in E as [_ ->]; try done; by apply mains_main.
Qed.

(** Whatever the order, the tags of a kind are appended to those of earlier calls. *)
Lemma filterTags_spec order tags vs k :
  (∀ i, order i ≡ₚ all_kinds) →
  filterTags order tags vs k = vs k ++ List.filter (λ t, MatchString (pattern k) t) tags.
Proof.
  revert order vs. induction tags as [|t tags IH]; intros order vs Ho; simpl; [by rewrite app_nil_r|].
  rewrite (IH (λ i, order (S i))) by (intros i; apply Ho). destruct (List.find _ _) as [k'|] eqn:E.
  - apply List.find_some in E as [_ E]. unfold append_version.
    destruct (decide (k = k')) as [->|Hne]; [rewrite E; by rewrite <- app_assoc|].
    destruct (MatchString (pattern k) t) eqn:E'; [|done]. destruct Hne. by eapply patterns_exclusive.
  - destruct (MatchString (pattern k) t) eqn:E'; [|done]. exfalso.
    assert (In k (order O)) as Hk by (apply list_elem_of_In; rewrite (Ho O); destruct k; unfold all_kinds; set_solver).
    pose proof (List.find_none _ _ E k Hk) as E''. simpl in E''. congruence.
Qed.

(** ** The comparison is an order on the versions of a kind *)

Lemma compare_main_sym l1 l2 : length l1 = length l2 →
  compare_main l2 l1 = match compare_main l1 l2 with Some b => Some (negb b) | None => None end.
Proof.
  revert l2. induction l1 as [|n l1 IH]; intros [|m l2] Hl; try done. simpl.
  rewrite (Z.eqb_sym (Atoi_value m)). destruct (Z.eqb_spec (Atoi_value n) (Atoi_value m)); [apply IH; by injection Hl|].
  f_equal. destruct (Z.ltb_spec (Atoi_value n) (Atoi_value m)), (Z.ltb_spec (Atoi_value m) (Atoi_value n)); done || lia.
Qed.

Lemma compare_main_trans l1 l2 l3 : length l1 = length l2 → length l2 = length l3 →
  match compare_main l1 l2, compare_main l2 l3 with
  | None, r => compare_main l1 l3 = r
  | r, None => compare_main l1 l3 = r
  | Some b, Some b' => b = b' → compare_main l1 l3 = Some b
  end.
Proof.
  revert l2 l3. induction l1 as [|x l1 IH]; intros [|y l2] [|z l3] H1 H2; try done. simpl.
  injection H1 as H1. injection H2 as H2. specialize (IH l2 l3 H1 H2).
  repeat match goal with |- context [Z.eqb ?a ?b] => destruct (Z.eqb_spec a b) end; try lia; try done;
    repeat (case_match; simplify_eq); intros; simplify_eq; try f_equal; lia || done.
Qed.

Lemma TrimSuffix_number t n : is_number n → TrimSuffix (t +:+ n) "-SNAPSHOT" = t +:+ n.
Proof.
  intros [Hn Hd]. unfold TrimSuffix. replace (HasSuffix _ _) with false; [done|]. symmetry.
  unfold HasSuffix. rewrite string_rev_cat. rewrite <- all_chars_rev in Hd.
  destruct (string_rev n) as [|c r] eqn:E.
  { destruct n as [|c n]; [done|]. exfalso. apply (f_equal String.length) in E.
    change (String c n) with (String c "" +:+ n) in E. rewrite string_rev_cat, length_app_string in E. simpl in E. lia. }
  simpl in Hd. apply andb_true_iff in Hd as [Hd _]. change (string_rev "-SNAPSHOT") with "TOHSPANS-".
  change (String.prefix "TOHSPANS-" (String c (r +:+ string_rev t)) = false). cbn [String.prefix].
  destruct (Ascii.ascii_dec "T" c) as [<-|]; [discriminate Hd|done].
Qed.

Lemma number_no_char c a : is_number a → is_digit c = false → ¬ char_in c a.
Proof. intros [_ Ha] Hc. by eapply all_chars_not_in. Qed.

Lemma mains_no_dash a b c : is_number a → is_number b → is_number c → ¬ char_in "-" (mains a b c).
Proof.
  intros Ha Hb Hc. unfold mains. rewrite !char_in_app. intros [H|[H|[H|[H|H]]]]; revert H; try by apply number_no_char.
  all: rewrite char_in_cons; intros [?|([|] & ? & ?)]; done.
Qed.

Lemma Split_mains a b c : is_number a → is_number b → is_number c → Split (mains a b c) "." = [a; b; c].
Proof.
  intros Ha Hb Hc. change (mains a b c) with (Join [a; b; c] "."). apply (Split_Join "."); [done|].
  repeat constructor; by apply number_no_char.
Qed.

(** The parts of a tag: three numbers, and a suffix for some kinds. *)
Definition with_suffix (k : kind) : bool := match k with milestone_pattern | pr_pattern => true | _ => false end.

Lemma Split_one a s c : ¬ char_in c a → ¬ char_in c s → Split (a +:+ String c s) (String c "") = [a; s].
Proof. intros Ha Hs. change (a +:+ String c s) with (Join [a; s] (String c "")). apply Split_Join; [done|]. by repeat constructor. Qed.

Lemma number_no_dash n x : is_number n → ¬ char_in "-" x → ¬ char_in "-" (x +:+ n).
Proof. intros Hn Hx. rewrite char_in_app. intros [?|H]; [done|]. revert H. by apply number_no_char. Qed.

Lemma version_parts_shape k m n s : is_number n → ¬ char_in "-" (m +:+ n) → k ≠ prerelease_pattern →
  rmatch (suffix_re k) (bytes s) →
  ∃ l, version_parts ((m +:+ n) +:+ s) = (m +:+ n) :: l ∧ length l = (if with_suffix k then 1 else 0)%nat.
Proof.
  intros Hn Hd Hk Hs. unfold version_parts. destruct k; try done; cbn [suffix_re RSeq with_suffix] in *.
  - apply rmatch_eps in Hs. destruct s; [|done]. rewrite string_app_nil_r, TrimSuffix_number by done.
    exists []. split; [|done]. by apply (Split_Join "-" [_]); repeat constructor.
  - apply rmatch_cat in Hs as (u & w & Hs & ->%rmatch_lit & Hw).
    apply bytes_app_inv in Hs as (s1 & n' & -> & ->%bytes_inj & <-). rewrite rmatch_number in Hw.
    rewrite <- string_app_assoc, TrimSuffix_number, string_app_assoc by done. exists ["m." +:+ n']. split; [|done].
    apply (Split_one _ ("m." +:+ n')); [done|]. apply number_no_dash; [done|].
    rewrite !char_in_cons. intros [?|[?|([|] & ? & ?)]]; done.
  - apply rmatch_lit, bytes_inj in Hs as ->. rewrite TrimSuffix_app. exists []. split; [|done].
    by apply (Split_Join "-" [_]); repeat constructor.
  - apply rmatch_cat in Hs as (u & w & Hs & ->%rmatch_lit & Hw).
    apply bytes_app_inv in Hs as (s1 & s2 & -> & ->%bytes_inj & <-).
    apply rmatch_cat in Hw as (u & w & Hs & Hu & ->%rmatch_lit).
    apply bytes_app_inv in Hs as (n' & s1 & -> & <- & ->%bytes_inj). rewrite rmatch_number in Hu.
    rewrite <- !string_app_assoc, TrimSuffix_app, string_app_assoc. exists ["PR" +:+ n']. split; [|done].
    apply (Split_one _ ("PR" +:+ n')); [done|]. apply number_no_dash; [done|].
    rewrite !char_in_cons. intros [?|[?|([|] & ? & ?)]]; done.
Qed.

(** What the comparison looks at: three numbers and, for some kinds, a suffix. *)
Definition shape (k : kind) (t : string) : Prop :=
  length (main_part t) = 3%nat ∧ Nat.ltb 1 (length (version_parts t)) = with_suffix k.

Lemma pattern_shape k t : MatchString (pattern k) t = true → k ≠ prerelease_pattern → shape k t.
Proof.
  intros (a & b & c & s & -> & Ha & Hb & Hc & Hs)%pattern_inv Hk.
  pose proof (mains_no_dash a b c Ha Hb Hc) as Hd. pose proof (Split_mains a b c Ha Hb Hc) as Hm.
  unfold mains in *. rewrite <- !string_app_assoc in *.
  destruct (version_parts_shape k _ c s Hc Hd Hk Hs) as (l & Hl & Hn).
  unfold shape, main_part. rewrite Hl. cbn [nth length]. rewrite Hm, Hn. by destruct (with_suffix k).
Qed.

Lemma compareVersions_shape k x y : shape k x → shape k y →
  compareVersions x y =
    match compare_main (main_part x) (main_part y) with
    | Some b => b
    | None => if with_suffix k then String.ltb (nth 1 (version_parts y) "") (nth 1 (version_parts x) "") else false
    end.
Proof.
  intros [Hx Hx'] [Hy Hy']. unfold compareVersions. rewrite Hx', Hy'.
  destruct (compare_main _ _); [done|]. destruct (with_suffix k); [done|]. by rewrite Hx, Hy.
Qed.

(** [compareVersions] can sort the versions of a kind. *)
Lemma compareVersions_order k l : Forall (shape k) l → strict_weak compareVersions l.
Proof.
  rewrite Forall_forall. intros Hl. constructor.
  - intros x y Hx%Hl Hy%Hl. rewrite !(compareVersions_shape k) by done.
    rewrite (compare_main_sym (main_part x)) by (by destruct Hx as [-> _], Hy as [-> _]).
    destruct (compare_main _ _) as [[]|]; try done. destruct (with_suffix k); [|done].
    intros Hlt. apply not_ltb_iff. by apply ltb_le.
  - intros x y z Hx%Hl Hy%Hl Hz%Hl. rewrite !(compareVersions_shape k) by done.
    pose proof (compare_main_trans (main_part x) (main_part y) (main_part z)
      ltac:(by destruct Hx as [-> _], Hy as [-> _]) ltac:(by destruct Hy as [-> _], Hz as [-> _])) as H.
    destruct (compare_main (main_part x) (main_part y)) as [b1|], (compare_main (main_part y) (main_part z)) as [b2|].
    + intros -> ->. by rewrite H.
    + by rewrite H.
    + by rewrite H.
    + rewrite H. destruct (with_suffix k); [|done]. rewrite !not_ltb_iff. intros. by etrans.
Qed.

(** ** The chart version that is chosen *)

Fixpoint lex_le (l m : list Z) : Prop :=
  match l, m with
  | x :: l, y :: m => x < y ∨ x = y ∧ lex_le l m
  | _, _ => True
  end.

(** The numbers of a release. *)
Definition numbers (t : string) : list Z := map Atoi_value (Split t ".").

Lemma compare_main_lex l m : length l = length m →
  compare_main l m ≠ Some true ↔ lex_le (map Atoi_value l) (map Atoi_value m).
Proof.
  revert m. induction l as [|x l IH]; intros [|y m] Hl; try done. simpl.
  destruct (Z.eqb_spec (Atoi_value x) (Atoi_value y)) as [E|E].
  - rewrite IH by (by injection Hl). split; [auto|]. intros [?|[_ ?]]; [lia|done].
  - destruct (Z.ltb_spec (Atoi_value y) (Atoi_value x)); split.
    + by intros [].
    + intros [?|[? _]]; [exfalso; lia|done].
    + intros _. left. lia.
    + done.
Qed.

Lemma release_main_part t : MatchString (pattern release_pattern) t = true → main_part t = Split t ".".
Proof.
  intros (a & b & c & s & -> & Ha & Hb & Hc & Hs)%pattern_inv.
  apply rmatch_eps in Hs. destruct s; [|done]. rewrite string_app_nil_r.
  unfold main_part, version_parts. pose proof (mains_no_dash a b c Ha Hb Hc) as Hd.
  replace (TrimSuffix (mains a b c) "-SNAPSHOT") with (mains a b c).
  - pose proof (Split_Join "-" [mains a b c] ltac:(done) ltac:(by repeat constructor)) as E. simpl in E. by rewrite E.
  - symmetry. unfold mains. rewrite <- !string_app_assoc. by apply TrimSuffix_number.
Qed.

Lemma release_newest t v :
  MatchString (pattern release_pattern) t = true → MatchString (pattern release_pattern) v = true →
  compareVersions t v = false → lex_le (numbers t) (numbers v).
Proof.
  intros Ht Hv Hc. rewrite (compareVersions_shape release_pattern) in Hc by (by apply pattern_shape).
  unfold numbers. rewrite <- !release_main_part by done. apply compare_main_lex.
  - apply pattern_shape in Ht as [-> _]; [|done]. by apply pattern_shape in Hv as [-> _].
  - destruct (compare_main _ _) as [[]|]; done.
Qed.

(** The order in which the kinds are preferred. *)
Definition rank (k : kind) : nat :=
  match k with release_pattern => 0 | prerelease_pattern => 1 | milestone_pattern => 2
             | snapshot_pattern => 3 | pr_pattern => 4 end.

Section latest.
Context `{SortSlice}.

Lemma getVersion_latest k tags :
  tags ≠ [] → Forall (λ t, MatchString (pattern k) t = true) tags →
  ∃ v, getVersion tags k = Ok v ∧ v ∈ tags ∧
    if decide (k = prerelease_pattern) then head tags = Some v
    else ∀ t, t ∈ tags → compareVersions t v = false.
Proof.
  intros Hne Hm. unfold getVersion. destruct (decide (k = prerelease_pattern)) as [->|Hk].
  { destruct tags as [|v tags]; [done|]. exists v. split_and!; [done|left|done]. }
  assert (Forall (shape k) tags) as Hs by (eapply Forall_impl; [exact Hm|]; intros; by apply pattern_shape).
  pose proof (sort_slice_sorted compareVersions tags (compareVersions_order k tags Hs)) as Hsort.
  pose proof (sort_slice_perm compareVersions tags) as Hp.
  replace (match k with prerelease_pattern => tags | _ => sort_slice compareVersions tags end)
    with (sort_slice compareVersions tags) by (destruct k; congruence).
  destruct (sort_slice compareVersions tags) as [|v l] eqn:E; [by apply Permutation_nil in Hp|].
  exists v. split_and!; [done|rewrite <- Hp; left|]. intros t Ht. rewrite <- Hp in Ht.
  apply elem_of_cons in Ht as [->|Ht].
  - rewrite (compareVersions_shape k) by (rewrite Forall_forall in Hs; apply Hs; rewrite <- Hp; left).
    pose proof (compare_main_sym (main_part v) (main_part v) eq_refl) as Hsym.
    destruct (compare_main _ _) as [[]|]; try done. destruct (with_suffix k); [|done].
    apply not_ltb_iff. reflexivity.
  - apply StronglySorted_inv in Hsort as [_ Hsort]. rewrite Forall_forall in Hsort. by apply Hsort.
Qed.

(** C31. From a set of tags, [getLastVersion] takes a version of the best kind that there
    is, whatever the order in which the patterns are tried: the first listed of the
    pre-releases, or else one that no other of its kind is after; a release with the
    greatest numbers.  It fails exactly when no tag is a version. *)
Theorem getLastVersion_latest order tags :
  (∀ i, order i ≡ₚ all_kinds) →
  match fst (getLastVersion order tags no_versions) with
  | Ok v => ∃ k, v ∈ tags ∧ MatchString (pattern k) v = true ∧
      (∀ k' t, t ∈ tags → MatchString (pattern k') t = true → (rank k ≤ rank k')%nat) ∧
      (k = prerelease_pattern → head (List.filter (λ t, MatchString (pattern k) t) tags) = Some v) ∧
      (k ≠ prerelease_pattern → ∀ t, t ∈ tags → MatchString (pattern k) t = true → compareVersions t v = false) ∧
      (k = release_pattern → ∀ t, t ∈ tags → MatchString (pattern k) t = true → lex_le (numbers t) (numbers v))
  | Err _ => ∀ k t, t ∈ tags → MatchString (pattern k) t = false
  | Panic _ => False
  end.
Proof.
  intros Ho. unfold getLastVersion. set (vs := filterTags order tags no_versions).
  assert (∀ k, vs k = List.filter (λ t, MatchString (pattern k) t) tags) as Hvs
    by (intros k; unfold vs; by rewrite filterTags_spec).
  assert (∀ k t, t ∈ vs k ↔ t ∈ tags ∧ MatchString (pattern k) t = true) as Hin
    by (intros; rewrite Hvs, !list_elem_of_In; apply List.filter_In).
  assert (∀ k, Forall (λ t, MatchString (pattern k) t = true) (vs k)) as Hall
    by (intros k; apply Forall_forall; intros t Ht; by apply Hin in Ht as [_ ?]).
  destruct (List.find _ _) as [k|] eqn:E; cbn [fst].
  - assert (vs k ≠ []) as Hne by (apply List.find_some in E as [_ E]; by destruct (vs k)).
    destruct (getVersion_latest k (vs k) Hne (Hall k)) as (v & -> & Hv & Hlast).
    apply Hin in Hv as [Hv Hm]. exists k. split_and!; try done.
    + intros k' t Ht Hk'. destruct (decide (k' = k)) as [->|Hkk]; [done|].
      assert (vs k' ≠ []) as Hne' by (intros E'; assert (t ∈ vs k') as Hx by (by apply Hin); rewrite E' in Hx; by apply elem_of_nil in Hx).
      revert E. cbn [List.find]. destruct (vs release_pattern) eqn:?, (vs prerelease_pattern) eqn:?, (vs milestone_pattern) eqn:?,
        (vs snapshot_pattern) eqn:?, (vs pr_pattern) eqn:?; simpl; intros [= <-]; destruct k'; simpl; congruence || lia.
    + intros ->. rewrite decide_True in Hlast by done. by rewrite <- Hvs.
    + intros Hk t Ht Hm'. rewrite decide_False in Hlast by done. apply Hlast. by apply Hin.
    + intros -> t Ht Hm'. rewrite decide_False in Hlast by done. apply release_newest; try done.
      apply Hlast. by apply Hin.
  - intros k t Ht. destruct (MatchString (pattern k) t) eqn:Hm; [|done]. exfalso.
    assert (t ∈ vs k) as Hx by (by apply Hin).
    pose proof (List.find_none _ _ E k ltac:(destruct k; simpl; auto 10)) as Hk. simpl in Hk.
    destruct (vs k); [by apply elem_of_nil in Hx|done].
Qed.
End latest.

Definition demo_tags : list string := ["latest"; "0.9.9"; "0.10.2"; "0.11.0-rc.1"; "0.12.0-SNAPSHOT"].

Lemma getLastVersion_latest_witness :
  fst (@getLastVersion insertion (λ _, all_kinds) demo_tags no_versions) = Ok "0.10.2" ∧
  lex_le (numbers "0.9.9") (numbers "0.10.2").
Proof.
  assert (∀ i : nat, (λ _ : nat, all_kinds) i ≡ₚ all_kinds) as Ho by done.
  pose proof (@getLastVersion_latest insertion _ demo_tags Ho) as H.
  assert (fst (@getLastVersion insertion (λ _, all_kinds) demo_tags no_versions) = Ok "0.10.2") as E by (vm_compute; reflexivity).
  split; [exact E|]. rewrite E in H. destruct H as (k & _ & Hm & _ & _ & _ & Hr).
  assert (k = release_pattern) as Hk.
  { eapply patterns_exclusive; [exact Hm|]. vm_compute. reflexivity. }
  apply Hr; [exact Hk|right; left|rewrite Hk; vm_compute; reflexivity].
Defined.

(** Milestones are compared as texts: the ninth is taken for later than the tenth. *)
Example milestone_nine_after_ten :
  fst (@getLastVersion insertion (λ _, all_kinds) ["0.5.0-m.10"; "0.5.0-m.9"] no_versions) = Ok "0.5.0-m.9".
Proof. vm_compute. reflexivity. Qed.

(** The tags of an earlier call stay: a version of another repository is returned. *)
Example versions_are_kept :
  let '(_, vs) := @getLastVersion insertion (λ _, all_kinds) ["0.7.0"] no_versions in
  fst (@getLastVersion insertion (λ _, all_kinds) ["0.5.0"] vs) = Ok "0.7.0".
Proof. vm_compute. reflexivity. Qed.
