(* ===== verification/Worker.v ===== *)
(** * The world of the createworker action

    The action is a sequence of commands that run on a node, and a few on the local
    machine, with global variables of the package between them.  The world is the log
    of the commands with what each returned, and those variables.  What the machines
    answer is a function of the log, the command and the attempt ([Host]), so that
    what is proved holds for every behaviour of theirs.  The text templates and the
    embedded files are read by their paths: which paths there are is the content of
    the directories templates and files of createworker. *)

From S2P Require Import Prelude State GoStr KeosTypes Commons Oci.
Local Open Scope Z_scope.
Local Open Scope go_scope.
Local Open Scope stdpp_scope.

(** ** The log *)

Inductive event :=
| Cmd (command : string) (env : list string)             (* commons.ExecuteCommand *)
| NodeRun (args : list string) (stdin : string)          (* n.Command(...).SetStdin(...).Run() *)
| HostRun (command : string)                             (* sh -c on the local machine *)
| HostStat (path : string)
| HostMkdir (path : string)
| HostWrite (path content : string)
| HostRead (path : string)
| HostRename (old new : string).
#[export] Instance event_eq_dec : EqDecision event.
Proof. solve_decision. Defined.

(** What was done, newest first. *)
Definition log : Type := list (event * res string).

(** ** Global variables *)

(** Chart dictionaries: Kubernetes minor version, cluster type, chart name. *)
Abbreviation charts := (gmap string (gmap string (gmap string ChartEntry))).
Inductive dictionary := commonsCharts | awsCharts | googleCharts | azureCharts.
#[export] Instance dictionary_eq_dec : EqDecision dictionary.
Proof. solve_decision. Defined.

(** [DefaultStorageClass]; the other fields of [scTemplate] are constant. *)
Record DefaultStorageClass := mkDefaultStorageClass { dsc_Provisioner : string; dsc_Parameters : SCParameters }.

(** [w_config] is what the pointer [a.clusterConfig] points to. *)
Record world := mkWorld {
  w_log : log;
  w_majorVersion : string;
  w_helm_repo : string;
  w_charts : dictionary → charts;
  w_versions : versions;
  w_scTemplate : DefaultStorageClass;
  w_config : option ClusterConfig
}.

Definition with_log (l : log) (w : world) : world :=
  mkWorld l (w_majorVersion w) (w_helm_repo w) (w_charts w) (w_versions w) (w_scTemplate w) (w_config w).
Definition with_majorVersion (v : string) (w : world) : world :=
  mkWorld (w_log w) v (w_helm_repo w) (w_charts w) (w_versions w) (w_scTemplate w) (w_config w).
Definition with_helm_repo (r : string) (w : world) : world :=
  mkWorld (w_log w) (w_majorVersion w) r (w_charts w) (w_versions w) (w_scTemplate w) (w_config w).
Definition with_charts (d : dictionary) (c : charts) (w : world) : world :=
  mkWorld (w_log w) (w_majorVersion w) (w_helm_repo w) (λ d', if decide (d' = d) then c else w_charts w d')
    (w_versions w) (w_scTemplate w) (w_config w).
Definition with_versions (vs : versions) (w : world) : world :=
  mkWorld (w_log w) (w_majorVersion w) (w_helm_repo w) (w_charts w) vs (w_scTemplate w) (w_config w).
Definition with_scTemplate (t : DefaultStorageClass) (w : world) : world :=
  mkWorld (w_log w) (w_majorVersion w) (w_helm_repo w) (w_charts w) (w_versions w) t (w_config w).
Definition with_config (c : option ClusterConfig) (w : world) : world :=
  mkWorld (w_log w) (w_majorVersion w) (w_helm_repo w) (w_charts w) (w_versions w) (w_scTemplate w) c.

(** ** What is outside *)

(** The answers of the machines, and the orders in which Go ranges over a map of
    charts and over the map of version patterns. *)
Class Host := {
  answer : log → event → nat → attempt;
  range_order : log → gmap string ChartEntry → list (string * ChartEntry);
  range_order_perm l m : range_order l m ≡ₚ map_to_list m;
  pattern_order : log → nat → list kind;
  pattern_order_perm l i : pattern_order l i ≡ₚ all_kinds;
  clock : log → string → string              (* time.Now().Format(layout) *)
}.

Section commands.
Context `{Host}.

Definition record_event (ev : event) (r : res string) (w : world) : world := with_log ((ev, r) :: w_log w) w.

(** [commons.ExecuteCommand(n, c, timeout, retries, env)]: the waiting time between
    the attempts leaves no trace. *)
Definition exec_env (c : string) (timeout retries : nat) (env : list string) : st world string := λ w,
  let r := ExecuteCommand c (answer (w_log w) (Cmd c env)) retries in
  (r, record_event (Cmd c env) r w).
Definition exec (c : string) (timeout retries : nat) : st world string := exec_env c timeout retries [].

(** [_, err = commons.ExecuteCommand(...); if err != nil { return errors.Wrap(err, msg) }] *)
Definition exec_ (c : string) (timeout retries : nat) (message : string) : st world unit :=
  _ ← st_wrap message (exec c timeout retries); mret tt.
(** The same with [return err]. *)
Definition exec_plain (c : string) (timeout retries : nat) : st world unit :=
  _ ← exec c timeout retries; mret tt.

(** One run, of any other kind. *)
Definition run_once (ev : event) : st world string := λ w,
  let a := answer (w_log w) ev O in
  let r := match at_error a with Some e => Err e | None => Ok (at_output a) end in
  (r, record_event ev r w).
Definition node_run (args : list string) (stdin message : string) : st world unit :=
  _ ← st_wrap message (run_once (NodeRun args stdin)); mret tt.
End commands.

(** ** Templates and embedded files *)

Definition templates : list string :=
  ["templates/aws/32/aws-load-balancer-controller-helm-values.tmpl";
   "templates/aws/34/aws-load-balancer-controller-helm-values.tmpl";
   "templates/aws/35/aws-load-balancer-controller-helm-values.tmpl";
   "templates/aws/coredns-patch_configmap.tmpl";
   "templates/azure/32/azuredisk-azure-json.tmpl";
   "templates/azure/32/azuredisk-csi-driver-helm-values.tmpl";
   "templates/azure/32/azurefile-csi-driver-helm-values.tmpl";
   "templates/azure/32/cloud-provider-azure-helm-values.tmpl";
   "templates/azure/34/azuredisk-azure-json.tmpl";
   "templates/azure/34/azuredisk-csi-driver-helm-values.tmpl";
   "templates/azure/34/azurefile-csi-driver-helm-values.tmpl";
   "templates/azure/34/cloud-provider-azure-helm-values.tmpl";
   "templates/azure/35/azuredisk-azure-json.tmpl";
   "templates/azure/35/azuredisk-csi-driver-helm-values.tmpl";
   "templates/azure/35/azurefile-csi-driver-helm-values.tmpl";
   "templates/azure/35/cloud-provider-azure-helm-values.tmpl";
   "templates/azure/coredns-patch_configmap-aks.tmpl";
   "templates/azure/coredns-patch_configmap.tmpl";
   "templates/common/32/cert-manager-helm-values.tmpl";
   "templates/common/32/cluster-autoscaler-helm-values.tmpl";
   "templates/common/32/flux2-helm-values.tmpl";
   "templates/common/32/flux2_helmrelease.tmpl";
   "templates/common/32/flux2_helmrepository.tmpl";
   "templates/common/32/tigera-operator-helm-values.tmpl";
   "templates/common/34/cert-manager-helm-values.tmpl";
   "templates/common/34/cluster-autoscaler-helm-values.tmpl";
   "templates/common/34/flux2-helm-values.tmpl";
   "templates/common/34/flux2_helmrelease.tmpl";
   "templates/common/34/flux2_helmrepository.tmpl";
   "templates/common/34/tigera-operator-helm-values.tmpl";
   "templates/common/35/cert-manager-helm-values.tmpl";
   "templates/common/35/cluster-autoscaler-helm-values.tmpl";
   "templates/common/35/flux2-helm-values.tmpl";
   "templates/common/35/flux2_helmrelease.tmpl";
   "templates/common/35/flux2_helmrepository.tmpl";
   "templates/common/35/tigera-operator-helm-values.tmpl";
   "templates/common/autoscaler_rbac.tmpl";
   "templates/common/capi_pdb.tmpl";
   "templates/common/capx_pdb.tmpl";
   "templates/gcp/32/coredns_configmap.tmpl";
   "templates/gcp/32/coredns_deployment.tmpl";
   "templates/gcp/32/resourcequota.tmpl";
   "templates/gcp/34/coredns_configmap.tmpl";
   "templates/gcp/34/coredns_deployment.tmpl";
   "templates/gcp/34/resourcequota.tmpl";
   "templates/gcp/35/coredns_configmap.tmpl";
   "templates/gcp/35/coredns_deployment.tmpl";
   "templates/gcp/35/resourcequota.tmpl"].

Definition files : list string :=
  ["files/aws/deny-all-egress-imds_gnetpol.yaml"; "files/gcp/deny-all-egress-imds_gnetpol.yaml";
   "files/aws/allow-egress-imds_gnetpol.yaml"; "files/gcp/allow-egress-imds_gnetpol.yaml";
   "files/common/coredns_pdb.yaml"].

(** The structs that are given to templates. *)
Inductive params :=
| ParamsCommonHelm (KeosRegUrl : string) (Private CentralECR : bool)
| ParamsCalico (Spec : KeosSpec) (KeosRegUrl QuayRegUrl : string) (Private IsNetPolEngine : bool) (annotations : list (string * string))
| ParamsPrivate (KeosCluster : KeosCluster) (KeosRegUrl : string) (CentralECR Private HelmPrivate : bool)
| ParamsKeosCluster (c : KeosCluster)
| ParamsKeosSpec (s : KeosSpec)
| ParamsHelmRepository (ChartName ChartRepoUrl ChartRepoScheme : string) (Spec : KeosSpec) (creds : HelmRegistry) (interval : string)
| ParamsHelmRelease (HelmReleaseName ChartName ChartNamespace ChartRepoRef ChartVersion interval : string) (retries : Z) (sourceInterval : string)
| ParamsDeploy (Name Namespace : string)
| ParamsCloudController (ClusterName : string) (Private : bool) (KeosRegUrl PodsCidr : string)
| ParamsLBController (ClusterName : string) (Private : bool) (KeosRegUrl AccountID RoleName : string)
| ParamsAzureDisk (TenantID SubscriptionID KeosClusterName Region : string) (Networks : Networks) (UserAssignedIdentityID : string).

(** [interface{}] values of the Helm values. *)
Inductive hvalue :=
| HNil
| HBool (b : bool)
| HInt (n : Z)
| HStr (s : string)
| HList (l : list hvalue)
| HMap (m : gmap string hvalue).

(** The execution of a template, the text of an embedded file, and the encoders. *)
Class Texts := {
  ExecuteTemplate : string → params → res string;
  embedded : string → string;
  yaml_ClusterConfig : option ClusterConfig → res string;
  yaml_KeosCluster : KeosCluster → res string;
  yaml_StorageClass : DefaultStorageClass → res string;
  json_Marshal : value → res string;
  unmarshal_HelmValues : string → res (gmap string hvalue);
  yaml_HelmValues : gmap string hvalue → res string;
  unmarshal_KeosCluster : string → res KeosCluster
}.

Section texts.
Context `{Texts}.

Definition templatePath (parentPath name majorVersion : string) : string :=
  if majorVersion =s "" then "templates/" +:+ parentPath +:+ "/" +:+ name
  else "templates/" +:+ parentPath +:+ "/" +:+ majorVersion +:+ "/" +:+ name.

(** [ParseFS] fails when no file has the path. *)
Definition getManifest (parentPath name majorVersion : string) (p : params) : res string :=
  let path := templatePath parentPath name majorVersion in
  fail_when (negb (str_in path templates)) ("template: pattern matches no files: `" +:+ path +:+ "`") ;;
  ExecuteTemplate path p.

Definition read_file (path : string) : res string :=
  if str_in path files then Ok (embedded path) else Err ("open " +:+ path +:+ ": file does not exist").
End texts.

(** ** Effects *)

(** Errors stop: a command that returned an error, and is none of the tolerated ones,
    is the last one. *)
Definition entry_ok (tolerated : event → bool) (e : event * res string) : bool :=
  is_Ok (snd e) || tolerated (fst e).

Section failstop.
Context `{Host} (tolerated : event → bool).

Definition all_ok (w w' : world) : Prop :=
  ∃ l, w_log w' = l ++ w_log w ∧ Forall (λ e, entry_ok tolerated e = true) l.
Definition last_not_ok (w w' : world) : Prop :=
  ∃ l, w_log w' = l ++ w_log w ∧ Forall (λ e, entry_ok tolerated e = true) (tail l).

#[export] Instance failstop : Effect all_ok last_not_ok.
Proof.
  constructor.
  - intros w. by exists [].
  - intros w1 w2 w3 (l & E & Hl) (l' & E' & Hl'). exists (l' ++ l). rewrite E', E, app_assoc.
    split; [done|]. by apply Forall_app.
  - intros w. by exists [].
  - intros w1 w2 w3 (l & E & Hl) (l' & E' & Hl'). exists (l' ++ l). rewrite E', E, app_assoc.
    split; [done|]. destruct l' as [|e l']; simpl in *; [by destruct Hl; simpl|]. by apply Forall_app.
Qed.

Lemma record_ok ev r w : entry_ok tolerated (ev, r) = true → all_ok w (record_event ev r w).
Proof. intros Hr. exists [(ev, r)]. split; [done|]. by constructor. Qed.
Lemma record_last ev r w : last_not_ok w (record_event ev r w).
Proof. exists [(ev, r)]. split; [done|]. constructor. Qed.

Lemma exec_env_failstop c t n env : sat (exec_env c t n env) all_ok last_not_ok.
Proof.
  intros w. unfold exec_env. destruct (ExecuteCommand _ _ _) eqn:E; [|apply record_last..].
  by apply record_ok.
Qed.

Lemma run_once_failstop ev : sat (run_once ev) all_ok last_not_ok.
Proof. intros w. unfold run_once. destruct (at_error _); [apply record_last|by apply record_ok]. Qed.
End failstop.

Lemma ExecuteCommand_no_panic c run n x : ExecuteCommand c run n ≠ Panic x.
Proof. unfold ExecuteCommand. destruct (_ || _); [done|]. by destruct (at_error _). Qed.

(** Properties of the log that every event keeps. *)
Section log_invariant.
Context `{Host} (I : log → Prop).

Definition keeps (w w' : world) : Prop := I (w_log w) → I (w_log w').

#[export] Instance keeps_effect : Effect keeps keeps.
Proof. unfold keeps. constructor; [by intros w|intros w1 w2 w3; tauto|done|tauto]. Qed.

Definition harmless (ev : event) : Prop := ∀ r l, I l → I ((ev, r) :: l).

Lemma exec_env_keeps c t n env : harmless (Cmd c env) → sat (exec_env c t n env) keeps keeps.
Proof. intros Hh w. unfold exec_env. destruct (ExecuteCommand _ _ _); intros Hl; by apply Hh. Qed.
Lemma run_once_keeps ev : harmless ev → sat (run_once ev) keeps keeps.
Proof. intros Hh w. unfold run_once. destruct (at_error _); intros Hl; by apply Hh. Qed.
End log_invariant.
