(* ===== verification/Charts.v ===== *)
(** * The Helm charts of the createworker action

    The dictionaries of charts (provider.go, aws.go, gcp.go, azure.go), the overrides
    of the cluster configuration, and the pulling of the charts.  The dictionaries are
    global maps and the functions that select from them write into them: a selection
    is an alias of the inner map, so the versions of the configuration stay in the
    dictionary.  That is why [getOverriddenCharts], whose own loops assign to copies,
    returns the overridden versions. *)

From S2P Require Import Prelude State GoStr KeosTypes Aws Commons Oci Worker.
Local Open Scope Z_scope.
Local Open Scope go_scope.
Local Open Scope stdpp_scope.

(** ** The dictionaries *)

Definition chart_map (l : list (string * ChartEntry)) : gmap string ChartEntry := list_to_map l.

Definition initial_commonsCharts : charts :=
  list_to_map [
   ("32", list_to_map [
      ("managed", chart_map [
        ("cert-manager", mkChartEntry "https://charts.jetstack.io" "v1.21.2" "cert-manager" true true);
        ("flux2", mkChartEntry "https://fluxcd-community.github.io/helm-charts" "2.17.2" "kube-system" true true)]);
      ("unmanaged", chart_map [
        ("cert-manager", mkChartEntry "https://charts.jetstack.io" "v1.21.2" "cert-manager" true true);
        ("flux2", mkChartEntry "https://fluxcd-community.github.io/helm-charts" "2.17.2" "kube-system" true true)])]);
   ("33", list_to_map [
      ("managed", chart_map [
        ("cert-manager", mkChartEntry "https://charts.jetstack.io" "v1.21.2" "cert-manager" true true);
        ("flux2", mkChartEntry "https://fluxcd-community.github.io/helm-charts" "2.17.2" "kube-system" true true)]);
      ("unmanaged", chart_map [
        ("cert-manager", mkChartEntry "https://charts.jetstack.io" "v1.21.2" "cert-manager" true true);
        ("flux2", mkChartEntry "https://fluxcd-community.github.io/helm-charts" "2.17.2" "kube-system" true true)])]);
   ("34", list_to_map [
      ("managed", chart_map [
        ("cert-manager", mkChartEntry "https://charts.jetstack.io" "v1.21.2" "cert-manager" true true);
        ("flux2", mkChartEntry "https://fluxcd-community.github.io/helm-charts" "2.17.2" "kube-system" true true)]);
      ("unmanaged", chart_map [
        ("cert-manager", mkChartEntry "https://charts.jetstack.io" "v1.21.2" "cert-manager" true true);
        ("flux2", mkChartEntry "https://fluxcd-community.github.io/helm-charts" "2.17.2" "kube-system" true true)])]);
   ("35", list_to_map [
      ("managed", chart_map [
        ("cert-manager", mkChartEntry "https://charts.jetstack.io" "v1.21.2" "cert-manager" true true);
        ("flux2", mkChartEntry "https://fluxcd-community.github.io/helm-charts" "2.17.2" "kube-system" true true)]);
      ("unmanaged", chart_map [
        ("cert-manager", mkChartEntry "https://charts.jetstack.io" "v1.21.2" "cert-manager" true true);
        ("flux2", mkChartEntry "https://fluxcd-community.github.io/helm-charts" "2.17.2" "kube-system" true true)])])].

Definition initial_awsCharts : charts :=
  list_to_map [
   ("32", list_to_map [
      ("managed", chart_map [
        ("aws-load-balancer-controller", mkChartEntry "https://aws.github.io/eks-charts" "1.14.1" "kube-system" false false);
        ("cluster-autoscaler", mkChartEntry "https://kubernetes.github.io/autoscaler" "9.52.1" "kube-system" false false);
        ("tigera-operator", mkChartEntry "https://docs.projectcalico.org/charts" "v3.30.2" "tigera-operator" true true)]);
      ("unmanaged", chart_map [])]);
   ("33", list_to_map [
      ("managed", chart_map [
        ("aws-load-balancer-controller", mkChartEntry "https://aws.github.io/eks-charts" "1.14.1" "kube-system" false false);
        ("cluster-autoscaler", mkChartEntry "https://kubernetes.github.io/autoscaler" "9.52.1" "kube-system" false false);
        ("tigera-operator", mkChartEntry "https://docs.projectcalico.org/charts" "v3.30.2" "tigera-operator" true true)]);
      ("unmanaged", chart_map [])]);
   ("34", list_to_map [
      ("managed", chart_map [
        ("aws-load-balancer-controller", mkChartEntry "https://aws.github.io/eks-charts" "1.14.1" "kube-system" false false);
        ("cluster-autoscaler", mkChartEntry "https://kubernetes.github.io/autoscaler" "9.52.1" "kube-system" false false);
        ("tigera-operator", mkChartEntry "https://docs.projectcalico.org/charts" "v3.30.2" "tigera-operator" true true)]);
      ("unmanaged", chart_map [])]);
   ("35", list_to_map [
      ("managed", chart_map [
        ("aws-load-balancer-controller", mkChartEntry "https://aws.github.io/eks-charts" "3.4.0" "kube-system" false false);
        ("cluster-autoscaler", mkChartEntry "https://kubernetes.github.io/autoscaler" "9.59.0" "kube-system" false false);
        ("tigera-operator", mkChartEntry "https://docs.projectcalico.org/charts" "v3.31.7" "tigera-operator" true true)]);
      ("unmanaged", chart_map [])])].

Definition initial_googleCharts : charts :=
  list_to_map [
   ("32", list_to_map [
      ("managed", chart_map [
        ("tigera-operator", mkChartEntry "https://docs.projectcalico.org/charts" "v3.30.2" "tigera-operator" false false)]);
      ("unmanaged", chart_map [])]);
   ("34", list_to_map [
      ("managed", chart_map [
        ("tigera-operator", mkChartEntry "https://docs.projectcalico.org/charts" "v3.31.5" "tigera-operator" false false)]);
      ("unmanaged", chart_map [])]);
   ("35", list_to_map [
      ("managed", chart_map [
        ("tigera-operator", mkChartEntry "https://docs.projectcalico.org/charts" "v3.31.7" "tigera-operator" false false)]);
      ("unmanaged", chart_map [])])].

Definition initial_azureCharts : charts :=
  list_to_map [
   ("32", list_to_map [
      ("managed", chart_map []);
      ("unmanaged", chart_map [
        ("azuredisk-csi-driver", mkChartEntry "https://raw.githubusercontent.com/kubernetes-sigs/azuredisk-csi-driver/master/charts" "1.33.5" "kube-system" false false);
        ("azurefile-csi-driver", mkChartEntry "https://raw.githubusercontent.com/kubernetes-sigs/azurefile-csi-driver/master/charts" "1.34.1" "kube-system" false false);
        ("cloud-provider-azure", mkChartEntry "https://raw.githubusercontent.com/kubernetes-sigs/cloud-provider-azure/master/helm/repo" "1.34.2" "kube-system" true true);
        ("cluster-autoscaler", mkChartEntry "https://kubernetes.github.io/autoscaler" "9.52.1" "kube-system" false false);
        ("tigera-operator", mkChartEntry "https://docs.projectcalico.org/charts" "v3.30.2" "tigera-operator" true true)])]);
   ("34", list_to_map [
      ("managed", chart_map []);
      ("unmanaged", chart_map [
        ("azuredisk-csi-driver", mkChartEntry "https://raw.githubusercontent.com/kubernetes-sigs/azuredisk-csi-driver/master/charts" "1.33.5" "kube-system" false false);
        ("azurefile-csi-driver", mkChartEntry "https://raw.githubusercontent.com/kubernetes-sigs/azurefile-csi-driver/master/charts" "1.34.1" "kube-system" false false);
        ("cloud-provider-azure", mkChartEntry "https://raw.githubusercontent.com/kubernetes-sigs/cloud-provider-azure/master/helm/repo" "1.34.2" "kube-system" true true);
        ("cluster-autoscaler", mkChartEntry "https://kubernetes.github.io/autoscaler" "9.52.1" "kube-system" false false);
        ("tigera-operator", mkChartEntry "https://docs.projectcalico.org/charts" "v3.31.5" "tigera-operator" true true)])]);
   ("35", list_to_map [
      ("managed", chart_map []);
      ("unmanaged", chart_map [
        ("azuredisk-csi-driver", mkChartEntry "https://raw.githubusercontent.com/kubernetes-sigs/azuredisk-csi-driver/master/charts" "1.34.5" "kube-system" false false);
        ("azurefile-csi-driver", mkChartEntry "https://raw.githubusercontent.com/kubernetes-sigs/azurefile-csi-driver/master/charts" "1.35.7" "kube-system" false false);
        ("cloud-provider-azure", mkChartEntry "https://raw.githubusercontent.com/kubernetes-sigs/cloud-provider-azure/master/helm/repo" "1.35.3" "kube-system" true true);
        ("cluster-autoscaler", mkChartEntry "https://kubernetes.github.io/autoscaler" "9.59.0" "kube-system" false false);
        ("tigera-operator", mkChartEntry "https://docs.projectcalico.org/charts" "v3.31.7" "tigera-operator" true true)])])].

Definition initial_charts (d : dictionary) : charts :=
  match d with
  | commonsCharts => initial_commonsCharts
  | awsCharts => initial_awsCharts
  | googleCharts => initial_googleCharts
  | azureCharts => initial_azureCharts
  end.

(** [d.Charts[majorVersion][clusterType]]: reading a missing map gives an empty one. *)
Definition selected (d : dictionary) (clusterType : string) (w : world) : gmap string ChartEntry :=
  default ∅ (w_charts w d !! w_majorVersion w ≫= (.!! clusterType)).
(** Writing into the map that was selected. *)
Definition write_selected (d : dictionary) (clusterType : string) (f : gmap string ChartEntry → gmap string ChartEntry)
  (w : world) : world :=
  with_charts d (alter (alter f clusterType) (w_majorVersion w) (w_charts w d)) w.

Definition clusterType_of (keosSpec : KeosSpec) : string :=
  if negb (cp_Managed (ks_ControlPlane keosSpec)) then "unmanaged" else "managed".

(** ** Overrides *)

Definition with_Version (v : string) (e : ChartEntry) : ChartEntry :=
  mkChartEntry (ce_Repository e) v (ce_Namespace e) (ce_Pull e) (ce_Reconcile e).
Definition with_Repository (r : string) (e : ChartEntry) : ChartEntry :=
  mkChartEntry r (ce_Version e) (ce_Namespace e) (ce_Pull e) (ce_Reconcile e).
Definition with_Pull (b : bool) (e : ChartEntry) : ChartEntry :=
  mkChartEntry (ce_Repository e) (ce_Version e) (ce_Namespace e) b (ce_Reconcile e).

Definition override_chart (m : gmap string ChartEntry) (ov : Chart) : gmap string ChartEntry :=
  let chart := default zero_ChartEntry (m !! chart_Name ov) in
  if bool_decide (chart ≠ zero_ChartEntry) then <[chart_Name ov := with_Version (chart_Version ov) chart]> m else m.

Definition generic_charts (spec : ClusterConfigSpec) (keosSpec : KeosSpec) (m : gmap string ChartEntry)
  : gmap string ChartEntry :=
  let m := fold_left override_chart (ccs_Charts spec) m in
  if ccs_PrivateHelmRepo spec then with_Repository (hr_URL (ks_HelmRepository keosSpec)) <$> m else m.

Definition getGenericCharts (spec : ClusterConfigSpec) (keosSpec : KeosSpec) (d : dictionary) (clusterType : string)
  : st world (gmap string ChartEntry) :=
  modify (write_selected d clusterType (generic_charts spec keosSpec)) ;;
  get (selected d clusterType).

(** ** Pulling *)

Section charts.
Context `{Host}.

Definition ConvertToChart (chartEntries : gmap string ChartEntry) : st world (list Chart) :=
  l ← get (λ w, range_order (w_log w) chartEntries);
  mret (map (λ '(name, e), mkChart name (ce_Version e)) (List.filter (λ p, ce_Pull (snd p)) l)).

(** The text of a chart entry in the error, as [fmt.Sprint] prints the struct. *)
Definition show_bool (b : bool) : string := if b then "true" else "false".
Definition sprint_chart (e : ChartEntry) : string :=
  "{" +:+ ce_Repository e +:+ " " +:+ ce_Version e +:+ " " +:+ ce_Namespace e +:+ " " +:+
  show_bool (ce_Pull e) +:+ " " +:+ show_bool (ce_Reconcile e) +:+ "}".

Definition pull_command (keosSpec : KeosSpec) (cc : ClusterCredentials) (name : string) (chart : ChartEntry) : string :=
  let c := if HasPrefix (ce_Repository chart) "oci://"
    then "helm pull " +:+ ce_Repository chart +:+ "/" +:+ name +:+ " --version " +:+ ce_Version chart +:+
         " --untar --untardir /stratio/helm"
    else "helm pull " +:+ name +:+ " --version " +:+ ce_Version chart +:+ " --repo " +:+ ce_Repository chart +:+
         " --untar --untardir /stratio/helm" in
  if (ce_Repository chart =s hr_URL (ks_HelmRepository keosSpec)) && hr_AuthRequired (ks_HelmRepository keosSpec)
  then c +:+ " --username " +:+ map_get (clc_HelmRepositoryCredentials cc) "User" +:+
       " --password " +:+ map_get (clc_HelmRepositoryCredentials cc) "Pass"
  else c.

Definition pull_chart (keosSpec : KeosSpec) (cc : ClusterCredentials) (p : string * ChartEntry) : st world unit :=
  let '(name, chart) := p in
  let chart := if ce_Repository chart =s "default" then with_Repository (hr_URL (ks_HelmRepository keosSpec)) chart else chart in
  st_when (ce_Pull chart)
    (exec_ (pull_command keosSpec cc name chart) 5 3 ("failed to pull the helm chart: " +:+ sprint_chart chart)).

Definition pullCharts (charts : gmap string ChartEntry) (keosSpec : KeosSpec) (cc : ClusterCredentials) : st world unit :=
  l ← get (λ w, range_order (w_log w) charts);
  st_each (pull_chart keosSpec cc) l.

Definition pullGenericCharts (spec : ClusterConfigSpec) (keosSpec : KeosSpec) (cc : ClusterCredentials)
  (d : dictionary) (clusterType : string) : st world unit :=
  chartsToInstall ← getGenericCharts spec keosSpec d clusterType;
  pullCharts chartsToInstall keosSpec cc.

(** [pullProviderCharts] of the builder whose dictionary is [d]. *)
Definition pull_lb_controller (m : gmap string ChartEntry) : gmap string ChartEntry :=
  alter (with_Pull true) "aws-load-balancer-controller" m.
Definition builder_pullProviderCharts (d : dictionary) (spec : ClusterConfigSpec) (keosSpec : KeosSpec)
  (cc : ClusterCredentials) (clusterType : string) : st world unit :=
  st_when (bool_decide (d = awsCharts) && ccs_EKSLBController spec && (clusterType =s "managed"))
    (modify (write_selected d clusterType pull_lb_controller)) ;;
  pullGenericCharts spec keosSpec cc d clusterType.

(** The loops assign the version to a copy of each chart. *)
Definition override_copies (ovs : list Chart) (l : list Chart) : list Chart :=
  fold_left (λ l ov, let _ := map (λ chart, if chart_Name chart =s chart_Name ov
                                          then mkChart (chart_Name chart) (chart_Version ov) else chart) l in l) ovs l.

Definition builder_getOverriddenCharts (d : dictionary) (charts : list Chart) (spec : ClusterConfigSpec)
  (clusterType : string) : st world (list Chart) :=
  m ← get (selected d clusterType);
  providerCharts ← ConvertToChart m;
  mret (charts ++ override_copies (ccs_Charts spec) providerCharts).

Definition getOverriddenCharts (d : dictionary) (spec : ClusterConfigSpec) (clusterType : string) : st world (list Chart) :=
  m ← get (selected commonsCharts clusterType);
  charts ← ConvertToChart m;
  builder_getOverriddenCharts d (override_copies (ccs_Charts spec) charts) spec clusterType.

(** [&a.clusterConfig.Spec] *)
Definition config_spec : st world ClusterConfigSpec :=
  c ← get w_config; c ← pure (deref c); mret (cc_Spec c).
Definition with_Charts (l : list Chart) (s : ClusterConfigSpec) : ClusterConfigSpec :=
  mkClusterConfigSpec (ccs_EKSLBController s) (ccs_Private s) (ccs_ControlplaneConfig s) (ccs_WorkersConfig s)
    (ccs_ClusterOperatorVersion s) (ccs_ClusterOperatorImageVersion s) (ccs_PrivateHelmRepo s) l (ccs_Capx s)
    (ccs_GitOpsEnabled s).
Definition with_cc_Spec (f : ClusterConfigSpec → ClusterConfigSpec) (c : ClusterConfig) : ClusterConfig :=
  mkClusterConfig (cc_APIVersion c) (cc_Kind c) (cc_Metadata c) (f (cc_Spec c)).
Definition set_config_spec (f : ClusterConfigSpec → ClusterConfigSpec) : st world unit :=
  modify (λ w, with_config (with_cc_Spec f <$> w_config w) w).

(** [Infra.pullProviderCharts] *)
Definition pullProviderCharts (d : dictionary) (keosSpec : KeosSpec) (cc : ClusterCredentials) : st world unit :=
  let clusterType := clusterType_of keosSpec in
  spec ← config_spec;
  pullGenericCharts spec keosSpec cc commonsCharts clusterType ;;
  spec ← config_spec;
  builder_pullProviderCharts d spec keosSpec cc clusterType ;;
  l ← getOverriddenCharts d spec clusterType;
  set_config_spec (with_Charts l).

(** [Infra.getProviderCharts]: the charts of the provider replace common ones of the
    same name. *)
Definition getProviderCharts (d : dictionary) (keosSpec : KeosSpec) : st world (gmap string ChartEntry) :=
  let clusterType := clusterType_of keosSpec in
  spec ← config_spec;
  commonsChartsList ← getGenericCharts spec keosSpec commonsCharts clusterType;
  providerChartsList ← getGenericCharts spec keosSpec d clusterType;
  mret (providerChartsList ∪ commonsChartsList).
End charts.

Fixpoint getChartVersion (charts : list Chart) (chartName : string) : string :=
  match charts with
  | [] => ""
  | c :: charts => if chart_Name c =s chartName then chart_Version c else getChartVersion charts chartName
  end.

(** ** What a selection holds *)

(** Every entry of the dictionaries has a namespace, so none is the zero entry. *)
Definition wf_entries (m : gmap string ChartEntry) : Prop := map_Forall (λ _ e, ce_Namespace e ≠ "") m.

(** The last override of a chart counts. *)
Definition last_version (name : string) (ovs : list Chart) (v : string) : string :=
  fold_left (λ v ov, if chart_Name ov =s name then chart_Version ov else v) ovs v.

(** The entry that is meant to be installed. *)
Definition plan_entry (spec : ClusterConfigSpec) (keosSpec : KeosSpec) (name : string) (e : ChartEntry) : ChartEntry :=
  mkChartEntry (if ccs_PrivateHelmRepo spec then hr_URL (ks_HelmRepository keosSpec) else ce_Repository e)
    (last_version name (ccs_Charts spec) (ce_Version e)) (ce_Namespace e) (ce_Pull e) (ce_Reconcile e).
Definition plan (spec : ClusterConfigSpec) (keosSpec : KeosSpec) (m : gmap string ChartEntry) : gmap string ChartEntry :=
  map_imap (λ name e, Some (plan_entry spec keosSpec name e)) m.

Lemma override_chart_lookup m ov k : wf_entries m →
  override_chart m ov !! k =
    (λ e, if chart_Name ov =s k then with_Version (chart_Version ov) e else e) <$> m !! k.
Proof.
  intros Hm. unfold override_chart. destruct (m !! chart_Name ov) as [e|] eqn:E; cbv zeta; cbn [from_option id].
  - rewrite bool_decide_eq_true_2 by (intros ->; by apply (Hm _ _ E)).
    destruct (String.eqb_spec (chart_Name ov) k) as [<-|Hne]; [by rewrite lookup_insert_eq, E|].
    rewrite lookup_insert_ne by done. by destruct (m !! k).
  - rewrite bool_decide_eq_false_2 by naive_solver.
    destruct (String.eqb_spec (chart_Name ov) k) as [<-|Hne]; [by rewrite E|]. by destruct (m !! k).
Qed.

Lemma override_chart_wf m ov : wf_entries m → wf_entries (override_chart m ov).
Proof.
  intros Hm k e. rewrite override_chart_lookup by done. destruct (m !! k) as [e'|] eqn:E; simpl; [|done].
  intros [= <-]. specialize (Hm _ _ E). by destruct (_ =s _).
Qed.

Lemma overrides_lookup ovs m k : wf_entries m →
  fold_left override_chart ovs m !! k = (λ e, with_Version (last_version k ovs (ce_Version e)) e) <$> m !! k.
Proof.
  revert m. induction ovs as [|ov ovs IH]; intros m Hm; cbn [fold_left].
  - destruct (m !! k) as [[]|]; done.
  - rewrite IH by (by apply override_chart_wf). rewrite override_chart_lookup by done.
    destruct (m !! k) as [e|]; [|done]. simpl. unfold last_version. cbn [fold_left]. by destruct (_ =s _).
Qed.

(** Overriding and redirecting is what is meant. *)
Lemma generic_charts_plan spec keosSpec m : wf_entries m → generic_charts spec keosSpec m = plan spec keosSpec m.
Proof.
  intros Hm. apply map_eq. intros k. unfold plan. rewrite map_lookup_imap. unfold generic_charts, plan_entry.
  destruct (ccs_PrivateHelmRepo spec); rewrite ?lookup_fmap, overrides_lookup by done; by destruct (m !! k).
Qed.

Lemma plan_wf spec keosSpec m : wf_entries m → wf_entries (plan spec keosSpec m).
Proof.
  intros Hm k e. unfold plan. rewrite map_lookup_imap. destruct (m !! k) as [e'|] eqn:E; simpl; [|done].
  intros [= <-]. apply (Hm _ _ E).
Qed.

Lemma plan_empty spec keosSpec : plan spec keosSpec ∅ = ∅.
Proof. done. Qed.

Lemma pull_lb_wf m : wf_entries m → wf_entries (pull_lb_controller m).
Proof.
  intros Hm k e. unfold pull_lb_controller.
  destruct (decide (k = "aws-load-balancer-controller")) as [->|Hne].
  - rewrite lookup_alter_eq. destruct (m !! _) as [e'|] eqn:E; simpl; [|done]. intros [= <-]. apply (Hm _ _ E).
  - rewrite lookup_alter_ne by done. apply Hm.
Qed.

(** Overriding with versions that the map has changes nothing. *)
Definition consistent (l : list Chart) (m : gmap string ChartEntry) : Prop :=
  ∀ c e, c ∈ l → m !! chart_Name c = Some e → chart_Version c = ce_Version e.

Lemma last_version_same name l v :
  (∀ c, c ∈ l → chart_Name c = name → chart_Version c = v) → last_version name l v = v.
Proof.
  unfold last_version. induction l as [|c l IH]; intros Hl; cbn [fold_left]; [done|].
  destruct (String.eqb_spec (chart_Name c) name) as [E|E].
  - rewrite (Hl c) by (done || left). apply IH. intros; apply Hl; [by right|done].
  - apply IH. intros; apply Hl; [by right|done].
Qed.

Lemma plan_again spec keosSpec l m :
  consistent l (plan spec keosSpec m) →
  plan (with_Charts l spec) keosSpec (plan spec keosSpec m) = plan spec keosSpec m.
Proof.
  intros Hc. apply map_eq. intros k. unfold plan at 1. rewrite map_lookup_imap.
  destruct (plan spec keosSpec m !! k) as [e|] eqn:E; [|done]. simpl. f_equal.
  unfold plan_entry. cbn [with_Charts ccs_PrivateHelmRepo ccs_Charts].
  rewrite last_version_same by (intros c Hin <-; by apply Hc).
  unfold plan in E. rewrite map_lookup_imap in E. destruct (m !! k) as [e'|]; [|done]. simpl in E.
  injection E as <-. unfold plan_entry. simpl. by destruct (ccs_PrivateHelmRepo spec).
Qed.

(** ** The dictionaries of the source *)

Lemma initial_wf d mv ct : wf_entries (default ∅ (initial_charts d !! mv ≫= (.!! ct))).
Proof.
  assert (map_Forall (λ _ m, map_Forall (λ _ m, wf_entries m) m) (initial_charts d)) as H.
  { apply (bool_decide_eq_true_1 _). destruct d; vm_compute; reflexivity. }
  destruct (initial_charts d !! mv) as [m|] eqn:E; [|done]. simpl.
  destruct (m !! ct) as [m'|] eqn:E'; [|done]. by apply (H mv m E ct m').
Qed.

Definition common_names : list string := ["cert-manager"; "flux2"].

Lemma initial_names d mv ct :
  map_Forall (λ k _, (k ∈ common_names) ↔ d = commonsCharts) (default ∅ (initial_charts d !! mv ≫= (.!! ct))).
Proof.
  assert (map_Forall (λ _ m, map_Forall (λ _ m, map_Forall (λ k _, bool_decide (k ∈ common_names) = bool_decide (d = commonsCharts)) m) m) (initial_charts d)) as H.
  { apply (bool_decide_eq_true_1 _). destruct d; vm_compute; reflexivity. }
  destruct (initial_charts d !! mv) as [m|] eqn:E; [|done]. simpl.
  destruct (m !! ct) as [m'|] eqn:E'; [|done]. intros k e Hk.
  specialize (H mv m E ct m' E' k e Hk). simpl in H. by rewrite <- (bool_decide_eq_true (d = _)), <- H, bool_decide_eq_true.
Qed.

(** ** Selections in the world *)

Lemma selected_write d ct f w : f ∅ = ∅ → selected d ct (write_selected d ct f w) = f (selected d ct w).
Proof.
  intros Hf. unfold selected, write_selected. simpl. rewrite decide_True by done.
  rewrite lookup_alter_eq. destruct (w_charts w d !! w_majorVersion w) as [m|]; simpl; [|done].
  rewrite lookup_alter_eq. by destruct (m !! ct).
Qed.

Lemma selected_write_ne d d' ct ct' f w : d' ≠ d → selected d' ct' (write_selected d ct f w) = selected d' ct' w.
Proof. intros Hd. unfold selected, write_selected. simpl. by rewrite decide_False. Qed.

(** Everything but the log and the dictionaries. *)
Definition same_selection (w w' : world) : Prop :=
  w_config w' = w_config w ∧ ∀ d ct, selected d ct w' = selected d ct w.
#[export] Instance same_selection_effect : Effect same_selection same_selection.
Proof.
  unfold same_selection. constructor; [done| |done|]; intros w1 w2 w3 [E1 H1] [E2 H2]; split; try congruence;
    intros; by rewrite H2, H1.
Qed.

Section plan.
Context `{Host}.

Lemma exec_same_selection c t n msg : sat (exec_ c t n msg) same_selection same_selection.
Proof.
  unfold exec_, exec. repeat sat_step. intros w. unfold exec_env. by destruct (ExecuteCommand _ _ _).
Qed.

Lemma pullCharts_same m keosSpec cc : sat (pullCharts m keosSpec cc) same_selection same_selection.
Proof.
  unfold pullCharts. repeat sat_step. unfold pull_chart. repeat sat_step. apply exec_same_selection.
Qed.

(** Pulling the charts of one dictionary. *)
Lemma pullGenericCharts_Ok spec keosSpec cc d ct w w' :
  pullGenericCharts spec keosSpec cc d ct w = (Ok tt, w') → wf_entries (selected d ct w) →
  w_config w' = w_config w ∧ selected d ct w' = plan spec keosSpec (selected d ct w) ∧
  ∀ d', d' ≠ d → selected d' ct w' = selected d' ct w.
Proof.
  unfold pullGenericCharts. intros (m & v & Hm & Hp)%st_bind_Ok Hwf.
  assert (v = write_selected d ct (generic_charts spec keosSpec) w) as ->.
  { unfold getGenericCharts in Hm. apply st_bind_Ok in Hm as (? & v' & Hv & Hm).
    unfold modify in Hv. unfold get in Hm. congruence. }
  pose proof (sat_Ok _ _ _ _ (pullCharts_same m keosSpec cc) Hp) as [Hc Hs].
  split_and!; [done| |].
  - rewrite Hs, selected_write; [by apply generic_charts_plan|].
    rewrite generic_charts_plan by done. apply plan_empty.
  - intros d' Hd. by rewrite Hs, selected_write_ne.
Qed.

Lemma getGenericCharts_run spec keosSpec d ct w :
  wf_entries (selected d ct w) →
  getGenericCharts spec keosSpec d ct w =
    (Ok (plan spec keosSpec (selected d ct w)), write_selected d ct (generic_charts spec keosSpec) w).
Proof.
  intros Hwf. unfold getGenericCharts, mbind, st_bind, modify, get. f_equal. f_equal.
  rewrite selected_write; [by apply generic_charts_plan|]. rewrite generic_charts_plan by done. apply plan_empty.
Qed.

Definition pulled (m : gmap string ChartEntry) (c : Chart) : Prop :=
  ∃ e, m !! chart_Name c = Some e ∧ ce_Pull e = true ∧ chart_Version c = ce_Version e.

Lemma ConvertToChart_spec m w : ∃ l, ConvertToChart m w = (Ok l, w) ∧ ∀ c, c ∈ l ↔ pulled m c.
Proof.
  unfold ConvertToChart. eexists. split; [done|]. intros [n v]. rewrite list_elem_of_In, in_map_iff. unfold pulled. simpl. split.
  - intros ([k e] & [= <- <-] & Hin). apply List.filter_In in Hin as [Hin Hp].
    rewrite <- list_elem_of_In, range_order_perm, elem_of_map_to_list in Hin. eauto.
  - intros (e & He & Hp & ->). exists (n, e). split; [done|]. apply List.filter_In. split; [|done].
    by rewrite <- list_elem_of_In, range_order_perm, elem_of_map_to_list.
Qed.

Lemma override_copies_id ovs l : override_copies ovs l = l.
Proof. unfold override_copies. induction ovs; done. Qed.

(** The charts that a cluster is meant to get. *)
Definition provider_plan (d : dictionary) (spec : ClusterConfigSpec) (keosSpec : KeosSpec) (m : gmap string ChartEntry) :=
  plan spec keosSpec
    (if bool_decide (d = awsCharts) && ccs_EKSLBController spec && (clusterType_of keosSpec =s "managed")
     then pull_lb_controller m else m).

Lemma config_spec_run w c : w_config w = Some c → config_spec w = (Ok (cc_Spec c), w).
Proof. intros Hc. unfold config_spec, mbind, st_bind, get, pure. by rewrite Hc. Qed.

(** The world after the charts were pulled. *)
Lemma pullProviderCharts_Ok d keosSpec cc w w' c :
  d ≠ commonsCharts → w_config w = Some c →
  (∀ d ct, wf_entries (selected d ct w)) →
  pullProviderCharts d keosSpec cc w = (Ok tt, w') →
  let spec := cc_Spec c in
  let ct := clusterType_of keosSpec in
  let commons_plan := plan spec keosSpec (selected commonsCharts ct w) in
  let prov_plan := provider_plan d spec keosSpec (selected d ct w) in
  ∃ l, w_config w' = Some (with_cc_Spec (with_Charts l) c) ∧
    (∀ x, x ∈ l ↔ pulled commons_plan x ∨ pulled prov_plan x) ∧
    selected commonsCharts ct w' = commons_plan ∧ selected d ct w' = prov_plan.
Proof.
  intros Hd Hc Hwf Hrun spec ct commons_plan prov_plan. unfold pullProviderCharts in Hrun.
  apply st_bind_Ok in Hrun as (s & v & Hs & Hrun).
  rewrite (config_spec_run w c) in Hs by done. assert (s = cc_Spec c ∧ v = w) as [-> ->] by (split; congruence). clear Hs. fold spec in Hrun.
  apply st_bind_Ok in Hrun as ([] & w1 & H1 & Hrun).
  apply pullGenericCharts_Ok in H1 as (Hc1 & Hs1 & Hn1); [|done].
  apply st_bind_Ok in Hrun as (s & v & Hs & Hrun).
  rewrite (config_spec_run w1 c) in Hs by congruence. assert (s = cc_Spec c ∧ v = w1) as [-> ->] by (split; congruence). clear Hs. fold spec in Hrun.
  apply st_bind_Ok in Hrun as ([] & w2 & H2 & Hrun).
  assert (w_config w2 = Some c ∧ selected d ct w2 = prov_plan ∧ selected commonsCharts ct w2 = commons_plan) as (Hc2 & Hs2 & Hn2).
  { unfold builder_pullProviderCharts in H2. apply st_bind_Ok in H2 as ([] & v & Hv & H2). fold ct in H2, Hv.
    assert (w_config v = w_config w1 ∧ selected commonsCharts ct v = selected commonsCharts ct w1 ∧
      selected d ct v = (if bool_decide (d = awsCharts) && ccs_EKSLBController spec && (ct =s "managed")
                         then pull_lb_controller (selected d ct w1) else selected d ct w1)) as (E1 & E2 & E3).
    { unfold st_when in Hv. destruct (_ && _).
      - unfold modify in Hv. assert (v = write_selected d ct pull_lb_controller w1) as -> by congruence.
        rewrite selected_write by done. by rewrite selected_write_ne.
      - assert (v = w1) as -> by (unfold mret, st_ret in Hv; congruence). done. }
    apply pullGenericCharts_Ok in H2 as (F1 & F2 & F3).
    2: { rewrite E3, Hn1 by done. destruct (_ && _); [apply pull_lb_wf|]; apply Hwf. }
    split_and!; [congruence| |rewrite F3 by done; by rewrite E2].
    rewrite F2, E3, Hn1 by done. unfold prov_plan, provider_plan. fold ct. by destruct (_ && _). }
  apply st_bind_Ok in Hrun as (l & w3 & H3 & Hrun). fold ct in H3.
  unfold getOverriddenCharts, builder_getOverriddenCharts in H3.
  destruct (ConvertToChart_spec commons_plan w2) as (l1 & E1 & Hl1).
  destruct (ConvertToChart_spec prov_plan w2) as (l2 & E2 & Hl2).
  unfold mbind, st_bind, get in H3. rewrite Hn2, E1, Hs2, E2 in H3. rewrite !override_copies_id in H3.
  assert (l = l1 ++ l2 ∧ w3 = w2) as [-> ->] by (unfold mret, st_ret in H3; split; congruence).
  unfold set_config_spec, modify in Hrun. exists (l1 ++ l2).
  assert (w' = with_config (with_cc_Spec (with_Charts (l1 ++ l2)) <$> w_config w2) w2) as -> by congruence.
  rewrite Hc2. split_and!; try done. intros x. by rewrite elem_of_app, Hl1, Hl2.
Qed.
End plan.

Lemma plan_names spec keosSpec m k : is_Some (plan spec keosSpec m !! k) ↔ is_Some (m !! k).
Proof. unfold plan. rewrite map_lookup_imap. destruct (m !! k); simpl; split; intros []; eauto; done. Qed.

Lemma pull_lb_names m k : is_Some (pull_lb_controller m !! k) ↔ is_Some (m !! k).
Proof.
  unfold pull_lb_controller. destruct (decide (k = "aws-load-balancer-controller")) as [->|Hne].
  - rewrite lookup_alter_eq. apply fmap_is_Some.
  - by rewrite lookup_alter_ne.
Qed.

Lemma provider_plan_names d spec keosSpec m k : is_Some (provider_plan d spec keosSpec m !! k) ↔ is_Some (m !! k).
Proof. unfold provider_plan. rewrite plan_names. destruct (_ && _); [apply pull_lb_names|done]. Qed.

Lemma provider_plan_wf d spec keosSpec m : wf_entries m → wf_entries (provider_plan d spec keosSpec m).
Proof. intros Hm. apply plan_wf. destruct (_ && _); [by apply pull_lb_wf|done]. Qed.

(** The charts of a cluster: those of the provider and the common ones, for its
    Kubernetes minor version and its type. *)
Definition chart_plan (d : dictionary) (mv : string) (spec : ClusterConfigSpec) (keosSpec : KeosSpec) : gmap string ChartEntry :=
  let ct := clusterType_of keosSpec in
  provider_plan d spec keosSpec (default ∅ (initial_charts d !! mv ≫= (.!! ct))) ∪
  plan spec keosSpec (default ∅ (initial_charts commonsCharts !! mv ≫= (.!! ct))).

Section refinement.
Context `{Host}.

(** C18. Pulling the charts and selecting them again, through global dictionaries that both
    write into, refines the plan: the configuration gets the names and versions of the
    charts of the plan that are pulled, later selections return the plan, and change
    nothing any more. *)
Theorem charts_refine_plan d keosSpec cc w w' c :
  d ≠ commonsCharts → w_charts w = initial_charts → w_config w = Some c →
  pullProviderCharts d keosSpec cc w = (Ok tt, w') →
  let thePlan := chart_plan d (w_majorVersion w) (cc_Spec c) keosSpec in
  ∃ l w'', w_config w' = Some (with_cc_Spec (with_Charts l) c) ∧
    (∀ x, x ∈ l ↔ pulled thePlan x) ∧
    getProviderCharts d keosSpec w' = (Ok thePlan, w'') ∧
    ∀ d', d' = d ∨ d' = commonsCharts →
      selected d' (clusterType_of keosSpec) w'' = selected d' (clusterType_of keosSpec) w'.
Proof.
  intros Hd Hw Hc Hrun thePlan. set (ct := clusterType_of keosSpec). set (spec := cc_Spec c).
  assert (∀ d' ct', selected d' ct' w = default ∅ (initial_charts d' !! w_majorVersion w ≫= (.!! ct'))) as Hsel
    by (intros; unfold selected; by rewrite Hw).
  assert (∀ d' ct', wf_entries (selected d' ct' w)) as Hwf by (intros; rewrite Hsel; apply initial_wf).
  destruct (pullProviderCharts_Ok d keosSpec cc w w' c Hd Hc Hwf Hrun) as (l & Hc' & Hl & Hs1 & Hs2).
  fold ct spec in Hl, Hs1, Hs2. set (A := plan _ _ _) in *. set (B := provider_plan _ _ _ _) in *.
  assert (thePlan = B ∪ A) as HP by (unfold thePlan, chart_plan, A, B; by rewrite !Hsel).
  assert (∀ k, is_Some (A !! k) → is_Some (B !! k) → False) as Hdisj.
  { intros k HA HB. apply plan_names in HA as [e HA]. apply provider_plan_names in HB as [e' HB]. rewrite Hsel in HA, HB.
    apply Hd. apply (initial_names _ _ _ k e' HB). by apply (initial_names _ _ _ k e HA). }
  assert (consistent l A) as CA.
  { intros x e Hx HA. apply Hl in Hx as [(e' & He' & _ & ->)|(e' & He' & _)]; [congruence|]. by destruct (Hdisj (chart_Name x)). }
  assert (consistent l B) as CB.
  { intros x e Hx HB. apply Hl in Hx as [(e' & He' & _)|(e' & He' & _ & ->)]; [|congruence]. by destruct (Hdisj (chart_Name x)). }
  assert (plan (with_Charts l spec) keosSpec A = A) as PA by (by apply plan_again).
  assert (plan (with_Charts l spec) keosSpec B = B) as PB by (by apply plan_again).
  assert (wf_entries A) as WA by (apply plan_wf, Hwf). assert (wf_entries B) as WB by (apply provider_plan_wf, Hwf).
  set (f := generic_charts (with_Charts l spec) keosSpec).
  assert (f ∅ = ∅) as Hf by (unfold f; by rewrite generic_charts_plan).
  exists l, (write_selected d ct f (write_selected commonsCharts ct f w')). split_and!; [done| | |].
  - intros x. rewrite Hl, HP. unfold pulled. split.
    + intros [(e & He & ?)|(e & He & ?)]; exists e; split; try done.
      * apply lookup_union_Some_raw. right. split; [|done].
        destruct (B !! chart_Name x) eqn:E; [|done]. by destruct (Hdisj (chart_Name x)).
      * by apply lookup_union_Some_l.
    + intros (e & He & ?). apply lookup_union_Some_raw in He as [He|[_ He]]; [right|left]; eauto.
  - unfold getProviderCharts. fold ct. unfold mbind at 1, st_bind at 1. rewrite (config_spec_run _ _ Hc').
    cbn [cc_Spec with_cc_Spec]. fold spec. unfold mbind, st_bind.
    rewrite (getGenericCharts_run _ _ commonsCharts) by (by rewrite Hs1). rewrite Hs1, PA.
    rewrite (getGenericCharts_run _ _ d) by (rewrite selected_write_ne by done; by rewrite Hs2).
    rewrite selected_write_ne by done. by rewrite Hs2, PB, HP.
  - intros d' [->| ->].
    + rewrite selected_write, selected_write_ne, Hs2 by done. unfold f. by rewrite generic_charts_plan.
    + rewrite selected_write_ne, selected_write, Hs1 by done. unfold f. by rewrite generic_charts_plan.
Qed.
End refinement.

(** A cluster on AWS with a private repository and a version of cert-manager of its
    own, where every command succeeds. *)
Module Demo.
Definition host : Host.
Proof. refine {| answer := λ _ _ _, mkAttempt "" None; range_order := λ _ m, map_to_list m; pattern_order := λ _ _, all_kinds; clock := λ _ _, "20240101000000" |}; done. Defined.

Definition keosSpec : KeosSpec :=
  mkKeosSpec false zero_Bastion zero_StorageClass zero_Credentials "aws" "v1.35.1" "eu-west-1" zero_Networks zero_Dns []
    (mkHelmRepository false "https://charts.local" "generic" "" None "" "") "" zero_Security zero_Keos
    (mkControlPlane true "" None "" zero_RootVolume [] zero_AWSCP zero_AzureCP zero_GCPCP zero_CustomVolume zero_CustomVolume [])
    [] zero_ClusterConfigRef zero_Calico.
Definition config : ClusterConfig :=
  mkClusterConfig "" "" zero_Metadata
    (mkClusterConfigSpec true false zero_ControlplaneConfig zero_WorkersConfig "" "" true
       [mkChart "cert-manager" "v9"] zero_CAPX false).
Definition start : world :=
  mkWorld [] "35" "" initial_charts no_versions (mkDefaultStorageClass "" zero_SCParameters) (Some config).
End Demo.

Lemma charts_refine_plan_witness :
  ∃ w', @pullProviderCharts Demo.host awsCharts Demo.keosSpec zero_ClusterCredentials Demo.start = (Ok tt, w') ∧
    ce_Version <$> (chart_plan awsCharts "35" (cc_Spec Demo.config) Demo.keosSpec !! "cert-manager") = Some "v9" ∧
    ∃ l, w_config w' = Some (with_cc_Spec (with_Charts l) Demo.config).
Proof.
  set (w' := snd (@pullProviderCharts Demo.host awsCharts Demo.keosSpec zero_ClusterCredentials Demo.start)).
  assert (@pullProviderCharts Demo.host awsCharts Demo.keosSpec zero_ClusterCredentials Demo.start = (Ok tt, w')) as E.
  { unfold w'. assert (fst (@pullProviderCharts Demo.host awsCharts Demo.keosSpec zero_ClusterCredentials Demo.start) = Ok tt) as <-
      by (vm_compute; reflexivity). apply surjective_pairing. }
  exists w'. split; [exact E|]. split; [vm_compute; reflexivity|].
  destruct (@charts_refine_plan Demo.host awsCharts Demo.keosSpec zero_ClusterCredentials Demo.start w' Demo.config
    ltac:(discriminate) eq_refl eq_refl E) as (l & w'' & Hc & _).
  exists l. exact Hc.
Defined.
