(* ===== verification/Builder.v ===== *)
(** * The infrastructure builders of the createworker action

    The fields and the pure methods of [AWSBuilder], [GCPBuilder] and [AzureBuilder]
    (createworker/aws.go, gcp.go, azure.go): versions, environment variables with the
    credentials, and the parameters of the storage class; [Infra.buildProvider]
    (provider.go) and the secrets that the cluster operator is installed with.  Shown: what
    the operator is given decodes to the credentials of the descriptor, field by field; and
    the storage class that is installed satisfies its validation. *)

From S2P Require Import Prelude State GoStr KeosTypes Aws Base64 ValidateCommon ValidateAWS Oci Worker.
Local Open Scope Z_scope.
Local Open Scope go_scope.
Local Open Scope stdpp_scope.

Definition nl : string := String (Ascii.ascii_of_nat 10) "".

(** ** Data *)

(** The fields of the three builder structs and of [Provider]. *)
Record Provider := mkProvider {
  capxProvider : string;
  capxVersion : string;
  capxImageVersion : string;
  capxManaged : bool;
  capxName : string;
  capxEnvVars : list string;
  scParameters : SCParameters;
  scProvisioner : string;
  csiNamespace : string
}.
Definition zero_Provider : Provider := mkProvider "" "" "" false "" [] zero_SCParameters "" "".

Record ProviderParams := mkProviderParams {
  pp_ClusterName : string;
  pp_Region : string;
  pp_Managed : bool;
  pp_Credentials : gmap string string;
  pp_GithubToken : string;
  pp_StorageClass : StorageClass;
  pp_Capx : CAPX
}.

Definition with_capx (provider version image : string) (managed : bool) (name : string) (b : Provider) : Provider :=
  mkProvider provider version image managed name (capxEnvVars b) (scParameters b) (scProvisioner b) "kube-system".
Definition with_env (env : list string) (b : Provider) : Provider :=
  mkProvider (capxProvider b) (capxVersion b) (capxImageVersion b) (capxManaged b) (capxName b) env
    (scParameters b) (scProvisioner b) (csiNamespace b).
Definition with_sc (p : SCParameters) (provisioner : string) (b : Provider) : Provider :=
  mkProvider (capxProvider b) (capxVersion b) (capxImageVersion b) (capxManaged b) (capxName b) (capxEnvVars b)
    p provisioner (csiNamespace b).

(** ** [setCapx] *)

Definition aws_setCapx (managed : bool) (capx : CAPX) : Provider → Provider :=
  with_capx "aws" (capx_CAPA_Version capx) (capx_CAPA_Image_version capx) managed "capa".
Definition gcp_setCapx (managed : bool) (capx : CAPX) : Provider → Provider :=
  with_capx "gcp" (capx_CAPG_Version capx) (capx_CAPG_Image_version capx) managed "capg".
Definition azure_setCapx (managed : bool) (capx : CAPX) : Provider → Provider :=
  with_capx "azure" (capx_CAPZ_Version capx) (capx_CAPG_Image_version capx) managed "capz".

(** ** [setCapxEnvVars] *)

Definition append_when (b : bool) (s : string) (l : list string) : list string := if b then l ++ [s] else l.
Definition github_env (p : ProviderParams) (l : list string) : list string :=
  append_when (pp_GithubToken p <>s "") ("GITHUB_TOKEN=" +:+ pp_GithubToken p) l.

Definition AWS_B64 : string := "AWS_B64ENCODED_CREDENTIALS=".
Definition GCP_B64 : string := "GCP_B64ENCODED_CREDENTIALS=".

Definition awsCredentials (p : ProviderParams) : string :=
  let c := "[default]" +:+ nl +:+ "aws_access_key_id = " +:+ map_get (pp_Credentials p) "AccessKey" +:+ nl +:+
    "aws_secret_access_key = " +:+ map_get (pp_Credentials p) "SecretKey" +:+ nl +:+ "region = " +:+ pp_Region p +:+ nl in
  if map_get (pp_Credentials p) "RoleARN" <>s ""
  then c +:+ "role_arn = " +:+ map_get (pp_Credentials p) "RoleARN" +:+ nl else c.

Definition aws_setCapxEnvVars (p : ProviderParams) : Provider → Provider :=
  with_env (github_env p
    ["AWS_REGION=" +:+ pp_Region p;
     "AWS_ACCESS_KEY_ID=" +:+ map_get (pp_Credentials p) "AccessKey";
     "AWS_SECRET_ACCESS_KEY=" +:+ map_get (pp_Credentials p) "SecretKey";
     AWS_B64 +:+ EncodeToString (awsCredentials p);
     "CAPA_EKS_IAM=true"]).

(** [url.QueryEscape]. *)
Definition hex_digit (n : Z) : Ascii.ascii := char_of (if n <? 10 then 48 + n else 55 + n).
Definition unreserved (c : Ascii.ascii) : bool :=
  let z := byte_code c in
  in_rng 65 90 z || in_rng 97 122 z || in_rng 48 57 z || (z =? 45) || (z =? 95) || (z =? 46) || (z =? 126).
Fixpoint QueryEscape (s : string) : string :=
  match s with
  | "" => ""
  | String c s =>
      if unreserved c then String c (QueryEscape s)
      else if Ascii.eqb c " " then String "+" (QueryEscape s)
      else String "%" (String (hex_digit (byte_code c / 16)) (String (hex_digit (byte_code c mod 16)) (QueryEscape s)))
  end.

Section gcp_env.
Context `{Texts}.

Definition gcp_account (credentials : gmap string string) : gmap string value :=
  let cred k := VStr (map_get credentials k) in
  {["type" := VStr "service_account"; "project_id" := cred "ProjectID"; "private_key_id" := cred "PrivateKeyID";
    "private_key" := cred "PrivateKey"; "client_email" := cred "ClientEmail"; "client_id" := cred "ClientID";
    "auth_uri" := VStr "https://accounts.google.com/o/oauth2/auth";
    "token_uri" := VStr "https://accounts.google.com/o/oauth2/token";
    "auth_provider_x509_cert_url" := VStr "https://www.googleapis.com/oauth2/v1/certs";
    "client_x509_cert_url" := VStr ("https://www.googleapis.com/robot/v1/metadata/x509/" +:+
      QueryEscape (map_get credentials "ClientEmail"))]}.
Definition gcp_data (p : ProviderParams) : gmap string value := gcp_account (pp_Credentials p).
(** The error of [json.Marshal] is dropped. *)
Definition gcp_json (p : ProviderParams) : string :=
  match json_Marshal (VMap (gcp_data p)) with Ok s => s | _ => "" end.

Definition gcp_setCapxEnvVars (p : ProviderParams) : Provider → Provider :=
  with_env (github_env p
    (append_when (pp_Managed p) "EXP_CAPG_GKE=true"
    (append_when (pp_Managed p) "EXP_MACHINE_POOL=true"
      [GCP_B64 +:+ EncodeToString (gcp_json p)]))).
End gcp_env.

Definition azure_env (name key : string) (p : ProviderParams) : string :=
  name +:+ EncodeToString (map_get (pp_Credentials p) key).
Definition azure_setCapxEnvVars (p : ProviderParams) : Provider → Provider :=
  with_env (github_env p
    (append_when (pp_Managed p) "EXP_MACHINE_POOL=true"
      [azure_env "AZURE_CLIENT_SECRET_B64=" "ClientSecret" p;
       azure_env "AZURE_CLIENT_ID_B64=" "ClientID" p;
       azure_env "AZURE_SUBSCRIPTION_ID_B64=" "SubscriptionID" p;
       azure_env "AZURE_TENANT_ID_B64=" "TenantID" p])).

(** ** [setSC] *)

Definition with_sc_Type (x : string) (p : SCParameters) : SCParameters :=
  mkSCParameters x (scp_FsType p) (scp_Labels p) (scp_AllowAutoIOPSPerGBIncrease p) (scp_BlockExpress p)
    (scp_BlockSize p) (scp_Iops p) (scp_IopsPerGB p) (scp_Encrypted p) (scp_KmsKeyId p) (scp_Throughput p)
    (scp_CachingMode p) (scp_DiskAccessID p) (scp_DiskEncryptionSetID p) (scp_DiskEncryptionType p)
    (scp_EnableBursting p) (scp_EnablePerformancePlus p) (scp_Kind p) (scp_NetworkAccessPolicy p) (scp_Provisioner p)
    (scp_PublicNetworkAccess p) (scp_ResourceGroup p) (scp_SkuName p) (scp_SubscriptionID p) (scp_Tags p)
    (scp_DiskEncryptionKmsKey p) (scp_ProvisionedIopsOnCreate p) (scp_ProvisionedThroughputOnCreate p)
    (scp_ReplicationType p).
Definition with_sc_IopsPerGB (x : string) (p : SCParameters) : SCParameters :=
  mkSCParameters (scp_Type p) (scp_FsType p) (scp_Labels p) (scp_AllowAutoIOPSPerGBIncrease p) (scp_BlockExpress p)
    (scp_BlockSize p) (scp_Iops p) x (scp_Encrypted p) (scp_KmsKeyId p) (scp_Throughput p) (scp_CachingMode p)
    (scp_DiskAccessID p) (scp_DiskEncryptionSetID p) (scp_DiskEncryptionType p) (scp_EnableBursting p)
    (scp_EnablePerformancePlus p) (scp_Kind p) (scp_NetworkAccessPolicy p) (scp_Provisioner p)
    (scp_PublicNetworkAccess p) (scp_ResourceGroup p) (scp_SkuName p) (scp_SubscriptionID p) (scp_Tags p)
    (scp_DiskEncryptionKmsKey p) (scp_ProvisionedIopsOnCreate p) (scp_ProvisionedThroughputOnCreate p)
    (scp_ReplicationType p).
Definition with_sc_Encrypted (x : string) (p : SCParameters) : SCParameters :=
  mkSCParameters (scp_Type p) (scp_FsType p) (scp_Labels p) (scp_AllowAutoIOPSPerGBIncrease p) (scp_BlockExpress p)
    (scp_BlockSize p) (scp_Iops p) (scp_IopsPerGB p) x (scp_KmsKeyId p) (scp_Throughput p) (scp_CachingMode p)
    (scp_DiskAccessID p) (scp_DiskEncryptionSetID p) (scp_DiskEncryptionType p) (scp_EnableBursting p)
    (scp_EnablePerformancePlus p) (scp_Kind p) (scp_NetworkAccessPolicy p) (scp_Provisioner p)
    (scp_PublicNetworkAccess p) (scp_ResourceGroup p) (scp_SkuName p) (scp_SubscriptionID p) (scp_Tags p)
    (scp_DiskEncryptionKmsKey p) (scp_ProvisionedIopsOnCreate p) (scp_ProvisionedThroughputOnCreate p)
    (scp_ReplicationType p).
Definition with_sc_KmsKeyId (x : string) (p : SCParameters) : SCParameters :=
  mkSCParameters (scp_Type p) (scp_FsType p) (scp_Labels p) (scp_AllowAutoIOPSPerGBIncrease p) (scp_BlockExpress p)
    (scp_BlockSize p) (scp_Iops p) (scp_IopsPerGB p) (scp_Encrypted p) x (scp_Throughput p) (scp_CachingMode p)
    (scp_DiskAccessID p) (scp_DiskEncryptionSetID p) (scp_DiskEncryptionType p) (scp_EnableBursting p)
    (scp_EnablePerformancePlus p) (scp_Kind p) (scp_NetworkAccessPolicy p) (scp_Provisioner p)
    (scp_PublicNetworkAccess p) (scp_ResourceGroup p) (scp_SkuName p) (scp_SubscriptionID p) (scp_Tags p)
    (scp_DiskEncryptionKmsKey p) (scp_ProvisionedIopsOnCreate p) (scp_ProvisionedThroughputOnCreate p)
    (scp_ReplicationType p).
Definition with_sc_DiskEncryptionKmsKey (x : string) (p : SCParameters) : SCParameters :=
  mkSCParameters (scp_Type p) (scp_FsType p) (scp_Labels p) (scp_AllowAutoIOPSPerGBIncrease p) (scp_BlockExpress p)
    (scp_BlockSize p) (scp_Iops p) (scp_IopsPerGB p) (scp_Encrypted p) (scp_KmsKeyId p) (scp_Throughput p)
    (scp_CachingMode p) (scp_DiskAccessID p) (scp_DiskEncryptionSetID p) (scp_DiskEncryptionType p)
    (scp_EnableBursting p) (scp_EnablePerformancePlus p) (scp_Kind p) (scp_NetworkAccessPolicy p) (scp_Provisioner p)
    (scp_PublicNetworkAccess p) (scp_ResourceGroup p) (scp_SkuName p) (scp_SubscriptionID p) (scp_Tags p) x
    (scp_ProvisionedIopsOnCreate p) (scp_ProvisionedThroughputOnCreate p) (scp_ReplicationType p).
Definition with_sc_Provisioner (x : string) (p : SCParameters) : SCParameters :=
  mkSCParameters (scp_Type p) (scp_FsType p) (scp_Labels p) (scp_AllowAutoIOPSPerGBIncrease p) (scp_BlockExpress p)
    (scp_BlockSize p) (scp_Iops p) (scp_IopsPerGB p) (scp_Encrypted p) (scp_KmsKeyId p) (scp_Throughput p)
    (scp_CachingMode p) (scp_DiskAccessID p) (scp_DiskEncryptionSetID p) (scp_DiskEncryptionType p)
    (scp_EnableBursting p) (scp_EnablePerformancePlus p) (scp_Kind p) (scp_NetworkAccessPolicy p) x
    (scp_PublicNetworkAccess p) (scp_ResourceGroup p) (scp_SkuName p) (scp_SubscriptionID p) (scp_Tags p)
    (scp_DiskEncryptionKmsKey p) (scp_ProvisionedIopsOnCreate p) (scp_ProvisionedThroughputOnCreate p)
    (scp_ReplicationType p).
Definition with_sc_SkuName (x : string) (p : SCParameters) : SCParameters :=
  mkSCParameters (scp_Type p) (scp_FsType p) (scp_Labels p) (scp_AllowAutoIOPSPerGBIncrease p) (scp_BlockExpress p)
    (scp_BlockSize p) (scp_Iops p) (scp_IopsPerGB p) (scp_Encrypted p) (scp_KmsKeyId p) (scp_Throughput p)
    (scp_CachingMode p) (scp_DiskAccessID p) (scp_DiskEncryptionSetID p) (scp_DiskEncryptionType p)
    (scp_EnableBursting p) (scp_EnablePerformancePlus p) (scp_Kind p) (scp_NetworkAccessPolicy p) (scp_Provisioner p)
    (scp_PublicNetworkAccess p) (scp_ResourceGroup p) x (scp_SubscriptionID p) (scp_Tags p) (scp_DiskEncryptionKmsKey
    p) (scp_ProvisionedIopsOnCreate p) (scp_ProvisionedThroughputOnCreate p) (scp_ReplicationType p).
Definition with_sc_DiskEncryptionSetID (x : string) (p : SCParameters) : SCParameters :=
  mkSCParameters (scp_Type p) (scp_FsType p) (scp_Labels p) (scp_AllowAutoIOPSPerGBIncrease p) (scp_BlockExpress p)
    (scp_BlockSize p) (scp_Iops p) (scp_IopsPerGB p) (scp_Encrypted p) (scp_KmsKeyId p) (scp_Throughput p)
    (scp_CachingMode p) (scp_DiskAccessID p) x (scp_DiskEncryptionType p) (scp_EnableBursting p)
    (scp_EnablePerformancePlus p) (scp_Kind p) (scp_NetworkAccessPolicy p) (scp_Provisioner p)
    (scp_PublicNetworkAccess p) (scp_ResourceGroup p) (scp_SkuName p) (scp_SubscriptionID p) (scp_Tags p)
    (scp_DiskEncryptionKmsKey p) (scp_ProvisionedIopsOnCreate p) (scp_ProvisionedThroughputOnCreate p)
    (scp_ReplicationType p).

(** The parameters of the descriptor, when there are any. *)
Definition given_parameters (p : ProviderParams) (b : Provider) : SCParameters :=
  let given := sc_Parameters (pp_StorageClass p) in
  if bool_decide (given ≠ zero_SCParameters) then given else scParameters b.

Definition aws_setSC (p : ProviderParams) (b : Provider) : Provider :=
  let sc := given_parameters p b in
  let sc := if scp_Type sc =s "" then
      if sc_Class (pp_StorageClass p) =s "premium" then with_sc_IopsPerGB "64000" (with_sc_Type "io2" sc)
      else with_sc_Type "gp3" sc
    else sc in
  let sc := with_sc_Encrypted "true" sc in
  let key := sc_EncryptionKey (pp_StorageClass p) in
  with_sc (if key <>s "" then with_sc_KmsKeyId key sc else sc) "ebs.csi.aws.com" b.

Definition gcp_setSC (p : ProviderParams) (b : Provider) : Provider :=
  let sc := given_parameters p b in
  let sc := if scp_Type sc =s "" then with_sc_Type "pd-ssd" sc else sc in
  let key := sc_EncryptionKey (pp_StorageClass p) in
  with_sc (if key <>s "" then with_sc_DiskEncryptionKmsKey key sc else sc) "pd.csi.storage.gke.io" b.

Definition azure_setSC (p : ProviderParams) (b : Provider) : Provider :=
  let sc := given_parameters p b in
  let '(provisioner, sc) := if scp_Provisioner sc =s "" then ("disk.csi.azure.com", sc)
                            else (scp_Provisioner sc, with_sc_Provisioner "" sc) in
  let sc := if scp_SkuName sc =s "" then
      with_sc_SkuName (if sc_Class (pp_StorageClass p) =s "premium" then "Premium_LRS" else "StandardSSD_LRS") sc
    else sc in
  let key := sc_EncryptionKey (pp_StorageClass p) in
  with_sc (if key <>s "" then with_sc_DiskEncryptionSetID key sc else sc) provisioner b.

(** ** The provider that is built *)

Inductive builder := AWSBuilder | GCPBuilder | AzureBuilder.
#[export] Instance builder_eq_dec : EqDecision builder.
Proof. solve_decision. Defined.

(** [None] is the nil interface. *)
Definition getBuilder (builderType : string) : option builder :=
  if builderType =s "aws" then Some AWSBuilder
  else if builderType =s "gcp" then Some GCPBuilder
  else if builderType =s "azure" then Some AzureBuilder
  else None.

Definition builder_charts (b : builder) : dictionary :=
  match b with AWSBuilder => awsCharts | GCPBuilder => googleCharts | AzureBuilder => azureCharts end.

Section build.
Context `{Texts}.

(** [Infra.buildProvider] on a new builder: the copy that [getProvider] returns has the
    fields that the builder keeps. *)
Definition buildProvider (b : builder) (p : ProviderParams) : Provider :=
  match b with
  | AWSBuilder => aws_setSC p (aws_setCapxEnvVars p (aws_setCapx (pp_Managed p) (pp_Capx p) zero_Provider))
  | GCPBuilder => gcp_setSC p (gcp_setCapxEnvVars p (gcp_setCapx (pp_Managed p) (pp_Capx p) zero_Provider))
  | AzureBuilder => azure_setSC p (azure_setCapxEnvVars p (azure_setCapx (pp_Managed p) (pp_Capx p) zero_Provider))
  end.

(** [strings.Split(p.capxEnvVars[i], name)[1]] *)
Definition env_value (p : Provider) (i : nat) (name : string) : res string :=
  v ← index (capxEnvVars p) i;
  index (Split v name) 1.

(** The flags of the Helm command that installs the cluster operator. *)
Definition operator_secrets (infraProvider : string) (p : Provider) : res string :=
  if infraProvider =s "azure" then
    clientID ← env_value p 1 "AZURE_CLIENT_ID_B64=";
    clientSecret ← env_value p 0 "AZURE_CLIENT_SECRET_B64=";
    subscriptionID ← env_value p 2 "AZURE_SUBSCRIPTION_ID_B64=";
    tenantID ← env_value p 3 "AZURE_TENANT_ID_B64=";
    mret (" --set secrets.azure.clientIDBase64=" +:+ clientID +:+
          " --set secrets.azure.clientSecretBase64=" +:+ clientSecret +:+
          " --set secrets.azure.subscriptionIDBase64=" +:+ subscriptionID +:+
          " --set secrets.azure.tenantIDBase64=" +:+ tenantID)
  else if infraProvider =s "gcp" then
    c ← env_value p 0 GCP_B64; mret (" --set secrets.common.credentialsBase64=" +:+ c)
  else if infraProvider =s "aws" then
    c ← env_value p 3 AWS_B64; mret (" --set secrets.common.credentialsBase64=" +:+ c)
  else mret "".
End build.

(** ** The credentials of the operator *)

Lemma env_value_encoding p i name s l :
  capxEnvVars p = l → l !! i = Some (name +:+ EncodeToString s) → char_in "_" name →
  env_value p i name = Ok (EncodeToString s).
Proof.
  intros Hl Hi Hn. unfold env_value, index. rewrite Hl, Hi. cbn [mbind res_bind].
  by rewrite Split_encoding.
Qed.

Lemma append_when_lookup b s l i x : l !! i = Some x → append_when b s l !! i = Some x.
Proof. intros Hi. destruct b; [|done]. simpl. rewrite lookup_app_l; [done|]. by eapply lookup_lt_Some. Qed.

Lemma underscore s t : char_in "_" (s +:+ String "_" t).
Proof. by exists s, t. Qed.

Lemma azure_setSC_env p b i name : env_value (azure_setSC p b) i name = env_value b i name.
Proof. unfold env_value, azure_setSC. by destruct (scp_Provisioner _ =s ""). Qed.

Ltac env_entry name s :=
  rewrite (env_value_encoding _ _ name s _ eq_refl);
  [|repeat apply append_when_lookup; reflexivity|by repeat (apply char_in_cons; first [by left|right])].

Section credentials.
Context `{Texts}.

(** The account of the descriptor is what is marshalled for GCP. *)
Lemma gcp_account_fields (c : gmap string string) :
  gcp_account c !! "type" = Some (VStr "service_account") ∧
  gcp_account c !! "project_id" = Some (VStr (map_get c "ProjectID")) ∧
  gcp_account c !! "private_key_id" = Some (VStr (map_get c "PrivateKeyID")) ∧
  gcp_account c !! "private_key" = Some (VStr (map_get c "PrivateKey")) ∧
  gcp_account c !! "client_email" = Some (VStr (map_get c "ClientEmail")) ∧
  gcp_account c !! "client_id" = Some (VStr (map_get c "ClientID")) ∧ size (gcp_account c) = 10%nat.
Proof. split_and!; reflexivity. Qed.

Lemma gcp_operator (p : ProviderParams) : operator_secrets "gcp" (buildProvider GCPBuilder p) =
  Ok (" --set secrets.common.credentialsBase64=" +:+ EncodeToString (gcp_json p)).
Proof. unfold operator_secrets. cbn [String.eqb Ascii.eqb Bool.eqb]. by env_entry GCP_B64 (gcp_json p). Qed.

(** C19. The command that installs the cluster operator does not panic on the environment of
    the provider, and what can be decoded from it is: for AWS the file with the access key,
    the secret key, the region and, if one is given, the role; for GCP the JSON of an object
    of ten fields, with the project, the keys and the client that are given; for Azure the
    client, its secret, the subscription and the tenant. *)
Theorem operator_gets_credentials (p : ProviderParams) :
  let cred k := map_get (pp_Credentials p) k in
  (∃ file, operator_secrets "aws" (buildProvider AWSBuilder p) =
     Ok (" --set secrets.common.credentialsBase64=" +:+ EncodeToString file) ∧
   file = Join (["[default]"; "aws_access_key_id = " +:+ cred "AccessKey"; "aws_secret_access_key = " +:+ cred "SecretKey";
                 "region = " +:+ pp_Region p] ++
                (if cred "RoleARN" <>s "" then ["role_arn = " +:+ cred "RoleARN"] else []) ++ [""]) nl ∧
   DecodeString (EncodeToString file) = (file, true)) ∧
  (∃ object : gmap string value,
     object !! "type" = Some (VStr "service_account") ∧ object !! "project_id" = Some (VStr (cred "ProjectID")) ∧
     object !! "private_key_id" = Some (VStr (cred "PrivateKeyID")) ∧ object !! "private_key" = Some (VStr (cred "PrivateKey")) ∧
     object !! "client_email" = Some (VStr (cred "ClientEmail")) ∧ object !! "client_id" = Some (VStr (cred "ClientID")) ∧
     size object = 10%nat ∧
     ∀ json, json_Marshal (VMap object) = Ok json →
       operator_secrets "gcp" (buildProvider GCPBuilder p) =
         Ok (" --set secrets.common.credentialsBase64=" +:+ EncodeToString json) ∧
       DecodeString (EncodeToString json) = (json, true)) ∧
  (operator_secrets "azure" (buildProvider AzureBuilder p) =
     Ok (" --set secrets.azure.clientIDBase64=" +:+ EncodeToString (cred "ClientID") +:+
         " --set secrets.azure.clientSecretBase64=" +:+ EncodeToString (cred "ClientSecret") +:+
         " --set secrets.azure.subscriptionIDBase64=" +:+ EncodeToString (cred "SubscriptionID") +:+
         " --set secrets.azure.tenantIDBase64=" +:+ EncodeToString (cred "TenantID")) ∧
   ∀ k, DecodeString (EncodeToString (cred k)) = (cred k, true)).
Proof.
  intros cred. split_and!; [|..|intros; apply base64_roundtrip].
  - exists (awsCredentials p). split_and!; [| |apply base64_roundtrip].
    + unfold operator_secrets. cbn [String.eqb Ascii.eqb Bool.eqb]. by env_entry AWS_B64 (awsCredentials p).
    + unfold awsCredentials. cbv zeta. fold (cred "RoleARN"). destruct (cred "RoleARN" <>s "");
        cbn [app]; rewrite !Join_cons, !string_app_assoc; change (Join [""] nl) with ""; by rewrite !string_app_nil_r.
  - pose proof (gcp_account_fields (pp_Credentials p)) as (H1 & H2 & H3 & H4 & H5 & H6 & H7).
    exists (gcp_data p). do 7 (split; [done|]). intros json Hj. split; [|apply base64_roundtrip].
    rewrite gcp_operator. unfold gcp_json. by rewrite Hj.
  - unfold operator_secrets, buildProvider. cbn [String.eqb Ascii.eqb Bool.eqb]. rewrite !azure_setSC_env.
    env_entry "AZURE_CLIENT_ID_B64=" (map_get (pp_Credentials p) "ClientID"). cbn [mbind res_bind].
    env_entry "AZURE_CLIENT_SECRET_B64=" (map_get (pp_Credentials p) "ClientSecret"). cbn [mbind res_bind].
    env_entry "AZURE_SUBSCRIPTION_ID_B64=" (map_get (pp_Credentials p) "SubscriptionID"). cbn [mbind res_bind].
    by env_entry "AZURE_TENANT_ID_B64=" (map_get (pp_Credentials p) "TenantID").
Qed.

(** ** The storage class *)

Lemma check_iops_ext a b : sc_Class a = sc_Class b → scp_Type (sc_Parameters a) = scp_Type (sc_Parameters b) →
  scp_IopsPerGB (sc_Parameters a) = scp_IopsPerGB (sc_Parameters b) →
  scp_Iops (sc_Parameters a) = scp_Iops (sc_Parameters b) → check_iops a = check_iops b.
Proof. unfold check_iops, iops_param. by intros -> -> -> ->. Qed.

Lemma premium_default_iops a : sc_Class a = "premium" → scp_Type (sc_Parameters a) = "io2" →
  scp_IopsPerGB (sc_Parameters a) = "64000" → check_iops a = Ok tt.
Proof. unfold check_iops, iops_param. intros -> -> ->. vm_compute. reflexivity. Qed.

Lemma check_no_iops sc : fst (iops_param (sc_Parameters sc)) = "" → check_iops sc = Ok tt.
Proof. unfold check_iops. destruct (iops_param _) as [v k]. simpl. by intros ->. Qed.

(** C30. A storage class that the validation accepts, and that gives no IOPS without a type,
    is installed with a type of AWS, encrypted, with the key that was given, and with
    IOPS within the bounds of the type. *)
Theorem installed_storage_class_valid (p : ProviderParams) :
  let sc := pp_StorageClass p in
  validateAWSStorageClass sc = Ok tt →
  (scp_Type (sc_Parameters sc) ≠ "" ∨ fst (iops_param (sc_Parameters sc)) = "") →
  let installed := scParameters (buildProvider AWSBuilder p) in
  scp_Type installed ∈ AWSVolumes ∧ scp_Encrypted installed = "true" ∧
  (sc_EncryptionKey sc ≠ "" → scp_KmsKeyId installed = sc_EncryptionKey sc) ∧
  check_iops (mkStorageClass (sc_EncryptionKey sc) (sc_Class sc) installed) = Ok tt.
Proof.
  intros sc Hv Hio installed.
  assert (check_iops sc = Ok tt) as Hc.
  { unfold validateAWSStorageClass in Hv. rewrite !bind_unit_Ok in Hv. naive_solver. }
  destruct (validateAWSStorageClass_sound sc Hv) as (Hcl & _ & _ & Hty & _ & _ & _).
  assert (given_parameters p (aws_setCapxEnvVars p (aws_setCapx (pp_Managed p) (pp_Capx p) zero_Provider)) = sc_Parameters sc) as Hg.
  { unfold given_parameters. fold sc. destruct (bool_decide _) eqn:E; [done|].
    apply bool_decide_eq_false_1, dec_stable in E. by rewrite E. }
  unfold installed, buildProvider, aws_setSC. rewrite Hg. fold sc.
  clear Hv Hg. cbn [scParameters with_sc]. destruct (String.eqb_spec (scp_Type (sc_Parameters sc)) "") as [Et|Et].
  - destruct Hio as [?|Hio]; [done|]. destruct (String.eqb_spec (sc_Class sc) "premium") as [Ec|Ec].
    + destruct (String.eqb (sc_EncryptionKey sc) "") eqn:Ek; cbn [negb];
        (split_and!; [apply (bool_decide_eq_true_1 _); reflexivity|reflexivity| |by apply premium_default_iops]).
      * apply String.eqb_eq in Ek. done.
      * reflexivity.
    + destruct (String.eqb (sc_EncryptionKey sc) "") eqn:Ek; cbn [negb];
        (split_and!; [apply (bool_decide_eq_true_1 _); reflexivity|reflexivity| |apply check_no_iops; rewrite <- Hio; unfold iops_param; reflexivity]).
      * apply String.eqb_eq in Ek. done.
      * reflexivity.
  - destruct Hty as [?|Hty]; [done|].
    destruct (String.eqb (sc_EncryptionKey sc) "") eqn:Ek; cbn [negb];
      (split_and!; [exact Hty|reflexivity| |rewrite <- Hc; apply check_iops_ext; cbn; reflexivity]).
    + apply String.eqb_eq in Ek. done.
    + reflexivity.
Qed.
End credentials.

(** IOPS without a type are within no bounds: they are accepted, and installed for a
    type that does not have them. *)
Definition untyped_iops : StorageClass :=
  mkStorageClass "" "" (mkSCParameters "" "" "" "" "" "" "1" "" "" "" 0 "" "" "" "" "" "" "" "" "" "" "" "" "" "" "" "" "" "").
Definition params_of (sc : StorageClass) : ProviderParams :=
  mkProviderParams "demo" "eu-west-1" true
    {["AccessKey" := "AK"; "SecretKey" := "SK"; "Region" := "eu-west-1"; "AccountID" := "1"]} "" sc zero_CAPX.

Lemma untyped_iops_installed_out_of_bounds `{Texts} :
  validateAWSStorageClass untyped_iops = Ok tt ∧
  let installed := scParameters (buildProvider AWSBuilder (params_of untyped_iops)) in
  scp_Type installed = "gp3" ∧ is_Ok (check_iops (mkStorageClass "" "" installed)) = false.
Proof. split; [vm_compute; reflexivity|]. split; vm_compute; reflexivity. Qed.

Definition demo_texts : Texts :=
  {| ExecuteTemplate := λ path _, Ok ("# " +:+ path); embedded := λ path, "# " +:+ path;
     yaml_ClusterConfig := λ _, Ok "kind: ClusterConfig"; yaml_KeosCluster := λ _, Ok "kind: KeosCluster";
     yaml_StorageClass := λ _, Ok "kind: StorageClass"; json_Marshal := λ _, Ok "{}";
     unmarshal_HelmValues := λ _, Ok ∅; yaml_HelmValues := λ _, Ok ""; unmarshal_KeosCluster := λ _, Ok zero_KeosCluster |}.

(** An object of strings, its fields in some order. *)
Definition marshal (v : value) : res string :=
  match v with
  | VMap m => Ok ("{" +:+ Join (map (λ f, Q f.1 +:+ ":" +:+ match f.2 with VStr s => Q s | _ => "null" end) (map_to_list m)) "," +:+ "}")
  | _ => Err "json"
  end.
Definition marshal_texts : Texts :=
  {| ExecuteTemplate := λ path _, Ok ("# " +:+ path); embedded := λ path, "# " +:+ path;
     yaml_ClusterConfig := λ _, Ok "kind: ClusterConfig"; yaml_KeosCluster := λ _, Ok "kind: KeosCluster";
     yaml_StorageClass := λ _, Ok "kind: StorageClass"; json_Marshal := marshal;
     unmarshal_HelmValues := λ _, Ok ∅; yaml_HelmValues := λ _, Ok ""; unmarshal_KeosCluster := λ _, Ok zero_KeosCluster |}.
Lemma operator_gets_credentials_witness :
  let p := mkProviderParams "demo" "europe-west1" true {["ProjectID" := "demo-project"; "PrivateKey" := "key"]} "" zero_StorageClass zero_CAPX in
  ∃ json, operator_secrets "gcp" (@buildProvider marshal_texts GCPBuilder p) =
      Ok (" --set secrets.common.credentialsBase64=" +:+ EncodeToString json) ∧
    DecodeString (EncodeToString json) = (json, true).
Proof.
  intros p. destruct (@operator_gets_credentials marshal_texts p) as (_ & (object & _ & _ & _ & _ & _ & _ & _ & H) & _).
  exists (default "" (match marshal (VMap object) with Ok s => Some s | _ => None end)). apply H. reflexivity.
Defined.

Lemma installed_storage_class_valid_witness :
  validateAWSStorageClass (mkStorageClass "" "premium" zero_SCParameters) = Ok tt ∧
  scp_Type (scParameters (@buildProvider demo_texts AWSBuilder (params_of (mkStorageClass "" "premium" zero_SCParameters)))) ∈ AWSVolumes.
Proof.
  assert (validateAWSStorageClass (mkStorageClass "" "premium" zero_SCParameters) = Ok tt) as Hv by (vm_compute; reflexivity).
  split; [exact Hv|].
  apply (@installed_storage_class_valid demo_texts (params_of (mkStorageClass "" "premium" zero_SCParameters)) Hv).
  right. reflexivity.
Defined.
