(* ===== verification/Clouds.v ===== *)
(** * Queries of the cloud accounts during the installation

    [getRegistryCredentials], [internalNginx] and [getOverrideVars] of the three
    builders (createworker/aws.go, gcp.go, azure.go).  The SDKs are a class of
    operations, over the ones that the validation uses. *)

From S2P Require Import Prelude State GoStr KeosTypes Aws ValidateAzure Base64 Worker Builder.
Local Open Scope Z_scope.
Local Open Scope go_scope.
Local Open Scope stdpp_scope.

Class CloudApis `{AwsSdk} `{AzureSdk} := {
  aws_RetrieveCredentials : AwsConfig → res (string * string * string);
  ecr_GetAuthorizationToken : AwsConfig → res (list (option string));
  GoogleCredentials : Type;
  google_CredentialsFromJSON : string → string → res GoogleCredentials;
  google_Token : GoogleCredentials → res string;
  ComputeService : Type;
  compute_NewService : string → res ComputeService;
  (* whether the subnet has private access to Google *)
  Subnetworks_Get : ComputeService → string → string → string → res bool;
  azure_GetToken : AzCred → string → res string;
  (* URL and form: the status and the decoded body *)
  http_PostForm : string → list (string * string) → res (Z * gmap string hvalue);
  armmsi_NewClientFactory : string → AzCred → res unit;
  UserAssignedIdentities_Get : string → AzCred → string → string → res (option (option string));
  armnetwork_NewClientFactory : string → AzCred → res unit;
  (* the NAT gateway and its identifier, of the properties of the subnet *)
  Subnets_Get : string → AzCred → string → string → string → res (option (option (option string)))
}.

Section clouds.
Context `{CloudApis} `{Texts}.

Definition AzureGetConfig (secrets : gmap string string) : res AzCred :=
  NewClientSecretCredential (map_get secrets "TenantID") (map_get secrets "ClientID") (map_get secrets "ClientSecret").

(** ** Credentials of the registries *)

(** [strings.SplitN(s, ":", 2)[1]] *)
Definition after_colon (s : string) : res string :=
  match snd (split_from ":" 0 s) with
  | [] => Panic "index out of range"
  | l => Ok (Join l ":")
  end.

(** The error of the decoder also names the offset, which is left out. *)
Definition ecr_login (credentials : gmap string string) : res (string * string) :=
  cfg ← AWSGetConfig credentials;
  token ← ecr_GetAuthorizationToken cfg;
  authData ← index token 0;
  authData ← deref authData;
  let '(data, ok) := DecodeString authData in
  fail_when (negb ok) "illegal base64 data" ;;
  registryPass ← after_colon data;
  mret ("AWS", registryPass).
Definition aws_getRegistryCredentials (p : ProviderParams) (u : string) : res (string * string) :=
  ecr_login (pp_Credentials p).

Definition gcp_secrets (b : Provider) : res string :=
  v ← env_value b 0 GCP_B64; mret (fst (DecodeString v)).

Definition gcp_getRegistryCredentials (b : Provider) (p : ProviderParams) (u : string) : res (string * string) :=
  key ← gcp_secrets b;
  creds ← google_CredentialsFromJSON key "https://www.googleapis.com/auth/cloud-platform";
  token ← google_Token creds;
  mret ("oauth2accesstoken", token).

Definition acr_refused : string :=
  "Failed to obtain the ACR token with the provided credentials, please check the roles assigned to the correspondent Azure AD app".

(** [response[k].(string)], which panics on another type. *)
Definition as_string (v : hvalue) : res string := match v with HStr s => Ok s | _ => Panic "interface conversion" end.
Definition hget (m : gmap string hvalue) (k : string) : hvalue := default HNil (m !! k).
Definition not_nil (v : hvalue) : bool := match v with HNil => false | _ => true end.

Definition acr_login (credentials : gmap string string) (u : string) : res (string * string) :=
  cfg ← AzureGetConfig credentials;
  aadToken ← azure_GetToken cfg "https://management.azure.com/.default";
  let acrService := nth 0 (Split u "/") "" in
  '(status, response) ← http_PostForm ("https://" +:+ acrService +:+ "/oauth2/exchange")
    [("grant_type", "access_token"); ("service", acrService); ("tenant", map_get credentials "TenantID");
     ("access_token", aadToken)];
  fail_when (status =? 401) acr_refused ;;
  registryPass ←
    (if not_nil (hget response "access_token") then as_string (hget response "access_token")
     else if not_nil (hget response "refresh_token") then as_string (hget response "refresh_token")
     else Err acr_refused);
  mret ("00000000-0000-0000-0000-000000000000", registryPass).
Definition azure_getRegistryCredentials (p : ProviderParams) (u : string) : res (string * string) :=
  acr_login (pp_Credentials p) u.

Definition getRegistryCredentials (b : builder) (prov : Provider) (p : ProviderParams) (u : string) : res (string * string) :=
  match b with
  | AWSBuilder => aws_getRegistryCredentials p u
  | GCPBuilder => gcp_getRegistryCredentials prov p u
  | AzureBuilder => azure_getRegistryCredentials p u
  end.

(** ** Whether the ingress is internal *)

Fixpoint all_private (is_private : string → res bool) (l : list Subnets) : res bool :=
  match l with
  | [] => Ok true
  | s :: l => b ← is_private (sn_SubnetId s); if (b : bool) then all_private is_private l else Ok false
  end.
Definition if_subnets (networks : Networks) (m : res bool) : res bool :=
  match net_Subnets networks with [] => Ok false | _ => m end.

Definition aws_internalNginx (p : ProviderParams) (networks : Networks) : res bool :=
  cfg ← AWSGetConfig (pp_Credentials p);
  if_subnets networks (all_private (AWSIsPrivateSubnet cfg) (net_Subnets networks)).

Definition GCPFilterPublicSubnet (svc : ComputeService) (projectID region subnetID : string) : res string :=
  private ← Subnetworks_Get svc projectID region subnetID;
  mret (if (private : bool) then "" else subnetID).

(** The error of the query is dropped: the subnet then counts as private. *)
Definition gcp_internalNginx (b : Provider) (p : ProviderParams) (networks : Networks) : res bool :=
  secrets ← gcp_secrets b;
  svc ← compute_NewService secrets;
  if_subnets networks (all_private (λ id,
    match GCPFilterPublicSubnet svc (map_get (pp_Credentials p) "ProjectID") (pp_Region p) id with
    | Ok publicSubnetID => Ok (publicSubnetID =s "")
    | Err _ => Ok true
    | Panic x => Panic x
    end) (net_Subnets networks)).

Definition AzureFilterPublicSubnet (subscription : string) (cfg : AzCred) (resourceGroup VPCID subnetID : string) : res string :=
  properties ← Subnets_Get subscription cfg resourceGroup VPCID subnetID;
  nat ← deref properties;
  match nat with
  | None => mret subnetID
  | Some id => id ← deref id; mret (if Contains id "natGateways" then "" else subnetID)
  end.

Definition azure_internalNginx (p : ProviderParams) (networks : Networks) : res bool :=
  cfg ← AzureGetConfig (pp_Credentials p);
  let subscription := map_get (pp_Credentials p) "SubscriptionID" in
  armnetwork_NewClientFactory subscription cfg ;;
  let resourceGroup := if net_ResourceGroup networks <>s "" then net_ResourceGroup networks else pp_ClusterName p in
  if_subnets networks (all_private (λ id,
    publicSubnetID ← AzureFilterPublicSubnet subscription cfg resourceGroup (net_VPCID networks) id;
    mret (publicSubnetID =s "")) (net_Subnets networks)).

Definition internalNginx (b : builder) (prov : Provider) (p : ProviderParams) (networks : Networks) : res bool :=
  match b with
  | AWSBuilder => aws_internalNginx p networks
  | GCPBuilder => gcp_internalNginx prov p networks
  | AzureBuilder => azure_internalNginx p networks
  end.

(** ** Files that override variables of the installer *)

Definition addOverrideVar (path value : string) (ov : gmap string string) : gmap string string :=
  if (path <>s "") && (value <>s "") then <[path := value]> ov else ov.

Definition aws_getOverrideVars (prov : Provider) (p : ProviderParams) (networks : Networks) (spec : ClusterConfigSpec)
  : res (gmap string string) :=
  requiredInternalNginx ← aws_internalNginx p networks;
  let ov := if (requiredInternalNginx : bool)
      then addOverrideVar "ingress-nginx.yaml" (embedded "files/aws/internal-ingress-nginx.yaml") ∅
    else if pp_Managed p && ccs_EKSLBController spec
      then addOverrideVar "ingress-nginx.yaml" (embedded "files/aws/public-ingress-nginx.yaml") ∅
    else ∅ in
  let ov := if str_in (scp_Type (scParameters prov)) ["io1"; "io2"]
    then addOverrideVar "storage-class.yaml" "storage_class_pvc_size: 4Gi" ov else ov in
  mret (if str_in (scp_Type (scParameters prov)) ["st1"; "sc1"]
    then addOverrideVar "storage-class.yaml" "storage_class_pvc_size: 125Gi" ov else ov).

Definition gcp_getOverrideVars (prov : Provider) (p : ProviderParams) (networks : Networks) : res (gmap string string) :=
  requiredInternalNginx ← gcp_internalNginx prov p networks;
  mret (if (requiredInternalNginx : bool)
    then addOverrideVar "ingress-nginx.yaml" (embedded "files/gcp/internal-ingress-nginx.yaml") ∅ else ∅).

Definition azure_getOverrideVars (p : ProviderParams) (networks : Networks) : res (gmap string string) :=
  requiredInternalNginx ← azure_internalNginx p networks;
  mret (if (requiredInternalNginx : bool)
    then addOverrideVar "ingress-nginx.yaml" (embedded "files/azure/internal-ingress-nginx.yaml") ∅ else ∅).

Definition getOverrideVars (b : builder) (prov : Provider) (p : ProviderParams) (networks : Networks) (spec : ClusterConfigSpec)
  : res (gmap string string) :=
  match b with
  | AWSBuilder => aws_getOverrideVars prov p networks spec
  | GCPBuilder => gcp_getOverrideVars prov p networks
  | AzureBuilder => azure_getOverrideVars p networks
  end.
End clouds.
