(* ===== verification/Install.v ===== *)
(** * Installation steps of the createworker action (createworker/provider.go)

    The functions that run the commands of one step of the installation: cert-manager,
    the cluster operator, Calico, the autoscaler, Flux and its releases, CoreDNS, the
    Cluster API providers in both clusters, and machine health checks. *)

From S2P Require Import Prelude State GoStr Regexp KeosTypes Descriptor Aws ValidateAzure Base64 Commons Oci Worker Charts Builder Clouds.
Local Open Scope Z_scope.
Local Open Scope go_scope.
Local Open Scope stdpp_scope.

(** ** Constants and small helpers *)

Definition kubeconfigPath : string := "/kind/worker-cluster.kubeconfig".
Definition manifestsPath : string := "/kind/manifests".
Definition CAPICoreProvider : string := "cluster-api".
Definition CAPIBootstrapProvider : string := "kubeadm".
Definition CAPIControlPlaneProvider : string := "kubeadm".
Definition scName : string := "keos".
Definition postInstallAnnotation : string := "cluster-autoscaler.kubernetes.io/safe-to-evict-local-volumes".
Definition corednsPdbPath : string := "/kind/coredns_pdb.yaml".
Definition machineHealthCheckWorkerNodePath : string := "/kind/manifests/machinehealthcheckworkernode.yaml".
Definition machineHealthCheckControlPlaneNodePath : string := "/kind/manifests/machinehealthcheckcontrolplane.yaml".
Definition defaultScAnnotation : string := "storageclass.kubernetes.io/is-default-class".


(** [echo '...' > file], [echo "..." > file] *)
Definition echo_to (text file : string) : string := "echo '" +:+ text +:+ "' > " +:+ file.
Definition echo_dq (text file : string) : string := "echo " +:+ dquote +:+ text +:+ dquote +:+ " > " +:+ file.
Definition kubectl (k : string) : string := "kubectl --kubeconfig " +:+ k.

Record KeosRegistry := mkKeosRegistry {
  kreg_url : string; kreg_user : string; kreg_pass : string; kreg_registryType : string; kreg_cache : bool
}.
Definition zero_KeosRegistry : KeosRegistry := mkKeosRegistry "" "" "" "" false.

Record PrivateParams := mkPrivateParams {
  prv_KeosCluster : KeosCluster; prv_KeosRegUrl : string; prv_CentralECR : bool; prv_Private : bool; prv_HelmPrivate : bool
}.
Definition with_KeosRegUrl (u : string) (p : PrivateParams) : PrivateParams :=
  mkPrivateParams (prv_KeosCluster p) u (prv_CentralECR p) (prv_Private p) (prv_HelmPrivate p).
(** [if p.CentralECR { p.KeosRegUrl = GetPrefixedRegistryURL(original, ...) }] *)
Definition behind_cache (original : string) (p : PrivateParams) : string :=
  if prv_CentralECR p then GetPrefixedRegistryURL original (prv_KeosRegUrl p) (prv_CentralECR p) else prv_KeosRegUrl p.
Definition params_of_private (p : PrivateParams) : params :=
  ParamsPrivate (prv_KeosCluster p) (prv_KeosRegUrl p) (prv_CentralECR p) (prv_Private p) (prv_HelmPrivate p).

Record fluxHelmReleaseParams := mkFluxHelmRelease {
  fhr_HelmReleaseName : string; fhr_ChartName : string; fhr_ChartNamespace : string; fhr_ChartRepoRef : string;
  fhr_ChartVersion : string
}.

Section install.
Context `{Host} `{Texts} `{SortSlice} `{ChartRepositories} `{CloudApis}.

Definition manifest (parentPath name mv : string) (p : params) : st world string := pure (getManifest parentPath name mv p).

(** A function on the global map of versions. *)
Definition lift_versions {A} (m : st versions A) : st world A := λ w,
  let '(r, vs) := m (w_versions w) in (r, with_versions vs w).

(** ** Releases of Flux *)

Definition configureHelmRepository (k templatePath : string) (name url scheme : string) (spec : KeosSpec)
  (creds : HelmRegistry) (interval : string) : st world unit :=
  mv ← get w_majorVersion;
  fluxHelmRepository ← st_wrap ("failed to generate " +:+ name +:+ " HelmRepository")
    (manifest "common" templatePath mv (ParamsHelmRepository name url scheme spec creds interval));
  let fluxHelmRepositoryTemplate := "/kind/" +:+ name +:+ "_helmrepository.yaml" in
  exec_ (echo_to fluxHelmRepository fluxHelmRepositoryTemplate) 5 3
    ("failed to create " +:+ name +:+ " Flux HelmRepository file") ;;
  exec_ (kubectl k +:+ " apply -f " +:+ fluxHelmRepositoryTemplate) 5 3
    ("failed to deploy " +:+ name +:+ " Flux HelmRepository").

Definition release_params (p : fluxHelmReleaseParams) (hr : HelmRepository) : params :=
  let keos := fhr_ChartRepoRef p =s "keos" in
  ParamsHelmRelease (fhr_HelmReleaseName p) (fhr_ChartName p) (fhr_ChartNamespace p) (fhr_ChartRepoRef p) (fhr_ChartVersion p)
    (if keos && (hr_ReleaseInterval hr <>s "") then hr_ReleaseInterval hr else "1m")
    (match hr_ReleaseRetries hr with Some n => if keos then n else 3 | None => 3 end)
    (if keos && (hr_ReleaseSourceInterval hr <>s "") then hr_ReleaseSourceInterval hr else "1m").

Definition configureHelmRelease (k templatePath : string) (p : fluxHelmReleaseParams) (hr : HelmRepository) : st world unit :=
  let name := fhr_HelmReleaseName p in
  let ns := fhr_ChartNamespace p in
  let valuesFile := "/kind/" +:+ name +:+ "-helm-values.yaml" in
  exec_ (kubectl kubeconfigPath +:+ " -n " +:+ ns +:+ " create configmap " +:+ "00-" +:+ name +:+
    "-helm-chart-default-values " +:+ "--from-file=values.yaml=" +:+ valuesFile) 5 3
    ("failed to deploy " +:+ name +:+ " HelmRelease default configuration map") ;;
  exec_ (kubectl kubeconfigPath +:+ " -n " +:+ ns +:+ " create configmap " +:+ "02-" +:+ name +:+
    "-helm-chart-override-values " +:+ "--from-literal=values.yaml=" +:+ Q "") 5 3
    ("failed to deploy " +:+ name +:+ " HelmRelease override configmap") ;;
  mv ← get w_majorVersion;
  fluxHelmHelmRelease ← st_wrap ("failed to generate " +:+ name +:+ " HelmHelmRelease")
    (manifest "common" templatePath mv (release_params p hr));
  let fluxHelmHelmReleaseTemplate := "/kind/" +:+ name +:+ "_helmrelease.yaml" in
  exec_ (echo_to fluxHelmHelmRelease fluxHelmHelmReleaseTemplate) 5 3
    ("failed to create " +:+ name +:+ " Flux HelmHelmRelease file") ;;
  exec_ (kubectl k +:+ " apply -f " +:+ fluxHelmHelmReleaseTemplate) 5 3
    ("failed to deploy " +:+ name +:+ " Flux HelmHelmRelease") ;;
  exec_ (kubectl kubeconfigPath +:+ " -n " +:+ ns +:+ " get helmrelease/" +:+ name) 1 2
    ("failed to wait for " +:+ name +:+ " HelmRelease to be created") ;;
  exec_ (kubectl kubeconfigPath +:+ " -n " +:+ ns +:+ " wait helmrelease/" +:+ name +:+
    " --for=condition=ready --timeout=5m") 5 3
    ("failed to wait for " +:+ name +:+ " HelmRelease to become ready").

(** The repositories of the charts; the scheme stays [oci] after a chart that has it. *)
Fixpoint flux_repositories (k : string) (spec : KeosSpec) (creds : HelmRegistry) (interval scheme : string)
  (l : list (string * ChartEntry)) : st world unit :=
  match l with
  | [] => mret tt
  | (name, entry) :: l =>
      if ce_Repository entry <>s "default" then
        let scheme := if HasPrefix (ce_Repository entry) "oci://" then "oci" else scheme in
        configureHelmRepository k "flux2_helmrepository.tmpl" name (ce_Repository entry) scheme spec creds interval ;;
        flux_repositories k spec creds interval scheme l
      else flux_repositories k spec creds interval scheme l
  end.

Definition configureFlux (k : string) (pp : PrivateParams) (creds : HelmRegistry) (spec : KeosSpec)
  (chartsList : gmap string ChartEntry) : st world unit :=
  let fluxTemplate := "/kind/flux-helm-values.yaml" in
  mv ← get w_majorVersion;
  fluxHelmValues ← st_wrap "failed to generate flux helm values"
    (manifest "common" "flux2-helm-values.tmpl" mv (ParamsCommonHelm (behind_cache "ghcr.io" pp) (prv_Private pp) false));
  exec_ (echo_to fluxHelmValues fluxTemplate) 5 3 "failed to create Flux Helm chart values file" ;;
  exec_ ("helm install flux /stratio/helm/flux2" +:+ " --kubeconfig " +:+ k +:+ " --namespace kube-system" +:+
    " --create-namespace" +:+ " --values " +:+ fluxTemplate) 5 3 "failed to deploy Flux Helm Chart" ;;
  let keosChartRepoScheme := if HasPrefix (hreg_URL creds) "oci://" then "oci" else "default" in
  let interval := if hr_RepositoryInterval (ks_HelmRepository spec) <>s ""
                  then hr_RepositoryInterval (ks_HelmRepository spec) else "10m" in
  configureHelmRepository k "flux2_helmrepository.tmpl" "keos" (hreg_URL creds) keosChartRepoScheme spec creds interval ;;
  st_when (negb (prv_HelmPrivate pp))
    (l ← get (λ w, range_order (w_log w) chartsList);
     flux_repositories k spec creds interval "default" l).

Definition reconcile_chart (k : string) (pp : PrivateParams) (spec : KeosSpec) (x : string * ChartEntry) : st world unit :=
  let '(name, entry) := x in
  let ref := if negb (prv_HelmPrivate pp) && (ce_Repository entry <>s "default") then name else "keos" in
  st_when (ce_Reconcile entry)
    (configureHelmRelease k "flux2_helmrelease.tmpl"
       (mkFluxHelmRelease (if name =s "flux2" then "flux" else name) name (ce_Namespace entry) ref (ce_Version entry))
       (ks_HelmRepository spec)).

Definition reconcileCharts (k : string) (pp : PrivateParams) (spec : KeosSpec) (chartsList : gmap string ChartEntry) : st world unit :=
  l ← get (λ w, range_order (w_log w) chartsList);
  st_each (reconcile_chart k pp spec) l.

(** ** Cert-manager, Calico and the autoscaler *)

Definition deployCertManager (keosRegistryUrl kubeconfig : string) (pp : PrivateParams) : st world unit :=
  let certManagerValuesFile := "/kind/cert-manager-helm-values.yaml" in
  let regUrl := if prv_CentralECR pp then behind_cache "quay.io" pp else keosRegistryUrl in
  mv ← get w_majorVersion;
  values ← st_wrap "failed to generate cert-manager helm values"
    (manifest "common" "cert-manager-helm-values.tmpl" mv (ParamsCommonHelm regUrl (prv_Private pp) (prv_CentralECR pp)));
  exec_ (echo_to values certManagerValuesFile) 5 3 "failed to create cert-manager Helm chart values file" ;;
  let c := "helm install --wait cert-manager /stratio/helm/cert-manager" +:+ " --namespace=cert-manager" +:+
    " --create-namespace" +:+ " --values " +:+ certManagerValuesFile in
  exec_ (if kubeconfig <>s "" then c +:+ " --kubeconfig " +:+ kubeconfig else c) 5 3 "failed to deploy cert-manager Helm Chart".

Definition installCalico (k : string) (pp : PrivateParams) (isNetPolEngine dryRun : bool) : st world unit :=
  let calicoTemplate := "/kind/tigera-operator-helm-values.yaml" in
  mv ← get w_majorVersion;
  calicoHelmValues ← st_wrap "failed to generate calico helm values"
    (manifest "common" "tigera-operator-helm-values.tmpl" mv
       (ParamsCalico (kc_Spec (prv_KeosCluster pp))
          (GetPrefixedRegistryURL "docker.io" (prv_KeosRegUrl pp) (prv_CentralECR pp))
          (GetPrefixedRegistryURL "quay.io" (prv_KeosRegUrl pp) (prv_CentralECR pp))
          (prv_Private pp) isNetPolEngine [(postInstallAnnotation, "var-lib-calico")]));
  exec_ (echo_to calicoHelmValues calicoTemplate) 5 3 "failed to create Calico Helm chart values file" ;;
  st_when (negb dryRun)
    (exec_ ("helm install tigera-operator /stratio/helm/tigera-operator" +:+ " --kubeconfig " +:+ k +:+
       " --namespace tigera-operator" +:+ " --create-namespace" +:+ " --values " +:+ calicoTemplate) 5 3
       "failed to deploy Calico Helm Chart" ;;
     exec_ (kubectl kubeconfigPath +:+ " get ns tigera-operator") 20 5 "failed to wait for tigera-operator namespace" ;;
     node_run ["kubectl"; "--kubeconfig"; k; "apply"; "-n"; "tigera-operator"; "-f"; "-"]
       (embedded "files/common/calico-metrics.yaml") "failed to create calico metrics services").

Definition chart_entry (chartsList : gmap string ChartEntry) (name : string) : ChartEntry :=
  default zero_ChartEntry (chartsList !! name).

Definition deployClusterAutoscaler (chartsList : gmap string ChartEntry) (pp : PrivateParams)
  (capiClustersNamespace : string) (moveManagement : bool) : st world unit :=
  let helmValuesCAFile := "/kind/cluster-autoscaler-helm-values.yaml" in
  let entry := chart_entry chartsList "cluster-autoscaler" in
  let ref := if negb (prv_HelmPrivate pp) then "cluster-autoscaler" else "keos" in
  let pp' := with_KeosRegUrl (behind_cache "registry.k8s.io" pp) pp in
  mv ← get w_majorVersion;
  helmValuesCA ← st_wrap "failed to get CA helm values"
    (manifest "common" "cluster-autoscaler-helm-values.tmpl" mv (params_of_private pp'));
  exec_ (echo_to helmValuesCA helmValuesCAFile) 5 3 "failed to create CA helm values file" ;;
  configureHelmRelease kubeconfigPath "flux2_helmrelease.tmpl"
    (mkFluxHelmRelease "cluster-autoscaler" "cluster-autoscaler" (ce_Namespace entry) ref (ce_Version entry))
    (ks_HelmRepository (kc_Spec (prv_KeosCluster pp))) ;;
  st_when (negb moveManagement)
    (let autoscalerRBACPath := "/kind/autoscaler_rbac.yaml" in
     autoscalerRBAC ← st_wrap "failed to get CA RBAC file"
       (manifest "common" "autoscaler_rbac.tmpl" "" (ParamsKeosCluster (prv_KeosCluster pp)));
     exec_ (echo_to autoscalerRBAC autoscalerRBACPath) 5 3 "failed to create CA RBAC file" ;;
     exec_ (kubectl kubeconfigPath +:+ " create ns " +:+ capiClustersNamespace) 5 3 "failed to create manifests Namespace" ;;
     exec_ (kubectl kubeconfigPath +:+ " apply -f " +:+ autoscalerRBACPath) 5 3 "failed to apply CA RBAC").

(** ** CoreDNS *)

Definition customCoreDNS (keosCluster : KeosCluster) : st world unit :=
  let spec := kc_Spec keosCluster in
  let aks := (ks_InfraProvider spec =s "azure") && cp_Managed (ks_ControlPlane spec) in
  let coreDNSPatchFile := if aks then "coredns-custom" else "coredns" in
  let coreDNSTemplate := "/kind/coredns-configmap.yaml" in
  let coreDNSSuffix := if aks then "-aks" else "" in
  coreDNSConfigmap ← st_wrap "failed to get CoreDNS file"
    (manifest (ks_InfraProvider spec) ("coredns_configmap" +:+ coreDNSSuffix +:+ ".tmpl") "" (ParamsKeosSpec spec));
  exec_ (echo_to coreDNSConfigmap coreDNSTemplate) 5 3 "failed to create CoreDNS configmap file" ;;
  exec_ (kubectl kubeconfigPath +:+ " -n kube-system patch cm " +:+ coreDNSPatchFile +:+ " --patch-file " +:+ coreDNSTemplate)
    5 3 "failed to customize coreDNS patching ConfigMap" ;;
  exec_ (kubectl kubeconfigPath +:+ " -n kube-system rollout restart deploy coredns") 5 3 "failed to redeploy coreDNS" ;;
  exec_ (kubectl kubeconfigPath +:+ " -n kube-system rollout status deploy coredns --timeout=3m") 5 3
    "failed to wait for the customatization of CoreDNS configmap".

Definition installCorednsPdb : st world unit :=
  corednsPDB ← pure (errors_Wrap "error opening the PodDisruptionBudget file" (read_file "files/common/coredns_pdb.yaml"));
  exec_ (echo_dq corednsPDB corednsPdbPath) 5 3 "failed to create coredns PodDisruptionBudget file" ;;
  exec_ (kubectl kubeconfigPath +:+ " apply -f " +:+ corednsPdbPath) 5 3 "failed to apply coredns PodDisruptionBudget".

Definition rolloutStatus (k ns deployName : string) : st world unit :=
  exec_plain (kubectl k +:+ " rollout status deploy -n " +:+ ns +:+ " " +:+ deployName +:+ " --timeout=5m") 5 3.

Definition patchDeploy (k ns deployName patch : string) : st world unit :=
  exec_plain (kubectl k +:+ " patch deploy -n " +:+ ns +:+ " " +:+ deployName +:+ " -p '" +:+ patch +:+ "'") 5 3 ;;
  rolloutStatus k ns deployName.

(** ** Cluster API *)

Definition capiDeployments : list (string * string) :=
  [("capi-controller-manager", "capi-system");
   ("capi-kubeadm-control-plane-controller-manager", "capi-kubeadm-control-plane-system");
   ("capi-kubeadm-bootstrap-controller-manager", "capi-kubeadm-bootstrap-system")].

Definition allowedNamePattern : regex :=
  RSeq [RLit "capi-kubeadm-"; RAny [RLit "control-plane"; RLit "bootstrap"]; RLit "-controller-manager"].
(** [!p.capxManaged || (p.capxManaged && !allowedNamePattern.MatchString(name))] *)
Definition runs_on (p : Provider) (name : string) : bool :=
  negb (capxManaged p) || (capxManaged p && negb (MatchString allowedNamePattern name)).

Definition clusterctl_init (pre : string) (capx : CAPX) (p : Provider) : string :=
  pre +:+ " init --wait-providers" +:+
  " --core " +:+ CAPICoreProvider +:+ ":" +:+ capx_CAPI_Version capx +:+
  " --bootstrap " +:+ CAPIBootstrapProvider +:+ ":" +:+ capx_CAPI_Version capx +:+
  " --control-plane " +:+ CAPIControlPlaneProvider +:+ ":" +:+ capx_CAPI_Version capx +:+
  " --infrastructure " +:+ capxProvider p +:+ ":" +:+ capxVersion p.
Definition exec_env_ (c : string) (timeout retries : nat) (env : list string) (message : string) : st world unit :=
  _ ← st_wrap message (exec_env c timeout retries env); mret tt.

(** The errors of the decoding are dropped. *)
Definition azure_client_secret (p : Provider) : st world string :=
  v ← pure (env_value p 0 "AZURE_CLIENT_SECRET_B64="); mret (fst (DecodeString v)).

Definition resource_quota (kubeconfig : string) (d : string * string) : st world unit :=
  mv ← get w_majorVersion;
  resourceQuota ← st_wrap "failed to get ResourceQuota template"
    (manifest "gcp" "resourcequota.tmpl" mv (ParamsDeploy (fst d) (snd d)));
  exec_ (echo_to resourceQuota "/kind/resourceQuota.yaml") 5 3 "failed to save ResourceQuota manifest" ;;
  exec_ (kubectl kubeconfig +:+ " apply -f " +:+ "/kind/resourceQuota.yaml") 5 3 "failed to apply ResourceQuota manifest".

Definition capx_ns (p : Provider) : string := capxName p +:+ "-system".
Definition capx_deploy (p : Provider) : string := capxName p +:+ "-controller-manager".

Definition installCAPXWorker (p : Provider) (keosCluster : KeosCluster) (clusterConfig : ClusterConfig) (kubeconfig : string) : st world unit :=
  let k := kubectl kubeconfig in
  st_when (capxProvider p =s "azure")
    (exec_ (k +:+ " create namespace " +:+ capxName p +:+ "-system") 5 3 "failed to create CAPx namespace" ;;
     clientSecret ← azure_client_secret p;
     exec_ (k +:+ " -n " +:+ capx_ns p +:+ " create secret generic cluster-identity-secret --from-literal=clientSecret='" +:+
       clientSecret +:+ "'") 5 3 "failed to create CAPx secret") ;;
  exec_env_ (clusterctl_init ("clusterctl --kubeconfig " +:+ kubeconfig) (ccs_Capx (cc_Spec clusterConfig)) p) 5 3 (capxEnvVars p)
    "failed to install CAPX in workload cluster" ;;
  st_when ((capxProvider p =s "gcp") && capxManaged p)
    (st_each (resource_quota kubeconfig) [("capi", "capi-system"); (capxName p, capx_ns p)]) ;;
  priorityClassName ← st_wrap ("failed to get priorityClass for " +:+ capx_deploy p)
    (exec (k +:+ " -n " +:+ capx_ns p +:+ " get deploy " +:+ capx_deploy p +:+ " -o jsonpath='{.spec.template.spec.priorityClassName}'") 5 3);
  st_when (priorityClassName <>s "system-node-critical")
    (exec_ (k +:+ " -n " +:+ capx_ns p +:+ " patch deploy " +:+ capx_deploy p +:+
       js " -p '{`spec`: {`template`: {`spec`: {`priorityClassName`: `system-node-critical`}}}}' --type=merge") 5 3
       ("failed to assigned priorityClass to " +:+ capx_deploy p) ;;
     exec_ (k +:+ " -n " +:+ capx_ns p +:+ " rollout status deploy " +:+ capx_deploy p +:+ " --timeout 60s") 30 3
       ("failed to check rollout status for " +:+ capx_deploy p)) ;;
  exec_ (k +:+ " -n " +:+ capx_ns p +:+ " scale --replicas 2 deploy " +:+ capx_deploy p) 5 3 "failed to scale CAPX in workload cluster" ;;
  exec_ (k +:+ " -n " +:+ capx_ns p +:+ " rollout status deploy " +:+ capx_deploy p +:+ " --timeout 60s") 5 3
    ("failed to check rollout status for " +:+ capx_deploy p) ;;
  capxPDB ← st_wrap "failed to get PodDisruptionBudget file"
    (manifest "common" "capx_pdb.tmpl" "" (ParamsKeosSpec (kc_Spec keosCluster)));
  exec_ (echo_to capxPDB "/kind/capi_pdb.yaml") 5 3 "failed to create PodDisruptionBudget file" ;;
  exec_ (k +:+ " apply -f " +:+ "/kind/capi_pdb.yaml") 5 3 ("failed to apply " +:+ capxName p +:+ " PodDisruptionBudget").

Definition priority_class (p : Provider) (k : string) (d : string * string) : st world unit :=
  let '(name, namespace) := d in
  st_when (runs_on p name)
    (exec_ (k +:+ " -n " +:+ namespace +:+ " patch deploy " +:+ name +:+
       js " -p '{`spec`: {`template`: {`spec`: {`priorityClassName`: `system-node-critical`}}}}' --type=merge") 5 3
       ("failed to assigned priorityClass to " +:+ name)).
Definition scale_kubeadm (replicas : Z) (k : string) (d : string * string) : st world unit :=
  let '(name, namespace) := d in
  st_when (name <>s "capi-controller-manager")
    (exec_ (k +:+ " -n " +:+ namespace +:+ " scale --replicas " +:+ Itoa replicas +:+ " deploy " +:+ name) 5 3
       ("failed to scale the " +:+ name +:+ " deployment") ;;
     exec_ (k +:+ " -n " +:+ namespace +:+ " rollout status deploy " +:+ name +:+ " --timeout 60s") 5 3
       ("failed to check rollout status for " +:+ name)).

(** The second of the two scale commands stands where the rollout status is meant. *)
Definition configCAPIWorker (p : Provider) (keosCluster : KeosCluster) (kubeconfig : string) : st world unit :=
  let k := kubectl kubeconfig in
  let capiKubeadmReplicas := if capxManaged p then 0 else 2 in
  st_each (priority_class p k) capiDeployments ;;
  let c := k +:+ " -n capi-system scale deploy capi-controller-manager --replicas 2" in
  exec_ c 5 3 "failed to scale the CAPI Deployment" ;;
  exec_ c 5 3 "failed to check rollout status for capi-controller-manager" ;;
  st_each (scale_kubeadm capiKubeadmReplicas k) capiDeployments ;;
  capiPDB ← st_wrap "failed to get PodDisruptionBudget file"
    (manifest "common" "capi_pdb.tmpl" "" (ParamsKeosSpec (kc_Spec keosCluster)));
  exec_ (echo_to capiPDB "/kind/capi_pdb.yaml") 5 3 "failed to create PodDisruptionBudget file" ;;
  exec_ (k +:+ " apply -f " +:+ "/kind/capi_pdb.yaml") 5 3 ("failed to apply " +:+ capxName p +:+ " PodDisruptionBudget").

Definition session_credentials (access secret token : string) : string :=
  EncodeToString ("[default]" +:+ nl +:+ "aws_access_key_id=" +:+ access +:+ nl +:+ "aws_secret_access_key=" +:+ secret +:+ nl +:+
    "aws_session_token=" +:+ token +:+ nl).

Definition installCAPXLocal (p : Provider) (clusterConfig : ClusterConfig) (pp : ProviderParams) : st world unit :=
  st_when (capxProvider p =s "azure")
    (exec_ ("kubectl create namespace " +:+ capxName p +:+ "-system") 5 3 "failed to create CAPx namespace" ;;
     clientSecret ← azure_client_secret p;
     exec_ ("kubectl -n " +:+ capx_ns p +:+ " create secret generic cluster-identity-secret --from-literal=clientSecret='" +:+
       clientSecret +:+ "' ") 5 3 "failed to create CAPx secret") ;;
  exec_env_ (clusterctl_init "clusterctl" (ccs_Capx (cc_Spec clusterConfig)) p) 5 3 (capxEnvVars p)
    "failed to install CAPX in local cluster" ;;
  st_when ((capxProvider p =s "aws") && (map_get (pp_Credentials pp) "RoleARN" <>s ""))
    (cfg ← pure (AWSGetConfig (pp_Credentials pp));
     '(access, secret, token) ← pure (errors_Wrap "failed to retrieve new credentials" (aws_RetrieveCredentials cfg));
     exec_ (js "kubectl -n capa-system patch secret capa-manager-bootstrap-credentials -p '{`data`:{`credentials`:`" +:+
       session_credentials access secret token +:+ js "`}}'") 5 3
       "failed to update capa-manager-bootstrap-credentials secret" ;;
     exec_ "kubectl -n capa-system rollout restart deployment capa-controller-manager" 5 3
       "failed to restart capa-controller-manager").

(** ** Machine health checks *)

Definition machineHealthCheck (clusterID namespace machineRole maxUnhealthy : string) : string :=
  nl +:+ "apiVersion: cluster.x-k8s.io/v1beta2" +:+ nl +:+ "kind: MachineHealthCheck" +:+ nl +:+ "metadata:" +:+ nl +:+
  "  name: " +:+ clusterID +:+ machineRole +:+ "-unhealthy" +:+ nl +:+ "  namespace: " +:+ namespace +:+ nl +:+
  "spec:" +:+ nl +:+ "  clusterName: " +:+ clusterID +:+ nl +:+ "  selector:" +:+ nl +:+ "    matchLabels:" +:+ nl +:+
  "      keos.stratio.com/machine-role: " +:+ clusterID +:+ machineRole +:+ nl +:+ "  checks:" +:+ nl +:+
  "    nodeStartupTimeoutSeconds: 300" +:+ nl +:+ "    unhealthyNodeConditions:" +:+ nl +:+
  "      - type: Ready" +:+ nl +:+ "        status: Unknown" +:+ nl +:+ "        timeoutSeconds: 180" +:+ nl +:+
  "      - type: Ready" +:+ nl +:+ "        status: 'False'" +:+ nl +:+ "        timeoutSeconds: 180" +:+ nl +:+
  "  remediation:" +:+ nl +:+ "    triggerIf:" +:+ nl +:+ "      unhealthyLessThanOrEqualTo: " +:+ maxUnhealthy.

Definition generateMHCManifest (clusterID namespace manifestPath machineRole : string) (maxunhealthy : Z) : st world unit :=
  exec_ (echo_dq (machineHealthCheck clusterID namespace machineRole (Itoa maxunhealthy +:+ "%")) manifestPath) 5 3
    "failed to write the MachineHealthCheck manifest".

Definition apply_mhc (clusterID namespace path machineRole : string) (maxunhealthy : Z) : st world unit :=
  st_wrap "failed to create the MachineHealthCheck manifest"
    (generateMHCManifest clusterID namespace path machineRole maxunhealthy) ;;
  exec_ ("kubectl -n " +:+ namespace +:+ " apply -f " +:+ path) 5 3 "failed to apply the MachineHealthCheck manifest".

Definition enableSelfHealing (keosCluster : KeosCluster) (namespace : string) (clusterConfig : option ClusterConfig) : st world unit :=
  let name := md_Name (kc_Metadata keosCluster) in
  st_when (negb (cp_Managed (ks_ControlPlane (kc_Spec keosCluster))))
    (apply_mhc name namespace machineHealthCheckControlPlaneNodePath "-control-plane-node"
       (default 34 (clusterConfig ≫= λ c, cpc_MaxUnhealthy (ccs_ControlplaneConfig (cc_Spec c))))) ;;
  apply_mhc name namespace machineHealthCheckWorkerNodePath "-worker-node"
    (default 34 (clusterConfig ≫= λ c, wc_MaxUnhealthy (ccs_WorkersConfig (cc_Spec c)))).
End install.
