(* ===== verification/Operator.v ===== *)
(** * The Helm repository and the cluster operator (createworker/provider.go)

    [loginHelmRepo] and [deployClusterOperator]. *)

From S2P Require Import Prelude State GoStr KeosTypes Descriptor Aws ValidateAzure Base64 Commons Oci Worker Charts Builder Clouds Install.
Local Open Scope Z_scope.
Local Open Scope go_scope.
Local Open Scope stdpp_scope.

Section operator.
Context `{Host} `{Texts} `{SortSlice} `{ChartRepositories} `{CloudApis}.

(** ** Logging in *)

(** [strings.Split(strings.Split(url, "//")[1], "/")[0]] *)
Definition url_host (url : string) : res string :=
  rest ← index (Split url "//") 1; index (Split rest "/") 0.

Definition loginHelmRepo (keosCluster : KeosCluster) (cc : ClusterCredentials) (b : builder) (prov : Provider)
  (pp : ProviderParams) : st world HelmRegistry :=
  let hr := ks_HelmRepository (kc_Spec keosCluster) in
  '(user, pass) ←
    (if hr_Type hr <>s "generic" then
       urlLogin ← pure (url_host (hr_URL hr));
       st_wrap "failed to get helm registry credentials" (pure (getRegistryCredentials b prov pp urlLogin))
     else mret (map_get (clc_HelmRepositoryCredentials cc) "User", map_get (clc_HelmRepositoryCredentials cc) "Pass"));
  let creds := mkHelmRegistry (hr_URL hr) user pass (hr_Type hr) in
  (if HasPrefix (hr_URL hr) "oci://" then
     modify (with_helm_repo (hr_URL hr)) ;;
     urlLogin ← pure (url_host (hr_URL hr));
     exec_ ("helm registry login " +:+ urlLogin +:+ " --username " +:+ user +:+ " --password " +:+ pass) 5 3
       ("failed to add and authenticate to helm repository: " +:+ hr_URL hr)
   else if hr_AuthRequired hr then
     modify (with_helm_repo "stratio-helm-repo") ;;
     exec_ ("helm repo add stratio-helm-repo " +:+ hr_URL hr +:+ " --username " +:+ user +:+ " --password " +:+ pass) 5 3
       "failed to add and authenticate to helm repository: "
   else
     modify (with_helm_repo "stratio-helm-repo") ;;
     exec_ ("helm repo add stratio-helm-repo " +:+ hr_URL hr) 5 3 ("failed to add helm repository: " +:+ hr_URL hr)) ;;
  mret creds.

(** ** The descriptor that the operator gets *)

Definition clean_ControlPlane (infra : string) (c : ControlPlane) : ControlPlane :=
  mkControlPlane (cp_Managed c) (cp_NodeImage c)
    (if cp_Managed c then None else cp_HighlyAvailable c) (cp_Size c) (cp_RootVolume c) (cp_Tags c)
    (if (infra <>s "aws") || ((infra =s "aws") && negb (cp_Managed c)) then zero_AWSCP else cp_AWS c)
    (if (infra <>s "azure") || ((infra =s "azure") && negb (cp_Managed c)) then zero_AzureCP else cp_Azure c)
    (if negb ((infra =s "gcp") && cp_Managed c) then zero_GCPCP else cp_Gcp c)
    (cp_CRIVolume c) (cp_ETCDVolume c) (cp_ExtraVolumes c).

Definition clean_KeosSpec (s : KeosSpec) (configName : string) : KeosSpec :=
  mkKeosSpec (ks_DeployAutoscaler s) (ks_Bastion s) zero_StorageClass zero_Credentials (ks_InfraProvider s) (ks_K8SVersion s)
    (ks_Region s) (ks_Networks s) (ks_Dns s) (ks_DockerRegistries s) (ks_HelmRepository s) (ks_ExternalDomain s)
    (mkSecurity (sec_ControlPlaneIdentity (ks_Security s)) (sec_NodesIdentity (ks_Security s)) zero_SecurityAWS
       (sec_GCP (ks_Security s)) (sec_EnableSecureBoot (ks_Security s)))
    zero_Keos (clean_ControlPlane (ks_InfraProvider s) (ks_ControlPlane s)) (ks_WorkerNodes s) (mkClusterConfigRef configName)
    (ks_Calico s).

Definition clean_KeosCluster (kc : KeosCluster) (configName : string) : KeosCluster :=
  mkKeosCluster (kc_APIVersion kc) (kc_Kind kc) (kc_Metadata kc) (clean_KeosSpec (kc_Spec kc) configName).

(** ** The values of the Helm release *)

(** [v.(map[string]interface{})] *)
Definition as_map (v : hvalue) : res (gmap string hvalue) :=
  match v with HMap m => Ok m | _ => Panic "interface conversion" end.

(** Two replicas and no image pull secrets.  [appValues, _ :=] gives a nil map when
    [app] is no map, and assigning to it panics. *)
Definition update_values (m : gmap string hvalue) : res (gmap string hvalue) :=
  app ← match hget m "app" with HMap a => Ok a | _ => Panic "assignment to entry in nil map" end;
  let app := <["replicas" := HInt 2]> app in
  containers ← as_map (hget app "containers");
  controllerManager ← as_map (hget containers "controllerManager");
  imagePullSecrets ← as_map (hget controllerManager "imagePullSecrets");
  let imagePullSecrets := <["enabled" := HBool false]> imagePullSecrets in
  let controllerManager := <["imagePullSecrets" := HMap imagePullSecrets]> controllerManager in
  let containers := <["controllerManager" := HMap controllerManager]> containers in
  let app := <["containers" := HMap containers]> app in
  mret (<["app" := HMap app]> m).

(** ** Deployment *)

Definition set_operator_version (v : string) (s : ClusterConfigSpec) : ClusterConfigSpec :=
  mkClusterConfigSpec (ccs_EKSLBController s) (ccs_Private s) (ccs_ControlplaneConfig s) (ccs_WorkersConfig s)
    v (ccs_ClusterOperatorImageVersion s) (ccs_PrivateHelmRepo s) (ccs_Charts s) (ccs_Capx s) (ccs_GitOpsEnabled s).

(** The version of the chart, which a configuration without one then keeps, and the
    version of the image. *)
Definition operator_version (creds : HelmRegistry) : st world (string * string) :=
  cfg ← get w_config;
  match cfg with
  | None => mret ("", "")
  | Some c =>
      chartVersion ←
        (if ccs_ClusterOperatorVersion (cc_Spec c) <>s "" then mret (ccs_ClusterOperatorVersion (cc_Spec c))
         else
           order ← get (λ w, pattern_order (w_log w));
           v ← st_wrap "failed to get the last chart version" (lift_versions (getLastChartVersion order creds));
           set_config_spec (set_operator_version v) ;;
           mret v);
      mret (chartVersion, ccs_ClusterOperatorImageVersion (cc_Spec c))
  end.

Definition aws_config_files (region : string) (credentials : gmap string string) : st world unit :=
  exec_ "mkdir -p ~/.aws" 5 3 "failed to create aws config file" ;;
  exec_ ("echo [default] > ~/.aws/config && " +:+ "echo region = " +:+ region +:+ " >>  ~/.aws/config") 5 3
    "failed to create aws config file" ;;
  exec_ ("echo '" +:+ "[default]" +:+ nl +:+ "aws_access_key_id = " +:+ map_get credentials "AccessKey" +:+ nl +:+
    "aws_secret_access_key = " +:+ map_get credentials "SecretKey" +:+ nl +:+ "' > ~/.aws/credentials") 5 3
    "failed to create aws credentials file".

(** [validateRegistryCredentials] starts from an empty list that is not nil and returns what
    it appended, so that the test for nil always holds and is left out. *)
Definition registries_secret (credentials : list (gmap string value)) (kubeconfig : string) : st world unit :=
  json ← st_wrap "failed to marshal docker registries credentials" (pure (json_Marshal (VList (VMap <$> credentials))));
  let c := "kubectl -n kube-system create secret generic keoscluster-registries --from-literal=credentials='" +:+ json +:+ "'" in
  exec_ (if kubeconfig <>s "" then c +:+ " --kubeconfig " +:+ kubeconfig else c) 5 3
    "failed to create keoscluster-registries secret".

(** In the local cluster: with the manifests written and the chart of the repository. *)
Definition install_operator (p : Provider) (keosCluster : KeosCluster) (reg : KeosRegistry) (firstInstallation : bool)
  (creds : HelmRegistry) (chartVersion image : string) : st world unit :=
  cfg ← get w_config;
  clusterConfigYAML ← pure (yaml_ClusterConfig cfg);
  exec_ (echo_to clusterConfigYAML (manifestsPath +:+ "/clusterconfig.yaml")) 5 3 "failed to write the keoscluster file" ;;
  cfg ← pure (deref cfg);
  let infra := ks_InfraProvider (kc_Spec keosCluster) in
  keosClusterYAML ← pure (yaml_KeosCluster (clean_KeosCluster keosCluster (md_Name (cc_Metadata cfg))));
  exec_ (echo_to keosClusterYAML (manifestsPath +:+ "/keoscluster.yaml")) 5 3 "failed to write the keoscluster file" ;;
  modify (with_helm_repo (if HasPrefix (hr_URL (ks_HelmRepository (kc_Spec keosCluster))) "oci://" then hreg_URL creds
                          else "stratio-helm-repo")) ;;
  repo ← get w_helm_repo;
  st_when firstInstallation
    (exec_ ("helm pull " +:+ repo +:+ "/cluster-operator --version " +:+ chartVersion +:+ " --untar --untardir /stratio/helm") 5 3
       "failed to pull cluster-operator helm chart") ;;
  secrets ← pure (operator_secrets infra p);
  exec_ ("helm install --wait cluster-operator /stratio/helm/cluster-operator" +:+ " --namespace kube-system" +:+
    " --set provider=" +:+ infra +:+
    " --set app.containers.controllerManager.image.registry=" +:+ kreg_url reg +:+
    " --set app.containers.controllerManager.image.repository=stratio/cluster-operator" +:+
    " --set app.containers.controllerManager.imagePullSecrets.enabled=true" +:+
    (if image <>s "" then " --set app.containers.controllerManager.image.tag=" +:+ image else "") +:+ secrets) 5 3
    "failed to deploy cluster-operator chart".

Definition wait_operator : st world unit :=
  exec_ "kubectl -n kube-system rollout status deploy/keoscluster-controller-manager --timeout=3m" 5 3
    "failed to wait for cluster-operator deployment".

(** In the workload cluster, as a release of Flux with the values of the local one.  No
    values: [errors.Wrap] of a nil error is nil, and the function returns it. *)
Definition release_operator (keosCluster : KeosCluster) (kubeconfig chartVersion : string) : st world unit :=
  let helmValuesClusterOperatorFile := "/kind/cluster-operator-helm-values.yaml" in
  exec_ ("helm get values cluster-operator" +:+ " --namespace kube-system --all > " +:+ helmValuesClusterOperatorFile) 5 3
    "failed to create cluster-operator helm values file" ;;
  data ← st_wrap "failed to read HelmRelease values file" (exec ("cat " +:+ helmValuesClusterOperatorFile) 5 3);
  if data =s "" then mret tt else
  values ← st_wrap "failed to unmarshal HelmRelease values file" (pure (unmarshal_HelmValues data));
  values ← pure (update_values values);
  updated ← st_wrap "failed to marshal updated HelmRelease values content" (pure (yaml_HelmValues values));
  exec_ (echo_to updated helmValuesClusterOperatorFile) 5 3 "failed to write updated HelmRelease values file" ;;
  configureHelmRelease kubeconfig "flux2_helmrelease.tmpl"
    (mkFluxHelmRelease "cluster-operator" "cluster-operator" "kube-system" "keos" chartVersion)
    (ks_HelmRepository (kc_Spec keosCluster)) ;;
  wait_operator.

Definition deployClusterOperator (p : Provider) (pp : PrivateParams) (cc : ClusterCredentials) (reg : KeosRegistry)
  (kubeconfig : string) (firstInstallation : bool) (creds : HelmRegistry) : st world unit :=
  let keosCluster := prv_KeosCluster pp in
  let spec := kc_Spec keosCluster in
  '(chartVersion, image) ← operator_version creds;
  st_when (firstInstallation && (ks_InfraProvider spec =s "aws") && HasPrefix (hr_URL (ks_HelmRepository spec)) "s3://")
    (aws_config_files (ks_Region spec) (clc_ProviderCredentials cc)) ;;
  st_when firstInstallation
    (registries_secret (clc_DockerRegistriesCredentials cc) kubeconfig) ;;
  if kubeconfig =s "" then
    install_operator p keosCluster reg firstInstallation creds chartVersion image ;; wait_operator
  else release_operator keosCluster kubeconfig chartVersion.
End operator.
