(* ===== verification/Providers.v ===== *)
(** * Installation steps of the providers (createworker/aws.go, gcp.go, azure.go)

    The methods of the builders that run commands: cloud provider, CSI drivers, storage
    class and the last steps, with the load balancer controller and the CloudFormation
    stack of AWS. *)

From S2P Require Import Prelude State GoStr KeosTypes Descriptor Aws ValidateAzure Base64 Commons Oci Worker Charts Builder Clouds Install.
Local Open Scope Z_scope.
Local Open Scope go_scope.
Local Open Scope stdpp_scope.

Section providers.
Context `{Host} `{Texts} `{SortSlice} `{ChartRepositories} `{CloudApis}.

(** ** Storage class *)

(** The default storage class of a managed cluster is no default any more. *)
Definition remove_default_annotation (k : string) : st world unit :=
  output ← st_wrap "failed to get default storage class"
    (exec (kubectl k +:+ " get sc -o jsonpath='{.items[?(@.metadata.annotations.storageclass\.kubernetes\.io/is-default-class==" +:+
       Q "true" +:+ ")].metadata.name}'") 5 3);
  st_when ((TrimSpace output <>s "") && (TrimSpace output <>s "No resources found"))
    (exec_ (kubectl k +:+ " annotate sc " +:+ TrimSpace output +:+ " " +:+ defaultScAnnotation +:+ "-") 5 3
       "failed to remove annotation from default storage class").

Definition storage_class_text (prov : Provider) : st world string :=
  let sc := mkDefaultStorageClass (scProvisioner prov) (scParameters prov) in
  modify (with_scTemplate sc) ;;
  scBytes ← pure (yaml_StorageClass sc);
  mret (ReplaceAll scBytes "fsType" "csi.storage.k8s.io/fstype").

Definition apply_stdin (k text message : string) : st world unit :=
  node_run ["kubectl"; "--kubeconfig"; k; "apply"; "-f"; "-"] text message.

(** The leftmost match of [\s*labels: (.*,?)]: what is before it, the rest of its line,
    and what is after. *)
Definition re_space (c : Ascii.ascii) : bool :=
  let z := byte_code c in in_rng 9 10 z || in_rng 12 13 z || (z =? 32).
Fixpoint drop_spaces (s : string) : string :=
  match s with String c t => if re_space c then drop_spaces t else s | "" => "" end.
Definition find_labels (s : string) : option (string * string * string) :=
  let '(before, rest) := split_from "labels: " 0 s in
  match rest with
  | [] => None
  | _ =>
      let rest := Join rest "labels: " in
      let '(line, lines) := split_from nl 0 rest in
      let after := match lines with [] => "" | _ => nl +:+ Join lines nl end in
      Some (string_rev (drop_spaces (string_rev before)), line, after)
  end.
(** [re.ReplaceAllString(s, text)], where [text] has no dollar sign. *)
Fixpoint replace_labels (fuel : nat) (text s : string) : string :=
  match fuel with
  | O => s
  | S fuel => match find_labels s with
              | Some (before, _, after) => before +:+ text +:+ replace_labels fuel text after
              | None => s
              end
  end.
Fixpoint tag_specifications (i : Z) (labels : list string) : string :=
  match labels with
  | [] => ""
  | label :: labels => nl +:+ "    tagSpecification_" +:+ Itoa (i + 1) +:+ ": " +:+ Q (TrimSpace label) +:+
                       tag_specifications (i + 1) labels
  end.
(** The labels of the descriptor have no dollar sign ([validateAWSLabel]). *)
Definition aws_tags (text : string) : res string :=
  match find_labels text with
  | None => Panic "index out of range"
  | Some (_, labels, _) => Ok (replace_labels (String.length text) (tag_specifications 0 (Split labels ",")) text)
  end.

Definition aws_configureStorageClass (prov : Provider) (k : string) : st world unit :=
  st_when (capxManaged prov) (remove_default_annotation k) ;;
  storageClass ← storage_class_text prov;
  storageClass ← (if scp_Labels (scParameters prov) <>s "" then pure (aws_tags storageClass) else mret storageClass);
  apply_stdin k storageClass "failed to create default storage class".

Definition gcp_configureStorageClass (prov : Provider) (k : string) : st world unit :=
  st_when (capxManaged prov) (remove_default_annotation k) ;;
  storageClass ← storage_class_text prov;
  apply_stdin k storageClass "failed to create default storage class".

Definition azure_configureStorageClass (prov : Provider) (k : string) : st world unit :=
  st_when (capxManaged prov) (remove_default_annotation k) ;;
  st_when (negb (capxManaged prov))
    (apply_stdin k (embedded "files/azure/azure-storage-classes.yaml") "failed to create Azure storage classes") ;;
  storageClass ← storage_class_text prov;
  apply_stdin k storageClass "failed to create default storage class".

Definition configureStorageClass (b : builder) (prov : Provider) (k : string) : st world unit :=
  match b with
  | AWSBuilder => aws_configureStorageClass prov k
  | GCPBuilder => gcp_configureStorageClass prov k
  | AzureBuilder => azure_configureStorageClass prov k
  end.

(** ** Cloud provider and CSI drivers *)

Definition azure_installCloudProvider (prov : Provider) (k : string) (pp : PrivateParams) : st world unit :=
  let spec := kc_Spec (prv_KeosCluster pp) in
  let podsCidrBlock := if net_PodsCidrBlock (ks_Networks spec) <>s "" then net_PodsCidrBlock (ks_Networks spec) else "192.168.0.0/16" in
  let valuesFile := "/kind/cloud-provider-" +:+ ks_InfraProvider spec +:+ "-helm-values.yaml" in
  mv ← get w_majorVersion;
  values ← st_wrap "failed to create cloud controller manager Helm chart values file"
    (manifest (capxProvider prov) ("cloud-provider-" +:+ ks_InfraProvider spec +:+ "-helm-values.tmpl") mv
       (ParamsCloudController (md_Name (kc_Metadata (prv_KeosCluster pp))) (prv_Private pp) (prv_KeosRegUrl pp) podsCidrBlock));
  exec_ (echo_to values valuesFile) 5 3 "failed to create cloud controller manager Helm chart values file" ;;
  exec_ ("helm install cloud-provider-azure /stratio/helm/cloud-provider-azure" +:+ " --kubeconfig " +:+ k +:+
    " --namespace kube-system" +:+ " --set cloudControllerManager.replicas=1" +:+ " --values " +:+ valuesFile) 5 3
    "failed to deploy cloud-provider-azure Helm Chart".

Definition installCloudProvider (b : builder) (prov : Provider) (k : string) (pp : PrivateParams) : st world unit :=
  match b with AzureBuilder => azure_installCloudProvider prov k pp | _ => mret tt end.

(** The part of an Azure identifier after [key], up to the next slash. *)
Definition id_part (id key : string) : string :=
  match Split id key with
  | _ :: x :: _ => nth 0 (Split x "/") ""
  | _ => ""
  end.

Definition azure_disk_secret (kubeconfig : string) (pp : PrivateParams) (p : ProviderParams)
  (chartsList : gmap string ChartEntry) : st world unit :=
  let spec := kc_Spec (prv_KeosCluster pp) in
  let azureDiskSecretFile := "/kind/azuredisk-azure.json" in
  let nodesIdentity := sec_NodesIdentity (ks_Security spec) in
  let resourceGroupName := id_part nodesIdentity "resourceGroups/" in
  let managedIdentityName := id_part nodesIdentity "userAssignedIdentities/" in
  let subscription := map_get (pp_Credentials p) "SubscriptionID" in
  pure (fail_when ((resourceGroupName =s "") || (managedIdentityName =s ""))
    "failed to extract resource group name or managed identity name from managed identity") ;;
  cfg ← pure (AzureGetConfig (pp_Credentials p));
  pure (errors_Wrap "failed to create msi client" (armmsi_NewClientFactory subscription cfg)) ;;
  properties ← pure (errors_Wrap "failed to retrieve managed identity info"
    (UserAssignedIdentities_Get subscription cfg resourceGroupName managedIdentityName));
  clientID ← pure (deref properties);
  objectIDIdentity ← pure (deref clientID);
  mv ← get w_majorVersion;
  azureDiskSecret ← st_wrap "failed to generate azuredisk driver config"
    (manifest (ks_InfraProvider spec) "azuredisk-azure-json.tmpl" mv
       (ParamsAzureDisk (map_get (pp_Credentials p) "TenantID") subscription (pp_ClusterName p) (pp_Region p)
          (ks_Networks spec) objectIDIdentity));
  exec_ (echo_to azureDiskSecret azureDiskSecretFile) 5 3 "failed to create azuredisk driver config" ;;
  exec_ (kubectl kubeconfig +:+ " create secret generic azure-cloud-provider -n " +:+
    ce_Namespace (chart_entry chartsList "azuredisk-csi-driver") +:+ " --from-file=cloud-config=/kind/azuredisk-azure.json") 5 3
    "failed to create azuredisk secret".

Definition azure_csi (pp : PrivateParams) (chartsList : gmap string ChartEntry) (csiName : string) : st world unit :=
  let spec := kc_Spec (prv_KeosCluster pp) in
  let csiValuesFile := "/kind/" +:+ csiName +:+ "-helm-values.yaml" in
  let entry := chart_entry chartsList csiName in
  let ref := if negb (prv_HelmPrivate pp) then csiName else "keos" in
  mv ← get w_majorVersion;
  csiHelmValues ← st_wrap ("failed to generate " +:+ csiName +:+ "-csi helm values")
    (manifest (ks_InfraProvider spec) (csiName +:+ "-helm-values.tmpl") mv (params_of_private pp));
  exec_ (echo_to csiHelmValues csiValuesFile) 5 3 ("failed to create " +:+ csiName +:+ " Helm chart values file") ;;
  configureHelmRelease kubeconfigPath "flux2_helmrelease.tmpl"
    (mkFluxHelmRelease csiName csiName (ce_Namespace entry) ref (ce_Version entry)) (ks_HelmRepository spec).

(** [kubeconfigPath] is an argument that hides the constant; both callers give it. *)
Definition azure_installCSI (kubeconfig : string) (pp : PrivateParams) (p : ProviderParams)
  (chartsList : gmap string ChartEntry) : st world unit :=
  st_when (negb (cp_Managed (ks_ControlPlane (kc_Spec (prv_KeosCluster pp)))))
    (azure_disk_secret kubeconfig pp p chartsList) ;;
  st_each (azure_csi pp chartsList) ["azuredisk-csi-driver"; "azurefile-csi-driver"].

Definition installCSI (b : builder) (kubeconfig : string) (pp : PrivateParams) (p : ProviderParams)
  (chartsList : gmap string ChartEntry) : st world unit :=
  match b with AzureBuilder => azure_installCSI kubeconfig pp p chartsList | _ => mret tt end.

(** ** AWS *)

Definition installLBController (k : string) (pp : PrivateParams) (p : ProviderParams) (chartsList : gmap string ChartEntry)
  : st world unit :=
  let lbControllerName := "aws-load-balancer-controller" in
  let lbControllerValuesFile := "/kind/" +:+ lbControllerName +:+ "-helm-values.yaml" in
  let entry := chart_entry chartsList lbControllerName in
  let spec := kc_Spec (prv_KeosCluster pp) in
  let ref := if negb (prv_HelmPrivate pp) then lbControllerName else "keos" in
  mv ← get w_majorVersion;
  values ← st_wrap ("failed to generate " +:+ lbControllerName +:+ "-csi helm values")
    (manifest (ks_InfraProvider spec) (lbControllerName +:+ "-helm-values.tmpl") mv
       (ParamsLBController (md_Name (kc_Metadata (prv_KeosCluster pp))) (prv_Private pp)
          (GetPrefixedRegistryURL "public.ecr.aws" (prv_KeosRegUrl pp) (prv_CentralECR pp))
          (map_get (pp_Credentials p) "AccountID") (pp_ClusterName p +:+ "-lb-controller-manager")));
  let values := values +:+ nl +:+ "clusterName: " +:+ pp_ClusterName p in
  exec_ (echo_to values lbControllerValuesFile) 5 3 ("failed to create " +:+ lbControllerName +:+ " Helm chart values file") ;;
  configureHelmRelease kubeconfigPath "flux2_helmrelease.tmpl"
    (mkFluxHelmRelease lbControllerName lbControllerName (ce_Namespace entry) ref (ce_Version entry)) (ks_HelmRepository spec).

Definition eksConfigData (nodegroupExtraPolicyARN : string) : string :=
  nl +:+ "apiVersion: bootstrap.aws.infrastructure.cluster.x-k8s.io/v1beta1" +:+ nl +:+ "kind: AWSIAMConfiguration" +:+ nl +:+
  "spec:" +:+ nl +:+ "  bootstrapUser:" +:+ nl +:+ "    enable: false" +:+ nl +:+ "  eks:" +:+ nl +:+ "    enable: true" +:+ nl +:+
  "    iamRoleCreation: false" +:+ nl +:+ "    defaultControlPlaneRole:" +:+ nl +:+ "        disable: false" +:+ nl +:+
  "    managedMachinePool:" +:+ nl +:+ "        disable: false" +:+ nl +:+ "        extraPolicyAttachments:" +:+ nl +:+
  "        - arn:aws:iam::aws:policy/service-role/AmazonEBSCSIDriverPolicy" +:+
  (if nodegroupExtraPolicyARN <>s "" then nl +:+ "        - " +:+ nodegroupExtraPolicyARN else "") +:+ nl +:+
  "  controlPlane:" +:+ nl +:+ "    enableCSIPolicy: true" +:+ nl +:+ "  nodes:" +:+ nl +:+ "    extraPolicyAttachments:" +:+ nl +:+
  "    - arn:aws:iam::aws:policy/service-role/AmazonEBSCSIDriverPolicy" +:+ nl +:+ "    extraStatements:" +:+ nl +:+
  "    - Action:" +:+ nl +:+ "        - " +:+ Q "ecr:BatchImportUpstreamImage" +:+ nl +:+ "        - " +:+ Q "ecr:CreateRepository" +:+ nl +:+
  "      Effect: Allow" +:+ nl +:+ "      Resource:" +:+ nl +:+ "        - " +:+ Q "*".

Definition createCloudFormationStack (envVars : list string) (nodegroupExtraPolicyARN : string) : st world unit :=
  exec_ (echo_to (eksConfigData nodegroupExtraPolicyARN) "/kind/eks.config") 5 3 "failed to create eks.config" ;;
  r ← try_ (exec_env ("clusterawsadm bootstrap iam create-cloudformation-stack --config " +:+ "/kind/eks.config") 5 3 envVars);
  match r with
  | Err e => pure (fail_when (negb (Contains e "No updates are to be performed")) ("failed to run clusterawsadm: " +:+ e))
  | _ => mret tt
  end.

(** ** The last steps *)

Definition safe_to_evict (volumes : string) : string :=
  js "{`spec`: {`template`: {`metadata`: {`annotations`: {`" +:+ postInstallAnnotation +:+ js "`: `" +:+ volumes +:+ js "`}}}}}".

(** A disruption budget for CoreDNS when there is none. *)
Definition ensure_coredns_pdb (coreDNSPDBName : string) : st world unit :=
  r ← try_ (exec (kubectl kubeconfigPath +:+ " get pdb " +:+ coreDNSPDBName +:+ " -n kube-system") 5 3);
  if is_Ok r then mret tt else st_wrap "failed to add core dns PDB" installCorednsPdb.

Definition aws_postInstallPhase (prov : Provider) (k : string) : st world unit :=
  ensure_coredns_pdb "coredns" ;;
  st_when (capxManaged prov)
    (st_wrap "failed to add podAnnotation to coredns" (patchDeploy k "kube-system" "coredns" (safe_to_evict "tmp")) ;;
     st_wrap "failed to add podAnnotation to ebs-csi-controller"
       (patchDeploy k "kube-system" "ebs-csi-controller" (safe_to_evict "socket-dir"))).

Definition gcp_postInstallPhase (k : string) : st world unit := ensure_coredns_pdb "coredns".

Definition azure_postInstallPhase (prov : Provider) (k : string) : st world unit :=
  (if capxManaged prov then
     st_wrap "failed to add podAnnotation to coredns" (patchDeploy k "kube-system" "coredns" (safe_to_evict "tmp")) ;;
     st_wrap "failed to add podAnnotation to tigera-operator"
       (patchDeploy k "tigera-operator" "tigera-operator" (safe_to_evict "var-lib-calico")) ;;
     st_wrap "failed to add podAnnotation to metrics-server"
       (patchDeploy k "kube-system" "metrics-server" (safe_to_evict "tmp-dir"))
   else
     st_wrap "failed to add podAnnotation to cloud-controller-manager"
       (patchDeploy k "kube-system" "cloud-controller-manager" (safe_to_evict "etc-kubernetes,ssl-mount,msi"))) ;;
  ensure_coredns_pdb (if capxManaged prov then "coredns-pdb" else "coredns").

Definition postInstallPhase (b : builder) (prov : Provider) (k : string) : st world unit :=
  match b with
  | AWSBuilder => aws_postInstallPhase prov k
  | GCPBuilder => gcp_postInstallPhase k
  | AzureBuilder => azure_postInstallPhase prov k
  end.
End providers.
