(* ===== verification/Descriptors.v ===== *)
(** * Files on the local machine (createworker/keosinstaller.go, overridevars.go)

    The descriptor of the KEOS installer, and the files that override its variables,
    with the rotation of those of an earlier run.  The operations on files are a class:
    the action uses the instance that records them ([Worker]), and what becomes of the
    files is proved for a file system ([Disk]). *)

From S2P Require Import Prelude State GoStr KeosTypes Oci Worker Builder.
Local Open Scope Z_scope.
Local Open Scope go_scope.
Local Open Scope stdpp_scope.

(** ** Operations *)

Class LocalFiles (W : Type) := {
  os_Stat : string → st W bool;                  (* whether there is no error *)
  os_Rename : string → string → st W unit;
  os_MkdirAll : string → st W unit;
  os_WriteFile : string → string → st W unit;
  time_Now : string → st W string                (* formatted by the layout *)
}.

(** ** The descriptor of the installer *)

Record EFSConfig := mkEFSConfig { efs_ID : string; efs_Name : string; efs_Permissions : string }.
Record KEOSDescriptor := mkKEOSDescriptor {
  kd_Registry_AuthRequired : bool; kd_Registry_Type : string; kd_Registry_URL : string; kd_Registry_Cache : bool;
  kd_Helm_AuthRequired : bool; kd_Helm_URL : string; kd_Helm_Type : string; kd_Helm_User : string; kd_Helm_Pass : string;
  kd_AWS_Enabled : bool; kd_AWS_EKS : bool;
  kd_Azure_Enabled : bool; kd_Azure_AKS : bool;
  kd_GCP_Enabled : bool; kd_GCP_GKE : bool;
  kd_Calico_Ipip : bool; kd_Calico_VXLan : bool; kd_Calico_Pool : string;
  kd_ClusterID : string; kd_ExternalDns_Enabled : option bool; kd_Domain : string; kd_ExternalDomain : string;
  kd_Flavour : string; kd_K8sInstallation : bool;
  kd_DefaultStorageClass : string; kd_Providers : list string; kd_EFS : list EFSConfig; kd_KMSKeyID : string
}.

(** The last keos registry of the list. *)
Definition keos_registry (l : list DockerRegistry) : DockerRegistry :=
  fold_left (λ acc r, if dr_KeosRegistry r then r else acc) l zero_DockerRegistry.

Definition keos_descriptor (keosCluster : KeosCluster) (storageClass : string) : KEOSDescriptor :=
  let spec := kc_Spec keosCluster in
  let r := keos_registry (ks_DockerRegistries spec) in
  let hr := ks_HelmRepository spec in
  let managed := cp_Managed (ks_ControlPlane spec) in
  let infra := ks_InfraProvider spec in
  let pods := net_PodsCidrBlock (ks_Networks spec) in
  mkKEOSDescriptor (dr_AuthRequired r) (dr_Type r) (dr_URL r) (dr_ECRPullThroughCacheEnabled r)
    (hr_AuthRequired hr) (hr_URL hr) (hr_Type hr) "" ""
    (infra =s "aws") ((infra =s "aws") && managed)
    (infra =s "azure") ((infra =s "azure") && managed)
    (infra =s "gcp") ((infra =s "gcp") && managed)
    (negb managed && (infra <>s "azure")) (negb managed && (infra =s "azure"))
    (if managed then "" else if pods <>s "" then pods else "192.168.0.0/16")
    (md_Name (kc_Metadata keosCluster)) (if dns_ManageZone (ks_Dns spec) then None else Some false)
    "cluster.local" (ks_ExternalDomain spec) (keos_Flavour (ks_Keos spec)) false
    storageClass ["custom"] [] "".

Section files.
Context {W : Type} `{!LocalFiles W} (yaml_KEOSDescriptor : KEOSDescriptor → res string).

Definition createKEOSDescriptor (keosCluster : KeosCluster) (storageClass : string) : st W unit :=
  keosYAMLData ← pure (yaml_KEOSDescriptor (keos_descriptor keosCluster storageClass));
  there ← os_Stat "keos.yaml";
  st_when there
    (timestamp ← time_Now "2006-01-02@15:04:05";
     os_Rename "keos.yaml" ("keos.yaml." +:+ timestamp +:+ "~")) ;;
  os_WriteFile "keos.yaml" keosYAMLData.

(** ** Files that override variables *)

(** [filepath.Dir] and [filepath.Join] of the two parts of the paths that are used. *)
Definition overrideVarsDir : string := "override_vars".
Definition override_path (filename : string) : string := overrideVarsDir +:+ "/" +:+ filename.

Definition createBackupOverrideVars (filename : string) : st W unit :=
  timestamp ← time_Now "20060102150405";
  there ← os_Stat (override_path filename);
  st_when there (st_wrap "error renaming original override_vars directory"
    (os_Rename overrideVarsDir (overrideVarsDir +:+ "." +:+ timestamp))).

Definition rotateBackupOverrideVars : st W unit :=
  timestamp ← time_Now "20060102150405";
  there ← os_Stat overrideVarsDir;
  st_when there (st_wrap "error renaming original override_vars directory"
    (os_Rename overrideVarsDir (overrideVarsDir +:+ "." +:+ timestamp))).

Definition write_override (x : string * string) : st W unit :=
  let '(filename, overrideValue) := x in
  createBackupOverrideVars filename ;;
  st_wrap "error creating override_vars directory" (os_MkdirAll overrideVarsDir) ;;
  st_wrap ("error writing corresponding '" +:+ override_path filename +:+ "'")
    (os_WriteFile (override_path filename) overrideValue).

(** [l] lists the map of the files in the order in which it is ranged over. *)
Definition override_vars (l : list (string * string)) : st W unit :=
  match l with
  | [] => rotateBackupOverrideVars
  | _ => st_each write_override l
  end.
End files.

(** The action records the operations. *)
Definition worker_files `{Host} : LocalFiles world := {|
  os_Stat path := r ← try_ (run_once (HostStat path)); mret (is_Ok r);
  os_Rename old new := _ ← run_once (HostRename old new); mret tt;
  os_MkdirAll path := _ ← run_once (HostMkdir path); mret tt;
  os_WriteFile path content := _ ← run_once (HostWrite path content); mret tt;
  time_Now layout := get (λ w, clock (w_log w) layout)
|}.

(** ** A file system *)

(** Files, and directories of files, of the working directory.  What fails is what the
    calls cannot do there: writing to a missing directory, renaming a directory to one
    that is not empty. *)
Record disk := mkDisk {
  d_files : gmap string string;
  d_dirs : gmap string (gmap string string);
  d_time : string
}.

(** The first component of a path, and the rest. *)
Definition cut_path (path : string) : string * option string :=
  let '(h, t) := split_from "/" 0 path in (h, match t with [] => None | _ => Some (Join t "/") end).

Definition content (d : disk) (dir f : string) : option string := d_dirs d !! dir ≫= (.!! f).

Definition disk_stat (path : string) (d : disk) : bool :=
  match cut_path path with
  | (p, None) => bool_decide (is_Some (d_files d !! p)) || bool_decide (is_Some (d_dirs d !! p))
  | (dir, Some f) => bool_decide (is_Some (content d dir f))
  end.

Definition disk_rename (old new : string) : st disk unit := λ d,
  match d_files d !! old, d_dirs d !! old with
  | Some c, _ =>
      if bool_decide (is_Some (d_dirs d !! new)) then (Err "file exists", d)
      else (Ok tt, mkDisk (<[new := c]> (delete old (d_files d))) (d_dirs d) (d_time d))
  | None, Some m =>
      if bool_decide (is_Some (d_files d !! new)) || negb (bool_decide (default ∅ (d_dirs d !! new) = ∅)) then (Err "file exists", d)
      else (Ok tt, mkDisk (d_files d) (<[new := m]> (delete old (d_dirs d))) (d_time d))
  | None, None => (Err "no such file or directory", d)
  end.

Definition disk_mkdir (dir : string) : st disk unit := λ d,
  if bool_decide (is_Some (d_files d !! dir)) then (Err "not a directory", d)
  else (Ok tt, mkDisk (d_files d) (<[dir := default ∅ (d_dirs d !! dir)]> (d_dirs d)) (d_time d)).

Definition disk_write (path text : string) : st disk unit := λ d,
  match cut_path path with
  | (p, None) =>
      if bool_decide (is_Some (d_dirs d !! p)) then (Err "is a directory", d)
      else (Ok tt, mkDisk (<[p := text]> (d_files d)) (d_dirs d) (d_time d))
  | (dir, Some f) =>
      match d_dirs d !! dir with
      | Some m => (Ok tt, mkDisk (d_files d) (<[dir := <[f := text]> m]> (d_dirs d)) (d_time d))
      | None => (Err "no such file or directory", d)
      end
  end.

#[export] Instance disk_ops : LocalFiles disk := {|
  os_Stat path := get (disk_stat path);
  os_Rename := disk_rename;
  os_MkdirAll := disk_mkdir;
  os_WriteFile := disk_write;
  time_Now _ := get d_time
|}.

Lemma cut_override_path f : cut_path (override_path f) = (overrideVarsDir, Some f).
Proof.
  unfold cut_path, override_path. change ("/" +:+ f) with (String "/" f).
  rewrite split_from_app_sep; [|by apply (bool_decide_eq_false_1 (char_in "/" overrideVarsDir))].
  assert (("/" : string) ≠ "") as Hne by (intros E; discriminate E).
  pose proof (Join_Split f "/" Hne) as Hj. unfold Split in Hj. destruct (split_from "/" 0 f) as [h t]. by rewrite Hj.
Qed.

(** The directory is no file, and the name of its copy is free. *)
Definition backup_name (d : disk) : string := overrideVarsDir +:+ "." +:+ d_time d.
Definition ready (d : disk) : Prop :=
  d_files d !! overrideVarsDir = None ∧ d_files d !! backup_name d = None ∧ d_dirs d !! backup_name d = None.

Lemma backup_name_ne d : backup_name d ≠ overrideVarsDir.
Proof. unfold backup_name, overrideVarsDir. simpl. intros E. discriminate E. Qed.

#[local] Arguments String.append : simpl never.

(** The last two calls of [write_override]. *)
Lemma write_in_dir f c d s s' : d_files d !! overrideVarsDir = None →
  (st_wrap s (os_MkdirAll overrideVarsDir) ;; st_wrap s' (os_WriteFile (override_path f) c)) d =
    (Ok tt, mkDisk (d_files d) (<[overrideVarsDir := <[f := c]> (default ∅ (d_dirs d !! overrideVarsDir))]> (d_dirs d)) (d_time d)).
Proof.
  intros Hf. unfold mbind, st_bind, st_wrap. cbn [os_MkdirAll os_WriteFile disk_ops]. unfold disk_mkdir. rewrite Hf. simpl.
  unfold disk_write. rewrite cut_override_path. simpl. rewrite lookup_insert_eq. simpl. by rewrite insert_insert_eq.
Qed.

(** Writing a file that the directory does not have. *)
Lemma write_override_new f c d : d_files d !! overrideVarsDir = None → content d overrideVarsDir f = None →
  write_override (f, c) d =
    (Ok tt, mkDisk (d_files d) (<[overrideVarsDir := <[f := c]> (default ∅ (d_dirs d !! overrideVarsDir))]> (d_dirs d)) (d_time d)).
Proof.
  intros Hf Hc. assert (createBackupOverrideVars f d = (Ok tt, d)) as Hb.
  { unfold createBackupOverrideVars, mbind, st_bind. simpl. unfold get, disk_stat. by rewrite cut_override_path, Hc. }
  unfold write_override. rewrite (st_run _ _ _ _ _ Hb). by apply write_in_dir.
Qed.

(** Writing a file that it has: the directory is renamed, and a new one has the file. *)
Definition backed_up (d : disk) (m : gmap string string) : disk :=
  mkDisk (d_files d) (<[backup_name d := m]> (delete overrideVarsDir (d_dirs d))) (d_time d).

Lemma rename_backup d m : ready d → d_dirs d !! overrideVarsDir = Some m →
  disk_rename overrideVarsDir (backup_name d) d = (Ok tt, backed_up d m).
Proof.
  intros (Hf & Hbf & Hbd) Hm. unfold disk_rename. rewrite Hf, Hm, Hbf, Hbd. cbn [from_option].
  by rewrite (bool_decide_eq_true_2 (_ = ∅)).
Qed.

Lemma backup_old f d m : ready d → d_dirs d !! overrideVarsDir = Some m → is_Some (m !! f) →
  createBackupOverrideVars f d = (Ok tt, backed_up d m).
Proof.
  intros Hd Hm [x Hx]. unfold createBackupOverrideVars, mbind, st_bind. cbn [time_Now os_Stat os_Rename disk_ops get].
  unfold disk_stat. rewrite cut_override_path. unfold content. rewrite Hm. cbn [mbind option_bind]. rewrite Hx. simpl.
  unfold st_wrap. fold (backup_name d). by rewrite (rename_backup d m).
Qed.

Lemma write_override_old f c d m : ready d → d_dirs d !! overrideVarsDir = Some m → is_Some (m !! f) →
  write_override (f, c) d =
    (Ok tt, mkDisk (d_files d) (<[overrideVarsDir := {[f := c]}]> (<[backup_name d := m]> (d_dirs d))) (d_time d)).
Proof.
  intros Hd Hm Hx. unfold write_override. rewrite (st_run _ _ _ _ _ (backup_old f d m Hd Hm Hx)).
  rewrite write_in_dir by apply Hd. pose proof (backup_name_ne d) as Hne. unfold backed_up. simpl.
  rewrite lookup_insert_ne, lookup_delete_eq by done. cbn [from_option id]. rewrite insert_empty.
  do 2 f_equal. rewrite (insert_insert_ne _ overrideVarsDir) by done.
  by rewrite insert_delete_eq, (insert_insert_ne _ overrideVarsDir).
Qed.

(** Writing several, none of which it has. *)
Lemma write_overrides_new l d : NoDup (l.*1) → d_files d !! overrideVarsDir = None →
  (∀ f, f ∈ l.*1 → content d overrideVarsDir f = None) →
  ∃ d', st_each write_override l d = (Ok tt, d') ∧ d_files d' = d_files d ∧ d_time d' = d_time d ∧
    (∀ k, k ≠ overrideVarsDir → d_dirs d' !! k = d_dirs d !! k) ∧
    ∀ f, content d' overrideVarsDir f = (list_to_map l ∪ default ∅ (d_dirs d !! overrideVarsDir)) !! f.
Proof.
  revert d. induction l as [|[f c] l IH]; intros d Hnd Hf Hc.
  - exists d. split_and!; try done. intros f. unfold content. simpl. rewrite (left_id_L ∅ (∪)). by destruct (d_dirs d !! _).
  - cbn [st_each]. unfold mbind, st_bind. rewrite write_override_new by (done || (apply Hc; left)).
    apply NoDup_cons in Hnd as [Hfl Hnd].
    set (d1 := mkDisk _ _ _). destruct (IH d1) as (d' & E & E1 & E2 & E3 & E4); [done|done| |].
    { intros g Hg. unfold content, d1. simpl. rewrite lookup_insert_eq. simpl. rewrite lookup_insert_ne by (by intros ->).
      specialize (Hc g ltac:(by right)). unfold content in Hc. by destruct (d_dirs d !! _). }
    exists d'. split_and!; try done.
    + intros k Hk. rewrite E3 by done. unfold d1. simpl. by rewrite lookup_insert_ne.
    + intros g. rewrite E4. unfold d1. simpl. rewrite lookup_insert_eq. simpl.
      rewrite !lookup_union, lookup_insert. destruct (decide (f = g)) as [<-|Hne].
      * rewrite lookup_insert_eq. rewrite (not_elem_of_list_to_map_1 l f) by done. by destruct (default ∅ _ !! f).
      * by rewrite !lookup_insert_ne.
Qed.

(** The files of an earlier run. *)
Definition old_overrides (d : disk) : gmap string string := default ∅ (d_dirs d !! overrideVarsDir).
Lemma content_old d f : content d overrideVarsDir f = old_overrides d !! f.
Proof. unfold content, old_overrides. by destruct (d_dirs d !! _). Qed.

Lemma ready_next d d' : ready d → d_files d' = d_files d → d_time d' = d_time d →
  (∀ k, k ≠ overrideVarsDir → d_dirs d' !! k = d_dirs d !! k) → ready d' ∧ backup_name d' = backup_name d.
Proof.
  intros (Hf & Hbf & Hbd) E1 E2 E3. unfold ready. assert (backup_name d' = backup_name d) as Eb by (unfold backup_name; by rewrite E2).
  rewrite Eb, E1, E3 by apply backup_name_ne. done.
Qed.

(** [l2] starts with the first file that an earlier run left, if there is one. *)
Definition first_old (d : disk) (l2 : list (string * string)) : Prop :=
  match l2 with [] => True | (f, _) :: _ => is_Some (old_overrides d !! f) end.

(** Writing the files that override variables, in whatever order the map of them
    is ranged over, ends without an error and loses no file: the files before the
    first one that an earlier run left are added to the directory; that one moves the
    directory, with what was added, to the backup, and starts a new directory, which
    gets every file after it. *)
Theorem override_vars_written l1 l2 d :
  ready d → NoDup (l1 ++ l2).*1 → l1 ++ l2 ≠ [] →
  (∀ f, f ∈ l1.*1 → old_overrides d !! f = None) → first_old d l2 →
  ∃ d', override_vars (l1 ++ l2) d = (Ok tt, d') ∧ d_files d' = d_files d ∧
    match l2 with
    | [] => old_overrides d' = list_to_map l1 ∪ old_overrides d ∧ d_dirs d' !! backup_name d = None
    | _ => old_overrides d' = list_to_map l2 ∧ d_dirs d' !! backup_name d = Some (list_to_map l1 ∪ old_overrides d)
    end.
Proof.
  intros Hd Hnd Hne Hl1 Hl2. assert (override_vars (l1 ++ l2) = st_each write_override (l1 ++ l2)) as -> by (destruct l1, l2; [by destruct Hne|done..]).
  rewrite fmap_app in Hnd. apply NoDup_app in Hnd as (Hnd1 & Hdis & Hnd2).
  destruct (write_overrides_new l1 d) as (d1 & E & E1 & E2 & E3 & E4); [done|apply Hd|intros f Hf; rewrite content_old; auto|].
  rewrite st_each_app, (st_run _ _ _ _ _ E). destruct (ready_next d d1) as [Hd1 Eb]; [done..|].
  assert (old_overrides d1 = list_to_map l1 ∪ old_overrides d) as Hold by (apply map_eq; intros f; rewrite <- content_old, E4; done).
  destruct l2 as [|[f c] l2].
  { exists d1. split_and!; [done..|]. rewrite E3 by apply backup_name_ne. apply Hd. }
  assert (is_Some (old_overrides d1 !! f)) as [x Hx].
  { rewrite Hold, lookup_union_r; [done|]. apply not_elem_of_list_to_map_1. intros Hf. apply (Hdis f Hf). left. }
  assert (d_dirs d1 !! overrideVarsDir = Some (old_overrides d1)) as Hm.
  { unfold old_overrides in *. by destruct (d_dirs d1 !! _). }
  cbn [st_each]. rewrite (st_run _ _ _ _ _ (write_override_old f c d1 _ Hd1 Hm (mk_is_Some _ _ Hx))).
  apply NoDup_cons in Hnd2 as [Hfl Hnd2]. set (d2 := mkDisk _ _ _).
  assert (old_overrides d2 = {[f := c]}) as Hd2 by (unfold old_overrides, d2; simpl; by rewrite lookup_insert_eq).
  destruct (write_overrides_new l2 d2) as (d' & F & F1 & F2 & F3 & F4); [done|apply Hd1| |].
  { intros g Hg. rewrite content_old, Hd2. apply lookup_singleton_ne. by intros ->. }
  exists d'. split_and!; [done|by rewrite F1|..].
  - apply map_eq. intros g. rewrite <- content_old, F4. fold (old_overrides d2). rewrite Hd2. simpl.
    rewrite insert_union_singleton_l. rewrite map_union_comm; [done|].
    apply map_disjoint_singleton_r. by apply not_elem_of_list_to_map_1.
  - rewrite F3 by apply backup_name_ne. unfold d2. simpl. rewrite Eb.
    rewrite lookup_insert_ne by (intros E'; by apply (backup_name_ne d)). by rewrite lookup_insert_eq, Hold.
Qed.

Module Overrides.
(** A directory with the file of the storage class, and a run that also writes another. *)
Definition before : disk := mkDisk ∅ {[ "override_vars" := {[ "csi.yml" := "old" ]} ]} "20240101".
End Overrides.

Lemma override_vars_written_witness :
  ∃ d', override_vars ([("dns.yml", "new")] ++ [("csi.yml", "new")]) Overrides.before = (Ok tt, d') ∧ d_files d' = ∅ ∧
    (old_overrides d' = list_to_map [("csi.yml", "new")] ∧
     d_dirs d' !! "override_vars.20240101" = Some (list_to_map [("dns.yml", "new")] ∪ old_overrides Overrides.before)).
Proof.
  apply (override_vars_written [("dns.yml", "new")] [("csi.yml", "new")] Overrides.before).
  - done.
  - apply (bool_decide_eq_true_1 _). reflexivity.
  - done.
  - intros f Hf. apply list_elem_of_singleton in Hf as ->. reflexivity.
  - by eexists.
Defined.

(** The file that was just written is found in the backup, not in the directory, when
    the map is ranged over in one order, and in the directory in the other. *)
Lemma order_decides :
  ∃ d1 d2, override_vars [("dns.yml", "new"); ("csi.yml", "new")] Overrides.before = (Ok tt, d1) ∧
    override_vars [("csi.yml", "new"); ("dns.yml", "new")] Overrides.before = (Ok tt, d2) ∧
    content d1 "override_vars" "dns.yml" = None ∧ content d2 "override_vars" "dns.yml" = Some "new".
Proof. do 2 eexists. split_and!; reflexivity. Qed.
