(* ===== verification/CreateWorker.v ===== *)
(** * The createworker action (createworker/createworker.go)

    [action.Execute]: from the charts of the local cluster to the files of the KEOS
    installer, as one sequence of the steps of the other files.  The status messages
    and the waiting between attempts are left out.  The refresher of the kubeconfig
    runs beside the sequence ([RefreshLoop]): it is no part of the log. *)

From S2P Require Import Prelude State GoStr KeosTypes Descriptor Aws Secrets ValidateAzure Base64 Commons Nodes Oci Worker Charts Builder Clouds Install Operator Providers Descriptors.
Local Open Scope Z_scope.
Local Open Scope go_scope.
Local Open Scope stdpp_scope.

(** ** Constants and data *)

Definition workKubeconfigPath : string := ".kube/config".
Definition CAPILocalRepository : string := "/root/.cluster-api/local-repository".
Definition cloudProviderBackupPath : string := "/kind/backup/objects".
Definition localBackupPath : string := "backup".
Definition cniDefaultFile : string := "/kind/manifests/default-cni.yaml".
Definition storageDefaultPath : string := "/kind/manifests/default-storage.yaml".
Definition GKECoreDNSDeploymentPath : string := "/kind/manifests/coredns-deployment.yaml".
Definition PathsToBackupLocally : list string := [cloudProviderBackupPath; "/kind/manifests"].
Definition allowCommonEgressNetPolPath : string := "/kind/allow-all-egress_netpol.yaml".
Definition secretPath : string := "./secrets.yml".
Definition clusterctl_yaml : string := "/root/.cluster-api/clusterctl.yaml".

(** The action; what its [clusterConfig] points to is [w_config]. *)
Record action := mkAction {
  a_vaultPassword : string;
  a_descriptorPath : string;
  a_moveManagement : bool;
  a_avoidCreation : bool;
  a_keosCluster : KeosCluster;
  a_clusterCredentials : ClusterCredentials
}.

(** What [Execute] has computed when it creates the cluster. *)
Record setup := mkSetup {
  s_node : string;
  s_params : ProviderParams;
  s_builder : builder;
  s_provider : Provider;
  s_helm : HelmRegistry;
  s_registry : KeosRegistry;
  s_private : PrivateParams;
  s_charts : gmap string ChartEntry;
  s_credentials : ClusterCredentials
}.

(** The vault and the YAML encoders of the files on the local machine, and the order in
    which a map of files is ranged over. *)
Class LocalEncoders := {
  vault_Decrypt : string → string → res string;             (* the text of a file, the password *)
  vault_Encrypt : string → string → res string;
  unmarshal_secretMap : string → res (gmap string (gmap string value));
  yaml_secretMap : gmap string (gmap string value) → string;
  unmarshal_Node : string → res ynode;
  marshal_Node : ynode → res string;
  yaml_KEOSDescriptor : KEOSDescriptor → res string;
  files_order : log → gmap string string → list (string * string);
  files_order_perm l m : files_order l m ≡ₚ map_to_list m
}.

Section execute.
Context `{Host} `{Texts} `{SortSlice} `{ChartRepositories} `{CloudApis} `{LocalEncoders}.

(** ** Registry and parameters *)

Definition set_url (r : KeosRegistry) (d : DockerRegistry) : KeosRegistry :=
  mkKeosRegistry (dr_URL d) (kreg_user r) (kreg_pass r) (dr_Type d) (kreg_cache r).
Definition set_registry (r : KeosRegistry) (d : DockerRegistry) : KeosRegistry :=
  if dr_KeosRegistry d then
    mkKeosRegistry (dr_URL d) (kreg_user r) (kreg_pass r) (dr_Type d)
      ((dr_ECRPullThroughCacheEnabled d && (dr_Type d =s "ecr")) || kreg_cache r)
  else r.
Definition set_registry_again (r : KeosRegistry) (d : DockerRegistry) : KeosRegistry :=
  if dr_KeosRegistry d then set_url r d else r.

Definition with_user (r : KeosRegistry) (user pass : string) : KeosRegistry :=
  mkKeosRegistry (kreg_url r) user pass (kreg_registryType r) (kreg_cache r).
Definition authenticate (cc : ClusterCredentials) (b : builder) (prov : Provider) (pp : ProviderParams) (r : KeosRegistry)
  : res KeosRegistry :=
  if kreg_registryType r <>s "generic" then
    '(user, pass) ← errors_Wrap "failed to get docker registry credentials" (getRegistryCredentials b prov pp (kreg_url r));
    mret (with_user r user pass)
  else mret (with_user r (map_get (clc_KeosRegistryCredentials cc) "User") (map_get (clc_KeosRegistryCredentials cc) "Pass")).

Definition provider_params (kc : KeosCluster) (cc : ClusterCredentials) (capx : CAPX) : ProviderParams :=
  mkProviderParams (md_Name (kc_Metadata kc)) (ks_Region (kc_Spec kc)) (cp_Managed (ks_ControlPlane (kc_Spec kc)))
    (clc_ProviderCredentials cc) (clc_GithubToken cc) (ks_StorageClass (kc_Spec kc)) capx.

Definition on_managed (infra : string) (spec : KeosSpec) : bool :=
  (ks_InfraProvider spec =s infra) && cp_Managed (ks_ControlPlane spec).
Definition awsEKSEnabled : KeosSpec → bool := on_managed "aws".
Definition gcpGKEEnabled : KeosSpec → bool := on_managed "gcp".
Definition hasMachinePool (spec : KeosSpec) : bool :=
  ((ks_InfraProvider spec <>s "aws") && cp_Managed (ks_ControlPlane spec)) ||
  (awsEKSEnabled spec && existsb (λ wn, negb (wn_NodeImage wn <>s "")) (ks_WorkerNodes spec)).
Definition hasMachineDeployment (spec : KeosSpec) : bool :=
  awsEKSEnabled spec && existsb (λ wn, wn_NodeImage wn <>s "") (ks_WorkerNodes spec).
Definition isMachinePool (spec : KeosSpec) : bool := hasMachinePool spec && negb (hasMachineDeployment spec).

Definition private_params (kc : KeosCluster) (r : KeosRegistry) (cfg : option ClusterConfig) : PrivateParams :=
  match cfg with
  | Some c => mkPrivateParams kc (kreg_url r) (kreg_cache r) (ccs_Private (cc_Spec c)) (ccs_PrivateHelmRepo (cc_Spec c))
  | None => mkPrivateParams kc (kreg_url r) (kreg_cache r) false false
  end.

(** ** The local cluster *)

Definition private_cni (r : KeosRegistry) : st world unit :=
  exec_plain ("sed -i 's/@sha256:[[:alnum:]_-].*$//g' " +:+ cniDefaultFile) 5 3 ;;
  exec_plain ("sed -i 's|docker.io|" +:+ GetPrefixedRegistryURL "docker.io" (kreg_url r) (kreg_cache r) +:+
    "|g' /kind/manifests/default-cni.yaml") 5 3 ;;
  exec_plain "sed -i 's/{{ .PodSubnet }}/10.244.0.0\/16/g' /kind/manifests/default-cni.yaml" 5 3 ;;
  exec_plain "cat /kind/manifests/default-cni.yaml | kubectl apply -f -" 5 3 ;;
  exec_plain ("kubectl delete -f " +:+ storageDefaultPath +:+ " --force") 5 3.

Definition regcred (r : KeosRegistry) : string :=
  " --docker-server=" +:+ nth 0 (Split (kreg_url r) "/") "" +:+ " --docker-username=" +:+ kreg_user r +:+
  " --docker-password=" +:+ kreg_pass r.

Definition gke_registry (p : Provider) (r : KeosRegistry) : st world unit :=
  exec_ ("kubectl create namespace " +:+ capx_ns p) 5 3 ("failed to create " +:+ capx_ns p +:+ " namespace") ;;
  exec_ ("kubectl create secret docker-registry regcred" +:+ regcred r +:+ " --namespace=" +:+ capx_ns p) 5 3
    "failed to create docker-registry secret" ;;
  exec_ ("sed -i '/containers:/i\      imagePullSecrets:\n      - name: regcred' " +:+ CAPILocalRepository +:+
    "/infrastructure-" +:+ capxProvider p +:+ "/" +:+ capxVersion p +:+ "/infrastructure-components.yaml") 5 3
    "failed to add imagePullSecrets to infrastructure-components.yaml".

(** [echo "l1" >> clusterctl.yaml && echo "l2" >> ... ] *)
Definition echo_lines (l : list string) : string :=
  Join (map (λ s, "echo " +:+ dquote +:+ s +:+ dquote +:+ " >> " +:+ clusterctl_yaml) l) " && " +:+ " ".

Definition private_images (r : KeosRegistry) (capx : CAPX) : list string :=
  let k8sRegUrl := GetPrefixedRegistryURL "registry.k8s.io" (kreg_url r) (kreg_cache r) in
  let cluster_api := ["    repository: " +:+ k8sRegUrl +:+ "/cluster-api"; "    tag: " +:+ capx_CAPI_Version capx] in
  ["images:"; "  cluster-api:"] ++ cluster_api ++
  ["  bootstrap-kubeadm:"] ++ cluster_api ++
  ["  control-plane-kubeadm:"] ++ cluster_api ++
  ["  infrastructure-aws:"; "    repository: " +:+ k8sRegUrl +:+ "/cluster-api-aws"; "    tag: " +:+ capx_CAPA_Image_version capx;
   "  infrastructure-gcp:"; "    repository: " +:+ kreg_url r +:+ "/stratio"; "    tag: " +:+ capx_CAPG_Image_version capx;
   "  infrastructure-azure/cluster-api-azure-controller:"; "    repository: " +:+ k8sRegUrl +:+ "/cluster-api-azure";
   "    tag: " +:+ capx_CAPZ_Image_version capx;
   "  infrastructure-azure/azureserviceoperator:"; "    repository: " +:+ kreg_url r +:+ "/k8s";
   "  infrastructure-azure/kube-rbac-proxy:"; "    repository: " +:+ kreg_url r +:+ "/kubebuilder";
   "  infrastructure-azure/nmi:"; "    repository: " +:+ kreg_url r +:+ "/oss/azure/aad-pod-identity";
   "  cert-manager:";
   "    repository: " +:+ GetPrefixedRegistryURL "quay.io" (kreg_url r) (kreg_cache r) +:+ "/jetstack"].

Definition clusterctl_images (private gke : bool) (r : KeosRegistry) (capx : CAPX) : st world unit :=
  if private then
    exec_ (echo_lines (private_images r capx)) 5 3 "failed to add private image registry clusterctl config" ;;
    exec_plain ("sed -i 's/@sha256:[[:alnum:]_-].*$//g' /root/.cluster-api/local-repository/infrastructure-gcp/" +:+
      capx_CAPG_Version capx +:+ "/infrastructure-components.yaml") 5 3
  else st_when gke
    (exec_ (echo_lines ["images:"; "  infrastructure-gcp:"; "    repository: " +:+ kreg_url r +:+ "/stratio";
                        "    tag: " +:+ capx_CAPG_Image_version capx]) 5 3
       "failed to overwrite image registry clusterctl config").

Definition config : st world ClusterConfig := c ← get w_config; pure (deref c).

(** Cert-manager and the Cluster API providers in the local cluster. *)
Definition install_local (spec : KeosSpec) (p : Provider) (pp : ProviderParams) (r : KeosRegistry) (prv : PrivateParams)
  : st world unit :=
  exec_ ("kubectl -n kube-system create secret docker-registry regcred" +:+ regcred r) 5 3 "failed to create docker-registry secret" ;;
  st_when (gcpGKEEnabled spec) (gke_registry p r) ;;
  c ← config;
  let certManagerVersion := getChartVersion (ccs_Charts (cc_Spec c)) "cert-manager" in
  pure (fail_when (certManagerVersion =s "") "Cert manager helm chart version cannot be found ") ;;
  deployCertManager (kreg_url r) "" prv ;;
  exec_ (echo_lines ["cert-manager:"; "  version: " +:+ certManagerVersion]) 5 3
    "failed to set cert-manager version in clusterctl config" ;;
  clusterctl_images (prv_Private prv) (gcpGKEEnabled spec) r (ccs_Capx (cc_Spec c)) ;;
  installCAPXLocal p c pp.

(** ** The secrets file and the descriptor *)

(** What becomes of the maps that the credentials share with the function. *)
Definition credentials_after (exists_ : bool) (m : gmap string (gmap string value)) (spec : KeosSpec) (cc : ClusterCredentials)
  : ClusterCredentials :=
  let credentials := provider_creds spec cc in
  mkClusterCredentials
    (if exists_ then credentials
     else match credentials !! "RoleARN" with
          | Some v => if is_blank v then delete "RoleARN" credentials else credentials
          | None => credentials
          end)
    (clc_KeosRegistryCredentials cc)
    (if negb exists_ || is_nil (m !! "secrets") "docker_registries"
     then ConvertMapKeysToSnakeCase <$> clc_DockerRegistriesCredentials cc else clc_DockerRegistriesCredentials cc)
    (clc_HelmRepositoryCredentials cc) (clc_GithubToken cc).

Definition EnsureSecretsFile_ (spec : KeosSpec) (vaultPassword : string) (cc : ClusterCredentials) : st world ClusterCredentials :=
  there ← try_ (run_once (HostStat secretPath));
  secretRaw ← (if is_Ok there then raw ← run_once (HostRead secretPath); pure (vault_Decrypt raw vaultPassword) else mret "");
  edited ← pure (EnsureSecretsFile (Ok secretRaw) unmarshal_secretMap (is_Ok there) spec cc);
  match edited with
  | Some m => text ← pure (vault_Encrypt (yaml_secretMap m) vaultPassword); _ ← run_once (HostWrite secretPath text); mret tt
  | None => mret tt
  end ;;
  mret (credentials_after (is_Ok there) (match unmarshal_secretMap secretRaw with Ok m => m | _ => ∅ end) spec cc).

Definition RewriteDescriptorFile_ (descriptorPath : string) : st world unit :=
  raw ← try_ (run_once (HostRead descriptorPath));
  text ← pure (RewriteDescriptorFile unmarshal_Node marshal_Node raw);
  _ ← run_once (HostWrite descriptorPath text);
  mret tt.

Definition local_files (a : action) : st world ClusterCredentials :=
  cc ← st_wrap "failed to ensure the secrets file"
    (EnsureSecretsFile_ (kc_Spec (a_keosCluster a)) (a_vaultPassword a) (a_clusterCredentials a));
  st_wrap "failed to rewrite the descriptor file" (RewriteDescriptorFile_ (a_descriptorPath a)) ;;
  mret cc.

(** ** Creation of the workload cluster *)

Definition capiClustersNamespace (kc : KeosCluster) : string := "cluster-" +:+ md_Name (kc_Metadata kc).
(** [kubectl -n cluster-<name> ...], on the local cluster. *)
Definition in_ns (kc : KeosCluster) (c : string) : string := "kubectl -n " +:+ capiClustersNamespace kc +:+ c.
Definition on_workload (c : string) : string := kubectl kubeconfigPath +:+ c.

Definition apply_manifests (kc : KeosCluster) : st world unit :=
  let name := md_Name (kc_Metadata kc) in
  cfg ← get w_config;
  st_when (opt_is_Some cfg)
    (exec_ ("kubectl apply -f " +:+ manifestsPath +:+ "/clusterconfig.yaml") 5 5 "failed to apply clusterconfig manifests") ;;
  exec_ ("kubectl apply -f " +:+ manifestsPath +:+ "/keoscluster.yaml") 10 5 "failed to apply keoscluster manifests" ;;
  exec_ (in_ns kc (" get cluster " +:+ name)) 25 5 "failed to wait for cluster" ;;
  exec_ (in_ns kc (" wait --for=condition=ControlPlaneInitialized --timeout=25m cluster " +:+ name)) 5 3
    "failed to create the workload cluster".

Definition get_kubeconfig (kc : KeosCluster) : string :=
  "clusterctl -n " +:+ capiClustersNamespace kc +:+ " get kubeconfig " +:+ md_Name (kc_Metadata kc) +:+ " | tee " +:+ kubeconfigPath.

(** The loop ends at the first output that is not empty; its result is that of the last
    attempt. *)
Fixpoint kubeconfig_attempts (c : string) (retries : nat) (last : res string) : st world (res string) :=
  match retries with
  | O => mret last
  | S retries =>
      r ← try_ (exec c 5 3);
      match r with
      | Ok s => if s <>s "" then mret r else kubeconfig_attempts c retries r
      | _ => kubeconfig_attempts c retries r
      end
  end.

(** Without an error and without an output the function returns a nil error: [None]. *)
Definition workload_kubeconfig (kc : KeosCluster) : st world (option string) :=
  r ← kubeconfig_attempts (get_kubeconfig kc) 6 (Ok "");
  match r with
  | Ok s => mret (if s =s "" then None else Some s)
  | r => st_wrap "failed to get workload cluster kubeconfig after multiple retries" (pure (_ ← r; mret None))
  end.

Definition save_kubeconfig (kc : KeosCluster) (kubeconfig : string) : st world unit :=
  exec_ (in_ns kc (" create secret generic worker-kubeconfig --from-file " +:+ kubeconfigPath)) 5 3
    "failed to create worker-kubeconfig secret" ;;
  let workKubeconfigBasePath := nth 0 (Split workKubeconfigPath "/") "" in
  there ← try_ (run_once (HostStat workKubeconfigBasePath));
  st_when (negb (is_Ok there)) (_ ← run_once (HostMkdir workKubeconfigBasePath); mret tt) ;;
  _ ← st_wrap "failed to save the workload cluster kubeconfig" (run_once (HostWrite workKubeconfigPath kubeconfig));
  mret tt.

Definition unmanaged_or_aws (spec : KeosSpec) : bool :=
  negb (cp_Managed (ks_ControlPlane spec)) || (ks_InfraProvider spec =s "aws").

Definition install_network (s : setup) (spec : KeosSpec) : st world unit :=
  st_when (negb (cp_Managed (ks_ControlPlane spec)))
    (st_wrap "failed to install external cloud-provider in workload cluster"
       (installCloudProvider (s_builder s) (s_provider s) kubeconfigPath (s_private s))) ;;
  st_when (unmanaged_or_aws spec)
    (st_wrap "failed to install Calico in workload cluster"
       (installCalico kubeconfigPath (s_private s) (awsEKSEnabled spec) false)).

Definition reload_capa : st world unit :=
  let rbacAWSNodePath := "/kind/aws-node_rbac.yaml" in
  exec_ "kubectl -n capa-system rollout restart deployment capa-controller-manager" 5 3 "failed to reload capa-controller-manager" ;;
  exec_ "kubectl -n capa-system rollout status deployment capa-controller-manager" 5 3
    "failed to wait for capa-controller-manager" ;;
  exec_ (echo_dq (embedded "files/aws/aws-node_rbac.yaml") rbacAWSNodePath) 5 3
    "failed to write the kubernetes additional RBAC aws node" ;;
  exec_ (on_workload (" apply -f " +:+ rbacAWSNodePath)) 5 3 "failed to apply the kubernetes additional RBAC aws node".

Definition prepare_nodes (kc : KeosCluster) : st world unit :=
  let spec := kc_Spec kc in
  let failed := "failed to create the worker Cluster" in
  st_when (awsEKSEnabled spec) reload_capa ;;
  st_when (hasMachinePool spec)
    (exec_ (in_ns kc (" wait --for=jsonpath='{.status.deprecated.v1beta1.conditions[?(@.type==" +:+ Q "Ready" +:+
       ")].status}'=True --timeout=15m --all mp")) 5 3 failed ;;
     exec_ (on_workload " -n kube-system rollout status deployment -l k8s-app=metrics-server --timeout=90s") 5 3
       "failed to wait for container metrics to be available") ;;
  st_when (hasMachineDeployment spec)
    (exec_ (in_ns kc " wait --for=condition=Available --timeout=15m --all md") 5 3 failed) ;;
  ha ← (if negb (cp_Managed (ks_ControlPlane spec)) then pure (deref (cp_HighlyAvailable (ks_ControlPlane spec))) else mret false);
  st_when ha
    (exec_ (in_ns kc (" wait --for=jsonpath=" +:+ Q "{.status.readyReplicas}" +:+ "=3" +:+ " --timeout 10m kubeadmcontrolplanes " +:+
       md_Name (kc_Metadata kc) +:+ "-control-plane")) 5 3 failed).

(** ** DNS *)

(** The error of the first template is overwritten by that of the second. *)
Definition gke_coredns (spec : KeosSpec) (prv : PrivateParams) : st world unit :=
  let prv' := with_KeosRegUrl (GetPrefixedRegistryURL "registry.k8s.io" (prv_KeosRegUrl prv) (prv_CentralECR prv)) prv in
  let coreDNSTemplate := "/kind/coredns-configmap.yaml" in
  mv ← get w_majorVersion;
  gcpCoreDNSTemplate ← try_ (manifest (ks_InfraProvider spec) "coredns_deployment.tmpl" mv (params_of_private prv'));
  coreDNSConfigmap ← st_wrap "failed to get CoreDNS file"
    (manifest (ks_InfraProvider spec) "coredns_configmap.tmpl" mv (ParamsKeosSpec spec));
  exec_ (echo_to coreDNSConfigmap coreDNSTemplate) 3 5 "failed to create CoreDNS configmap file" ;;
  exec_ (on_workload (" apply -f " +:+ coreDNSTemplate)) 3 5 "failed to apply CoreDNS configmap" ;;
  exec_ (echo_to (match gcpCoreDNSTemplate with Ok t => t | _ => "" end) GKECoreDNSDeploymentPath) 3 5
    "failed to create CoreDNS deployment and RBAC file" ;;
  exec_ (on_workload (" apply -f " +:+ GKECoreDNSDeploymentPath)) 3 5 "failed to apply CoreDNS deployment and RBAC" ;;
  exec_ (on_workload " -n kube-system rollout status deploy/coredns --timeout=3m") 3 5
    "failed to wait for the CoreDNS deployment to be ready" ;;
  exec_ (on_workload " scale deployment kube-dns-autoscaler -n kube-system --replicas=0") 3 5
    "failed to disable kube-dns-autoscaler deployment" ;;
  exec_ (on_workload " scale deployment kube-dns -n kube-system --replicas=0") 3 5 "failed to disable kube-dns deployment".

Definition restart_coredns : st world unit :=
  exec_ (on_workload " -n kube-system rollout restart deployment coredns") 3 5 "failed to restart coredns deployment" ;;
  exec_ (on_workload " -n kube-system rollout status deployment coredns") 3 5 "failed to wait for coredns ready".

(** ** Flux *)

Fixpoint flux_account (manifests : list string) : string :=
  match manifests with
  | [] => ""
  | mf :: manifests =>
      if Contains mf "kind: KeosCluster" then
        match unmarshal_KeosCluster mf with
        | Ok kc => default "" (security ← gcp_ClusterSecurity (cp_Gcp (ks_ControlPlane (kc_Spec kc)));
                               identity ← csec_WorkloadIdentityConfig security;
                               mret (map_get (wic_ServiceAccounts identity) "flux"))
        | _ => ""
        end
      else flux_account manifests
  end.

Definition annotate_flux (a : action) : st world unit :=
  raw ← try_ (run_once (HostRead (a_descriptorPath a)));
  match raw with
  | Ok descriptorRaw =>
      let fluxSAEmail := flux_account (Split descriptorRaw ("---" +:+ nl)) in
      st_when (fluxSAEmail <>s "")
        (exec_ (on_workload (" annotate serviceaccount source-controller --overwrite iam.gke.io/gcp-service-account=" +:+
           fluxSAEmail +:+ " -n kube-system")) 5 3 "failed to annotate Flux serviceaccount for Workload Identity")
  | _ => mret tt
  end.

Definition gitops : st world bool := c ← config; mret (ccs_GitOpsEnabled (cc_Spec c)).

Definition install_flux (a : action) (s : setup) : st world unit :=
  let spec := kc_Spec (a_keosCluster a) in
  g ← gitops;
  st_when (negb g)
    (st_wrap "failed to install Flux in workload cluster"
       (configureFlux kubeconfigPath (s_private s) (s_helm s) spec (s_charts s)) ;;
     st_when (gcpGKEEnabled spec) (annotate_flux a) ;;
     st_wrap "failed to reconcile with Flux the existing Helm charts in workload cluster"
       (reconcileCharts kubeconfigPath (s_private s) spec (s_charts s))).

(** ** Network policies *)

Definition getDenyAllEgressIMDSGNetPol (p : Provider) : res string :=
  errors_Wrap "error opening the deny all egress IMDS file"
    (read_file ("files/" +:+ capxProvider p +:+ "/deny-all-egress-imds_gnetpol.yaml")).
Definition getAllowCAPXEgressIMDSGNetPol (p : Provider) : res string :=
  errors_Wrap "error opening the allow egress IMDS file"
    (read_file ("files/" +:+ capxProvider p +:+ "/allow-egress-imds_gnetpol.yaml")).

Definition allow_egress (namespace message : string) : st world unit :=
  exec_ (on_workload (" -n " +:+ namespace +:+ " apply -f " +:+ allowCommonEgressNetPolPath)) 5 3 message.

Definition imds_policies (p : Provider) (infra : string) : st world unit :=
  let denyallEgressIMDSGNetPolPath := "/kind/deny-all-egress-imds_gnetpol.yaml" in
  let allowCAPXEgressIMDSGNetPolPath := "/kind/allow-egress-imds_gnetpol.yaml" in
  denyEgress ← pure (getDenyAllEgressIMDSGNetPol p);
  exec_ (echo_dq denyEgress denyallEgressIMDSGNetPolPath) 5 3
    ("failed to write the deny-all-traffic-to-" +:+ infra +:+ "-imds global network policy") ;;
  allowEgress ← pure (getAllowCAPXEgressIMDSGNetPol p);
  exec_ (echo_dq allowEgress allowCAPXEgressIMDSGNetPolPath) 5 3
    ("failed to write the allow-traffic-to-" +:+ infra +:+ "-imds-capa global network policy") ;;
  exec_ (on_workload (" apply -f " +:+ denyallEgressIMDSGNetPolPath)) 5 3 "failed to apply deny IMDS traffic GlobalNetworkPolicy" ;;
  exec_ (on_workload (" apply -f " +:+ allowCAPXEgressIMDSGNetPolPath)) 5 3
    "failed to apply allow CAPX as egress GlobalNetworkPolicy".

Definition capi_egress (p : Provider) (d : string * string) : st world unit :=
  st_when (runs_on p (fst d))
    (allow_egress (snd d) ("failed to apply CAPI's egress NetworkPolicy in namespace " +:+ snd d)).

Definition network_policies (spec : KeosSpec) (p : Provider) : st world unit :=
  st_when (unmanaged_or_aws spec)
    (allow_egress "tigera-operator" "failed to apply tigera-operator egress NetworkPolicy" ;;
     allow_egress "calico-system" "failed to apply calico-system egress NetworkPolicy") ;;
  allow_egress (capx_ns p) "failed to apply CAPX's NetworkPolicy in workload cluster" ;;
  st_each (capi_egress p) capiDeployments ;;
  allow_egress "cert-manager" "failed to apply cert-manager's NetworkPolicy" ;;
  allow_egress "kube-system" "failed to apply kube-system egress NetworkPolicy" ;;
  st_when (ks_InfraProvider spec <>s "azure") (imds_policies p (ks_InfraProvider spec)).

(** ** Storage, autoscaler, operator and load balancers *)

Definition install_storage (s : setup) (spec : KeosSpec) : st world unit :=
  st_when (negb (cp_Managed (ks_ControlPlane spec)))
    (st_wrap "failed to install CSI in workload cluster"
       (installCSI (s_builder s) kubeconfigPath (s_private s) (s_params s) (s_charts s))) ;;
  st_wrap "failed to configure StorageClass in workload cluster"
    (configureStorageClass (s_builder s) (s_provider s) kubeconfigPath).

Definition install_operator_workload (a : action) (s : setup) : st world unit :=
  let spec := kc_Spec (a_keosCluster a) in
  g ← gitops;
  st_when (negb g)
    (st_when (ks_DeployAutoscaler spec && (negb (isMachinePool spec) || awsEKSEnabled spec))
       (st_wrap "failed to install cluster-autoscaler in workload cluster"
          (deployClusterAutoscaler (s_charts s) (s_private s) (capiClustersNamespace (a_keosCluster a)) (a_moveManagement a))) ;;
     st_wrap "failed to deploy cluster operator in workload cluster"
       (deployClusterOperator (s_provider s) (s_private s) (s_credentials s) (s_registry s) kubeconfigPath true (s_helm s))).

Definition internal_loadbalancing (s : setup) (spec : KeosSpec) : st world unit :=
  let rbacInternalLoadBalancingPath := "/kind/internalloadbalancing_rbac.yaml" in
  requiredInternalNginx ← pure (internalNginx (s_builder s) (s_provider s) (s_params s) (ks_Networks spec));
  st_when requiredInternalNginx
    (exec_ (echo_dq (embedded "files/gcp/rbac-loadbalancing.yaml") rbacInternalLoadBalancingPath) 5 3
       "failed to write the kubernetes RBAC internal loadbalancing" ;;
     exec_ (on_workload (" apply -f " +:+ rbacInternalLoadBalancingPath)) 5 3
       "failed to the kubernetes RBAC internal loadbalancing").

Definition customize (a : action) (s : setup) : st world unit :=
  let spec := kc_Spec (a_keosCluster a) in
  st_when (Nat.ltb 0 (length (dns_Forwarders (ks_Dns spec))) && (negb (awsEKSEnabled spec) || negb (gcpGKEEnabled spec)))
    (st_wrap "failed to customized CoreDNS configuration" (customCoreDNS (a_keosCluster a))) ;;
  st_when (capxProvider (s_provider s) =s "gcp") (internal_loadbalancing s spec) ;;
  c ← config;
  st_when (negb (ccs_GitOpsEnabled (cc_Spec c)) && (awsEKSEnabled spec && ccs_EKSLBController (cc_Spec c)))
    (st_wrap "failed to install AWS LB controller in workload cluster"
       (installLBController kubeconfigPath (s_private s) (s_params s) (s_charts s))).

(** ** Backup and move of the management role *)

Definition copy_to_host (n path : string) : st world unit :=
  _ ← st_wrap ("failed to copy " +:+ path +:+ " to local host")
    (run_once (HostRun ("docker cp " +:+ n +:+ ":" +:+ path +:+ " " +:+ localBackupPath)));
  mret tt.

Definition backup_objects (kc : KeosCluster) : string :=
  "clusterctl move -n " +:+ capiClustersNamespace kc +:+ " --to-directory " +:+ cloudProviderBackupPath.

(** [os.IsNotExist] of the error of [os.Stat], which ends with the text of [ENOENT]. *)
Definition os_IsNotExist {A} (r : res A) : bool :=
  match r with Err e => HasSuffix e "no such file or directory" | _ => false end.
Definition backup (kc : KeosCluster) (n : string) : st world unit :=
  there ← try_ (run_once (HostStat localBackupPath));
  st_when (os_IsNotExist there)
    (_ ← st_wrap "failed to create local backup directory" (run_once (HostMkdir localBackupPath)); mret tt) ;;
  exec_ ("mkdir -p " +:+ cloudProviderBackupPath +:+ " && chmod -R 0755 " +:+ cloudProviderBackupPath) 5 3
    "failed to create cloud-provisioner backup directory" ;;
  exec_ (backup_objects kc) 5 3
    "failed to backup cloud-provisioner Objects" ;;
  st_each (copy_to_host n) PathsToBackupLocally.

(** The commands that move the objects of the management cluster. *)
Definition pivot (kc : KeosCluster) : string :=
  "clusterctl move -n " +:+ capiClustersNamespace kc +:+ " --to-kubeconfig " +:+ kubeconfigPath.
Definition copy_clusterconfig (kc : KeosCluster) (name : string) : string :=
  in_ns kc (" get clusterconfig " +:+ name +:+ " -o json | kubectl apply --kubeconfig " +:+ kubeconfigPath +:+ " -f-").
Definition delete_clusterconfig (kc : KeosCluster) (name : string) : string := in_ns kc (" delete clusterconfig " +:+ name).
Definition copy_keoscluster (kc : KeosCluster) : string :=
  in_ns kc (" get keoscluster " +:+ md_Name (kc_Metadata kc) +:+ " -o json | jq 'del(.status)' | kubectl apply --kubeconfig " +:+
    kubeconfigPath +:+ " -f-").
Definition delete_keoscluster (kc : KeosCluster) : string := in_ns kc (" delete keoscluster " +:+ md_Name (kc_Metadata kc)).

Definition move_clusterconfig (kc : KeosCluster) (name : string) : st world unit :=
  exec_ (in_ns kc (" patch clusterconfig " +:+ name +:+
    js " -p '{`metadata`:{`ownerReferences`:null,`finalizers`:null}}' --type=merge")) 5 3
    "failed to remove clusterconfig ownerReferences and finalizers" ;;
  exec_ (copy_clusterconfig kc name) 5 3 "failed to move clusterconfig to workload cluster" ;;
  exec_ (delete_clusterconfig kc name) 5 3 "failed to delete clusterconfig in management cluster".

Definition move_keoscluster (kc : KeosCluster) : st world unit :=
  exec_ (copy_keoscluster kc) 5 3 "failed to move keoscluster to workload cluster" ;;
  exec_ (in_ns kc (" patch keoscluster " +:+ md_Name (kc_Metadata kc) +:+
    js " -p '{`metadata`:{`finalizers`:null}}' --type=merge")) 5 3 "failed to scale keoscluster deployment to 1" ;;
  exec_ (delete_keoscluster kc) 5 3 "failed to delete keoscluster in management cluster".

Definition role_identity (kc : KeosCluster) : st world unit :=
  let name := md_Name (kc_Metadata kc) in
  let k := on_workload (" -n cluster-" +:+ name) in
  r ← try_ (exec (k +:+ " get awsmanagedcontrolplane " +:+ name +:+ "-control-plane") 5 3);
  st_when (negb (is_Ok r))
    (exec_ (k +:+ " wait --for=condition=Available --timeout=5m awsmanagedcontrolplane " +:+ name +:+ "-control-plane") 5 3
       "failed to wait for awsmanagedcontrolplane to be created") ;;
  exec_ (k +:+ " patch awsmanagedcontrolplane " +:+ name +:+ "-control-plane --type='merge' -p '" +:+
    js "{`spec`: {`identityRef`: {`kind`: `AWSClusterRoleIdentity`, `name`: `" +:+ name +:+ js "-role-identity`}}}'") 5 3
    "Failed to patch AWSManagedControlPlane to use identityRef AWSClusterRoleIdentity".

Definition hand_over (a : action) (s : setup) : st world unit :=
  let kc := a_keosCluster a in
  exec_ (on_workload " rollout status deploy keoscluster-controller-manager -n kube-system --timeout=5m") 5 3
    "failed to wait for keoscluster controller ready" ;;
  cfg ← get w_config;
  match cfg with Some c => move_clusterconfig kc (md_Name (cc_Metadata c)) | None => mret tt end ;;
  move_keoscluster kc ;;
  st_wrap "failed to deploy cluster operator"
    (deployClusterOperator (s_provider s) (s_private s) (s_credentials s) (s_registry s) "" false (s_helm s)) ;;
  st_when (map_get (pp_Credentials (s_params s)) "RoleARN" <>s "") (role_identity kc).

Definition move_management (a : action) (s : setup) : st world unit :=
  let kc := a_keosCluster a in
  exec_ "helm uninstall cluster-operator -n kube-system" 5 3 "Uninstalling cluster-operator" ;;
  r ← try_ (exec (on_workload (" get ns " +:+ capiClustersNamespace kc)) 5 3);
  st_when (negb (is_Ok r))
    (exec_ (on_workload (" create ns " +:+ capiClustersNamespace kc)) 5 3 "failed to create manifests Namespace") ;;
  exec_ (pivot kc) 5 3 "failed to pivot management role to worker cluster" ;;
  g ← gitops;
  st_when (negb g) (hand_over a s).

(** ** The action *)

Definition install_capx_workload (kc : KeosCluster) (s : setup) : st world unit :=
  deployCertManager (kreg_url (s_registry s)) kubeconfigPath (s_private s) ;;
  c ← config;
  installCAPXWorker (s_provider s) kc c kubeconfigPath ;;
  configCAPIWorker (s_provider s) kc kubeconfigPath.
Definition self_healing (kc : KeosCluster) : st world unit :=
  cfg ← get w_config;
  st_wrap "failed to enable workload cluster's self-healing" (enableSelfHealing kc (capiClustersNamespace kc) cfg).

(** From the kubeconfig on. *)
Definition configure_workload (a : action) (s : setup) (kubeconfig : string) : st world unit :=
  let kc := a_keosCluster a in
  let spec := kc_Spec kc in
  save_kubeconfig kc kubeconfig ;;
  install_network s spec ;;
  prepare_nodes kc ;;
  st_when (gcpGKEEnabled spec) (gke_coredns spec (s_private s)) ;;
  restart_coredns ;;
  install_capx_workload kc s ;;
  install_flux a s ;;
  self_healing kc ;;
  network_policies spec (s_provider s) ;;
  install_storage s spec ;;
  install_operator_workload a s ;;
  customize a s ;;
  backup kc (s_node s) ;;
  st_when (negb (a_moveManagement a)) (move_management a s) ;;
  postInstallPhase (s_builder s) (s_provider s) kubeconfigPath.

(** Whether the rest of the action runs. *)
Definition create_workload (a : action) (s : setup) : st world bool :=
  let spec := kc_Spec (a_keosCluster a) in
  st_when ((ks_InfraProvider spec =s "aws") && secaws_CreateIAM (sec_AWS (ks_Security spec)))
    (st_wrap "failed to create the IAM security"
       (createCloudFormationStack (capxEnvVars (s_provider s)) (secaws_NodegroupExtraPolicyARN (sec_AWS (ks_Security spec))))) ;;
  apply_manifests (a_keosCluster a) ;;
  kubeconfig ← workload_kubeconfig (a_keosCluster a);
  match kubeconfig with
  | Some kubeconfig => configure_workload a s kubeconfig ;; mret true
  | None => mret false
  end.

(** The files of the installer. *)
Definition installer_files (a : action) (s : setup) : st world unit :=
  createKEOSDescriptor (LocalFiles0 := worker_files) yaml_KEOSDescriptor (a_keosCluster a) scName ;;
  c ← config;
  overrides ← pure (getOverrideVars (s_builder s) (s_provider s) (s_params s) (ks_Networks (kc_Spec (a_keosCluster a))) (cc_Spec c));
  l ← get (λ w, files_order (w_log w) overrides);
  override_vars (LocalFiles0 := worker_files) l.

(** The namespace of the cluster and the operator, in the management cluster. *)
Definition install_operator_management (kc : KeosCluster) (p : Provider) (prv : PrivateParams) (cc : ClusterCredentials)
    (registry : KeosRegistry) (helm : HelmRegistry) : st world unit :=
  exec_ ("kubectl create ns " +:+ capiClustersNamespace kc) 5 3 "failed to create cluster's Namespace" ;;
  exec_ (echo_dq (embedded "files/common/allow-all-egress_netpol.yaml") allowCommonEgressNetPolPath) 5 3
    "failed to write the allow-all-egress network policy" ;;
  st_wrap "failed to deploy cluster operator" (deployClusterOperator p prv cc registry "" true helm).

(** What is computed and installed before the cluster is created, once the version is
    known. *)
Definition install_management (a : action) (node : res string) : st world setup :=
  let kc := a_keosCluster a in
  let spec := kc_Spec kc in
  let cc := a_clusterCredentials a in
  n ← pure node;
  c ← config;
  let capx := ccs_Capx (cc_Spec c) in
  let pp := provider_params kc cc capx in
  b ← pure (deref (getBuilder (ks_InfraProvider spec)));
  let p := buildProvider b pp in
  helm ← loginHelmRepo kc cc b p pp;
  pullProviderCharts (builder_charts b) spec cc ;;
  registry ← pure (authenticate cc b p pp (fold_left set_registry (ks_DockerRegistries spec) zero_KeosRegistry));
  cfg ← get w_config;
  let prv := private_params kc registry cfg in
  st_when (prv_Private prv) (private_cni registry) ;;
  charts ← getProviderCharts (builder_charts b) spec;
  registry ← pure (authenticate cc b p pp (fold_left set_registry_again (ks_DockerRegistries spec) registry));
  install_local spec p pp registry prv ;;
  cc ← local_files a;
  install_operator_management kc p prv cc registry helm ;;
  mret (mkSetup n (provider_params kc cc capx) b p helm registry prv charts cc).

Definition prepare (a : action) (node : res string) : st world setup :=
  majorVersion ← pure (index (Split (ks_K8SVersion (kc_Spec (a_keosCluster a))) ".") 1);
  modify (with_majorVersion majorVersion) ;;
  install_management a node.

(** [node]: what [ctx.GetNode()] returns. *)
Definition Execute (a : action) (node : res string) : st world unit :=
  s ← prepare a node;
  go_on ← (if a_avoidCreation a then mret true else create_workload a s);
  st_when go_on (installer_files a s).
End execute.
