(* ===== verification/Effects.v ===== *)
(** * What the steps of the createworker action do to the log

    A property of the log that every command keeps, but for the few that move the
    objects of the management cluster, is kept by every step of the installation
    ([Recorded] and its lemmas, one for each function).  Three properties of whole runs
    follow from them in [Execution]. *)

From S2P Require Import Prelude State GoStr Regexp KeosTypes Descriptor Aws Secrets ValidateAzure Base64 Commons Oci Worker Charts Builder Clouds Install Operator Providers Descriptors CreateWorker.
Local Open Scope Z_scope.
Local Open Scope go_scope.
Local Open Scope stdpp_scope.

(** ** The commands that move objects *)

Definition ns_moving (rest : string) : bool :=
  HasPrefix rest " delete " || HasPrefix rest " get clusterconfig " || HasPrefix rest " get keoscluster ".
Definition moving (kc : KeosCluster) (c : string) : bool :=
  HasPrefix c (in_ns kc " delete ") || HasPrefix c (in_ns kc " get clusterconfig ") ||
  HasPrefix c (in_ns kc " get keoscluster ") || (c =s pivot kc).

Lemma prefix_app_same p a b : String.prefix (p +:+ a) (p +:+ b) = String.prefix a b.
Proof. induction p as [|c p IH]; [done|]. simpl. destruct (Ascii.ascii_dec c c); [done|]. by destruct n. Qed.

Lemma eqb_app_same p a b : (p +:+ a =s p +:+ b) = (a =s b).
Proof. induction p as [|c p IH]; [done|]. simpl. by rewrite Ascii.eqb_refl. Qed.

Lemma prefix_app_false p q s : String.prefix p s = false → String.prefix (p +:+ q) s = false.
Proof.
  revert s. induction p as [|c p IH]; intros [|d s] Hp; try done. simpl in *.
  destruct (Ascii.ascii_dec c d); [by apply IH|done].
Qed.

Lemma moving_other kc c :
  HasPrefix c "kubectl -n cluster-" = false → HasPrefix c "clusterctl move" = false → moving kc c = false.
Proof.
  unfold HasPrefix. intros Hns Hmove. unfold moving, HasPrefix, in_ns, capiClustersNamespace.
  change ("kubectl -n " +:+ ("cluster-" +:+ md_Name (kc_Metadata kc)) +:+ " delete ")
    with ("kubectl -n cluster-" +:+ (md_Name (kc_Metadata kc) +:+ " delete ")).
  change ("kubectl -n " +:+ ("cluster-" +:+ md_Name (kc_Metadata kc)) +:+ " get clusterconfig ")
    with ("kubectl -n cluster-" +:+ (md_Name (kc_Metadata kc) +:+ " get clusterconfig ")).
  change ("kubectl -n " +:+ ("cluster-" +:+ md_Name (kc_Metadata kc)) +:+ " get keoscluster ")
    with ("kubectl -n cluster-" +:+ (md_Name (kc_Metadata kc) +:+ " get keoscluster ")).
  rewrite !(prefix_app_false "kubectl -n cluster-") by done. simpl. apply String.eqb_neq. intros ->. discriminate Hmove.
Qed.

Lemma moving_ns kc rest : ns_moving rest = false → moving kc (in_ns kc rest) = false.
Proof.
  unfold ns_moving, moving, HasPrefix, in_ns. intros Hr. rewrite !orb_false_iff in Hr. destruct Hr as [[H1 H2] H3].
  by rewrite !prefix_app_same, H1, H2, H3.
Qed.

Lemma moving_backup kc : moving kc (backup_objects kc) = false.
Proof.
  unfold moving, backup_objects, in_ns, pivot, HasPrefix. simpl. by rewrite eqb_app_same.
Qed.

(** ** Properties of the log that the other commands keep *)

Definition is_cmd (ev : event) : bool := match ev with Cmd _ _ => true | _ => false end.

(** [quiet]: the errors of the event do not stop the action. *)
Class Recorded `{Host} (kc : KeosCluster) (quiet : event → bool) (S F : relation world) : Prop := {
  rec_effect :: Effect S F;
  rec_silent w w' : w_log w' = w_log w → w_majorVersion w' = w_majorVersion w → S w w';
  rec_exec c t n env : moving kc c = false → sat (exec_env c t n env) S F;
  rec_run ev : is_cmd ev = false → sat (run_once ev) S F;
  rec_try c t n env : moving kc c = false → quiet (Cmd c env) = true → sat (try_ (exec_env c t n env)) S F;
  rec_try_run ev : is_cmd ev = false → quiet ev = true → sat (try_ (run_once ev)) S F
}.

Create HintDb effects discriminated.
#[export] Hint Extern 0 (Recorded _ _ _ _) => solve [typeclasses eauto] : effects.

Ltac not_moving := first [assumption | apply moving_other; reflexivity | apply moving_ns; reflexivity].

Section steps.
Context `{Host} `{Texts} `{SortSlice} `{ChartRepositories} `{CloudApis}.
Context {kc : KeosCluster} {quiet : event → bool} {S F : relation world} `{!Recorded kc quiet S F}.

Lemma exec_sat c t n : moving kc c = false → sat (exec c t n) S F.
Proof. apply rec_exec. Qed.
Lemma exec__sat c t n s : moving kc c = false → sat (exec_ c t n s) S F.
Proof. intros Hc. unfold exec_. apply sat_bind; [by apply sat_wrap, exec_sat|]. intros ?. apply sat_ret. Qed.
Lemma exec_plain_sat c t n : moving kc c = false → sat (exec_plain c t n) S F.
Proof. intros Hc. unfold exec_plain. apply sat_bind; [by apply exec_sat|]. intros ?. apply sat_ret. Qed.
Lemma exec_env__sat c t n env s : moving kc c = false → sat (exec_env_ c t n env s) S F.
Proof. intros Hc. unfold exec_env_. apply sat_bind; [by apply sat_wrap, rec_exec|]. intros ?. apply sat_ret. Qed.
Lemma node_run_sat args stdin s : sat (node_run args stdin s) S F.
Proof. unfold node_run. apply sat_bind; [by apply sat_wrap, rec_run|]. intros ?. apply sat_ret. Qed.
Lemma manifest_sat parent name mv p : sat (manifest parent name mv p) S F.
Proof. apply sat_pure. Qed.
Lemma silent_sat f : (∀ w, w_log (f w) = w_log w) → (∀ w, w_majorVersion (f w) = w_majorVersion w) → sat (modify f) S F.
Proof. intros Hl Hm. apply sat_modify. intros w. by apply rec_silent. Qed.
Lemma lift_versions_sat {A} (m : st versions A) : sat (lift_versions m) S F.
Proof.
  intros w. unfold lift_versions. destruct (m (w_versions w)) as [r vs].
  assert (S w (with_versions vs w)) as HS by (by apply rec_silent).
  destruct r; [done|by eapply eff_seq; [exact HS|apply eff_fail]..].
Qed.
End steps.

Ltac effect_step :=
  cbv zeta;
  lazymatch goal with
  | |- sat (exec_ _ _ _ _) _ _ => apply exec__sat; not_moving
  | |- sat (exec_plain _ _ _) _ _ => apply exec_plain_sat; not_moving
  | |- sat (exec_env_ _ _ _ _ _) _ _ => apply exec_env__sat; not_moving
  | |- sat (exec _ _ _) _ _ => apply exec_sat; not_moving
  | |- sat (exec_env _ _ _ _) _ _ => apply rec_exec; not_moving
  | |- sat (node_run _ _ _) _ _ => apply node_run_sat
  | |- sat (run_once _) _ _ => apply rec_run; reflexivity
  | |- sat (manifest _ _ _ _) _ _ => apply manifest_sat
  | |- sat (lift_versions _) _ _ => apply lift_versions_sat
  | |- sat (modify _) _ _ => apply silent_sat; reflexivity
  | |- sat (try_ (manifest _ _ _ _)) _ _ => apply sat_try_pure
  | |- sat (try_ (pure _)) _ _ => apply sat_try_pure
  | |- sat (try_ _) _ _ => fail
  | _ => first [sat_step | solve [eauto with effects]]
  end.
Ltac effect := repeat effect_step.

(** ** Charts and releases *)

Section charts.
Context `{Host} `{Texts} `{SortSlice} `{ChartRepositories} `{CloudApis}.
Context {kc : KeosCluster} {quiet : event → bool} {S F : relation world} `{!Recorded kc quiet S F}.

Lemma config_spec_sat : sat config_spec S F.
Proof. unfold config_spec. effect. Qed.
Lemma set_config_spec_sat f : sat (set_config_spec f) S F.
Proof. unfold set_config_spec. effect. Qed.
Lemma write_selected_sat d ct f : sat (modify (write_selected d ct f)) S F.
Proof. effect. Qed.
Lemma getGenericCharts_sat spec keosSpec d ct : sat (getGenericCharts spec keosSpec d ct) S F.
Proof. unfold getGenericCharts. effect. Qed.
Lemma ConvertToChart_sat m : sat (ConvertToChart m) S F.
Proof. unfold ConvertToChart. effect. Qed.
Lemma pull_chart_sat keosSpec cc x : sat (pull_chart keosSpec cc x) S F.
Proof.
  unfold pull_chart. destruct x as [name e]. cbv zeta. apply sat_when. intros _. apply exec__sat.
  unfold pull_command. cbv zeta. repeat case_match; not_moving.
Qed.
Lemma pullCharts_sat m keosSpec cc : sat (pullCharts m keosSpec cc) S F.
Proof. unfold pullCharts. effect. apply pull_chart_sat. Qed.
Lemma getProviderCharts_sat d keosSpec : sat (getProviderCharts d keosSpec) S F.
Proof. unfold getProviderCharts. effect; [apply config_spec_sat|apply getGenericCharts_sat..]. Qed.
Lemma pullProviderCharts_sat d keosSpec cc : sat (pullProviderCharts d keosSpec cc) S F.
Proof.
  unfold pullProviderCharts, builder_pullProviderCharts, pullGenericCharts, getOverriddenCharts, builder_getOverriddenCharts.
  repeat first [apply config_spec_sat | apply getGenericCharts_sat | apply pullCharts_sat | apply write_selected_sat
               | apply ConvertToChart_sat | apply set_config_spec_sat | effect_step].
Qed.

Lemma configureHelmRepository_sat k t name url scheme spec creds i : sat (configureHelmRepository k t name url scheme spec creds i) S F.
Proof. unfold configureHelmRepository. effect. Qed.
Lemma configureHelmRelease_sat k t p hr : sat (configureHelmRelease k t p hr) S F.
Proof. unfold configureHelmRelease. effect. Qed.
Lemma flux_repositories_sat k spec creds i scheme l : sat (flux_repositories k spec creds i scheme l) S F.
Proof.
  revert scheme. induction l as [|[name e] l IH]; intros scheme; [apply sat_ret|]. cbn [flux_repositories]. case_match; [|apply IH].
  apply sat_bind; [apply configureHelmRepository_sat|]. intros _. apply IH.
Qed.
End charts.
#[export] Hint Resolve config_spec_sat set_config_spec_sat getProviderCharts_sat pullProviderCharts_sat
  configureHelmRepository_sat configureHelmRelease_sat flux_repositories_sat : effects.

(** ** Steps of the installation *)

Section install.
Context `{Host} `{Texts} `{SortSlice} `{ChartRepositories} `{CloudApis}.
Context {kc : KeosCluster} {quiet : event → bool} {S F : relation world} `{!Recorded kc quiet S F}.

Lemma configureFlux_sat k pp creds spec m : sat (configureFlux k pp creds spec m) S F.
Proof. unfold configureFlux. effect. Qed.
Lemma reconcileCharts_sat k pp spec m : sat (reconcileCharts k pp spec m) S F.
Proof. unfold reconcileCharts, reconcile_chart. effect. Qed.
Lemma deployCertManager_sat url k pp : sat (deployCertManager url k pp) S F.
Proof. unfold deployCertManager. effect. apply exec__sat. case_match; not_moving. Qed.
Lemma installCalico_sat k pp b d : sat (installCalico k pp b d) S F.
Proof. unfold installCalico. effect. Qed.
Lemma deployClusterAutoscaler_sat m pp ns b : sat (deployClusterAutoscaler m pp ns b) S F.
Proof. unfold deployClusterAutoscaler. effect. Qed.
Lemma customCoreDNS_sat c : sat (customCoreDNS c) S F.
Proof. unfold customCoreDNS. effect. Qed.
Lemma installCorednsPdb_sat : sat installCorednsPdb S F.
Proof. unfold installCorednsPdb. effect. Qed.
Lemma patchDeploy_sat k ns name patch : sat (patchDeploy k ns name patch) S F.
Proof. unfold patchDeploy, rolloutStatus. effect. Qed.

(** The names of the providers. *)
Definition known_capx (p : Provider) : Prop := str_in (capxName p) ["capa"; "capg"; "capz"] = true.
Lemma known_capx_cases p : known_capx p → capxName p = "capa" ∨ capxName p = "capg" ∨ capxName p = "capz".
Proof. unfold known_capx. rewrite str_in_true, !elem_of_cons, elem_of_nil. tauto. Qed.
Lemma moving_capx p c : known_capx p → moving kc ("kubectl -n " +:+ capx_ns p +:+ c) = false.
Proof. intros Hp. unfold capx_ns. apply known_capx_cases in Hp as [->|[->| ->]]; not_moving. Qed.

Lemma azure_client_secret_sat p : sat (azure_client_secret p) S F.
Proof. unfold azure_client_secret. effect. Qed.
Lemma installCAPXWorker_sat p c cfg k : sat (installCAPXWorker p c cfg k) S F.
Proof. unfold installCAPXWorker, resource_quota. effect. apply azure_client_secret_sat. Qed.
Lemma configCAPIWorker_sat p c k : sat (configCAPIWorker p c k) S F.
Proof. unfold configCAPIWorker, priority_class, scale_kubeadm. effect. Qed.
Lemma installCAPXLocal_sat p cfg pp : known_capx p → sat (installCAPXLocal p cfg pp) S F.
Proof. intros Hp. unfold installCAPXLocal. effect; first [apply azure_client_secret_sat | by apply exec__sat, moving_capx]. Qed.
Lemma enableSelfHealing_sat c cfg : sat (enableSelfHealing c (capiClustersNamespace kc) cfg) S F.
Proof. unfold enableSelfHealing, apply_mhc, generateMHCManifest. effect. Qed.
End install.
#[export] Hint Resolve configureFlux_sat reconcileCharts_sat deployCertManager_sat installCalico_sat deployClusterAutoscaler_sat
  customCoreDNS_sat installCorednsPdb_sat patchDeploy_sat installCAPXWorker_sat configCAPIWorker_sat installCAPXLocal_sat
  enableSelfHealing_sat : effects.

Section operator.
Context `{Host} `{Texts} `{SortSlice} `{ChartRepositories} `{CloudApis}.
Context {kc : KeosCluster} {quiet : event → bool} {S F : relation world} `{!Recorded kc quiet S F}.

Lemma loginHelmRepo_sat c cc b p pp : sat (loginHelmRepo c cc b p pp) S F.
Proof. unfold loginHelmRepo. effect. Qed.
Lemma operator_version_sat creds : sat (operator_version creds) S F.
Proof. unfold operator_version. effect. Qed.
Lemma registries_secret_sat l k : sat (registries_secret l k) S F.
Proof. unfold registries_secret. effect. apply exec__sat. case_match; not_moving. Qed.
Lemma install_operator_sat p c reg b creds v image : sat (install_operator p c reg b creds v image) S F.
Proof. unfold install_operator. effect. Qed.
Lemma release_operator_sat c k v : sat (release_operator c k v) S F.
Proof. unfold release_operator, wait_operator. effect. Qed.
Lemma deployClusterOperator_sat p pp cc reg k b creds : sat (deployClusterOperator p pp cc reg k b creds) S F.
Proof.
  unfold deployClusterOperator, aws_config_files, wait_operator.
  effect; first [apply operator_version_sat | apply registries_secret_sat | apply install_operator_sat | apply release_operator_sat].
Qed.
End operator.
#[export] Hint Resolve loginHelmRepo_sat deployClusterOperator_sat : effects.

(** ** Steps of the providers *)

Section providers.
Context `{Host} `{Texts} `{SortSlice} `{ChartRepositories} `{CloudApis}.
Context {kc : KeosCluster} {quiet : event → bool} {S F : relation world} `{!Recorded kc quiet S F}.

Lemma configureStorageClass_sat b p k : sat (configureStorageClass b p k) S F.
Proof.
  unfold configureStorageClass, aws_configureStorageClass, gcp_configureStorageClass, azure_configureStorageClass,
    remove_default_annotation, storage_class_text, apply_stdin. effect.
Qed.
Lemma installCloudProvider_sat b p k pp : sat (installCloudProvider b p k pp) S F.
Proof. unfold installCloudProvider, azure_installCloudProvider. effect. Qed.
Lemma installCSI_sat b k pp p m : sat (installCSI b k pp p m) S F.
Proof. unfold installCSI, azure_installCSI, azure_disk_secret, azure_csi. effect. Qed.
Lemma installLBController_sat k pp p m : sat (installLBController k pp p m) S F.
Proof. unfold installLBController. effect. Qed.

Definition get_pdb (name : string) : event := Cmd (kubectl kubeconfigPath +:+ " get pdb " +:+ name +:+ " -n kube-system") [].
Definition cloudformation (env : list string) : event :=
  Cmd "clusterawsadm bootstrap iam create-cloudformation-stack --config /kind/eks.config" env.

Lemma createCloudFormationStack_sat env arn : quiet (cloudformation env) = true → sat (createCloudFormationStack env arn) S F.
Proof. intros Hq. unfold createCloudFormationStack. effect. apply rec_try; [not_moving|done]. Qed.

Lemma ensure_coredns_pdb_sat name : quiet (get_pdb name) = true → sat (ensure_coredns_pdb name) S F.
Proof. intros Hq. unfold ensure_coredns_pdb, exec. effect. apply rec_try; [not_moving|done]. Qed.

Lemma postInstallPhase_sat b p k :
  quiet (get_pdb "coredns") = true → quiet (get_pdb "coredns-pdb") = true → sat (postInstallPhase b p k) S F.
Proof.
  intros Hq Hq'. unfold postInstallPhase, aws_postInstallPhase, gcp_postInstallPhase, azure_postInstallPhase.
  effect; apply ensure_coredns_pdb_sat; try case_match; done.
Qed.
End providers.
#[export] Hint Resolve configureStorageClass_sat installCloudProvider_sat installCSI_sat installLBController_sat
  createCloudFormationStack_sat postInstallPhase_sat : effects.
