(* ===== verification/Execution.v ===== *)
(** * Runs of the createworker action

    What holds of every run of [Execute], whatever the machines answer: a command that
    fails is the last one and makes the action fail ([Execute_stops]), and objects are
    deleted from the management cluster only after they were copied to the workload
    cluster ([Execute_hands_over]).  A minor version without templates, and forwarders
    of DNS, make every run fail. *)

From S2P Require Import Prelude State GoStr KeosTypes Descriptor Aws Secrets ValidateCommon ValidateAzure Base64 Commons Oci Worker Charts Builder Clouds Install Operator Providers Descriptors CreateWorker Effects.
Local Open Scope Z_scope.
Local Open Scope go_scope.
Local Open Scope stdpp_scope.

(** ** Events whose errors are looked at *)

Definition get_ns (kc : KeosCluster) : string := on_workload (" get ns " +:+ capiClustersNamespace kc).
Definition get_awsmanagedcontrolplane (kc : KeosCluster) : string :=
  let name := md_Name (kc_Metadata kc) in
  on_workload (" -n cluster-" +:+ name) +:+ " get awsmanagedcontrolplane " +:+ name +:+ "-control-plane".

Definition tolerated (a : action) (ev : event) : bool :=
  match ev with
  | HostStat _ => true
  | HostRead path => path =s a_descriptorPath a
  | Cmd c _ =>
      str_in c [get_kubeconfig (a_keosCluster a); get_ns (a_keosCluster a); get_awsmanagedcontrolplane (a_keosCluster a);
                kubectl kubeconfigPath +:+ " get pdb coredns -n kube-system";
                kubectl kubeconfigPath +:+ " get pdb coredns-pdb -n kube-system";
                "clusterawsadm bootstrap iam create-cloudformation-stack --config /kind/eks.config"]
  | _ => false
  end.

Ltac is_tolerated :=
  cbn [tolerated]; first
  [ reflexivity | apply String.eqb_refl
  | apply str_in_true; solve [repeat first [apply list_elem_of_here | apply list_elem_of_further]] ].

Section phases.
Context `{Host} `{Texts} `{SortSlice} `{ChartRepositories} `{CloudApis} `{LocalEncoders}.
Context {a : action} {quiet : event → bool} {S F : relation world}.
Let kc := a_keosCluster a.
Context `{!Recorded kc quiet S F} (Hquiet : ∀ ev, tolerated a ev = true → quiet ev = true).

Lemma try_sat c t n : moving kc c = false → tolerated a (Cmd c []) = true → sat (try_ (exec c t n)) S F.
Proof. intros Hm Ht. unfold exec. by apply rec_try; [|apply Hquiet]. Qed.
Lemma try_run_sat ev : is_cmd ev = false → tolerated a ev = true → sat (try_ (run_once ev)) S F.
Proof. intros Hc Ht. by apply rec_try_run; [|apply Hquiet]. Qed.

Ltac phase := effect; try first [ apply try_run_sat; [reflexivity|is_tolerated] | apply try_sat; [not_moving|is_tolerated] ].

Lemma config_sat : sat config S F.
Proof. unfold config. phase. Qed.
Lemma gitops_sat : sat gitops S F.
Proof. unfold gitops. phase; apply config_sat. Qed.

Lemma local_files_sat : sat (local_files a) S F.
Proof. unfold local_files, EnsureSecretsFile_, RewriteDescriptorFile_. phase. Qed.

Lemma known_capx_built b pp : known_capx (buildProvider b pp).
Proof. destruct b; [done..|]. unfold known_capx, buildProvider, azure_setSC. cbv zeta. by case_match. Qed.

Lemma install_local_sat p pp r prv : known_capx p → sat (install_local (kc_Spec kc) p pp r prv) S F.
Proof.
  intros Hp. unfold install_local, gke_registry, clusterctl_images, echo_lines. phase; try apply config_sat.
  all: try by apply installCAPXLocal_sat.
Qed.

Lemma apply_manifests_sat : sat (apply_manifests kc) S F.
Proof. unfold apply_manifests. phase. Qed.

Lemma kubeconfig_attempts_sat n r : sat (kubeconfig_attempts (get_kubeconfig kc) n r) S F.
Proof.
  revert r. induction n as [|n IH]; intros r; cbn [kubeconfig_attempts]; [apply sat_ret|].
  apply sat_bind; [phase|]. intros [s|e|x]; [apply sat_if; [apply sat_ret|apply IH]|apply IH..].
Qed.
Lemma workload_kubeconfig_sat : sat (workload_kubeconfig kc) S F.
Proof. unfold workload_kubeconfig. apply sat_bind; [apply kubeconfig_attempts_sat|]. intros r. phase. Qed.

Lemma save_kubeconfig_sat text : sat (save_kubeconfig kc text) S F.
Proof. unfold save_kubeconfig. phase. Qed.
Lemma install_network_sat s : sat (install_network s (kc_Spec kc)) S F.
Proof. unfold install_network. phase. Qed.
Lemma prepare_nodes_sat : sat (prepare_nodes kc) S F.
Proof. unfold prepare_nodes, reload_capa. phase. Qed.
Lemma gke_coredns_sat spec prv : sat (gke_coredns spec prv) S F.
Proof. unfold gke_coredns. phase. Qed.
Lemma restart_coredns_sat : sat restart_coredns S F.
Proof. unfold restart_coredns. phase. Qed.
Lemma install_flux_sat s : sat (install_flux a s) S F.
Proof. unfold install_flux, annotate_flux. phase; apply gitops_sat. Qed.
Lemma network_policies_sat spec p : sat (network_policies spec p) S F.
Proof. unfold network_policies, capi_egress, imds_policies, allow_egress. phase. Qed.
Lemma install_storage_sat s spec : sat (install_storage s spec) S F.
Proof. unfold install_storage. phase. Qed.
Lemma install_operator_workload_sat s : sat (install_operator_workload a s) S F.
Proof. unfold install_operator_workload. phase; apply gitops_sat. Qed.
Lemma customize_sat s : sat (customize a s) S F.
Proof. unfold customize, internal_loadbalancing. phase; apply config_sat. Qed.
Lemma role_identity_sat : sat (role_identity kc) S F.
Proof. unfold role_identity. phase. Qed.
Lemma createCloudFormationStack_tolerated env arn : sat (createCloudFormationStack env arn) S F.
Proof. apply createCloudFormationStack_sat, Hquiet. unfold cloudformation. is_tolerated. Qed.
Lemma postInstallPhase_tolerated b p k : sat (postInstallPhase b p k) S F.
Proof. apply postInstallPhase_sat; apply Hquiet; unfold get_pdb; is_tolerated. Qed.

(** The files of the installer. *)
Lemma os_Stat_sat path : sat (os_Stat (LocalFiles := worker_files) path) S F.
Proof. cbn [os_Stat worker_files]. phase. Qed.
Lemma os_Rename_sat x y : sat (os_Rename (LocalFiles := worker_files) x y) S F.
Proof. cbn [os_Rename worker_files]. phase. Qed.
Lemma os_MkdirAll_sat path : sat (os_MkdirAll (LocalFiles := worker_files) path) S F.
Proof. cbn [os_MkdirAll worker_files]. phase. Qed.
Lemma os_WriteFile_sat path text : sat (os_WriteFile (LocalFiles := worker_files) path text) S F.
Proof. cbn [os_WriteFile worker_files]. phase. Qed.
Lemma time_Now_sat layout : sat (time_Now (LocalFiles := worker_files) layout) S F.
Proof. cbn [time_Now worker_files]. phase. Qed.
Ltac files := repeat first [apply config_sat | apply os_Stat_sat | apply os_Rename_sat | apply os_MkdirAll_sat
  | apply os_WriteFile_sat | apply time_Now_sat | effect_step].
Lemma override_vars_sat l : sat (override_vars (LocalFiles0 := worker_files) l) S F.
Proof.
  unfold override_vars, write_override, createBackupOverrideVars, rotateBackupOverrideVars. destruct l; files.
Qed.
Lemma installer_files_sat s : sat (installer_files a s) S F.
Proof. unfold installer_files, createKEOSDescriptor. files. apply override_vars_sat. Qed.

(** What comes before the cluster is created. *)
Lemma install_management_sat n : sat (install_management a n) S F.
Proof.
  unfold install_management, install_operator_management, private_cni. phase.
  all: first [apply config_sat | apply local_files_sat | apply install_local_sat, known_capx_built].
Qed.

Lemma backup_sat n : sat (backup kc n) S F.
Proof. unfold backup, copy_to_host. phase. apply exec__sat, moving_backup. Qed.

(** The creation, when the commands that move objects are like the others. *)
Context (Hexec : ∀ c t n, sat (exec c t n) S F).

Lemma any_exec_sat c t n s : sat (exec_ c t n s) S F.
Proof. unfold exec_. apply sat_bind; [by apply sat_wrap|]. intros ?. apply sat_ret. Qed.

Lemma move_management_sat s : sat (move_management a s) S F.
Proof.
  unfold move_management, hand_over, move_clusterconfig, move_keoscluster.
  phase; first [apply any_exec_sat | apply gitops_sat | apply role_identity_sat].
Qed.

Lemma install_capx_workload_sat s : sat (install_capx_workload kc s) S F.
Proof. unfold install_capx_workload. phase; apply config_sat. Qed.
Lemma self_healing_sat : sat (self_healing kc) S F.
Proof. unfold self_healing. phase. Qed.

Lemma configure_workload_sat s text : sat (configure_workload a s text) S F.
Proof.
  unfold configure_workload.
  phase; first [apply save_kubeconfig_sat | apply install_network_sat | apply prepare_nodes_sat | apply gke_coredns_sat
    | apply restart_coredns_sat | apply install_capx_workload_sat | apply install_flux_sat | apply self_healing_sat | apply network_policies_sat | apply install_storage_sat
    | apply install_operator_workload_sat | apply customize_sat | apply backup_sat | apply move_management_sat
    | apply postInstallPhase_tolerated].
Qed.

Lemma create_workload_sat s : sat (create_workload a s) S F.
Proof.
  unfold create_workload. phase.
  all: first [apply createCloudFormationStack_tolerated | apply apply_manifests_sat | apply workload_kubeconfig_sat
             | apply configure_workload_sat].
Qed.
End phases.

(** ** A failing command is the last one *)


#[export] Instance failstop_recorded `{Host} a :
  Recorded (a_keosCluster a) (tolerated a) (all_ok (tolerated a)) (last_not_ok (tolerated a)).
Proof.
  split.
  - apply failstop.
  - intros w w' E _. exists []. by rewrite E.
  - intros c t n env _. apply exec_env_failstop.
  - intros ev _. apply run_once_failstop.
  - intros c t n env _ Ht. apply sat_try.
    + intros w. unfold exec_env. destruct (ExecuteCommand _ _ _) eqn:E; apply record_ok; unfold entry_ok; cbn [fst snd]; by rewrite Ht, orb_true_r.
    + intros w x w'. unfold exec_env. intros [= E _]. by apply ExecuteCommand_no_panic in E.
  - intros ev _ Ht. apply sat_try.
    + intros w. unfold run_once. destruct (at_error _); apply record_ok; unfold entry_ok; cbn [fst snd]; by rewrite Ht, orb_true_r.
    + intros w x w'. unfold run_once. by destruct (at_error _).
Qed.

Section stops.
Context `{Host} `{Texts} `{SortSlice} `{ChartRepositories} `{CloudApis} `{LocalEncoders}.

Lemma Execute_failstop a node : sat (Execute a node) (all_ok (tolerated a)) (last_not_ok (tolerated a)).
Proof.
  unfold Execute. apply sat_bind; [|intros s; apply sat_bind; [apply sat_if; [apply sat_ret|]|intros b; apply sat_when; intros _]].
  - unfold prepare. apply sat_bind; [apply sat_pure|]. intros v. apply sat_bind.
    + apply sat_modify. intros w. exists []. done.
    + intros _. by apply install_management_sat.
  - apply create_workload_sat; [done|]. intros c t n. apply exec_env_failstop.
  - by apply installer_files_sat.
Qed.

(** C2. The action stops at the first failure: of the commands that a run adds to the
    log, on the node and on the local machine, only the last one can have failed,
    but for the few whose errors the code looks at, and when the action returns no
    error none of them has. *)
Theorem Execute_stops a node w :
  let '(r, w') := Execute a node w in
  ∃ l, w_log w' = l ++ w_log w ∧
    Forall (λ e, entry_ok (tolerated a) e = true) (tail l) ∧
    (is_Ok r = true → Forall (λ e, entry_ok (tolerated a) e = true) l).
Proof.
  pose proof (Execute_failstop a node w) as Hs. destruct (Execute a node w) as [[x|e|x] w'].
  - destruct Hs as (l & E & Hl). exists l. split_and!; [done| |done]. destruct Hl; [done|by simpl].
  - destruct Hs as (l & E & Hl). by exists l.
  - destruct Hs as (l & E & Hl). by exists l.
Qed.
End stops.

(** ** Descriptors that are accepted and cannot be installed *)

Section failing.
Context `{Host} `{Texts} `{SortSlice} `{ChartRepositories} `{CloudApis} `{LocalEncoders}.

(** The template that is looked for is in no directory: those there are named
    coredns-patch_configmap. *)
Theorem customCoreDNS_fails kc w :
  ks_InfraProvider (kc_Spec kc) ∈ ["aws"; "gcp"; "azure"] →
  is_Ok (fst (customCoreDNS kc w)) = false ∧ snd (customCoreDNS kc w) = w.
Proof.
  intros Hi. unfold customCoreDNS, manifest, getManifest.
  assert (∀ suffix, suffix = "" ∨ suffix = "-aks" → str_in (templatePath (ks_InfraProvider (kc_Spec kc))
    ("coredns_configmap" +:+ suffix +:+ ".tmpl") "") templates = false) as Ht.
  { rewrite !elem_of_cons, elem_of_nil in Hi. intros suffix [->| ->]; destruct Hi as [->|[->|[->|[]]]]; vm_compute; reflexivity. }
  rewrite Ht by (destruct (_ && _); auto). done.
Qed.

(** The effect of keeping the minor version. *)
Definition same_version (w w' : world) : Prop := w_majorVersion w' = w_majorVersion w.

Context (kc : KeosCluster).
#[local] Instance version_recorded : Recorded kc (λ _, true) same_version same_version.
Proof.
  assert (∀ ev, sat (run_once ev) same_version same_version) as Hrun.
  { intros ev w. unfold run_once. by destruct (at_error _). }
  assert (∀ c t n env, sat (exec_env c t n env) same_version same_version) as Hexec.
  { intros c t n env w. unfold exec_env. by destruct (ExecuteCommand _ _ _). }
  split; try done.
  - split; [done|intros w1 w2 w3; unfold same_version; congruence|done|unfold same_version; congruence].
  - intros c t n env _ _. apply sat_try; [done|]. intros w x w'. unfold exec_env. intros [= E _].
    by apply ExecuteCommand_no_panic in E.
  - intros ev _ _. apply sat_try; [done|]. intros w x w'. unfold run_once. by destruct (at_error _).
Qed.

(** [m] does not succeed from a world with the minor version 33. *)
Definition fails_33 {A} (m : st world A) : Prop := ∀ w, w_majorVersion w = "33" → is_Ok (fst (m w)) = false.

Lemma fails_now {A B} (m : st world A) (f : A → st world B) : fails_33 m → fails_33 (m ≫= f).
Proof. intros Hm w Hw. specialize (Hm w Hw). unfold mbind, st_bind. by destruct (m w) as [[]]. Qed.
Lemma fails_later {A B} (m : st world A) (f : A → st world B) :
  sat m same_version same_version → (∀ x, fails_33 (f x)) → fails_33 (m ≫= f).
Proof.
  intros Hm Hf w Hw. specialize (Hm w). unfold mbind, st_bind. destruct (m w) as [[x|e|x] w'] eqn:E; [|done..].
  apply Hf. unfold same_version in Hm. congruence.
Qed.

Lemma deployCertManager_fails url k pp : fails_33 (deployCertManager url k pp).
Proof. intros w Hw. unfold deployCertManager, mbind, st_bind, get. rewrite Hw. done. Qed.

Lemma install_local_fails spec p pp r prv : fails_33 (install_local spec p pp r prv).
Proof.
  unfold install_local, gke_registry. cbv zeta. eapply fails_later; [effect|intros _].
  eapply fails_later; [effect|intros _]. eapply fails_later; [unfold config; effect|intros c].
  eapply fails_later; [effect|intros _]. apply fails_now, deployCertManager_fails.
Qed.

Lemma install_management_fails a node : fails_33 (install_management a node).
Proof.
  unfold install_management, private_cni. cbv zeta.
  eapply fails_later; [effect|intros n]. eapply fails_later; [unfold config; effect|intros c].
  eapply fails_later; [effect|intros b]. eapply fails_later; [effect|intros helm].
  eapply fails_later; [effect|intros _]. eapply fails_later; [effect|intros registry].
  eapply fails_later; [effect|intros cfg]. eapply fails_later; [effect|intros _].
  eapply fails_later; [effect|intros charts]. eapply fails_later; [effect|intros registry'].
  apply fails_now, install_local_fails.
Qed.
End failing.

(** A descriptor for Kubernetes 1.33, which the validation accepts, cannot be installed:
    there are no templates for this minor version, and every run of the action ends with
    an error. *)
Theorem Execute_fails_33 `{Host} `{Texts} `{SortSlice} `{ChartRepositories} `{CloudApis} `{LocalEncoders} a node w :
  Split (ks_K8SVersion (kc_Spec (a_keosCluster a))) "." !! 1%nat = Some "33" → is_Ok (fst (Execute a node w)) = false.
Proof.
  intros Hv. assert (is_Ok (fst (prepare a node w)) = false) as Hp.
  { unfold prepare. rewrite (st_run _ _ w "33" w) by (unfold pure, index; by rewrite Hv).
    rewrite (st_run _ _ w tt (with_majorVersion "33" w)) by done.
    by apply (install_management_fails (a_keosCluster a)). }
  unfold Execute, mbind, st_bind. by destruct (prepare a node w) as [[]].
Qed.

(** ** A run *)

(** A managed cluster on AWS, on machines where every command succeeds. *)
Module Run.
#[export] Instance host : Host.
Proof.
  refine {| answer := λ _ ev _, mkAttempt (match ev with HostRead _ => "kind: KeosCluster" | _ => "x" end) None; range_order := λ _ m, map_to_list m; pattern_order := λ _ _, all_kinds;
            clock := λ _ _, "20240101000000" |}; done.
Defined.
Definition values : gmap string hvalue :=
  {["app" := HMap {["containers" := HMap {["controllerManager" := HMap {["imagePullSecrets" := HMap ∅]}]}]}]}.
#[export] Instance texts : Texts :=
  {| ExecuteTemplate := λ path _, Ok ("# " +:+ path); embedded := λ path, "# " +:+ path;
     yaml_ClusterConfig := λ _, Ok "kind: ClusterConfig"; yaml_KeosCluster := λ _, Ok "kind: KeosCluster";
     yaml_StorageClass := λ _, Ok "kind: StorageClass"; json_Marshal := λ _, Ok "{}";
     unmarshal_HelmValues := λ _, Ok values; yaml_HelmValues := λ _, Ok "app: {}"; unmarshal_KeosCluster := λ _, Ok zero_KeosCluster |}.
#[export] Instance repositories : ChartRepositories :=
  {| DockerReference := string; docker_Transport_Name := "docker"; reference_ParseNormalizedNamed := λ s, Ok s;
     reference_IsNameOnly := λ _, true; docker_NewReference := λ r, Ok r; DockerReference_Name := λ r, r;
     docker_GetRepositoryTags := λ _ _ _, Ok ["0.6.0"]; retry_IfNecessary := λ _ _ r, r; http_NewRequest := λ _, Ok tt;
     http_Do := λ _ _, Ok (Ok ""); unmarshal_Index := λ _, Ok (λ _, [mkIndexEntry "0.6.0" ""]); time_Parse := λ _, None |}.
#[export] Instance azure : AzureSdk :=
  {| AzCred := unit; NewClientSecretCredential := λ _ _ _, Ok tt; ListResourceSKUs := λ _ _ _, Ok []; ListLocations := λ _ _, Ok [];
     ListVirtualNetworks := λ _ _ _, Ok []; ListSubnets := λ _ _ _ _, Ok []; ListKubernetesVersions := λ _ _ _, Ok [] |}.
#[export] Instance clouds : CloudApis (H := Aws.Demo.sdk) :=
  {| aws_RetrieveCredentials := λ _, Ok ("", "", ""); ecr_GetAuthorizationToken := λ _, Ok [Some "QVdTOng="];
     GoogleCredentials := unit; google_CredentialsFromJSON := λ _ _, Ok tt; google_Token := λ _, Ok "";
     ComputeService := unit; compute_NewService := λ _, Ok tt; Subnetworks_Get := λ _ _ _ _, Ok true;
     azure_GetToken := λ _ _, Ok ""; http_PostForm := λ _ _, Ok (200, ∅); armmsi_NewClientFactory := λ _ _, Ok tt;
     UserAssignedIdentities_Get := λ _ _ _ _, Ok None; armnetwork_NewClientFactory := λ _ _, Ok tt;
     Subnets_Get := λ _ _ _ _ _, Ok None |}.
#[export] Instance encoders : LocalEncoders.
Proof.
  refine {| vault_Decrypt := λ s _, Ok s; vault_Encrypt := λ s _, Ok s; unmarshal_secretMap := λ _, Ok {["secrets" := ∅]};
     yaml_secretMap := λ _, "secrets: {}"; unmarshal_Node := λ s, Ok (YNode DocumentNode "" [YNode ScalarNode s []]);
     marshal_Node := λ n, Ok (node_value n); yaml_KEOSDescriptor := λ _, Ok "keos: {}"; files_order := λ _ m, map_to_list m |}.
  done.
Defined.

Definition spec (version : string) : KeosSpec :=
  mkKeosSpec true zero_Bastion zero_StorageClass zero_Credentials "aws" version "eu-1" zero_Networks zero_Dns
    [mkDockerRegistry true "ecr" "1.dkr.ecr.eu-1.amazonaws.com/keos" true true]
    (mkHelmRepository false "https://charts.local" "generic" "" None "" "") "" zero_Security zero_Keos
    (mkControlPlane true "" None "" zero_RootVolume [] zero_AWSCP zero_AzureCP zero_GCPCP zero_CustomVolume zero_CustomVolume [])
    [] zero_ClusterConfigRef zero_Calico.
Definition action_for (version : string) : action :=
  mkAction "vault" "cluster.yaml" false false (mkKeosCluster "" "KeosCluster" (mkMetadata "demo" "" ∅ ∅) (spec version))
    (mkClusterCredentials {["AccessKey" := "AK"; "SecretKey" := "SK"; "Region" := "eu-1"; "AccountID" := "1"]} ∅ [] ∅ "").
Definition the_action : action := action_for "v1.35.1".
Definition start : world :=
  mkWorld [] "" "" initial_charts no_versions (mkDefaultStorageClass "" zero_SCParameters) (Some Charts.Demo.config).

Definition execute (a : action) : res unit * world :=
  @Execute host texts insertion repositories Aws.Demo.sdk azure clouds encoders a (Ok "demo-control-plane") start.
End Run.

(** The run succeeds; it makes 156 steps on the machines. *)
Example run_succeeds : fst (Run.execute Run.the_action) = Ok tt ∧ length (w_log (snd (Run.execute Run.the_action))) = 156%nat.
Proof. split; vm_compute; reflexivity. Qed.

Lemma Execute_fails_33_witness :
  validateK8SVersion "v1.33.2" = Ok tt ∧ is_Ok (fst (Run.execute (Run.action_for "v1.33.2"))) = false.
Proof.
  split; [vm_compute; reflexivity|].
  apply (@Execute_fails_33 Run.host Run.texts insertion Run.repositories Aws.Demo.sdk Run.azure Run.clouds Run.encoders
           (Run.action_for "v1.33.2") (Ok "demo-control-plane") Run.start). vm_compute. reflexivity.
Defined.
