(* ===== verification/Handover.v ===== *)
(** * Moving the management role (createworker/createworker.go)

    The objects of the management cluster are moved to the workload cluster by a few of
    the commands of [Execute].  The order that no object is lost in ([requires]) is
    respected by every run, whatever the machines answer and wherever it stops; and a
    run that succeeds has moved them. *)

From S2P Require Import Prelude State GoStr KeosTypes Descriptor Aws Secrets ValidateAzure Base64 Commons Oci Worker Charts Builder Clouds Install Operator Providers Descriptors CreateWorker Effects Execution.
Local Open Scope Z_scope.
Local Open Scope go_scope.
Local Open Scope stdpp_scope.

(** ** The protocol *)

Inductive move :=
| StopOperator | Backup | Pivot
| CopyConfig (name : string) | DeleteConfig (name : string)
| CopyKeos | DeleteKeos.

(** What must have succeeded before. *)
Definition requires (m : move) : list move :=
  match m with
  | StopOperator | Backup => []
  | Pivot => [Backup; StopOperator]
  | CopyConfig _ | CopyKeos => [Pivot]
  | DeleteConfig name => [CopyConfig name]
  | DeleteKeos => [CopyKeos]
  end.

Definition command (kc : KeosCluster) (m : move) : string :=
  match m with
  | StopOperator => "helm uninstall cluster-operator -n kube-system"
  | Backup => backup_objects kc
  | Pivot => pivot kc
  | CopyConfig name => copy_clusterconfig kc name
  | DeleteConfig name => delete_clusterconfig kc name
  | CopyKeos => copy_keoscluster kc
  | DeleteKeos => delete_keoscluster kc
  end.

Definition move_event (kc : KeosCluster) (m : move) : event := Cmd (command kc m) [].
Definition done_move (kc : KeosCluster) (m : move) (l : log) : Prop := ∃ s, (move_event kc m, Ok s) ∈ l.

(** Every move of the log, successful or not, was made after those it requires. *)
Definition moves_in_order (kc : KeosCluster) (l : log) : Prop :=
  ∀ m l1 r l2, l = l1 ++ (move_event kc m, r) :: l2 → ∀ m', m' ∈ requires m → done_move kc m' l2.

Lemma append_inj_l (p a b : string) : p +:+ a = p +:+ b → a = b.
Proof. induction p as [|c p IH]; simpl; [done|]. intros E. apply IH. congruence. Qed.
Lemma append_inj_r (a b s : string) : a +:+ s = b +:+ s → a = b.
Proof.
  intros E. apply (f_equal bytes) in E. rewrite !bytes_app in E. apply app_inv_tail in E. by apply bytes_inj.
Qed.

Lemma in_ns_inj kc r r' : in_ns kc r = in_ns kc r' → r = r'.
Proof. unfold in_ns. intros E. by do 2 apply append_inj_l in E. Qed.

(** Different moves are different commands. *)
Lemma command_inj kc m m' : command kc m = command kc m' → m = m'.
Proof.
  destruct m as [| | |n|n| |], m' as [| | |n'|n'| |]; try done; cbn [command]; intros E; try discriminate E.
  all: try (unfold backup_objects, pivot in E; do 2 apply append_inj_l in E; discriminate E).
  all: try (apply in_ns_inj in E; discriminate E).
  - apply in_ns_inj, append_inj_l, append_inj_r in E. by subst.
  - apply in_ns_inj, append_inj_l in E. by subst.
Qed.

Lemma prefix_self p s : String.prefix p (p +:+ s) = true.
Proof. induction p as [|c p IH]; simpl; [by destruct s|]. by destruct (Ascii.ascii_dec c c). Qed.

Lemma moving_false_requires kc m : moving kc (command kc m) = false → requires m = [].
Proof.
  intros Hm. destruct m; try done; exfalso; revert Hm; apply not_false_iff_true; cbn [command]; unfold moving, HasPrefix.
  - by rewrite String.eqb_refl, !orb_true_r.
  - unfold copy_clusterconfig, in_ns. rewrite !prefix_app_same. by rewrite (prefix_self " get clusterconfig "), !orb_true_r.
  - unfold delete_clusterconfig, in_ns. rewrite !prefix_app_same.
    change (" delete clusterconfig " +:+ name) with (" delete " +:+ ("clusterconfig " +:+ name)). by rewrite (prefix_self " delete ").
  - unfold copy_keoscluster, in_ns. rewrite !prefix_app_same. by rewrite (prefix_self " get keoscluster "), !orb_true_r.
  - unfold delete_keoscluster, in_ns. rewrite !prefix_app_same.
    change (" delete keoscluster " +:+ md_Name (kc_Metadata kc)) with (" delete " +:+ ("keoscluster " +:+ md_Name (kc_Metadata kc))).
    by rewrite (prefix_self " delete ").
Qed.

(** ** Steps keep the order *)

Section log.
Context (kc : KeosCluster).

Lemma done_cons e m l : done_move kc m l → done_move kc m (e :: l).
Proof. intros [s Hs]. exists s. by right. Qed.

Lemma in_order_cons ev r l : moves_in_order kc l →
  (∀ m, ev = move_event kc m → ∀ m', m' ∈ requires m → done_move kc m' l) → moves_in_order kc ((ev, r) :: l).
Proof.
  intros Hl Hev m [|e l1] r' l2 E m' Hm'; simpl in E.
  - assert (ev = move_event kc m) as Em by congruence. assert (l2 = l) as -> by congruence. by apply (Hev m).
  - apply (Hl m l1 r' l2); [congruence|done].
Qed.

(** The order is kept so far, and [ms] are done. *)
Definition progress (ms : list move) (l : log) : Prop := moves_in_order kc l ∧ ∀ m, m ∈ ms → done_move kc m l.

Lemma progress_cons ms ev r l : (match ev with Cmd c _ => moving kc c = false | _ => True end) →
  progress ms l → progress ms ((ev, r) :: l).
Proof.
  intros Hev [Hl Hms]. split; [|intros m Hm; by apply done_cons, Hms].
  apply in_order_cons; [done|]. intros m -> m' Hm'. simpl in Hev. rewrite (moving_false_requires _ _ Hev) in Hm'. by apply not_elem_of_nil in Hm'.
Qed.

#[export] Instance progress_recorded `{Host} ms :
  Recorded kc (λ _, true) (keeps (progress ms)) (keeps (progress ms)).
Proof.
  assert (∀ c t n env, moving kc c = false → sat (exec_env c t n env) (keeps (progress ms)) (keeps (progress ms))) as Hexec.
  { intros c t n env Hc. apply exec_env_keeps. intros r l Hl. by apply progress_cons. }
  assert (∀ ev, is_cmd ev = false → sat (run_once ev) (keeps (progress ms)) (keeps (progress ms))) as Hrun.
  { intros ev Hev. apply run_once_keeps. intros r l Hl. apply progress_cons; [by destruct ev|done]. }
  split; [apply keeps_effect| | | | |].
  - intros w w' E _. unfold keeps. by rewrite E.
  - done.
  - done.
  - intros c t n env Hc _. apply sat_try; [by apply Hexec|]. intros w x w'. unfold exec_env. intros [= E _].
    by apply ExecuteCommand_no_panic in E.
  - intros ev Hev _. apply sat_try; [by apply Hrun|]. intros w x w'. unfold run_once. by destruct (at_error _).
Qed.
End log.

(** ** Triples *)

Section triples.
Context `{Host} (kc : KeosCluster).

(** From a log where [P] holds to one where [Q] does of the result, and on an error to
    one in order. *)
Definition triple {A} (P : log → Prop) (m : st world A) (Q : A → log → Prop) : Prop :=
  ∀ w, P (w_log w) → match m w with (Ok x, w') => Q x (w_log w') | (_, w') => moves_in_order kc (w_log w') end.

Lemma triple_bind {A B} P (Q : A → log → Prop) (R : B → log → Prop) m f :
  triple P m Q → (∀ a, triple (Q a) (f a) R) → triple P (m ≫= f) R.
Proof.
  intros Hm Hf w Hw. specialize (Hm w Hw). unfold mbind, st_bind. destruct (m w) as [[a|e|x] w']; [|done..]. by apply Hf.
Qed.
Lemma triple_ret {A} (P : log → Prop) (Q : A → log → Prop) x : (∀ l, P l → Q x l) → triple P (mret x) Q.
Proof. intros HQ w Hw. by apply HQ. Qed.
Lemma triple_sat {A} ms (m : st world A) :
  sat m (keeps (progress kc ms)) (keeps (progress kc ms)) → triple (progress kc ms) m (λ _, progress kc ms).
Proof. intros Hm w Hw. specialize (Hm w). destruct (m w) as [[a|e|x] w']; [by apply Hm|by apply Hm..]. Qed.
Lemma triple_post {A} (P : log → Prop) (Q Q' : A → log → Prop) m : triple P m Q' → (∀ x l, Q' x l → Q x l) → triple P m Q.
Proof. intros Hm HQ w Hw. specialize (Hm w Hw). destruct (m w) as [[a|e|x] w']; auto. Qed.
Lemma triple_wrap {A} P (Q : A → log → Prop) s m : triple P m Q → triple P (st_wrap s m) Q.
Proof. intros Hm w Hw. specialize (Hm w Hw). unfold st_wrap. by destruct (m w) as [[a|e|x] w']. Qed.
Lemma triple_when (P Q : log → Prop) (b : bool) m :
  triple P m (λ _, Q) → (b = false → ∀ l, P l → Q l) → triple P (st_when b m) (λ _, Q).
Proof. destruct b; [done|]. intros _ HQ. apply triple_ret. by apply HQ. Qed.

(** A move whose requirements are done. *)
Lemma triple_move m ms t n s : (∀ m', m' ∈ requires m → m' ∈ ms) →
  triple (progress kc ms) (exec_ (command kc m) t n s) (λ _, progress kc (m :: ms)).
Proof.
  intros Hreq w [Hl Hms].
  assert (∀ r, moves_in_order kc ((move_event kc m, r) :: w_log w)) as Hord.
  { intros r. apply in_order_cons; [done|]. intros m0 E m' Hm'. unfold move_event in E. assert (m = m0) as <-.
    { apply (command_inj kc). congruence. }
    by apply Hms, Hreq. }
  unfold exec_, exec, exec_env, mbind, st_bind, st_wrap. destruct (ExecuteCommand _ _ _) as [o|e|x] eqn:E; simpl; [|apply Hord..].
  split; [apply Hord|]. intros m' [->|Hm']%elem_of_cons; [exists o; left|by apply done_cons, Hms].
Qed.

Lemma progress_weaken ms ms' l : progress kc ms l → (∀ m, m ∈ ms' → m ∈ ms) → progress kc ms' l.
Proof. intros [Hl Hms] Hin. split; [done|]. intros m Hm. by apply Hms, Hin. Qed.
End triples.

Ltac moves := intros ? Hin; repeat (apply elem_of_cons in Hin as [->|Hin]); try (by apply not_elem_of_nil in Hin);
  repeat first [assumption | apply list_elem_of_here | apply list_elem_of_further].

(** ** The phases of the action *)

Section order.
Context `{Host} `{Texts} `{SortSlice} `{ChartRepositories} `{CloudApis} `{LocalEncoders}.
Context (a : action).
Let kc := a_keosCluster a.

(** A step that moves nothing. *)
Ltac other lem := apply triple_sat; eapply lem; first [done | typeclasses eauto].

Lemma backup_triple n : triple kc (progress kc []) (backup kc n) (λ _, progress kc [Backup]).
Proof.
  unfold backup.
  do 3 (eapply triple_bind; [apply triple_sat; effect; (by apply rec_try_run) || done|intros ?]).
  eapply triple_bind; [apply (triple_move kc Backup); moves|]. intros ?. apply triple_sat. unfold copy_to_host. effect.
Qed.

Lemma move_clusterconfig_triple name ms : Pivot ∈ ms →
  triple kc (progress kc ms) (move_clusterconfig kc name) (λ _, progress kc ms).
Proof.
  intros Hp. unfold move_clusterconfig. eapply triple_bind; [apply triple_sat; effect|intros ?].
  eapply triple_bind; [apply (triple_move kc (CopyConfig name)); moves|intros ?].
  eapply triple_post; [apply (triple_move kc (DeleteConfig name)); moves|].
  intros ? l Hl. eapply progress_weaken; [exact Hl|]. intros m Hm. by do 2 right.
Qed.

Lemma move_keoscluster_triple ms : Pivot ∈ ms →
  triple kc (progress kc ms) (move_keoscluster kc) (λ _, progress kc (DeleteKeos :: ms)).
Proof.
  intros Hp. unfold move_keoscluster. eapply triple_bind; [apply (triple_move kc CopyKeos); moves|intros ?].
  eapply triple_bind; [apply triple_sat; effect|intros ?].
  eapply triple_post; [apply (triple_move kc DeleteKeos); moves|].
  intros ? l Hl. eapply progress_weaken; [exact Hl|]. moves.
  all: by do 2 right.
Qed.

Lemma hand_over_triple s ms : Pivot ∈ ms → triple kc (progress kc ms) (hand_over a s) (λ _, progress kc ms).
Proof.
  intros Hp. unfold hand_over. eapply triple_bind; [apply triple_sat; effect|intros ?].
  eapply triple_bind; [apply triple_sat; effect|intros cfg].
  eapply triple_bind; [destruct cfg; [by apply move_clusterconfig_triple|by apply triple_ret]|intros ?].
  eapply triple_bind; [by apply move_keoscluster_triple|intros ?].
  eapply triple_bind; [apply triple_sat; effect|intros ?].
  eapply triple_post; [apply triple_sat, sat_when; intros _; by apply role_identity_sat|].
  intros ? l Hl. eapply progress_weaken; [exact Hl|]. intros m Hm. by right.
Qed.

Lemma move_management_triple s :
  triple kc (progress kc [Backup]) (move_management a s) (λ _, progress kc [Pivot]).
Proof.
  unfold move_management. eapply triple_bind; [apply (triple_move kc StopOperator); moves|intros ?].
  eapply triple_bind; [apply triple_sat; eapply try_sat; [done|not_moving|is_tolerated]|intros r].
  eapply triple_bind; [apply triple_sat; effect|intros ?].
  eapply triple_bind; [apply (triple_move kc Pivot); moves|intros ?].
  eapply triple_bind; [other @gitops_sat|intros g].
  eapply triple_post; [eapply triple_when; [apply hand_over_triple; left|done]|].
  intros ? l Hl. eapply progress_weaken; [exact Hl|]. moves.
Qed.

Ltac step tac := eapply triple_bind; [tac|intros ?].

(** What a successful creation leaves. *)
Definition moved : list move := if a_moveManagement a then [] else [Pivot].

Lemma configure_workload_triple s text :
  triple kc (progress kc []) (configure_workload a s text) (λ _, progress kc moved).
Proof.
  unfold configure_workload.
  step ltac:(other @save_kubeconfig_sat). step ltac:(other @install_network_sat). step ltac:(other @prepare_nodes_sat).
  step ltac:(apply triple_sat, sat_when; intros _; by eapply gke_coredns_sat). step ltac:(other @restart_coredns_sat).
  step ltac:(other @install_capx_workload_sat). step ltac:(other @install_flux_sat). step ltac:(other @self_healing_sat).
  step ltac:(other @network_policies_sat). step ltac:(other @install_storage_sat).
  step ltac:(other @install_operator_workload_sat). step ltac:(other @customize_sat). step ltac:(apply backup_triple).
  eapply triple_bind; [apply (triple_when _ _ (progress kc moved))|intros ?; other @postInstallPhase_tolerated].
  - unfold moved. destruct (a_moveManagement a); [|apply move_management_triple].
    eapply triple_post; [apply move_management_triple|]. intros ? l Hl. eapply progress_weaken; [exact Hl|moves].
  - unfold moved. intros Hm l Hl. destruct (a_moveManagement a); [|done]. eapply progress_weaken; [exact Hl|moves].
Qed.

(** The kubeconfig that is empty although the command gives no error. *)
Definition empty_kubeconfig (l : log) : Prop := (Cmd (get_kubeconfig kc) [], Ok "") ∈ l.

Lemma kubeconfig_attempts_empty n r0 w r w' : kubeconfig_attempts (get_kubeconfig kc) n r0 w = (Ok r, w') → r = Ok "" →
  empty_kubeconfig (w_log w') ∨ (n = O ∧ r0 = Ok "" ∧ w' = w).
Proof.
  revert r0 w. induction n as [|n IH]; intros r0 w; cbn [kubeconfig_attempts].
  - intros E ->. right. unfold mret, st_ret in E. split_and!; [done|congruence|congruence].
  - unfold mbind, st_bind, try_, exec, exec_env. destruct (ExecuteCommand _ _ _) as [s|e|x] eqn:E; [| |discriminate].
    + set (w1 := record_event _ _ w). destruct (s <>s "") eqn:Es.
      * intros Hr ->. unfold mret, st_ret in Hr. assert (s = "") as -> by congruence. discriminate Es.
      * apply negb_false_iff, String.eqb_eq in Es. subst s. intros Hr Hr'.
        destruct (IH _ _ Hr Hr') as [?|(-> & _ & ->)]; [by left|]. left. unfold empty_kubeconfig, w1. left.
    + set (w1 := record_event _ _ w). intros Hr Hr'. destruct (IH _ _ Hr Hr') as [?|(_ & ? & _)]; [by left|done].
Qed.

Lemma workload_kubeconfig_triple : triple kc (progress kc []) (workload_kubeconfig kc)
  (λ o l, progress kc [] l ∧ (o = None → empty_kubeconfig l)).
Proof.
  intros w Hw. pose proof (triple_sat kc [] (workload_kubeconfig kc)) as Ht.
  specialize (Ht ltac:(by eapply workload_kubeconfig_sat) w Hw).
  destruct (workload_kubeconfig kc w) as [[o|e|x] w'] eqn:E; [|done..]. split; [done|]. intros ->.
  unfold workload_kubeconfig in E. apply st_bind_Ok in E as (r & v & E1 & E2).
  destruct r as [s|e|x]; [|discriminate E2..]. unfold mret, st_ret in E2. destruct (s =s "") eqn:Es; [|discriminate E2].
  apply String.eqb_eq in Es as ->. assert (v = w') as -> by congruence.
  by destruct (kubeconfig_attempts_empty _ _ _ _ _ E1 eq_refl) as [?|(? & _)].
Qed.

Lemma create_workload_triple s : triple kc (progress kc []) (create_workload a s)
  (λ go_on l, if (go_on : bool) then progress kc moved l else progress kc [] l ∧ empty_kubeconfig l).
Proof.
  unfold create_workload. step ltac:(apply triple_sat, sat_when; intros _; apply sat_wrap; by eapply createCloudFormationStack_tolerated).
  step ltac:(other @apply_manifests_sat). step ltac:(apply workload_kubeconfig_triple).
  destruct a2 as [text|].
  - intros w [Hw _]. revert w Hw. change (triple kc (progress kc []) (configure_workload a s text ;; mret true)
      (λ go_on l, if (go_on : bool) then progress kc moved l else progress kc [] l ∧ empty_kubeconfig l)).
    step ltac:(apply configure_workload_triple). by apply triple_ret.
  - apply triple_ret. intros l [Hl He]. split; [done|by apply He].
Qed.

Definition outcome (l : log) : Prop :=
  moves_in_order kc l ∧ (a_avoidCreation a = false → a_moveManagement a = false → done_move kc Pivot l ∨ empty_kubeconfig l).

Lemma Execute_triple node : triple kc (progress kc []) (Execute a node) (λ _, outcome).
Proof.
  unfold Execute. eapply triple_bind.
  - unfold prepare. step ltac:(apply triple_sat, sat_pure). step ltac:(apply triple_sat, sat_modify; intros w; by unfold keeps).
    other @install_management_sat.
  - intros s. cbv beta.
    assert (triple kc (progress kc []) (if a_avoidCreation a then mret true else create_workload a s)
      (λ go_on l, if (go_on : bool) then progress kc (if a_avoidCreation a then [] else moved) l
                  else outcome l)) as Hc.
    { destruct (a_avoidCreation a) eqn:E; [by apply triple_ret|]. eapply triple_post; [apply create_workload_triple|].
      intros [] l Hl; [done|]. destruct Hl as [[Hl _] He]. split; [done|]. by right. }
    eapply triple_bind; [exact Hc|]. intros [|]; [|by apply triple_ret]. cbn [st_when].
    eapply triple_post; [other @installer_files_sat|]. intros ? l [Hl Hd]. split; [done|]. intros E1 E2.
    left. apply Hd. rewrite E1. unfold moved. rewrite E2. left.
Qed.

Lemma progress_start : progress kc [] [].
Proof. split; [|intros m Hm; by apply not_elem_of_nil in Hm]. intros m [|e l1] r l2 E; discriminate E. Qed.

(** C1. Moving the management role loses no object: in every run of the action, wherever
    it stops, the objects of Cluster API leave the management cluster only after
    a backup of them succeeded and the operator was uninstalled, nothing is copied
    before them, and the configuration and the descriptor of the cluster are deleted
    there only after their copy to the workload cluster succeeded. *)
Theorem Execute_hands_over node w : moves_in_order kc (w_log (snd (Execute a node (with_log [] w)))).
Proof.
  pose proof (Execute_triple node (with_log [] w) progress_start) as Ht.
  destruct (Execute a node (with_log [] w)) as [[x|e|x] w']; [apply Ht|done..].
Qed.

End order.

