(* ===== verification/Refresher.v ===== *)
(** * The refresher of the kubeconfig (pkg/commons/kubeconfig.go)

    What runs beside the createworker action: every two minutes the kubeconfig that
    Cluster API keeps in a secret is written to the file that the commands of the
    action use. *)

From S2P Require Import Prelude State GoStr Base64 KeosTypes Commons Oci Worker Install.
Local Open Scope Z_scope.
Local Open Scope go_scope.
Local Open Scope stdpp_scope.

Section refresher.
Context `{Host}.

(** [strings.Trim(s, "'")] *)
Fixpoint trim_left (s : string) : string :=
  match s with String c t => if Ascii.eqb c "'" then trim_left t else s | "" => "" end.
Definition trim_quotes (s : string) : string := string_rev (trim_left (string_rev (trim_left s))).

Fixpoint secret_attempts (c : string) (retries : nat) (last : res string) : st world (res string) :=
  match retries with
  | O => mret last
  | S retries => r ← try_ (exec c 5 3); if is_Ok r then mret r else secret_attempts c retries r
  end.

Definition kubeconfig_secret (namespace clusterName : string) : string :=
  "kubectl -n " +:+ namespace +:+ " get secret " +:+ clusterName +:+ "-kubeconfig" +:+ " -o jsonpath='{.data.value}'".

(** The error of the decoder also names the offset, which is left out. *)
Definition GetKubeconfigFromSecret (namespace clusterName : string) : st world string :=
  r ← secret_attempts (kubeconfig_secret namespace clusterName) 6 (Ok "");
  output ← st_wrap "failed to read kubeconfig secret after multiple retries" (pure r);
  let '(decoded, ok) := DecodeString (trim_quotes output) in
  st_wrap "failed to decode kubeconfig secret" (pure (fail_when (negb ok) "illegal base64 data")) ;;
  mret decoded.

(** [dir] is [filepath.Dir(kubeconfigPath)]; errors end the refresh without a message. *)
Definition refreshKubeconfig (namespace clusterName path dir : string) : st world unit :=
  kubeconfig ← GetKubeconfigFromSecret namespace clusterName;
  exec_plain ("mkdir -p " +:+ dir) 5 3 ;;
  exec_plain (echo_to kubeconfig path) 5 3.
Definition refresh (namespace clusterName path dir : string) : st world unit :=
  ignore_err (refreshKubeconfig namespace clusterName path dir).
End refresher.

(** ** What is written *)

Lemma trim_left_plain s : all_chars b64_char s = true → trim_left s = s.
Proof.
  destruct s as [|c s]; [done|]. cbn [all_chars trim_left]. intros [Hc _]%andb_true_iff.
  destruct (Ascii.eqb_spec c "'") as [->|]; [discriminate Hc|done].
Qed.

(** What the shell prints, with the quotes or without. *)
Definition quoted (q s : string) : string := q +:+ s +:+ q.

Lemma trim_quotes_encoding q s : q = "" ∨ q = "'" → trim_quotes (quoted q (EncodeToString s)) = EncodeToString s.
Proof.
  intros Hq. destruct (decide (EncodeToString s = "")) as [->|Hne]; [by destruct Hq as [->| ->]|].
  assert (trim_left (quoted q (EncodeToString s)) = EncodeToString s +:+ q) as Hl.
  { unfold quoted. pose proof (EncodeToString_chars s) as Hs. destruct Hq as [->| ->].
    - rewrite string_app_nil_r. by apply trim_left_plain.
    - change ("'" +:+ EncodeToString s +:+ "'") with (String "'" (EncodeToString s +:+ "'")). cbn [trim_left]. simpl.
      destruct (EncodeToString s) as [|c t]; [done|]. cbn [all_chars] in Hs. apply andb_true_iff in Hs as [Hc _].
      simpl. destruct (Ascii.eqb_spec c "'") as [->|]; [discriminate Hc|done]. }
  unfold trim_quotes. rewrite Hl, string_rev_cat.
  assert (trim_left (string_rev q +:+ string_rev (EncodeToString s)) = string_rev (EncodeToString s)) as ->.
  { assert (trim_left (string_rev (EncodeToString s)) = string_rev (EncodeToString s)) as Hr
      by (apply trim_left_plain; by rewrite all_chars_rev, EncodeToString_chars).
    destruct Hq as [->| ->]; exact Hr. }
  apply string_rev_involutive.
Qed.

Section written.
Context `{Host}.

(** A refresh writes the kubeconfig that the secret holds: when an attempt to read the
    secret gives the base64 encoding of a text, in quotes or not, and the directory is
    made, that text is what the file is overwritten with. *)
Theorem refresh_writes_secret namespace clusterName path dir q text o w w1 w2 :
  q = "" ∨ q = "'" →
  secret_attempts (kubeconfig_secret namespace clusterName) 6 (Ok "") w = (Ok (Ok (quoted q (EncodeToString text))), w1) →
  exec ("mkdir -p " +:+ dir) 5 3 w1 = (Ok o, w2) →
  ∃ r, w_log (snd (refresh namespace clusterName path dir w)) = (Cmd (echo_to text path) [], r) :: w_log w2.
Proof.
  intros Hq Hread Hmk. unfold refresh, ignore_err.
  assert (GetKubeconfigFromSecret namespace clusterName w = (Ok text, w1)) as Hget.
  { unfold GetKubeconfigFromSecret. rewrite (st_run _ _ _ _ _ Hread). unfold mbind, st_bind, st_wrap, pure. simpl.
    by rewrite (trim_quotes_encoding q text Hq), base64_roundtrip. }
  unfold refreshKubeconfig. rewrite (st_run _ _ _ _ _ Hget).
  assert (exec_plain ("mkdir -p " +:+ dir) 5 3 w1 = (Ok tt, w2)) as Hmk' by (unfold exec_plain; by rewrite (st_run _ _ _ _ _ Hmk)).
  rewrite (st_run _ _ _ _ _ Hmk'). unfold exec_plain, exec, exec_env, mbind, st_bind.
  destruct (ExecuteCommand _ _ _) as [x|e|x] eqn:E; [by eexists|by eexists|]. by apply ExecuteCommand_no_panic in E.
Qed.
End written.

Module RefreshDemo.
(** Machines where the secret is found at the first attempt. *)
#[export] Instance host : Host.
Proof.
  refine {| answer := λ _ ev _, mkAttempt (match ev with Cmd c _ => if Contains c "get secret" then "'a2luZDogQ29uZmln'" else "" | _ => "" end) None;
            range_order := λ _ m, map_to_list m; pattern_order := λ _ _, all_kinds; clock := λ _ _, "" |}; done.
Defined.
Definition start : world := mkWorld [] "" "" (λ _, ∅) no_versions (mkDefaultStorageClass "" zero_SCParameters) None.
Definition read := @secret_attempts host (kubeconfig_secret "cluster-demo" "demo") 6 (Ok "") start.
Definition made := @exec host ("mkdir -p " +:+ "/kind") 5 3 (snd read).
End RefreshDemo.

Lemma refresh_writes_secret_witness :
  ∃ r, w_log (snd (@refresh RefreshDemo.host "cluster-demo" "demo" "/kind/worker-cluster.kubeconfig" "/kind" RefreshDemo.start)) =
    (Cmd "echo 'kind: Config' > /kind/worker-cluster.kubeconfig" [], r) :: w_log (snd RefreshDemo.made).
Proof.
  assert (RefreshDemo.read = (Ok (Ok (quoted "'" (EncodeToString "kind: Config"))), snd RefreshDemo.read)) as E1 by (vm_compute; reflexivity).
  assert (RefreshDemo.made = (Ok "", snd RefreshDemo.made)) as E2 by (vm_compute; reflexivity).
  exact (@refresh_writes_secret RefreshDemo.host "cluster-demo" "demo" "/kind/worker-cluster.kubeconfig" "/kind" "'" "kind: Config"
           "" RefreshDemo.start (snd RefreshDemo.read) (snd RefreshDemo.made) (or_intror eq_refl) E1 E2).
Defined.
