(* ===== verification/Masquerade.v ===== *)
(** * The masquerade rules of kindnetd

    [IPMasqAgent] of src/images/kindnetd/cmd/kindnetd/masq.go: the chain that keeps
    the traffic between pods from being masqueraded.  go-iptables is the class
    [Iptables]; its laws say what a call does to the chains of the tables.  Shown:
    without interference the masquerading rule is the last of the chain after every
    run, whichever runs failed in between; and that a rule which somebody deletes is
    put back behind it. *)

From S2P Require Import Prelude State GoStr.
Local Open Scope Z_scope.
Local Open Scope go_scope.
Local Open Scope stdpp_scope.

Abbreviation rule := (list string).

(** ** github.com/coreos/go-iptables *)

Class Iptables (W : Type) := {
  ListChains : string → st W (list string);
  NewChain : string → string → st W unit;
  AppendUnique : string → string → rule → st W unit
}.

Definition add_rule (r : rule) (rules : list rule) : list rule :=
  if bool_decide (r ∈ rules) then rules else rules ++ [r].

(** Its documentation: [AppendUnique] appends a rule unless it is there, and a call
    that returns an error changes nothing. *)
Class IptablesLaws (W : Type) `{Iptables W} := {
  chains : W → gmap (string * string) (list rule);
  ListChains_spec t w r w' : ListChains t w = (r, w') →
    chains w' = chains w ∧ ∀ l c, r = Ok l → c ∈ l ↔ is_Some (chains w !! (t, c));
  NewChain_spec t c w r w' : NewChain t c w = (r, w') →
    if is_Ok r then chains w' = <[(t, c) := []]> (chains w) else chains w' = chains w;
  AppendUnique_spec t c x w r w' : AppendUnique t c x w = (r, w') →
    if is_Ok r then ∃ rules, chains w !! (t, c) = Some rules ∧ chains w' = <[(t, c) := add_rule x rules]> (chains w)
    else chains w' = chains w
}.

(** ** The agent *)

Record IPMasqAgent := mkIPMasqAgent { masqChain : string; noMasqueradeCIDRs : list string }.

Definition masqChainName : string := "KIND-MASQ-AGENT".
Definition NewIPMasqAgent (noMasqueradeCIDRs : list string) : IPMasqAgent :=
  mkIPMasqAgent masqChainName noMasqueradeCIDRs.

Definition local_rule (cidr : string) : rule :=
  ["-d"; cidr; "-j"; "RETURN"; "-m"; "comment"; "--comment";
   "kind-masq-agent: local traffic is not subject to MASQUERADE"].
Definition masquerade_rule : rule :=
  ["-j"; "MASQUERADE"; "-m"; "comment"; "--comment";
   "kind-masq-agent: outbound traffic is subject to MASQUERADE (must be last in chain)"].
Definition jump_rule (chain : string) : rule :=
  ["-m"; "addrtype"; "!"; "--dst-type"; "LOCAL"; "-j"; chain; "-m"; "comment"; "--comment";
   "kind-masq-agent: ensure nat POSTROUTING directs all non-LOCAL destination traffic to our custom KIND-MASQ-AGENT chain"].

Section agent.
Context {W : Type} `{Iptables W}.

Definition SyncRules (ma : IPMasqAgent) : st W unit :=
  chains ← (λ w, let '(r, w) := ListChains "nat" w in (map_err (λ e, "failed to list chains: " +:+ e) r, w));
  let exists_ := str_in (masqChain ma) chains in
  st_when (negb exists_) (NewChain "nat" (masqChain ma)) ;;
  st_each (λ cidr, AppendUnique "nat" (masqChain ma) (local_rule cidr)) (noMasqueradeCIDRs ma) ;;
  AppendUnique "nat" (masqChain ma) masquerade_rule ;;
  AppendUnique "nat" "POSTROUTING" (jump_rule (masqChain ma)).

(** [iterations] rounds of the loop that began with [errs] failures in a row. *)
Fixpoint SyncRulesForever (ma : IPMasqAgent) (iterations : nat) (errs : nat) : st W unit :=
  match iterations with
  | O => mret tt
  | S iterations =>
      r ← try_ (SyncRules ma);
      match r with
      | Err e => if Nat.ltb 3 (S errs) then pure (Err ("Can't synchronize rules after 3 attempts: " +:+ e))
                 else SyncRulesForever ma iterations (S errs)
      | _ => SyncRulesForever ma iterations 0
      end
  end.
End agent.

(** ** The chain that is meant *)

Definition chain_rules (ma : IPMasqAgent) : list rule :=
  (local_rule <$> noMasqueradeCIDRs ma) ++ [masquerade_rule].
Definition add_rules (rs l : list rule) : list rule := fold_left (flip add_rule) rs l.
Definition meant (ma : IPMasqAgent) : list rule := add_rules (chain_rules ma) [].

Lemma add_rule_in r l : r ∈ add_rule r l.
Proof. unfold add_rule. case_bool_decide; [done|]. apply elem_of_app. right. by apply list_elem_of_singleton. Qed.

Lemma add_rule_elem x r l : x ∈ add_rule r l ↔ x = r ∨ x ∈ l.
Proof. unfold add_rule. case_bool_decide; set_solver. Qed.

Lemma add_rule_prefix r l : l `prefix_of` add_rule r l.
Proof. unfold add_rule. case_bool_decide; [done|]. by exists [r]. Qed.

Lemma add_rules_prefix rs l : l `prefix_of` add_rules rs l.
Proof.
  revert l. induction rs as [|r rs IH]; intros l; [done|].
  etrans; [apply (add_rule_prefix r)|]. apply IH.
Qed.

Lemma add_rules_elem x rs l : x ∈ add_rules rs l ↔ x ∈ rs ∨ x ∈ l.
Proof.
  revert l. induction rs as [|r rs IH]; intros l; [set_solver|].
  unfold add_rules. cbn [fold_left]. change (x ∈ add_rules rs (add_rule r l) ↔ x ∈ r :: rs ∨ x ∈ l). rewrite IH, add_rule_elem. set_solver.
Qed.

Lemma add_rules_app rs rs' l : add_rules (rs ++ rs') l = add_rules rs' (add_rules rs l).
Proof. apply fold_left_app. Qed.

(** A part of the chain from its start on stays one: the rule that is added next is
    in it or is the next. *)
Lemma add_rule_between pre r post l : let F := add_rules (pre ++ r :: post) [] in
  add_rules pre [] `prefix_of` l → l `prefix_of` F →
  add_rules (pre ++ [r]) [] `prefix_of` add_rule r l ∧ add_rule r l `prefix_of` F.
Proof.
  intros F Hpre Hl. rewrite add_rules_app. set (p := add_rules pre []) in *.
  assert (add_rule r p `prefix_of` F) as Hp.
  { subst F. rewrite add_rules_app. apply (add_rules_prefix post (add_rule r p)). }
  change (add_rules [r] p) with (add_rule r p). unfold add_rule in *.
  case_bool_decide as Hin; case_bool_decide as Hin'.
  - done.
  - exfalso. apply Hin'. destruct Hpre as [k ->]. apply elem_of_app. by left.
  - destruct (prefix_weak_total _ _ _ Hp Hl) as [?|Hs]; [done|].
    destruct Hs as [k Hk]. assert (r ∈ p ++ [r]) as Hr by set_solver.
    destruct Hpre as [k' ->]. rewrite <-app_assoc in Hk. apply app_inv_head in Hk.
    destruct k' as [|y k']; [set_solver|]. simplify_eq/=. split; [|done].
    by destruct k' as [|]; simplify_list_eq.
  - destruct (prefix_weak_total _ _ _ Hp Hl) as [[k ->]|[k Hk]]; [set_solver|].
    destruct Hpre as [k' ->]. rewrite <-app_assoc in Hk. apply app_inv_head in Hk.
    destruct k' as [|y k']; simplify_list_eq; [done|]. set_solver.
Qed.

Lemma meant_locals ma : ∃ locals, meant ma = locals ++ [masquerade_rule] ∧
  ∀ r, r ∈ locals ↔ r ∈ local_rule <$> noMasqueradeCIDRs ma.
Proof.
  exists (add_rules (local_rule <$> noMasqueradeCIDRs ma) []). split.
  - unfold meant, chain_rules. rewrite add_rules_app. unfold add_rules at 1, add_rule. simpl.
    rewrite bool_decide_eq_false_2; [done|]. rewrite add_rules_elem. intros [Hr|Hr]; [|by inversion Hr].
    apply list_elem_of_fmap in Hr as (? & ? & ?). done.
  - intros r. rewrite add_rules_elem. set_solver.
Qed.

(** ** Runs *)

Section runs.
Context {W : Type} `{IptablesLaws W} (cidrs : list string).
Let ma := NewIPMasqAgent cidrs.
Abbreviation key := ("nat", masqChainName).
Abbreviation postrouting := ("nat", "POSTROUTING").

(** No rule is out of its place. *)
Definition in_order (w : W) : Prop := ∀ rules, chains w !! key = Some rules → rules `prefix_of` meant ma.
(** The chain has the rules [pre], in order. *)
Definition reached (pre : list rule) (w : W) : Prop :=
  ∃ rules, chains w !! key = Some rules ∧ add_rules pre [] `prefix_of` rules ∧ rules `prefix_of` meant ma.

Lemma reached_in_order pre w : reached pre w → in_order w.
Proof. intros (rules & Hr & _ & Hm) rules' Hr'. naive_solver. Qed.

Lemma append_step pre r post w res w' : chain_rules ma = pre ++ r :: post → reached pre w →
  AppendUnique "nat" masqChainName r w = (res, w') →
  in_order w' ∧ (is_Ok res = true → reached (pre ++ [r]) w').
Proof.
  intros Hc (rules & Hr & Hp & Hm) E. apply AppendUnique_spec in E. destruct (is_Ok res).
  - destruct E as (rules' & Hr' & E). assert (rules' = rules) as -> by congruence.
    unfold meant in Hm. rewrite Hc in Hm.
    destruct (add_rule_between pre r post rules Hp Hm) as [Hp' Hm'].
    assert (reached (pre ++ [r]) w'); [|by eauto using reached_in_order].
    exists (add_rule r rules). rewrite E, lookup_insert_eq. split_and!; [done..|].
    unfold meant. by rewrite Hc.
  - split; [|done]. intros ? Hr'. rewrite E in Hr'. naive_solver.
Qed.

Lemma appends pre l w res w' : chain_rules ma = pre ++ (local_rule <$> l) ++ [masquerade_rule] → reached pre w →
  st_each (λ cidr, AppendUnique "nat" masqChainName (local_rule cidr)) l w = (res, w') →
  in_order w' ∧ (is_Ok res = true → reached (pre ++ (local_rule <$> l)) w').
Proof.
  revert pre w. induction l as [|cidr l IH]; intros pre w Hc Hp E; simpl in E.
  - injection E as <- <-. split; [by eapply reached_in_order|]. by rewrite app_nil_r.
  - unfold mbind, st_bind in E.
    destruct (AppendUnique "nat" masqChainName (local_rule cidr) w) as [r v] eqn:Ea.
    destruct (append_step pre (local_rule cidr) _ w r v Hc Hp Ea) as [Hv Hok].
    destruct r as [[]| |]; [|by injection E as <- <-..].
    destruct (IH (pre ++ [local_rule cidr]) v) as [Hw' Hok']; [|by apply Hok|done|].
    + by rewrite <-app_assoc.
    + split; [done|]. by rewrite <-app_assoc in Hok'.
Qed.

(** The chain is there before the rules are appended. *)
Lemma SyncRules_start w l w1 r w2 : in_order w → ListChains "nat" w = (Ok l, w1) →
  st_when (negb (str_in masqChainName l)) (NewChain "nat" masqChainName) w1 = (r, w2) →
  in_order w2 ∧ (is_Ok r = true → reached [] w2).
Proof.
  intros Hw E1 E2. apply ListChains_spec in E1 as [E1 Hl]. specialize (Hl l masqChainName eq_refl).
  assert (in_order w1) as Hw1 by (intros ?; rewrite E1; apply Hw).
  destruct (str_in masqChainName l) eqn:Hin; simpl in E2.
  - injection E2 as <- <-. apply str_in_true, Hl in Hin as [rules Hr]. rewrite <-E1 in Hr.
    split; [done|]. intros _. exists rules. eauto using prefix_nil.
  - apply NewChain_spec in E2. destruct (is_Ok r).
    + assert (reached [] w2); [|by eauto using reached_in_order].
      exists []. rewrite E2, lookup_insert_eq. eauto using prefix_nil.
    + split; [|done]. intros ?. rewrite E2. apply Hw1.
Qed.

(** What a run leaves. *)
Definition synced (w : W) : Prop :=
  chains w !! key = Some (meant ma) ∧ ∃ rules, chains w !! postrouting = Some rules ∧ jump_rule masqChainName ∈ rules.

Lemma SyncRules_run w r w' : in_order w → SyncRules ma w = (r, w') → in_order w' ∧ (is_Ok r = true → synced w').
Proof.
  intros Hw E. unfold SyncRules, mbind, st_bind in E. cbn [masqChain noMasqueradeCIDRs ma NewIPMasqAgent] in E.
  destruct (ListChains "nat" w) as [[l| |] w1] eqn:E1; simpl in E;
    [|injection E as <- <-; apply ListChains_spec in E1 as [E1 _]; (split; [|done]); intros ?; rewrite E1; apply Hw..].
  destruct (st_when _ _ w1) as [r2 w2] eqn:E2. destruct (SyncRules_start _ _ _ _ _ Hw E1 E2) as [Hw2 Hok2].
  destruct r2 as [[]| |]; [|by injection E as <- <-..].
  destruct (st_each _ _ w2) as [r3 w3] eqn:E3.
  destruct (appends [] cidrs w2 r3 w3 eq_refl (Hok2 eq_refl) E3) as [Hw3 Hok3].
  destruct r3 as [[]| |]; [|by injection E as <- <-..].
  destruct (AppendUnique "nat" masqChainName masquerade_rule w3) as [r4 w4] eqn:E4.
  destruct (append_step (local_rule <$> cidrs) masquerade_rule [] w3 r4 w4 eq_refl (Hok3 eq_refl) E4) as [Hw4 Hok4].
  destruct r4 as [[]| |]; [|by injection E as <- <-..].
  destruct (Hok4 eq_refl) as (rules & Hr & Hp & Hm).
  assert (rules = meant ma) as -> by by apply (anti_symm prefix).
  apply AppendUnique_spec in E. destruct (is_Ok r).
  - destruct E as (post & Hpost & E). assert (chains w' !! key = Some (meant ma)) as Hk.
    { by rewrite E, lookup_insert_ne. }
    split; [intros ? Hr'; naive_solver|]. intros _. split; [done|]. eexists. rewrite E, lookup_insert_eq.
    split; [done|apply add_rule_in].
  - split; [|done]. intros ?. rewrite E. apply Hw4.
Qed.

(** A run that succeeds, as a function of the chains. *)
Lemma appends_Ok l w w' rules : chains w !! key = Some rules →
  st_each (λ cidr, AppendUnique "nat" masqChainName (local_rule cidr)) l w = (Ok tt, w') →
  chains w' = <[key := add_rules (local_rule <$> l) rules]> (chains w).
Proof.
  revert w rules. induction l as [|cidr l IH]; intros w rules Hr E; simpl in E.
  - injection E as <-. by rewrite insert_id.
  - apply st_bind_Ok in E as ([] & v & Ea & E). apply AppendUnique_spec in Ea as (rules' & Hr' & Ea).
    assert (rules' = rules) as -> by naive_solver.
    rewrite (IH v (add_rule (local_rule cidr) rules)); [|by rewrite Ea, lookup_insert_eq|done].
    by rewrite Ea, insert_insert_eq.
Qed.

Lemma SyncRules_Ok w w' : SyncRules ma w = (Ok tt, w') → ∃ post, chains w !! postrouting = Some post ∧
  chains w' = <[postrouting := add_rule (jump_rule masqChainName) post]>
    (<[key := add_rules (chain_rules ma) (default [] (chains w !! key))]> (chains w)).
Proof.
  intros E. unfold SyncRules in E. cbn [masqChain noMasqueradeCIDRs ma NewIPMasqAgent] in E.
  apply st_bind_Ok in E as (l & w1 & E1 & E). destruct (ListChains "nat" w) as [[l'| |] w1'] eqn:El; simplify_eq/=.
  apply ListChains_spec in El as [El Hl]. specialize (Hl l masqChainName eq_refl).
  apply st_bind_Ok in E as ([] & w2 & E2 & E). apply st_bind_Ok in E as ([] & w3 & E3 & E).
  apply st_bind_Ok in E as ([] & w4 & E4 & E).
  set (rules := default [] (chains w !! key)).
  assert (chains w2 = <[key := rules]> (chains w)) as Hw2.
  { destruct (str_in masqChainName l) eqn:Hin; simpl in E2.
    - apply str_in_true, Hl in Hin as [rules' Hr]. injection E2 as <-. subst rules. rewrite El, Hr. by rewrite insert_id.
    - apply NewChain_spec in E2. simpl in E2. rewrite E2, El. subst rules.
      rewrite str_in_false, Hl, <-eq_None_not_Some in Hin. by rewrite Hin. }
  assert (chains w2 !! key = Some rules) as Hk by by rewrite Hw2, lookup_insert_eq.
  apply (appends_Ok _ _ _ _ Hk) in E3.
  apply AppendUnique_spec in E4 as (rules4 & Hr4 & E4). apply AppendUnique_spec in E as (post & Hpost & E).
  rewrite E3, lookup_insert_eq in Hr4. injection Hr4 as <-.
  exists post. split.
  - by rewrite E4, E3, Hw2, !lookup_insert_ne in Hpost.
  - rewrite E, E4, E3, Hw2, !insert_insert_eq. f_equal. unfold chain_rules. by rewrite add_rules_app.
Qed.
End runs.

Lemma add_rules_there rs l : Forall (λ r, r ∈ l) rs → add_rules rs l = l.
Proof.
  induction 1 as [|r rs Hr _ IH]; [done|]. change (add_rules rs (add_rule r l) = l).
  unfold add_rule at 1. by rewrite bool_decide_eq_true_2.
Qed.

(** C20. When nobody else writes the rules, the chain of kindnetd is in order after any
    number of runs, whichever of them failed and where: a run that succeeds leaves the
    rule of each network of the pods and, last, the masquerading rule, directs the
    traffic to the chain and touches no other chain, and the next run that succeeds
    changes nothing. *)
Theorem SyncRules_in_order `{IptablesLaws W} cidrs w0 w w' :
  let ma := NewIPMasqAgent cidrs in
  in_order cidrs w0 → rtc (λ w w', ∃ r, SyncRules ma w = (r, w')) w0 w → SyncRules ma w = (Ok tt, w') →
  (∃ locals, chains w' !! ("nat", masqChainName) = Some (locals ++ [masquerade_rule]) ∧
     ∀ r, r ∈ locals ↔ r ∈ local_rule <$> cidrs) ∧
  (∃ rules, chains w' !! ("nat", "POSTROUTING") = Some rules ∧ jump_rule masqChainName ∈ rules) ∧
  (∀ k, k ≠ ("nat", masqChainName) → k ≠ ("nat", "POSTROUTING") → chains w' !! k = chains w !! k) ∧
  ∀ w'', SyncRules ma w' = (Ok tt, w'') → chains w'' = chains w'.
Proof.
  intros ma Hw0 Hruns E.
  assert (in_order cidrs w) as Hw.
  { clear E. induction Hruns as [|w1 w2 w3 [r E] _ IH]; [done|]. apply IH. by eapply SyncRules_run. }
  destruct (SyncRules_run cidrs w _ w' Hw E) as [_ Hs]. destruct (Hs eq_refl) as (Hk & post & Hpost & Hj).
  destruct (SyncRules_Ok cidrs w w' E) as (post0 & _ & E').
  split_and!; [|by exists post| |].
  - rewrite Hk. destruct (meant_locals (NewIPMasqAgent cidrs)) as (locals & -> & Hl). by exists locals.
  - intros k Hk1 Hk2. by rewrite E', !lookup_insert_ne by done.
  - intros w'' E''. apply SyncRules_Ok in E'' as (post' & Hpost' & ->).
    rewrite Hk. cbn [default]. simplify_eq. unfold add_rule. rewrite bool_decide_eq_true_2 by done.
    rewrite add_rules_there; [by rewrite (insert_id (chains w')), insert_id by done|].
    apply Forall_forall. intros r Hr. unfold meant. apply add_rules_elem. by left.
Qed.

(** *** At a concrete host *)

Module Tables.
(** The chains, the latest contents of each first. *)
Definition table : Type := list ((string * string) * list rule).

Fixpoint find_chain (k : string * string) (w : table) : option (list rule) :=
  match w with
  | [] => None
  | (k', rules) :: w => if (fst k' =s fst k) && (snd k' =s snd k) then Some rules else find_chain k w
  end.
Lemma find_chain_lookup k w : (list_to_map w : gmap _ (list rule)) !! k = find_chain k w.
Proof.
  induction w as [|[k' rules] w IH]; [done|]. destruct k as [t c], k' as [t' c']. simpl.
  destruct ((t' =s t) && (c' =s c)) eqn:E.
  - apply andb_prop in E as [->%String.eqb_eq ->%String.eqb_eq]. by rewrite lookup_insert_eq.
  - rewrite lookup_insert_ne; [done|]. intros [= -> ->]. by rewrite !String.eqb_refl in E.
Qed.

Definition append_unique (t c : string) (x : rule) : st table unit := λ w,
  match find_chain (t, c) w with
  | Some rules => (Ok tt, ((t, c), add_rule x rules) :: w)
  | None => (Err "No chain/target/match by that name.", w)
  end.
#[global] Instance host : Iptables table := {|
  ListChains t := get (λ w, snd <$> List.filter (λ k, fst k =s t) (fst <$> w));
  NewChain t c := modify (cons ((t, c), []));
  AppendUnique := append_unique
|}.

Lemma listed t c (w : table) :
  c ∈ snd <$> List.filter (λ k, fst k =s t) (fst <$> w) ↔ is_Some (find_chain (t, c) w).
Proof.
  induction w as [|[[t' c'] rules] w IH]; [simpl; split; [by intros ?%not_elem_of_nil|by intros []]|]. simpl.
  destruct (String.eqb_spec t' t) as [->|Ht]; simpl; [|done].
  rewrite elem_of_cons. destruct (String.eqb_spec c' c) as [->|Hc]; simpl; naive_solver.
Qed.

#[global] Instance host_laws : IptablesLaws table.
Proof.
  refine {| chains := list_to_map |}.
  - intros t w r w' E. injection E as <- <-. split; [done|].
    intros l c El. injection El as <-. rewrite find_chain_lookup. apply listed.
  - intros t c w r w' E. by injection E as <- <-.
  - intros t c x w r w' E. change (append_unique t c x w = (r, w')) in E. unfold append_unique in E.
    destruct (find_chain (t, c) w) as [rules|] eqn:Hw; injection E as <- <-; simpl; [|done].
    exists rules. by rewrite find_chain_lookup.
Defined.

Definition cidrs : list string := ["10.244.0.0/16"; "10.96.0.0/12"].
Definition agent : IPMasqAgent := NewIPMasqAgent cidrs.
Definition start : table := [(("nat", "POSTROUTING"), [])].
Definition run (w : table) : table := snd (SyncRules agent w).
(** Somebody deletes the rule of the first network. *)
Definition deleted : table :=
  (("nat", masqChainName), [local_rule "10.96.0.0/12"; masquerade_rule]) :: run start.
End Tables.

Lemma SyncRules_in_order_witness :
  chains (Tables.run (Tables.run Tables.start)) !! ("nat", masqChainName) =
    Some [local_rule "10.244.0.0/16"; local_rule "10.96.0.0/12"; masquerade_rule] ∧
  ∃ rules, chains (Tables.run (Tables.run Tables.start)) !! ("nat", "POSTROUTING") = Some rules ∧
    jump_rule masqChainName ∈ rules.
Proof.
  split; [exact (Tables.find_chain_lookup _ _)|].
  assert (SyncRules Tables.agent (Tables.run Tables.start) = (Ok tt, Tables.run (Tables.run Tables.start))) as E
    by (vm_compute; reflexivity).
  assert (in_order Tables.cidrs Tables.start) as Ho by (intros rules Hr; unfold chains, Tables.host_laws in Hr; rewrite Tables.find_chain_lookup in Hr; discriminate Hr).
  refine (proj1 (proj2 (SyncRules_in_order Tables.cidrs Tables.start (Tables.run Tables.start) _ Ho _ E))).
  apply rtc_once. exists (Ok tt). vm_compute. reflexivity.
Defined.

(** ** What goes wrong *)

(** A rule that is deleted while the masquerading rule stays comes back behind it,
    where no packet reaches it: the traffic to the network is masqueraded from then on. *)
Lemma deleted_rule_behind `{IptablesLaws W} cidrs cidr rules w w' :
  chains w !! ("nat", masqChainName) = Some rules → masquerade_rule ∈ rules →
  cidr ∈ cidrs → local_rule cidr ∉ rules → SyncRules (NewIPMasqAgent cidrs) w = (Ok tt, w') →
  ∃ behind, chains w' !! ("nat", masqChainName) = Some (rules ++ behind) ∧ local_rule cidr ∈ behind.
Proof.
  intros Hr Hm Hc Hd E. destruct (SyncRules_Ok _ _ _ E) as (post & _ & E').
  rewrite Hr in E'. change (default [] (Some rules)) with rules in E'. set (ma := NewIPMasqAgent cidrs) in *.
  destruct (add_rules_prefix (chain_rules ma) rules) as [behind Hb].
  exists behind. rewrite E', lookup_insert_ne, lookup_insert_eq, Hb by done. split; [done|].
  assert (local_rule cidr ∈ add_rules (chain_rules ma) rules) as Hin.
  { apply add_rules_elem. left. unfold chain_rules. apply elem_of_app. left. by apply list_elem_of_fmap_2. }
  rewrite Hb, elem_of_app in Hin. naive_solver.
Qed.

Lemma deleted_rule_behind_witness :
  chains (Tables.run Tables.deleted) !! ("nat", masqChainName) =
    Some [local_rule "10.96.0.0/12"; masquerade_rule; local_rule "10.244.0.0/16"].
Proof.
  destruct (deleted_rule_behind Tables.cidrs "10.244.0.0/16" [local_rule "10.96.0.0/12"; masquerade_rule]
    Tables.deleted (Tables.run Tables.deleted)) as (behind & Hb & Hin).
  - exact (Tables.find_chain_lookup _ _).
  - apply list_elem_of_further, list_elem_of_here.
  - apply list_elem_of_here.
  - apply (bool_decide_eq_false (_ ∈ _)). vm_compute. reflexivity.
  - vm_compute. reflexivity.
  - vm_compute. reflexivity.
Defined.

(** The loop goes on after three failures in a row and ends with the fourth. *)
Lemma forever_ends_at_fourth {W} `{Iptables W} ma w w1 w2 w3 w4 e1 e2 e3 e4 :
  SyncRules ma w = (Err e1, w1) → SyncRules ma w1 = (Err e2, w2) →
  SyncRules ma w2 = (Err e3, w3) → SyncRules ma w3 = (Err e4, w4) →
  SyncRulesForever ma 3 0 w = (Ok tt, w3) ∧
  SyncRulesForever ma 4 0 w = (Err ("Can't synchronize rules after 3 attempts: " +:+ e4), w4).
Proof.
  intros E1 E2 E3 E4. unfold SyncRulesForever, mbind, st_bind, try_.
  by rewrite E1; simpl; rewrite E2; simpl; rewrite E3; simpl; rewrite ?E4.
Qed.
