(* ===== verification/Kindnet.v ===== *)
(** * kindnetd: routes, the CNI configuration and the control loop

    src/images/kindnetd/cmd/kindnetd/: routes.go, cni.go and main.go.  The daemon gives
    every node a route to the pods of each other node, and writes the configuration
    of the network plugin of its own.  netlink, the files and the API server are the
    classes [Netlink], [Files] and [Api].  Shown: after a pass that succeeds every pod
    network of another node is reached through that node and nothing else, and the
    configuration file is never seen half written. *)

From stdpp Require Import sorting.
From S2P Require Import Prelude State GoStr NetIP.
Local Open Scope Z_scope.
Local Open Scope go_scope.
Local Open Scope stdpp_scope.

(** ** Addresses *)

(** [net.ParseIP]: no zone. *)
Definition ParseIP (s : string) : option IP := ParseAddr s.
(** The address that [net.ParseCIDR] returns beside the network. *)
Definition ParseCIDR_IP (s : string) : option IP :=
  match ParseCIDR s with Some _ => ParseAddr (hd "" (Split s "/")) | None => None end.

(** [ip != nil && ip.To4() == nil] *)
Definition is_v6 (ip : option IP) : bool :=
  match ip with Some ip => ip_bits (To4 ip) =? 128 | None => false end.
Definition isIPv6String (ip : string) : bool := is_v6 (ParseIP ip).
Definition isIPv6CIDRString (cidr : string) : bool := is_v6 (ParseCIDR_IP cidr).

#[export] Instance IP_eq_dec : EqDecision IP.
Proof. solve_decision. Defined.
(** [IP.Equal]: an IPv4 address equals its form of 128 bits. *)
Definition gw_Equal (a b : option IP) : bool := bool_decide (To4 <$> a = To4 <$> b).

Definition splitCIDRs (cidrs : list string) : list string * list string :=
  fold_left (λ '(v4subnets, v6subnets) subnet,
    if isIPv6CIDRString subnet then (v4subnets, v6subnets ++ [subnet]) else (v4subnets ++ [subnet], v6subnets))
    cidrs ([], []).

Lemma splitCIDRs_filter cidrs : splitCIDRs cidrs =
  (List.filter (λ c, negb (isIPv6CIDRString c)) cidrs, List.filter isIPv6CIDRString cidrs).
Proof.
  unfold splitCIDRs. assert (∀ a b, fold_left (λ '(v4subnets, v6subnets) subnet,
    if isIPv6CIDRString subnet then (v4subnets, v6subnets ++ [subnet]) else (v4subnets ++ [subnet], v6subnets)) cidrs (a, b) =
    (a ++ List.filter (λ c, negb (isIPv6CIDRString c)) cidrs, b ++ List.filter isIPv6CIDRString cidrs)) as ->; [|done].
  induction cidrs as [|c cidrs IH]; intros a b; simpl; [by rewrite !app_nil_r|].
  destruct (isIPv6CIDRString c); rewrite IH; simpl; by rewrite <-app_assoc.
Qed.

(** ** What is outside *)

Definition Dst : Type := IP * Z.

(** github.com/vishvananda/netlink. *)
Class Netlink (W : Type) := {
  Route : Type;
  route_Dst : Route → Dst;
  route_Gw : Route → option IP;
  new_Route : Dst → option IP → Route;
  ParseIPNet : string → res Dst;
  GetIPFamily : option IP → Z;
  RouteListFiltered : Z → Route → st W (list Route);
  RouteDel : Route → st W unit;
  RouteAdd : Route → st W unit
}.

Class Files (W : Type) := {
  os_Create : string → st W unit;
  file_Write : string → string → st W unit;
  file_Sync : string → st W unit;
  file_Close : string → st W unit;
  os_Remove : string → st W unit;
  os_Rename : string → string → st W unit
}.

(** The fields of [corev1.Node] that are used; an address is its type and its text. *)
Record Node := mkNode {
  nd_PodCIDR : string;
  nd_PodCIDRs : list string;
  nd_Addresses : list (string * string)
}.
#[export] Instance Node_eq_dec : EqDecision Node.
Proof. solve_decision. Defined.
Class Api (W : Type) := { Nodes_List : st W (list Node) }.

(** ** routes.go *)

Section routes.
Context {W : Type} `{Netlink W}.

Definition delete_wrong (ip : option IP) (route : Route) : st W unit :=
  if gw_Equal (route_Gw route) ip then mret tt else RouteDel route.

Definition sync_route (nodeIP podCIDR : string) : st W unit :=
  let ip := ParseIP nodeIP in
  dst ← pure (ParseIPNet podCIDR);
  let routeToDst := new_Route dst ip in
  routes ← RouteListFiltered (GetIPFamily ip) routeToDst;
  st_each (delete_wrong ip) routes ;;
  let found := existsb (λ route, gw_Equal (route_Gw route) ip) routes in
  st_when (negb found) (RouteAdd routeToDst).

Definition syncRoute (nodeIP : string) (podCIDRs : list string) : st W unit :=
  st_each (sync_route nodeIP) podCIDRs.
End routes.

(** ** cni.go *)

Record CNIConfigInputs := mkCNIConfigInputs { ci_PodCIDRs : list string; ci_DefaultRoutes : list string; ci_Mtu : Z }.
#[export] Instance CNIConfigInputs_eq_dec : EqDecision CNIConfigInputs.
Proof. solve_decision. Defined.

Definition ComputeCNIConfigInputs (node : Node) : CNIConfigInputs :=
  if Nat.ltb 1 (length (nd_PodCIDRs node)) then mkCNIConfigInputs (nd_PodCIDRs node) ["0.0.0.0/0"; "::/0"] 0
  else mkCNIConfigInputs [nd_PodCIDR node] [if isIPv6CIDRString (nd_PodCIDR node) then "::/0" else "0.0.0.0/0"] 0.

Definition cniConfigPath : string := "/etc/cni/net.d/10-kindnet.conflist".

(** The line breaks and tabs of the template. *)
Definition tab : string := String (Ascii.ascii_of_nat 9) "".
Definition nl : string := String (Ascii.ascii_of_nat 10) "".
Definition line (indent : nat) (text : string) : string := Join (replicate indent tab) "" +:+ text +:+ nl.

(** [{{range}}] over a list: what is printed for the first element begins with
    nothing, and with a comma for the others. *)
Definition range_ (item : string → string) (l : list string) : string :=
  Join (imap (λ i x, nl +:+ Join (replicate 4 tab) "" +:+ (if Nat.eqb i 0 then "" else ",") +:+ nl +:+
    Join (replicate 4 tab) "" +:+ item x) l) "".

(** [cniConfigTemplate], executed. *)
Definition render (data : CNIConfigInputs) : string :=
  nl +:+ line 0 "{" +:+
  line 1 (Q "cniVersion" +:+ ": " +:+ Q "0.3.1" +:+ ",") +:+
  line 1 (Q "name" +:+ ": " +:+ Q "kindnet" +:+ ",") +:+
  line 1 (Q "plugins" +:+ ": [") +:+
  line 1 "{" +:+
  line 2 (Q "type" +:+ ": " +:+ Q "ptp" +:+ ",") +:+
  line 2 (Q "ipMasq" +:+ ": false,") +:+
  line 2 (Q "ipam" +:+ ": {") +:+
  line 3 (Q "type" +:+ ": " +:+ Q "host-local" +:+ ",") +:+
  line 3 (Q "dataDir" +:+ ": " +:+ Q "/run/cni-ipam-state" +:+ ",") +:+
  Join (replicate 3 tab) "" +:+ Q "routes" +:+ ": [" +:+ nl +:+ Join (replicate 4 tab) "" +:+
  range_ (λ route, "{ " +:+ Q "dst" +:+ ": " +:+ Q route +:+ " }") (ci_DefaultRoutes data) +:+ nl +:+
  line 3 "]," +:+
  Join (replicate 3 tab) "" +:+ Q "ranges" +:+ ": [" +:+ nl +:+ Join (replicate 4 tab) "" +:+
  range_ (λ cidr, "[ { " +:+ Q "subnet" +:+ ": " +:+ Q cidr +:+ " } ]") (ci_PodCIDRs data) +:+ nl +:+
  line 3 "]" +:+
  line 2 "}" +:+
  Join (replicate 2 tab) "" +:+
  (if ci_Mtu data =? 0 then "" else "," +:+ nl +:+ Join (replicate 2 tab) "" +:+ Q "mtu" +:+ ": " +:+ Itoa (ci_Mtu data) +:+
     nl +:+ Join (replicate 2 tab) "") +:+ nl +:+
  line 1 "}," +:+
  line 1 "{" +:+
  line 2 (Q "type" +:+ ": " +:+ Q "portmap" +:+ ",") +:+
  line 2 (Q "capabilities" +:+ ": {") +:+
  line 3 (Q "portMappings" +:+ ": true") +:+
  line 2 "}" +:+
  line 1 "}" +:+
  line 1 "]" +:+
  line 0 "}".

Record CNIConfigWriter := mkCNIConfigWriter { cw_path : string; cw_lastInputs : CNIConfigInputs; cw_mtu : Z }.
Definition zero_inputs : CNIConfigInputs := mkCNIConfigInputs [] [] 0.

(** The daemon: its writer, and the machine it runs on. *)
Record daemon (W : Type) := mkDaemon { d_writer : CNIConfigWriter; d_machine : W }.
Arguments mkDaemon {W}.
Arguments d_writer {W}.
Arguments d_machine {W}.

Definition on_machine {W A} (m : st W A) : st (daemon W) A := λ d,
  let '(r, w) := m (d_machine d) in (r, mkDaemon (d_writer d) w).
Definition with_Mtu (mtu : Z) (inputs : CNIConfigInputs) : CNIConfigInputs :=
  mkCNIConfigInputs (ci_PodCIDRs inputs) (ci_DefaultRoutes inputs) mtu.
Definition record_inputs {W} (inputs : CNIConfigInputs) : st (daemon W) unit :=
  modify (λ d, mkDaemon (mkCNIConfigWriter (cw_path (d_writer d)) inputs (cw_mtu (d_writer d))) (d_machine d)).

Section writer.
Context {W : Type} `{Files W}.

Definition writeCNIConfig (f : string) (data : CNIConfigInputs) : st W unit := file_Write f (render data).

Definition write_temp (f : string) (inputs : CNIConfigInputs) : st W unit :=
  os_Create f ;;
  on_error (writeCNIConfig f inputs) (ignore_err (file_Close f) ;; ignore_err (os_Remove f)) ;;
  ignore_err (file_Sync f) ;;
  ignore_err (file_Close f).

Definition write_file (path : string) (inputs : CNIConfigInputs) : st W unit :=
  let f := path +:+ ".temp" in
  write_temp f inputs ;;
  os_Rename f path.

Definition Write (inputs : CNIConfigInputs) : st (daemon W) unit :=
  c ← get d_writer;
  let inputs := with_Mtu (cw_mtu c) inputs in
  if bool_decide (inputs = cw_lastInputs c) then mret tt
  else on_machine (write_file (cw_path c) inputs) ;; record_inputs inputs.
End writer.

(** ** main.go *)

Inductive IPFamily := IPv4Family | IPv6Family | DualStackFamily.
#[export] Instance IPFamily_eq_dec : EqDecision IPFamily.
Proof. solve_decision. Defined.

(** The family of the cluster, from POD_SUBNET. *)
Definition cluster_family (podSubnetEnv : string) : res IPFamily :=
  if podSubnetEnv =s "" then Panic "missing environment variable POD_SUBNET" else
  let podSubnetEnv := TrimSpace podSubnetEnv in
  let '(v4, v6) := splitCIDRs (Split podSubnetEnv ",") in
  if Nat.ltb 0 (length v4) && Nat.ltb 0 (length v6) then Ok DualStackFamily
  else if Nat.ltb 0 (length v6) then Ok IPv6Family
  else if Nat.ltb 0 (length v4) then Ok IPv4Family
  else Panic "podSubnets ClusterCIDR/Pod_Subnet".

Definition internalIPs (node : Node) : gset string :=
  list_to_set (snd <$> List.filter (λ address, fst address =s "InternalIP") (nd_Addresses node)).

(** [sets.String.List] sorts. *)
Definition List_ (s : gset string) : list string := merge_sort String.le (elements s).

(** The last address of each family. *)
Definition gateways (ips : list string) : string * string :=
  fold_left (λ '(nodeIPv4, nodeIPv6) ip, if isIPv6String ip then (nodeIPv4, ip) else (ip, nodeIPv6)) ips ("", "").

Section reconcile.
Context {W : Type} `{Netlink W, Files W, Api W}.

Definition pod_CIDRs (ipFamily : IPFamily) (node : Node) : list string :=
  if bool_decide (ipFamily = DualStackFamily) then nd_PodCIDRs node else [nd_PodCIDR node].

Definition add_routes (ipFamily : IPFamily) (node : Node) : st W unit :=
  let podCIDRs := pod_CIDRs ipFamily node in
  if Nat.eqb (length podCIDRs) 0 then mret tt else
  let '(podCIDRsv4, podCIDRsv6) := splitCIDRs podCIDRs in
  let '(nodeIPv4, nodeIPv6) := gateways (List_ (internalIPs node)) in
  st_when ((nodeIPv4 <>s "") && Nat.ltb 0 (length podCIDRsv4)) (syncRoute nodeIPv4 podCIDRsv4) ;;
  st_when ((nodeIPv6 <>s "") && Nat.ltb 0 (length podCIDRsv6)) (syncRoute nodeIPv6 podCIDRsv6).

Definition reconcileNode (hostIP : string) (ipFamily : IPFamily) (node : Node) : st (daemon W) unit :=
  if bool_decide (hostIP ∈ internalIPs node) then Write (ComputeCNIConfigInputs node)
  else on_machine (add_routes ipFamily node).

Definition reconcileNodes (hostIP : string) (ipFamily : IPFamily) (nodes : list Node) : st (daemon W) unit :=
  st_each (reconcileNode hostIP ipFamily) nodes.

(** [for i := 0; i < n; i++ { a, err = m(); if err == nil { break } }] *)
Fixpoint attempts {A} (n : nat) (m : st (daemon W) A) (last : res A) : st (daemon W) (res A) :=
  match n with
  | O => mret last
  | S n => r ← try_ m; if is_Ok r then mret r else attempts n m r
  end.
Definition panic_on {A} (message : string) (r : res A) : st (daemon W) A :=
  match r with Ok a => mret a | Err e => pure (Panic (message +:+ e)) | Panic x => pure (Panic x) end.

(** One round of the control loop. *)
Definition round (hostIP : string) (ipFamily : IPFamily) : st (daemon W) unit :=
  nodes ← attempts 5 (on_machine Nodes_List) (Err "");
  nodes ← panic_on "Reached maximum retries obtaining node list: " nodes;
  r ← attempts 5 (reconcileNodes hostIP ipFamily nodes) (Err "");
  panic_on "Maximum retries reconciling node routes: " r.
End reconcile.

(** ** What the machine does *)

(** The routing table and the files, and what the operations do to them as documented:
    the list of a filter holds the routes of the family with the destination of the
    filter; a rename replaces a file at once; a call that fails leaves the files, but
    for a write, which may have written a part. *)
Class MachineLaws (W : Type) `{Netlink W, Files W} := {
  routes : W → list Route;
  route_family : Route → Z;
  files : W → gmap string string;
  new_Route_Dst d gw : route_Dst (new_Route d gw) = d;
  RouteListFiltered_spec f x w r w' : RouteListFiltered f x w = (r, w') →
    routes w' = routes w ∧ files w' = files w ∧
    ∀ l y, r = Ok l → y ∈ l ↔ y ∈ routes w ∧ route_family y = f ∧ route_Dst y = route_Dst x;
  RouteDel_spec x w r w' : RouteDel x w = (r, w') →
    files w' = files w ∧ (r = Ok tt → ∀ y, y ∈ routes w' ↔ y ∈ routes w ∧ y ≠ x);
  RouteAdd_spec d gw w r w' : RouteAdd (new_Route d gw) w = (r, w') →
    files w' = files w ∧
    (r = Ok tt → ∃ x, route_Dst x = d ∧ gw_Equal (route_Gw x) gw = true ∧ route_family x = GetIPFamily gw ∧
       ∀ y, y ∈ routes w' ↔ y = x ∨ y ∈ routes w);
  os_Create_spec p w r w' : os_Create p w = (r, w') →
    routes w' = routes w ∧ files w' = if is_Ok r then <[p := ""]> (files w) else files w;
  file_Write_spec p s w r w' : file_Write p s w = (r, w') →
    routes w' = routes w ∧
    if is_Ok r then files w' = <[p := default "" (files w !! p) +:+ s]> (files w)
    else ∃ part, files w' = <[p := part]> (files w);
  file_Sync_spec p w r w' : file_Sync p w = (r, w') → routes w' = routes w ∧ files w' = files w;
  file_Close_spec p w r w' : file_Close p w = (r, w') → routes w' = routes w ∧ files w' = files w;
  os_Remove_spec p w r w' : os_Remove p w = (r, w') →
    routes w' = routes w ∧ files w' = if is_Ok r then delete p (files w) else files w;
  os_Rename_spec a b w r w' : os_Rename a b w = (r, w') →
    routes w' = routes w ∧
    if is_Ok r then ∃ c, files w !! a = Some c ∧ files w' = <[b := c]> (delete a (files w)) else files w' = files w
}.

(** ** Routes *)

Section route_facts.
Context {W : Type} `{MachineLaws W}.
Implicit Types w : W.

(** [x] is a route to [dst] in the table that the gateway [gw] belongs to. *)
Definition leads_to (dst : Dst) (gw : string) (x : Route) : Prop :=
  route_Dst x = dst ∧ route_family x = GetIPFamily (ParseIP gw).

(** The network is reached through the gateway, and through no other. *)
Definition routed (w : W) (cidr gw : string) : Prop :=
  ∃ dst, ParseIPNet cidr = Ok dst ∧
    (∃ x, x ∈ routes w ∧ leads_to dst gw x) ∧
    ∀ x, x ∈ routes w → leads_to dst gw x → gw_Equal (route_Gw x) (ParseIP gw) = true.

Lemma delete_wrong_Ok ip l w w' : st_each (delete_wrong ip) l w = (Ok tt, w') →
  ∀ y, y ∈ routes w' ↔ y ∈ routes w ∧ ¬ (y ∈ l ∧ gw_Equal (route_Gw y) ip = false).
Proof.
  revert w. induction l as [|x l IH]; intros w E y; simpl in E.
  - injection E as <-. set_solver.
  - apply st_bind_Ok in E as ([] & v & Ex & E). rewrite (IH v E). unfold delete_wrong in Ex.
    destruct (gw_Equal (route_Gw x) ip) eqn:Hx.
    + injection Ex as <-. rewrite elem_of_cons. naive_solver congruence.
    + apply RouteDel_spec in Ex as [_ Ex]. rewrite (Ex eq_refl), elem_of_cons. naive_solver congruence.
Qed.

Lemma sync_route_Ok gw cidr w w' : sync_route gw cidr w = (Ok tt, w') →
  ∃ dst, ParseIPNet cidr = Ok dst ∧ routed w' cidr gw ∧ ∀ y, ¬ leads_to dst gw y → y ∈ routes w' ↔ y ∈ routes w.
Proof.
  intros E. unfold sync_route in E.
  apply st_bind_Ok in E as (dst & w0 & E0 & E). unfold pure in E0. injection E0 as E0 <-.
  apply st_bind_Ok in E as (l & w1 & E1 & E). apply st_bind_Ok in E as ([] & w2 & E2 & E).
  apply RouteListFiltered_spec in E1 as (Hr1 & _ & Hl).
  assert (∀ y, y ∈ l ↔ y ∈ routes w ∧ leads_to dst gw y) as Hl'.
  { intros y. rewrite (Hl l y eq_refl), new_Route_Dst. unfold leads_to. naive_solver. }
  pose proof (delete_wrong_Ok _ _ _ _ E2) as Hd. rewrite Hr1 in Hd.
  exists dst. split; [done|].
  assert (∀ x, x ∈ routes w2 → leads_to dst gw x → gw_Equal (route_Gw x) (ParseIP gw) = true) as Hgood.
  { intros x Hx Hlx. apply Hd in Hx as [Hx Hn]. destruct (gw_Equal _ _) eqn:Hg; [done|]. exfalso. apply Hn.
    split; [|done]. by apply Hl'. }
  assert (∀ y, ¬ leads_to dst gw y → y ∈ routes w2 ↔ y ∈ routes w) as Hother.
  { intros y Hy. rewrite Hd, Hl'. naive_solver. }
  destruct (existsb _ l) eqn:Hf; simpl in E.
  - injection E as <-. split; [|done]. exists dst. split_and!; [done| |done].
    apply existsb_exists in Hf as (x & Hx & Hg). apply list_elem_of_In in Hx. pose proof (proj1 (Hl' x) Hx) as [Hxw Hxl].
    exists x. split; [|done]. apply Hd. split; [done|]. intros [_ Hg']. congruence.
  - apply RouteAdd_spec in E as [_ E]. destruct (E eq_refl) as (x & Hxd & Hxg & Hxf & Hx). split.
    + exists dst. split_and!; [done| |].
      * exists x. split; [by apply Hx; left|done].
      * intros y Hy Hyl. apply Hx in Hy as [->|Hy]; [done|by apply Hgood].
    + intros y Hy. rewrite Hx. rewrite Hother by done. split; [|by right].
      intros [->|?]; [|done]. by destruct Hy.
Qed.
End route_facts.

(** ** The configuration file *)

Lemma append_ne (s t : string) : t ≠ "" → s +:+ t ≠ s.
Proof.
  intros Ht E. apply (f_equal String.length) in E. rewrite length_app_string in E. destruct t; simpl in E; [done|lia].
Qed.

Section file_facts.
Context {W : Type} `{MachineLaws W}.

(** Only the file [p] may change. *)
Definition only (p : string) : relation W := λ w w',
  routes w' = routes w ∧ ∀ q, q ≠ p → files w' !! q = files w !! q.
#[export] Instance only_preorder p : PreOrder (only p).
Proof. split; [done|]. intros w1 w2 w3 [? Hq] [? Hq']. split; [congruence|]. intros q Hn. by rewrite Hq', Hq. Qed.

Lemma Create_only p : sat (os_Create p) (only p) (only p).
Proof.
  apply sat_always. intros w r w' [Hr Hf]%os_Create_spec. split; [done|]. intros q Hq. rewrite Hf.
  destruct (is_Ok r); [by rewrite lookup_insert_ne|done].
Qed.
Lemma Write_only p text : sat (file_Write p text) (only p) (only p).
Proof.
  apply sat_always. intros w r w' [Hr Hf]%file_Write_spec. split; [done|]. intros q Hq.
  destruct (is_Ok r); [rewrite Hf|destruct Hf as [part ->]]; by rewrite lookup_insert_ne.
Qed.
Lemma Sync_only p : sat (file_Sync p) (only p) (only p).
Proof. apply sat_always. intros w r w' [Hr Hf]%file_Sync_spec. split; [done|]. by rewrite Hf. Qed.
Lemma Close_only p : sat (file_Close p) (only p) (only p).
Proof. apply sat_always. intros w r w' [Hr Hf]%file_Close_spec. split; [done|]. by rewrite Hf. Qed.
Lemma Remove_only p : sat (os_Remove p) (only p) (only p).
Proof.
  apply sat_always. intros w r w' [Hr Hf]%os_Remove_spec. split; [done|]. intros q Hq. rewrite Hf.
  destruct (is_Ok r); [by rewrite lookup_delete_ne|done].
Qed.

Lemma write_temp_only f data : sat (write_temp f data) (only f) (only f).
Proof.
  unfold write_temp. repeat sat_step.
  - apply Create_only.
  - apply sat_on_error; [apply Write_only|]. repeat sat_step; apply sat_ignore; [apply Close_only|apply Remove_only].
  - apply sat_ignore, Sync_only.
  - apply sat_ignore, Close_only.
Qed.

Lemma ignored_files (m : st W unit) (w w' : W) : (∀ r v, m w = (r, v) → files v = files w) →
  ignore_err m w = (Ok tt, w') → files w' = files w.
Proof. unfold ignore_err. intros Hm E. destruct (m w) as [[[]| |] w1] eqn:E1; simplify_eq; eauto. Qed.

Lemma write_temp_Ok f data w w' : write_temp f data w = (Ok tt, w') → files w' !! f = Some (render data).
Proof.
  unfold write_temp. intros E. apply st_bind_Ok in E as ([] & w1 & [_ E1]%os_Create_spec & E).
  apply st_bind_Ok in E as ([] & w2 & E2 & E). apply st_bind_Ok in E as ([] & w3 & E3 & E4).
  apply ignored_files in E3; [|by intros ? ? []%file_Sync_spec]. apply ignored_files in E4; [|by intros ? ? []%file_Close_spec].
  rewrite E4, E3. unfold on_error, writeCNIConfig in E2.
  destruct (file_Write f (render data) w1) as [[[]| |] v] eqn:Ew; [|by repeat case_match|done].
  injection E2 as <-. apply file_Write_spec in Ew as [_ Ew]. simpl in E1, Ew.
  by rewrite Ew, E1, !lookup_insert_eq.
Qed.

(** What a reader of [path] sees is what was there, or the whole of the text. *)
Lemma write_file_spec path data w r w' : write_file path data w = (r, w') →
  routes w' = routes w ∧ files w' !! path = if is_Ok r then Some (render data) else files w !! path.
Proof.
  intros E. unfold write_file in E. set (f := path +:+ ".temp") in *.
  assert (path ≠ f) as Hf by (intros Heq; by apply (append_ne path ".temp")).
  pose proof (write_temp_only f data w) as Ho. unfold mbind, st_bind in E.
  destruct (write_temp f data w) as [r1 w1] eqn:E1.
  assert (routes w1 = routes w ∧ files w1 !! path = files w !! path) as [Hr1 Hf1].
  { destruct r1, Ho as [? Hq]; (split; [done|by apply Hq]). }
  destruct r1 as [[]| |]; [|by injection E as <- <-..].
  apply write_temp_Ok in E1. apply os_Rename_spec in E as [Hr E]. rewrite Hr, Hr1. split; [done|].
  destruct (is_Ok r); [|by rewrite E].
  destruct E as (c & Hc & ->). rewrite lookup_insert_eq. congruence.
Qed.

(** The file is that of the inputs the writer remembers. *)
Definition current (d : daemon W) : Prop :=
  cw_lastInputs (d_writer d) = zero_inputs ∨
  files (d_machine d) !! cw_path (d_writer d) = Some (render (cw_lastInputs (d_writer d))).

(** What [Write] is to leave, and all that anybody may see of it at any time. *)
Definition config_of (d : daemon W) (inputs : CNIConfigInputs) : string :=
  render (with_Mtu (cw_mtu (d_writer d)) inputs).
Definition file_of (d : daemon W) : option string := files (d_machine d) !! cw_path (d_writer d).

Lemma Write_spec inputs d r d' : ci_PodCIDRs inputs ≠ [] → current d → Write inputs d = (r, d') →
  current d' ∧ cw_path (d_writer d') = cw_path (d_writer d) ∧ cw_mtu (d_writer d') = cw_mtu (d_writer d) ∧
  routes (d_machine d') = routes (d_machine d) ∧
  file_of d' = if is_Ok r then Some (config_of d inputs) else file_of d.
Proof.
  intros Hn Hc E. unfold Write, mbind, st_bind, get in E. destruct d as [c w]. simpl in E.
  set (data := with_Mtu (cw_mtu c) inputs) in *. case_bool_decide as Hd.
  - injection E as <- <-. split_and!; try done. unfold file_of, config_of. simpl.
    destruct Hc as [Hz|Hc]; [|simpl in Hc; by rewrite Hc, <-Hd].
    exfalso. apply Hn. simpl in Hz. rewrite Hz in Hd. unfold data, with_Mtu, zero_inputs in Hd. by injection Hd.
  - unfold on_machine in E. simpl in E. destruct (write_file (cw_path c) data w) as [r1 w1] eqn:E1.
    apply write_file_spec in E1 as [Hr1 Hf1].
    destruct r1 as [[]| |]; simpl in E, Hf1; injection E as <- <-; unfold current, file_of; simpl;
      (split_and!; try done; [..]).
    + by right.
    + destruct Hc as [Hz|Hc]; [by left|right]. simpl in Hc. by rewrite Hf1.
    + destruct Hc as [Hz|Hc]; [by left|right]. simpl in Hc. by rewrite Hf1.
Qed.
End file_facts.

(** ** A pass over the nodes *)

Section pass.
Context {W : Type} `{MachineLaws W}.

(** The networks that are to be reached through a node, each with the gateway. *)
Definition node_routes (ipFamily : IPFamily) (node : Node) : list (string * string) :=
  let '(v4, v6) := splitCIDRs (pod_CIDRs ipFamily node) in
  let '(gw4, gw6) := gateways (List_ (internalIPs node)) in
  (if gw4 <>s "" then (λ c, (c, gw4)) <$> v4 else []) ++ (if gw6 <>s "" then (λ c, (c, gw6)) <$> v6 else []).
Definition wanted_routes (hostIP : string) (ipFamily : IPFamily) (nodes : list Node) : list (string * string) :=
  mjoin (node_routes ipFamily <$> filter (λ node, hostIP ∉ internalIPs node) nodes).

Definition sync_pair (a : string * string) : st W unit := sync_route a.2 a.1.

Lemma syncRoute_pairs gw l w : syncRoute gw l w = st_each sync_pair ((λ c, (c, gw)) <$> l) w.
Proof.
  unfold syncRoute. revert w. induction l as [|c l IH]; intros w; [done|]. simpl. unfold mbind, st_bind.
  destruct (sync_route gw c w) as [[[]| |] w1] eqn:E; unfold sync_pair; simpl; rewrite E; [apply IH|done..].
Qed.

(** The code of a node adds its routes one by one. *)
Lemma add_routes_pairs ipFamily node w :
  add_routes ipFamily node w = st_each sync_pair (node_routes ipFamily node) w.
Proof.
  unfold add_routes, node_routes. destruct (Nat.eqb_spec (length (pod_CIDRs ipFamily node)) 0) as [Hl|_].
  { apply nil_length_inv in Hl. rewrite Hl. simpl. destruct (gateways _) as [gw4 gw6].
    by destruct (gw4 <>s ""), (gw6 <>s ""). }
  destruct (splitCIDRs _) as [v4 v6], (gateways _) as [gw4 gw6].
  assert (∀ gw l w, st_when ((gw <>s "") && Nat.ltb 0 (length l)) (syncRoute gw l) w =
    st_each sync_pair (if gw <>s "" then (λ c, (c, gw)) <$> l else []) w) as Hw.
  { intros gw l w0. destruct (gw <>s ""); [|done]. destruct l; [done|]. apply syncRoute_pairs. }
  rewrite st_each_app. unfold mbind, st_bind. rewrite Hw. by destruct (st_each _ _ w) as [[[]| |] w1].
Qed.

Context (wanted : list (string * string)).
(** No network has two gateways. *)
Definition consistent : Prop :=
  ∀ a b, a ∈ wanted → b ∈ wanted → ParseIPNet a.1 = ParseIPNet b.1 → ParseIP a.2 = ParseIP b.2.
(** The routes that are there stay, and those of others are left alone. *)
Definition keeps (w w' : W) : Prop :=
  (∀ a, a ∈ wanted → routed w a.1 a.2 → routed w' a.1 a.2) ∧
  ∀ x, (∀ a, a ∈ wanted → ParseIPNet a.1 ≠ Ok (route_Dst x)) → x ∈ routes w' ↔ x ∈ routes w.
#[export] Instance keeps_preorder : PreOrder keeps.
Proof. split; [done|]. intros w1 w2 w3 [H12 F12] [H23 F23]. split; [eauto|]. intros x Hx. by rewrite F23, F12. Qed.

Lemma keeps_routes w w' : routes w' = routes w → keeps w w'.
Proof.
  intros Hr. split; [|by intros x _; rewrite Hr]. intros a _ (dst & ? & ? & ?). exists dst. by rewrite Hr.
Qed.

Lemma routed_same w c1 c2 g1 g2 : ParseIPNet c1 = ParseIPNet c2 → ParseIP g1 = ParseIP g2 →
  routed w c1 g1 → routed w c2 g2.
Proof. unfold routed, leads_to. intros -> ->. done. Qed.

Lemma sync_pair_Ok a w w' : consistent → a ∈ wanted → sync_pair a w = (Ok tt, w') →
  keeps w w' ∧ routed w' a.1 a.2.
Proof.
  intros Hc Ha E. destruct (sync_route_Ok _ _ _ _ E) as (dst & Hd & Hr & Ho). split; [|done]. split.
  - intros b Hb (dstb & Hdb & (x & Hx & Hxl) & Hg).
    destruct (decide (dstb = dst)) as [->|Hne].
    { apply (routed_same _ a.1 b.1 a.2 b.2); [congruence| |done]. apply Hc; congruence. }
    assert (∀ y, leads_to dstb b.2 y → ¬ leads_to dst a.2 y) as Hno by (unfold leads_to; intros y; naive_solver congruence).
    exists dstb. split_and!; [done| |].
    + exists x. split; [|done]. apply Ho; auto.
    + intros y Hy Hyl. apply Hg; [|done]. apply Ho in Hy; auto.
  - intros x Hx. apply Ho. intros [Hxd _]. apply (Hx a Ha). congruence.
Qed.

Lemma sync_pairs_Ok l w w' : consistent → l ⊆ wanted → st_each sync_pair l w = (Ok tt, w') →
  keeps w w' ∧ ∀ a, a ∈ l → routed w' a.1 a.2.
Proof.
  intros Hc. revert w. induction l as [|a l IH]; intros w Hl E; simpl in E.
  - injection E as <-. split; [done|]. by intros a ?%not_elem_of_nil.
  - apply st_bind_Ok in E as ([] & w1 & Ea & E).
    destruct (sync_pair_Ok a w w1 Hc) as [Hk Hr]; [apply Hl; left|done|].
    destruct (IH w1) as [Hk' Hr']; [|done|].
    { intros b Hb. apply Hl. by right. }
    split; [by etrans|]. intros b [->|Hb]%elem_of_cons; [|by apply Hr']. apply Hk'; [apply Hl; left|done].
Qed.
End pass.

Section pass_facts.
Context {W : Type} `{MachineLaws W}.

Lemma Write_routes inputs (d d' : daemon W) r : Write inputs d = (r, d') → routes (d_machine d') = routes (d_machine d).
Proof.
  intros E. unfold Write, mbind, st_bind, get, on_machine in E. simpl in E.
  case_bool_decide; [by injection E as <- <-|].
  destruct (write_file _ _ (d_machine d)) as [r1 w1] eqn:E1. apply write_file_spec in E1 as [Hr1 _].
  by destruct r1 as [[]| |]; simpl in E; injection E as <- <-.
Qed.

Lemma wanted_elem hostIP fam nodes node a : node ∈ nodes → hostIP ∉ internalIPs node →
  a ∈ node_routes fam node → a ∈ wanted_routes hostIP fam nodes.
Proof.
  intros Hn Hh Ha. unfold wanted_routes. apply list_elem_of_join. exists (node_routes fam node). split; [done|].
  apply list_elem_of_fmap_2, list_elem_of_filter. done.
Qed.

Lemma reconcileNodes_Ok wanted hostIP fam nodes (d d' : daemon W) : consistent wanted →
  wanted_routes hostIP fam nodes ⊆ wanted → reconcileNodes hostIP fam nodes d = (Ok tt, d') →
  keeps wanted (d_machine d) (d_machine d') ∧
  ∀ a, a ∈ wanted_routes hostIP fam nodes → routed (d_machine d') a.1 a.2.
Proof.
  intros Hc. unfold reconcileNodes. revert d. induction nodes as [|node nodes IH]; intros d Hl E; simpl in E.
  - injection E as <-. split; [done|]. by intros a ?%not_elem_of_nil.
  - apply st_bind_Ok in E as ([] & d1 & En & E). unfold wanted_routes in *. rewrite filter_cons in *.
    unfold reconcileNode in En. case_bool_decide as Hown.
    + rewrite decide_False in Hl |- * by (intros ?; done). destruct (IH d1 Hl E) as [Hk Hr]. split; [|done].
      etrans; [|done]. apply keeps_routes. by eapply Write_routes.
    + rewrite decide_True in Hl |- * by done. simpl in *. unfold on_machine in En.
      rewrite add_routes_pairs in En. destruct (st_each sync_pair _ (d_machine d)) as [r w1] eqn:Ea. simplify_eq/=.
      destruct (sync_pairs_Ok wanted (node_routes fam node) _ _ Hc ltac:(set_solver) Ea) as [Hk1 Hr1].
      destruct (IH (mkDaemon (d_writer d) w1) ltac:(set_solver) E) as [Hk Hr]. split; [by etrans|].
      intros a [Ha|Ha]%elem_of_app; [|by apply Hr]. apply Hk; [set_solver|by apply Hr1].
Qed.

(** The gateway of a family is an address of it when the node has one. *)
Lemma gateways_spec l g4 g6 b ip : gateways l = (g4, g6) → "" ∉ l → ip ∈ l → isIPv6String ip = b →
  (if b then g6 else g4) ∈ l ∧ isIPv6String (if b then g6 else g4) = b.
Proof.
  unfold gateways. intros E Hne Hip Hb. set (good g := g ∈ l ∧ isIPv6String g = b).
  assert (∀ k a4 a6, fold_left (λ '(nodeIPv4, nodeIPv6) ip,
      if isIPv6String ip then (nodeIPv4, ip) else (ip, nodeIPv6)) k (a4, a6) = (g4, g6) →
    k ⊆ l → ip ∈ k ∨ good (if b then a6 else a4) → good (if b then g6 else g4)) as Hg.
  { clear E. induction k as [|x k IH]; intros a4 a6 E Hk Ha; simpl in E.
    - injection E as -> ->. destruct Ha as [?%not_elem_of_nil|?]; done.
    - assert (x ∈ l) as Hx by (apply Hk; left). assert (k ⊆ l) as Hk' by (intros y Hy; apply Hk; by right).
      destruct (isIPv6String x) eqn:Hf; (eapply IH; [exact E|done|]); rewrite elem_of_cons in Ha;
        destruct b; subst good; simpl in *; naive_solver congruence. }
  apply (Hg l "" "" E); [done|by left].
Qed.

Lemma node_routes_has fam node cidr ip : "" ∉ internalIPs node → cidr ∈ pod_CIDRs fam node →
  ip ∈ internalIPs node → isIPv6String ip = isIPv6CIDRString cidr →
  ∃ gw, gw ∈ internalIPs node ∧ isIPv6String gw = isIPv6CIDRString cidr ∧ (cidr, gw) ∈ node_routes fam node.
Proof.
  intros Hne Hc Hip Hf. unfold node_routes. rewrite splitCIDRs_filter.
  assert (∀ x, x ∈ List_ (internalIPs node) ↔ x ∈ internalIPs node) as Hl.
  { intros x. unfold List_. by rewrite merge_sort_Permutation, elem_of_elements. }
  destruct (gateways _) as [g4 g6] eqn:E.
  destruct (gateways_spec _ g4 g6 (isIPv6String ip) ip E) as [Hin Hg]; [by rewrite Hl..|done|].
  rewrite Hl in Hin. rewrite Hf in Hin, Hg. eexists. split; [exact Hin|]. split; [done|].
  assert ((if isIPv6CIDRString cidr then g6 else g4) ≠ "") as Hnz by congruence.
  apply elem_of_app. destruct (isIPv6CIDRString cidr) eqn:Hcf; [right|left];
    (rewrite (proj2 (String.eqb_neq _ _) Hnz); simpl; apply list_elem_of_fmap; exists cidr; split; [done|]);
    apply list_elem_of_In, filter_In; (split; [by apply list_elem_of_In|by rewrite Hcf]).
Qed.

(** C21. After a pass over the nodes that succeeds, a network of pods of another node is
    reached through an address of that node of the same family, and through nothing
    else, and the routes to other networks are untouched, provided that no network is
    to be reached through two nodes. *)
Theorem reconcile_routes hostIP fam nodes (d d' : daemon W) :
  consistent (wanted_routes hostIP fam nodes) → reconcileNodes hostIP fam nodes d = (Ok tt, d') →
  (∀ node cidr ip, node ∈ nodes → hostIP ∉ internalIPs node → "" ∉ internalIPs node →
     cidr ∈ pod_CIDRs fam node → ip ∈ internalIPs node → isIPv6String ip = isIPv6CIDRString cidr →
     ∃ gw, gw ∈ internalIPs node ∧ isIPv6String gw = isIPv6CIDRString cidr ∧ routed (d_machine d') cidr gw) ∧
  ∀ x, (∀ a, a ∈ wanted_routes hostIP fam nodes → ParseIPNet a.1 ≠ Ok (route_Dst x)) →
    x ∈ routes (d_machine d') ↔ x ∈ routes (d_machine d).
Proof.
  intros Hc E. destruct (reconcileNodes_Ok _ _ _ _ _ _ Hc (reflexivity _) E) as [[_ Hf] Hr]. split; [|done].
  intros node cidr ip Hn Hh Hne Hcidr Hip Hfam.
  destruct (node_routes_has fam node cidr ip Hne Hcidr Hip Hfam) as (gw & Hgw & Hg & Ha). exists gw.
  split_and!; [done..|]. apply (Hr (cidr, gw)). by eapply wanted_elem.
Qed.

(** *** The configuration *)

Definition same_files : relation W := λ w w', files w' = files w.
#[export] Instance same_files_preorder : PreOrder same_files.
Proof. unfold same_files. split; [done|]. intros ? ? ? ? ?. congruence. Qed.

Lemma sync_pair_files a : sat (sync_pair a) same_files same_files.
Proof.
  unfold sync_pair, sync_route. repeat sat_step.
  - apply sat_always. by intros w r w' (_ & ? & _)%RouteListFiltered_spec.
  - unfold delete_wrong. sat_step; [apply sat_ret|]. apply sat_always. by intros w r w' [? _]%RouteDel_spec.
  - apply sat_always. by intros w r w' [? _]%RouteAdd_spec.
Qed.

Lemma add_routes_files fam node w r w' : add_routes fam node w = (r, w') → files w' = files w.
Proof.
  rewrite add_routes_pairs. intros E.
  assert (sat (st_each sync_pair (node_routes fam node)) same_files same_files) as Hs
    by (apply sat_each; intros; apply sync_pair_files).
  specialize (Hs w). rewrite E in Hs. by destruct r.
Qed.

Lemma inputs_nonempty node : ci_PodCIDRs (ComputeCNIConfigInputs node) ≠ [].
Proof. unfold ComputeCNIConfigInputs. destruct (Nat.ltb_spec 1 (length (nd_PodCIDRs node))); [|done]. by destruct (nd_PodCIDRs node); simpl in *; [lia|]. Qed.

(** What a step may do to the configuration whose inputs are [inputs]. *)
Definition untorn (inputs : CNIConfigInputs) (done_ : bool) (d d' : daemon W) : Prop :=
  current d' ∧ cw_path (d_writer d') = cw_path (d_writer d) ∧ cw_mtu (d_writer d') = cw_mtu (d_writer d) ∧
  (file_of d' = Some (config_of d inputs) ∨ file_of d' = file_of d ∧ done_ = false).

Lemma untorn_refl inputs d : current d → untorn inputs false d d.
Proof. intros Hc. split_and!; auto. Qed.

Lemma untorn_trans inputs b b' d1 d2 d3 : untorn inputs b d1 d2 → untorn inputs b' d2 d3 →
  untorn inputs (b || b') d1 d3.
Proof.
  intros (_ & Hp & Hm & Hf) (Hc & Hp' & Hm' & Hf').
  assert (config_of d2 inputs = config_of d1 inputs) as He by (unfold config_of; by rewrite Hm).
  split_and!; [done|congruence..|]. rewrite He in Hf'. destruct Hf' as [?|[Hf' ->]]; [by left|].
  destruct Hf as [?|[? ->]]; [left; congruence|right; split; [congruence|done]].
Qed.

Lemma untorn_less inputs d d' b : untorn inputs b d d' → untorn inputs false d d'.
Proof. intros (? & ? & ? & [?|[? _]]); (split_and!; [done..|]); auto. Qed.

Lemma reconcileNode_untorn hostIP fam node inputs (d d' : daemon W) r : current d →
  (hostIP ∈ internalIPs node → ComputeCNIConfigInputs node = inputs) →
  reconcileNode hostIP fam node d = (r, d') →
  untorn inputs (is_Ok r && bool_decide (hostIP ∈ internalIPs node)) d d'.
Proof.
  intros Hc Hi E. unfold reconcileNode in E. case_bool_decide as Hh.
  - apply Write_spec in E as (Hc' & Hp & Hm & _ & Hf); [|apply inputs_nonempty|done]. rewrite (Hi Hh) in Hf.
    split_and!; [done..|]. rewrite Hf, andb_true_r. destruct (is_Ok r); auto.
  - unfold on_machine in E. destruct (add_routes fam node (d_machine d)) as [r1 w1] eqn:Ea.
    apply add_routes_files in Ea. injection E as <- <-. rewrite andb_false_r. unfold untorn, current, file_of. simpl.
    rewrite Ea. split_and!; auto.
Qed.

(** C28. However a pass over the nodes ends, the configuration file of the network plugin
    is the one that was there or the whole of the new one, and after a pass that
    succeeds it is the new one. *)
Theorem reconcile_config hostIP fam nodes node (d d' : daemon W) r :
  current d → node ∈ nodes → hostIP ∈ internalIPs node →
  (∀ n, n ∈ nodes → hostIP ∈ internalIPs n → ComputeCNIConfigInputs n = ComputeCNIConfigInputs node) →
  reconcileNodes hostIP fam nodes d = (r, d') →
  current d' ∧
  (file_of d' = Some (config_of d (ComputeCNIConfigInputs node)) ∨ file_of d' = file_of d ∧ is_Ok r = false).
Proof.
  intros Hc Hn Hh Hall E. set (inputs := ComputeCNIConfigInputs node) in *.
  assert (∀ nodes d, (∀ n, n ∈ nodes → hostIP ∈ internalIPs n → ComputeCNIConfigInputs n = inputs) →
    current d → reconcileNodes hostIP fam nodes d = (r, d') →
    untorn inputs (is_Ok r && bool_decide (node ∈ nodes)) d d') as Hu.
  { clear Hn Hall Hc E nodes d. unfold reconcileNodes. induction nodes as [|n nodes IH]; intros d Hall Hc E; simpl in E.
    - injection E as <- <-. by apply untorn_refl.
    - unfold mbind, st_bind in E. destruct (reconcileNode hostIP fam n d) as [r1 d1] eqn:En.
      apply (reconcileNode_untorn _ _ _ inputs) in En; [|done|by apply Hall; left].
      destruct r1 as [[]| |]; [|by injection E as <- <-..].
      assert (∀ m, m ∈ nodes → hostIP ∈ internalIPs m → ComputeCNIConfigInputs m = inputs) as Hall'
        by (intros m Hm; apply Hall; by right).
      pose proof (untorn_trans _ _ _ _ _ _ En (IH d1 Hall' (proj1 En) E)) as Ht. simpl in Ht. destruct (is_Ok r); [|by apply untorn_less in Ht]. simpl.
      destruct (bool_decide_reflect (node ∈ n :: nodes)) as [Hin|]; [|by apply untorn_less in Ht].
      apply elem_of_cons in Hin as [->|Hin].
      + by rewrite bool_decide_eq_true_2 in Ht.
      + rewrite (bool_decide_eq_true_2 (node ∈ nodes)), orb_true_r in Ht by done. done. }
  destruct (Hu nodes d Hall Hc E) as (? & _ & _ & Hf). split; [done|].
  rewrite bool_decide_eq_true_2, andb_true_r in Hf by done. done.
Qed.
End pass_facts.

(** ** A node without a pod network *)

Section rounds.
Context {W : Type} `{MachineLaws W, Api W}.

Lemma attempts_fail {A} (m : st (daemon W) A) n last (d : daemon W) r d' :
  (∀ d, is_Ok (fst (m d)) = false) → is_Ok last = false → attempts n m last d = (r, d') →
  is_Panic r = true ∨ ∃ r', r = Ok r' ∧ is_Ok r' = false.
Proof.
  intros Hm. revert last d. induction n as [|n IH]; intros last d Hl E; simpl in E.
  - injection E as <- <-. right. by exists last.
  - unfold mbind, st_bind, try_ in E. specialize (Hm d) as Hd. destruct (m d) as [[a|e|x] d1]; simpl in *; [done| |].
    + by apply IH in E.
    + injection E as <- <-. by left.
Qed.

(** In a cluster of one family, a node that has no pod network yet is not ignored: the
    empty text is taken for its network. *)
Lemma no_PodCIDR_fails hostIP fam nodes node ip (d : daemon W) :
  fam ≠ DualStackFamily → is_Ok (ParseIPNet "") = false → node ∈ nodes → hostIP ∉ internalIPs node →
  nd_PodCIDR node = "" → "" ∉ internalIPs node → ip ∈ internalIPs node → isIPv6String ip = false →
  is_Ok (fst (reconcileNodes hostIP fam nodes d)) = false.
Proof.
  intros Hfam Hp Hn Hh Hc Hne Hip Hf. destruct (reconcileNodes hostIP fam nodes d) as [[[]| |] d'] eqn:E; [|done..].
  exfalso. assert ("" ∈ pod_CIDRs fam node) as Hcidr.
  { unfold pod_CIDRs. rewrite bool_decide_eq_false_2 by done. rewrite Hc. by apply list_elem_of_singleton. }
  destruct (node_routes_has fam node "" ip Hne Hcidr Hip) as (gw & _ & _ & Ha); [by rewrite Hf|].
  assert (∀ nodes d, node ∈ nodes → reconcileNodes hostIP fam nodes d = (Ok tt, d') → False) as Hno; [|by eapply Hno].
  clear E Hn d nodes. induction nodes as [|n nodes IH]; intros d Hn E; [by apply not_elem_of_nil in Hn|].
  unfold reconcileNodes in E. simpl in E. apply st_bind_Ok in E as ([] & d1 & En & E).
  apply elem_of_cons in Hn as [<-|Hn]; [|by eapply IH].
  unfold reconcileNode, on_machine in En. rewrite bool_decide_eq_false_2 in En by done. rewrite add_routes_pairs in En.
  apply list_elem_of_split in Ha as (l1 & l2 & Ha). rewrite Ha, st_each_app in En.
  unfold mbind, st_bind in En. simpl in En.
  destruct (st_each _ l1 _) as [[[]| |] w1]; [|by simplify_eq..].
  unfold mbind, st_bind, sync_pair at 1, sync_route, pure in En. simpl in En. unfold mbind, st_bind in En.
  by destruct (ParseIPNet ""); simplify_eq.
Qed.

(** The daemon dies of a node that has no pod network yet: in a cluster of one family
    every round that is given such a node panics. *)
Theorem no_PodCIDR_panics hostIP fam nodes node ip (d : daemon W) w1 :
  Nodes_List (d_machine d) = (Ok nodes, w1) →
  fam ≠ DualStackFamily → is_Ok (ParseIPNet "") = false → node ∈ nodes → hostIP ∉ internalIPs node →
  nd_PodCIDR node = "" → "" ∉ internalIPs node → ip ∈ internalIPs node → isIPv6String ip = false →
  is_Panic (fst (round hostIP fam d)) = true.
Proof.
  intros Hl Hfam Hp Hn Hh Hc Hne Hip Hf.
  assert (∀ d, is_Ok (fst (reconcileNodes hostIP fam nodes d)) = false) as Hfail
    by (intros; by eapply no_PodCIDR_fails).
  set (d1 := mkDaemon (d_writer d) w1).
  assert (attempts 5 (on_machine Nodes_List) (Err "") d = (Ok (Ok nodes), d1)) as Hat.
  { change (attempts 5 ?m ?l) with (r ← try_ m; if is_Ok r then mret r else attempts 4 m r).
    rewrite (st_run _ _ d (Ok nodes) d1); [done|]. unfold try_, on_machine. by rewrite Hl. }
  unfold round. rewrite (st_run _ _ _ _ _ Hat). unfold panic_on at 1. rewrite (st_run _ _ d1 nodes d1) by done.
  unfold mbind, st_bind.
  destruct (attempts 5 (reconcileNodes hostIP fam nodes) (Err "") d1) as [r d'] eqn:E.
  apply attempts_fail in E as [Hx|(r' & -> & Hr')]; [by destruct r|by destruct r'|done|done].
Qed.
End rounds.

(** ** At a concrete machine *)

Module Machine.
Record machine := mkMachine { m_routes : list (Dst * option IP); m_files : gmap string string; m_nodes : list Node }.

Definition family (gw : option IP) : Z := if is_v6 gw then 10 else 2.
Definition parse (s : string) : res Dst :=
  match ParseCIDR s, ParseCIDR_IP s with
  | Some n, Some ip => Ok (ip, in_ones n)
  | _, _ => Err ("invalid CIDR address: " +:+ s)
  end.
Definition with_routes (f : list (Dst * option IP) → list (Dst * option IP)) (w : machine) : machine :=
  mkMachine (f (m_routes w)) (m_files w) (m_nodes w).
Definition with_files (f : gmap string string → gmap string string) (w : machine) : machine :=
  mkMachine (m_routes w) (f (m_files w)) (m_nodes w).

#[global] Instance netlink : Netlink machine := {|
  Route := Dst * option IP;
  route_Dst := fst;
  route_Gw := snd;
  new_Route := pair;
  ParseIPNet := parse;
  GetIPFamily := family;
  RouteListFiltered f x := get (λ w, filter (λ y, family y.2 = f ∧ y.1 = x.1) (m_routes w));
  RouteDel x := modify (with_routes (filter (λ y, y ≠ x)));
  RouteAdd x := modify (with_routes (cons x))
|}.
#[global] Instance disk : Files machine := {|
  os_Create p := modify (with_files <[p := ""]>);
  file_Write p s := modify (with_files (λ fs, <[p := default "" (fs !! p) +:+ s]> fs));
  file_Sync p := mret tt;
  file_Close p := mret tt;
  os_Remove p := modify (with_files (delete p));
  os_Rename a b := λ w, match m_files w !! a with
    | Some c => (Ok tt, with_files (λ fs, <[b := c]> (delete a fs)) w)
    | None => (Err "no such file or directory", w)
    end
|}.
#[global] Instance api : Api machine := {| Nodes_List := get m_nodes |}.

#[global] Instance laws : MachineLaws machine.
Proof.
  refine {| routes := m_routes : machine → list (Route (W := machine)); route_family := λ x : Route (W := machine), family (snd x); files := m_files |}.
  - done.
  - intros f x w r w' E. injection E as <- <-. split_and!; [done..|]. intros l y El. injection El as <-.
    rewrite list_elem_of_filter. simpl. naive_solver.
  - intros x w r w' E. injection E as <- <-. split; [done|]. intros _ y. simpl. rewrite list_elem_of_filter. naive_solver.
  - intros d gw w r w' E. injection E as <- <-. split; [done|]. intros _. exists (d, gw). split_and!; [done| |done|].
    + by apply bool_decide_eq_true_2.
    + intros y. apply elem_of_cons.
  - intros p w r w' E. by injection E as <- <-.
  - intros p s w r w' E. by injection E as <- <-.
  - intros p w r w' E. by injection E as <- <-.
  - intros p w r w' E. by injection E as <- <-.
  - intros p w r w' E. by injection E as <- <-.
  - intros a b w r w' E. simpl in E. destruct (m_files w !! a) as [c|] eqn:Hc; injection E as <- <-; simpl; [|done].
    split; [done|]. by exists c.
Defined.

Definition own : Node := mkNode "10.244.0.0/24" ["10.244.0.0/24"] [("InternalIP", "10.1.0.1"); ("Hostname", "a")].
Definition worker : Node := mkNode "10.244.1.0/24" ["10.244.1.0/24"] [("InternalIP", "10.1.0.2")].
Definition fresh : Node := mkNode "" [] [("InternalIP", "10.1.0.3")].
(** The network of the worker is reached through an address it no longer has. *)
Definition start (nodes : list Node) : daemon machine :=
  mkDaemon (mkCNIConfigWriter cniConfigPath zero_inputs 1500)
    (mkMachine [((mkIP 32 183763200, 24), ParseIP "10.1.0.9"); ((mkIP 32 0, 0), ParseIP "10.1.0.254")] ∅ nodes).
Definition pass (nodes : list Node) := reconcileNodes "10.1.0.1" IPv4Family nodes (start nodes).
End Machine.

Example pass_routes : Machine.m_routes (d_machine (snd (Machine.pass [Machine.own; Machine.worker]))) =
  [((mkIP 32 183763200, 24), ParseIP "10.1.0.2"); ((mkIP 32 0, 0), ParseIP "10.1.0.254")].
Proof. vm_compute. reflexivity. Qed.

Lemma reconcile_routes_witness :
  ∃ gw, isIPv6String gw = false ∧ routed (d_machine (snd (Machine.pass [Machine.own; Machine.worker]))) "10.244.1.0/24" gw.
Proof.
  set (nodes := [Machine.own; Machine.worker]).
  assert (wanted_routes "10.1.0.1" IPv4Family nodes = [("10.244.1.0/24", "10.1.0.2")]) as Hw by (vm_compute; reflexivity).
  assert (consistent (wanted_routes "10.1.0.1" IPv4Family nodes)) as Hc.
  { rewrite Hw. intros a b ->%list_elem_of_singleton ->%list_elem_of_singleton. done. }
  assert (fst (Machine.pass nodes) = Ok tt) as Hok by (vm_compute; reflexivity).
  assert (reconcileNodes "10.1.0.1" IPv4Family nodes (Machine.start nodes) = (Ok tt, snd (Machine.pass nodes))) as E
    by (rewrite <-Hok; apply surjective_pairing).
  destruct (reconcile_routes _ _ _ _ _ Hc E) as [Hr _].
  destruct (Hr Machine.worker "10.244.1.0/24" "10.1.0.2") as (gw & _ & Hgw & Hrt).
  - apply list_elem_of_further, list_elem_of_here.
  - apply (bool_decide_eq_false (_ ∈ _)). vm_compute. reflexivity.
  - apply (bool_decide_eq_false (_ ∈ _)). vm_compute. reflexivity.
  - apply list_elem_of_here.
  - apply (bool_decide_eq_true (_ ∈ _)). vm_compute. reflexivity.
  - vm_compute. reflexivity.
  - exists gw. split; [|exact Hrt]. rewrite Hgw. vm_compute. reflexivity.
Defined.

Lemma reconcile_config_witness :
  file_of (snd (Machine.pass [Machine.own])) = Some (render (mkCNIConfigInputs ["10.244.0.0/24"] ["0.0.0.0/0"] 1500)).
Proof.
  set (nodes := [Machine.own]).
  assert (fst (Machine.pass nodes) = Ok tt) as Hok by (vm_compute; reflexivity).
  assert (reconcileNodes "10.1.0.1" IPv4Family nodes (Machine.start nodes) = (Ok tt, snd (Machine.pass nodes))) as E
    by (rewrite <-Hok; apply surjective_pairing).
  destruct (reconcile_config "10.1.0.1" IPv4Family nodes Machine.own (Machine.start nodes) (snd (Machine.pass nodes)) (Ok tt))
    as [_ [Hf|[_ Hf]]].
  - left. reflexivity.
  - apply list_elem_of_here.
  - apply (bool_decide_eq_true (_ ∈ _)). vm_compute. reflexivity.
  - intros n ->%list_elem_of_singleton. reflexivity.
  - exact E.
  - rewrite Hf. vm_compute. reflexivity.
  - discriminate Hf.
Defined.

Lemma no_PodCIDR_panics_witness :
  is_Panic (fst (round "10.1.0.1" IPv4Family (Machine.start [Machine.own; Machine.fresh]))) = true.
Proof.
  apply (no_PodCIDR_panics "10.1.0.1" IPv4Family [Machine.own; Machine.fresh] Machine.fresh "10.1.0.3" _
    (d_machine (Machine.start [Machine.own; Machine.fresh]))).
  - reflexivity.
  - discriminate.
  - vm_compute. reflexivity.
  - apply list_elem_of_further, list_elem_of_here.
  - apply (bool_decide_eq_false (_ ∈ _)). vm_compute. reflexivity.
  - reflexivity.
  - apply (bool_decide_eq_false (_ ∈ _)). vm_compute. reflexivity.
  - apply (bool_decide_eq_true (_ ∈ _)). vm_compute. reflexivity.
  - vm_compute. reflexivity.
Defined.
