(* ===== verification/Patch.v ===== *)
(** * Patches of Kubernetes objects

    src/pkg/internal/patch/: the splitting of a stream of YAML documents, the matching of
    patches and documents, and the application of merge patches and JSON 6902 patches.
    YAML, TOML and the patches themselves are libraries ([PatchLibs]).  Shown: a
    patched stream has the documents of the original one, in order, and a document
    that no patch matches is only reformatted; and which stream loses its last
    document. *)

From S2P Require Import Prelude GoStr KindConfig.
Local Open Scope Z_scope.
Local Open Scope go_scope.
Local Open Scope stdpp_scope.

(** ** Splitting a stream *)

Definition newline : string := String (Ascii.ascii_of_nat 10) "".
Definition yamlSeparator : string := newline +:+ "---".

(** What is before the first [sep] in [s], and what is behind it ([bytes.Index]). *)
Fixpoint cut (sep s : string) : option (string * string) :=
  if String.prefix sep s then Some ("", String.substring (String.length sep) (String.length s) s)
  else match s with
       | "" => None
       | String c s => match cut sep s with Some (a, b) => Some (String c a, b) | None => None end
       end.

(** The results of a [bufio.SplitFunc]: a token and the data behind what it advances
    over, a request for more data, or neither at the end. *)
Inductive split_result := Token (token rest : string) | NeedMore | NoToken.

Definition splitYAMLDocument (data : string) (atEOF : bool) : split_result :=
  if atEOF && (data =s "") then NoToken
  else match cut yamlSeparator data with
  | Some (before, after) =>
      if after =s "" then if atEOF then Token before "" else NeedMore
      else match cut newline after with
           | Some (_, rest) => Token before rest
           | None => NeedMore
           end
  | None => if atEOF then Token data "" else NeedMore
  end.

(** [bufio.Scanner]: a buffer of at most 64 KB; the end of the data is seen when they
    do not fill it. *)
Definition maxTokenSize : Z := 65536.
Definition slen (s : string) : Z := Z.of_nat (String.length s).

Fixpoint scan (fuel : nat) (data : string) : res (list string) :=
  match fuel with
  | O => Ok []
  | S fuel =>
      let atEOF := slen data <? maxTokenSize in
      let window := if atEOF then data else String.substring 0 (Z.to_nat maxTokenSize) data in
      let beyond := if atEOF then "" else String.substring (Z.to_nat maxTokenSize) (String.length data) data in
      match splitYAMLDocument window atEOF with
      | Token token rest => documents ← scan fuel (rest +:+ beyond); Ok (token :: documents)
      | NeedMore => if atEOF then Ok [] else Err "bufio.Scanner: token too long"
      | NoToken => Ok []
      end
  end.

Definition splitYAMLDocuments (yamlDocumentStream : string) : res (list string) :=
  errors_Wrap "error splitting documents" (scan (S (String.length yamlDocumentStream)) yamlDocumentStream).

(** ** Matching *)

Record matchInfo := mkMatchInfo { mi_Kind : string; mi_APIVersion : string }.

Definition groupVersionToAPIVersion (group version : string) : string :=
  if group =s "" then version else group +:+ "/" +:+ version.
Definition matchInfoForConfigJSON6902Patch (patch : PatchJSON6902) : matchInfo :=
  mkMatchInfo (pj_Kind patch) (groupVersionToAPIVersion (pj_Group patch) (pj_Version patch)).

(** sigs.k8s.io/yaml, json-patch, and the two TOML libraries. *)
Class PatchLibs := {
  JsonPatch : Type;
  yaml_MatchInfo : string → res matchInfo;         (* yaml.Unmarshal into a matchInfo *)
  YAMLToJSON : string → res string;
  JSONToYAML : string → res string;
  DecodePatch : string → res JsonPatch;
  Apply : JsonPatch → string → res string;
  MergePatch : string → string → res string;
  toml_JSON : string → res string;                 (* toml.LoadBytes, json.Marshal of its map *)
  JSON_toml : string → res string                  (* yaml.Unmarshal, toml.Encode *)
}.

Section patch.
Context `{PatchLibs}.

Definition parseYAMLMatchInfo (raw : string) : res matchInfo :=
  errors_Wrap ("failed to parse type meta for " +:+ Q raw) (yaml_MatchInfo raw).

Record resource := mkResource { rs_raw : string; rs_json : string; rs_matchInfo : matchInfo }.
Record mergePatch := mkMergePatch { mp_raw : string; mp_json : string; mp_matchInfo : matchInfo }.
Record json6902Patch := mkJson6902Patch { jp_raw : string; jp_patch : JsonPatch; jp_matchInfo : matchInfo }.

Definition matches (r : resource) (o : matchInfo) : bool :=
  let m := rs_matchInfo r in
  (mi_Kind m =s mi_Kind o) && ((mi_APIVersion o =s "") || (mi_APIVersion m =s mi_APIVersion o)).

(** The resource is changed in place. *)
Definition with_json (j : string) (r : resource) : resource := mkResource (rs_raw r) j (rs_matchInfo r).
Definition apply6902Patch (r : resource) (patch : json6902Patch) : res resource :=
  if negb (matches r (jp_matchInfo patch)) then Ok r
  else patched ← Apply (jp_patch patch) (rs_json r); Ok (with_json patched r).
Definition applyMergePatch (r : resource) (patch : mergePatch) : res resource :=
  if negb (matches r (mp_matchInfo patch)) then Ok r
  else patched ← MergePatch (rs_json r) (mp_json patch); Ok (with_json patched r).
Definition encodeTo (r : resource) (w : string) : res string :=
  encoded ← JSONToYAML (rs_json r); Ok (w +:+ encoded).

(** [for _, x := range l { append(out, f(x)) }] *)
Fixpoint collect {A B} (f : A → res B) (l : list A) : res (list B) :=
  match l with
  | [] => Ok []
  | x :: l => y ← f x; ys ← collect f l; Ok (y :: ys)
  end.

Definition parse_resource (raw : string) : res resource :=
  matchInfo ← parseYAMLMatchInfo raw;
  json ← YAMLToJSON raw;
  Ok (mkResource raw json matchInfo).
Definition parseResources (yamlDocumentStream : string) : res (list resource) :=
  documents ← splitYAMLDocuments yamlDocumentStream;
  collect parse_resource documents.

Definition parse_mergePatch (raw : string) : res mergePatch :=
  matchInfo ← parseYAMLMatchInfo raw;
  json ← YAMLToJSON raw;
  Ok (mkMergePatch raw json matchInfo).
Definition parseMergePatches (rawPatches : list string) : res (list mergePatch) :=
  splitRawPatches ← collect splitYAMLDocuments rawPatches;
  collect parse_mergePatch (mjoin splitRawPatches).

Definition convert_6902 (configPatch : PatchJSON6902) : res json6902Patch :=
  patchJSON ← YAMLToJSON (pj_Patch configPatch);
  patch ← DecodePatch patchJSON;
  Ok (mkJson6902Patch (pj_Patch configPatch) patch (matchInfoForConfigJSON6902Patch configPatch)).
Definition convertJSON6902Patches (patchesJSON6902 : list PatchJSON6902) : res (list json6902Patch) :=
  collect convert_6902 patchesJSON6902.

(** [for _, p := range l { r.f(p) }] *)
Fixpoint apply_all {P} (f : resource → P → res resource) (r : resource) (l : list P) : res resource :=
  match l with
  | [] => Ok r
  | p :: l => r ← f r p; apply_all f r l
  end.

Definition patch_resource (mergePatches : list mergePatch) (json6902patches : list json6902Patch) (r : resource)
  : res resource :=
  r ← errors_Wrap "failed to apply patch" (apply_all applyMergePatch r mergePatches);
  errors_Wrap "failed to apply JSON 6902 patch" (apply_all apply6902Patch r json6902patches).

Fixpoint write_resources (mergePatches : list mergePatch) (json6902patches : list json6902Patch)
    (resources : list resource) (builder : string) : res string :=
  match resources with
  | [] => Ok builder
  | r :: resources =>
      r ← patch_resource mergePatches json6902patches r;
      builder ← errors_Wrap "failed to write patched resource" (encodeTo r builder);
      write_resources mergePatches json6902patches resources
        (match resources with [] => builder | _ => builder +:+ "---" +:+ newline end)
  end.

Definition KubeYAML (toPatch : string) (patches : list string) (patches6902 : list PatchJSON6902) : res string :=
  resources ← errors_Wrap "failed to parse yaml to patch" (parseResources toPatch);
  mergePatches ← errors_Wrap "failed to parse patches" (parseMergePatches patches);
  json6902patches ← errors_Wrap "failed to parse JSON 6902 patches" (convertJSON6902Patches patches6902);
  write_resources mergePatches json6902patches resources "".

(** ** TOML *)

Fixpoint merge_all (j : string) (patches : list string) : res string :=
  match patches with
  | [] => Ok j
  | patch :: patches => pj ← toml_JSON patch; j ← MergePatch j pj; merge_all j patches
  end.
Fixpoint apply_6902_all (j : string) (patches : list string) : res string :=
  match patches with
  | [] => Ok j
  | patch :: patches => patch ← DecodePatch patch; j ← Apply patch j; apply_6902_all j patches
  end.
Definition TOML (toPatch : string) (patches patches6902 : list string) : res string :=
  j ← toml_JSON toPatch;
  j ← merge_all j patches;
  j ← apply_6902_all j patches6902;
  JSON_toml j.
End patch.

Example split_two : splitYAMLDocuments ("a: 1" +:+ newline +:+ "---" +:+ newline +:+ "b: 2" +:+ newline) =
  Ok ["a: 1"; "b: 2" +:+ newline].
Proof. vm_compute. reflexivity. Qed.
(** A separator at the end that is followed by anything but a line break takes the
    document before it away. *)
Lemma last_document_lost : splitYAMLDocuments ("kind: ClusterConfiguration" +:+ newline +:+ "--- # end") = Ok [] ∧
  splitYAMLDocuments ("kind: ClusterConfiguration" +:+ newline +:+ "---") = Ok ["kind: ClusterConfiguration"].
Proof. split; vm_compute; reflexivity. Qed.

(** ** Reading a stream *)

Lemma substring_all s n : (String.length s ≤ n)%nat → String.substring 0 n s = s.
Proof. revert n. induction s as [|c s IH]; intros [|n] Hn; simpl in *; [done..|lia|]. by rewrite IH by lia. Qed.
Lemma substring_behind s t n : (String.length t ≤ n)%nat → String.substring (String.length s) n (s +:+ t) = t.
Proof. intros Hn. induction s as [|c s IH]; simpl; [by apply substring_all|done]. Qed.

Lemma cut_here sep t : cut sep (sep +:+ t) = Some ("", t).
Proof.
  assert (String.prefix sep (sep +:+ t) = true) as Hp by (apply prefix_spec; eauto).
  unfold cut. destruct (sep +:+ t) eqn:E; fold cut; rewrite Hp, <-E, substring_behind; try done;
    rewrite length_app_string; lia.
Qed.

Lemma cut_None sep s : Contains s sep = false → cut sep s = None.
Proof.
  induction s as [|c s IH]; cbn [Contains cut]; intros [-> Hs]%orb_false_iff; [done|]. by rewrite IH.
Qed.

(** The separator does not begin within the document before it. *)
Lemma no_overlap c b t : Contains (String c b) yamlSeparator = false →
  String.prefix yamlSeparator (String c (b +:+ yamlSeparator +:+ t)) = false.
Proof.
  intros Hc. apply not_true_iff_false. intros [u Hu]%prefix_spec.
  assert (∀ v, String c b ≠ yamlSeparator +:+ v) as Hno.
  { intros v Hv. apply not_true_iff_false in Hc. apply Hc, Contains_spec. by exists "", v. }
  unfold yamlSeparator, newline in *. simpl in Hu. injection Hu as -> Hu.
  destruct b as [|c1 [|c2 [|c3 b]]]; simpl in Hu; try (injection Hu; discriminate); try discriminate.
  injection Hu as -> -> -> _. by apply (Hno b).
Qed.

Lemma cut_separator b t : Contains b yamlSeparator = false →
  cut yamlSeparator (b +:+ yamlSeparator +:+ t) = Some (b, t).
Proof.
  induction b as [|c b IH]; intros Hb; [exact (cut_here yamlSeparator t)|].
  pose proof (no_overlap c b t Hb) as Hp. cbn [Contains] in Hb. apply orb_false_iff in Hb as [_ Hb].
  change (String c b +:+ yamlSeparator +:+ t) with (String c (b +:+ yamlSeparator +:+ t)).
  cbn [cut]. by rewrite Hp, IH.
Qed.

(** The documents of a stream, from the texts without their last line breaks. *)
Fixpoint documents_of (bodies : list string) : list string :=
  match bodies with
  | [] => []
  | [b] => [b +:+ newline]
  | b :: bodies => b :: documents_of bodies
  end.
Definition stream_of (texts : list string) : string := Join texts ("---" +:+ newline).

Lemma slen_app s t : slen (s +:+ t) = slen s + slen t.
Proof. unfold slen. rewrite length_app_string. lia. Qed.

Lemma Contains_app_l s t sub : Contains (s +:+ t) sub = false → Contains s sub = false.
Proof.
  intros Hst. apply not_true_iff_false. intros (a & b & ->)%Contains_spec.
  apply not_true_iff_false in Hst. apply Hst, Contains_spec. exists a, (b +:+ t). by rewrite !string_app_assoc.
Qed.

Lemma scan_stream bodies fuel : Forall (λ b, Contains (b +:+ newline) yamlSeparator = false) bodies →
  let s := stream_of ((λ b, b +:+ newline) <$> bodies) in
  slen s < maxTokenSize → (length bodies < fuel)%nat → scan fuel s = Ok (documents_of bodies).
Proof.
  intros Hb. revert fuel. induction Hb as [|b bodies Hb Hbs IH]; intros fuel s Hlen Hfuel; subst s;
    (destruct fuel as [|fuel]; [simpl in Hfuel; lia|]).
  - done.
  - cbn [scan]. destruct bodies as [|b' bodies].
    + change (stream_of ((λ b, b +:+ newline) <$> [b])) with (b +:+ newline) in Hlen |- *.
      rewrite (proj2 (Z.ltb_lt _ _) Hlen). unfold splitYAMLDocument. rewrite cut_None by done.
      assert ((b +:+ newline =s "") = false) as -> by (apply String.eqb_neq; by destruct b). simpl.
      rewrite ?string_app_nil_r. destruct fuel; [simpl in Hfuel; lia|done].
    + set (rest := stream_of ((λ b, b +:+ newline) <$> b' :: bodies)) in *.
      change (stream_of ((λ b, b +:+ newline) <$> b :: b' :: bodies)) with ((b +:+ newline) +:+ ("---" +:+ newline) +:+ rest) in Hlen |- *.
      assert ((b +:+ newline) +:+ ("---" +:+ newline) +:+ rest = b +:+ yamlSeparator +:+ newline +:+ rest) as E
        by (unfold yamlSeparator; by rewrite !string_app_assoc).
      rewrite E in Hlen |- *. rewrite (proj2 (Z.ltb_lt _ _) Hlen). unfold splitYAMLDocument.
      rewrite cut_separator by (by eapply Contains_app_l).
      assert ((b +:+ yamlSeparator +:+ newline +:+ rest =s "") = false) as -> by (apply String.eqb_neq; by destruct b).
      assert ((newline +:+ rest =s "") = false) as E' by done. cbn [andb]. cbv iota beta. rewrite E', cut_here.
      cbv iota beta. rewrite string_app_nil_r. rewrite (IH fuel); [done| |simpl in *; lia].
      rewrite !slen_app in Hlen. change (slen rest < maxTokenSize). unfold slen in *. lia.
Qed.

(** ** What a patched stream holds *)

(** sigs.k8s.io/yaml writes one document: its last line ends, and no line begins like a
    separator. *)
Class PatchLibsLaws `{PatchLibs} := {
  JSONToYAML_document j t : JSONToYAML j = Ok t →
    ∃ b, t = b +:+ newline ∧ Contains t yamlSeparator = false
}.

Section documents.
Context `{PatchLibsLaws}.

Lemma collect_Ok {A B} (f : A → res B) l l' : collect f l = Ok l' → Forall2 (λ x y, f x = Ok y) l l'.
Proof.
  revert l'. induction l as [|x l IH]; intros l' E; simpl in E; [by simplify_eq; constructor|].
  apply bind_Ok_iff in E as (y & Hy & E). apply bind_Ok_iff in E as (ys & Hys & [= <-]). constructor; auto.
Qed.

Definition encoded (mps : list mergePatch) (jps : list json6902Patch) (r : resource) (t : string) : Prop :=
  ∃ r', patch_resource mps jps r = Ok r' ∧ JSONToYAML (rs_json r') = Ok t.

Lemma write_resources_Ok mps jps rs builder out : write_resources mps jps rs builder = Ok out →
  ∃ texts, out = builder +:+ stream_of texts ∧ Forall2 (encoded mps jps) rs texts.
Proof.
  revert builder. induction rs as [|r rs IH]; intros builder E; simpl in E.
  - injection E as <-. exists []. split; [by rewrite string_app_nil_r|constructor].
  - apply bind_Ok_iff in E as (r' & Hr & E). apply bind_Ok_iff in E as (w & Hw & E).
    apply map_err_Ok_iff in Hw. unfold encodeTo in Hw. apply bind_Ok_iff in Hw as (t & Ht & [= <-]).
    apply IH in E as (texts & -> & Hts). exists (t :: texts). split; [|constructor; [by exists r'|done]].
    destruct rs as [|r2 rs].
    + inversion Hts; subst. by rewrite string_app_nil_r.
    + inversion Hts as [|? t2 ? texts' ? ? E1 E2]; subst. rewrite !string_app_assoc. done.
Qed.

Lemma unmatched_resource mps jps r : Forall (λ p, matches r (mp_matchInfo p) = false) mps →
  Forall (λ p, matches r (jp_matchInfo p) = false) jps → patch_resource mps jps r = Ok r.
Proof.
  intros Hm Hj. unfold patch_resource.
  assert (∀ P (f : resource → P → res resource) l, Forall (λ p, f r p = Ok r) l → apply_all f r l = Ok r) as Hall.
  { intros P f l. induction 1 as [|p l Hp _ IH]; simpl; [done|]. by rewrite Hp. }
  rewrite Hall; simpl.
  - rewrite Hall; [done|]. eapply Forall_impl; [exact Hj|]. intros p Hp. unfold apply6902Patch. by rewrite Hp.
  - eapply Forall_impl; [exact Hm|]. intros p Hp. unfold applyMergePatch. by rewrite Hp.
Qed.

(** A document as it is read back: without the line break that ends it, but for the last. *)
Definition read_as (t doc : string) : Prop := t = doc ∨ t = doc +:+ newline.

Lemma documents_of_read bodies :
  Forall2 read_as ((λ b, b +:+ newline) <$> bodies) (documents_of bodies).
Proof.
  induction bodies as [|b [|b' bodies] IH]; [constructor|constructor; [by left|constructor]|].
  constructor; [by right|exact IH].
Qed.

Lemma stream_length bodies : (length bodies ≤ String.length (stream_of ((λ b, b +:+ newline) <$> bodies)))%nat.
Proof.
  induction bodies as [|b [|b' bodies] IH]; [done|unfold stream_of; simpl; rewrite length_app_string; simpl; lia|].
  change (stream_of ((λ b, b +:+ newline) <$> b :: b' :: bodies)) with
    ((b +:+ newline) +:+ ("---" +:+ newline) +:+ stream_of ((λ b, b +:+ newline) <$> b' :: bodies)).
  rewrite !length_app_string. simpl in IH |- *. lia.
Qed.

Lemma texts_bodies mps jps rs texts : Forall2 (encoded mps jps) rs texts →
  ∃ bodies, texts = (λ b, b +:+ newline) <$> bodies ∧
    Forall (λ b, Contains (b +:+ newline) yamlSeparator = false) bodies.
Proof.
  induction 1 as [|r t rs texts (r' & _ & Ht) _ (bodies & -> & Hb)]; [by exists []|].
  apply JSONToYAML_document in Ht as (b & -> & Hc). exists (b :: bodies). split; [done|by constructor].
Qed.
End documents.

(** C27. A patched stream reads back as the documents of the original one, as many and in
    their order, each patched and written anew; the contents of a document that no patch
    matches are those of the original. *)
Theorem KubeYAML_documents `{PatchLibsLaws} s patches patches6902 out :
  KubeYAML s patches patches6902 = Ok out → slen out < maxTokenSize →
  ∃ mps jps docs docs', parseMergePatches patches = Ok mps ∧ convertJSON6902Patches patches6902 = Ok jps ∧
    splitYAMLDocuments s = Ok docs ∧ splitYAMLDocuments out = Ok docs' ∧
    Forall2 (λ doc doc', ∃ r r' t, parse_resource doc = Ok r ∧ patch_resource mps jps r = Ok r' ∧
      JSONToYAML (rs_json r') = Ok t ∧ read_as t doc' ∧
      (Forall (λ p, matches r (mp_matchInfo p) = false) mps →
       Forall (λ p, matches r (jp_matchInfo p) = false) jps → YAMLToJSON doc = Ok (rs_json r'))) docs docs'.
Proof.
  intros E Hlen. unfold KubeYAML in E.
  apply bind_Ok_iff in E as (rs & Hrs & E). apply bind_Ok_iff in E as (mps & Hmps & E).
  apply bind_Ok_iff in E as (jps & Hjps & E). apply errors_Wrap_Ok_iff in Hrs, Hmps, Hjps.
  unfold parseResources in Hrs. apply bind_Ok_iff in Hrs as (docs & Hdocs & Hrs). apply collect_Ok in Hrs.
  apply write_resources_Ok in E as (texts & E & Ht). change ("" +:+ stream_of texts) with (stream_of texts) in E. subst out.
  destruct (texts_bodies _ _ _ _ Ht) as (bodies & -> & Hb).
  exists mps, jps, docs, (documents_of bodies). split_and!; [done..| |].
  - unfold splitYAMLDocuments. rewrite scan_stream; [done..|]. apply Nat.lt_succ_r, stream_length.
  - assert (Forall2 (λ r doc', ∃ r' t, patch_resource mps jps r = Ok r' ∧ JSONToYAML (rs_json r') = Ok t ∧ read_as t doc')
      rs (documents_of bodies)) as Hd.
    { eapply Forall2_trans; [|exact Ht|apply documents_of_read]. intros r t doc' (r' & ? & ?) ?. by exists r', t. }
    eapply Forall2_trans; [|exact Hrs|exact Hd]. intros doc r doc' Hr (r' & t & Hp & Hy & Hread). simpl in Hr.
    exists r, r', t. split_and!; [done..|]. intros Hm Hj. rewrite unmatched_resource in Hp by done. injection Hp as <-.
    unfold parse_resource in Hr. apply bind_Ok_iff in Hr as (m & _ & Hr). apply bind_Ok_iff in Hr as (j & Hjson & [= <-]). done.
Qed.

(** *** With concrete libraries *)

(** JSON is the text of the YAML without its last line break; a merge appends. *)
Module Texts.
Definition chomp (s : string) : string :=
  match cut newline s with Some (a, "") => a | _ => s end.
Definition kind_of (s : string) : string :=
  match cut "kind: " s with Some (_, t) => match cut newline t with Some (k, _) => k | None => t end | None => "" end.
#[global] Instance libs : PatchLibs := {|
  JsonPatch := string;
  yaml_MatchInfo s := Ok (mkMatchInfo (kind_of s) "");
  YAMLToJSON s := Ok (chomp s);
  JSONToYAML j := if Contains (j +:+ newline) yamlSeparator then Err "no document" else Ok (j +:+ newline);
  DecodePatch := Ok;
  Apply p j := Ok (j +:+ " " +:+ p);
  MergePatch j p := Ok (j +:+ " + " +:+ p);
  toml_JSON := Ok;
  JSON_toml := Ok
|}.
#[global] Instance laws : PatchLibsLaws.
Proof.
  split. intros j t E. simpl in E. destruct (Contains (j +:+ newline) yamlSeparator) eqn:Hc; [done|].
  injection E as <-. by exists j.
Qed.
Definition stream : string := "kind: A" +:+ newline +:+ "---" +:+ newline +:+ "kind: B" +:+ newline.
End Texts.

Lemma KubeYAML_documents_witness :
  KubeYAML Texts.stream ["kind: B"] [] =
    Ok ("kind: A" +:+ newline +:+ "---" +:+ newline +:+ "kind: B + kind: B" +:+ newline) ∧
  ∃ docs', splitYAMLDocuments ("kind: A" +:+ newline +:+ "---" +:+ newline +:+ "kind: B + kind: B" +:+ newline) = Ok docs' ∧
    length docs' = 2%nat.
Proof.
  assert (KubeYAML Texts.stream ["kind: B"] [] =
    Ok ("kind: A" +:+ newline +:+ "---" +:+ newline +:+ "kind: B + kind: B" +:+ newline)) as E by (vm_compute; reflexivity).
  split; [exact E|].
  destruct (KubeYAML_documents _ _ _ _ E) as (mps & jps & docs & docs' & _ & _ & Hd & Hd' & Hf); [vm_compute; reflexivity|].
  exists docs'. split; [exact Hd'|]. apply Forall2_length in Hf. rewrite <-Hf.
  assert (splitYAMLDocuments Texts.stream = Ok ["kind: A"; "kind: B" +:+ newline]) as E' by (vm_compute; reflexivity).
  rewrite E' in Hd. injection Hd as <-. reflexivity.
Defined.
