(* ===== verification/NodeCommands.v ===== *)
(** * Commands on the nodes of the local cluster

    src/pkg/cluster/nodeutils/util.go, and the helpers of src/pkg/exec/helpers.go that it
    uses, over a log of the commands that ran on the nodes with what each gave.  What a
    node answers is a function of that log ([NodeHost]), so that what is proved holds for
    every behaviour of the nodes. *)

From S2P Require Import Prelude State GoStr Exec.
Local Open Scope Z_scope.
Local Open Scope go_scope.
Local Open Scope stdpp_scope.

(** ** The log *)

(** A command of [nodes.Node], with its standard input when it has one. *)
Record call := mkCall { c_node : string; c_args : list string; c_stdin : option string }.
#[export] Instance call_eq_dec : EqDecision call.
Proof. solve_decision. Defined.

(** What ran, newest first, and the error of each. *)
Definition calls : Type := list (call * option string).

(** The standard output of a command, and its error; the addresses of a node. *)
Class NodeHost := {
  reply : calls → call → string * option string;
  node_IP : calls → string → res (string * string)
}.

(** [path.Dir] of a clean absolute path. *)
Definition path_Dir (p : string) : string :=
  match removelast (Split p "/") with [""] => "/" | l => Join l "/" end.

Section commands.
Context `{NodeHost}.

Definition node_run (node : string) (args : list string) (stdin : option string) : st calls string := λ log,
  let c := mkCall node args stdin in
  let '(out, err) := reply log c in
  (match err with None => Ok out | Some e => Err e end, (c, err) :: log).
Definition node_do (node : string) (args : list string) (stdin : option string) : st calls unit :=
  _ ← node_run node args stdin; mret tt.

Definition OutputLines (node : string) (args : list string) : st calls (list string) :=
  out ← node_run node args None; mret (scan_lines out).

(** ** nodeutils/util.go *)

Definition KubeVersion (n : string) : st calls string :=
  lines ← st_wrap "failed to get file" (OutputLines n ["cat"; "/kind/version"]);
  pure (fail_when (negb (Nat.eqb (length lines) 1))
    ("file should only be one line, got " +:+ Itoa (Z.of_nat (length lines)) +:+ " lines")) ;;
  pure (index lines 0).

Definition WriteFile (n dest content : string) : st calls unit :=
  st_wrap ("failed to create directory " +:+ path_Dir dest) (node_do n ["mkdir"; "-p"; path_Dir dest] None) ;;
  node_do n ["cp"; "/dev/stdin"; dest] (Some content).

Definition CopyNodeToNode (a b file : string) : st calls unit :=
  st_wrap ("failed to create directory " +:+ Q (path_Dir file)) (node_do b ["mkdir"; "-p"; path_Dir file] None) ;;
  buff ← st_wrap ("failed to read " +:+ Q file +:+ " from node") (node_run a ["cat"; file] None);
  st_wrap ("failed to write " +:+ Q file +:+ " to node") (node_do b ["cp"; "/dev/stdin"; file] (Some buff)).

(** TOML and JSON. *)
Class ImageLibs := {
  toml_Load : string → res (list string → option string);    (* the tree, and the strings in it *)
  inspect_ID : string → res string;                          (* json.Unmarshal: status.id *)
  inspect_RepoTags : string → res (list string)              (* status.repoTags *)
}.
Context `{ImageLibs}.

Definition parseSnapshotter (config : string) : res string :=
  parsed ← errors_Wrap "failed to detect containerd snapshotter" (toml_Load config);
  match parsed ["plugins"; "io.containerd.grpc.v1.cri"; "containerd"; "snapshotter"] with
  | Some snapshotter => Ok snapshotter
  | None => Err "failed to detect containerd snapshotter"
  end.
Definition getSnapshotter (n : string) : st calls string :=
  out ← st_wrap "failed to detect containerd snapshotter" (node_run n ["containerd"; "config"; "dump"] None);
  pure (parseSnapshotter out).

Definition LoadImageArchive (n image : string) : st calls unit :=
  snapshotter ← getSnapshotter n;
  st_wrap "failed to load image"
    (node_do n ["ctr"; "--namespace=k8s.io"; "images"; "import"; "--all-platforms"; "--digests";
                "--snapshotter=" +:+ snapshotter; "-"] (Some image)).

Definition ImageID (n image : string) : st calls string :=
  out ← node_run n ["crictl"; "inspecti"; image] None;
  pure (inspect_ID out).

(** The set of the tags. *)
Definition ImageTags (n imageID : string) : st calls (gset string) :=
  out ← node_run n ["crictl"; "inspecti"; imageID] None;
  repoTags ← pure (inspect_RepoTags out);
  mret (list_to_set repoTags).

Definition ReTagImage (n imageID imageName : string) : st calls unit :=
  node_do n ["ctr"; "--namespace=k8s.io"; "images"; "tag"; "--force"; imageID; imageName] None.
End commands.

Example lines_of_version : scan_lines ("v1.27.0" +:+ String (Ascii.ascii_of_nat 13) (String (Ascii.ascii_of_nat 10) "")) = ["v1.27.0"].
Proof. vm_compute. reflexivity. Qed.
Example dir_of : path_Dir "/kind/kubeadm.conf" = "/kind".
Proof. vm_compute. reflexivity. Qed.
