(* ===== verification/Kubeadm.v ===== *)
(** * The kubeadm configuration

    src/pkg/cluster/internal/kubeadm/config.go: the data of the template, the fields that
    are derived, and the choices that depend on the version of Kubernetes.  The template
    engine is the class [YamlTemplate].  Shown: what is chosen for every minor version;
    that the two templates differ in the version of the API and in one line. *)

From stdpp Require Import sorting.
From S2P Require Import Prelude GoStr Version KindConfig.
Local Open Scope Z_scope.
Local Open Scope go_scope.
Local Open Scope stdpp_scope.

(** ** The data *)

Record FeatureGate := mkFeatureGate { fg_Name : string; fg_Value : bool }.

(** The fields below [cd_DisableLocalStorageCapacityIsolation] are those of
    [DerivedConfigData].  [cd_FeatureGates] is a map that the caller shares, or nil. *)
Record ConfigData := mkConfigData {
  cd_ClusterName : string;
  cd_KubernetesVersion : string;
  cd_ControlPlaneEndpoint : string;
  cd_APIBindPort : Z;
  cd_APIServerAddress : string;
  cd_NodeProvider : string;
  cd_ControlPlane : bool;
  cd_NodeAddress : string;
  cd_NodeName : string;
  cd_Token : string;
  cd_KubeProxyMode : string;
  cd_PodSubnet : string;
  cd_ServiceSubnet : string;
  cd_FeatureGates : option (gmap string bool);
  cd_RuntimeConfig : gmap string string;
  cd_IPFamily : string;
  cd_NodeLabels : string;
  cd_RootlessProvider : bool;
  cd_DisableLocalStorageCapacityIsolation : bool;
  cd_AdvertiseAddress : string;
  cd_DockerStableTag : string;
  cd_SortedFeatureGates : list FeatureGate;
  cd_FeatureGatesString : string;
  cd_RuntimeConfigString : string;
  cd_KubeadmFeatureGates : gmap string bool;
  cd_IPv6 : bool;
  cd_CgroupDriver : string
}.

Definition with_FeatureGates (g : option (gmap string bool)) (c : ConfigData) : ConfigData :=
  mkConfigData (cd_ClusterName c) (cd_KubernetesVersion c) (cd_ControlPlaneEndpoint c) (cd_APIBindPort c)
    (cd_APIServerAddress c) (cd_NodeProvider c) (cd_ControlPlane c) (cd_NodeAddress c) (cd_NodeName c) (cd_Token
    c) (cd_KubeProxyMode c) (cd_PodSubnet c) (cd_ServiceSubnet c) g (cd_RuntimeConfig c) (cd_IPFamily c)
    (cd_NodeLabels c) (cd_RootlessProvider c) (cd_DisableLocalStorageCapacityIsolation c) (cd_AdvertiseAddress
    c) (cd_DockerStableTag c) (cd_SortedFeatureGates c) (cd_FeatureGatesString c) (cd_RuntimeConfigString c)
    (cd_KubeadmFeatureGates c) (cd_IPv6 c) (cd_CgroupDriver c).
Definition with_DisableIsolation (b : bool) (c : ConfigData) : ConfigData :=
  mkConfigData (cd_ClusterName c) (cd_KubernetesVersion c) (cd_ControlPlaneEndpoint c) (cd_APIBindPort c)
    (cd_APIServerAddress c) (cd_NodeProvider c) (cd_ControlPlane c) (cd_NodeAddress c) (cd_NodeName c) (cd_Token
    c) (cd_KubeProxyMode c) (cd_PodSubnet c) (cd_ServiceSubnet c) (cd_FeatureGates c) (cd_RuntimeConfig c)
    (cd_IPFamily c) (cd_NodeLabels c) (cd_RootlessProvider c) b (cd_AdvertiseAddress c) (cd_DockerStableTag c)
    (cd_SortedFeatureGates c) (cd_FeatureGatesString c) (cd_RuntimeConfigString c) (cd_KubeadmFeatureGates c)
    (cd_IPv6 c) (cd_CgroupDriver c).
Definition with_KubeadmFeatureGates (g : gmap string bool) (c : ConfigData) : ConfigData :=
  mkConfigData (cd_ClusterName c) (cd_KubernetesVersion c) (cd_ControlPlaneEndpoint c) (cd_APIBindPort c)
    (cd_APIServerAddress c) (cd_NodeProvider c) (cd_ControlPlane c) (cd_NodeAddress c) (cd_NodeName c) (cd_Token
    c) (cd_KubeProxyMode c) (cd_PodSubnet c) (cd_ServiceSubnet c) (cd_FeatureGates c) (cd_RuntimeConfig c)
    (cd_IPFamily c) (cd_NodeLabels c) (cd_RootlessProvider c) (cd_DisableLocalStorageCapacityIsolation c)
    (cd_AdvertiseAddress c) (cd_DockerStableTag c) (cd_SortedFeatureGates c) (cd_FeatureGatesString c)
    (cd_RuntimeConfigString c) g (cd_IPv6 c) (cd_CgroupDriver c).
Definition with_CgroupDriver (d : string) (c : ConfigData) : ConfigData :=
  mkConfigData (cd_ClusterName c) (cd_KubernetesVersion c) (cd_ControlPlaneEndpoint c) (cd_APIBindPort c)
    (cd_APIServerAddress c) (cd_NodeProvider c) (cd_ControlPlane c) (cd_NodeAddress c) (cd_NodeName c) (cd_Token
    c) (cd_KubeProxyMode c) (cd_PodSubnet c) (cd_ServiceSubnet c) (cd_FeatureGates c) (cd_RuntimeConfig c)
    (cd_IPFamily c) (cd_NodeLabels c) (cd_RootlessProvider c) (cd_DisableLocalStorageCapacityIsolation c)
    (cd_AdvertiseAddress c) (cd_DockerStableTag c) (cd_SortedFeatureGates c) (cd_FeatureGatesString c)
    (cd_RuntimeConfigString c) (cd_KubeadmFeatureGates c) (cd_IPv6 c) d.

(** ** [Derive] *)

Definition sorted_keys {A} (m : gmap string A) : list string := merge_sort String.le (map_to_list m).*1.
Definition fmt_bool (b : bool) : string := if b then "true" else "false".

Definition gates_of (c : ConfigData) : gmap string bool := default ∅ (cd_FeatureGates c).
Definition sorted_gates (m : gmap string bool) : list FeatureGate :=
  (λ k, mkFeatureGate k (default false (m !! k))) <$> sorted_keys m.
Definition gates_string (m : gmap string bool) : string :=
  Join ((λ k, k +:+ "=" +:+ fmt_bool (default false (m !! k))) <$> sorted_keys m) ",".
Definition runtime_string (m : gmap string string) : string :=
  Join ((λ k, k +:+ "=" +:+ default "" (m !! k)) <$> sorted_keys m) ",".

Definition Derive (c : ConfigData) : ConfigData :=
  mkConfigData (cd_ClusterName c) (cd_KubernetesVersion c) (cd_ControlPlaneEndpoint c) (cd_APIBindPort c)
    (cd_APIServerAddress c) (cd_NodeProvider c) (cd_ControlPlane c) (cd_NodeAddress c) (cd_NodeName c) (cd_Token
    c) (cd_KubeProxyMode c) (cd_PodSubnet c) (cd_ServiceSubnet c) (cd_FeatureGates c) (cd_RuntimeConfig c)
    (cd_IPFamily c) (cd_NodeLabels c) (cd_RootlessProvider c) (cd_DisableLocalStorageCapacityIsolation c) (hd ""
    (Split (cd_NodeAddress c) ",")) (if cd_DockerStableTag c =s "" then ReplaceAll (cd_KubernetesVersion c) "+"
    "_" else cd_DockerStableTag c) (sorted_gates (gates_of c)) (gates_string (gates_of c)) (runtime_string
    (cd_RuntimeConfig c)) (cd_KubeadmFeatureGates c) (cd_IPFamily c =s IPv6Family) "systemd".

(** ** The templates *)

Definition ConfigTemplateBetaV2 : string := js "# config generated by kind
apiVersion: kubeadm.k8s.io/v1beta2
kind: ClusterConfiguration
metadata:
  name: config
kubernetesVersion: {{.KubernetesVersion}}
clusterName: `{{.ClusterName}}`
{{ if .KubeadmFeatureGates}}featureGates:
{{ range $key, $value := .KubeadmFeatureGates }}
  `{{ (StructuralData $key) }}`: {{ $value }}
{{end}}{{end}}
controlPlaneEndpoint: `{{ .ControlPlaneEndpoint }}`
# on docker for mac we have to expose the api server via port forward,
# so we need to ensure the cert is valid for localhost so we can talk
# to the cluster after rewriting the kubeconfig to point to localhost
apiServer:
  certSANs: [localhost, `{{.APIServerAddress}}`]
  extraArgs:
    `runtime-config`: `{{ .RuntimeConfigString }}`
{{ if .FeatureGates }}
    `feature-gates`: `{{ .FeatureGatesString }}`
{{ end}}
controllerManager:
  extraArgs:
{{ if .FeatureGates }}
    `feature-gates`: `{{ .FeatureGatesString }}`
{{ end }}
    enable-hostpath-provisioner: `true`
    # configure ipv6 default addresses for IPv6 clusters
    {{ if .IPv6 -}}
    bind-address: `::`
    {{- end }}
scheduler:
  extraArgs:
{{ if .FeatureGates }}
    `feature-gates`: `{{ .FeatureGatesString }}`
{{ end }}
    # configure ipv6 default addresses for IPv6 clusters
    {{ if .IPv6 -}}
    bind-address: `::1`
    {{- end }}
networking:
  podSubnet: `{{ .PodSubnet }}`
  serviceSubnet: `{{ .ServiceSubnet }}`
---
apiVersion: kubeadm.k8s.io/v1beta2
kind: InitConfiguration
metadata:
  name: config
# we use a well know token for TLS bootstrap
bootstrapTokens:
- token: `{{ .Token }}`
# we use a well know port for making the API server discoverable inside docker network. 
# from the host machine such port will be accessible via a random local port instead.
localAPIEndpoint:
  advertiseAddress: `{{ .AdvertiseAddress }}`
  bindPort: {{.APIBindPort}}
nodeRegistration:
  criSocket: `unix:///run/containerd/containerd.sock`
  kubeletExtraArgs:
    node-ip: `{{ .NodeAddress }}`
    provider-id: `kind://{{.NodeProvider}}/{{.ClusterName}}/{{.NodeName}}`
    node-labels: `{{ .NodeLabels }}`
---
# no-op entry that exists solely so it can be patched
apiVersion: kubeadm.k8s.io/v1beta2
kind: JoinConfiguration
metadata:
  name: config
{{ if .ControlPlane -}}
controlPlane:
  localAPIEndpoint:
    advertiseAddress: `{{ .AdvertiseAddress }}`
    bindPort: {{.APIBindPort}}
{{- end }}
nodeRegistration:
  criSocket: `unix:///run/containerd/containerd.sock`
  kubeletExtraArgs:
    node-ip: `{{ .NodeAddress }}`
    provider-id: `kind://{{.NodeProvider}}/{{.ClusterName}}/{{.NodeName}}`
    node-labels: `{{ .NodeLabels }}`
discovery:
  bootstrapToken:
    apiServerEndpoint: `{{ .ControlPlaneEndpoint }}`
    token: `{{ .Token }}`
    unsafeSkipCAVerification: true
---
apiVersion: kubelet.config.k8s.io/v1beta1
kind: KubeletConfiguration
metadata:
  name: config
cgroupDriver: {{ .CgroupDriver }}
cgroupRoot: /kubelet
failSwapOn: false
# configure ipv6 addresses in IPv6 mode
{{ if .IPv6 -}}
address: `::`
healthzBindAddress: `::`
{{- end }}
# disable disk resource management by default
# kubelet will see the host disk that the inner container runtime
# is ultimately backed by and attempt to recover disk space. we don't want that.
imageGCHighThresholdPercent: 100
evictionHard:
  nodefs.available: `0%`
  nodefs.inodesFree: `0%`
  imagefs.available: `0%`
{{if .FeatureGates}}featureGates:
{{ range $index, $gate := .SortedFeatureGates }}
  `{{ (StructuralData $gate.Name) }}`: {{ $gate.Value }}
{{end}}{{end}}
{{if ne .KubeProxyMode `None`}}
---
apiVersion: kubeproxy.config.k8s.io/v1alpha1
kind: KubeProxyConfiguration
metadata:
  name: config
mode: `{{ .KubeProxyMode }}`
{{if .FeatureGates}}featureGates:
{{ range $index, $gate := .SortedFeatureGates }}
  `{{ (StructuralData $gate.Name) }}`: {{ $gate.Value }}
{{end}}{{end}}
iptables:
  minSyncPeriod: 1s
conntrack:
# Skip setting sysctl value `net.netfilter.nf_conntrack_max`
# It is a global variable that affects other namespaces
  maxPerCore: 0
{{if .RootlessProvider}}
# Skip setting `net.netfilter.nf_conntrack_tcp_timeout_established`
  tcpEstablishedTimeout: 0s
# Skip setting `net.netfilter.nf_conntrack_tcp_timeout_close`
  tcpCloseWaitTimeout: 0s
{{end}}{{end}}
".

Definition ConfigTemplateBetaV3 : string := js "# config generated by kind
apiVersion: kubeadm.k8s.io/v1beta3
kind: ClusterConfiguration
metadata:
  name: config
kubernetesVersion: {{.KubernetesVersion}}
clusterName: `{{.ClusterName}}`
{{ if .KubeadmFeatureGates}}featureGates:
{{ range $key, $value := .KubeadmFeatureGates }}
  `{{ (StructuralData $key) }}`: {{ $value }}
{{end}}{{end}}
controlPlaneEndpoint: `{{ .ControlPlaneEndpoint }}`
# on docker for mac we have to expose the api server via port forward,
# so we need to ensure the cert is valid for localhost so we can talk
# to the cluster after rewriting the kubeconfig to point to localhost
apiServer:
  certSANs: [localhost, `{{.APIServerAddress}}`]
  extraArgs:
    `runtime-config`: `{{ .RuntimeConfigString }}`
{{ if .FeatureGates }}
    `feature-gates`: `{{ .FeatureGatesString }}`
{{ end}}
controllerManager:
  extraArgs:
{{ if .FeatureGates }}
    `feature-gates`: `{{ .FeatureGatesString }}`
{{ end }}
    enable-hostpath-provisioner: `true`
    # configure ipv6 default addresses for IPv6 clusters
    {{ if .IPv6 -}}
    bind-address: `::`
    {{- end }}
scheduler:
  extraArgs:
{{ if .FeatureGates }}
    `feature-gates`: `{{ .FeatureGatesString }}`
{{ end }}
    # configure ipv6 default addresses for IPv6 clusters
    {{ if .IPv6 -}}
    bind-address: `::1`
    {{- end }}
networking:
  podSubnet: `{{ .PodSubnet }}`
  serviceSubnet: `{{ .ServiceSubnet }}`
---
apiVersion: kubeadm.k8s.io/v1beta3
kind: InitConfiguration
metadata:
  name: config
# we use a well know token for TLS bootstrap
bootstrapTokens:
- token: `{{ .Token }}`
# we use a well know port for making the API server discoverable inside docker network. 
# from the host machine such port will be accessible via a random local port instead.
localAPIEndpoint:
  advertiseAddress: `{{ .AdvertiseAddress }}`
  bindPort: {{.APIBindPort}}
nodeRegistration:
  criSocket: `unix:///run/containerd/containerd.sock`
  kubeletExtraArgs:
    node-ip: `{{ .NodeAddress }}`
    provider-id: `kind://{{.NodeProvider}}/{{.ClusterName}}/{{.NodeName}}`
    node-labels: `{{ .NodeLabels }}`
---
# no-op entry that exists solely so it can be patched
apiVersion: kubeadm.k8s.io/v1beta3
kind: JoinConfiguration
metadata:
  name: config
{{ if .ControlPlane -}}
controlPlane:
  localAPIEndpoint:
    advertiseAddress: `{{ .AdvertiseAddress }}`
    bindPort: {{.APIBindPort}}
{{- end }}
nodeRegistration:
  criSocket: `unix:///run/containerd/containerd.sock`
  kubeletExtraArgs:
    node-ip: `{{ .NodeAddress }}`
    provider-id: `kind://{{.NodeProvider}}/{{.ClusterName}}/{{.NodeName}}`
    node-labels: `{{ .NodeLabels }}`
discovery:
  bootstrapToken:
    apiServerEndpoint: `{{ .ControlPlaneEndpoint }}`
    token: `{{ .Token }}`
    unsafeSkipCAVerification: true
---
apiVersion: kubelet.config.k8s.io/v1beta1
kind: KubeletConfiguration
metadata:
  name: config
cgroupDriver: {{ .CgroupDriver }}
cgroupRoot: /kubelet
failSwapOn: false
# configure ipv6 addresses in IPv6 mode
{{ if .IPv6 -}}
address: `::`
healthzBindAddress: `::`
{{- end }}
# disable disk resource management by default
# kubelet will see the host disk that the inner container runtime
# is ultimately backed by and attempt to recover disk space. we don't want that.
imageGCHighThresholdPercent: 100
evictionHard:
  nodefs.available: `0%`
  nodefs.inodesFree: `0%`
  imagefs.available: `0%`
{{if .FeatureGates}}featureGates:
{{ range $index, $gate := .SortedFeatureGates }}
  `{{ (StructuralData $gate.Name) }}`: {{ $gate.Value }}
{{end}}{{end}}
{{if .DisableLocalStorageCapacityIsolation}}localStorageCapacityIsolation: false{{end}}
{{if ne .KubeProxyMode `None`}}
---
apiVersion: kubeproxy.config.k8s.io/v1alpha1
kind: KubeProxyConfiguration
metadata:
  name: config
mode: `{{ .KubeProxyMode }}`
{{if .FeatureGates}}featureGates:
{{ range $index, $gate := .SortedFeatureGates }}
  `{{ (StructuralData $gate.Name) }}`: {{ $gate.Value }}
{{end}}{{end}}
iptables:
  minSyncPeriod: 1s
conntrack:
# Skip setting sysctl value `net.netfilter.nf_conntrack_max`
# It is a global variable that affects other namespaces
  maxPerCore: 0
{{if .RootlessProvider}}
# Skip setting `net.netfilter.nf_conntrack_tcp_timeout_established`
  tcpEstablishedTimeout: 0s
# Skip setting `net.netfilter.nf_conntrack_tcp_timeout_close`
  tcpCloseWaitTimeout: 0s
{{end}}{{end}}
".

(** ** [Config] *)

(** github.com/google/safetext/yamltemplate: parsing and executing a template. *)
Class YamlTemplate := { template_Parse : string → res (ConfigData → res string) }.

(** The gates of a rootless provider, in the map that the caller shares. *)
Definition rootless_gates (ver : Version) (data : ConfigData) : res ConfigData :=
  if negb (cd_RootlessProvider data) then Ok data else
  v22 ← MustParseSemantic "v1.22.0";
  fail_when (LessThan ver v22) ("version " +:+ Q (String_ (Some ver)) +:+
    " is not compatible with rootless provider (hint: kind v0.11.x may work with this version)") ;;
  let gates := <["KubeletInUserNamespace" := true]> (gates_of data) in
  v25 ← MustParseSemantic "v1.25.0-alpha.3.440+0064010cddfa00";
  Ok (if LessThan ver v25 then with_FeatureGates (Some (<["LocalStorageCapacityIsolation" := false]> gates)) data
      else with_DisableIsolation true (with_FeatureGates (Some gates) data)).

Definition choose_template (ver : Version) : res string :=
  v23 ← MustParseSemantic "v1.23.0";
  Ok (if LessThan ver v23 then ConfigTemplateBetaV2 else ConfigTemplateBetaV3).

Definition by_version (ver : Version) (data : ConfigData) : res ConfigData :=
  v21 ← MustParseSemantic "v1.21.0";
  v20 ← MustParseSemantic "v1.20.0";
  let data := if LessThan ver v21 && AtLeast ver v20
              then with_KubeadmFeatureGates {["IPv6DualStack" := true]} data else data in
  v24 ← MustParseSemantic "v1.24.0";
  Ok (if LessThan ver v24 then with_CgroupDriver "cgroupfs" data else data).

(** What the template is executed with. *)
Definition prepare_data (ver : Version) (data : ConfigData) : res ConfigData := by_version ver (Derive data).

Section config.
Context `{YamlTemplate}.

Definition Config (data : ConfigData) : res string :=
  ver ← ParseGeneric (cd_KubernetesVersion data);
  let data := with_FeatureGates (Some (gates_of data)) data in
  data ← rootless_gates ver data;
  templateSource ← choose_template ver;
  t ← errors_Wrap "failed to parse config template" (template_Parse templateSource);
  data ← prepare_data ver data;
  errors_Wrap "error executing config template" (t data).
End config.

(** What the map of the caller is afterwards: unless it is nil, the gates are set in it. *)
Definition gates_after (data : ConfigData) : option (gmap string bool) :=
  match cd_FeatureGates data, ParseGeneric (cd_KubernetesVersion data) with
  | Some _, Ok ver => match rootless_gates ver data with Ok data' => cd_FeatureGates data' | _ => cd_FeatureGates data end
  | gates, _ => gates
  end.

(** ** The choices by version *)

Lemma ParseGeneric_wf s v : ParseGeneric s = Ok v → wf_components v ∧ semver v = false.
Proof.
  unfold ParseGeneric, parse. destruct (versionMatchRE s) as [[numbers extra]|]; [|done].
  intros (_ & _ & H)%bind_Ok_iff. apply bind_Ok_iff in H as (nums & Hn & H). simpl in H. injection H as <-.
  split; [|done]. apply parse_components_range in Hn as [_ Hr]. eapply Forall_impl; [exact Hr|]. simpl. lia.
Qed.

(** Against a first release of a minor version, pre-release or not, only the minor
    version counts. *)
Lemma LessThan_minor v m rest k b pre build : wf_components v → semver v = false → 0 <= k →
  components v = 1 :: m :: rest → LessThan v (mkVersion [1; k; 0] b pre build) = (m <? k).
Proof.
  intros Hv Hs Hk Hc. unfold LessThan.
  assert (wf_components (mkVersion [1; k; 0] b pre build)) as Hw by (repeat constructor; lia).
  pose proof (compare_generic_lex v _ Hv Hw) as Hcmp. rewrite Hs in Hcmp. specialize (Hcmp eq_refl).
  simpl in Hcmp. unfold wf_components in Hv. rewrite Hc in Hcmp, Hv.
  apply Forall_cons in Hv as [_ [Hm Hrest]%Forall_cons].
  assert (∀ i, 0 <= component rest i) as Hpos.
  { intros i. unfold component. destruct (rest !! i) as [x|] eqn:Hx; simpl; [|lia].
    rewrite Forall_lookup in Hrest. by apply (Hrest i). }
  destruct Hcmp as [[-> (i & Hi & Hlt)]|[[-> He]|[-> (i & Hi & Hlt)]]].
  - symmetry. apply Z.ltb_lt. destruct i as [|[|i]]; [unfold component in Hlt; simpl in Hlt; lia|exact Hlt|].
    exfalso. destruct i as [|i]; unfold component in Hlt; simpl in Hlt.
    + specialize (Hpos 0%nat). unfold component in Hpos. lia.
    + specialize (Hpos (S i)). unfold component in Hpos. lia.
  - symmetry. apply Z.ltb_ge. specialize (He 1%nat). unfold component in He. simpl in He. lia.
  - symmetry. apply Z.ltb_ge. destruct i as [|[|i]].
    + unfold component in Hlt. simpl in Hlt. lia.
    + unfold component in Hlt. simpl in Hlt. lia.
    + specialize (Hi 1%nat ltac:(lia)). unfold component in Hi. simpl in Hi. lia.
Qed.

Lemma must_parse_minor (s : string) v {A} (k : Version → res A) : MustParseSemantic s = Ok v →
  (w ← MustParseSemantic s; k w) = k v.
Proof. by intros ->. Qed.

Definition semantic (k : Z) (pre build : string) : Version := mkVersion [1; k; 0] true pre build.

(** What the configuration is made of depends on the minor version alone: the version
    of the API, the driver of the cgroups, the gate for two families, and for a provider
    without root the gates that are set; below 1.22 such a provider is refused. *)
Theorem Config_by_minor (data : ConfigData) ver m rest :
  ParseGeneric (cd_KubernetesVersion data) = Ok ver → components ver = 1 :: m :: rest →
  choose_template ver = Ok (if m <? 23 then ConfigTemplateBetaV2 else ConfigTemplateBetaV3) ∧
  (∃ d, prepare_data ver data = Ok d ∧
     cd_CgroupDriver d = (if m <? 24 then "cgroupfs" else "systemd") ∧
     cd_KubeadmFeatureGates d = (if m =? 20 then {["IPv6DualStack" := true]} else cd_KubeadmFeatureGates data) ∧
     cd_FeatureGatesString d = gates_string (gates_of data) ∧ cd_IPv6 d = (cd_IPFamily data =s IPv6Family)) ∧
  (cd_RootlessProvider data = false → rootless_gates ver data = Ok data) ∧
  (cd_RootlessProvider data = true →
     if m <? 22 then is_Ok (rootless_gates ver data) = false
     else ∃ d, rootless_gates ver data = Ok d ∧ gates_of d !! "KubeletInUserNamespace" = Some true ∧
       (if m <? 25 then gates_of d !! "LocalStorageCapacityIsolation" = Some false
        else cd_DisableLocalStorageCapacityIsolation d = true)).
Proof.
  intros Hp Hc. apply ParseGeneric_wf in Hp as [Hwf Hs].
  assert (∀ k b pre build, 0 <= k → LessThan ver (mkVersion [1; k; 0] b pre build) = (m <? k)) as Hlt
    by (intros; by eapply LessThan_minor).
  assert (∀ k pre build, 0 <= k → AtLeast ver (semantic k pre build) = negb (m <? k)) as Hge
    by (intros; unfold AtLeast; by rewrite <-(Hlt k true pre build)).
  split_and!.
  - unfold choose_template. rewrite (must_parse_minor _ (semantic 23 "" "")) by reflexivity. unfold semantic.
    by rewrite Hlt by lia.
  - unfold prepare_data, by_version. rewrite (must_parse_minor _ (semantic 21 "" "")) by reflexivity.
    rewrite (must_parse_minor _ (semantic 20 "" "")) by reflexivity.
    rewrite (must_parse_minor _ (semantic 24 "" "")) by reflexivity. eexists. split; [reflexivity|].
    rewrite Hge by lia. unfold semantic. rewrite !Hlt by lia.
    assert ((m <? 21) && negb (m <? 20) = (m =? 20)) as -> by lia.
    by destruct (m <? 24), (m =? 20).
  - intros Hr. unfold rootless_gates. by rewrite Hr.
  - intros Hr. unfold rootless_gates. rewrite Hr. cbn [negb].
    rewrite (must_parse_minor _ (semantic 22 "" "")) by reflexivity. unfold semantic. rewrite Hlt by lia.
    destruct (m <? 22); [done|]. cbn [fail_when mbind res_bind].
    rewrite (must_parse_minor _ (semantic 25 "alpha.3.440" "0064010cddfa00")) by reflexivity. unfold semantic.
    rewrite Hlt by lia. eexists. split; [reflexivity|]. unfold gates_of.
    destruct (m <? 25); simpl; (split; [|by rewrite ?lookup_insert_eq]).
    + by rewrite lookup_insert_ne, lookup_insert_eq.
    + by rewrite lookup_insert_eq.
Qed.

(** The templates of the two versions of the API are the same configuration: they
    differ in the name of the version and in the line of the isolation of the local
    storage, which only the newer has. *)
Theorem templates_agree :
  ReplaceAll ConfigTemplateBetaV3
    ("{{if .DisableLocalStorageCapacityIsolation}}localStorageCapacityIsolation: false{{end}}" +:+
     String (Ascii.ascii_of_nat 10) "") "" =
  ReplaceAll ConfigTemplateBetaV2 "kubeadm.k8s.io/v1beta2" "kubeadm.k8s.io/v1beta3".
Proof. vm_compute. reflexivity. Qed.

Lemma Config_by_minor_witness : let data := mkConfigData "demo" "v1.25.0-alpha.1" "kind:6443" 6443 "127.0.0.1" "docker" true
    "10.1.0.2" "demo-control-plane" "abcdef.0123456789abcdef" "iptables" "10.244.0.0/16" "10.96.0.0/16" None ∅ "ipv4" "" true false
    "" "" [] "" "" ∅ false "" in
  ∃ d, rootless_gates (mkVersion [1; 25; 0] false "" "") data = Ok d ∧ cd_DisableLocalStorageCapacityIsolation d = true.
Proof.
  intros data. destruct (Config_by_minor data (mkVersion [1; 25; 0] false "" "") 25 [0]) as (_ & _ & _ & Hr);
    [reflexivity|reflexivity|].
  destruct (Hr eq_refl) as (d & Hd & _ & Hdis). exists d. split; [exact Hd|exact Hdis].
Defined.

(** ** The map of gates is the caller's *)

(** A configuration for a provider without root sets its gates in the map of the cluster,
    which the goroutines of the other nodes write at the same time. *)
Lemma Config_shares_gates data ver gates : cd_FeatureGates data = Some gates →
  ParseGeneric (cd_KubernetesVersion data) = Ok ver → cd_RootlessProvider data = true →
  is_Ok (rootless_gates ver data) = true →
  ∃ gates', gates_after data = Some gates' ∧ gates' !! "KubeletInUserNamespace" = Some true.
Proof.
  intros Hg Hv Hr Hok. unfold gates_after. rewrite Hg, Hv.
  destruct (rootless_gates ver data) as [d| |] eqn:E; [|done..]. unfold rootless_gates in E. rewrite Hr in E. cbn [negb] in E.
  rewrite (must_parse_minor _ (semantic 22 "" "")) in E by reflexivity.
  rewrite (must_parse_minor _ (semantic 25 "alpha.3.440" "0064010cddfa00")) in E by reflexivity.
  apply bind_unit_Ok in E as [_ E]. injection E as <-. unfold gates_of. rewrite Hg. simpl.
  destruct (LessThan ver _); simpl; eexists; (split; [reflexivity|]); [|by rewrite lookup_insert_eq].
  by rewrite lookup_insert_ne, lookup_insert_eq.
Qed.

(** ** The text of the gates *)

(** How [k=v,...] reads. *)
Definition read_gate (s : string) : option (string * bool) :=
  match Split s "=" with
  | [k; v] => if v =s "true" then Some (k, true) else if v =s "false" then Some (k, false) else None
  | _ => None
  end.
Definition read_gates (s : string) : gmap string bool := list_to_map (omap read_gate (Split s ",")).

Definition plain_name (k : string) : Prop := ¬ char_in "," k ∧ ¬ char_in "=" k.

Lemma fmt_bool_plain b : plain_name (fmt_bool b).
Proof. split; destruct b; apply (bool_decide_eq_false (char_in _ _)); vm_compute; reflexivity. Qed.

Lemma read_gate_entry k b : plain_name k → read_gate (k +:+ "=" +:+ fmt_bool b) = Some (k, b).
Proof.
  intros [_ Hk]. unfold read_gate. change (k +:+ "=" +:+ fmt_bool b) with (Join [k; fmt_bool b] "=").
  rewrite Split_Join; [by destruct b|done|]. repeat constructor; [done|apply fmt_bool_plain].
Qed.

Lemma sorted_keys_elem {A} (m : gmap string A) k : k ∈ sorted_keys m ↔ is_Some (m !! k).
Proof.
  unfold sorted_keys. rewrite merge_sort_Permutation, list_elem_of_fmap. split.
  - intros ([k' x] & -> & Hx). apply elem_of_map_to_list in Hx. by exists x.
  - intros [x Hx]. exists (k, x). split; [done|]. by apply elem_of_map_to_list.
Qed.

Lemma sorted_keys_NoDup {A} (m : gmap string A) : NoDup (sorted_keys m).
Proof. unfold sorted_keys. rewrite merge_sort_Permutation. apply NoDup_fst_map_to_list. Qed.

(** The text of the feature gates is read back as the gates, whatever they are, when
    no name holds a comma or an equals sign. *)
Theorem gates_roundtrip (m : gmap string bool) :
  m ≠ ∅ → (∀ k, is_Some (m !! k) → plain_name k) → read_gates (gates_string m) = m.
Proof.
  intros Hm Hk. set (entry k := (k, default false (m !! k))).
  unfold read_gates, gates_string. rewrite (Split_Join ",").
  - assert (omap read_gate ((λ k, k +:+ "=" +:+ fmt_bool (default false (m !! k))) <$> sorted_keys m) =
      entry <$> sorted_keys m) as ->.
    { assert (∀ l : list string, (∀ k, k ∈ l → plain_name k) →
        omap read_gate ((λ k, k +:+ "=" +:+ fmt_bool (default false (m !! k))) <$> l) = entry <$> l) as Hl.
      { induction l as [|k l IH]; intros Hl; [done|]. cbn [fmap list_fmap omap list_omap].
        rewrite read_gate_entry by (apply Hl; left). rewrite IH; [done|]. intros ? ?. apply Hl. by right. }
      apply Hl. intros k Hin. by apply Hk, sorted_keys_elem. }
    apply map_eq. intros k. destruct (m !! k) as [b|] eqn:Hb.
    + apply elem_of_list_to_map.
      * rewrite <-list_fmap_compose. unfold compose. simpl. rewrite list_fmap_id. apply sorted_keys_NoDup.
      * apply list_elem_of_fmap. exists k. split; [unfold entry; by rewrite Hb|]. apply sorted_keys_elem. by rewrite Hb.
    + apply not_elem_of_list_to_map. rewrite <-list_fmap_compose. unfold compose. simpl. rewrite list_fmap_id.
      rewrite sorted_keys_elem, Hb. by intros [? ?].
  - intros Hnil. apply fmap_nil_inv in Hnil. apply Hm, map_empty. intros k.
    destruct (m !! k) as [b|] eqn:Hb; [|done]. exfalso.
    assert (k ∈ sorted_keys m) as Hin by (apply sorted_keys_elem; by rewrite Hb). rewrite Hnil in Hin. by apply not_elem_of_nil in Hin.
  - apply Forall_forall. intros s (k & -> & Hin)%list_elem_of_fmap. apply sorted_keys_elem in Hin.
    rewrite !char_in_app. intros [Hc|[Hc|Hc]].
    + by apply (proj1 (Hk k Hin)).
    + revert Hc. apply (bool_decide_eq_false (char_in _ _)). reflexivity.
    + by apply (proj1 (fmt_bool_plain _)) in Hc.
Qed.

Lemma gates_roundtrip_witness :
  gates_string (<["B" := true]> {["A" := false]}) = "A=false,B=true" ∧
  read_gates (gates_string (<["B" := true]> {["A" := false]})) = <["B" := true]> {["A" := false]}.
Proof.
  split; [vm_compute; reflexivity|]. apply gates_roundtrip.
  - intros E. apply (f_equal (λ m : gmap string bool, m !! "A")) in E. vm_compute in E. discriminate E.
  - intros k [b Hb]. apply lookup_insert_Some in Hb as [[<- _]|[_ Hb]]; [|apply lookup_singleton_Some in Hb as [<- _]];
      split; apply (bool_decide_eq_false (char_in _ _)); reflexivity.
Defined.
