(* ===== verification/NodeConfig.v ===== *)
(** * The kubeadm configuration of a node

    src/pkg/cluster/internal/create/actions/config/config.go: the action that gives each
    node its configuration.  Shown: the node of the configuration that is found by its
    name is the one it was made for; and when the action succeeds every node of the
    cluster, and no other, has a configuration made for it. *)

From S2P Require Import Prelude State Concurrent GoStr NetIP KindConfig Nodes NodeCommands Patch Kubeadm.
Local Open Scope Z_scope.
Local Open Scope go_scope.
Local Open Scope stdpp_scope.

(** ** What an action is given *)

(** [ctx.Nodes()], the methods of the provider, and the cluster's configuration. *)
Record ActionContext := mkActionContext {
  ctx_Config : Cluster;
  ctx_Nodes : res (list string);
  ctx_Rootless : res bool;                        (* Provider.Info().Rootless *)
  ctx_InternalEndpoint : res string;              (* Provider.GetAPIServerInternalEndpoint *)
  ctx_Provider : string;                          (* the name it is printed with *)
  ctx_Role : string → res string                  (* the role of a node *)
}.

(** ** The node of the configuration *)

(** The last node whose name without the cluster ends the name of the container. *)
Fixpoint match_node (counter : gmap string Z) (nodes : list Node) (node : string) (configNode : option Node)
  : option Node :=
  match nodes with
  | [] => configNode
  | n :: nodes =>
      let '(counter, nodeSuffix) := nodeNamer "" counter (no_Role n) in
      match_node counter nodes node (if HasSuffix node nodeSuffix then Some n else configNode)
  end.

Definition hashMapLabelsToCommaSeparatedLabels (labels : list (string * string)) : string :=
  TrimSuffix (fold_left (λ output '(key, value), output +:+ key +:+ "=" +:+ value +:+ ",") labels "") ",".

Definition removeMetadata (kustomized : string) : string :=
  ReplaceAll kustomized ("metadata:" +:+ newline +:+ "  name: config" +:+ newline) "".

Definition allPatchesFromConfig (cfg : Cluster) : list string * list PatchJSON6902 :=
  (kc_KubeadmConfigPatches cfg, kc_KubeadmConfigPatchesJSON6902 cfg).

(** The setters of the fields that a node fills in. *)
Definition with_NodeName (x : string) (c : ConfigData) : ConfigData :=
  mkConfigData (cd_ClusterName c) (cd_KubernetesVersion c) (cd_ControlPlaneEndpoint c) (cd_APIBindPort c)
    (cd_APIServerAddress c) (cd_NodeProvider c) (cd_ControlPlane c) (cd_NodeAddress c) x (cd_Token c)
    (cd_KubeProxyMode c) (cd_PodSubnet c) (cd_ServiceSubnet c) (cd_FeatureGates c) (cd_RuntimeConfig c)
    (cd_IPFamily c) (cd_NodeLabels c) (cd_RootlessProvider c) (cd_DisableLocalStorageCapacityIsolation c)
    (cd_AdvertiseAddress c) (cd_DockerStableTag c) (cd_SortedFeatureGates c) (cd_FeatureGatesString c)
    (cd_RuntimeConfigString c) (cd_KubeadmFeatureGates c) (cd_IPv6 c) (cd_CgroupDriver c).
Definition with_node (version address labels : string) (controlPlane : bool) (c : ConfigData) : ConfigData :=
  mkConfigData (cd_ClusterName c) version (cd_ControlPlaneEndpoint c) (cd_APIBindPort c)
    (cd_APIServerAddress c) (cd_NodeProvider c) controlPlane address (cd_NodeName c) (cd_Token c)
    (cd_KubeProxyMode c) (cd_PodSubnet c) (cd_ServiceSubnet c) (cd_FeatureGates c) (cd_RuntimeConfig c)
    (cd_IPFamily c) labels (cd_RootlessProvider c) (cd_DisableLocalStorageCapacityIsolation c)
    (cd_AdvertiseAddress c) (cd_DockerStableTag c) (cd_SortedFeatureGates c) (cd_FeatureGatesString c)
    (cd_RuntimeConfigString c) (cd_KubeadmFeatureGates c) (cd_IPv6 c) (cd_CgroupDriver c).

(** The address that [net.ParseCIDR] returns. *)
Definition cidr_address (s : string) : option IP :=
  match ParseCIDR s with Some _ => ParseAddr (hd "" (Split s "/")) | None => None end.

(** The addresses of a node, in the order of the families. *)
Definition node_address (cfg : Cluster) (node provider nodeAddress nodeAddressIPv6 : string) : res string :=
  let nt := kc_Networking cfg in
  if (nt_IPFamily nt =s IPv6Family) || (nt_IPFamily nt =s DualStackFamily) then
    fail_when (negb (opt_is_Some (ParseAddr nodeAddressIPv6)))
      ("failed to get IPv6 address for node " +:+ node +:+ "; is " +:+ provider +:+
       " configured to use IPv6 correctly?") ;;
    if nt_IPFamily nt =s DualStackFamily then
      let primaryServiceSubnet := hd "" (Split (nt_ServiceSubnet nt) ",") in
      match cidr_address primaryServiceSubnet with
      | None => Err ("failed to parse primary Service Subnet " +:+ primaryServiceSubnet +:+ " (" +:+
                     nt_ServiceSubnet nt +:+ "): invalid CIDR address: " +:+ primaryServiceSubnet)
      | Some ip => Ok (if ip_bits (To4 ip) =? 32 then nodeAddress +:+ "," +:+ nodeAddressIPv6
                       else nodeAddressIPv6 +:+ "," +:+ nodeAddress)
      end
    else Ok nodeAddressIPv6
  else Ok nodeAddress.

(** [range] over the labels. *)
Class Order := {
  label_order : gmap string string → list (string * string);
  label_order_perm m : label_order m ≡ₚ map_to_list m
}.

Section config_action.
Context `{NodeHost, YamlTemplate, PatchLibs, Order, Schedule calls}.

Definition getKubeadmConfig (cfg : Cluster) (data : ConfigData) (node provider : string) : st calls string :=
  kubeVersion ← st_wrap "failed to get kubernetes version from node" (KubeVersion node);
  match match_node ∅ (kc_Nodes cfg) node None with
  | None => pure (Err ("failed to match node " +:+ Q node +:+ " to config"))
  | Some configNode =>
      '(nodeAddress, nodeAddressIPv6) ← st_wrap "failed to get IP for node" (λ log, (node_IP log node, log));
      address ← pure (node_address cfg node provider nodeAddress nodeAddressIPv6);
      let labels := if bool_decide (no_Labels configNode = ∅) then cd_NodeLabels data
                    else hashMapLabelsToCommaSeparatedLabels (label_order (no_Labels configNode)) in
      let data := with_node kubeVersion address labels (no_Role configNode =s ControlPlaneNodeRoleValue) data in
      cf ← pure (Config data);
      let '(clusterPatches, clusterJSONPatches) := allPatchesFromConfig cfg in
      patchedConfig ← pure (KubeYAML cf clusterPatches clusterJSONPatches);
      patchedConfig ← pure (
        if Nat.ltb 0 (length (no_KubeadmConfigPatches configNode)) ||
           Nat.ltb 0 (length (no_KubeadmConfigPatchesJSON6902 configNode))
        then KubeYAML patchedConfig (no_KubeadmConfigPatches configNode) (no_KubeadmConfigPatchesJSON6902 configNode)
        else Ok patchedConfig);
      mret (removeMetadata patchedConfig)
  end.

Definition writeKubeadmConfig (kubeadmConfig node : string) : st calls unit :=
  st_wrap "failed to copy kubeadm config to node" (WriteFile node "/kind/kubeadm.conf" kubeadmConfig).

Definition kubeadmConfigPlusPatches (ctx : ActionContext) (data : ConfigData) (node : string) : st calls unit :=
  kubeadmConfig ← st_wrap "failed to generate kubeadm config content"
    (getKubeadmConfig (ctx_Config ctx) (with_NodeName node data) node (ctx_Provider ctx));
  writeKubeadmConfig kubeadmConfig node.

Definition containerdConfigPath : string := "/etc/containerd/config.toml".
Definition patch_containerd (cfg : Cluster) (node : string) : st calls unit :=
  buff ← st_wrap "failed to read containerd config from node" (node_run node ["cat"; containerdConfigPath] None);
  patched ← st_wrap "failed to patch containerd config"
    (pure (TOML buff (kc_ContainerdConfigPatches cfg) (kc_ContainerdConfigPatchesJSON6902 cfg)));
  st_wrap "failed to write patched containerd config" (WriteFile node containerdConfigPath patched) ;;
  st_wrap "failed to restart containerd after patching config"
    (node_do node ["bash"; "-c"; "! pgrep --exact containerd || systemctl restart containerd"] None).

Definition Token : string := "abcdef.0123456789abcdef".
Definition APIServerInternalPort : Z := 6443.

(** A map of gates that is empty is taken for nil. *)
Definition config_data (ctx : ActionContext) (controlPlaneEndpoint : string) (rootless : bool) : ConfigData :=
  let cfg := ctx_Config ctx in
  let nt := kc_Networking cfg in
  mkConfigData (kc_Name cfg) "" controlPlaneEndpoint APIServerInternalPort (nt_APIServerAddress nt) (ctx_Provider ctx)
    true "" "" Token (nt_KubeProxyMode nt) (nt_PodSubnet nt) (nt_ServiceSubnet nt)
    (if bool_decide (kc_FeatureGates cfg = ∅) then None else Some (kc_FeatureGates cfg))
    (kc_RuntimeConfig cfg) (nt_IPFamily nt) "" rootless false "" "" [] "" "" ∅ false "".

Definition config_Execute (ctx : ActionContext) : st calls unit :=
  rootless ← pure (ctx_Rootless ctx);
  allNodes ← pure (ctx_Nodes ctx);
  controlPlaneEndpoint ← pure (ctx_InternalEndpoint ctx);
  let configData := config_data ctx controlPlaneEndpoint rootless in
  kubeNodes ← pure (InternalNodes (ctx_Role ctx) allNodes);
  until_error (kubeadmConfigPlusPatches ctx configData <$> kubeNodes) ;;
  let cfg := ctx_Config ctx in
  st_when (Nat.ltb 0 (length (kc_ContainerdConfigPatches cfg)) || Nat.ltb 0 (length (kc_ContainerdConfigPatchesJSON6902 cfg)))
    (until_error (patch_containerd cfg <$> kubeNodes)).
End config_action.

(** ** The node is found by its name *)

(** Two texts that both begin a third agree as far as both go; so digits that a letter
    ends are the same in both. *)
Lemma digits_end d d' c c' (x x' : string) : all_chars is_digit d = true → all_chars is_digit d' = true →
  is_digit c = false → is_digit c' = false →
  d +:+ String c x = d' +:+ String c' x' → d = d' ∧ c = c' ∧ x = x'.
Proof.
  revert d'. induction d as [|a d IH]; intros [|a' d'] Hd Hd' Hc Hc' E; simpl in *.
  - by injection E as -> ->.
  - injection E as -> _. by rewrite Hc in Hd'.
  - injection E as <- _. by rewrite Hc' in Hd.
  - injection E as <- E. apply andb_prop in Hd as [_ Hd], Hd' as [_ Hd'].
    destruct (IH d' Hd Hd' Hc Hc' E) as (-> & -> & ->). done.
Qed.

Definition number_of (k : Z) : string := if k =? 1 then "" else Itoa k.
Lemma number_digits k : 0 < k → all_chars is_digit (number_of k) = true.
Proof.
  intros Hk. unfold number_of, Itoa. destruct (k =? 1); [done|]. rewrite (proj2 (Z.ltb_ge _ _)) by lia.
  apply fmt_uint_digits.
Qed.

(** A kind of node that the cluster's configuration has. *)
Definition node_role (r : string) : Prop := r = ControlPlaneNodeRoleValue ∨ r = WorkerNodeRoleValue.

Lemma suffix_same cl r r' k k' : node_role r → node_role r' → 0 < k → 0 < k' →
  HasSuffix (name_of cl r k) (name_of "" r' k') = true → r = r' ∧ number_of k = number_of k'.
Proof.
  intros Hr Hr' Hk Hk' Hs. unfold HasSuffix in Hs. apply prefix_spec in Hs as [t Ht].
  unfold name_of in Ht. fold (number_of k) (number_of k') in Ht.
  rewrite !string_rev_cat, !string_app_assoc in Ht.
  pose proof (number_digits k Hk) as Hd. pose proof (number_digits k' Hk') as Hd'.
  rewrite <-all_chars_rev in Hd, Hd'.
  assert (∀ s s', string_rev s = string_rev s' → s = s') as Hinj
    by (intros s s' E; by rewrite <-(string_rev_involutive s), E, string_rev_involutive).
  destruct Hr as [->| ->], Hr' as [->| ->]; (split; [|]);
    match type of Ht with _ +:+ ?a +:+ _ = _ +:+ ?b +:+ _ =>
      let a' := eval vm_compute in a in let b' := eval vm_compute in b in
      change a with a' in Ht; change b with b' in Ht end;
    simpl in Ht; (apply digits_end in Ht as (Ht & Hc & _); [|done..]); try discriminate Hc; try done; by apply Hinj.
Qed.

Lemma number_of_inj k k' : 0 < k → 0 < k' → number_of k = number_of k' → k = k'.
Proof.
  intros Hk Hk' E. apply (name_of_inj "" ControlPlaneNodeRoleValue ControlPlaneNodeRoleValue k k');
    [apply list_elem_of_here..|done|done|]. unfold name_of. fold (number_of k) (number_of k'). by rewrite E.
Qed.

Definition counts (counter : gmap string Z) : Prop := ∀ k v, counter !! k = Some v → 1 <= v.
Lemma count_pos counter r : counts counter → 0 <= count_of counter r.
Proof. intros Hc. unfold count_of. destruct (counter !! r) as [v|] eqn:Hr; simpl; [apply Hc in Hr; lia|done]. Qed.
Lemma counts_next counter r : counts counter → counts (<[r := count_of counter r + 1]> counter).
Proof.
  intros Hc k v [[<- <-]|[_ Hk]]%lookup_insert_Some; [|by eapply Hc]. pose proof (count_pos counter r Hc). lia.
Qed.

(** No later node has the name of an earlier one. *)
Lemma match_node_later nodes counter cl r k found : counts counter → Forall (λ n, node_role (no_Role n)) nodes →
  node_role r → 0 < k → k <= count_of counter r → match_node counter nodes (name_of cl r k) found = found.
Proof.
  intros Hc Hn Hr Hk. revert counter found Hc. induction Hn as [|n nodes Hn _ IH]; intros counter found Hc Hle; [done|].
  cbn [match_node]. rewrite nodeNamer_spec by done. pose proof (count_pos counter (no_Role n) Hc) as H0.
  rewrite IH; [|by apply counts_next|].
  - destruct (HasSuffix _ _) eqn:Hs; [|done]. exfalso. apply suffix_same in Hs as [<- E]; [|done|done|done|lia].
    apply number_of_inj in E; lia.
  - unfold count_of. destruct (decide (no_Role n = r)) as [->|Hne].
    + rewrite lookup_insert_eq. simpl. unfold count_of in *. lia.
    + by rewrite lookup_insert_ne.
Qed.

(** C24. The search by the end of the name, which the code calls a hack, is right: the
    container that was made for a node of the configuration finds that node, whatever
    the name of the cluster. *)
Theorem node_matched cl (nodes : list Node) i n name :
  Forall (λ n, node_role (no_Role n)) nodes →
  name_nodes cl ∅ (no_Role <$> nodes) !! i = Some name → nodes !! i = Some n →
  match_node ∅ nodes name None = Some n.
Proof.
  assert (∀ counter found, counts counter → Forall (λ n, node_role (no_Role n)) nodes →
    name_nodes cl counter (no_Role <$> nodes) !! i = Some name → nodes !! i = Some n →
    match_node counter nodes name found = Some n) as Hgo; [|by apply Hgo].
  revert i. induction nodes as [|n0 nodes IH]; intros i counter found Hc Hn Hname Hi; [done|].
  apply Forall_cons in Hn as [Hn0 Hn]. cbn [match_node fmap list_fmap name_nodes] in *.
  rewrite nodeNamer_spec in Hname by done. rewrite nodeNamer_spec by done.
  pose proof (count_pos counter (no_Role n0) Hc) as H0. destruct i as [|i]; simpl in Hname, Hi.
  - simplify_eq. assert (HasSuffix (name_of cl (no_Role n) (count_of counter (no_Role n) + 1))
      (name_of "" (no_Role n) (count_of counter (no_Role n) + 1)) = true) as ->.
    { apply (HasSuffix_app cl). }
    apply match_node_later; [by apply counts_next|done|done|lia|].
    unfold count_of at 2. rewrite lookup_insert_eq. simpl. lia.
  - apply (IH i); [by apply counts_next|done|done|done].
Qed.

Lemma node_matched_witness : let node r image := mkNode r image ∅ [] [] [] [] in
  match_node ∅ [node "control-plane" "a"; node "worker" "b"; node "worker" "c"] "x-worker-worker2" None =
    Some (node "worker" "c").
Proof.
  intros node. apply (node_matched "x-worker" _ 2); [|reflexivity|reflexivity].
  repeat (apply Forall_cons; split; [(by left) || (by right)|]). constructor.
Defined.

(** ** Every node gets its configuration *)

(** What is done touches the nodes [ns] only. *)
Definition touches (ns : list string) : relation calls := λ w w',
  ∃ l, w' = l ++ w ∧ Forall (λ x, c_node x.1 ∈ ns) l.
#[export] Instance touches_preorder ns : PreOrder (touches ns).
Proof.
  split; [by exists []|]. intros w1 w2 w3 (l & -> & Hl) (l' & -> & Hl'). exists (l' ++ l).
  rewrite <-app_assoc. split; [done|]. by apply Forall_app.
Qed.

Section touching.
Context `{NodeHost, YamlTemplate, PatchLibs, Order, Schedule calls} (ns : list string).
Abbreviation within m := (sat m (touches ns) (touches ns)).

Lemma run_within n args stdin : n ∈ ns → within (node_run n args stdin).
Proof.
  intros Hn. apply sat_always. intros w r w' E. unfold node_run in E.
  destruct (reply w (mkCall n args stdin)) as [out err]. injection E as _ <-.
  exists [(mkCall n args stdin, err)]. split; [done|]. by constructor.
Qed.
Lemma do_within n args stdin : n ∈ ns → within (node_do n args stdin).
Proof. intros Hn. unfold node_do. repeat sat_step. by apply run_within. Qed.
Lemma KubeVersion_within n : n ∈ ns → within (KubeVersion n).
Proof. intros Hn. unfold KubeVersion, OutputLines. repeat sat_step. by apply run_within. Qed.
Lemma WriteFile_within n dest content : n ∈ ns → within (WriteFile n dest content).
Proof. intros Hn. unfold WriteFile. repeat sat_step; by apply do_within. Qed.
Lemma getKubeadmConfig_within cfg data n provider : n ∈ ns → within (getKubeadmConfig cfg data n provider).
Proof.
  intros Hn. unfold getKubeadmConfig. repeat (sat_step || by apply KubeVersion_within).
  apply sat_always. by intros w r w' [= _ <-].
Qed.
Lemma kubeadmConfig_within ctx data n : n ∈ ns → within (kubeadmConfigPlusPatches ctx data n).
Proof.
  intros Hn. unfold kubeadmConfigPlusPatches, writeKubeadmConfig. repeat sat_step;
    [by apply getKubeadmConfig_within|by apply WriteFile_within].
Qed.
Lemma containerd_within cfg n : n ∈ ns → within (patch_containerd cfg n).
Proof.
  intros Hn. unfold patch_containerd. repeat (sat_step || by apply run_within || by apply do_within || by apply WriteFile_within).
Qed.

End touching.

Definition wrote (log : calls) (n content : string) : Prop :=
  (mkCall n ["cp"; "/dev/stdin"; "/kind/kubeadm.conf"] (Some content), None) ∈ log.

Section written.
Context `{NodeHost, YamlTemplate, PatchLibs, Order, Schedule calls}.

Lemma node_do_Ok n args stdin w w' : node_do n args stdin w = (Ok tt, w') → w' = (mkCall n args stdin, None) :: w.
Proof.
  unfold node_do, node_run. intros E. apply st_bind_Ok in E as (out & v & Ev & E). injection E as <-.
  destruct (reply w (mkCall n args stdin)) as [o [e|]]; simplify_eq. done.
Qed.

Lemma kubeadmConfig_Ok ctx data n w w' : kubeadmConfigPlusPatches ctx data n w = (Ok tt, w') →
  ∃ content v, getKubeadmConfig (ctx_Config ctx) (with_NodeName n data) n (ctx_Provider ctx) w = (Ok content, v) ∧
    wrote w' n content.
Proof.
  unfold kubeadmConfigPlusPatches. intros E. apply st_bind_Ok in E as (content & v & Eg & E). exists content, v.
  apply st_wrap_Ok in Eg. split; [done|]. unfold writeKubeadmConfig in E. apply st_wrap_Ok in E. unfold WriteFile in E.
  apply st_bind_Ok in E as ([] & v1 & _ & E). apply node_do_Ok in E. rewrite E. apply list_elem_of_here.
Qed.

(** C26. When the action succeeds, each node of the cluster has the configuration that was
    made for it under its name, and nothing ran on any other container, whatever order
    the nodes are served in. *)
Theorem config_written ctx log log' allNodes kubeNodes :
  ctx_Nodes ctx = Ok allNodes → InternalNodes (ctx_Role ctx) allNodes = Ok kubeNodes →
  config_Execute ctx log = (Ok tt, log') →
  touches kubeNodes log log' ∧
  ∃ endpoint rootless, ctx_InternalEndpoint ctx = Ok endpoint ∧ ctx_Rootless ctx = Ok rootless ∧
    ∀ n, n ∈ kubeNodes → ∃ content v v',
      getKubeadmConfig (ctx_Config ctx) (with_NodeName n (config_data ctx endpoint rootless)) n (ctx_Provider ctx) v =
        (Ok content, v') ∧ wrote log' n content.
Proof.
  intros Hn Hk E. unfold config_Execute in E.
  apply st_bind_Ok in E as (rootless & w1 & E1 & E). injection E1 as E1 <-.
  apply st_bind_Ok in E as (nodes & w2 & E2 & E). injection E2 as E2 <-. rewrite Hn in E2. injection E2 as <-.
  apply st_bind_Ok in E as (endpoint & w3 & E3 & E). injection E3 as E3 <-.
  apply st_bind_Ok in E as (kube & w4 & E4 & E). injection E4 as E4 <-. rewrite Hk in E4. injection E4 as <-.
  apply st_bind_Ok in E as ([] & w5 & E5 & E).
  set (f := kubeadmConfigPlusPatches ctx (config_data ctx endpoint rootless)) in *.
  assert (Forall (λ g, sat g (touches kubeNodes) (touches kubeNodes)) (f <$> kubeNodes)) as Hf.
  { apply Forall_fmap, Forall_forall. intros n Hin. by apply kubeadmConfig_within. }
  pose proof (until_error_sat _ Hf log) as H1'. rewrite E5 in H1'.
  assert (touches kubeNodes w5 log') as Hrest.
  { assert (sat (st_when (Nat.ltb 0 (length (kc_ContainerdConfigPatches (ctx_Config ctx))) ||
        Nat.ltb 0 (length (kc_ContainerdConfigPatchesJSON6902 (ctx_Config ctx))))
      (until_error (patch_containerd (ctx_Config ctx) <$> kubeNodes))) (touches kubeNodes) (touches kubeNodes)) as Hs.
    { sat_step. apply until_error_sat, Forall_fmap, Forall_forall. intros n Hin. by apply containerd_within. }
    specialize (Hs w5). by rewrite E in Hs. }
  split; [by etrans|]. exists endpoint, rootless. split_and!; [done..|]. intros n Hin.
  destruct (until_error_Ok _ _ _ Hf E5 (f n)) as (v & v' & Ev & _ & Ht); [by apply list_elem_of_fmap_2|].
  apply kubeadmConfig_Ok in Ev as (content & v1 & Eg & Hw). exists content, v, v1. split; [done|].
  destruct (transitivity Ht Hrest) as (l & -> & _). unfold wrote. apply elem_of_app. by right.
Qed.
End written.

(** *** A concrete cluster *)

Module TwoNodes.
#[global] Instance nodes : NodeHost := {|
  reply log c := match c_args c with
    | ["cat"; "/kind/version"] => ("v1.27.0", None)
    | _ => ("", None) end;
  node_IP log n := Ok ("10.1.0.2", "")
|}.
(** The template is the name of the node and the version. *)
#[global] Instance template : YamlTemplate := {|
  template_Parse source := Ok (λ d, Ok ("kind: " +:+ cd_NodeName d +:+ " " +:+ cd_KubernetesVersion d +:+ newline))
|}.
Lemma reversed (log : calls) n : rev (seq 0 n) ≡ₚ seq 0 n.
Proof. symmetry. apply Permutation_rev. Qed.
#[global] Instance order : Order := {|
  label_order := map_to_list;
  label_order_perm m := reflexivity _
|}.
#[global] Instance schedule : Schedule calls := {|
  finish log n := rev (seq 0 n);
  late log n := n;
  finish_perm := reversed
|}.

Definition cfg : Cluster :=
  mkCluster "demo" [mkNode "control-plane" "" ∅ [] [] [] []; mkNode "worker" "" ∅ [] [] [] []]
    (mkNetworking "ipv4" 0 "127.0.0.1" "10.244.0.0/16" "10.96.0.0/16" false "iptables") ∅ ∅ [] [] [] [].
Definition role_of (n : string) : res string :=
  if n =s "demo-worker" then Ok "worker" else if n =s "demo-control-plane" then Ok "control-plane" else Ok "none".
Definition ctx : ActionContext :=
  mkActionContext cfg (Ok ["demo-control-plane"; "demo-worker"]) (Ok false) (Ok "demo-control-plane:6443") "docker" role_of.
End TwoNodes.

Lemma config_written_witness :
  ∃ content, wrote (snd (config_Execute TwoNodes.ctx [])) "demo-worker" content.
Proof.
  assert (config_Execute TwoNodes.ctx [] =
    (Ok tt, snd (config_Execute TwoNodes.ctx []))) as E by (vm_compute; reflexivity).
  destruct (config_written TwoNodes.ctx [] _ ["demo-control-plane"; "demo-worker"] ["demo-control-plane"; "demo-worker"]
    eq_refl eq_refl E) as [_ (endpoint & rootless & _ & _ & Hw)].
  destruct (Hw "demo-worker") as (content & v & v' & _ & Hc); [apply list_elem_of_further, list_elem_of_here|].
  exists content. exact Hc.
Defined.
