(* ===== verification/KubeActions.v ===== *)
(** * The actions that set Kubernetes up on the local cluster

    src/pkg/cluster/internal/create/actions/ (loadbalancer, kubeadminit, installcni,
    installstorage, kubeadmjoin, waitforready), the configuration of the load balancer
    (src/pkg/cluster/internal/loadbalancer/config.go) and the kubeconfig of a node
    (src/pkg/cluster/internal/kubeconfig/kubeconfig.go).  Status lines and logging are
    left out.  Shown: initialising and joining runs kubeadm once on every node, the
    control plane first; the waiting for the control plane nodes ends, and what it says when
    it does. *)

From S2P Require Import Prelude State Concurrent GoStr Exec Version KindConfig Nodes NodeCommands Patch Kubeadm NodeConfig.
Local Open Scope Z_scope.
Local Open Scope go_scope.
Local Open Scope stdpp_scope.

(** ** The load balancer *)

Record LBConfigData := mkLBConfigData { lb_ControlPlanePort : Z; lb_BackendServers : gmap string string; lb_IPv6 : bool }.

Definition lines_of (l : list string) : string := Join ((λ x, x +:+ newline) <$> l) "".

(** [DefaultConfigTemplate], executed; a map is ranged over in the order of its keys. *)
Definition server_line (ipv6 : bool) (m : gmap string string) (server : string) : string :=
  newline +:+ "  server " +:+ server +:+ " " +:+ default "" (m !! server) +:+
  " check check-ssl verify none resolvers docker resolve-prefer " +:+ (if ipv6 then "ipv6" else "ipv4").
Definition loadbalancer_Config (data : LBConfigData) : string :=
  lines_of ["# generated by kind"; "global"; "  log /dev/log local0"; "  log /dev/log local1 notice"; "  daemon"; "";
    "resolvers docker"; "  nameserver dns 127.0.0.11:53"; "";
    "defaults"; "  log global"; "  mode tcp"; "  option dontlognull"; "  # TODO: tune these"; "  timeout connect 5000";
    "  timeout client 50000"; "  timeout server 50000"; "  # allow to boot despite dns don't resolve backends";
    "  default-server init-addr none"; "";
    "frontend control-plane"; "  bind *:" +:+ Itoa (lb_ControlPlanePort data)] +:+
  "  " +:+ (if lb_IPv6 data then "bind :::" +:+ Itoa (lb_ControlPlanePort data) +:+ ";" else "") +:+ newline +:+
  lines_of ["  default_backend kube-apiservers"; ""; "backend kube-apiservers"; "  option httpchk GET /healthz";
    "  # TODO: we should be verifying (!)"] +:+
  "  " +:+ Join (server_line (lb_IPv6 data) (lb_BackendServers data) <$> sorted_keys (lb_BackendServers data)) "" +:+ newline.

Definition ConfigPath : string := "/usr/local/etc/haproxy/haproxy.cfg".

Section actions.
Context `{NodeHost, Schedule calls}.

Definition backends (controlPlaneNodes : list string) : gmap string string :=
  list_to_map ((λ n, (n, n +:+ ":" +:+ Itoa APIServerInternalPort)) <$> controlPlaneNodes).

Definition loadbalancer_Execute (ctx : ActionContext) : st calls unit :=
  allNodes ← pure (ctx_Nodes ctx);
  loadBalancerNode ← pure (ExternalLoadBalancerNode (ctx_Role ctx) allNodes);
  match loadBalancerNode with
  | None => mret tt
  | Some node =>
      controlPlaneNodes ← pure (SelectNodesByRole (ctx_Role ctx) allNodes ControlPlaneNodeRoleValue);
      let loadbalancerConfig := loadbalancer_Config (mkLBConfigData APIServerInternalPort (backends controlPlaneNodes)
        (nt_IPFamily (kc_Networking (ctx_Config ctx)) =s IPv6Family)) in
      st_wrap "failed to copy loadbalancer config to node" (WriteFile node ConfigPath loadbalancerConfig) ;;
      st_wrap "failed to reload loadbalancer" (node_do node ["kill"; "-s"; "HUP"; "1"] None)
  end.

(** ** kubeadm init *)

Definition copied_files : list string :=
  ["/etc/kubernetes/admin.conf";
   "/etc/kubernetes/pki/ca.crt"; "/etc/kubernetes/pki/ca.key";
   "/etc/kubernetes/pki/front-proxy-ca.crt"; "/etc/kubernetes/pki/front-proxy-ca.key";
   "/etc/kubernetes/pki/sa.pub"; "/etc/kubernetes/pki/sa.key";
   "/etc/kubernetes/pki/etcd/ca.crt"; "/etc/kubernetes/pki/etcd/ca.key"].

Definition init_args (skipKubeProxy : bool) : list string :=
  ["kubeadm"; "init"; "--skip-phases=preflight" +:+ (if skipKubeProxy then ",addon/kube-proxy" else "");
   "--config=/kind/kubeadm.conf"; "--skip-token-print"; "--v=6"].

(** The taints that are removed, by the version. *)
Definition taints_of (rawVersion : string) : res (list string) :=
  kubeVersion ← errors_Wrap "could not parse Kubernetes version" (ParseSemantic rawVersion);
  v24 ← MustParseSemantic "v1.24.0-alpha.1.592+370031cadac624";
  v25 ← MustParseSemantic "v1.25.0-alpha.0.557+84c8afeba39ec9";
  Ok (if LessThan kubeVersion v24 then ["node-role.kubernetes.io/master-"]
      else if LessThan kubeVersion v25 then ["node-role.kubernetes.io/control-plane-"; "node-role.kubernetes.io/master-"]
      else ["node-role.kubernetes.io/control-plane-"]).

Definition remove_taint (node : string) : st calls unit :=
  rawVersion ← st_wrap "failed to get Kubernetes version from node" (KubeVersion node);
  taints ← pure (taints_of rawVersion);
  st_wrap "failed to remove control plane taint"
    (node_do node (["kubectl"; "--kubeconfig=/etc/kubernetes/admin.conf"; "taint"; "nodes"; "--all"] ++ taints) None).

Definition copy_certificates (node otherNode : string) : st calls unit :=
  st_each (λ file, st_wrap "failed to copy admin kubeconfig" (CopyNodeToNode node otherNode file)) copied_files.

Definition kubeadminit_Execute (cfg : Cluster) (ctx : ActionContext) : st calls unit :=
  allNodes ← pure (ctx_Nodes ctx);
  node ← pure (BootstrapControlPlaneNode (ctx_Role ctx) allNodes);
  let skipKubeProxy := nt_KubeProxyMode (kc_Networking cfg) =s NoneProxyMode in
  st_wrap "failed to init node with kubeadm" (node_do node (init_args skipKubeProxy) None) ;;
  otherControlPlanes ← pure (SecondaryControlPlaneNodes (ctx_Role ctx) allNodes);
  st_each (copy_certificates node) otherControlPlanes ;;
  st_when (Nat.eqb (length allNodes) 1) (remove_taint node).

(** ** kubeadm join *)

Definition join_args : list string :=
  ["kubeadm"; "join"; "--config"; "/kind/kubeadm.conf"; "--skip-phases=preflight"; "--v=6"].
Definition runKubeadmJoin (node : string) : st calls unit :=
  st_wrap "failed to join node with kubeadm" (node_do node join_args None).
Definition joinSecondaryControlPlanes (secondaryControlPlanes : list string) : st calls unit :=
  st_each runKubeadmJoin secondaryControlPlanes.
Definition joinWorkers (workers : list string) : st calls unit :=
  until_error (runKubeadmJoin <$> workers).

Definition kubeadmjoin_Execute (ctx : ActionContext) : st calls unit :=
  allNodes ← pure (ctx_Nodes ctx);
  secondaryControlPlanes ← pure (SecondaryControlPlaneNodes (ctx_Role ctx) allNodes);
  st_when (Nat.ltb 0 (length secondaryControlPlanes)) (joinSecondaryControlPlanes secondaryControlPlanes) ;;
  workers ← pure (SelectNodesByRole (ctx_Role ctx) allNodes WorkerNodeRoleValue);
  st_when (Nat.ltb 0 (length workers)) (joinWorkers workers).

(** ** The network plugin and the storage class *)

Context `{PatchLibs}.
(** github.com/google/safetext/yamltemplate, with the subnet of the pods. *)
Class CniTemplate := { cni_Parse : string → res (string → res string) }.
Context `{CniTemplate}.

Definition template_cni (ctx : ActionContext) (manifest : string) : res string :=
  if Contains manifest "would you kindly template this file" then
    t ← errors_Wrap "failed to parse CNI manifest template" (cni_Parse manifest);
    errors_Wrap "failed to execute CNI manifest template" (t (nt_PodSubnet (kc_Networking (ctx_Config ctx))))
  else Ok manifest.

Definition endpoint_patch (controlPlaneEndpoint : string) : PatchJSON6902 :=
  mkPatchJSON6902 "apps" "v1" "DaemonSet"
    (newline +:+ lines_of ["- op: add"; "  path: /spec/template/spec/containers/0/env/-"; "  value:";
       "    name: CONTROL_PLANE_ENDPOINT"] +:+ "    value: " +:+ controlPlaneEndpoint).
Definition patch_cni (ctx : ActionContext) (manifest : string) : res string :=
  if Contains manifest "would you kindly patch this file" then
    controlPlaneEndpoint ← ctx_InternalEndpoint ctx;
    KubeYAML manifest [] [endpoint_patch controlPlaneEndpoint]
  else Ok manifest.

Definition installcni_Execute (ctx : ActionContext) : st calls unit :=
  allNodes ← pure (ctx_Nodes ctx);
  controlPlanes ← pure (ControlPlaneNodes (ctx_Role ctx) allNodes);
  node ← pure (index controlPlanes 0);
  manifest ← st_wrap "failed to read CNI manifest" (node_run node ["cat"; "/kind/manifests/default-cni.yaml"] None);
  manifest ← pure (template_cni ctx manifest);
  manifest ← pure (patch_cni ctx manifest);
  st_wrap "failed to apply overlay network"
    (node_do node ["kubectl"; "create"; "--kubeconfig=/etc/kubernetes/admin.conf"; "-f"; "-"] (Some manifest)).

Definition defaultStorageManifest : string := js "# host-path based default storage class
apiVersion: storage.k8s.io/v1
kind: StorageClass
metadata:
  namespace: kube-system
  name: standard
  annotations:
    storageclass.kubernetes.io/is-default-class: `true`
provisioner: kubernetes.io/host-path".

Definition addDefaultStorage (controlPlane : string) : st calls unit :=
  raw ← try_ (node_run controlPlane ["cat"; "/kind/manifests/default-storage.yaml"] None);
  let manifest := match raw with Ok m => m | _ => defaultStorageManifest end in
  node_do controlPlane ["kubectl"; "--kubeconfig=/etc/kubernetes/admin.conf"; "apply"; "-f"; "-"] (Some manifest).

Definition installstorage_Execute (ctx : ActionContext) : st calls unit :=
  allNodes ← pure (ctx_Nodes ctx);
  controlPlanes ← pure (ControlPlaneNodes (ctx_Role ctx) allNodes);
  node ← pure (index controlPlanes 0);
  st_wrap "failed to add default storage class" (addDefaultStorage node).

(** ** Waiting *)

(** [time.Now()], in nanoseconds. *)
Class Clock := { now : calls → Z }.
Context `{Clock}.

Definition status_args (selectorLabel : string) : list string :=
  ["kubectl"; "--kubeconfig=/etc/kubernetes/admin.conf"; "get"; "nodes"; "--selector=" +:+ selectorLabel;
   "-o=jsonpath='{.items..status.conditions[-1:].status}'"].

(** [strings.Fields], of an ASCII text. *)
Definition is_space_byte (c : Ascii.ascii) : bool := in_rng 9 13 (byte_code c) || (byte_code c =? 32).
Fixpoint fields_from (s field : string) : list string :=
  match s with
  | "" => if field =s "" then [] else [string_rev field]
  | String c s =>
      if is_space_byte c then if field =s "" then fields_from s "" else string_rev field :: fields_from s ""
      else fields_from s (String c field)
  end.
Definition Fields (s : string) : list string := fields_from s "".

(** The function that is tried. *)
Definition all_ready (node selectorLabel : string) : st calls bool :=
  lines ← try_ (OutputLines node (status_args selectorLabel));
  match lines with
  | Ok lines =>
      line ← pure (index lines 0);
      mret (forallb (λ s, Contains s "True") (Fields line))
  | _ => mret false
  end.

(** [fuel] bounds the rounds: [None] when it runs out. *)
Fixpoint tryUntil (fuel : nat) (until : Z) (try : st calls bool) : st calls (option bool) :=
  match fuel with
  | O => mret None
  | S fuel =>
      t ← get now;
      if t <? until then r ← try; if (r : bool) then mret (Some true) else tryUntil fuel until try
      else mret (Some false)
  end.

(** No round takes less than a nanosecond. *)
Definition rounds (until start : Z) : nat := S (Z.to_nat (until - start)).

Definition selector_of (rawVersion : string) : res string :=
  kubeVersion ← errors_Wrap "could not parse Kubernetes version" (ParseSemantic rawVersion);
  v24 ← MustParseSemantic "v1.24.0-alpha.1.591+a3d5e5598290df";
  Ok (if LessThan kubeVersion v24 then "node-role.kubernetes.io/master" else "node-role.kubernetes.io/control-plane").

(** The result says whether the nodes were ready in time; the action succeeds anyway. *)
Definition waitforready_Execute (waitTime : Z) (ctx : ActionContext) : st calls (option bool) :=
  if waitTime =? 0 then mret (Some true) else
  allNodes ← pure (ctx_Nodes ctx);
  controlPlanes ← pure (ControlPlaneNodes (ctx_Role ctx) allNodes);
  node ← pure (index controlPlanes 0);
  startTime ← get now;
  rawVersion ← st_wrap "failed to get Kubernetes version from node" (KubeVersion node);
  selectorLabel ← pure (selector_of rawVersion);
  tryUntil (rounds (startTime + waitTime) startTime) (startTime + waitTime) (all_ready node selectorLabel).
End actions.

(** ** What kubeadm does, and when *)

Definition is_kubeadm (x : call * option string) : bool := hd "" (c_args x.1) =s "kubeadm".
(** The runs of kubeadm, the oldest first: the node, the arguments and the error. *)
Definition kubeadm_runs (log : calls) : list (string * list string * option string) :=
  (λ x, (c_node x.1, c_args x.1, x.2)) <$> List.filter is_kubeadm (rev log).

Definition ran (l : list (string * list string * option string)) : relation calls :=
  λ w w', kubeadm_runs w' = kubeadm_runs w ++ l.
#[export] Instance ran_nil_preorder : PreOrder (ran []).
Proof. unfold ran. split; intros w *; [by rewrite app_nil_r|]. intros -> ->. by rewrite !app_nil_r. Qed.

Lemma ran_app l1 l2 w1 w2 w3 : ran l1 w1 w2 → ran l2 w2 w3 → ran (l1 ++ l2) w1 w3.
Proof. unfold ran. intros -> ->. by rewrite app_assoc. Qed.

Lemma ran_cons c err w : ran (if is_kubeadm (c, err) then [(c_node c, c_args c, err)] else []) w ((c, err) :: w).
Proof.
  unfold ran, kubeadm_runs. simpl. rewrite List.filter_app, fmap_app. simpl.
  by destruct (is_kubeadm (c, err)).
Qed.

Section runs.
Context `{NodeHost, Schedule calls, PatchLibs, CniTemplate}.
Abbreviation quiet m := (sat m (ran []) (ran [])).

Lemma run_quiet n args stdin : hd "" args ≠ "kubeadm" → quiet (node_run n args stdin).
Proof.
  intros Ha. apply sat_always. intros w r w' E. unfold node_run in E.
  destruct (reply w (mkCall n args stdin)) as [out err]. injection E as _ <-.
  pose proof (ran_cons (mkCall n args stdin) err w) as Hr. unfold is_kubeadm in Hr. simpl in Hr.
  by rewrite (proj2 (String.eqb_neq _ _) Ha) in Hr.
Qed.
Lemma do_quiet n args stdin : hd "" args ≠ "kubeadm" → quiet (node_do n args stdin).
Proof. intros Ha. unfold node_do. repeat sat_step. by apply run_quiet. Qed.
Lemma KubeVersion_quiet n : quiet (KubeVersion n).
Proof. unfold KubeVersion, OutputLines. repeat sat_step. by apply run_quiet. Qed.
Lemma copy_quiet a b : quiet (copy_certificates a b).
Proof.
  unfold copy_certificates, CopyNodeToNode. repeat sat_step; by (apply run_quiet || apply do_quiet).
Qed.
Lemma taint_quiet n : quiet (remove_taint n).
Proof. unfold remove_taint. repeat (sat_step || by apply KubeVersion_quiet). by apply do_quiet. Qed.
Lemma installcni_quiet ctx : quiet (installcni_Execute ctx).
Proof. unfold installcni_Execute. repeat sat_step; by (apply run_quiet || apply do_quiet). Qed.
Lemma installstorage_quiet ctx : quiet (installstorage_Execute ctx).
Proof.
  unfold installstorage_Execute, addDefaultStorage. repeat sat_step; [|by apply do_quiet].
  intros w. pose proof (run_quiet a1 ["cat"; "/kind/manifests/default-storage.yaml"] None ltac:(done) w) as Hr.
  unfold try_. by destruct (node_run _ _ _ w) as [[]].
Qed.

Lemma quiet_Ok {A} (m : st calls A) w a w' : quiet m → m w = (Ok a, w') → ran [] w w'.
Proof. intros Hm E. by apply (sat_Ok m w a w' Hm). Qed.

Definition joined (n : string) : string * list string * option string := (n, join_args, None).

Lemma join_Ok n w w' : runKubeadmJoin n w = (Ok tt, w') → ran [joined n] w w'.
Proof.
  unfold runKubeadmJoin. intros E%st_wrap_Ok%node_do_Ok. rewrite E. apply (ran_cons (mkCall n join_args None) None).
Qed.

Lemma joins_Ok l w w' : st_each runKubeadmJoin l w = (Ok tt, w') → ran (joined <$> l) w w'.
Proof.
  revert w. induction l as [|n l IH]; intros w E; simpl in E.
  - injection E as <-. reflexivity.
  - apply st_bind_Ok in E as ([] & v & Ev & E). apply (ran_app [joined n]) with v; [by apply join_Ok|by apply IH].
Qed.

Lemma until_first_joins l w running w' : until_first runKubeadmJoin l w = (Ok tt, running, w') → ran (joined <$> l) w w'.
Proof.
  revert w. induction l as [|n l IH]; intros w; cbn [until_first]; [by intros [= _ <-]|].
  destruct (runKubeadmJoin n w) as [[[]|e|x] v] eqn:En; [|done..]. intros E%IH.
  apply (ran_app [joined n]) with v; [by apply join_Ok|done].
Qed.

Lemma joinWorkers_Ok workers w w' : joinWorkers workers w = (Ok tt, w') →
  ∃ l, l ≡ₚ workers ∧ ran (joined <$> l) w w'.
Proof.
  unfold joinWorkers. rewrite until_error_fmap. unfold at_once. intros E.
  exists (omap (workers !!.) (finish w (length workers))). split; [apply select_perm, finish_perm|].
  destruct (until_first _ _ w) as [[r running] w1] eqn:E1. injection E as -> <-.
  assert (running = []) as -> by (eapply until_first_none; exact E1).
  rewrite take_nil. by apply until_first_joins in E1.
Qed.
End runs.

Section setup.
Context `{NodeHost, Schedule calls, PatchLibs, CniTemplate}.

(** The actions between the configuration of the nodes and the waiting, in the order of
    [Create.actionsToRun]. *)
Definition set_up (cfg : Cluster) (ctx : ActionContext) : st calls unit :=
  kubeadminit_Execute cfg ctx ;;
  st_when (negb (nt_DisableDefaultCNI (kc_Networking cfg))) (installcni_Execute ctx) ;;
  installstorage_Execute ctx ;;
  kubeadmjoin_Execute ctx.

Lemma init_Ok cfg ctx allNodes w w' : ctx_Nodes ctx = Ok allNodes → kubeadminit_Execute cfg ctx w = (Ok tt, w') →
  ∃ first rest, ControlPlaneNodes (ctx_Role ctx) allNodes = Ok (first :: rest) ∧
    ran [(first, init_args (nt_KubeProxyMode (kc_Networking cfg) =s NoneProxyMode), None)] w w'.
Proof.
  intros Hn E. unfold kubeadminit_Execute in E. rewrite Hn in E.
  apply st_bind_Ok in E as (nodes & w1 & E1 & E). injection E1 as <- <-.
  apply st_bind_Ok in E as (node & w2 & E2 & E). injection E2 as E2 <-.
  unfold BootstrapControlPlaneNode in E2. apply bind_Ok_iff in E2 as (cps & Hcp & E2).
  apply bind_unit_Ok in E2 as [_ E2]. destruct cps as [|first rest]; [done|]. injection E2 as <-. exists first, rest.
  split; [done|]. apply st_bind_Ok in E as ([] & w3 & E3 & E). apply st_wrap_Ok, node_do_Ok in E3.
  assert (ran [] w3 w') as Hq; [|pose proof (ran_app _ _ _ _ _ (ran_cons (mkCall first (init_args _) None) None w)
    (eq_ind _ (λ v, ran [] v w') Hq _ E3)) as Hr; exact Hr].
  - revert E. apply quiet_Ok. repeat sat_step; [apply copy_quiet|apply taint_quiet].
Qed.

Lemma join_action_Ok ctx allNodes first rest w w' : ctx_Nodes ctx = Ok allNodes →
  ControlPlaneNodes (ctx_Role ctx) allNodes = Ok (first :: rest) → kubeadmjoin_Execute ctx w = (Ok tt, w') →
  ∃ workers order, SelectNodesByRole (ctx_Role ctx) allNodes WorkerNodeRoleValue = Ok workers ∧ order ≡ₚ workers ∧
    ran (joined <$> rest ++ order) w w'.
Proof.
  intros Hn Hcp E. unfold kubeadmjoin_Execute in E. rewrite Hn in E.
  apply st_bind_Ok in E as (nodes & w1 & E1 & E). injection E1 as <- <-.
  apply st_bind_Ok in E as (sec & w2 & E2 & E). injection E2 as E2 <-.
  unfold SecondaryControlPlaneNodes in E2. rewrite Hcp in E2. simpl in E2. injection E2 as <-.
  apply st_bind_Ok in E as ([] & w3 & E3 & E).
  apply st_bind_Ok in E as (workers & w4 & E4 & E). injection E4 as E4 <-. exists workers.
  assert (ran (joined <$> rest) w w3) as Hrest.
  { destruct rest as [|n rest]; simpl in E3; [injection E3 as <-; reflexivity|by apply joins_Ok in E3]. }
  assert (∃ order, order ≡ₚ workers ∧ ran (joined <$> order) w3 w') as (order & Hp & Ho).
  { destruct workers as [|n workers]; simpl in E; [injection E as <-; by exists []|by apply joinWorkers_Ok in E]. }
  exists order. split_and!; [done..|]. rewrite fmap_app. by eapply ran_app.
Qed.

(** C23. When Kubernetes is set up, kubeadm has run once on every node, and without an
    error: first it initialised the first control plane node, then the other control
    plane nodes joined one after the other in the order of their names, then the workers
    in some order. *)
Theorem kubeadm_on_every_node cfg ctx allNodes w w' :
  ctx_Nodes ctx = Ok allNodes → set_up cfg ctx w = (Ok tt, w') →
  ∃ first rest workers order,
    ControlPlaneNodes (ctx_Role ctx) allNodes = Ok (first :: rest) ∧
    SelectNodesByRole (ctx_Role ctx) allNodes WorkerNodeRoleValue = Ok workers ∧ order ≡ₚ workers ∧
    kubeadm_runs w' = kubeadm_runs w ++
      (first, init_args (nt_KubeProxyMode (kc_Networking cfg) =s NoneProxyMode), None) ::
      ((λ n, (n, join_args, None)) <$> rest ++ order).
Proof.
  intros Hn E. unfold set_up in E. apply st_bind_Ok in E as ([] & w1 & E1 & E).
  destruct (init_Ok _ _ _ _ _ Hn E1) as (first & rest & Hcp & Hinit).
  apply st_bind_Ok in E as ([] & w2 & E2 & E). apply st_bind_Ok in E as ([] & w3 & E3 & E).
  destruct (join_action_Ok _ _ _ _ _ _ Hn Hcp E) as (workers & order & Hw & Hp & Hjoin).
  exists first, rest, workers, order. split_and!; [done..|].
  assert (ran [] w1 w3) as Hq.
  { transitivity w2; [revert E2; apply quiet_Ok|revert E3; apply quiet_Ok, installstorage_quiet].
    sat_step. apply installcni_quiet. }
  exact (ran_app _ _ _ _ _ Hinit (ran_app [] _ _ _ _ Hq Hjoin)).
Qed.
End setup.

(** ** Waiting ends *)

(** A command takes at least a nanosecond. *)
Class ClockLaws `{Clock} := { now_later x log : now log + 1 <= now (x :: log) }.

Section waiting.
Context `{NodeHost, ClockLaws}.

(** The last call of [log] asked for the states of the nodes, and all were ready. *)
Definition seen_ready (node selectorLabel : string) (log : calls) : Prop :=
  ∃ before out line lines, log = (mkCall node (status_args selectorLabel) None, None) :: before ∧
    reply before (mkCall node (status_args selectorLabel) None) = (out, None) ∧
    scan_lines out = line :: lines ∧ Forall (λ s, Contains s "True" = true) (Fields line).

Lemma all_ready_run node sel w b w' : all_ready node sel w = (Ok b, w') →
  (∃ err, w' = (mkCall node (status_args sel) None, err) :: w) ∧ (b = true → seen_ready node sel w').
Proof.
  unfold all_ready, OutputLines, node_run. intros E.
  apply st_bind_Ok in E as (r & v & Er & E). unfold try_, mbind, st_bind in Er.
  destruct (reply w (mkCall node (status_args sel) None)) as [out err] eqn:Hr.
  destruct err as [e|]; injection Er as <- <-.
  - injection E as <- <-. split; [by eexists|done].
  - apply st_bind_Ok in E as (line & v & Ev & E). injection Ev as Ev <-. injection E as <- <-. split; [by eexists|].
    intros Hb. destruct (scan_lines out) as [|x lines] eqn:Hl; [done|]. injection Ev as ->.
    exists w, out, line, lines. split_and!; [done..|]. apply Forall_forall. intros s Hs.
    rewrite forallb_forall in Hb. by apply Hb, list_elem_of_In.
Qed.

Lemma tryUntil_ends fuel until node sel w o w' : (Z.to_nat (until - now w) < fuel)%nat →
  tryUntil fuel until (all_ready node sel) w = (Ok o, w') →
  (o = Some true ∧ seen_ready node sel w') ∨ (o = Some false ∧ until <= now w').
Proof.
  revert w. induction fuel as [|fuel IH]; intros w Hf E; [lia|]. simpl in E.
  apply st_bind_Ok in E as (t & v & Et & E). injection Et as <- <-.
  destruct (Z.ltb_spec (now w) until) as [Hlt|Hge].
  - apply st_bind_Ok in E as (b & v & Eb & E). apply all_ready_run in Eb as [[err ->] Hb]. destruct b.
    + injection E as <- <-. left. split; [done|by apply Hb].
    + apply IH in E; [done|]. pose proof (now_later (mkCall node (status_args sel) None, err) w). lia.
  - injection E as <- <-. by right.
Qed.

Lemma KubeVersion_now n w v w' : KubeVersion n w = (Ok v, w') → now w <= now w'.
Proof.
  intros E. assert (sat (KubeVersion n) (λ w w', now w <= now w') (λ w w', now w <= now w')) as Hs.
  { assert (PreOrder (λ w w', now w <= now w')) by (split; intros ? *; lia).
    unfold KubeVersion, OutputLines. repeat sat_step. apply sat_always. intros u r u' Er. unfold node_run in Er.
    destruct (reply u _) as [out err]. injection Er as _ <-.
    match goal with |- now u <= now (?x :: u) => pose proof (now_later x u) end. lia. }
  specialize (Hs w). by rewrite E in Hs.
Qed.

(** C29. The waiting ends by itself.  The node that is asked is the first control plane, and
    it is asked for the nodes that have the label of control planes, which before 1.24 was
    that of masters; other nodes are not waited for.  They are said to be ready only when the
    last answer said so of each that it lists; and not to be only when the time has passed. *)
Theorem waiting_ends waitTime ctx w o w' : waitTime ≠ 0 → waitforready_Execute waitTime ctx w = (Ok o, w') →
  ∃ nodes node others raw version v24 w1, ctx_Nodes ctx = Ok nodes ∧
    ControlPlaneNodes (ctx_Role ctx) nodes = Ok (node :: others) ∧ KubeVersion node w = (Ok raw, w1) ∧
    ParseSemantic raw = Ok version ∧ ParseSemantic "v1.24.0-alpha.1.591+a3d5e5598290df" = Ok v24 ∧
    let label := if LessThan version v24 then "node-role.kubernetes.io/master" else "node-role.kubernetes.io/control-plane" in
    let query := mkCall node ["kubectl"; "--kubeconfig=/etc/kubernetes/admin.conf"; "get"; "nodes"; "--selector=" +:+ label;
      "-o=jsonpath='{.items..status.conditions[-1:].status}'"] None in
    (o = Some true ∧ ∃ before out line lines, w' = (query, None) :: before ∧ reply before query = (out, None) ∧
       scan_lines out = line :: lines ∧ Forall (λ s, Contains s "True" = true) (Fields line)) ∨
    (o = Some false ∧ now w + waitTime <= now w').
Proof.
  intros Hw E. unfold waitforready_Execute in E. rewrite (proj2 (Z.eqb_neq _ _) Hw) in E.
  apply st_bind_Ok in E as (nodes & w1 & E1 & E). injection E1 as E1 <-.
  apply st_bind_Ok in E as (cps & w2 & E2 & E). injection E2 as E2 <-.
  apply st_bind_Ok in E as (node & w3 & E3 & E). injection E3 as E3 <-.
  destruct cps as [|first others]; [done|]. injection E3 as ->.
  apply st_bind_Ok in E as (t & w4 & E4 & E). injection E4 as <- <-.
  apply st_bind_Ok in E as (raw & w5 & E5%st_wrap_Ok & E). pose proof (KubeVersion_now _ _ _ _ E5) as Hnow.
  apply st_bind_Ok in E as (sel & w6 & E6 & E). injection E6 as E6 <-. unfold selector_of in E6.
  apply bind_Ok_iff in E6 as (version & Ev%errors_Wrap_Ok_iff & (v24 & E24 & <-%Ok_inj)%bind_Ok_iff).
  exists nodes, node, others, raw, version, v24, w5. do 4 (split; [done|]).
  split; [revert E24; unfold MustParseSemantic, must_parse; by destruct (ParseSemantic _)|]. cbv zeta.
  apply tryUntil_ends in E; [|unfold rounds; lia].
  destruct E as [[-> Hs]|[-> Hn]]; [by left|right; split; [done|lia]].
Qed.
End waiting.

(** An answer without a line is not expected: the index of its first line is out of range. *)
Lemma empty_answer_panics `{NodeHost} node sel w :
  reply w (mkCall node (status_args sel) None) = ("", None) → is_Panic (fst (all_ready node sel w)) = true.
Proof.
  intros Hr. unfold all_ready, OutputLines, node_run, try_, mbind, st_bind. by rewrite Hr.
Qed.

(** *** A concrete cluster *)

Module FourNodes.
#[global] Instance nodes : NodeHost := {|
  reply log c := match c_args c with
    | ["cat"; "/kind/version"] => ("v1.27.0", None)
    | "kubectl" :: _ :: "get" :: _ => if Nat.ltb 3 (length log) then ("'True True'", None) else ("'True False'", None)
    | _ => ("", None) end;
  node_IP log n := Ok ("10.1.0.2", "")
|}.
#[global] Instance template : CniTemplate := {| cni_Parse m := Ok (λ _, Ok m) |}.
#[global] Instance clock : Clock := {| now log := Z.of_nat (length log) |}.
#[global] Instance clock_laws : ClockLaws.
Proof. split. intros x log. simpl. lia. Defined.

Definition all : list string := ["demo-worker"; "demo-control-plane2"; "demo-worker2"; "demo-control-plane"].
Definition role_of (n : string) : res string := if HasPrefix n "demo-worker" then Ok "worker" else Ok "control-plane".
Definition ctx : ActionContext :=
  mkActionContext TwoNodes.cfg (Ok all) (Ok false) (Ok "demo-external-load-balancer:6443") "docker" role_of.
End FourNodes.

Lemma kubeadm_on_every_node_witness :
  length (kubeadm_runs (snd (set_up (H := FourNodes.nodes) TwoNodes.cfg FourNodes.ctx []))) = 4%nat.
Proof.
  assert (set_up (H := FourNodes.nodes) TwoNodes.cfg FourNodes.ctx [] =
    (Ok tt, snd (set_up (H := FourNodes.nodes) TwoNodes.cfg FourNodes.ctx []))) as E by (vm_compute; reflexivity).
  destruct (kubeadm_on_every_node TwoNodes.cfg FourNodes.ctx FourNodes.all [] _ eq_refl E) as (first & rest & workers & order & Hc & Hw & Hp & Hr).
  rewrite Hr. assert (ControlPlaneNodes FourNodes.role_of FourNodes.all = Ok ["demo-control-plane"; "demo-control-plane2"]) as E1
    by (vm_compute; reflexivity).
  assert (SelectNodesByRole FourNodes.role_of FourNodes.all WorkerNodeRoleValue = Ok ["demo-worker"; "demo-worker2"]) as E2
    by (vm_compute; reflexivity).
  change (ctx_Role FourNodes.ctx) with FourNodes.role_of in Hc, Hw. rewrite E1 in Hc. rewrite E2 in Hw.
  injection Hc as <- <-. injection Hw as <-. simpl. by rewrite length_fmap, Hp.
Defined.

Lemma waiting_ends_witness :
  let w' := snd (waitforready_Execute (H := FourNodes.nodes) 100 FourNodes.ctx []) in
  ∃ before out line lines, let query := mkCall "demo-control-plane" ["kubectl"; "--kubeconfig=/etc/kubernetes/admin.conf"; "get"; "nodes";
      "--selector=node-role.kubernetes.io/control-plane"; "-o=jsonpath='{.items..status.conditions[-1:].status}'"] None in
    w' = (query, None) :: before ∧ @reply FourNodes.nodes before query = (out, None) ∧
    scan_lines out = line :: lines ∧ Forall (λ s, Contains s "True" = true) (Fields line).
Proof.
  intros w'.
  assert (waitforready_Execute (H := FourNodes.nodes) 100 FourNodes.ctx [] = (Ok (Some true), w')) as E by (vm_compute; reflexivity).
  destruct (waiting_ends (H := FourNodes.nodes) 100 FourNodes.ctx _ _ _ ltac:(discriminate) E)
    as (nodes & node & others & raw & version & v24 & w1 & Hn & Hc & Hv & Hp & H24 & [[_ Hs]|[Hf _]]); [|discriminate Hf].
  injection Hn as <-. vm_compute in Hc. injection Hc as <- _. vm_compute in Hv. injection Hv as <- _.
  vm_compute in Hp, H24. injection Hp as <-. injection H24 as <-. exact Hs.
Defined.
