(* ===== verification/Runtime.v ===== *)
(** * The container runtime

    What the two node providers have in common: the commands of docker and podman on the
    containers of a cluster, with the name of the program as a parameter
    (src/pkg/cluster/internal/providers/{docker,podman}/node.go, provision.go and
    provider.go; providers/common/cgroups.go).  The class [RuntimeLaws] says what the
    commands do to the containers there are.  Shown: after a plan has been carried out
    the nodes of the cluster are the planned ones with their roles, and deleting the
    nodes that are listed leaves none. *)

From stdpp Require Import sorting.
From S2P Require Import Prelude State Concurrent GoStr Regexp Exec KindConfig Nodes Docker.
Local Open Scope Z_scope.
Local Open Scope go_scope.
Local Open Scope stdpp_scope.

(** ** Commands *)

(** Whether the deadline of the context was over when the command ended. *)
Class Deadline (W : Type) := { timed_out : list string → W → bool }.

Definition NodeReachedCgroupsReadyRegexp : regex :=
  RAlt (RSeq [RLit "Reached target "; RStar (RSet cs_dot); RLit "Multi-User System"; RStar (RSet cs_dot)])
       (RLit "detected cgroup v1").
Definition cgroups_ready_source : string := "Reached target .*Multi-User System.*|detected cgroup v1".

Section commands.
Context {W : Type} `{!HostExec W} (rt : string).

(** *** node.go *)

Definition rt_label_format (key : string) : string := js "{{ index .Config.Labels `" +:+ key +:+ js "`}}".
Definition rt_Role (n : string) : st W string :=
  lines ← st_wrap "failed to get role for node"
            (host_OutputLines [rt; "inspect"; "--format"; rt_label_format nodeRoleLabelKey; n]);
  pure (fail_when (negb (Nat.eqb (length lines) 1))
    ("failed to get role for node: output lines " +:+ Itoa (Z.of_nat (length lines)) +:+ " != 1")) ;;
  pure (index lines 0).

Definition rt_addresses_format : string :=
  "{{range .NetworkSettings.Networks}}{{.IPAddress}},{{.GlobalIPv6Address}}{{end}}".
Definition rt_IP (n : string) : st W (string * string) :=
  lines ← st_wrap "failed to get container details" (host_OutputLines [rt; "inspect"; "-f"; rt_addresses_format; n]);
  pure (fail_when (negb (Nat.eqb (length lines) 1))
    ("file should only be one line, got " +:+ Itoa (Z.of_nat (length lines)) +:+ " lines")) ;;
  line ← pure (index lines 0);
  match Split line "," with
  | [ip; ip6] => mret (ip, ip6)
  | ips => pure (Err ("container addresses should have 2 values, got " +:+ Itoa (Z.of_nat (length ips)) +:+ " values"))
  end.

(** The command line of a command on a node. *)
Definition rt_node_args (n : string) (env : list string) (interactive : bool) (command : list string) : list string :=
  [rt; "exec"; "--privileged"] ++ (if interactive then ["-i"] else []) ++
  concat (map (λ e, ["-e"; e]) env) ++ [n] ++ command.
Definition rt_node_Run (n : string) (env : list string) (command : list string) (stdin : option string) : st W string :=
  host_Run_with (rt_node_args n env (match stdin with Some _ => true | None => false end) command) stdin.

(** What is written, and the error. *)
Definition rt_SerialLogs (n : string) : st W (string * option string) := λ w,
  let args := [rt; "logs"; n] in
  let '(o, w) := host args None w in
  (Ok (oc_combined o, RunError_Error <$> run_error args o), w).

(** *** provider.go *)

Definition rt_ListNodes (cluster : string) : st W (list string) :=
  st_wrap "failed to list nodes"
    (host_OutputLines [rt; "ps"; "-a"; "--filter"; "label=" +:+ clusterLabelKey +:+ "=" +:+ cluster;
                       "--format"; "{{.Names}}"]).

(** [docker rm], unless there is nothing to remove. *)
Definition rt_remove (n : list string) : st W unit :=
  st_wrap "failed to delete nodes" (host_Run ([rt; "rm"; "-f"; "-v"] ++ n)).

(** The set of the names, sorted: [sets.NewString(lines...).List()]. *)
Definition rt_ListClusters (format : string) : st W (list string) :=
  lines ← st_wrap "failed to list clusters"
            (host_OutputLines [rt; "ps"; "-a"; "--filter"; "label=" +:+ clusterLabelKey; "--format"; format]);
  mret (merge_sort String.le (remove_dups lines)).

(** The functions of nodeutils ask each node for its role; the roles are those that the
    nodes have when the first is asked. *)
Definition rt_with_roles {A} (f : (string → res string) → res A) : st W A := λ w,
  (f (λ n, fst (rt_Role n w)), w).

(** [message] differs between the providers. *)
Definition rt_endpoint_node (message cluster : string) : st W string :=
  allNodes ← st_wrap "failed to list nodes" (rt_ListNodes cluster);
  st_wrap message (rt_with_roles (λ Role, APIServerEndpointNode Role allNodes)).

Definition rt_GetAPIServerInternalEndpoint (message cluster : string) : st W string :=
  n ← rt_endpoint_node message cluster;
  mret (JoinHostPort n (Itoa APIServerInternalPort)).

(** *** provision.go *)

Definition rt_createContainer (name : string) (args : list string) : st W unit :=
  host_Run ([rt; "run"; "--name"; name] ++ args).

Context `{!Deadline W}.

(** The log is read until a line matches; what the command does afterwards is of no
    interest. *)
Definition WaitUntilLogRegexpMatches (logCmd : list string) : st W unit := λ w,
  let '(o, w) := host logCmd None w in
  (if existsb (SearchString NodeReachedCgroupsReadyRegexp) (scan_lines (oc_combined o)) then Ok tt
   else match run_error logCmd o with
        | Some e => if timed_out logCmd w then Err ("could not find a log line that matches " +:+ Q cgroups_ready_source)
                    else Err ("failed to read logs: " +:+ RunError_Error e)
        | None => Err ("could not find a log line that matches " +:+ Q cgroups_ready_source)
        end, w).

Definition rt_createContainerWithWait (name : string) (args : list string) : st W unit :=
  rt_createContainer name args ;;
  WaitUntilLogRegexpMatches [rt; "logs"; "-f"; name].

(** The function planned for a container. *)
Definition rt_create (c : @container W) : st W unit :=
  args ← ct_args c;
  if ct_wait c then rt_createContainerWithWait (ct_name c) args else rt_createContainer (ct_name c) args.
End commands.

(** ** What the commands do to the containers *)

(** The flags of [run] that take the next argument; those in [--flag=value] and the
    switches take none.  The flags end at the first argument that is none: the image. *)
Definition value_flags : list string :=
  ["--label"; "--net"; "--hostname"; "--security-opt"; "--tmpfs"; "--volume"; "-e"; "--device"].
Fixpoint run_flags (args : list string) : list (string * string) :=
  match args with
  | [] => []
  | a :: rest =>
      if negb (HasPrefix a "-") then [] else
      if str_in a value_flags then match rest with [] => [] | v :: rest => (a, v) :: run_flags rest end
      else match cut_at "="%char a with Some p => p | None => (a, "") end :: run_flags rest
  end.

(** [--label key=value]; the last one of a key counts. *)
Definition add_label (m : gmap string string) (f : string * string) : gmap string string :=
  if f.1 =s "--label" then
    match cut_at "="%char f.2 with Some (k, v) => <[k := v]> m | None => <[f.2 := ""]> m end
  else m.
Definition labels_of (args : list string) : gmap string string := fold_left add_label (run_flags args) ∅.

(** A container: its name and labels. *)
Record box := mkBox { bx_name : string; bx_labels : gmap string string }.
Definition of_cluster (cluster : string) (b : box) : bool := bool_decide (bx_labels b !! clusterLabelKey = Some cluster).
Definition among (l : list string) (b : box) : bool := str_in (bx_name b) l.

(** Lines, each with its end. *)
Definition newline : string := String (Ascii.ascii_of_nat 10) "".
Definition unlines (l : list string) : string := fold_right (λ x s, x +:+ newline +:+ s) "" l.
(** Names have no end of line in them. *)
Definition plain_line (s : string) : Prop := all_chars (λ c, negb (Nat.eqb (Ascii.nat_of_ascii c) 10) && negb (Nat.eqb (Ascii.nat_of_ascii c) 13)) s = true.

(** The subcommands that neither make nor remove a container; and each program has
    containers of its own. *)
Definition quiet_commands : list string :=
  ["-v"; "--version"; "info"; "ps"; "inspect"; "logs"; "network"; "pull"; "tag"; "build"; "exec"; "login"].
Definition quiet (rt : string) (args : list string) : bool :=
  match args with
  | r :: c :: _ => if r =s rt then str_in c quiet_commands else str_in r ["docker"; "podman"]
  | _ => false
  end.

(** The volumes that are listed for a label: a line for each. *)
Definition volume_lines (output : string) : list string :=
  if output =s "" then [] else Split (TrimSuffix output newline) newline.

(** The commands of docker and of podman.  A container that cannot be started is there
    all the same; a new one is listed first.  Volumes are made and listed without an effect
    on containers, but to remove them by force removes the containers that use them; by the
    convention of the provider a volume that has the label of a node is used by that node
    only. *)
Class RuntimeLaws (W : Type) `{!HostExec W} (rt : string) := {
  boxes : W → list box;
  boxes_NoDup w : NoDup (bx_name <$> boxes w);
  boxes_plain w : Forall plain_line (bx_name <$> boxes w);
  boxes_no_eq w : Forall (λ n, ¬ char_in "=" n) (bx_name <$> boxes w);
  run_spec name args w o w' : host ([rt; "run"; "--name"; name] ++ args) None w = (o, w') →
    boxes w' = boxes w ∧ oc_error o ≠ None ∨ boxes w' = mkBox name (labels_of args) :: boxes w;
  ps_spec cluster w o w' :
    host [rt; "ps"; "-a"; "--filter"; "label=" +:+ clusterLabelKey +:+ "=" +:+ cluster; "--format"; "{{.Names}}"] None w = (o, w') →
    oc_error o = None → oc_stdout o = unlines (bx_name <$> List.filter (of_cluster cluster) (boxes w));
  rm_spec names w o w' : host ([rt; "rm"; "-f"; "-v"] ++ names) None w = (o, w') →
    ∃ gone, gone ⊆ names ∧ (oc_error o = None → gone = names) ∧
      boxes w' = List.filter (λ b, negb (among gone b)) (boxes w);
  inspect_spec w o w' b : b ∈ boxes w →
    host [rt; "inspect"; "--format"; rt_label_format nodeRoleLabelKey; bx_name b] None w = (o, w') →
    oc_error o = None → oc_stdout o = default "" (bx_labels b !! nodeRoleLabelKey) +:+ newline;
  quiet_spec args stdin w o w' : host args stdin w = (o, w') → quiet rt args = true → boxes w' = boxes w;
  volume_users : W → string → list string;
  volume_create_boxes label w o w' : host [rt; "volume"; "create"; "--label"; label] None w = (o, w') → boxes w' = boxes w;
  volume_ls_users key w o w' : ¬ char_in "=" key →
    host [rt; "volume"; "ls"; "--filter"; "label=" +:+ key; "--quiet"] None w = (o, w') →
    boxes w' = boxes w ∧ (∀ v, volume_users w' v = volume_users w v) ∧
    (oc_error o = None → ∀ v, v ∈ volume_lines (oc_stdout o) → volume_users w v ⊆ [key]);
  volume_rm_boxes names w o w' : host ([rt; "volume"; "rm"; "--force"] ++ names) None w = (o, w') →
    ∃ gone, gone ⊆ concat (map (volume_users w) names) ∧ boxes w' = List.filter (λ b, negb (among gone b)) (boxes w)
}.

(** *** The volumes of podman

    A volume has the label [key=true] for each of its keys: it is made for one node at
    most. *)
Record volume := mkVolume { vo_name : string; vo_keys : list string }.
Definition has_key (key : string) (v : volume) : bool := str_in key (vo_keys v).

(** A volume that is used by a container that is there is removed with it: [--force].
    The other commands make no volume and remove none. *)
Class VolumeLaws (W : Type) `{!HostExec W} := {
  volumes : W → list volume;
  volumes_NoDup w : NoDup (vo_name <$> volumes w);
  volumes_plain w : Forall (λ n, plain_line n ∧ n ≠ "") (vo_name <$> volumes w);
  volumes_one_key w v k1 k2 : v ∈ volumes w → has_key k1 v = true → has_key k2 v = true → k1 = k2;
  volume_create_spec key w o w' : ¬ char_in "=" key →
    host ["podman"; "volume"; "create"; "--label"; key +:+ "=true"] None w = (o, w') →
    volumes w' = volumes w ∧ oc_error o ≠ None ∨
    ∃ name, oc_error o = None ∧ oc_stdout o = name +:+ newline ∧ volumes w' = mkVolume name [key] :: volumes w;
  volume_ls_spec key w o w' : ¬ char_in "=" key →
    host ["podman"; "volume"; "ls"; "--filter"; "label=" +:+ key; "--quiet"] None w = (o, w') →
    volumes w' = volumes w ∧
    (oc_error o = None → oc_stdout o = unlines (vo_name <$> List.filter (has_key key) (volumes w)));
  volume_rm_spec names w o w' : host (["podman"; "volume"; "rm"; "--force"] ++ names) None w = (o, w') →
    ∃ gone, gone ⊆ names ∧ (oc_error o = None → gone = names) ∧
      volumes w' = List.filter (λ v, negb (str_in (vo_name v) gone)) (volumes w);
  no_volume_spec c rest stdin w o w' : host ("podman" :: c :: rest) stdin w = (o, w') → c ≠ "volume" → volumes w' = volumes w
}.
(** While podman is up, volumes can be listed, and those that are there can be removed. *)
Class VolumesUp (W : Type) `{!HostExec W} := {
  volumes_up_laws :: VolumeLaws W;
  volumes_ls_up key w o w' : ¬ char_in "=" key →
    host ["podman"; "volume"; "ls"; "--filter"; "label=" +:+ key; "--quiet"] None w = (o, w') → oc_error o = None;
  volumes_rm_up names w o w' : names ≠ [] → NoDup names → names ⊆ vo_name <$> volumes w →
    host (["podman"; "volume"; "rm"; "--force"] ++ names) None w = (o, w') → oc_error o = None
}.

(** What the provider object keeps of [info]. *)
Class ProviderCache (W : Type) := {
  p_info : W → option ProviderInfo;
  set_p_info : ProviderInfo → W → W
}.

(** *** Flags *)

(** Arguments that are flags with what they take, and the flags they are. *)
Inductive complete : list string → list (string * string) → Prop :=
| complete_nil : complete [] []
| complete_value a v args fs : str_in a value_flags = true → complete args fs → complete (a :: v :: args) ((a, v) :: fs)
| complete_switch a args fs : HasPrefix a "-" = true → str_in a value_flags = false → complete args fs →
    complete (a :: args) (match cut_at "="%char a with Some p => p | None => (a, "") end :: fs).
#[export] Hint Constructors complete : skind.

Lemma value_flag_dash a : str_in a value_flags = true → HasPrefix a "-" = true.
Proof. intros Ha%str_in_true. unfold value_flags in Ha. rewrite !elem_of_cons, elem_of_nil in Ha. naive_solver. Qed.

Lemma complete_app a fs b gs : complete a fs → complete b gs → complete (a ++ b) (fs ++ gs).
Proof. induction 1; simpl; auto with skind. Qed.

Lemma run_flags_complete a fs b : complete a fs → run_flags (a ++ b) = fs ++ run_flags b.
Proof.
  induction 1 as [|a v args fs Ha _ IH|a args fs Hd Ha _ IH]; [done| |]; cbn [run_flags app].
  - rewrite (value_flag_dash a Ha), Ha. simpl. rewrite IH. done.
  - rewrite Hd, Ha. simpl. rewrite IH. done.
Qed.

(** Flags that set no label. *)
Definition no_label (fs : list (string * string)) : Prop := Forall (λ f, f.1 ≠ "--label") fs.
Definition unlabelled (args : list string) : Prop := ∃ fs, complete args fs ∧ no_label fs.

Lemma unlabelled_nil : unlabelled [].
Proof. exists []. split; constructor. Qed.
Lemma unlabelled_app a b : unlabelled a → unlabelled b → unlabelled (a ++ b).
Proof.
  intros (fs & Hf & Hn) (gs & Hg & Hm). exists (fs ++ gs). split; [by apply complete_app|by apply Forall_app].
Qed.
Lemma unlabelled_value a v : str_in a value_flags = true → a ≠ "--label" → unlabelled [a; v].
Proof. intros Ha Hn. exists [(a, v)]. split; [by repeat constructor|by repeat constructor]. Qed.
Lemma unlabelled_if (b : bool) a : unlabelled a → unlabelled (if b then a else []).
Proof. destruct b; [done|]. intros _. apply unlabelled_nil. Qed.
Lemma unlabelled_concat l : Forall unlabelled l → unlabelled (concat l).
Proof. induction 1; simpl; [apply unlabelled_nil|by apply unlabelled_app]. Qed.
Lemma unlabelled_switches l :
  Forall (λ a, HasPrefix a "-" = true ∧ str_in a value_flags = false ∧
    (match cut_at "="%char a with Some p => p.1 | None => a end) ≠ "--label") l → unlabelled l.
Proof.
  induction 1 as [|a l (Hd & Ha & Hl) _ (fs & Hf & Hn)]; [apply unlabelled_nil|].
  eexists. split; [by constructor|]. constructor; [by destruct (cut_at _ a)|done].
Qed.
#[export] Hint Resolve unlabelled_nil unlabelled_app unlabelled_if unlabelled_concat : skind.

Lemma no_label_fold fs m : no_label fs → fold_left add_label fs m = m.
Proof.
  induction 1 as [|f fs Hf _ IH]; simpl; [done|]. unfold add_label at 2.
  by rewrite (proj2 (String.eqb_neq f.1 "--label") Hf).
Qed.

(** The labels of a node: that of its role first, that of its cluster among the common
    arguments, then the image. *)
Lemma labels_of_node args pre role mid cluster post image :
  args = pre ++ ["--label"; nodeRoleLabelKey +:+ "=" +:+ role] ++ mid ++
         ["--label"; clusterLabelKey +:+ "=" +:+ cluster] ++ post ++ [image] →
  unlabelled pre → unlabelled mid → unlabelled post → HasPrefix image "-" = false →
  labels_of args !! clusterLabelKey = Some cluster ∧ labels_of args !! nodeRoleLabelKey = Some role.
Proof.
  intros -> (f1 & C1 & N1) (f2 & C2 & N2) (f3 & C3 & N3) Hi. unfold labels_of.
  assert (run_flags [image] = []) as Hr by (simpl; by rewrite Hi).
  assert (∀ v l, run_flags (["--label"; v] ++ l) = ("--label", v) :: run_flags l) as Hl by done.
  rewrite (run_flags_complete _ _ _ C1), Hl, (run_flags_complete _ _ _ C2), Hl, (run_flags_complete _ _ _ C3), Hr, app_nil_r.
  rewrite fold_left_app, (no_label_fold f1) by done. cbn [fold_left].
  rewrite fold_left_app, (no_label_fold f2) by done. cbn [fold_left].
  rewrite (no_label_fold f3) by done. unfold add_label. cbn [fst snd].
  rewrite String.eqb_refl, !cut_at_key by (by apply (bool_decide_eq_false (char_in _ _))).
  split; [apply lookup_insert_eq|]. by rewrite lookup_insert_ne, lookup_insert_eq.
Qed.

(** What the flags that both providers give are. *)
Lemma unlabelled_env envs : unlabelled (env_args envs).
Proof.
  unfold env_args. apply unlabelled_concat. apply Forall_forall. intros l (kv & -> & _)%list_elem_of_fmap.
  by apply unlabelled_value.
Qed.
Lemma unlabelled_ipv6 cfg : unlabelled (ipv6_args cfg).
Proof. apply unlabelled_if, unlabelled_switches. by repeat constructor. Qed.
Lemma unlabelled_mounts mounts : unlabelled (generateMountBindings mounts).
Proof.
  apply unlabelled_switches, Forall_fmap, Forall_forall. intros m _. unfold generateMountBinding.
  by repeat constructor.
Qed.

(** The common arguments: the label of the cluster, and no other. *)
Definition labels_cluster (cluster : string) (args : list string) : Prop :=
  ∃ pre post, args = pre ++ ["--label"; clusterLabelKey +:+ "=" +:+ cluster] ++ post ∧ unlabelled pre ∧ unlabelled post.

(** *** Lines *)

Lemma drop_cr_plain s : plain_line s → drop_cr s = s.
Proof.
  unfold plain_line. rewrite <-(string_rev_involutive s), all_chars_rev. unfold drop_cr. rewrite string_rev_involutive.
  destruct (string_rev s) as [|c t]; [done|]. cbn [all_chars]. intros [Hc _]%andb_true_iff.
  apply andb_true_iff in Hc as [_ Hc%negb_true_iff]. by rewrite Hc.
Qed.

Lemma unlines_Join l : unlines l = Join (l ++ [""]) newline.
Proof.
  induction l as [|x l IH]; [done|]. cbn [unlines fold_right app]. fold (unlines l). rewrite IH.
  by destruct l.
Qed.

Lemma without_last_empty_app l : without_last_empty (l ++ [""]) = l.
Proof.
  induction l as [|x l IH]; [done|]. cbn [app without_last_empty]. rewrite IH.
  destruct x; [|done]. by destruct l.
Qed.

Lemma scan_unlines l : Forall plain_line l → scan_lines (unlines l) = l.
Proof.
  intros Hl. unfold scan_lines. rewrite unlines_Join. unfold newline. rewrite Split_Join.
  - rewrite without_last_empty_app. induction Hl as [|x l Hx _ IH]; [done|]. rewrite fmap_cons, drop_cr_plain by done. f_equal. apply IH.
  - by destruct l.
  - apply Forall_app. split; [|constructor; [|constructor]].
    + eapply Forall_impl; [exact Hl|]. intros x Hx. by eapply all_chars_not_in.
    + by intros ([] & ? & ?).
Qed.

(** *** Listed volumes *)

Lemma unlines_last l : l ≠ [] → unlines l = Join l newline +:+ newline.
Proof.
  intros Hl. induction l as [|x l IH]; [done|]. destruct l as [|y l]; [done|].
  rewrite Join_cons. cbn [unlines fold_right]. fold (unlines l). rewrite !string_app_assoc, <-IH by done. done.
Qed.

Lemma volume_lines_unlines l : Forall (λ n, plain_line n ∧ n ≠ "") l → volume_lines (unlines l) = l.
Proof.
  intros Hp. unfold volume_lines. destruct (decide (l = [])) as [->|Hne]; [done|].
  rewrite unlines_last by done. rewrite TrimSuffix_app.
  destruct (String.eqb_spec (Join l newline +:+ newline) "") as [Hnil|_].
  { apply (f_equal String.length) in Hnil. rewrite length_app_string in Hnil. simpl in Hnil. lia. }
  apply Split_Join; [done|]. eapply Forall_impl; [exact Hp|]. intros v [Hpl _]. by eapply all_chars_not_in.
Qed.

(** *** Lists of what has a name *)

Lemma NoDup_fmap_eq {A B} (f : A → B) l x y : NoDup (f <$> l) → x ∈ l → y ∈ l → f x = f y → x = y.
Proof.
  intros Hd [i Hi]%list_elem_of_lookup [j Hj]%list_elem_of_lookup Hf.
  assert (i = j) as ->; [|congruence].
  eapply (NoDup_lookup _ i j (f x) Hd); rewrite list_lookup_fmap; [by rewrite Hi|by rewrite Hj, Hf].
Qed.
Lemma filter_id {A} (l : list A) : List.filter (λ _, true) l = l.
Proof. induction l as [|x l IH]; [done|]. cbn [List.filter]. by rewrite IH. Qed.
Lemma filter_same {A} (f g : A → bool) l : (∀ x, x ∈ l → f x = g x) → List.filter f l = List.filter g l.
Proof.
  induction l as [|x l IH]; intros H; [done|]. cbn [List.filter]. rewrite (H x) by apply list_elem_of_here.
  rewrite IH; [done|]. intros y Hy. by apply H, list_elem_of_further.
Qed.

(** ** The nodes of a cluster *)

(** While docker or podman is up, the nodes of a cluster can be listed, and a container that
    is there can be asked for its role and be removed.  (Of a container or an image that is
    not there, nothing is said: [docker inspect] fails for it.) *)
Class RuntimeUp (W : Type) (rt : string) `{!HostExec W, !RuntimeLaws W rt} := {
  up_ps cluster w o w' :
    host [rt; "ps"; "-a"; "--filter"; "label=" +:+ clusterLabelKey +:+ "=" +:+ cluster; "--format"; "{{.Names}}"] None w = (o, w') →
    oc_error o = None;
  up_inspect b w o w' : b ∈ boxes w →
    host [rt; "inspect"; "--format"; rt_label_format nodeRoleLabelKey; bx_name b] None w = (o, w') → oc_error o = None;
  up_rm names w o w' : names ≠ [] → NoDup names → names ⊆ bx_name <$> boxes w →
    host ([rt; "rm"; "-f"; "-v"] ++ names) None w = (o, w') → oc_error o = None
}.

Section nodes.
Context {W : Type} `{!HostExec W} (rt : string) `{!RuntimeLaws W rt}.

Definition nodes_in (cluster : string) (w : W) : list string := bx_name <$> List.filter (of_cluster cluster) (boxes w).

Definition same_boxes : relation W := λ w w', boxes w' = boxes w.
#[export] Instance same_boxes_preorder : PreOrder same_boxes.
Proof. unfold same_boxes. split; [done|]. intros ? ? ? ? ?. congruence. Qed.

Lemma quiet_Output args : quiet rt args = true → sat (host_Output args) same_boxes same_boxes.
Proof. intros Hq. apply sat_host_Output. intros w o w' E. by eapply quiet_spec. Qed.
Lemma quiet_OutputLines args : quiet rt args = true → sat (host_OutputLines args) same_boxes same_boxes.
Proof. intros Hq. unfold host_OutputLines. sat_step; [by apply quiet_Output|apply sat_ret]. Qed.
Lemma quiet_Run args : quiet rt args = true → sat (host_Run args) same_boxes same_boxes.
Proof. intros Hq. unfold host_Run. sat_step; [by apply quiet_Output|apply sat_ret]. Qed.

Lemma quiet_head c rest : str_in c quiet_commands = true → quiet rt (rt :: c :: rest) = true.
Proof. intros Hc. simpl. by rewrite String.eqb_refl. Qed.

Lemma ListNodes_same cluster : sat (rt_ListNodes rt cluster) same_boxes same_boxes.
Proof. unfold rt_ListNodes. sat_step. by apply quiet_OutputLines, quiet_head. Qed.
Lemma Role_same n : sat (rt_Role rt n) same_boxes same_boxes.
Proof. unfold rt_Role. repeat sat_step. by apply quiet_OutputLines, quiet_head. Qed.

Lemma ListNodes_Ok cluster w l w' : rt_ListNodes rt cluster w = (Ok l, w') → l = nodes_in cluster w.
Proof.
  unfold rt_ListNodes. intros (o & E & He & ->)%st_wrap_Ok%host_OutputLines_Ok.
  rewrite (ps_spec _ _ _ _ E He). apply scan_unlines. unfold nodes_in.
  pose proof (boxes_plain w) as Hp. rewrite Forall_fmap in Hp. apply Forall_fmap.
  apply Forall_forall. intros b [Hb _]%list_elem_of_In%filter_In. rewrite Forall_forall in Hp. by apply Hp, list_elem_of_In.
Qed.

(** Removing some of the containers. *)
Lemma remove_boxes n w r w' : rt_remove rt n w = (r, w') →
  ∃ gone, gone ⊆ n ∧ (r = Ok tt → gone = n) ∧ boxes w' = List.filter (λ b, negb (among gone b)) (boxes w).
Proof.
  unfold rt_remove, st_wrap. destruct (host_Run _ w) as [r0 w1] eqn:E. intros [= <- <-].
  apply host_Run_inv in E as (o & E & ->). apply rm_spec in E as (gone & Hs & Hg & Hb). exists gone.
  split_and!; [done| |done]. unfold run_error. destruct (oc_error o); [done|auto].
Qed.

Lemma nodes_in_removed cluster n w w' :
  boxes w' = List.filter (λ b, negb (among n b)) (boxes w) →
  nodes_in cluster w' = List.filter (λ x, negb (str_in x n)) (nodes_in cluster w).
Proof.
  unfold nodes_in. intros ->. induction (boxes w) as [|b l IH]; [done|]. cbn [List.filter]. unfold among at 1.
  destruct (str_in (bx_name b) n) eqn:Hn; cbn [negb List.filter]; destruct (of_cluster cluster b);
    rewrite ?fmap_cons; cbn [List.filter]; rewrite ?Hn; cbn [negb]; try exact IH. f_equal. exact IH.
Qed.

(** The first call leaves the containers as they are. *)
Lemma keeps_then {A} (m : st W A) (f : A → st W unit) w r w' :
  sat m same_boxes same_boxes → (m ≫= f) w = (r, w') →
  (boxes w' = boxes w ∧ r ≠ Ok tt) ∨ ∃ a w1, m w = (Ok a, w1) ∧ boxes w1 = boxes w ∧ f a w1 = (r, w').
Proof.
  intros Hm. specialize (Hm w). unfold mbind, st_bind. destruct (m w) as [[a|e|x] w1]; [|by intros [= <- <-]; left..].
  right. by exists a, w1.
Qed.

(** *** Commands that look for causes *)

Definition net_keeps {A} (m : net W A) : Prop := ∀ w r w', m w = (r, w') → boxes w' = boxes w.

Lemma net_keeps_ret {A} (a : A) : net_keeps (mret a).
Proof. by intros w r w' [= <- <-]. Qed.
Lemma net_keeps_bind {A B} (m : net W A) (f : A → net W B) : net_keeps m → (∀ a, net_keeps (f a)) → net_keeps (m ≫= f).
Proof.
  intros Hm Hf w r w'. unfold mbind, net_bind. destruct (m w) as [[a|e|x] w1] eqn:E; apply Hm in E.
  - intros E'. apply Hf in E'. congruence.
  - by intros [= _ <-].
  - by intros [= _ <-].
Qed.
Lemma net_keeps_host c rest stdin (w : W) o w' : str_in c quiet_commands = true →
  host (rt :: c :: rest) stdin w = (o, w') → boxes w' = boxes w.
Proof. intros Hc E. eapply quiet_spec; [exact E|by apply quiet_head]. Qed.
Lemma net_keeps_Output c rest : str_in c quiet_commands = true → net_keeps (net_Output (rt :: c :: rest)).
Proof. intros Hc w r w' (o & E & _)%net_Output_inv. by eapply net_keeps_host. Qed.
Lemma net_keeps_Run c rest : str_in c quiet_commands = true → net_keeps (net_Run (rt :: c :: rest)).
Proof. intros Hc w r w' (o & E & _)%net_Run_inv. by eapply net_keeps_host. Qed.
Lemma of_net_keeps {A} (m : net W A) : net_keeps m → sat (of_net m) same_boxes same_boxes.
Proof. intros Hm w. unfold of_net. destruct (m w) as [[]] eqn:E; by apply Hm in E. Qed.

(** What is listed is there. *)
Lemma nodes_in_there cluster w : nodes_in cluster w ⊆ bx_name <$> boxes w.
Proof. intros x (b & -> & [Hb _]%list_elem_of_In%filter_In)%list_elem_of_fmap. by apply list_elem_of_fmap_2, list_elem_of_In. Qed.
Lemma removed_more gone n (l : list box) : gone ⊆ n →
  List.filter (λ b, negb (among gone b)) (List.filter (λ b, negb (among n b)) l) = List.filter (λ b, negb (among n b)) l.
Proof.
  intros Hg. rewrite <-(filter_id (List.filter (λ b, negb (among n b)) l)) at 2. apply filter_same.
  intros b [_ Hb]%list_elem_of_In%filter_In. apply negb_true_iff in Hb. apply negb_true_iff, not_true_iff_false.
  unfold among in *. rewrite str_in_true. intros Hin%Hg%str_in_true. congruence.
Qed.
Lemma none_removed (l : list box) : List.filter (λ b, negb (among [] b)) l = l.
Proof. induction l as [|b l IH]; [done|]. cbn [List.filter]. change (among [] b) with false. cbn [negb]. by rewrite IH. Qed.

(** *** Creating *)

(** A planned function: its name, and the labels it gives. *)
Definition planned (cluster : string) (nr : string * string) (c : @container W) : Prop :=
  ct_name c = nr.1 ∧ ∀ w r w', ct_args c w = (r, w') → boxes w' = boxes w ∧
    ∀ args, r = Ok args →
      labels_of args !! clusterLabelKey = Some cluster ∧ labels_of args !! nodeRoleLabelKey = Some nr.2.

Definition node_box (cluster : string) (nr : string * string) (b : box) : Prop :=
  bx_name b = nr.1 ∧ bx_labels b !! clusterLabelKey = Some cluster ∧ bx_labels b !! nodeRoleLabelKey = Some nr.2.

(** Some of the planned containers are new. *)
Definition grows (cluster : string) (nrs : list (string * string)) : relation W := λ w w',
  ∃ new, boxes w' = new ++ boxes w ∧ Forall (λ b, ∃ nr, nr ∈ nrs ∧ node_box cluster nr b) new.
#[export] Instance grows_preorder cluster nrs : PreOrder (grows cluster nrs).
Proof.
  split; [by exists []|]. intros w1 w2 w3 (n1 & E1 & H1) (n2 & E2 & H2). exists (n2 ++ n1).
  rewrite E2, E1, app_assoc. split; [done|]. by apply Forall_app.
Qed.
Lemma same_grows cluster nrs w w' : same_boxes w w' → grows cluster nrs w w'.
Proof. intros E. by exists []. Qed.

Context `{!Deadline W}.

Lemma wait_same name : sat (WaitUntilLogRegexpMatches [rt; "logs"; "-f"; name]) same_boxes same_boxes.
Proof.
  apply sat_always. intros w r w'. unfold WaitUntilLogRegexpMatches. destruct (host _ None w) as [o w1] eqn:E.
  intros [= _ <-]. eapply quiet_spec; [exact E|by apply quiet_head].
Qed.

(** A function the arguments of which are made without a container. *)
Definition quiet_args (c : @container W) : Prop := sat (ct_args c) same_boxes same_boxes.

(** What running a container does, and what it has done when it succeeds. *)
Lemma run_container cluster nr args w r w' :
  labels_of args !! clusterLabelKey = Some cluster → labels_of args !! nodeRoleLabelKey = Some nr.2 →
  rt_createContainer rt nr.1 args w = (r, w') →
  grows cluster [nr] w w' ∧ (r = Ok tt → ∃ b, b ∈ boxes w' ∧ node_box cluster nr b).
Proof.
  intros Hc Hr. unfold rt_createContainer. intros (o & E & ->)%host_Run_inv.
  assert (node_box cluster nr (mkBox nr.1 (labels_of args))) as Hb by done.
  apply run_spec in E as [[E He]|E].
  - split; [by apply same_grows|]. unfold run_error. by destruct (oc_error o).
  - split.
    + exists [mkBox nr.1 (labels_of args)]. split; [done|]. constructor; [|constructor]. exists nr. split; [by left|done].
    + intros _. eexists. split; [rewrite E; apply list_elem_of_here|done].
Qed.

Lemma create_run cluster nr c w r w' : planned cluster nr c → rt_create rt c w = (r, w') →
  grows cluster [nr] w w' ∧ (r = Ok tt → ∃ b, b ∈ boxes w' ∧ node_box cluster nr b).
Proof.
  intros [Hn Hp]. unfold rt_create. unfold mbind at 1, st_bind at 1. destruct (ct_args c w) as [a w1] eqn:Ea.
  apply Hp in Ea as [E1 Hl]. destruct a as [args|e|x]; [|by intros [= <- <-]; split; [apply same_grows|]..].
  destruct (Hl args eq_refl) as [Hc Hr]. rewrite Hn. apply (same_grows cluster [nr]) in E1.
  destruct (ct_wait c).
  - unfold rt_createContainerWithWait, mbind, st_bind. destruct (rt_createContainer rt nr.1 args w1) as [r1 w2] eqn:Er.
    apply (run_container cluster) in Er as [Hg Hb]; [|done..].
    destruct r1 as [[]|e|x]; [|by intros [= <- <-]; split; [etrans|]..]. intros E.
    assert (same_boxes w2 w') as Hs by (pose proof (wait_same nr.1 w2) as Hw; rewrite E in Hw; by destruct r).
    split; [do 2 (etrans; [done|]); by apply same_grows|]. intros _. rewrite Hs. by apply Hb.
  - intros Er. apply (run_container cluster) in Er as [Hg Hb]; [|done..]. split; [by etrans|done].
Qed.

(** Whatever is planned, a container gets the name that was planned, or there is none. *)
Lemma create_named c : quiet_args c → sat (rt_create rt c)
  (λ w w', ∃ new, boxes w' = new ++ boxes w ∧ bx_name <$> new ⊆ [ct_name c])
  (λ w w', ∃ new, boxes w' = new ++ boxes w ∧ bx_name <$> new ⊆ [ct_name c]).
Proof.
  intros Hq. apply sat_always. intros w r w'. unfold rt_create. unfold mbind at 1, st_bind at 1. specialize (Hq w).
  destruct (ct_args c w) as [[args|e|x] w1]; [|by intros [= _ <-]; exists []; split; [|set_solver]..].
  assert (∀ r1 w2, rt_createContainer rt (ct_name c) args w1 = (r1, w2) →
    ∃ new, boxes w2 = new ++ boxes w ∧ bx_name <$> new ⊆ [ct_name c]) as Hrun.
  { unfold rt_createContainer. intros r1 w2 (o & E & _)%host_Run_inv. unfold same_boxes in Hq.
    apply run_spec in E as [[E _]|E]; rewrite E, Hq; [exists []|eexists [_]]; (split; [done|set_solver]). }
  destruct (ct_wait c); [|apply Hrun]. unfold rt_createContainerWithWait, mbind, st_bind.
  destruct (rt_createContainer rt (ct_name c) args w1) as [[[]|e|x] w2] eqn:Er; specialize (Hrun _ _ eq_refl); [|by intros [= _ <-]..].
  intros E. pose proof (wait_same (ct_name c) w2) as Hw. rewrite E in Hw. unfold same_boxes in Hw.
  assert (boxes w' = boxes w2) as -> by (by destruct r). done.
Qed.

(** The pure arguments of a container. *)
Lemma planned_pure cluster nr (r : res (list string)) wait :
  (∀ args, r = Ok args → labels_of args !! clusterLabelKey = Some cluster ∧ labels_of args !! nodeRoleLabelKey = Some nr.2) →
  planned cluster nr (mkContainer nr.1 (pure r) wait).
Proof. intros Hl. split; [done|]. intros w r' w' [= <- <-]. done. Qed.

Lemma grows_more cluster nrs nrs' w w' : nrs ⊆ nrs' → grows cluster nrs w w' → grows cluster nrs' w w'.
Proof.
  intros Hs (new & E & Hn). exists new. split; [done|]. eapply Forall_impl; [exact Hn|].
  intros b (nr & Hin & Hb). exists nr. split; [by apply Hs|done].
Qed.

Lemma create_grows cluster nrs cs ds : Forall2 (planned cluster) nrs ds → cs ≡ₚ ds →
  Forall (λ f, sat f (grows cluster nrs) (grows cluster nrs)) (rt_create rt <$> cs).
Proof.
  intros Hp ->. apply Forall_fmap, Forall_forall. intros c Hc%list_elem_of_lookup. destruct Hc as [i Hi].
  destruct (Forall2_lookup_r _ _ _ _ _ Hp Hi) as (nr & Hnr & Hpl). apply sat_always. intros w r w' E.
  apply (create_run cluster nr) in E as [Hg _]; [|done]. eapply grows_more; [|exact Hg].
  intros x ->%list_elem_of_singleton. by eapply list_elem_of_lookup_2.
Qed.

Lemma filter_none {A} (f : A → bool) l : Forall (λ x, f x = false) l → List.filter f l = [].
Proof. induction 1 as [|x l Hx _ IH]; [done|]. cbn [List.filter]. by rewrite Hx. Qed.

(** The nodes of another cluster stay as they are, and those of the cluster are among the
    planned ones. *)
Lemma grows_nodes cluster nrs w w' : grows cluster nrs w w' →
  (∀ c, c ≠ cluster → nodes_in c w' = nodes_in c w) ∧
  ∃ new, nodes_in cluster w' = new ++ nodes_in cluster w ∧ new ⊆ nrs.*1.
Proof.
  intros (new & E & Hn). unfold nodes_in. rewrite E. split.
  - intros c Hc. rewrite List.filter_app, filter_none; [done|]. eapply Forall_impl; [exact Hn|].
    intros b (nr & _ & _ & Hb & _). unfold of_cluster. rewrite Hb. apply bool_decide_eq_false_2. congruence.
  - exists (bx_name <$> new). rewrite List.filter_app, fmap_app. split.
    + f_equal. f_equal. clear E. induction Hn as [|b l (nr & _ & _ & Hb & _) _ IH]; [done|]. cbn [List.filter].
      unfold of_cluster at 1. rewrite Hb, bool_decide_eq_true_2 by done. by rewrite IH.
    + intros x (b & -> & Hb)%list_elem_of_fmap. rewrite Forall_forall in Hn.
      destruct (Hn b Hb) as (nr & Hnr & -> & _). by apply list_elem_of_fmap_2.
Qed.

Lemma nodes_in_NoDup cluster w : NoDup (nodes_in cluster w).
Proof.
  unfold nodes_in. pose proof (boxes_NoDup w) as Hd. induction (boxes w) as [|b l IH]; [done|].
  rewrite fmap_cons in Hd. apply NoDup_cons in Hd as [Hb Hd]. cbn [List.filter].
  destruct (of_cluster cluster b); [|by apply IH]. rewrite fmap_cons. apply NoDup_cons. split; [|by apply IH].
  intros (b' & Hn & Hin)%list_elem_of_fmap. apply list_elem_of_In, filter_In in Hin as [Hin _]. apply Hb. rewrite Hn.
  by apply list_elem_of_fmap_2, list_elem_of_In.
Qed.

Context `{!Schedule W}.

(** However carrying out a plan ends. *)
Lemma create_all cluster nrs cs ds w r w' : Forall2 (planned cluster) nrs ds → cs ≡ₚ ds →
  until_error (rt_create rt <$> cs) w = (r, w') → grows cluster nrs w w'.
Proof.
  intros Hp Hcs E. pose proof (until_error_sat _ (create_grows _ _ _ _ Hp Hcs) w) as Hs. rewrite E in Hs. by destruct r.
Qed.

(** When it succeeds, the nodes are the planned ones, with their roles. *)
Lemma create_all_Ok cluster nrs cs ds w w' : Forall2 (planned cluster) nrs ds → cs ≡ₚ ds → NoDup nrs.*1 → nodes_in cluster w = [] →
  until_error (rt_create rt <$> cs) w = (Ok tt, w') →
  nodes_in cluster w' ≡ₚ nrs.*1 ∧ ∀ nr, nr ∈ nrs → ∃ b, b ∈ boxes w' ∧ node_box cluster nr b.
Proof.
  intros Hp Hcs Hd Hw E.
  assert (∀ nr, nr ∈ nrs → ∃ b, b ∈ boxes w' ∧ node_box cluster nr b) as Hall.
  { intros nr [i Hi]%list_elem_of_lookup. destruct (Forall2_lookup_l _ _ _ _ _ Hp Hi) as (c & Hc & Hpl).
    destruct (until_error_Ok _ _ _ (create_grows _ _ _ _ Hp Hcs) E (rt_create rt c)) as (v & v' & Ev & _ & new & Hg & _).
    { apply list_elem_of_fmap_2. rewrite Hcs. by apply list_elem_of_lookup_2 with i. }
    apply (create_run cluster nr) in Ev as [_ Hb]; [|done]. destruct (Hb eq_refl) as (b & Hin & Hnb). exists b.
    split; [|done]. rewrite Hg. apply elem_of_app. by right. }
  split; [|done]. destruct (grows_nodes _ _ _ _ (create_all _ _ _ _ _ _ _ Hp Hcs E)) as [_ (new & Hn & Hsub)].
  rewrite Hw, app_nil_r in Hn. apply NoDup_Permutation; [apply nodes_in_NoDup|done|]. intros x. split.
  - rewrite Hn. apply Hsub.
  - intros (nr & -> & Hnr)%list_elem_of_fmap. destruct (Hall nr Hnr) as (b & Hb & <- & Hl & _).
    unfold nodes_in. apply list_elem_of_fmap_2, list_elem_of_In, filter_In. split; [by apply list_elem_of_In|].
    unfold of_cluster. by rewrite Hl, bool_decide_eq_true_2.
Qed.

(** *** While the program is up *)

Context `{!RuntimeUp W rt}.

Lemma ListNodes_up cluster w : ∃ w', rt_ListNodes rt cluster w = (Ok (nodes_in cluster w), w') ∧ same_boxes w w'.
Proof.
  destruct (rt_ListNodes rt cluster w) as [r w'] eqn:E. exists w'.
  pose proof (ListNodes_same cluster w) as Hs. rewrite E in Hs.
  assert (is_Ok r = true) as Hr.
  { unfold rt_ListNodes, st_wrap, host_OutputLines, host_Output, host_Run_with, mbind, st_bind in E.
    destruct (host _ None w) as [o w1] eqn:Eh. unfold run_error in E. rewrite (up_ps _ _ _ _ Eh) in E.
    by injection E as <- _. }
  destruct r as [l| |]; [|done..]. by rewrite (ListNodes_Ok _ _ _ _ E).
Qed.

Lemma remove_up n w : n ≠ [] → NoDup n → n ⊆ bx_name <$> boxes w → ∃ w', rt_remove rt n w = (Ok tt, w') ∧
  boxes w' = List.filter (λ b, negb (among n b)) (boxes w).
Proof.
  intros Hne Hd Hn. destruct (rt_remove rt n w) as [r w'] eqn:E. exists w'.
  destruct (remove_boxes _ _ _ _ E) as (gone & _ & Hg & Hb).
  assert (r = Ok tt) as ->; [|by rewrite Hg in Hb].
  unfold rt_remove, st_wrap, host_Run, host_Output, host_Run_with, mbind, st_bind in E.
  destruct (host _ None w) as [o w1] eqn:Eh. unfold run_error in E. rewrite (up_rm _ _ _ _ Hne Hd Hn Eh) in E.
  by injection E as <- _.
Qed.

Lemma Role_up w b role : b ∈ boxes w → bx_labels b !! nodeRoleLabelKey = Some role → plain_line role →
  fst (rt_Role rt (bx_name b) w) = Ok role.
Proof.
  intros Hb Hr Hp. unfold rt_Role, st_wrap, host_OutputLines, host_Output, host_Run_with, mbind, st_bind.
  destruct (host _ None w) as [o w'] eqn:E. unfold run_error. pose proof (up_inspect _ _ _ _ Hb E) as He. rewrite He.
  rewrite (inspect_spec _ _ _ _ Hb E He), Hr. simpl.
  pose proof (scan_unlines [role] ltac:(by constructor)) as Hl. simpl in Hl. unfold newline in *.
  by rewrite Hl.
Qed.

Lemma kind_role_plain r : r ∈ kind_roles → plain_line r.
Proof. unfold kind_roles. rewrite !elem_of_cons, elem_of_nil. intros [->|[->|[->|[]]]]; reflexivity. Qed.

(** Nodes that were made as planned have the planned roles. *)
Lemma planned_have_roles cluster roles (names : list string) (w : W) :
  length names = length roles → Forall (λ r, r ∈ kind_roles) roles →
  (∀ nr, nr ∈ zip names roles → ∃ b, b ∈ boxes w ∧ node_box cluster nr b) →
  Forall2 (λ n r, fst (rt_Role rt n w) = Ok r) names roles.
Proof.
  intros Hl Hr Hall. apply Forall2_same_length_lookup_2; [done|]. intros i n r Hn Hi.
  destruct (Hall (n, r)) as (b & Hb & Hname & _ & Hrole).
  { apply list_elem_of_lookup. exists i. apply lookup_zip_with_Some. by exists n, r. }
  cbn in Hname, Hrole. subst n. apply (Role_up _ _ _ Hb Hrole). rewrite Forall_forall in Hr.
  by eapply kind_role_plain, Hr, list_elem_of_lookup_2.
Qed.

(** The node of the API server is found whatever the order of the listing. *)
Lemma endpoint_found message cfg (w : W) :
  let names := name_nodes (kc_Name cfg) ∅ (planned_roles cfg) in
  Validate cfg = None → nodes_in (kc_Name cfg) w ≡ₚ names →
  (∀ v, boxes v = boxes w → Forall2 (λ n r, fst (rt_Role rt n v) = Ok r) names (planned_roles cfg)) →
  ∃ w', rt_endpoint_node rt message (kc_Name cfg) w =
    (Ok (kc_Name cfg +:+ "-" +:+ (if ClusterHasImplicitLoadBalancer cfg then ExternalLoadBalancerNodeRoleValue
                                  else ControlPlaneNodeRoleValue)), w').
Proof.
  intros names Hv Hn Hr. destruct (ListNodes_up (kc_Name cfg) w) as (w1 & E & Hs).
  exists w1. unfold rt_endpoint_node, st_wrap, mbind, st_bind. rewrite E. unfold rt_with_roles.
  specialize (Hr w1 Hs). cbv beta iota delta [map_err errors_Wrap]. rewrite (APIServerEndpointNode_perm _ (nodes_in (kc_Name cfg) w) names); [| |done].
  - unfold names. by rewrite (APIServerEndpointNode_planned _ cfg Hv Hr).
  - rewrite Hn. apply Forall_forall. intros n [i Hi]%list_elem_of_lookup.
    destruct (Forall2_lookup_l _ _ _ _ _ Hr Hi) as (r & _ & Hrole). by rewrite Hrole.
Qed.

End nodes.
