(* ===== verification/NodeProvider.v ===== *)
(** * Node providers

    What [Create] is to a provider (pkg/cluster/internal/providers/provider.go): the class
    [NodeProvider] says what a provider promises, over a container runtime, and
    [cluster_env] is the world that [create.Cluster] and [delete.Cluster] run in.  Shown
    for every provider: what it has provisioned it lists, and the creation of a cluster does
    not touch the containers of another one.  One that is not retained leaves no containers,
    but when provisioning has failed, because functions may run on then ([Racing]), or when
    the kubeconfig could not be exported. *)

From S2P Require Import Prelude State Concurrent GoStr KeosTypes Errors Exec KindConfig Nodes Docker Create Runtime.
Local Open Scope Z_scope.
Local Open Scope go_scope.
Local Open Scope stdpp_scope.

(** An image is no flag. *)
Definition image_ok (image : string) : Prop := HasPrefix image "-" = false.

(** The containers that a configuration plans, with their roles. *)
Definition planned_nodes (cfg : Cluster) : list (string * string) :=
  zip (name_nodes (kc_Name cfg) ∅ (planned_roles cfg)) (planned_roles cfg).

(** [providers.Provider]: listing is the same for all.  Provisioning makes a plan, which
    makes no container, and runs its functions at once ([np_Provision]); the plan of a valid
    configuration is that of the planned nodes, in some order.  Of the containers that it is
    given and that are there, deletion removes some, and all of them when it succeeds. *)
Class NodeProvider (W : Type) (rt : string) `{!HostExec W, !RuntimeLaws W rt} := {
  np_Info : st W ProviderInfo;
  np_plan : Cluster → string → bool → bool → st W (list container);
  np_DeleteNodes : list string → st W unit;
  np_Info_keeps : sat np_Info (same_boxes rt) (same_boxes rt);
  np_plan_keeps cfg url l b : sat (np_plan cfg url l b) (same_boxes rt) (same_boxes rt);
  np_plan_args cfg url l b w cs w' : np_plan cfg url l b w = (Ok cs, w') → Forall (quiet_args rt) cs;
  np_plan_planned cfg url l b w cs w' :
    Validate cfg = None → Forall (λ n, image_ok (no_Image n)) (kc_Nodes cfg) → np_plan cfg url l b w = (Ok cs, w') →
    ∃ ds, Forall2 (planned rt (kc_Name cfg)) (planned_nodes cfg) ds ∧ cs ≡ₚ ds;
  np_DeleteNodes_removes n w r w' : n ⊆ bx_name <$> boxes w → np_DeleteNodes n w = (r, w') →
    ∃ gone, gone ⊆ n ∧ (r = Ok tt → gone = n) ∧ boxes w' = List.filter (λ b, negb (among gone b)) (boxes w)
}.
Definition np_Provision {W} {rt : string} `{NodeProvider W rt, !Deadline W, !Schedule W}
    (cfg : Cluster) (url : string) (l b : bool) : st W unit :=
  cs ← np_plan cfg url l b; until_error (rt_create rt <$> cs).

(** While the runtime is up, containers that are there are deleted. *)
Class NodeProviderUp (W : Type) (rt : string) `{NodeProvider W rt} := {
  np_DeleteNodes_up n w : NoDup n → n ⊆ bx_name <$> boxes w → ∃ w', np_DeleteNodes n w = (Ok tt, w')
}.

(** What else the creation calls.  The kubeconfig files and the global variable are no
    containers; an action runs commands on the containers there are. *)
Class ClusterSteps (W : Type) := {
  cs_Export : string → string → bool → st W unit;
  cs_Remove : string → string → st W unit;
  cs_set_Capx_opts : CAPX_Options → st W unit;
  cs_Execute : action → Cluster → st W unit
}.
Class ClusterStepsLaws (W : Type) (rt : string) `{!HostExec W, !RuntimeLaws W rt, !ClusterSteps W} := {
  cs_Export_keeps name path internal : sat (cs_Export name path internal) (same_boxes rt) (same_boxes rt);
  cs_Remove_keeps name path w r w' : cs_Remove name path w = (r, w') → is_Panic r = false ∧ boxes w' = boxes w;
  cs_set_Capx_keeps v w : ∃ w', cs_set_Capx_opts v w = (Ok tt, w') ∧ boxes w' = boxes w;
  cs_Execute_keeps a cfg : sat (cs_Execute a cfg) (same_boxes rt) (same_boxes rt)
}.

(** ** Provisioning *)

Section provisioned.
Context {W : Type} (rt : string) `{NodeProvider W rt, !Deadline W, !Schedule W}.

(** Either provisioning has failed before it made a container, or it has carried out a plan,
    the functions of which are those of the planned nodes in some order. *)
Lemma np_Provision_run cfg url l b (w : W) r w' :
  Validate cfg = None → Forall (λ n, image_ok (no_Image n)) (kc_Nodes cfg) → np_Provision cfg url l b w = (r, w') →
  (boxes w' = boxes w ∧ r ≠ Ok tt) ∨
  ∃ cs ds w2, Forall2 (planned rt (kc_Name cfg)) (planned_nodes cfg) ds ∧ cs ≡ₚ ds ∧ boxes w2 = boxes w ∧
    until_error (rt_create rt <$> cs) w2 = (r, w').
Proof.
  intros Hv Hi E. apply (keeps_then rt) in E as [E|(cs & w2 & Ep & Eb & Hu)]; [by left| |apply np_plan_keeps].
  right. destruct (np_plan_planned _ _ _ _ _ _ _ Hv Hi Ep) as (ds & Hf & Hcs). by exists cs, ds, w2.
Qed.

(** However provisioning ends, it has made planned containers only. *)
Lemma np_Provision_grows cfg url l b (w : W) r w' :
  Validate cfg = None → Forall (λ n, image_ok (no_Image n)) (kc_Nodes cfg) → np_Provision cfg url l b w = (r, w') →
  grows rt (kc_Name cfg) (planned_nodes cfg) w w'.
Proof.
  intros Hv Hi [[E _]|(cs & ds & w2 & Hf & Hcs & E & Hu)]%np_Provision_run; [by apply same_grows| |done..].
  etrans; [by apply same_grows|]. eapply (create_all rt); [exact Hf|exact Hcs|exact Hu].
Qed.

Context `{!RuntimeUp W rt}.

(** C4. When provisioning succeeds for a valid configuration without nodes so far, the
    provider lists exactly the planned nodes, each with the planned role, and finds the
    internal address of the API server: on the load balancer where there are several
    control planes, and else on the only one.  The nodes of other clusters are what they
    were. *)
Theorem Provision_lists message cfg url l b (w w' : W) :
  Validate cfg = None → Forall (λ n, image_ok (no_Image n)) (kc_Nodes cfg) → nodes_in rt (kc_Name cfg) w = [] →
  np_Provision cfg url l b w = (Ok tt, w') →
  let names := name_nodes (kc_Name cfg) ∅ (planned_roles cfg) in
  (∃ out w1, rt_ListNodes rt (kc_Name cfg) w' = (Ok out, w1) ∧ out ≡ₚ names) ∧
  Forall2 (λ n r, fst (rt_Role rt n w') = Ok r) names (planned_roles cfg) ∧
  (∃ w1, rt_GetAPIServerInternalEndpoint rt message (kc_Name cfg) w' =
    (Ok (JoinHostPort (kc_Name cfg +:+ "-" +:+ (if ClusterHasImplicitLoadBalancer cfg then ExternalLoadBalancerNodeRoleValue
                                                else ControlPlaneNodeRoleValue)) "6443"), w1)) ∧
  (∀ c, c ≠ kc_Name cfg → nodes_in rt c w' = nodes_in rt c w).
Proof.
  intros Hv Hi Hw E names. destruct (grows_nodes _ _ _ _ _ (np_Provision_grows _ _ _ _ _ _ _ Hv Hi E)) as [Hother _].
  pose proof Hv as (_ & _ & _ & _ & _ & Hnodes & _)%Validate_iff. pose proof (planned_roles_ok cfg Hnodes) as Hroles.
  apply np_Provision_run in E as [[_ ?]|(cs & ds & w2 & Hf & Hcs & Eb & Hu)]; [done| |done..].
  assert (length names = length (planned_roles cfg)) as Hlen by apply length_name_nodes.
  apply (create_all_Ok rt _ _ _ _ _ _ Hf Hcs) in Hu as [Hlist Hall].
  2: { unfold planned_nodes. rewrite fst_zip by (fold names; lia). by apply name_nodes_NoDup. }
  2: { unfold nodes_in in *. by rewrite Eb. }
  unfold planned_nodes in Hlist, Hall. fold names in Hlist, Hall. rewrite fst_zip in Hlist by lia.
  assert (∀ v : W, boxes v = boxes w' → Forall2 (λ n r, fst (rt_Role rt n v) = Ok r) names (planned_roles cfg)) as Hr.
  { intros v Ev. apply (planned_have_roles rt (kc_Name cfg)); [done..|]. by rewrite Ev. }
  split_and!; [|by apply Hr| |done].
  - destruct (ListNodes_up rt (kc_Name cfg) w') as (w3 & E3 & _). eauto.
  - destruct (endpoint_found rt message cfg w' Hv Hlist Hr) as (w3 & E3). exists w3.
    unfold rt_GetAPIServerInternalEndpoint, mbind, st_bind. by rewrite E3.
Qed.
End provisioned.

Section env.
Context {W : Type} (rt : string) `{NodeProvider W rt, !Deadline W, !Schedule W, !ClusterSteps W}.

#[export] Instance cluster_env : Env W := {|
  Info := np_Info;
  ListNodes := rt_ListNodes rt;
  Provision := np_Provision;
  DeleteNodes := np_DeleteNodes;
  kubeconfig_Export := cs_Export;
  kubeconfig_Remove := cs_Remove;
  set_Capx_opts := cs_set_Capx_opts;
  Execute := cs_Execute
|}.

Context `{!ClusterStepsLaws W rt}.

(** ** What is common to all worlds *)

Lemma sat_run {A} {S F : relation W} (m : st W A) w r w' : sat m S F → m w = (r, w') → S w w' ∨ F w w'.
Proof. intros Hm E. specialize (Hm w). rewrite E in Hm. destruct r; auto. Qed.

(** The containers that are removed are of the cluster. *)
Lemma removed_others cluster gone (w w' : W) : gone ⊆ nodes_in rt cluster w →
  boxes w' = List.filter (λ b, negb (among gone b)) (boxes w) →
  ∀ c, c ≠ cluster → nodes_in rt c w' = nodes_in rt c w.
Proof.
  intros Hg E c Hc. rewrite (nodes_in_removed rt c gone w w' E).
  assert (∀ x, x ∈ nodes_in rt c w → x ∉ gone) as Hno.
  { intros x (b & -> & [Hb Hbc]%list_elem_of_In%filter_In)%list_elem_of_fmap Hx%Hg.
    apply list_elem_of_fmap in Hx as (b' & Hn & [Hb' Hbc']%list_elem_of_In%filter_In).
    apply list_elem_of_In in Hb, Hb'. apply (NoDup_fmap_eq bx_name _ b b' (boxes_NoDup w) Hb Hb') in Hn as <-.
    unfold of_cluster in Hbc, Hbc'. apply bool_decide_eq_true in Hbc, Hbc'. congruence. }
  rewrite <-(filter_id (nodes_in rt c w)) at 2. apply filter_same. intros x Hx.
  apply negb_true_iff, not_true_iff_false. rewrite str_in_true. by apply Hno.
Qed.

(** ** The containers of the other clusters *)

Section others.
Context (name : string).
Definition others : relation W := λ w w', ∀ c, c ≠ name → nodes_in rt c w' = nodes_in rt c w.
#[export] Instance others_preorder : PreOrder others.
Proof. split; [by intros w c|]. intros w1 w2 w3 H12 H23 c Hc. by rewrite (H23 c Hc), (H12 c Hc). Qed.

Lemma same_others w w' : same_boxes rt w w' → others w w'.
Proof. intros E c _. unfold nodes_in. by rewrite E. Qed.
Lemma sat_same_others {A} (m : st W A) : sat m (same_boxes rt) (same_boxes rt) → sat m others others.
Proof. intros Hm w. specialize (Hm w). destruct (m w) as [[]]; by apply same_others. Qed.

Lemma delete_others path : sat (delete_Cluster name path) others others.
Proof.
  apply sat_always. intros w r w' E. unfold delete_Cluster in E.
  cbn [ListNodes kubeconfig_Remove DeleteNodes cluster_env] in E.
  apply st_bind_inv in E as [([] & w1 & [-> _]%pure_world & E)|(? & [-> _]%pure_world & _)]; [|reflexivity].
  pose proof (sat_wrap "error listing nodes" _ (ListNodes_same rt name) w) as Hl.
  apply st_bind_inv in E as [(n & w1 & E1 & E)|(r0 & E1 & _)]; rewrite E1 in Hl; [|destruct r0; by apply same_others].
  apply st_wrap_Ok, (ListNodes_Ok rt) in E1 as ->.
  assert (∀ r1 w2, ignore_err (cs_Remove name path) w1 = (r1, w2) → same_boxes rt w w2) as Hrem.
  { intros r1 w2. unfold ignore_err. destruct (cs_Remove name path w1) as [r2 w3] eqn:Er.
    apply cs_Remove_keeps in Er as [_ Er]. destruct r2; intros [= _ <-]; unfold same_boxes in *; congruence. }
  apply st_bind_inv in E as [([] & w2 & E2 & E)|(r1 & E2 & _)]; apply Hrem in E2; [|by apply same_others].
  apply np_DeleteNodes_removes in E as (gone & Hg & _ & Eb); [|rewrite E2; apply nodes_in_there]. intros c Hc.
  rewrite <-(same_others _ _ E2 c Hc). eapply removed_others; [|exact Eb|exact Hc].
  intros x Hx. apply Hg in Hx. unfold nodes_in. by rewrite E2.
Qed.

Lemma cleanup_others opts cfg : kc_Name cfg = name → sat (cleanup opts cfg) others others.
Proof.
  intros Hn. unfold cleanup. sat_step; [apply sat_ret|]. rewrite Hn. apply sat_ignore, delete_others.
Qed.

Lemma run_actions_others opts cfg l : kc_Name cfg = name → sat (run_actions opts cfg l) others others.
Proof.
  intros Hn. induction l as [|a l IH]; [apply sat_ret|]. cbn [run_actions]. sat_step; [|done].
  apply sat_on_error; [apply sat_same_others, cs_Execute_keeps|by apply cleanup_others].
Qed.

Lemma export_attempts_others path n : sat (export_attempts name path n) others others.
Proof.
  induction n as [|n IH]; intros w; cbn [export_attempts kubeconfig_Export cluster_env];
    pose proof (sat_same_others _ (cs_Export_keeps name path true) w) as Hw;
    destruct (cs_Export name path true w) as [[]]; try done.
  specialize (IH w0). destruct (export_attempts name path n w0) as [[]]; by etrans.
Qed.

Lemma check_exists_others opts cfg : kc_Name cfg = name → sat (check_exists opts cfg) others others.
Proof.
  intros Hn w. unfold check_exists.
  assert (sat (alreadyExists (kc_Name cfg)) others others) as Ha.
  { unfold alreadyExists. repeat sat_step. apply sat_same_others, ListNodes_same. }
  specialize (Ha w). destruct (alreadyExists _ w) as [[]]; [done| |done].
  destruct (opt_ForceDelete opts); [|done]. rewrite Hn.
  pose proof (sat_ignore _ (delete_others (opt_KubeconfigPath opts)) w0) as Hd.
  destruct (ignore_err _ w0) as [[]]; by etrans.
Qed.

Lemma Provision_others cfg url l b : kc_Name cfg = name → Validate cfg = None →
  Forall (λ n, image_ok (no_Image n)) (kc_Nodes cfg) → sat (np_Provision cfg url l b) others others.
Proof.
  intros Hn Hv Hi. apply sat_always. intros w r w' E. unfold others. rewrite <-Hn.
  apply (np_Provision_grows rt), grows_nodes in E as [E _]; done.
Qed.
End others.

(** The containers of the other clusters. *)
Lemma create_others (b : build) opts (w w' : W) r :
  let cfg := fixupOptions b opts in
  Forall (λ n, image_ok (no_Image n)) (kc_Nodes cfg) →
  create_Cluster b opts w = (r, w') →
  ∀ c, c ≠ kc_Name cfg → nodes_in rt c w' = nodes_in rt c w.
Proof.
  intros cfg Hi E. set (name := kc_Name cfg).
  assert (sat (create_Cluster b opts) (others name) (others name)) as Hs.
  { unfold create_Cluster. cbv zeta. fold cfg. apply sat_bind.
    { unfold validateProvider. repeat sat_step. apply sat_same_others, np_Info_keeps. }
    intros _. apply sat_bind; [by apply check_exists_others|intros _].
    destruct (Validate cfg) as [e|] eqn:Hv; [by intros v c|].
    apply sat_bind; [apply sat_pure|intros _]. apply sat_bind; [apply sat_pure|intros cc].
    apply sat_bind.
    { intros v. destruct (cs_set_Capx_keeps (getCAPXVersion (ccs_Capx (cc_Spec cc))) v) as (v' & Ev & Eb).
      cbn [set_Capx_opts cluster_env]. rewrite Ev. by apply same_others. }
    intros _. apply sat_bind; [apply sat_on_error; [by apply Provision_others|by apply cleanup_others]|intros _].
    apply sat_bind; [by apply run_actions_others|intros _].
    sat_step; [apply sat_ret|]. apply sat_bind; [apply export_attempts_others|intros _]. by apply cleanup_others. }
  destruct (sat_run _ _ _ _ Hs E); done.
Qed.

(** C5. However the creation of a cluster ends, and whatever is cleaned up on the way, the
    containers of every other cluster are those there were before: deletion is only
    asked for names that were listed for the cluster. *)
Theorem create_touches_no_other (b : build) opts (w w' : W) r :
  let cfg := fixupOptions b opts in
  Forall (λ n, image_ok (no_Image n)) (kc_Nodes cfg) →
  create_Cluster b opts w = (r, w') →
  ∀ c, c ≠ kc_Name cfg → nodes_in rt c w' = nodes_in rt c w.
Proof. intros cfg Hi E c. exact (create_others b opts w w' r Hi E c). Qed.

(** ** The nodes that are left *)

Context `{!RuntimeUp W rt, !NodeProviderUp W rt}.

(** Here functions that run on after a failure are not followed ([Racing] does that). *)
#[export] Instance cluster_view : EnvView W := {| nodes_of := nodes_in rt; stray := λ _, []; sane := λ _, True |}.
Lemma calm_always (w w' : W) : calm w w'.
Proof. by intros _. Qed.
Lemma same_later (w w' : W) : same_boxes rt w w' → later w w'.
Proof. intros E. split; [apply calm_always|]. intros _ c. exists []. cbn. unfold nodes_in. by rewrite E. Qed.
#[export] Instance cluster_env_laws : EnvLaws W.
Proof.
  refine {| env_view := cluster_view |}; cbn [ListNodes DeleteNodes kubeconfig_Remove Info set_Capx_opts cluster_env];
    try (intros; apply calm_always); [|..|by intros].
  - intros name w. apply nodes_in_NoDup.
  - intros name w. destruct (ListNodes_up rt name w) as (w' & E & Hs). exists w'. split; [|by apply same_later].
    cbn. rewrite E. unfold nodes_in. by rewrite Hs.
  - intros name l w _ Hd Hl. destruct (np_DeleteNodes_up l w Hd) as (w' & E); [etrans; [exact Hl|apply nodes_in_there]|].
    exists w'. split; [done|]. split; [apply calm_always|]. intros c. exists []. split; [|done].
    apply np_DeleteNodes_removes in E as (gone & _ & Hg & Eb); [|etrans; [exact Hl|apply nodes_in_there]].
    specialize (Hg eq_refl) as ->. by apply nodes_in_removed.
  - intros name path w r w' [Hp Eb]%cs_Remove_keeps. split; [done|]. by apply same_later.
  - intros w r w' E. apply same_later. by destruct (sat_run _ _ _ _ np_Info_keeps E).
  - intros v w. destruct (cs_set_Capx_keeps v w) as (w' & E & Eb). exists w'. split; [done|]. by apply same_later.
Defined.

(** The containers of the cluster itself, when provisioning did not fail. *)
Lemma create_cleans (b : build) opts (w w' : W) r :
  opt_Retain opts = false → opt_StopBeforeSettingUpKubernetes opts = false →
  create_Cluster b opts w = (r, w') → is_Panic r = false →
  let cfg := fixupOptions b opts in
  nodes_in rt (kc_Name cfg) w' = [] ∨ nodes_in rt (kc_Name cfg) w' = nodes_in rt (kc_Name cfg) w ∨
  (∃ e w1, r = Err e ∧ cs_Export (kc_Name cfg) (opt_KubeconfigPath opts) true w1 = (Err e, w')) ∨
  ∃ e w1 w2, r = Err e ∧
    np_Provision cfg (opt_DockerRegUrl opts) (opt_UseLocalStratioImage opts) (opt_BuildStratioImage opts) w1 = (Err e, w2).
Proof.
  intros Hret Hstop E Hp cfg. destruct (create_nodes_left b opts w w' r Hret Hstop) as [[_ Hn]|Hend]; [done..|by auto|].
  destruct Hend as [[Hn _]|[[_ Hx]|(e & w1 & w2 & Hr & _ & Hf & _)]]; [by auto..|]. right; right; right. by exists e, w1, w2.
Qed.
End env.
