(* ===== verification/Racing.v ===== *)
(** * Functions that run on

    [errors.UntilErrorConcurrent] returns with the first error, and the functions that make
    the other containers run on while [create.Cluster] deletes what is there
    (src/pkg/errors/concurrent.go, providers/docker/provider.go, internal/create/create.go).
    [racing] is the world together with these functions, and [racing_env] the creation over
    it: before each of its steps some of them, as many as the schedule says, take their
    effect.  Shown: a creation that is not told to retain the cluster leaves nothing of it
    and nothing running, unless the kubeconfig could not be exported or provisioning has
    failed; and then all that is left or may still come was made by the functions that ran
    on. *)

From S2P Require Import Prelude State Concurrent GoStr KeosTypes Errors Exec KindConfig Nodes Docker Create Runtime NodeProvider.
Local Open Scope Z_scope.
Local Open Scope go_scope.
Local Open Scope stdpp_scope.

Section racing.
Context {W : Type} (rt : string) `{NodeProvider W rt, !Deadline W, !Schedule W, !ClusterSteps W}.

Record racing := mkRacing { rc_world : W; rc_running : list (@container W) }.

(** Some of the functions take their effect. *)
Definition let_run (s : racing) : racing :=
  let n := late (rc_world s) (length (rc_running s)) in
  mkRacing (go_on (rt_create rt) (take n (rc_running s)) (rc_world s)) (drop n (rc_running s)).
Definition meanwhile {A} (m : st W A) : st racing A := λ s,
  let s := let_run s in
  let '(r, w) := m (rc_world s) in (r, mkRacing w (rc_running s)).

(** Provisioning leaves the functions running that have not ended when the first error
    arrives. *)
Definition racing_Provision (cfg : Cluster) (url : string) (l b : bool) : st racing unit := λ s,
  let s := let_run s in
  match np_plan cfg url l b (rc_world s) with
  | (Ok cs, w) =>
      let '(r, running, w) := at_once (rt_create rt) cs w in
      (r, mkRacing w (rc_running s ++ running))
  | (Err e, w) => (Err e, mkRacing w (rc_running s))
  | (Panic x, w) => (Panic x, mkRacing w (rc_running s))
  end.

Definition racing_env : Env racing := {|
  Info := meanwhile np_Info;
  ListNodes := λ cluster, meanwhile (rt_ListNodes rt cluster);
  Provision := racing_Provision;
  DeleteNodes := λ n, meanwhile (np_DeleteNodes n);
  kubeconfig_Export := λ name path internal, meanwhile (cs_Export name path internal);
  kubeconfig_Remove := λ name path, meanwhile (cs_Remove name path);
  set_Capx_opts := λ v, meanwhile (cs_set_Capx_opts v);
  Execute := λ a cfg, meanwhile (cs_Execute a cfg)
|}.

(** ** What the functions do meanwhile *)

#[local] Instance racing_view : EnvView racing := {|
  nodes_of := λ c s, nodes_in rt c (rc_world s);
  stray := λ s, ct_name <$> rc_running s;
  sane := λ s, Forall (quiet_args rt) (rc_running s)
|}.

(** New containers of some names. *)
Definition named (ns : list string) : relation W := λ w w', ∃ new, boxes w' = new ++ boxes w ∧ bx_name <$> new ⊆ ns.
#[local] Instance named_preorder ns : PreOrder (named ns).
Proof.
  split; [intros w; exists []; split; [done|set_solver]|].
  intros w1 w2 w3 (n1 & E1 & N1) (n2 & E2 & N2). exists (n2 ++ n1). rewrite E2, E1, app_assoc. split; [done|].
  rewrite fmap_app. set_solver.
Qed.
Lemma named_nodes ns w w' c : named ns w w' → ∃ new, nodes_in rt c w' = new ++ nodes_in rt c w ∧ new ⊆ ns.
Proof.
  intros (new & E & Hn). unfold nodes_in. rewrite E, List.filter_app, fmap_app. eexists. split; [done|].
  etrans; [|exact Hn]. intros x (b & -> & [Hb _]%list_elem_of_In%filter_In)%list_elem_of_fmap.
  by apply list_elem_of_fmap_2, list_elem_of_In.
Qed.

Lemma go_on_named l w : Forall (quiet_args rt) l → named (ct_name <$> l) w (go_on (rt_create rt) l w).
Proof.
  intros Hq. apply go_on_sat. rewrite Forall_forall in Hq. apply Forall_forall. intros c Hc v.
  pose proof (create_named rt c (Hq c Hc) v) as Hv.
  assert (∀ v', (∃ new, boxes v' = new ++ boxes v ∧ bx_name <$> new ⊆ [ct_name c]) → named (ct_name <$> l) v v') as Hin.
  { intros v' (new & E & Hn). exists new. split; [done|]. etrans; [exact Hn|].
    intros x ->%list_elem_of_singleton. by apply list_elem_of_fmap_2. }
  destruct (rt_create rt c v) as [[]]; by apply Hin.
Qed.

Lemma let_run_later s : later s (let_run s).
Proof.
  unfold let_run. split.
  - intros Hs. split; cbn; [by apply Forall_drop|]. rewrite fmap_drop. apply subseteq_drop.
  - intros Hs c. cbn. destruct (named_nodes _ _ _ c (go_on_named _ (rc_world s) (Forall_take (quiet_args rt) (late (rc_world s) (length (rc_running s))) _ Hs)))
      as (new & E & Hn).
    exists new. split; [done|]. etrans; [done|]. rewrite fmap_take. apply subseteq_take.
Qed.

(** A step that leaves the containers alone. *)
Lemma same_world_later w w' l : same_boxes rt w w' → later (mkRacing w l) (mkRacing w' l).
Proof.
  intros E. split; [by intros Hs|]. intros _ c. exists []. cbn. unfold nodes_in. rewrite E. split; [done|set_solver].
Qed.
Lemma meanwhile_later {A} (m : st W A) s r s' : sat m (same_boxes rt) (same_boxes rt) → meanwhile m s = (r, s') → later s s'.
Proof.
  intros Hm. unfold meanwhile. pose proof (let_run_later s) as Hl. destruct (let_run s) as [w l]. cbn [rc_world rc_running].
  destruct (m w) as [r1 w1] eqn:E. intros [= _ <-]. etrans; [done|].
  apply (sat_run _ _ _ _ Hm) in E. apply same_world_later. by destruct E.
Qed.
Lemma meanwhile_calm {A} (m : st W A) s r s' : meanwhile m s = (r, s') → calm s s'.
Proof.
  unfold meanwhile. destruct (let_run_later s) as [Hc _]. destruct (let_run s) as [w l]. cbn [rc_world rc_running].
  destruct (m w) as [r1 w1]. by intros [= _ <-].
Qed.

Lemma racing_Provision_spec cfg url l b s r s' : racing_Provision cfg url l b s = (r, s') → sane s →
  sane s' ∧ (r = Ok tt → stray s' ⊆ stray s).
Proof.
  unfold racing_Provision. intros E Hs. destruct (proj1 (let_run_later s) Hs) as [Hs1 Hr1]. destruct (let_run s) as [w1 l1].
  cbn [rc_world rc_running] in *. destruct (np_plan cfg url l b w1) as [[cs|e|x] w2] eqn:Ep; [|by injection E as <- <-..].
  apply np_plan_args in Ep. destruct (at_once (rt_create rt) cs w2) as [[r2 running] w3] eqn:Ea. injection E as <- <-. split.
  - cbn. apply Forall_app. split; [done|].
    apply at_once_running in Ea as Hsub.
    rewrite Forall_forall in Ep |- *. intros c Hc. by apply Ep, Hsub.
  - intros ->. unfold at_once in Ea. apply until_first_none in Ea as ->. cbn. by rewrite app_nil_r.
Qed.

Context `{!ClusterStepsLaws W rt, !RuntimeUp W rt, !NodeProviderUp W rt}.

Lemma racing_laws : @EnvLaws racing racing_env.
Proof.
  refine (@Build_EnvLaws _ racing_env racing_view _ _ _ _ _ _ _ _ _);
    cbn [Info ListNodes Provision DeleteNodes kubeconfig_Export kubeconfig_Remove set_Capx_opts Execute racing_env].
  - intros name s. apply nodes_in_NoDup.
  - intros name s. unfold meanwhile. pose proof (let_run_later s) as Hl. destruct (let_run s) as [w l]. cbn [rc_world rc_running].
    destruct (ListNodes_up rt name w) as (w' & E & Hs). rewrite E. exists (mkRacing w' l). split.
    + do 2 f_equal. cbn. unfold nodes_in. by rewrite Hs.
    + etrans; [done|]. by apply same_world_later.
  - intros name n s Hs Hd Hn. unfold meanwhile. destruct (let_run_later s) as [Hc Hl]. destruct (Hl Hs name) as (new & En & _).
    destruct (let_run s) as [w l]. cbn [rc_world rc_running] in *. cbn in En.
    assert (n ⊆ bx_name <$> boxes w) as Hin.
    { etrans; [exact Hn|]. etrans; [|apply (nodes_in_there rt name)]. rewrite En. intros x Hx. apply elem_of_app. by right. }
    destruct (np_DeleteNodes_up n w Hd Hin) as (w' & E). rewrite E. exists (mkRacing w' l). split; [done|].
    split; [done|]. intros c. destruct (Hl Hs c) as (new' & En' & Hnew'). exists new'. split; [|done].
    apply np_DeleteNodes_removes in E as (gone & _ & Hg & Eb); [|done]. specialize (Hg eq_refl) as ->.
    cbn in En' |- *. rewrite <-En'. by apply nodes_in_removed.
  - intros name path s r s' E. split.
    + unfold meanwhile in E. destruct (cs_Remove name path _) as [r1 w1] eqn:Er. apply cs_Remove_keeps in Er as [Hp _].
      by injection E as <- _.
    + apply (meanwhile_later (cs_Remove name path) s r s'); [|done]. apply sat_always. by intros w r1 w' [_ Eb]%cs_Remove_keeps.
  - intros s r s'. apply meanwhile_later, np_Info_keeps.
  - intros v s. unfold meanwhile. pose proof (let_run_later s) as Hl. destruct (let_run s) as [w l]. cbn [rc_world rc_running].
    destruct (cs_set_Capx_keeps v w) as (w' & E & Eb). rewrite E. exists (mkRacing w' l). split; [done|].
    etrans; [done|]. by apply same_world_later.
  - apply racing_Provision_spec.
  - intros name path internal s r s'. apply meanwhile_calm.
  - intros a cfg s r s'. apply meanwhile_calm.
Defined.

(** C7. While the runtime is up, and with the functions taken into account that run on when
    [UntilErrorConcurrent] has returned an error: a creation that is not told to retain the
    cluster, is not stopped before Kubernetes is set up and does not panic ends in one of
    three ways.  No container of the cluster is left, or exactly those are there that were
    before, and no function runs any more.  Or its kubeconfig could not be exported, and no
    function runs.  Or a function of provisioning has failed while others ran on: then the
    containers that are left after the deletion, and those that may still come, were made
    by these. *)
Theorem create_leaves_no_containers (b : build) opts (w : W) (s' : racing) r :
  opt_Retain opts = false → opt_StopBeforeSettingUpKubernetes opts = false →
  @create_Cluster racing racing_env b opts (mkRacing w []) = (r, s') → is_Panic r = false →
  let cfg := fixupOptions b opts in
  let remaining := nodes_in rt (kc_Name cfg) (rc_world s') in
  (rc_running s' = [] ∧ (remaining = [] ∨ remaining = nodes_in rt (kc_Name cfg) w)) ∨
  (rc_running s' = [] ∧
   ∃ e w1, r = Err e ∧ cs_Export (kc_Name cfg) (opt_KubeconfigPath opts) true w1 = (Err e, rc_world s')) ∨
  ∃ e w1 cs w2 running w3, r = Err e ∧
    np_plan cfg (opt_DockerRegUrl opts) (opt_UseLocalStratioImage opts) (opt_BuildStratioImage opts) w1 = (Ok cs, w2) ∧
    at_once (rt_create rt) cs w2 = (Err e, running, w3) ∧
    remaining ⊆ ct_name <$> running ∧ ct_name <$> rc_running s' ⊆ ct_name <$> running.
Proof.
  intros Hret Hstop E Hp cfg remaining.
  assert (∀ s : racing, still s → rc_running s = []) as Hstill by (intros s [_ Hs]; by apply fmap_nil_inv in Hs).
  destruct (@create_nodes_left racing racing_env racing_laws b opts (mkRacing w []) s' r Hret Hstop) as [[Hs Hn]|Hend];
    [split; [apply List.Forall_nil|reflexivity]|done|done|left; auto|].
  destruct Hend as [[Hn Hs]|[[Hs (e & s1 & -> & He)]|(e & s1 & s2 & -> & Hs1 & Hpr & Hl & Hl')]].
  - left. split; [by apply Hstill|by left].
  - right; left. split; [by apply Hstill|]. cbn [kubeconfig_Export racing_env] in He. unfold meanwhile in He.
    destruct (cs_Export _ _ _ _) as [r1 w1] eqn:Ee. injection He as -> <-. eauto.
  - pose proof (later_still _ _ (let_run_later s1) Hs1) as [Hq%Hstill _]. cbn [Provision racing_env] in Hpr. unfold racing_Provision in Hpr.
    fold cfg in Hpr. destruct (let_run s1) as [w1 l1]. cbn [rc_running rc_world] in *. subst l1.
    destruct (np_plan _ _ _ _ w1) as [[cs|e1|x] w2] eqn:Epl; [|injection Hpr as -> <-|done].
    + destruct (at_once (rt_create rt) cs w2) as [[r2 running] w3] eqn:Ea. injection Hpr as -> <-.
      right; right. exists e, w1, cs, w2, running, w3. done.
    + left. cbn in Hl, Hl'. apply list_nil_subseteq in Hl, Hl'. apply fmap_nil_inv in Hl'. split; [done|by left].
Qed.
End racing.
