(* ===== verification/Images.v ===== *)
(** * The images of the nodes

    src/pkg/cluster/internal/providers/{docker,podman}/images.go and
    providers/common/images.go: which image is pulled for a node, under which name, and how
    often it is tried.  Shown: the suffix of a release candidate is removed, and nothing
    else; what podman is asked for instead of the image of a node; and where the name
    of an image is lost on the way. *)

From stdpp Require Import sorting.
From S2P Require Import Prelude State Concurrent GoStr Regexp Exec KindConfig Nodes Create Runtime.
Local Open Scope Z_scope.
Local Open Scope go_scope.
Local Open Scope stdpp_scope.

(** [RequiredNodeImages(cfg).List()]: the set of the images, sorted. *)
Definition RequiredNodeImages (cfg : Cluster) : list string :=
  merge_sort String.le (remove_dups (map no_Image (kc_Nodes cfg))).

(** ** Pulling *)

Section pull.
Context {W : Type} `{!HostExec W} (rt : string).

(** The first attempt and up to [more] others; the error is that of the last one. *)
Fixpoint pull_attempts (image : string) (more : nat) : st W unit := λ w,
  match host_Run [rt; "pull"; image] w with
  | (Err e, w) => match more with O => (Err e, w) | S more => pull_attempts image more w end
  | o => o
  end.
Definition pull (image : string) (retries : nat) : st W unit :=
  st_wrap ("failed to pull image " +:+ Q image) (pull_attempts image retries).

(** Whether the image had to be pulled. *)
Definition pullIfNotPresent (image : string) (retries : nat) : st W bool :=
  present ← try_ (host_Run [rt; "inspect"; "--type=image"; image]);
  match present with
  | Ok _ => mret false
  | _ => pull image retries ;; mret true
  end.
End pull.

(** ** docker *)

Definition digest_mark : string := "@sha256:".

(** The name for people, and the name to pull. *)
Definition sanitizeImage (image : string) : string * string :=
  if Contains image digest_mark then (hd "" (Split image digest_mark), image) else (image, image).

Definition number_re : regex := RPlus (RSet cs_digit).
Definition release_re : regex :=
  RSeq [RPlus (RSet cs_dot); RChar ":"; number_re; RChar "."; number_re; RChar "."; number_re].
Definition candidate_re : regex := RSeq [RLit "-rc."; number_re].

(** The submatch is what is in front of the last number and the [-rc.] before it. *)
Fixpoint drop_digits (s : string) : string :=
  match s with String c t => if is_digit c then drop_digits t else s | "" => "" end.
Definition removeReleaseCandidateSuffix (image : string) : string :=
  if MatchString (RCat release_re candidate_re) image
  then TrimSuffix (string_rev (drop_digits (string_rev image))) "-rc." else image.

(** Files in the directory for temporary files, the Dockerfile that the program carries,
    and the versions that are built into the image ([create.Capx_opts]). *)
Class BuildContext (W : Type) := {
  os_MkdirTemp : string → string → st W string;
  os_WriteFile : string → string → st W unit;
  stratioDockerfile : string;
  Capx_opts : W → CAPX_Options
}.

Section docker.
Context {W : Type} `{!HostExec W, !BuildContext W}.

Definition ensureStratioImageFiles : st W string :=
  dir ← st_wrap "failed to create the temp directory" (os_MkdirTemp "" "stratio-");
  st_wrap "failed to create the Stratio Dockerfile" (os_WriteFile (dir +:+ "/Dockerfile") stratioDockerfile) ;;
  mret dir.

Definition build_args (capx_opts : CAPX_Options) (image path : string) : list string :=
  ["docker"; "build";
   "--build-arg"; "CLUSTERCTL=" +:+ CAPI_Version capx_opts;
   "--build-arg"; "CAPA=" +:+ CAPA_Version capx_opts;
   "--build-arg"; "CAPG=" +:+ CAPG_Version capx_opts;
   "--build-arg"; "CAPZ=" +:+ CAPZ_Version capx_opts;
   "--tag=" +:+ image; path].
Definition buildStratioImageFromDockerfile (image path : string) : st W unit :=
  capx_opts ← get Capx_opts;
  st_wrap ("failed to build image " +:+ Q image) (host_Run (build_args capx_opts image path)).

Definition tag (image tag : string) : st W unit :=
  st_wrap ("failed to tag image " +:+ image +:+ " to " +:+ tag) (host_Run ["docker"; "tag"; image; tag]).

(** The name under which an image is pulled. *)
Definition pulled_name (dockerRegUrl image : string) : string :=
  let friendlyImageName := fst (sanitizeImage image) in
  removeReleaseCandidateSuffix
    (if dockerRegUrl <>s "" then Join [dockerRegUrl; friendlyImageName] "/stratio/" else friendlyImageName).

Definition ensure_image (dockerRegUrl : string) (useLocalStratioImage buildStratioImage : bool) (image : string) : st W unit :=
  let friendlyImageName := fst (sanitizeImage image) in
  if useLocalStratioImage then mret tt
  else if buildStratioImage then
    dockerfileDir ← ensureStratioImageFiles;
    buildStratioImageFromDockerfile friendlyImageName dockerfileDir
  else
    let friendlyImageName := pulled_name dockerRegUrl image in
    _ ← pullIfNotPresent "docker" friendlyImageName 4;
    tag friendlyImageName image.

Definition ensureNodeImages (cfg : Cluster) (dockerRegUrl : string) (useLocalStratioImage buildStratioImage : bool)
  : st W unit :=
  st_each (ensure_image dockerRegUrl useLocalStratioImage buildStratioImage) (RequiredNodeImages cfg).
End docker.

(** ** podman *)

(** Up to the first slash, if there is one. *)
Definition before_slash (s : string) : option string := fst <$> cut_at "/" s.

(** The tag, and with it all that follows the first colon, goes when there is a digest;
    an image without a slash is one of the library, and one that names no registry is
    on docker.io. *)
Definition podman_remainder (image : string) : res (string * string) :=
  if Contains image digest_mark then
    let splits := Split image digest_mark in
    name ← index splits 0;
    digest ← index splits 1;
    untagged ← index (Split name ":") 0;
    Ok (name, untagged +:+ digest_mark +:+ digest)
  else Ok (image, image).
Definition names_registry (h : string) : bool := Contains h "." || Contains h ":" || (h =s "localhost").
Definition podman_sanitizeImage (image : string) : res (string * string) :=
  '(friendlyImageName, remainder) ← podman_remainder image;
  let remainder := if Contains remainder "/" then remainder else "library/" +:+ remainder in
  Ok (friendlyImageName,
      match before_slash friendlyImageName with
      | Some h => if names_registry h then remainder else "docker.io/" +:+ remainder
      | None => "docker.io/" +:+ remainder
      end).

Definition podman_ensureNodeImages {W} `{!HostExec W} (cfg : Cluster) : st W unit :=
  st_each (λ image,
    '(_, image) ← pure (podman_sanitizeImage image);
    _ ← pullIfNotPresent "podman" image 4;
    mret tt) (RequiredNodeImages cfg).

(** ** Facts *)

(** *** Release candidates *)

Definition is_number (s : string) : Prop := s ≠ "" ∧ all_chars is_digit s = true.

Lemma rmatch_digits s : rmatch number_re (bytes s) ↔ is_number s.
Proof.
  unfold number_re, is_number. rewrite rmatch_plus_set.
  assert (∀ t, Forall (λ c, cs_mem cs_digit c = true) (bytes t) ↔ all_chars is_digit t = true) as Hd.
  { induction t as [|c t IH]; [split; [done|constructor]|]. cbn [bytes all_chars]. rewrite Forall_cons, IH, andb_true_iff.
    unfold cs_digit, cs_mem, is_digit, rng. simpl. rewrite orb_false_r. done. }
  rewrite Hd. split; intros [Hn ?]; (split; [|done]); [by intros ->|]. by destruct s.
Qed.

Lemma drop_digits_app n s : all_chars is_digit n = true → drop_digits (n +:+ s) = drop_digits s.
Proof. induction n as [|c n IH]; [done|]. cbn [all_chars]. intros [Hc Hn]%andb_true_iff. simpl. by rewrite Hc, IH. Qed.

Lemma candidate_cut pre n : all_chars is_digit n = true →
  TrimSuffix (string_rev (drop_digits (string_rev (pre +:+ "-rc." +:+ n)))) "-rc." = pre.
Proof.
  intros Hn. rewrite !string_rev_cat, string_app_assoc, drop_digits_app by (by rewrite all_chars_rev).
  change (string_rev "-rc.") with ".cr-". change (drop_digits (".cr-" +:+ string_rev pre)) with (".cr-" +:+ string_rev pre).
  rewrite string_rev_cat, string_rev_involutive. apply TrimSuffix_app.
Qed.

(** [name:a.b.c]. *)
Definition is_release (pre : string) : Prop :=
  ∃ name a b c, pre = name +:+ ":" +:+ a +:+ "." +:+ b +:+ "." +:+ c ∧
    name ≠ "" ∧ Forall (λ r, cs_mem cs_dot r = true) (bytes name) ∧ is_number a ∧ is_number b ∧ is_number c.

Lemma bytes_nil s : bytes s = [] ↔ s = "".
Proof. by destruct s. Qed.

Lemma rmatch_plus_name cs s : rmatch (RPlus (RSet cs)) (bytes s) ↔ s ≠ "" ∧ Forall (λ r, cs_mem cs r = true) (bytes s).
Proof. by rewrite rmatch_plus_set, bytes_nil. Qed.

Lemma rmatch_release pre : rmatch release_re (bytes pre) ↔ is_release pre.
Proof.
  change release_re with (RCat (RPlus (RSet cs_dot)) (RCat (RChar ":") (RCat number_re (RCat (RChar ".")
    (RCat number_re (RCat (RChar ".") number_re)))))). split.
  - intros (name & t1 & -> & Hname%rmatch_plus_name & H)%rmatch_cat_bytes.
    apply rmatch_cat_bytes in H as (c1 & t2 & -> & ->%rmatch_char_bytes & H).
    apply rmatch_cat_bytes in H as (a & t3 & -> & Ha%rmatch_digits & H).
    apply rmatch_cat_bytes in H as (c2 & t4 & -> & ->%rmatch_char_bytes & H).
    apply rmatch_cat_bytes in H as (b & t5 & -> & Hb%rmatch_digits & H).
    apply rmatch_cat_bytes in H as (c3 & c & -> & ->%rmatch_char_bytes & Hc%rmatch_digits).
    exists name, a, b, c. by destruct Hname.
  - intros (name & a & b & c & -> & Hn & Hf & Ha & Hb & Hc).
    apply rmatch_cat_bytes. eexists name, _. split_and!; [reflexivity|by apply rmatch_plus_name|].
    apply rmatch_cat_bytes. eexists _, _. split_and!; [reflexivity|by apply rmatch_char_bytes|].
    apply rmatch_cat_bytes. eexists a, _. split_and!; [reflexivity|by apply rmatch_digits|].
    apply rmatch_cat_bytes. eexists _, _. split_and!; [reflexivity|by apply rmatch_char_bytes|].
    apply rmatch_cat_bytes. eexists b, _. split_and!; [reflexivity|by apply rmatch_digits|].
    apply rmatch_cat_bytes. eexists _, c. split_and!; [reflexivity|by apply rmatch_char_bytes|by apply rmatch_digits].
Qed.

Lemma candidate_match image : is_ascii image →
  MatchString (RCat release_re candidate_re) image = true ↔
  ∃ pre n, image = pre +:+ "-rc." +:+ n ∧ is_release pre ∧ is_number n.
Proof.
  intros Ha. rewrite MatchString_spec, runes_ascii by done.
  change candidate_re with (RCat (RLit "-rc.") number_re). split.
  - intros (pre & t & -> & Hp%rmatch_release & H)%rmatch_cat_bytes.
    apply rmatch_cat_bytes in H as (l & n & -> & ->%rmatch_lit_bytes & Hn%rmatch_digits). eauto.
  - intros (pre & n & -> & Hp & Hn). apply rmatch_cat_bytes. eexists pre, _.
    split_and!; [reflexivity|by apply rmatch_release|]. apply rmatch_cat_bytes. eexists _, n.
    split_and!; [reflexivity|by apply rmatch_lit_bytes|by apply rmatch_digits].
Qed.

(** From the name of an image that ends in the version of a release candidate the
    suffix is removed, so that it names the release; every other name is left as it is. *)
Theorem removeReleaseCandidateSuffix_spec image : is_ascii image →
  (∀ pre n, image = pre +:+ "-rc." +:+ n → is_release pre → is_number n → removeReleaseCandidateSuffix image = pre) ∧
  ((∀ pre n, image = pre +:+ "-rc." +:+ n → is_release pre → ¬ is_number n) → removeReleaseCandidateSuffix image = image).
Proof.
  intros Ha. unfold removeReleaseCandidateSuffix. split.
  - intros pre n Hi Hp Hn. rewrite (proj2 (candidate_match image Ha)) by eauto. rewrite Hi.
    by apply candidate_cut, Hn.
  - intros Hno. destruct (MatchString _ image) eqn:E; [|done]. apply candidate_match in E as (pre & n & Hi & Hp & Hn); [|done].
    by destruct (Hno pre n Hi Hp).
Qed.

(** *** What podman is asked for *)

(** The name on its registry: docker.io and its library are written out. *)
Definition on_registry (name : string) : string :=
  match before_slash name with
  | Some h => if Contains h "." || (h =s "localhost") then name else "docker.io/" +:+ name
  | None => "docker.io/library/" +:+ name
  end.
Definition tag_part (tag : option string) : string := match tag with Some t => ":" +:+ t | None => "" end.
Definition digest_part (digest : option string) : string := match digest with Some d => digest_mark +:+ d | None => "" end.

(** Without one of these characters. *)
Definition without (l : list Ascii.ascii) (s : string) : Prop := Forall (λ c, ¬ char_in c s) l.
Lemma without_app l s t : without l s → without l t → without l (s +:+ t).
Proof. unfold without. rewrite !Forall_forall. intros Hs Ht c Hc [?|?]%char_in_app; naive_solver. Qed.
Lemma without_in c l s : without l s → bool_decide (c ∈ l) = true → ¬ char_in c s.
Proof. unfold without. rewrite Forall_forall. intros Hs Hc%bool_decide_eq_true. auto. Qed.

Lemma char_in_no c s : bool_decide (char_in c s) = false → ¬ char_in c s.
Proof. apply bool_decide_eq_false. Qed.

Lemma tag_part_without tag : (∀ t, tag = Some t → without ["@"%char; "/"%char] t) → without ["@"%char; "/"%char] (tag_part tag).
Proof.
  intros Ht. destruct tag as [t|]; simpl; [|repeat constructor; by apply char_in_no].
  apply (without_app _ ":"); [repeat constructor; by apply char_in_no|by apply Ht].
Qed.

Lemma podman_remainder_spec name tag digest :
  without [":"%char; "@"%char] name → (∀ t, tag = Some t → without ["@"%char; "/"%char] t) →
  (∀ d, digest = Some d → without ["@"%char; "/"%char] d) →
  podman_remainder (name +:+ tag_part tag +:+ digest_part digest) =
    Ok (name +:+ tag_part tag, name +:+ match digest with Some d => digest_part digest | None => tag_part tag end).
Proof.
  intros Hn Ht%tag_part_without Hd. unfold podman_remainder.
  assert (¬ char_in "@" (name +:+ tag_part tag)) as Hat.
  { rewrite char_in_app. intros [H|H]; revert H; [by apply (without_in _ _ _ Hn)|by apply (without_in _ _ _ Ht)]. }
  destruct digest as [d|].
  - unfold digest_part. rewrite <-string_app_assoc. specialize (Hd d eq_refl).
    rewrite (proj2 (Contains_spec _ digest_mark)) by (by exists (name +:+ tag_part tag), d).
    assert (Contains d digest_mark = false) as Hc.
    { apply (not_contains_split "@"); [by exists "", "sha256:"|]. by apply (without_in _ _ _ Hd). }
    rewrite (Split_mark "@" "sha256:" _ d Hat Hc : Split (_ +:+ digest_mark +:+ d) digest_mark = _).
    change (index [?x; ?y] 0) with (Ok x). change (index [?x; ?y] 1) with (Ok y). cbn [mbind res_bind].
    assert (index (Split (name +:+ tag_part tag) ":") 0 = Ok name) as ->; [|by rewrite ?string_app_assoc].
    assert (¬ char_in ":" name) as Hcol by (by apply (without_in _ _ _ Hn)).
    unfold Split. destruct tag as [t|]; unfold tag_part.
    + rewrite (split_from_mark ":" "" name t) by done. by destruct (split_from _ 0 t).
    + rewrite string_app_nil_r, split_from_no_sep by done. done.
  - unfold digest_part. rewrite string_app_nil_r.
    by rewrite (not_contains_split "@") by (done || by exists "", "sha256:").
Qed.

(** podman is asked for the image of a node on its registry, docker.io and its library
    written out: by its digest, when it has one, and else by its tag.  (The registry
    has no port.) *)
Theorem podman_sanitizeImage_spec name tag digest :
  without [":"%char; "@"%char] name → (∀ t, tag = Some t → without ["@"%char; "/"%char] t) →
  (∀ d, digest = Some d → without ["@"%char; "/"%char] d) →
  podman_sanitizeImage (name +:+ tag_part tag +:+ digest_part digest) =
    Ok (name +:+ tag_part tag,
        on_registry name +:+ match digest with Some d => digest_part digest | None => tag_part tag end).
Proof.
  intros Hn Ht Hd. unfold podman_sanitizeImage. rewrite podman_remainder_spec by done. cbn [mbind res_bind].
  apply tag_part_without in Ht.
  set (rest := match digest with Some d => digest_part digest | None => tag_part tag end).
  assert (¬ char_in "/" rest) as Hr.
  { unfold rest, digest_part. destruct digest as [d|]; [|by apply (without_in _ _ _ Ht)].
    intros [H|H]%char_in_app; revert H; [by apply char_in_no|]. by apply (without_in _ _ _ (Hd d eq_refl)). }
  unfold before_slash at 1. rewrite cut_at_app_none by (by apply (without_in _ _ _ Ht)).
  unfold on_registry, before_slash. destruct (cut_at "/" name) as [[h r]|] eqn:Hcut.
  - apply cut_at_Some in Hcut as [-> Hh]. cbn [fmap option_fmap option_map fst].
    rewrite (proj2 (Contains_char "/" _)) by (exists h, (r +:+ rest); by rewrite !string_app_assoc).
    unfold names_registry. assert (Contains h ":" = false) as ->.
    { apply not_true_iff_false. rewrite Contains_char. intros Hc. apply (without_in ":" _ _ Hn); [done|].
      apply char_in_app. by left. }
    rewrite orb_false_r. by destruct (Contains h "." || (h =s "localhost")); rewrite !string_app_assoc.
  - apply cut_at_None in Hcut. cbn [fmap option_fmap option_map].
    assert (Contains (name +:+ rest) "/" = false) as ->.
    { apply not_true_iff_false. rewrite Contains_char, char_in_app. tauto. }
    by rewrite !string_app_assoc.
Qed.

(** ** Containers

    Images are no containers. *)

Section images.
Context {W : Type} `{!HostExec W} (rt : string) `{!RuntimeLaws W rt}.
Abbreviation keeps m := (sat m (same_boxes rt) (same_boxes rt)).

Lemma quiet_keeps c rest : str_in c quiet_commands = true → keeps (host_Run (rt :: c :: rest)).
Proof. intros Hc. by apply quiet_Run, quiet_head. Qed.

Lemma pull_attempts_keeps image more : keeps (pull_attempts rt image more).
Proof.
  induction more as [|more IH]; intros w; cbn [pull_attempts];
    pose proof (quiet_keeps "pull" [image] eq_refl w) as Hw; destruct (host_Run _ w) as [[]]; try done.
  specialize (IH w0). destruct (pull_attempts rt image more w0) as [[]]; by etrans.
Qed.
Lemma pullIfNotPresent_keeps image retries : keeps (pullIfNotPresent rt image retries).
Proof.
  unfold pullIfNotPresent, pull. repeat (sat_step || apply pull_attempts_keeps). by apply sat_try_always, quiet_keeps.
Qed.
End images.


(** ** Concrete images *)

Lemma removeReleaseCandidateSuffix_spec_witness :
  removeReleaseCandidateSuffix "registry:5000/stratio/cloud-provisioner:0.9.0-rc.12" = "registry:5000/stratio/cloud-provisioner:0.9.0".
Proof.
  refine (proj1 (removeReleaseCandidateSuffix_spec "registry:5000/stratio/cloud-provisioner:0.9.0-rc.12" _)
    "registry:5000/stratio/cloud-provisioner:0.9.0" "12" eq_refl _ _).
  - repeat constructor.
  - exists "registry:5000/stratio/cloud-provisioner", "0", "9", "0". split_and!; try done. repeat constructor.
  - done.
Defined.

Lemma podman_sanitizeImage_spec_witness :
  podman_sanitizeImage "kindest/node:v1.27.0@sha256:0123" = Ok ("kindest/node:v1.27.0", "docker.io/kindest/node@sha256:0123").
Proof.
  refine (podman_sanitizeImage_spec "kindest/node" (Some "v1.27.0") (Some "0123") _ _ _).
  - repeat constructor; by apply char_in_no.
  - intros t [= <-]. repeat constructor; by apply char_in_no.
  - intros d [= <-]. repeat constructor; by apply char_in_no.
Defined.

(** With a digest, what follows the port of the registry is lost: the image is looked for
    in the library. *)
Example registry_port_lost :
  podman_sanitizeImage "localhost:5000/node:v1.27.0@sha256:0123" =
    Ok ("localhost:5000/node:v1.27.0", "library/localhost@sha256:0123").
Proof. vm_compute. reflexivity. Qed.

(** docker is asked for the image by its tag, whatever its digest, and then to give it
    the name with the digest. *)
Example digest_not_pulled :
  pulled_name "" "kindest/node:v1.27.0@sha256:0123" = "kindest/node:v1.27.0".
Proof. vm_compute. reflexivity. Qed.
