(* ===== verification/Machine.v ===== *)
(** * A machine with containers

    A small world that answers the commands of docker and podman the way [Runtime] says,
    for the theorems on the node providers to be applied to: containers and volumes, what
    the provider remembers, and the versions that are built into the image. *)

From S2P Require Import Prelude State Concurrent GoStr Exec KindConfig Nodes Docker Network Create Runtime Images.
Local Open Scope Z_scope.
Local Open Scope go_scope.
Local Open Scope stdpp_scope.

Definition plain_lineb (s : string) : bool :=
  all_chars (λ c, negb (Nat.eqb (Ascii.nat_of_ascii c) 10) && negb (Nat.eqb (Ascii.nat_of_ascii c) 13)) s.
Definition no_eqb (s : string) : bool := negb (bool_decide (char_in "=" s)).
Definition one_key (v : volume) : bool := match vo_keys v with [] | [_] => true | _ => false end.
Definition good (boxes : list box) (volumes : list volume) : bool :=
  bool_decide (NoDup (bx_name <$> boxes)) && forallb (λ n, plain_lineb n && no_eqb n) (bx_name <$> boxes) &&
  (bool_decide (NoDup (vo_name <$> volumes)) && forallb (λ n, plain_lineb n && (n <>s "")) (vo_name <$> volumes) &&
   forallb one_key volumes).

Record machine := mkMachine {
  mc_boxes : list box;
  mc_volumes : list volume;
  mc_info : option ProviderInfo;
  mc_capx : CAPX_Options;
  mc_good : good mc_boxes mc_volumes = true
}.

(** The machine with these containers and volumes, if it can have them. *)
Definition remake (m : machine) (bs : list box) (vs : list volume) : option machine :=
  match Bool.bool_dec (good bs vs) true with
  | left H => Some (mkMachine bs vs (mc_info m) (mc_capx m) H)
  | right _ => None
  end.

Lemma remake_Some m bs vs m' : remake m bs vs = Some m' → mc_boxes m' = bs ∧ mc_volumes m' = vs.
Proof. unfold remake. destruct (Bool.bool_dec _ _); [|done]. by intros [= <-]. Qed.
Lemma remake_good m bs vs : good bs vs = true → ∃ m', remake m bs vs = Some m'.
Proof. intros H. unfold remake. destruct (Bool.bool_dec _ _); [eauto|done]. Qed.

Lemma forallb_iff {A} (P : A → bool) (Q : A → Prop) l : (∀ x, P x = true ↔ Q x) → forallb P l = true ↔ Forall Q l.
Proof.
  intros HPQ. induction l as [|x l IH]; [split; [constructor|done]|].
  cbn [forallb]. by rewrite andb_true_iff, Forall_cons, HPQ, IH.
Qed.
Lemma good_iff bs vs : good bs vs = true ↔
  NoDup (bx_name <$> bs) ∧ Forall (λ n, plain_line n ∧ ¬ char_in "=" n) (bx_name <$> bs) ∧
  NoDup (vo_name <$> vs) ∧ Forall (λ n, plain_line n ∧ n ≠ "") (vo_name <$> vs) ∧ Forall (λ v, one_key v = true) vs.
Proof.
  unfold good. rewrite !andb_true_iff, !bool_decide_eq_true.
  rewrite (forallb_iff _ (λ n, plain_line n ∧ ¬ char_in "=" n)); [|intros x; unfold no_eqb; by rewrite andb_true_iff, negb_true_iff, bool_decide_eq_false].
  rewrite (forallb_iff _ (λ n, plain_line n ∧ n ≠ "")), (forallb_iff one_key _ vs (λ _, reflexivity _)); [tauto|].
  intros x. rewrite andb_true_iff, negb_true_iff, String.eqb_neq. done.
Qed.

Lemma NoDup_fmap_filter {A B} (f : A → B) (g : A → bool) l : NoDup (f <$> l) → NoDup (f <$> List.filter g l).
Proof.
  induction l as [|x l IH]; [done|]. rewrite fmap_cons, NoDup_cons. intros [Hx Hl]. cbn [List.filter].
  destruct (g x); [|by apply IH]. rewrite fmap_cons, NoDup_cons. split; [|by apply IH].
  intros (y & E & Hy)%list_elem_of_fmap. apply Hx. rewrite E. apply list_elem_of_fmap_2. apply list_elem_of_In in Hy.
  apply filter_In in Hy as [Hy _]. by apply list_elem_of_In.
Qed.
Lemma Forall_fmap_filter {A B} (f : A → B) (P : B → Prop) (g : A → bool) l :
  Forall P (f <$> l) → Forall P (f <$> List.filter g l).
Proof.
  rewrite !Forall_fmap, !Forall_forall. intros H x Hx. apply list_elem_of_In, filter_In in Hx as [Hx _].
  by apply H, list_elem_of_In.
Qed.
Lemma Forall_filter {A} (P : A → Prop) (g : A → bool) l : Forall P l → Forall P (List.filter g l).
Proof.
  rewrite !Forall_forall. intros H x [Hx _]%list_elem_of_In%filter_In. by apply H, list_elem_of_In.
Qed.
Lemma good_filter f g m : good (List.filter f (mc_boxes m)) (List.filter g (mc_volumes m)) = true.
Proof.
  pose proof (mc_good m) as (H1 & H2 & H3 & H4 & H5)%good_iff. apply good_iff.
  split_and!; auto using NoDup_fmap_filter, Forall_fmap_filter, Forall_filter.
Qed.

(** ** Commands *)

Definition does (m : machine) (o : option machine) (out : string) : outcome * machine :=
  match o with
  | Some m' => (mkOutcome out out None, m')
  | None => (mkOutcome "" "no" (Some "exit status 125"), m)
  end.

Definition after_eq (s : string) : string := match cut_at "="%char s with Some (_, t) => t | None => s end.
Definition ps (m : machine) (filter : string) : string :=
  let cluster := after_eq (after_eq filter) in
  unlines (bx_name <$> List.filter (of_cluster cluster) (mc_boxes m)).
Definition inspect_role (m : machine) (n : string) : string :=
  match List.filter (λ b, bx_name b =s n) (mc_boxes m) with
  | b :: _ => default "" (bx_labels b !! nodeRoleLabelKey) +:+ newline
  | [] => newline
  end.

(** The containers that use a volume: the node that it was made for. *)
Definition users (m : machine) (name : string) : list string :=
  concat (vo_keys <$> List.filter (λ v, vo_name v =s name) (mc_volumes m)).
Definition volume_command (m : machine) (args : list string) : outcome * machine :=
  match args with
  | "create" :: rest =>
      let key := match cut_at "="%char (List.nth 1 rest "") with Some (k, _) => k | None => "" end in
      let name := "volume-" +:+ Itoa (Z.of_nat (length (mc_volumes m))) in
      does m (remake m (mc_boxes m) (mkVolume name [key] :: mc_volumes m)) (name +:+ newline)
  | "ls" :: rest =>
      let key := after_eq (List.nth 1 rest "") in
      does m (Some m) (unlines (vo_name <$> List.filter (has_key key) (mc_volumes m)))
  | "rm" :: rest =>
      let names := match rest with _ :: names => names | [] => [] end in
      does m (remake m (List.filter (λ b, negb (among (concat (map (users m) names)) b)) (mc_boxes m)) (List.filter (λ v, negb (str_in (vo_name v) names)) (mc_volumes m))) ""
  | _ => does m None ""
  end.

(** The program is [rt]; [refused] says which containers cannot be made; [answer] is what the other commands
    print. *)
Section commands.
Context (rt : string) (refused : string → bool) (answer : list string → string).

Definition machine_command (c : string) (rest args : list string) (m : machine) : outcome * machine :=
  if c =s "run" then
    match rest with
    | _ :: name :: args =>
        does m (if refused name then None
                else remake m (mkBox name (labels_of args) :: mc_boxes m) (mc_volumes m)) ""
    | _ => does m None ""
    end
  else if c =s "rm" then
    let names := match rest with _ :: _ :: names => names | _ => [] end in
    does m (remake m (List.filter (λ b, negb (among names b)) (mc_boxes m)) (mc_volumes m)) ""
  else if c =s "ps" then does m (Some m) (ps m (List.nth 2 rest ""))
  else if c =s "inspect" then
    does m (Some m) (if List.nth 1 rest "" =s rt_label_format nodeRoleLabelKey
                     then inspect_role m (List.nth 2 rest "") else answer args)
  else if c =s "volume" then volume_command m rest
  else does m (Some m) (answer args).
Definition machine_host (args : list string) (_ : option string) (m : machine) : outcome * machine :=
  match args with
  | r :: c :: rest => if r =s rt then machine_command c rest args m else does m (Some m) (answer args)
  | _ => does m (Some m) ""
  end.
Definition machine_exec : HostExec machine := {| host := machine_host; shell_Quote := λ s, s |}.

Lemma machine_host_rt c rest stdin m o m' : machine_host (rt :: c :: rest) stdin m = (o, m') →
  machine_command c rest (rt :: c :: rest) m = (o, m').
Proof. unfold machine_host. by rewrite String.eqb_refl. Qed.

Lemma mc_users m v key : v ∈ mc_volumes m → has_key key v = true → users m (vo_name v) = [key].
Proof.
  pose proof (mc_good m) as (_ & _ & Hd & _ & Ho)%good_iff. unfold users. revert Hd Ho.
  induction (mc_volumes m) as [|u l IH]; intros Hd Ho Hv Hk; [by apply not_elem_of_nil in Hv|].
  rewrite fmap_cons in Hd. apply NoDup_cons in Hd as [Hn Hd]. apply Forall_cons in Ho as [Hu Ho]. cbn [List.filter].
  apply elem_of_cons in Hv as [->|Hv].
  - rewrite String.eqb_refl. rewrite fmap_cons. cbn [concat].
    assert (List.filter (λ x, vo_name x =s vo_name u) l = []) as ->.
    { apply filter_none, Forall_forall. intros x Hx. apply String.eqb_neq. intros E. apply Hn. rewrite <-E. by apply list_elem_of_fmap_2. }
    unfold has_key in Hk. unfold one_key in Hu. destruct (vo_keys u) as [|k [|]]; [done| |done].
    apply str_in_true, list_elem_of_singleton in Hk as ->. done.
  - destruct (String.eqb_spec (vo_name u) (vo_name v)) as [E|_]; [|by apply IH].
    destruct Hn. rewrite E. by apply list_elem_of_fmap_2.
Qed.
Lemma mc_boxes_good m : Forall plain_line (bx_name <$> mc_boxes m) ∧ Forall (λ n, ¬ char_in "=" n) (bx_name <$> mc_boxes m).
Proof. pose proof (mc_good m) as (_ & H & _)%good_iff. split; (eapply Forall_impl; [exact H|]; by intros n []). Qed.
Lemma remove_machine f g m : ∃ m', remake m (List.filter f (mc_boxes m)) (List.filter g (mc_volumes m)) = Some m' ∧
  mc_boxes m' = List.filter f (mc_boxes m) ∧ mc_volumes m' = List.filter g (mc_volumes m).
Proof.
  destruct (remake_good m _ _ (good_filter f g m)) as [m' E]. exists m'. split; [done|]. by apply remake_Some in E.
Qed.
Lemma remove_boxes_only f m : ∃ m', remake m (List.filter f (mc_boxes m)) (mc_volumes m) = Some m' ∧
  mc_boxes m' = List.filter f (mc_boxes m) ∧ mc_volumes m' = mc_volumes m.
Proof. pose proof (remove_machine f (λ _, true) m) as H. by rewrite filter_id in H. Qed.

Lemma machine_volume_rm names m : ∃ m', volume_command m (["rm"; "--force"] ++ names) = (mkOutcome "" "" None, m') ∧
  mc_boxes m' = List.filter (λ b, negb (among (concat (map (users m) names)) b)) (mc_boxes m) ∧
  mc_volumes m' = List.filter (λ v, negb (str_in (vo_name v) names)) (mc_volumes m).
Proof.
  destruct (remove_machine (λ b, negb (among (concat (map (users m) names)) b)) (λ v, negb (str_in (vo_name v) names)) m)
    as (m' & E & Hb & Hv).
  exists m'. unfold volume_command, does. cbn [app]. by rewrite E.
Qed.
Lemma machine_volume_ls key m :
  volume_command m ["ls"; "--filter"; "label=" +:+ key; "--quiet"] =
    (mkOutcome (unlines (vo_name <$> List.filter (has_key key) (mc_volumes m)))
       (unlines (vo_name <$> List.filter (has_key key) (mc_volumes m))) None, m).
Proof. reflexivity. Qed.

Definition machine_runtime : @RuntimeLaws machine machine_exec rt.
Proof.
  refine (@Build_RuntimeLaws _ machine_exec rt mc_boxes _ _ _ _ _ _ _ _ users _ _ _).
  - intros m. by apply (good_iff (mc_boxes m) (mc_volumes m)), mc_good.
  - intros m. apply mc_boxes_good.
  - intros m. apply mc_boxes_good.
  - intros name args m o m' E%machine_host_rt. revert E. unfold machine_command, does.
    destruct (refused name); simpl; [intros [= <- <-]; by left|].
    destruct (remake _ _ _) as [m1|] eqn:E; intros [= <- <-]; [right|by left]. by apply remake_Some in E as [-> _].
  - intros cluster m o m' E%machine_host_rt. revert E. simpl. intros [= <- _] _. reflexivity.
  - intros names m o m' E%machine_host_rt. revert E. unfold machine_command, does. simpl.
    destruct (remove_boxes_only (λ b, negb (among names b)) m) as (m1 & -> & Hb & _).
    intros [= <- <-]. exists names. split_and!; done.
  - intros m o m' b Hb E%machine_host_rt. revert E. simpl. intros [= <- _] _. cbn [oc_stdout].
    unfold inspect_role. pose proof (mc_good m) as (Hd & _)%good_iff. induction (mc_boxes m) as [|b' l IH].
    + by apply not_elem_of_nil in Hb.
    + cbn [List.filter]. rewrite fmap_cons in Hd. apply NoDup_cons in Hd as [Hn Hd].
      destruct (String.eqb_spec (bx_name b') (bx_name b)) as [E|E].
      * apply elem_of_cons in Hb as [->|Hb]; [done|]. destruct Hn. rewrite E. by apply list_elem_of_fmap_2.
      * apply elem_of_cons in Hb as [->|Hb]; [done|by apply IH].
  - intros args stdin m o m'. cbn [host machine_exec]. unfold machine_host, quiet.
    destruct args as [|r [|c rest]]; [by intros [= _ <-]..|].
    destruct (r =s rt); [|by intros [= _ <-]]. intros E Hc. revert E. unfold machine_command, does.
    destruct (String.eqb_spec c "run") as [->|_]; [done|].
    destruct (String.eqb_spec c "rm") as [->|_]; [done|].
    destruct (c =s "ps"); [by intros [= _ <-]|]. destruct (c =s "inspect"); [by intros [= _ <-]|].
    destruct (String.eqb_spec c "volume") as [->|_]; [done|]. by intros [= _ <-].
  - intros label m o m' E%machine_host_rt. change (volume_command m ["create"; "--label"; label] = (o, m')) in E. revert E.
    unfold volume_command, does. destruct (remake _ _ _) as [m1|] eqn:E; intros [= _ <-]; [|done]. by apply remake_Some in E as [-> _].
  - intros key m o m' Hk E%machine_host_rt. change (volume_command m ["ls"; "--filter"; "label=" +:+ key; "--quiet"] = (o, m')) in E.
    rewrite machine_volume_ls in E. injection E as <- <-. split_and!; [done..|]. intros _ v. cbn [oc_stdout].
    rewrite volume_lines_unlines.
    + intros (u & -> & [Hu Huk]%list_elem_of_In%filter_In)%list_elem_of_fmap. apply list_elem_of_In in Hu. by rewrite (mc_users _ _ key).
    + pose proof (mc_good m) as (_ & _ & _ & Hp & _)%good_iff. by apply Forall_fmap_filter.
  - intros names m o m' E%machine_host_rt. change (volume_command m (["rm"; "--force"] ++ names) = (o, m')) in E.
    destruct (machine_volume_rm names m) as (m1 & Em & Hb & _). rewrite Em in E. injection E as <- <-.
    exists (concat (map (users m) names)). done.
Defined.
Lemma machine_host_podman (Hrt : rt = "podman") c rest stdin m o m' : machine_host ("podman" :: c :: rest) stdin m = (o, m') →
  machine_command c rest ("podman" :: c :: rest) m = (o, m').
Proof. unfold machine_host. by rewrite Hrt. Qed.
Definition machine_volumes (Hrt : rt = "podman") : @VolumeLaws machine machine_exec.
Proof.
  refine (@Build_VolumeLaws _ machine_exec mc_volumes _ _ _ _ _ _ _).
  - intros m. by apply (good_iff (mc_boxes m) (mc_volumes m)), mc_good.
  - intros m. by apply (good_iff (mc_boxes m) (mc_volumes m)), mc_good.
  - intros m v k1 k2 Hv H1 H2. pose proof (mc_users m v k1 Hv H1) as E. rewrite (mc_users m v k2 Hv H2) in E. congruence.
  - intros key m o m' Hk E%(machine_host_podman Hrt). change (volume_command m ["create"; "--label"; key +:+ "=true"] = (o, m')) in E. revert E.
    unfold volume_command, does. cbn [List.nth]. change (key +:+ "=true") with (key +:+ "=" +:+ "true"). rewrite (cut_at_key key "true" Hk).
    destruct (remake _ _ _) as [m1|] eqn:E; intros [= <- <-]; [right|by left].
    apply remake_Some in E as [_ ->]. exists ("volume-" +:+ Itoa (Z.of_nat (length (mc_volumes m)))). done.
  - intros key m o m' Hk E%(machine_host_podman Hrt). change (volume_command m ["ls"; "--filter"; "label=" +:+ key; "--quiet"] = (o, m')) in E.
    rewrite machine_volume_ls in E. by injection E as <- <-.
  - intros names m o m' E%(machine_host_podman Hrt). change (volume_command m (["rm"; "--force"] ++ names) = (o, m')) in E.
    destruct (machine_volume_rm names m) as (m1 & Em & _ & Hv). rewrite Em in E. injection E as <- <-.
    exists names. split_and!; done.
  - intros c rest stdin m o m' E%(machine_host_podman Hrt) Hc. revert E. unfold machine_command, does.
    repeat (case_match; simplify_eq/=); intros; simplify_eq/=; try done;
      match goal with H : remake _ _ _ = Some _ |- _ => by apply remake_Some in H as [_ ->] | H : (_ =s _) = true |- _ => by apply String.eqb_eq in H | _ => done end.
Defined.
Definition machine_volumes_up (Hrt : rt = "podman") : @VolumesUp machine machine_exec.
Proof.
  refine (@Build_VolumesUp _ machine_exec (machine_volumes Hrt) _ _).
  - intros key m o m' _ E%(machine_host_podman Hrt). change (volume_command m ["ls"; "--filter"; "label=" +:+ key; "--quiet"] = (o, m')) in E.
    rewrite machine_volume_ls in E. by injection E as <- _.
  - intros names m o m' _ _ _ E%(machine_host_podman Hrt). change (volume_command m (["rm"; "--force"] ++ names) = (o, m')) in E.
    destruct (machine_volume_rm names m) as (m1 & Em & _). rewrite Em in E. by injection E as <- _.
Defined.
(** Everything is listed, and what is there can be removed. *)
Definition machine_up : @RuntimeUp machine rt machine_exec machine_runtime.
Proof.
  refine (@Build_RuntimeUp _ rt machine_exec machine_runtime _ _ _).
  - intros cluster m o m' E%machine_host_rt. by injection E as <- _.
  - intros b m o m' _ E%machine_host_rt. by injection E as <- _.
  - intros names m o m' _ _ _ E%machine_host_rt. revert E. unfold machine_command, does. simpl.
    destruct (remove_boxes_only (λ b, negb (among names b)) m) as (m1 & -> & _). by intros [= <- _].
Defined.
End commands.

(** One after the other, in the order of the plan; no deadline passes. *)
#[export] Instance machine_schedule : Schedule machine := {| finish := λ _ n, seq 0 n; late := λ _ _, 0%nat; finish_perm := λ _ n, reflexivity _ |}.
#[export] Instance machine_deadline : Deadline machine := {| timed_out := λ _ _, false |}.
#[export] Instance machine_cache : ProviderCache machine := {|
  p_info := mc_info;
  set_p_info := λ i m, mkMachine (mc_boxes m) (mc_volumes m) (Some i) (mc_capx m) (mc_good m)
|}.
#[export] Instance machine_build : BuildContext machine := {|
  os_MkdirTemp := λ _ p, mret ("/tmp/" +:+ p +:+ "1");
  os_WriteFile := λ _ _, mret tt;
  stratioDockerfile := "FROM kindest/node";
  Capx_opts := mc_capx
|}.
Definition empty_machine : machine := mkMachine [] [] None (mkCAPX_Options "v1" "v2" "v3" "v4") eq_refl.
