(* ===== verification/DockerProvider.v ===== *)
(** * The docker provider

    src/pkg/cluster/internal/providers/docker/ (provider.go, node.go, util.go): the node
    provider on docker, composed of [Images], [Network], [Docker] and [Runtime].  Shown: a
    cluster that has been provisioned is listed with the planned nodes and roles, and
    its API server is found; and the provider keeps what [NodeProvider] and [Racing] rely on
    for what a creation leaves.  An example is left with a container that is made after the
    cleanup. *)

From stdpp Require Import sorting.
From S2P Require Import Prelude State Concurrent GoStr Exec KindConfig Nodes Network KeosTypes Docker Runtime Create NodeProvider Racing Images Machine.
Local Open Scope Z_scope.
Local Open Scope go_scope.
Local Open Scope stdpp_scope.

Definition fixedNetworkName : string := "kind".

Section provider.
Context {W : Type} `{!HostExec W, !DockerLibs, !NetLibs, !Host, !BuildContext W, !Schedule W, !Deadline W, !ProviderCache W}.

(** [docker -v]; no error. *)
Definition IsAvailable : st W bool :=
  lines ← try_ (host_OutputLines ["docker"; "-v"]);
  mret (match lines with Ok [l] => HasPrefix l "Docker version" | _ => false end).

Definition network_name : string :=
  let n := Getenv "KIND_EXPERIMENTAL_DOCKER_NETWORK" in if n <>s "" then n else fixedNetworkName.

(** What comes before the functions are run: they are planned. *)
Definition provision_plan (cfg : Cluster) (dockerRegUrl : string) (useLocalStratioImage buildStratioImage : bool) : st W (list container) :=
  ensureNodeImages cfg dockerRegUrl useLocalStratioImage buildStratioImage ;;
  st_wrap "failed to ensure docker network" (of_net (ensureNetwork network_name)) ;;
  planCreation cfg network_name.
Definition Provision (cfg : Cluster) (dockerRegUrl : string) (useLocalStratioImage buildStratioImage : bool) : st W unit :=
  createContainerFuncs ← provision_plan cfg dockerRegUrl useLocalStratioImage buildStratioImage;
  until_error (rt_create "docker" <$> createContainerFuncs).

Definition ListClusters : st W (list string) :=
  rt_ListClusters "docker" (js "{{.Label `" +:+ clusterLabelKey +:+ js "`}}").
Definition ListNodes (cluster : string) : st W (list string) := rt_ListNodes "docker" cluster.
Definition DeleteNodes (n : list string) : st W unit :=
  if Nat.eqb (length n) 0 then mret tt else rt_remove "docker" n.

(** *** The API server *)

Definition desktop_format : string :=
  js "{{ index .Config.Labels `desktop.docker.io/ports/" +:+ Itoa APIServerInternalPort +:+ js "/tcp` }}".
Definition tab : string := String (Ascii.ascii_of_nat 9) "".
Definition port_format : string :=
  js "{{ with (index (index .NetworkSettings.Ports `" +:+ Itoa APIServerInternalPort +:+
  js "/tcp`) 0) }}{{ printf `%s" +:+ tab +:+ js "%s` .HostIp .HostPort }}{{ end }}".

(** The two parts of the only line. *)
Definition parse_endpoint (lines : list string) : res string :=
  fail_when (negb (Nat.eqb (length lines) 1))
    ("network details should only be one line, got " +:+ Itoa (Z.of_nat (length lines)) +:+ " lines") ;;
  line ← index lines 0;
  match Split line tab with
  | [host; port] => Ok (JoinHostPort host port)
  | parts => Err ("network details should only be two parts, got " +:+ Itoa (Z.of_nat (length parts)))
  end.

Definition api_server_failure : string := "failed to get api server endpoint".
Definition GetAPIServerEndpoint (cluster : string) : st W string :=
  n ← rt_endpoint_node "docker" api_server_failure cluster;
  lines ← st_wrap "failed to get api server port" (host_OutputLines ["docker"; "inspect"; "--format"; desktop_format; n]);
  match lines with
  | [l] => if l <>s "" then mret l else
      lines ← st_wrap "failed to get api server port" (host_OutputLines ["docker"; "inspect"; "--format"; port_format; n]);
      pure (parse_endpoint lines)
  | _ =>
      lines ← st_wrap "failed to get api server port" (host_OutputLines ["docker"; "inspect"; "--format"; port_format; n]);
      pure (parse_endpoint lines)
  end.
Definition GetAPIServerInternalEndpoint (cluster : string) : st W string :=
  rt_GetAPIServerInternalEndpoint "docker" api_server_failure cluster.

(** The answer of the first call that succeeds is kept. *)
Definition Info : st W ProviderInfo :=
  cached ← get p_info;
  match cached with
  | Some i => mret i
  | None => i ← info; modify (set_p_info i) ;; mret i
  end.

(** *** node.go *)

Definition Role (n : string) : st W string := rt_Role "docker" n.
Definition IP (n : string) : st W (string * string) := rt_IP "docker" n.
Definition node_Run (n : string) (env : list string) (command : list string) (stdin : option string) : st W string :=
  rt_node_Run "docker" n env command stdin.
Definition SerialLogs (n : string) : st W (string * option string) := rt_SerialLogs "docker" n.
End provider.

(** ** What is planned *)

Lemma unlabelled_mappings `{Host} family pms args : generatePortMappings family pms = Ok args → unlabelled args.
Proof.
  unfold generatePortMappings. intros E. apply unlabelled_switches. revert args E. generalize 0%nat.
  induction pms as [|pm pms IH]; intros i args; cbn [generatePortMappings_from]; [by intros [= <-]|].
  intros (a & Ha & E)%bind_Ok_iff. apply bind_Ok_iff in E as (l & Hl & [= <-]). constructor; [|by eapply IH].
  unfold generatePortMapping in Ha. apply bind_Ok_iff in Ha as (listen & _ & Ha). apply bind_unit_Ok in Ha as [_ Ha].
  apply bind_Ok_iff in Ha as (port & _ & <-%Ok_inj). by repeat constructor.
Qed.

Section planning.
Context {W : Type} `{!HostExec W, !DockerLibs, !Host, !RuntimeLaws W "docker"}.
Abbreviation keeps m := (sat m (same_boxes "docker") (same_boxes "docker")).

Lemma lines_keeps c rest : str_in c quiet_commands = true → keeps (host_OutputLines ("docker" :: c :: rest)).
Proof. intros Hc. by apply quiet_OutputLines, quiet_head. Qed.

Lemma usernsRemap_keeps : keeps usernsRemap.
Proof. unfold usernsRemap. sat_step; [by apply sat_try_always, lines_keeps|apply sat_ret]. Qed.
Lemma mountDevMapper_keeps : keeps mountDevMapper.
Proof.
  unfold mountDevMapper. cbv zeta. repeat (sat_step || by apply sat_try_always, lines_keeps).
Qed.
Lemma info_keeps : keeps info.
Proof. unfold info. repeat sat_step. by apply quiet_Output, quiet_head. Qed.
Lemma mountFuse_keeps : keeps mountFuse.
Proof. unfold mountFuse. sat_step; [apply sat_try_always, info_keeps|apply sat_ret]. Qed.
Lemma getSubnets_keeps n : keeps (getSubnets n).
Proof. unfold getSubnets. repeat sat_step. by apply lines_keeps. Qed.
Lemma commonArgs_keeps cluster cfg n names : keeps (commonArgs cluster cfg n names).
Proof.
  unfold commonArgs, getProxyEnv.
  repeat (sat_step || apply getSubnets_keeps || apply usernsRemap_keeps || apply mountDevMapper_keeps || apply mountFuse_keeps).
Qed.
Lemma planCreation_keeps cfg n : keeps (planCreation cfg n).
Proof. unfold planCreation. repeat (sat_step || apply commonArgs_keeps). Qed.

Lemma commonArgs_labels cluster cfg n names (w : W) args w' :
  commonArgs cluster cfg n names w = (Ok args, w') → labels_cluster cluster args.
Proof.
  unfold commonArgs. intros (env & w1 & _ & E)%st_bind_Ok. apply st_bind_Ok in E as (b1 & w2 & _ & E).
  apply st_bind_Ok in E as (b2 & w3 & _ & E). apply st_bind_Ok in E as (b3 & w4 & _ & [= <- _]).
  eexists ["--detach"; "--tty"], (["--net"; n] ++ ["--restart=on-failure:1"; "--init=false"] ++ _).
  split_and!; [reflexivity|by apply unlabelled_switches; repeat constructor|].
  apply unlabelled_app; [by apply unlabelled_value|].
  apply unlabelled_app; [by apply unlabelled_switches; repeat constructor|].
  repeat apply unlabelled_app; [apply unlabelled_ipv6|apply unlabelled_env|apply unlabelled_if..].
  - apply unlabelled_switches. by repeat constructor.
  - by apply unlabelled_value.
  - by apply unlabelled_value.
Qed.

Lemma runArgsForNode_labels cluster node family name args args' :
  labels_cluster cluster args → image_ok (no_Image node) → runArgsForNode node family name args = Ok args' →
  labels_of args' !! clusterLabelKey = Some cluster ∧ labels_of args' !! nodeRoleLabelKey = Some (no_Role node).
Proof.
  intros (pre & post & -> & Hpre & Hpost) Hi. unfold runArgsForNode.
  intros (ms & Hms%unlabelled_mappings & <-%Ok_inj)%bind_Ok_iff.
  apply (labels_of_node _ ["--hostname"; name] (no_Role node) (["--privileged"; "--security-opt"; "seccomp=unconfined";
    "--security-opt"; "apparmor=unconfined"; "--tmpfs"; "/tmp"; "--tmpfs"; "/run"; "--volume"; "/var"; "--volume";
    "/lib/modules:/lib/modules:ro"; "-e"; "KIND_EXPERIMENTAL_CONTAINERD_SNAPSHOTTER"] ++ pre) cluster
    (post ++ generateMountBindings (no_ExtraMounts node) ++ ms ++
     (if no_Role node =s ControlPlaneRole then ["-e"; "KUBECONFIG=/etc/kubernetes/admin.conf"] else []))
    (no_Image node)); [by rewrite <-!app_assoc|by apply unlabelled_value| | |done].
  - apply unlabelled_app; [|done]. apply (unlabelled_app ["--privileged"]); [apply unlabelled_switches; by repeat constructor|].
    do 6 (apply (unlabelled_app [_; _]); [by apply unlabelled_value|]). by apply unlabelled_value.
  - repeat apply unlabelled_app; [done|apply unlabelled_mounts|done|]. apply unlabelled_if. by apply unlabelled_value.
Qed.

Lemma runArgsForLoadBalancer_labels cluster cfg name args args' :
  labels_cluster cluster args → runArgsForLoadBalancer cfg name args = Ok args' →
  labels_of args' !! clusterLabelKey = Some cluster ∧
  labels_of args' !! nodeRoleLabelKey = Some ExternalLoadBalancerNodeRoleValue.
Proof.
  intros (pre & post & -> & Hpre & Hpost). unfold runArgsForLoadBalancer.
  intros (ms & Hms%unlabelled_mappings & <-%Ok_inj)%bind_Ok_iff.
  apply (labels_of_node _ ["--hostname"; name] _ pre cluster (post ++ ms) loadbalancer_Image);
    [by rewrite <-!app_assoc|by apply unlabelled_value|done| |done].
  by apply unlabelled_app.
Qed.

Lemma plan_planned cfg net (w : W) cs w' :
  let names := name_nodes (kc_Name cfg) ∅ (planned_roles cfg) in
  Validate cfg = None → Forall (λ n, image_ok (no_Image n)) (kc_Nodes cfg) → planCreation cfg net w = (Ok cs, w') →
  ∃ lb nodes, cs = lb ++ nodes ∧ Forall2 (planned "docker" (kc_Name cfg)) (zip names (planned_roles cfg)) (nodes ++ lb).
Proof.
  intros names (_ & _ & _ & _ & _ & Hnodes & _)%Validate_iff Hi (args & w1 & Hargs%commonArgs_labels & [Hcs _]%pure_run)%st_bind_Ok.
  eapply plan_all in Hcs as (lb & nodes & -> & _ & Hf); [by exists lb, nodes|done|..].
  - intros node name c Hn. rewrite Forall_forall in Hi. specialize (Hi node Hn). unfold plan_node.
    intros (mounts & _ & Hc)%bind_Ok_iff. cbn [no_Role with_mounts] in Hc.
    destruct (no_Role node =s ControlPlaneRole); [|destruct (no_Role node =s WorkerRole); [|done]]; injection Hc as <-.
    + apply (planned_pure "docker" _ (name, no_Role node)). intros args'. by apply (runArgsForNode_labels _ (with_mapping (with_mounts node mounts) _)).
    + apply (planned_pure "docker" _ (name, no_Role node)). intros args'. by apply (runArgsForNode_labels _ (with_mounts node mounts)).
  - intros name. apply (planned_pure "docker" _ (name, _)). intros args'. by apply runArgsForLoadBalancer_labels.
Qed.
End planning.

(** ** Provisioning *)

(** Files and what the provider remembers are no containers. *)
Class OtherLaws (W : Type) `{!HostExec W, !BuildContext W, !ProviderCache W} (rt : string) `{!RuntimeLaws W rt} := {
  MkdirTemp_keeps dir pattern : sat (os_MkdirTemp dir pattern) (same_boxes rt) (same_boxes rt);
  WriteFile_keeps path content : sat (os_WriteFile path content) (same_boxes rt) (same_boxes rt);
  set_p_info_keeps i w : boxes (set_p_info i w) = boxes w
}.

(** Computations with the docker daemon that leave the containers as they are. *)
Section network.
Context {W : Type} `{!HostExec W, !NetLibs, !RuntimeLaws W "docker"}.
Abbreviation net_keeps m := (Runtime.net_keeps "docker" m).

Lemma net_keeps_forgive h (m : net W unit) : net_keeps m → net_keeps (forgive h m).
Proof. intros Hm w r w'. unfold forgive. destruct (m w) as [[]] eqn:E; apply Hm in E; [|destruct (h e)|]; by intros [= _ <-]. Qed.

Lemma inspectNetworks_keeps ids : net_keeps (inspectNetworks ids).
Proof.
  intros w r w'. unfold inspectNetworks, decode. destruct (host _ None w) as [o w1] eqn:E.
  apply (net_keeps_host "docker") in E as <-; [|done].
  destruct (run_error _ o); [destruct (isOnlyErrorNoSuchNetwork _)|]; by intros [= _ <-].
Qed.
Lemma removeDuplicateNetworks_same name : net_keeps (removeDuplicateNetworks name).
Proof.
  unfold removeDuplicateNetworks, sortedNetworksWithName, networksWithName.
  apply net_keeps_bind; [|intros l; apply net_keeps_bind; [|intros; apply net_keeps_ret]].
  - apply net_keeps_bind; [apply net_keeps_bind; [by apply net_keeps_Output|intros; apply net_keeps_ret]|].
    intros l. destruct (Nat.ltb _ 2); [apply net_keeps_ret|].
    apply net_keeps_bind; [apply inspectNetworks_keeps|intros; apply net_keeps_ret].
  - destruct (Nat.ltb 1 _); [|apply net_keeps_ret]. apply net_keeps_forgive. by apply net_keeps_Run.
Qed.
Lemma createNetworkNoDuplicates_same name s mtu : net_keeps (createNetworkNoDuplicates name s mtu).
Proof.
  unfold createNetworkNoDuplicates. apply net_keeps_bind; [apply net_keeps_forgive; by apply net_keeps_Run|intros _].
  apply net_keeps_bind; [apply removeDuplicateNetworks_same|intros; apply net_keeps_ret].
Qed.
Lemma after_overlap_same name retry : net_keeps retry → net_keeps (after_overlap name retry).
Proof.
  intros Hr. unfold after_overlap, checkIfNetworkExists.
  apply net_keeps_bind; [apply net_keeps_bind; [by apply net_keeps_Output|intros; apply net_keeps_ret]|].
  intros []; [apply net_keeps_ret|done].
Qed.
Lemma more_attempts_same name mtu attempt more : net_keeps (more_attempts name mtu attempt more).
Proof.
  revert attempt. induction more as [|more IH]; intros attempt w r w'; cbn [more_attempts]; [by intros [= _ <-]|].
  destruct (createNetworkNoDuplicates _ _ _ w) as [[[]|e|x] w1] eqn:E; apply createNetworkNoDuplicates_same in E as E1;
    [by intros [= _ <-]| |by intros [= _ <-]].
  destruct (isPoolOverlapError e) as [[]|]; [|by intros [= _ <-]..].
  intros E2. apply after_overlap_same in E2; [congruence|apply IH].
Qed.
Lemma ensureNetwork_same name : net_keeps (ensureNetwork name).
Proof.
  unfold ensureNetwork. apply net_keeps_bind; [apply removeDuplicateNetworks_same|]. intros []; [apply net_keeps_ret|].
  apply net_keeps_bind.
  - intros w r w'. unfold getDefaultNetworkMTU. destruct (host _ None w) as [o w1] eqn:E.
    apply (net_keeps_host "docker") in E; [|done]. by intros [= _ <-].
  - intros mtu w r w'. unfold first_attempt.
    destruct (createNetworkNoDuplicates _ _ _ w) as [[[]|e|x] w1] eqn:E; apply createNetworkNoDuplicates_same in E as E1;
      [by intros [= _ <-]| |by intros [= _ <-]].
    destruct (isIPv6UnavailableError e); [intros E2; apply createNetworkNoDuplicates_same in E2; congruence|].
    destruct (isPoolOverlapError e) as [[]|]; [|by intros [= _ <-]..].
    intros E2. apply after_overlap_same in E2; [congruence|apply more_attempts_same].
Qed.
End network.

Section facts.
Context {W : Type} `{!HostExec W, !DockerLibs, !NetLibs, !Host, !BuildContext W, !Schedule W, !Deadline W, !ProviderCache W}.
Context `{!RuntimeLaws W "docker", !OtherLaws W "docker"}.
Abbreviation keeps m := (sat m (same_boxes "docker") (same_boxes "docker")).
Abbreviation nodes_of cluster w := (nodes_in "docker" cluster w).

Lemma ensure_image_keeps url l b image : keeps (ensure_image url l b image).
Proof.
  unfold ensure_image, ensureStratioImageFiles, buildStratioImageFromDockerfile, tag. cbv zeta.
  repeat (sat_step || apply MkdirTemp_keeps || apply WriteFile_keeps || apply pullIfNotPresent_keeps ||
          by apply quiet_keeps).
Qed.
Lemma ensureNodeImages_keeps cfg url l b : keeps (ensureNodeImages cfg url l b).
Proof. unfold ensureNodeImages. sat_step. apply ensure_image_keeps. Qed.

(** Nothing is made before the functions run. *)
Lemma provision_plan_keeps cfg url l b : keeps (provision_plan cfg url l b).
Proof.
  unfold provision_plan. sat_step; [apply ensureNodeImages_keeps|].
  sat_step; [apply sat_wrap, of_net_keeps, ensureNetwork_same|apply planCreation_keeps].
Qed.
Lemma provision_plan_run cfg url l b (w : W) cs w' : provision_plan cfg url l b w = (Ok cs, w') →
  ∃ w1, planCreation cfg network_name w1 = (Ok cs, w').
Proof.
  unfold provision_plan. intros ([] & w1 & _ & E)%st_bind_Ok. apply st_bind_Ok in E as ([] & w2 & _ & E). by exists w2.
Qed.
Lemma provision_plan_args cfg url l b (w : W) cs w' : provision_plan cfg url l b w = (Ok cs, w') →
  Forall (quiet_args "docker") cs.
Proof.
  intros (w1 & (args & w2 & _ & [Hcs _]%pure_run)%st_bind_Ok)%provision_plan_run.
  eapply plan_Forall; [..|exact Hcs]; intros; apply sat_pure.
Qed.
Lemma provision_plan_planned cfg url l b (w : W) cs w' :
  Validate cfg = None → Forall (λ n, image_ok (no_Image n)) (kc_Nodes cfg) → provision_plan cfg url l b w = (Ok cs, w') →
  ∃ ds, Forall2 (planned "docker" (kc_Name cfg)) (planned_nodes cfg) ds ∧ cs ≡ₚ ds.
Proof.
  intros Hv Hi (w1 & Hp)%provision_plan_run. destruct (plan_planned _ _ _ _ _ Hv Hi Hp) as (lb & nodes & -> & Hf).
  exists (nodes ++ lb). split; [exact Hf|apply Permutation_app_comm].
Qed.

(** What [Create] relies on. *)
Lemma Info_keeps : keeps Info.
Proof.
  unfold Info. sat_step; [apply sat_get|]. destruct a; [apply sat_ret|]. repeat (sat_step || apply info_keeps).
  intros w. by apply set_p_info_keeps.
Qed.
Lemma DeleteNodes_removes n (w : W) r w' : n ⊆ bx_name <$> boxes w → DeleteNodes n w = (r, w') →
  ∃ gone, gone ⊆ n ∧ (r = Ok tt → gone = n) ∧ boxes w' = List.filter (λ b, negb (among gone b)) (boxes w).
Proof.
  intros _. unfold DeleteNodes. destruct n as [|x n]; [|apply remove_boxes]. intros [= <- <-]. exists []. by rewrite none_removed.
Qed.

#[export] Instance docker_provider : NodeProvider W "docker" := {|
  np_Info := Info; np_plan := provision_plan; np_DeleteNodes := DeleteNodes;
  np_Info_keeps := Info_keeps; np_plan_keeps := provision_plan_keeps; np_plan_args := provision_plan_args;
  np_plan_planned := provision_plan_planned; np_DeleteNodes_removes := DeleteNodes_removes
|}.
#[export] Instance docker_provider_up `{!RuntimeUp W "docker"} : NodeProviderUp W "docker".
Proof.
  split. intros n w Hd Hn. cbn [np_DeleteNodes docker_provider]. unfold DeleteNodes. destruct n as [|x n]; [by exists w|].
  destruct (remove_up "docker" (x :: n) w) as (w' & E & _); [done..|]. by exists w'.
Qed.
End facts.

(** ** A cluster on a small machine *)

Module DemoProvider.
(** There is a network, with one subnet; and every container starts. *)
Definition answer (args : list string) : string :=
  if str_in "network" args then (if str_in "inspect" args then "172.18.0.0/16 " else "4a5b" +:+ Runtime.newline)
  else if str_in "logs" args then "detected cgroup v1" else "x".
Section demo.
Context (refused : string → bool).
#[export] Instance exec : HostExec machine := machine_exec "docker" refused answer.
#[export] Instance runtime : RuntimeLaws machine "docker" := machine_runtime "docker" refused answer.
#[export] Instance is_up : RuntimeUp machine "docker" := machine_up "docker" refused answer.
#[export] Instance other : OtherLaws machine "docker".
Proof. refine (@Build_OtherLaws _ _ _ _ "docker" _ _ _ _); by intros. Defined.
Definition provision (cfg : Cluster) : st machine unit :=
  @Provision machine exec demo_docker_libs Network.demo_libs demo_host machine_build machine_schedule
    machine_deadline cfg "" false false.
End demo.

(** Kubeconfig files are none of the machine's; [fails] says which actions fail. *)
Definition steps (fails : action → bool) : ClusterSteps machine := {|
  cs_Export := λ _ _ _, mret tt;
  cs_Remove := λ _ _, mret tt;
  cs_set_Capx_opts := λ v, modify (λ m, mkMachine (mc_boxes m) (mc_volumes m) (mc_info m) v (mc_good m));
  cs_Execute := λ a _, if fails a then pure (Err "failed") else mret tt
|}.
Definition steps_laws fails refused :
  @ClusterStepsLaws machine "docker" (exec refused) (runtime refused) (steps fails).
Proof.
  refine (@Build_ClusterStepsLaws _ _ _ _ (steps fails) _ _ _ _).
  - by intros.
  - intros name path w r w' [= <- <-]. done.
  - intros v w. by eexists.
  - intros a cfg w. simpl. by destruct (fails a).
Defined.
Definition provider (refused : string → bool) : @NodeProvider machine "docker" (exec refused) (runtime refused) :=
  @docker_provider machine (exec refused) demo_docker_libs Network.demo_libs demo_host machine_build
    machine_cache (runtime refused) (other refused).
Definition world (fails : action → bool) (refused : string → bool) : Env machine :=
  @cluster_env machine "docker" (exec refused) (runtime refused) (provider refused) machine_deadline machine_schedule (steps fails).
Definition create (fails : action → bool) (refused : string → bool) : st machine unit :=
  @create_Cluster machine (world fails refused) demo_build DemoEnv.opts.

(** There is a cluster already. *)
Definition busy : machine :=
  mkMachine [mkBox "prod-control-plane" (<[nodeRoleLabelKey := "control-plane"]> {[clusterLabelKey := "prod"]})]
    [] None (mkCAPX_Options "" "" "" "") eq_refl.

(** A cluster of several nodes, the load balancer of which is made first. *)
Definition ha_opts : ClusterOptions :=
  mkClusterOptions (Some demo_ha) "ha" "" "" false false false false zero_KeosCluster (Some zero_ClusterConfig)
    (mkClusterCredentials ∅ ∅ [] ∅ "") "" false "" false 0 "" false false false.
Definition no_lb (name : string) : bool := name =s "ha-external-load-balancer".
(** So many of the functions that run on take their effect before each step. *)
Definition pace (k : nat) : Schedule machine :=
  {| finish := λ _ n, seq 0 n; late := λ _ _, k; finish_perm := λ _ n, reflexivity _ |}.
Definition race (k : nat) : res unit * @racing machine :=
  @create_Cluster _ (@racing_env machine "docker" (exec no_lb) (runtime no_lb) (provider no_lb) machine_deadline (pace k) (steps (λ _, false)))
    demo_build ha_opts (mkRacing empty_machine []).
End DemoProvider.

Lemma Provision_lists_witness :
  let w' := snd (DemoProvider.provision (λ _, false) demo_ha empty_machine) in
  ∃ out w1, @rt_ListNodes machine (DemoProvider.exec (λ _, false)) "docker" "ha" w' = (Ok out, w1) ∧
    out ≡ₚ ["ha-control-plane"; "ha-worker"; "ha-control-plane2"; "ha-external-load-balancer"].
Proof.
  intros w'.
  refine (proj1 (@Provision_lists machine "docker" (DemoProvider.exec (λ _, false)) (DemoProvider.runtime (λ _, false))
    (DemoProvider.provider (λ _, false)) machine_deadline machine_schedule (DemoProvider.is_up (λ _, false))
    "failed" demo_ha "" false false empty_machine w' _ _ _ _)).
  - vm_compute. reflexivity.
  - repeat constructor.
  - reflexivity.
  - assert (fst (DemoProvider.provision (λ _, false) demo_ha empty_machine) = Ok tt) as <- by (vm_compute; reflexivity).
    apply surjective_pairing.
Defined.

Lemma create_touches_no_other_witness :
  @nodes_in machine (DemoProvider.exec (λ _, false)) "docker" (DemoProvider.runtime (λ _, false)) "prod"
    (snd (DemoProvider.create DemoEnv.fails_init (λ _, false) DemoProvider.busy)) = ["prod-control-plane"].
Proof.
  refine (@create_touches_no_other machine "docker" (DemoProvider.exec (λ _, false)) (DemoProvider.runtime (λ _, false))
    (DemoProvider.provider (λ _, false)) machine_deadline machine_schedule (DemoProvider.steps DemoEnv.fails_init)
    (DemoProvider.steps_laws DemoEnv.fails_init (λ _, false)) demo_build DemoEnv.opts DemoProvider.busy _
    (fst (DemoProvider.create DemoEnv.fails_init (λ _, false) DemoProvider.busy)) _ (surjective_pairing _) "prod" _).
  - repeat constructor.
  - done.
Defined.

(** The load balancer cannot be made.  With a slow pace nothing is left after the deletion,
    but the functions for three nodes still run; with a quicker one, one of the nodes is
    made, one is listed and deleted, and one comes after the list. *)
Example cleanup_too_early :
  let view k := let '(r, s) := DemoProvider.race k in
    (is_Ok r, bx_name <$> mc_boxes (rc_world s), ct_name <$> rc_running s) in
  view 0%nat = (false, [], ["ha-control-plane"; "ha-worker"; "ha-control-plane2"]) ∧
  view 1%nat = (false, ["ha-control-plane2"; "ha-worker"], []).
Proof. vm_compute. done. Qed.

Lemma create_leaves_no_containers_witness :
  let '(r, s') := DemoProvider.race 1 in
  let remaining := @nodes_in machine (DemoProvider.exec DemoProvider.no_lb) "docker" (DemoProvider.runtime DemoProvider.no_lb) "ha" (rc_world s') in
  remaining = ["ha-control-plane2"; "ha-worker"] ∧
  ∃ e cs w2 running w3, r = Err e ∧
    @at_once machine _ (DemoProvider.pace 1) (@rt_create machine (DemoProvider.exec DemoProvider.no_lb) "docker" _) cs w2 = (Err e, running, w3) ∧
    remaining ⊆ ct_name <$> running.
Proof.
  assert (is_Panic (fst (DemoProvider.race 1)) = false ∧
    @nodes_in machine (DemoProvider.exec DemoProvider.no_lb) "docker" (DemoProvider.runtime DemoProvider.no_lb) "ha"
      (rc_world (snd (DemoProvider.race 1))) = ["ha-control-plane2"; "ha-worker"]) as [Hp Hb] by (split; vm_compute; reflexivity).
  destruct (DemoProvider.race 1) as [r s'] eqn:E. cbn [fst snd] in Hp, Hb.
  intros remaining. split; [exact Hb|].
  destruct (@create_leaves_no_containers machine "docker" (DemoProvider.exec DemoProvider.no_lb) (DemoProvider.runtime DemoProvider.no_lb)
    (DemoProvider.provider DemoProvider.no_lb) machine_deadline (DemoProvider.pace 1) (DemoProvider.steps (λ _, false))
    (DemoProvider.steps_laws (λ _, false) DemoProvider.no_lb) (DemoProvider.is_up DemoProvider.no_lb)
    (@docker_provider_up _ _ _ _ _ _ _ _ (DemoProvider.other DemoProvider.no_lb) (DemoProvider.is_up DemoProvider.no_lb))
    demo_build DemoProvider.ha_opts empty_machine s' r eq_refl eq_refl E Hp)
    as [[_ [H|H]]|[[_ (e & w1 & _ & He)]|(e & w1 & cs & w2 & running & w3 & Hr & _ & Ha & Hs & _)]].
  - exfalso. change (remaining = []) in H. unfold remaining in H. by rewrite Hb in H.
  - exfalso. change (remaining = []) in H. unfold remaining in H. by rewrite Hb in H.
  - exfalso. apply (f_equal (λ p, is_Ok (fst p))) in He. change (true = false) in He. congruence.
  - exists e, cs, w2, running, w3. exact (conj Hr (conj Ha Hs)).
Defined.
