(* ===== verification/PodmanProvider.v ===== *)
(** * The podman provider

    src/pkg/cluster/internal/providers/podman/ (util.go, network.go, provision.go,
    provider.go, node.go): the node provider on podman.  What does not depend on the
    program is in [Docker] (mounts, ports, the plan) and [Runtime]; here is what podman
    does differently: its version, its volumes, its network.  Shown: it keeps what
    [Create] relies on; deleting nodes deletes their volumes; and a node whose
    container could not be made leaves its volume behind. *)

From stdpp Require Import sorting.
From S2P Require Import Prelude State Concurrent GoStr Exec Version KindConfig Nodes Network Docker Runtime Create NodeProvider Images Machine.
Local Open Scope Z_scope.
Local Open Scope go_scope.
Local Open Scope stdpp_scope.

(** ** Data *)

(** [podman info --format json]. *)
Record podmanInfo := mkPodmanInfo {
  pi_CgroupVersion : string; pi_CgroupControllers : list string; pi_Rootless : bool }.
Record podmanStorageInfo := mkPodmanStorageInfo { ps_GraphDriverName : string; ps_BackingFilesystem : string }.
(** [podman network inspect]: the subnets, and those of the ranges of every plugin. *)
Record podmanNetwork := mkPodmanNetwork { pn_Subnets : list string; pn_Plugins : list (list (list string)) }.
(** A port mapping as podman 1.9 and as podman 2.0 print it. *)
Record portMapping19 := mkPortMapping19 { p19_HostPort : Z; p19_ContainerPort : Z; p19_Protocol : string; p19_HostIP : string }.
Record portMapping20 := mkPortMapping20 { p20_HostPort : string; p20_HostIP : string }.

(** The decoders of JSON.  The entries of the map of port mappings come in the order in
    which the loop meets them. *)
Class PodmanLibs := {
  json_podmanInfo : string → res podmanInfo;
  json_podmanStorageInfo : string → option podmanStorageInfo;
  json_podmanNetworks : string → res (list podmanNetwork);
  json_portMappings20 : string → option (list (string * list portMapping20));
  json_portMappings19 : string → res (list portMapping19)
}.

(** ** util.go *)

Definition minSupportedVersion : string := "1.8.0".

Section util.
Context {W : Type} `{!HostExec W, !PodmanLibs}.

Definition IsAvailable : st W bool :=
  lines ← try_ (host_OutputLines ["podman"; "-v"]);
  mret (match lines with Ok [l] => HasPrefix l "podman version" | _ => false end).

(** The third word of [podman version 1.7.1-dev]. *)
Definition parse_podman_version (lines : list string) : res Version :=
  match lines with
  | [line] =>
      match Split line " " with
      | [_; _; v] => ParseSemantic v
      | _ => Err ("podman --version contents should have 3 parts, got " +:+ Q line)
      end
  | _ => Err ("podman version should only be one line, got " +:+ Itoa (Z.of_nat (length lines)))
  end.
Definition getPodmanVersion : st W Version :=
  lines ← host_OutputLines ["podman"; "--version"];
  pure (parse_podman_version lines).

Definition ensureMinVersion : st W unit :=
  v ← st_wrap "failed to check podman version" getPodmanVersion;
  min ← pure (MustParseSemantic minSupportedVersion);
  pure (fail_when (negb (AtLeast v min))
    ("podman version " +:+ Q (String_ (Some v)) +:+ " is too old, please upgrade to " +:+ Q minSupportedVersion +:+ " or later")).

(** The name of the volume. *)
Definition createAnonymousVolume (label : string) : st W string :=
  name ← host_Output ["podman"; "volume"; "create"; "--label"; label +:+ "=true"];
  mret (TrimSuffix name Runtime.newline).

Definition getVolumes (label : string) : st W (list string) :=
  output ← host_Output ["podman"; "volume"; "ls"; "--filter"; "label=" +:+ label; "--quiet"];
  mret (volume_lines output).

Definition deleteVolumes (names : list string) : st W unit :=
  host_Run (["podman"; "volume"; "rm"; "--force"] ++ names).

Definition mountDevMapper : st W bool :=
  out ← try_ (host_Output ["podman"; "info"; "--format"; "json"]);
  mret (match out with
        | Ok out =>
            match json_podmanStorageInfo out with
            | Some s => str_in (ps_GraphDriverName s) ["btrfs"; "zfs"; "devicemapper"] ||
                        str_in (ps_BackingFilesystem s) ["btrfs"; "xfs"; "zfs"]
            | None => false
            end
        | _ => false
        end).

(** [info] of provider.go.  Before version 4 podman does not list the controllers, and
    all are taken to be there. *)
Definition podman_info_output : st W string := λ w,
  let args := ["podman"; "info"; "--format"; "json"] in
  let '(o, w) := host args None w in
  (match run_error args o with
   | None => Ok (oc_stdout o)
   | Some e => Err ("failed to get podman info (podman info --format json): " +:+ Q (oc_stdout o) +:+ ": " +:+ RunError_Error e)
   end, w).
Definition provider_info (pInfo : podmanInfo) (v v4 : Version) : ProviderInfo :=
  let given c := if AtLeast v v4 then str_in c (pi_CgroupControllers pInfo) else true in
  mkProviderInfo (pi_Rootless pInfo) (pi_CgroupVersion pInfo =s "v2") (given "memory") (given "pids") (given "cpu").
Definition info : st W ProviderInfo :=
  out ← podman_info_output;
  pInfo ← pure (json_podmanInfo out);
  v ← st_wrap "failed to check podman version" getPodmanVersion;
  v4 ← pure (MustParseSemantic "4.0.0");
  mret (provider_info pInfo v v4).

Definition mountFuse : st W bool :=
  i ← try_ info;
  mret (match i with Ok i => Rootless i | _ => false end).

(** [getSubnets] of provision.go. *)
Definition subnets_of (networks : list podmanNetwork) : list string :=
  concat (map (λ n, pn_Subnets n ++ concat (map (λ p, concat p) (pn_Plugins n))) networks).
Definition getSubnets (networkName : string) : st W (list string) :=
  out ← st_wrap "failed to get subnets" (host_Output ["podman"; "network"; "inspect"; networkName]);
  networks ← st_wrap "failed to get subnets" (pure (json_podmanNetworks out));
  mret (subnets_of networks).
End util.

(** ** network.go *)

Section network.
Context {W : Type} `{!HostExec W, !NetLibs}.

Definition createNetwork (name ipv6Subnet : string) : net W unit :=
  net_Run (["podman"; "network"; "create"; "-d=bridge"] ++
           (if ipv6Subnet =s "" then [] else ["--ipv6"; "--subnet"; ipv6Subnet]) ++ [name]).

Definition checkIfNetworkExists (name : string) : net W bool := λ w,
  let '(o, w) := host ["podman"; "network"; "inspect"; QuoteMeta name] None w in
  (NOk (match oc_error o with None => true | Some _ => false end), w).

Definition isUnknownIPv6FlagError (e : nerr) : bool :=
  match RunErrorForError e with Some e => Contains (re_Output e) "unknown flag: --ipv6" | None => false end.
Definition isPoolOverlapError (e : nerr) : bool :=
  match RunErrorForError e with
  | Some e => Contains (re_Output e) "is already used on the host or by another config" ||
              Contains (re_Output e) "is being used by a network interface" ||
              Contains (re_Output e) "is already being used by a cni configuration"
  | None => false
  end.

(** The attempts [attempt, ..., 4]; the subnets are those of the docker provider. *)
Fixpoint more_attempts (name : string) (attempt : Z) (more : nat) : net W unit :=
  match more with
  | O => λ w, (NErr (OtherErr "exhausted attempts trying to find a non-overlapping subnet"), w)
  | S more => λ w,
      match createNetwork name (generateULASubnetFromName name attempt) w with
      | (NErr e, w) => if isPoolOverlapError e then more_attempts name (attempt + 1) more w else (NErr e, w)
      | o => o
      end
  end.
Definition first_attempt (name : string) : net W unit := λ w,
  match createNetwork name (generateULASubnetFromName name 0) w with
  | (NErr e, w) =>
      if isUnknownIPv6FlagError e then createNetwork name "" w
      else if negb (isPoolOverlapError e) then (NErr e, w)
      else more_attempts name 1 4 w
  | o => o
  end.
Definition ensureNetwork (name : string) : net W unit :=
  exists_ ← checkIfNetworkExists name;
  if (exists_ : bool) then mret tt else first_attempt name.
End network.

(** ** provision.go *)

Section provision.
Context `{Host} {W : Type} `{!HostExec W, !PodmanLibs}.

Definition getProxyEnv (cfg : Cluster) (networkName : string) (nodeNames : list string) : st W (gmap string string) :=
  let envs := GetProxyEnvs cfg in
  if Nat.ltb 0 (size envs) then
    subnets ← getSubnets networkName;
    mret (with_no_proxy subnets nodeNames envs)
  else mret envs.

Definition commonArgs (cfg : Cluster) (networkName : string) (nodeNames : list string) : st W (list string) :=
  let args := ["--detach"; "--tty"; "--net"; networkName;
               "--label"; clusterLabelKey +:+ "=" +:+ kc_Name cfg; "-e"; "container=podman"] in
  let args := args ++ ipv6_args cfg in
  proxyEnv ← st_wrap "proxy setup error" (getProxyEnv cfg networkName nodeNames);
  let args := args ++ env_args proxyEnv in
  mapper ← mountDevMapper;
  let args := args ++ (if mapper : bool then ["--volume"; "/dev/mapper:/dev/mapper"] else []) in
  fuse ← mountFuse;
  mret (args ++ (if fuse : bool then ["--device"; "/dev/fuse"] else [])).

(** The port 0 is left out: podman takes none for a random one. *)
Definition generatePortMapping (clusterIPFamily : string) (i : nat) (pm : PortMapping) : res string :=
  listen ← mapping_address clusterIPFamily pm;
  let protocol := dflt (pm_Protocol pm) "TCP" in
  fail_when (negb (str_in protocol ["TCP"; "UDP"; "SCTP"])) ("unknown port mapping protocol: " +:+ protocol) ;;
  hostPort ← errors_Wrap "failed to get random host port for port mapping"
               (PortOrGetFreePort i (pm_HostPort pm) listen);
  let hostPortBinding := JoinHostPort listen (Itoa hostPort) in
  let hostPortBinding := if HasSuffix hostPortBinding ":0" then TrimSuffix hostPortBinding "0" else hostPortBinding in
  Ok ("--publish=" +:+ hostPortBinding +:+ ":" +:+ Itoa (pm_ContainerPort pm) +:+ "/" +:+ ToLower protocol).
Fixpoint generatePortMappings_from (clusterIPFamily : string) (i : nat) (pms : list PortMapping) : res (list string) :=
  match pms with
  | [] => Ok []
  | pm :: pms =>
      arg ← generatePortMapping clusterIPFamily i pm;
      args ← generatePortMappings_from clusterIPFamily (S i) pms;
      Ok (arg :: args)
  end.
Definition generatePortMappings (clusterIPFamily : string) (pms : list PortMapping) : res (list string) :=
  generatePortMappings_from clusterIPFamily 0 pms.

(** What follows the creation of the volume. *)
Definition node_run_args (node : Node) (clusterIPFamily name : string) (args : list string) (varVolume : string) : res (list string) :=
  let args := ["--hostname"; name; "--label"; nodeRoleLabelKey +:+ "=" +:+ no_Role node;
    "--privileged"; "--tmpfs"; "/tmp"; "--tmpfs"; "/run"; "--volume"; varVolume +:+ ":/var:suid,exec,dev";
    "--volume"; "/lib/modules:/lib/modules:ro"; "-e"; "KIND_EXPERIMENTAL_CONTAINERD_SNAPSHOTTER"] ++ args in
  let args := args ++ generateMountBindings (no_ExtraMounts node) in
  mappingArgs ← generatePortMappings clusterIPFamily (no_ExtraPortMappings node);
  let args := args ++ mappingArgs in
  let args := args ++ (if no_Role node =s ControlPlaneRole
                       then ["-e"; "KUBECONFIG=/etc/kubernetes/admin.conf"] else []) in
  '(_, image) ← podman_sanitizeImage (no_Image node);
  Ok (args ++ [image]).
Definition runArgsForNode (node : Node) (clusterIPFamily name : string) (args : list string) : st W (list string) :=
  varVolume ← createAnonymousVolume name;
  pure (node_run_args node clusterIPFamily name args varVolume).

Definition runArgsForLoadBalancer (cfg : Cluster) (name : string) (args : list string) : res (list string) :=
  let args := ["--hostname"; name; "--label"; nodeRoleLabelKey +:+ "=" +:+ ExternalLoadBalancerNodeRoleValue] ++ args in
  let nt := kc_Networking cfg in
  mappingArgs ← generatePortMappings (nt_IPFamily nt)
    [mkPortMapping APIServerInternalPort (nt_APIServerPort nt) (nt_APIServerAddress nt) ""];
  '(_, image) ← podman_sanitizeImage loadbalancer_Image;
  Ok (args ++ mappingArgs ++ [image]).

(** All host paths go through [filepath.Abs]. *)
Definition fix_mount (m : Mount) : res Mount :=
  p ← errors_Wrap ("unable to resolve absolute path for hostPath: " +:+ Q (mo_HostPath m))
        (filepath_Abs (mo_HostPath m));
  Ok (mkMount (mo_ContainerPath m) p (mo_Readonly m) (mo_SelinuxRelabel m) (mo_Propagation m)).

(** The rest of the plan is that of docker. *)
Definition planCreation (cfg : Cluster) (networkName : string) : st W (list container) :=
  let names := name_nodes (kc_Name cfg) ∅ (planned_roles cfg) in
  genericArgs ← commonArgs cfg networkName names;
  pure (plan fix_mount
    (λ node name, runArgsForNode node (nt_IPFamily (kc_Networking cfg)) name genericArgs)
    (λ name, pure (runArgsForLoadBalancer cfg name genericArgs)) cfg names).
End provision.

(** ** provider.go and node.go *)

Definition fixedNetworkName : string := "kind".

Section provider.
Context {W : Type} `{!HostExec W, !PodmanLibs, !NetLibs, !Host, !Schedule W, !Deadline W, !ProviderCache W}.

Definition network_name : string :=
  let n := Getenv "KIND_EXPERIMENTAL_PODMAN_NETWORK" in if n <>s "" then n else fixedNetworkName.

(** The options for the image of the program are of no use here. *)
Definition provision_plan (cfg : Cluster) (dockerRegUrl : string) (useLocalStratioImage buildStratioImage : bool) : st W (list container) :=
  ensureMinVersion ;;
  podman_ensureNodeImages cfg ;;
  st_wrap "failed to ensure podman network" (of_net (ensureNetwork network_name)) ;;
  planCreation cfg network_name.
Definition Provision (cfg : Cluster) (dockerRegUrl : string) (useLocalStratioImage buildStratioImage : bool) : st W unit :=
  createContainerFuncs ← provision_plan cfg dockerRegUrl useLocalStratioImage buildStratioImage;
  until_error (rt_create "podman" <$> createContainerFuncs).

Definition ListClusters : st W (list string) :=
  rt_ListClusters "podman" (js "{{index .Labels `" +:+ clusterLabelKey +:+ js "`}}").
Definition ListNodes (cluster : string) : st W (list string) := rt_ListNodes "podman" cluster.

Fixpoint getAllVolumes (n : list string) : st W (list string) :=
  match n with
  | [] => mret []
  | node :: n => volumes ← getVolumes node; more ← getAllVolumes n; mret (volumes ++ more)
  end.
Definition DeleteNodes (n : list string) : st W unit :=
  if Nat.eqb (length n) 0 then mret tt else
  rt_remove "podman" n ;;
  nodeVolumes ← getAllVolumes n;
  if Nat.eqb (length nodeVolumes) 0 then mret tt else deleteVolumes nodeVolumes.

(** *** The API server *)

Definition ports22_format : string := "{{range .NetworkSettings.Ports }}{{range .}}{{.HostIP}}/{{.HostPort}}{{end}}{{end}}".
Definition one_line (lines : list string) : res string :=
  fail_when (negb (Nat.eqb (length lines) 1))
    ("network details should only be one line, got " +:+ Itoa (Z.of_nat (length lines)) +:+ " lines") ;;
  index lines 0.
(** What podman prints between 2.2.0 and 3.0.0.  (The error shows the parts as Go prints a
    slice; that of [Atoi] is not written out.) *)
Definition parse_ports22 (line : string) : res string :=
  match Split (TrimSpace line) "/" with
  | [host; port] =>
      match Atoi port with
      | Some port => Ok (JoinHostPort host (Itoa port))
      | None => Err "network port not an integer"
      end
  | parts => Err ("network details should be in the format IP/Port, received: [" +:+ Join parts " " +:+ "]")
  end.

(** The first mapping of the port; a key whose port is no number ends the search. *)
Fixpoint find_port20 (mappings : list (string * list portMapping20)) : res (option string) :=
  match mappings with
  | [] => Ok None
  | (k, v) :: mappings =>
      let parts := Split k "/" in
      let protocol := match parts with [_; p] => ToLower p | _ => "tcp" end in
      port ← index parts 0;
      match Atoi port with
      | None => Err "invalid syntax"
      | Some containerPort =>
          match v with
          | pm :: _ => if (containerPort =? APIServerInternalPort) && (protocol =s "tcp")
                       then Ok (Some (JoinHostPort (p20_HostIP pm) (p20_HostPort pm))) else find_port20 mappings
          | [] => find_port20 mappings
          end
      end
  end.
Fixpoint find_port19 (mappings : list portMapping19) : res string :=
  match mappings with
  | [] => Err "failed to get api server port"
  | pm :: mappings =>
      if (p19_ContainerPort pm =? APIServerInternalPort) && (p19_Protocol pm =s "tcp")
      then Ok (JoinHostPort (p19_HostIP pm) (Itoa (p19_HostPort pm))) else find_port19 mappings
  end.
Definition parse_ports (line : string) : res string :=
  found ← match json_portMappings20 line with Some m => find_port20 m | None => Ok None end;
  match found with
  | Some endpoint => Ok endpoint
  | None =>
      match json_portMappings19 line with
      | Ok m => find_port19 m
      | Err e => Err ("invalid network details: " +:+ e)
      | Panic x => Panic x
      end
  end.

Definition GetAPIServerEndpoint (cluster : string) : st W string :=
  n ← rt_endpoint_node "podman" "failed to get api server endpoint" cluster;
  v ← st_wrap "failed to check podman version" getPodmanVersion;
  v22 ← pure (MustParseSemantic "2.2.0");
  v30 ← pure (MustParseSemantic "3.0.0");
  if AtLeast v v22 && LessThan v v30 then
    lines ← st_wrap "failed to get api server port" (host_OutputLines ["podman"; "inspect"; "--format"; ports22_format; n]);
    pure (line ← one_line lines; parse_ports22 line)
  else
    lines ← st_wrap "failed to get api server port"
              (host_OutputLines ["podman"; "inspect"; "--format"; "{{ json .NetworkSettings.Ports }}"; n]);
    pure (line ← one_line lines; parse_ports line).
Definition GetAPIServerInternalEndpoint (cluster : string) : st W string :=
  rt_GetAPIServerInternalEndpoint "podman" "failed to get apiserver endpoint" cluster.

Definition Info : st W ProviderInfo :=
  cached ← get p_info;
  match cached with
  | Some i => mret i
  | None => i ← info; modify (set_p_info i) ;; mret i
  end.

Definition Role (n : string) : st W string := rt_Role "podman" n.
Definition IP (n : string) : st W (string * string) := rt_IP "podman" n.
Definition node_Run (n : string) (env : list string) (command : list string) (stdin : option string) : st W string :=
  rt_node_Run "podman" n env command stdin.
Definition SerialLogs (n : string) : st W (string * option string) := rt_SerialLogs "podman" n.
End provider.

(** ** What is planned *)

Lemma podman_unlabelled_mappings `{Host} family pms args : generatePortMappings family pms = Ok args → unlabelled args.
Proof.
  unfold generatePortMappings. intros E. apply unlabelled_switches. revert args E. generalize 0%nat.
  induction pms as [|pm pms IH]; intros i args; cbn [generatePortMappings_from]; [by intros [= <-]|].
  intros (a & Ha & E)%bind_Ok_iff. apply bind_Ok_iff in E as (l & Hl & [= <-]). constructor; [|by eapply IH].
  unfold generatePortMapping in Ha. apply bind_Ok_iff in Ha as (listen & _ & Ha). apply bind_unit_Ok in Ha as [_ Ha].
  apply bind_Ok_iff in Ha as (port & _ & <-%Ok_inj). by repeat constructor.
Qed.

(** What podman is asked for is no flag. *)
Lemma dash_first c s t : HasPrefix (String c s) "-" = HasPrefix (String c t) "-".
Proof. unfold HasPrefix. cbn [String.prefix]. case_match; [by destruct s, t|done]. Qed.
Lemma Split_head s sep x : sep ≠ "" → index (Split s sep) 0 = Ok x → ∃ t, s = x +:+ t.
Proof.
  intros Hs Hx. pose proof (Join_Split s sep Hs) as Hj. destruct (Split s sep) as [|y l]; [done|].
  assert (y = x) as <- by (vm_compute in Hx; congruence). rewrite <-Hj. destruct l as [|z l].
  - exists "". by rewrite string_app_nil_r.
  - exists (sep +:+ Join (z :: l) sep). apply Join_cons.
Qed.
Lemma sanitized_ok image f im : image_ok image → podman_sanitizeImage image = Ok (f, im) → image_ok im.
Proof.
  unfold image_ok. intros Hi. unfold podman_sanitizeImage. intros ([f' rem] & Hr & [= _ <-])%bind_Ok_iff.
  assert (HasPrefix rem "-" = false) as Hrem.
  { unfold podman_remainder in Hr. destruct (Contains image digest_mark); [|by injection Hr as _ <-].
    apply bind_Ok_iff in Hr as (name & Hn & Hr). apply bind_Ok_iff in Hr as (digest & _ & Hr).
    apply bind_Ok_iff in Hr as (untagged & Hu & [= _ <-]).
    apply Split_head in Hn as [t Ht]; [|done]. apply Split_head in Hu as [u Hu]; [|done].
    rewrite Ht, Hu in Hi. destruct untagged as [|c u']; [done|]. etrans; [|exact Hi]. apply dash_first. }
  destruct (Contains rem "/"); destruct (before_slash f') as [h|]; [destruct (names_registry h)|..|destruct (names_registry h)|]; done.
Qed.

Section planning.
Context {W : Type} `{!HostExec W, !PodmanLibs, !Host, !RuntimeLaws W "podman"}.
Abbreviation keeps m := (sat m (same_boxes "podman") (same_boxes "podman")).

Lemma output_keeps c rest : str_in c quiet_commands = true → keeps (host_Output ("podman" :: c :: rest)).
Proof. intros Hc. by apply quiet_Output, quiet_head. Qed.
Lemma version_keeps : keeps getPodmanVersion.
Proof. unfold getPodmanVersion. sat_step; [by apply quiet_OutputLines, quiet_head|apply sat_pure]. Qed.
Lemma podman_mountDevMapper_keeps : keeps mountDevMapper.
Proof. unfold mountDevMapper. sat_step; [by apply sat_try_always, output_keeps|apply sat_ret]. Qed.
Lemma podman_info_keeps : keeps info.
Proof.
  unfold info. sat_step.
  - apply sat_always. intros w r w'. unfold podman_info_output. destruct (host _ None w) as [o w1] eqn:E.
    intros [= _ <-]. eapply quiet_spec; [exact E|by apply quiet_head].
  - repeat (sat_step || apply version_keeps).
Qed.
Lemma podman_mountFuse_keeps : keeps mountFuse.
Proof. unfold mountFuse. sat_step; [apply sat_try_always, podman_info_keeps|apply sat_ret]. Qed.
Lemma podman_commonArgs_keeps cfg n names : keeps (commonArgs cfg n names).
Proof.
  unfold commonArgs, getProxyEnv, getSubnets.
  repeat (sat_step || apply podman_mountDevMapper_keeps || apply podman_mountFuse_keeps || by apply output_keeps).
Qed.
Lemma podman_planCreation_keeps cfg n : keeps (planCreation cfg n).
Proof. unfold planCreation. repeat (sat_step || apply podman_commonArgs_keeps). Qed.
Lemma ensureMinVersion_keeps : keeps ensureMinVersion.
Proof. unfold ensureMinVersion. repeat (sat_step || apply version_keeps). Qed.
Lemma podman_ensureNodeImages_keeps cfg : keeps (podman_ensureNodeImages cfg).
Proof. unfold podman_ensureNodeImages. sat_step. repeat (sat_step || destruct a || apply pullIfNotPresent_keeps). Qed.

Lemma podman_commonArgs_labels cfg n names (w : W) args w' :
  commonArgs cfg n names w = (Ok args, w') → labels_cluster (kc_Name cfg) args.
Proof.
  unfold commonArgs. intros (env & w1 & _ & E)%st_bind_Ok. apply st_bind_Ok in E as (b1 & w2 & _ & E).
  apply st_bind_Ok in E as (b2 & w3 & _ & [= <- _]).
  eexists ["--detach"; "--tty"; "--net"; n], (["-e"; "container=podman"] ++ _).
  split_and!; [reflexivity|..].
  - apply (unlabelled_app ["--detach"; "--tty"] ["--net"; n]); [apply unlabelled_switches; by repeat constructor|by apply unlabelled_value].
  - apply unlabelled_app; [by apply unlabelled_value|].
    repeat apply unlabelled_app; [apply unlabelled_ipv6|apply unlabelled_env|apply unlabelled_if..]; by apply unlabelled_value.
Qed.

Lemma node_run_args_labels cluster node family name args v args' :
  labels_cluster cluster args → image_ok (no_Image node) → node_run_args node family name args v = Ok args' →
  labels_of args' !! clusterLabelKey = Some cluster ∧ labels_of args' !! nodeRoleLabelKey = Some (no_Role node).
Proof.
  intros (pre & post & -> & Hpre & Hpost) Hi. unfold node_run_args.
  intros (ms & Hms%podman_unlabelled_mappings & E)%bind_Ok_iff.
  apply bind_Ok_iff in E as ([f im] & Him%sanitized_ok & <-%Ok_inj); [|done].
  apply (labels_of_node _ ["--hostname"; name] (no_Role node) (["--privileged"; "--tmpfs"; "/tmp"; "--tmpfs"; "/run";
    "--volume"; v +:+ ":/var:suid,exec,dev"; "--volume"; "/lib/modules:/lib/modules:ro";
    "-e"; "KIND_EXPERIMENTAL_CONTAINERD_SNAPSHOTTER"] ++ pre) cluster
    (post ++ generateMountBindings (no_ExtraMounts node) ++ ms ++
     (if no_Role node =s ControlPlaneRole then ["-e"; "KUBECONFIG=/etc/kubernetes/admin.conf"] else []))
    im); [by rewrite <-!app_assoc|by apply unlabelled_value| | |done].
  - apply unlabelled_app; [|done]. apply (unlabelled_app ["--privileged"]); [apply unlabelled_switches; by repeat constructor|].
    do 4 (apply (unlabelled_app [_; _]); [by apply unlabelled_value|]). by apply unlabelled_value.
  - repeat apply unlabelled_app; [done|apply unlabelled_mounts|done|]. apply unlabelled_if. by apply unlabelled_value.
Qed.

Lemma podman_runArgsForLoadBalancer_labels cluster cfg name args args' :
  labels_cluster cluster args → runArgsForLoadBalancer cfg name args = Ok args' →
  labels_of args' !! clusterLabelKey = Some cluster ∧
  labels_of args' !! nodeRoleLabelKey = Some ExternalLoadBalancerNodeRoleValue.
Proof.
  intros (pre & post & -> & Hpre & Hpost). unfold runArgsForLoadBalancer.
  intros (ms & Hms%podman_unlabelled_mappings & E)%bind_Ok_iff.
  apply bind_Ok_iff in E as ([f im] & Him%sanitized_ok & <-%Ok_inj); [|done].
  apply (labels_of_node _ ["--hostname"; name] _ pre cluster (post ++ ms) im);
    [by rewrite <-!app_assoc|by apply unlabelled_value|done| |done].
  by apply unlabelled_app.
Qed.

(** A node comes with a volume, which is no container. *)
Lemma createAnonymousVolume_keeps label : keeps (createAnonymousVolume label).
Proof.
  unfold createAnonymousVolume. repeat sat_step. apply sat_host_Output. intros w o w' E. by eapply volume_create_boxes.
Qed.
Lemma runArgsForNode_keeps node family name args : keeps (runArgsForNode node family name args).
Proof. unfold runArgsForNode. repeat (sat_step || apply createAnonymousVolume_keeps). Qed.
Lemma node_planned cluster node family name args :
  labels_cluster cluster args → image_ok (no_Image node) →
  planned "podman" cluster (name, no_Role node) (mkContainer (W:=W) name (runArgsForNode node family name args) true).
Proof.
  intros Hl Hi. split; [done|]. intros w r w' E. cbn [ct_args] in E.
  pose proof (runArgsForNode_keeps node family name args) as Hk. split; [specialize (Hk w); rewrite E in Hk; by destruct r|]. intros args' ->. unfold runArgsForNode in E.
  apply st_bind_Ok in E as (v & w1 & _ & [Ha _]%pure_run). by eapply node_run_args_labels.
Qed.

Lemma podman_plan_planned cfg net (w : W) cs w' :
  Validate cfg = None → Forall (λ n, image_ok (no_Image n)) (kc_Nodes cfg) → planCreation cfg net w = (Ok cs, w') →
  ∃ lb nodes, cs = lb ++ nodes ∧ Forall2 (planned "podman" (kc_Name cfg)) (planned_nodes cfg) (nodes ++ lb).
Proof.
  intros (_ & _ & _ & _ & _ & Hnodes & _)%Validate_iff Hi (args & w1 & Hargs%podman_commonArgs_labels & [Hcs _]%pure_run)%st_bind_Ok.
  eapply plan_all in Hcs as (lb & nodes & -> & _ & Hf); [by exists lb, nodes|done|..].
  - intros node name c Hn. rewrite Forall_forall in Hi. specialize (Hi node Hn). unfold plan_node.
    intros (mounts & _ & Hc)%bind_Ok_iff. cbn [no_Role with_mounts] in Hc.
    destruct (no_Role node =s ControlPlaneRole); [|destruct (no_Role node =s WorkerRole); [|done]]; injection Hc as <-.
    + by apply (node_planned _ (with_mapping (with_mounts node mounts) _)).
    + by apply (node_planned _ (with_mounts node mounts)).
  - intros name. apply (planned_pure "podman" _ (name, _)). intros args'. by apply podman_runArgsForLoadBalancer_labels.
Qed.
End planning.

(** ** What the provider promises *)

Section network_facts.
Context {W : Type} `{!HostExec W, !NetLibs, !RuntimeLaws W "podman"}.
Abbreviation net_keeps m := (Runtime.net_keeps "podman" m).

Lemma createNetwork_keeps name s : net_keeps (createNetwork name s).
Proof. by apply net_keeps_Run. Qed.
Lemma podman_more_attempts_same name attempt more : net_keeps (more_attempts name attempt more).
Proof.
  revert attempt. induction more as [|more IH]; intros attempt w r w'; cbn [more_attempts]; [by intros [= _ <-]|].
  destruct (createNetwork _ _ w) as [[[]|e|x] w1] eqn:E; apply createNetwork_keeps in E as E1;
    [by intros [= _ <-]| |by intros [= _ <-]].
  destruct (isPoolOverlapError e); [intros E2; apply IH in E2; congruence|by intros [= _ <-]].
Qed.
Lemma podman_ensureNetwork_same name : net_keeps (ensureNetwork name).
Proof.
  unfold ensureNetwork. apply net_keeps_bind.
  - intros w r w'. unfold checkIfNetworkExists. destruct (host _ None w) as [o w1] eqn:E.
    apply (net_keeps_host "podman") in E; [|done]. by intros [= _ <-].
  - intros []; [apply net_keeps_ret|]. intros w r w'. unfold first_attempt.
    destruct (createNetwork _ _ w) as [[[]|e|x] w1] eqn:E; apply createNetwork_keeps in E as E1;
      [by intros [= _ <-]| |by intros [= _ <-]].
    destruct (isUnknownIPv6FlagError e); [intros E2; apply createNetwork_keeps in E2; congruence|].
    destruct (isPoolOverlapError e); cbn [negb]; [|by intros [= _ <-]].
    intros E2. apply podman_more_attempts_same in E2. congruence.
Qed.
End network_facts.

Section removing.
Context {W : Type} `{!HostExec W, !RuntimeLaws W "podman"}.

(** The containers stay, and so do those that use the volumes. *)
Definition same_users : relation W := λ w w', boxes w' = boxes w ∧ ∀ v, volume_users w' v = volume_users w v.
#[local] Instance same_users_preorder : PreOrder same_users.
Proof. split; [done|]. intros w1 w2 w3 [E1 U1] [E2 U2]. split; [congruence|]. intros v. by rewrite U2. Qed.

Lemma getVolumes_users x (w : W) r w' : ¬ char_in "=" x → getVolumes x w = (r, w') →
  same_users w w' ∧ ∀ l, r = Ok l → ∀ v, v ∈ l → volume_users w v ⊆ [x].
Proof.
  intros Hx. unfold getVolumes, host_Output, host_Run_with, mbind, st_bind. destruct (host _ None w) as [o w1] eqn:E.
  apply volume_ls_users in E as (Hb & Hu & Hl); [|done]. unfold run_error.
  destruct (oc_error o) as [e|]; intros [= <- <-]; (split; [done|]); [done|]. intros l [= <-]. by apply Hl.
Qed.
Lemma getAllVolumes_users n (w : W) r w' : Forall (λ x, ¬ char_in "=" x) n → getAllVolumes n w = (r, w') →
  same_users w w' ∧ ∀ l, r = Ok l → ∀ v, v ∈ l → volume_users w v ⊆ n.
Proof.
  intros Hn. revert w r w'. induction Hn as [|x n Hx _ IH]; intros w r w'; cbn [getAllVolumes].
  { intros [= <- <-]. split; [done|]. by intros l [= <-] v ?%not_elem_of_nil. }
  unfold mbind, st_bind. destruct (getVolumes x w) as [r1 w1] eqn:E1.
  apply getVolumes_users in E1 as [S1 L1]; [|done]. destruct r1 as [l1|e|p]; [|by intros [= <- <-]..].
  destruct (getAllVolumes n w1) as [r2 w2] eqn:E2. apply IH in E2 as [S2 L2].
  destruct r2 as [l2|e|p]; intros [= <- <-]; (split; [by etrans|]); [|done..].
  intros l [= <-] v [Hv|Hv]%elem_of_app.
  - pose proof (L1 l1 eq_refl v Hv) as Hs. set_solver.
  - pose proof (L2 l2 eq_refl v Hv) as Hs. destruct S1 as [_ U1]. rewrite U1 in Hs. set_solver.
Qed.
(** Of the containers that the removal of the volumes takes with it, all were given. *)
Lemma delete_volumes_removes n (w : W) r w' : Forall (λ x, ¬ char_in "=" x) n →
  (v ← getAllVolumes n; if Nat.eqb (length v) 0 then mret tt else deleteVolumes v) w = (r, w') →
  ∃ gone, gone ⊆ n ∧ boxes w' = List.filter (λ b, negb (among gone b)) (boxes w).
Proof.
  intros Hn. unfold mbind, st_bind. destruct (getAllVolumes n w) as [r1 w1] eqn:E1.
  apply getAllVolumes_users in E1 as [[B1 U1] L1]; [|done].
  destruct r1 as [l|e|p]; [|intros [= _ <-]; exists []; split; [set_solver|by rewrite none_removed]..].
  destruct (Nat.eqb (length l) 0); [intros [= _ <-]; exists []; split; [set_solver|by rewrite none_removed]|].
  unfold deleteVolumes. intros (o & E & _)%host_Run_inv. apply volume_rm_boxes in E as (gone & Hg & Eb).
  exists gone. split; [|by rewrite Eb, B1]. intros x Hx%Hg. apply list_elem_of_In, in_concat in Hx as (us & Hus & Hx).
  apply in_map_iff in Hus as (v & <- & Hv). rewrite U1 in Hx. apply list_elem_of_In in Hx, Hv. by apply (L1 l eq_refl v Hv).
Qed.

(** Names of containers are no keys with a value. *)
Lemma names_no_eq n (w : W) : n ⊆ bx_name <$> boxes w → Forall (λ x, ¬ char_in "=" x) n.
Proof. intros Hn. pose proof (boxes_no_eq w) as Hb. rewrite Forall_forall in Hb |- *. intros x Hx. by apply Hb, Hn. Qed.

Lemma podman_DeleteNodes_removes n (w : W) r w' : n ⊆ bx_name <$> boxes w → DeleteNodes n w = (r, w') →
  ∃ gone, gone ⊆ n ∧ (r = Ok tt → gone = n) ∧ boxes w' = List.filter (λ b, negb (among gone b)) (boxes w).
Proof.
  intros Hn%names_no_eq. unfold DeleteNodes. destruct n as [|x n]; [intros [= <- <-]; exists []; by rewrite none_removed|].
  intros [([] & w1 & E1 & E)|(r0 & E1 & Hno & Hr)]%st_bind_inv; apply (remove_boxes "podman") in E1 as (gone & Hs & Hg & Eb).
  - specialize (Hg eq_refl) as ->. apply delete_volumes_removes in E as (more & Hm & Em); [|done].
    exists (x :: n). split_and!; [done..|]. by rewrite Em, Eb, removed_more.
  - exists gone. split_and!; [done| |done]. intros ->. by destruct Hr as [(e & _ & [=])|(e & _ & [=])].
Qed.

End removing.

Section facts.
Context {W : Type} `{!HostExec W, !PodmanLibs, !NetLibs, !Host, !Schedule W, !Deadline W, !ProviderCache W}.
Context `{!RuntimeLaws W "podman"} (Hcache : ∀ i w, boxes (set_p_info i w) = boxes w).
Abbreviation keeps m := (sat m (same_boxes "podman") (same_boxes "podman")).

Lemma podman_provision_plan_keeps cfg url l b : keeps (provision_plan cfg url l b).
Proof using RuntimeLaws0.
  unfold provision_plan. sat_step; [apply ensureMinVersion_keeps|]. sat_step; [apply podman_ensureNodeImages_keeps|].
  sat_step; [apply sat_wrap, of_net_keeps, podman_ensureNetwork_same|apply podman_planCreation_keeps].
Qed.
Lemma podman_provision_plan_run cfg url l b (w : W) cs w' : provision_plan cfg url l b w = (Ok cs, w') →
  ∃ w1, planCreation cfg network_name w1 = (Ok cs, w').
Proof using.
  unfold provision_plan. intros ([] & w1 & _ & E)%st_bind_Ok. do 2 apply st_bind_Ok in E as ([] & ? & _ & E). eauto.
Qed.
Lemma podman_provision_plan_args cfg url l b (w : W) cs w' : provision_plan cfg url l b w = (Ok cs, w') →
  Forall (quiet_args "podman") cs.
Proof using RuntimeLaws0.
  intros (w1 & (args & w2 & _ & [Hcs _]%pure_run)%st_bind_Ok)%podman_provision_plan_run.
  eapply plan_Forall; [..|exact Hcs]; intros; unfold quiet_args; cbn [ct_args]; [apply runArgsForNode_keeps|apply sat_pure].
Qed.
Lemma podman_provision_plan_planned cfg url l b (w : W) cs w' :
  Validate cfg = None → Forall (λ n, image_ok (no_Image n)) (kc_Nodes cfg) → provision_plan cfg url l b w = (Ok cs, w') →
  ∃ ds, Forall2 (planned "podman" (kc_Name cfg)) (planned_nodes cfg) ds ∧ cs ≡ₚ ds.
Proof using RuntimeLaws0.
  intros Hv Hi (w1 & E)%podman_provision_plan_run.
  destruct (podman_plan_planned _ _ _ _ _ Hv Hi E) as (lb & nodes & -> & Hf).
  exists (nodes ++ lb). split; [exact Hf|apply Permutation_app_comm].
Qed.

Lemma podman_Info_keeps : keeps Info.
Proof using Hcache.
  unfold Info. sat_step; [apply sat_get|]. destruct a; [apply sat_ret|]. repeat (sat_step || apply podman_info_keeps).
  intros w. by apply Hcache.
Qed.

Definition podman_provider : NodeProvider W "podman" := {|
  np_Info := Info; np_plan := provision_plan; np_DeleteNodes := DeleteNodes;
  np_Info_keeps := podman_Info_keeps; np_plan_keeps := podman_provision_plan_keeps; np_plan_args := podman_provision_plan_args;
  np_plan_planned := podman_provision_plan_planned; np_DeleteNodes_removes := podman_DeleteNodes_removes
|}.
End facts.

(** ** Volumes *)

Section volumes.
Context {W : Type} `{!HostExec W, !PodmanLibs, !NetLibs, !Host, !Schedule W, !Deadline W, !ProviderCache W}.
Context `{!RuntimeLaws W "podman", !RuntimeUp W "podman", !VolumesUp W}.

Definition with_key (key : string) (w : W) : list string := vo_name <$> List.filter (has_key key) (volumes w).

Lemma getVolumes_up key (w : W) : ¬ char_in "=" key →
  ∃ w', getVolumes key w = (Ok (with_key key w), w') ∧ volumes w' = volumes w.
Proof.
  intros Hk. unfold getVolumes, host_Output, host_Run_with, mbind, st_bind. destruct (host _ None w) as [o w'] eqn:E.
  pose proof (volumes_ls_up _ _ _ _ Hk E) as He. destruct (volume_ls_spec key w o w' Hk E) as [Ev Hls].
  unfold run_error. rewrite He. exists w'. split; [|done]. unfold mret, st_ret. do 2 f_equal.
  rewrite (Hls He). apply volume_lines_unlines. pose proof (volumes_plain w) as Hp. rewrite Forall_fmap in Hp.
  apply Forall_fmap, Forall_forall. intros v [Hv _]%list_elem_of_In%filter_In. rewrite Forall_forall in Hp.
  by apply Hp, list_elem_of_In.
Qed.

Lemma getAllVolumes_up n (w : W) : Forall (λ x, ¬ char_in "=" x) n →
  ∃ w', getAllVolumes n w = (Ok (concat (map (λ x, with_key x w) n)), w') ∧ volumes w' = volumes w.
Proof.
  intros Hn. revert w. induction Hn as [|x n Hx _ IH]; intros w; [by exists w|]. cbn [getAllVolumes map concat].
  destruct (getVolumes_up x w Hx) as (w1 & E1 & V1). destruct (IH w1) as (w2 & E2 & V2).
  exists w2. split; [|congruence]. unfold mbind, st_bind. rewrite E1, E2. unfold mret, st_ret, with_key. by rewrite V1.
Qed.

(** Each volume is listed once. *)
Lemma with_key_there key (w : W) : with_key key w ⊆ vo_name <$> volumes w.
Proof. intros x (v & -> & [Hv _]%list_elem_of_In%filter_In)%list_elem_of_fmap. by apply list_elem_of_fmap_2, list_elem_of_In. Qed.
Lemma with_key_disjoint k1 k2 x (w : W) : x ∈ with_key k1 w → x ∈ with_key k2 w → k1 = k2.
Proof.
  intros (v & -> & [Hv Hx1]%list_elem_of_In%filter_In)%list_elem_of_fmap (u & Hn & [Hu Hx2]%list_elem_of_In%filter_In)%list_elem_of_fmap.
  apply list_elem_of_In in Hv, Hu. apply (NoDup_fmap_eq vo_name _ v u (volumes_NoDup w) Hv Hu) in Hn as <-.
  by apply (volumes_one_key w v).
Qed.
Lemma all_keys_NoDup n (w : W) : NoDup n → NoDup (concat (map (λ x, with_key x w) n)).
Proof.
  induction 1 as [|x n Hx _ IH]; cbn [map concat]; [constructor|]. apply NoDup_app. split_and!; [|..|done].
  - unfold with_key. pose proof (volumes_NoDup w) as Hd. revert Hd. induction (volumes w) as [|v l IHl]; [done|].
    rewrite fmap_cons. intros [Hv Hd]%NoDup_cons. cbn [List.filter]. destruct (has_key x v); [|by apply IHl].
    rewrite fmap_cons. apply NoDup_cons. split; [|by apply IHl]. intros (u & E & [Hu _]%list_elem_of_In%filter_In)%list_elem_of_fmap.
    apply Hv. rewrite E. by apply list_elem_of_fmap_2, list_elem_of_In.
  - intros v Hv Hc%list_elem_of_In. apply in_concat in Hc as (l & (y & <- & Hy)%in_map_iff & Hl). apply list_elem_of_In in Hl, Hy.
    by rewrite (with_key_disjoint x y v w Hv Hl) in Hx.
Qed.
Lemma all_keys_there n (w : W) : concat (map (λ x, with_key x w) n) ⊆ vo_name <$> volumes w.
Proof.
  intros v Hc%list_elem_of_In. apply in_concat in Hc as (l & (y & <- & Hy)%in_map_iff & Hl). apply list_elem_of_In in Hl.
  by apply with_key_there in Hl.
Qed.

Definition belongs (n : list string) (v : volume) : bool := existsb (λ x, has_key x v) n.

Lemma belongs_name n (w : W) v : v ∈ volumes w →
  str_in (vo_name v) (concat (map (λ x, with_key x w) n)) = belongs n v.
Proof.
  intros Hv. unfold belongs. induction n as [|x n IH]; [done|]. cbn [map concat existsb].
  assert (str_in (vo_name v) (with_key x w) = has_key x v) as Hx.
  { apply eq_true_iff_eq. rewrite str_in_true. unfold with_key. split.
    - intros (u & Hn & [Hu Hk]%list_elem_of_In%filter_In)%list_elem_of_fmap. apply list_elem_of_In in Hu.
      by rewrite (NoDup_fmap_eq vo_name _ v u (volumes_NoDup w) Hv Hu Hn).
    - intros Hk. apply list_elem_of_fmap_2, list_elem_of_In, filter_In. split; [by apply list_elem_of_In|done]. }
  rewrite <-Hx, <-IH. apply eq_true_iff_eq. by rewrite orb_true_iff, !str_in_true, elem_of_app.
Qed.

(** While podman is up, nodes that are there are deleted together with the volumes that
    were made for them; all other containers and all other volumes stay. *)
Lemma DeleteNodes_volumes n (w : W) : NoDup n → n ⊆ bx_name <$> boxes w →
  ∃ w', DeleteNodes n w = (Ok tt, w') ∧
    boxes w' = List.filter (λ b, negb (among n b)) (boxes w) ∧
    volumes w' = List.filter (λ v, negb (belongs n v)) (volumes w).
Proof.
  intros Hd Hsub. pose proof (names_no_eq n w Hsub) as Hn.
  destruct (DeleteNodes n w) as [r w'] eqn:E. exists w'. apply podman_DeleteNodes_removes in E as Hr; [|done].
  destruct Hr as (gone & _ & Hg & Eb). enough (r = Ok tt ∧ volumes w' = List.filter (λ v, negb (belongs n v)) (volumes w)) as [-> ?].
  { split_and!; [done| |done]. by rewrite Hg in Eb. }
  clear gone Hg Eb. unfold DeleteNodes in E. destruct n as [|x0 n0] eqn:En.
  { injection E as <- <-. split; [done|]. symmetry. apply filter_id. }
  rewrite <-En in *. replace (Nat.eqb (length n) 0) with false in E by (by rewrite En).
  assert (n ≠ []) as Hne by (by rewrite En). clear x0 n0 En.
  destruct (remove_up "podman" n w Hne Hd Hsub) as (w1 & E1 & B1).
  assert (volumes w1 = volumes w) as V1.
  { unfold rt_remove in E1. apply st_wrap_Ok, host_Run_Ok in E1 as (o & E1 & _). eapply (no_volume_spec "rm"); [exact E1|done]. }
  destruct (getAllVolumes_up n w1 Hn) as (w2 & E2 & V2).
  pose proof (all_keys_NoDup n w1 Hd) as Hnames. pose proof (all_keys_there n w1) as Hthere. rewrite <-V2 in Hthere.
  set (names := concat (map (λ x, with_key x w1) n)) in *.
  assert (List.filter (λ v, negb (str_in (vo_name v) names)) (volumes w2) =
          List.filter (λ v, negb (belongs n v)) (volumes w)) as Hf.
  { rewrite V2, V1. apply filter_same. intros v Hv. unfold names. by rewrite belongs_name by (by rewrite V1). }
  unfold mbind, st_bind in E. rewrite E1, E2 in E. rewrite <-Hf. destruct (Nat.eqb_spec (length names) 0) as [Hl|Hl].
  - injection E as <- <-. split; [done|]. apply nil_length_inv in Hl. rewrite Hl. symmetry. apply filter_id.
  - unfold deleteVolumes in E. apply host_Run_inv in E as (o & E & ->).
    assert (names ≠ []) as Hnn by (by intros Hnil; rewrite Hnil in Hl).
    pose proof (volumes_rm_up _ _ _ _ Hnn Hnames Hthere E) as He. unfold run_error. rewrite He. split; [done|].
    destruct (volume_rm_spec names w2 o w' E) as (gone & _ & Hg & V3). specialize (Hg He) as ->. done.
Qed.
Lemma podman_provider_up Hcache : @NodeProviderUp W "podman" _ _ (podman_provider Hcache).
Proof. constructor. intros n w Hd Hn. destruct (DeleteNodes_volumes n w Hd Hn) as (w' & E & _). by exists w'. Qed.
End volumes.

(** ** A cluster on a small machine *)

Module DemoPodman.
Definition answer (args : list string) : string :=
  if str_in "--version" args then "podman version 4.5.0" else if str_in "logs" args then "detected cgroup v1" else "x".
Definition libs : PodmanLibs := {|
  json_podmanInfo := λ _, Ok (mkPodmanInfo "v2" ["cpu"; "memory"; "pids"] true);
  json_podmanStorageInfo := λ _, Some (mkPodmanStorageInfo "overlay" "xfs");
  json_podmanNetworks := λ _, Ok [mkPodmanNetwork ["10.89.0.0/24"; "fc00::/64"] []];
  json_portMappings20 := λ _, Some [("6443/tcp", [mkPortMapping20 "41000" "127.0.0.1"])];
  json_portMappings19 := λ _, Err "json"
|}.
Section demo.
Context (refused : string → bool).
Definition exec : HostExec machine := machine_exec "podman" refused answer.
Definition runtime : @RuntimeLaws machine exec "podman" := machine_runtime "podman" refused answer.
Definition provider : @NodeProvider machine "podman" exec runtime :=
  @podman_provider machine exec libs Network.demo_libs demo_host machine_cache runtime
    (λ i w, eq_refl).
Definition steps : ClusterSteps machine := {|
  cs_Export := λ _ _ _, mret tt; cs_Remove := λ _ _, mret tt;
  cs_set_Capx_opts := λ _, mret tt; cs_Execute := λ _ _, mret tt |}.
Definition world : Env machine :=
  @cluster_env machine "podman" exec runtime provider machine_deadline machine_schedule steps.
Definition provision (cfg : Cluster) : st machine unit := @np_Provision _ _ _ _ provider _ _ cfg "" false false.
Definition delete (n : list string) : st machine unit := @DeleteNodes machine exec n.
End demo.
Definition none (n : string) : bool := false.
Definition keys (w : machine) : list (list string) := vo_keys <$> mc_volumes w.
End DemoPodman.

(** The nodes have a volume each, the load balancer has none. *)
Example podman_provisioned :
  let '(r, w) := DemoPodman.provision DemoPodman.none demo_ha empty_machine in
  r = Ok tt ∧ bx_name <$> mc_boxes w = ["ha-control-plane2"; "ha-worker"; "ha-control-plane"; "ha-external-load-balancer"] ∧
  DemoPodman.keys w = [["ha-control-plane2"]; ["ha-worker"]; ["ha-control-plane"]].
Proof. vm_compute. done. Qed.

Lemma DeleteNodes_volumes_witness :
  let w := snd (DemoPodman.provision DemoPodman.none demo_ha empty_machine) in
  ∃ w', DemoPodman.delete DemoPodman.none ["ha-worker"] w = (Ok tt, w') ∧
    mc_boxes w' = List.filter (λ b, negb (among ["ha-worker"] b)) (mc_boxes w) ∧
    mc_volumes w' = List.filter (λ v, negb (belongs ["ha-worker"] v)) (mc_volumes w).
Proof.
  intros w.
  refine (@DeleteNodes_volumes machine (DemoPodman.exec DemoPodman.none) (DemoPodman.runtime DemoPodman.none)
    (machine_up "podman" DemoPodman.none DemoPodman.answer)
    (machine_volumes_up "podman" DemoPodman.none DemoPodman.answer eq_refl) ["ha-worker"] w _ _).
  - repeat constructor. by intros ?%not_elem_of_nil.
  - intros x ->%list_elem_of_singleton. vm_compute. right. left.
Defined.

(** A container that cannot be made leaves its volume: the deletion of the cluster looks
    for the volumes of the nodes that are listed. *)
Example volume_left_behind :
  let refused n := n =s "ha-worker" in
  let w := snd (DemoPodman.provision refused demo_ha empty_machine) in
  let '(r, w') := @delete_Cluster _ (DemoPodman.world refused) "ha" "" w in
  r = Ok tt ∧ mc_boxes w' = [] ∧ DemoPodman.keys w' = [["ha-worker"]].
Proof. vm_compute. done. Qed.

(** The network is looked for under the quoted name: one that has a dot in its name is
    not found, though it is there, and cannot be made again. *)
Module DemoQuoted.
Definition run (args : list string) (_ : option string) (w : list string) : outcome * list string :=
  if str_in "inspect" args then
    (if str_in (List.last args "") w then mkOutcome "[]" "[]" None else mkOutcome "" "no such network" (Some "exit status 125"), w)
  else if str_in (List.last args "") w then (mkOutcome "" "network already exists" (Some "exit status 125"), w)
  else (mkOutcome "" "" None, List.last args "" :: w).
Definition exec : HostExec (list string) := {| host := run; shell_Quote := λ s, s |}.
End DemoQuoted.
Example quoted_network_not_found :
  let ensure name := @ensureNetwork _ DemoQuoted.exec Network.demo_libs name in
  ensure "kind" ["kind"] = (NOk tt, ["kind"]) ∧
  ensure "kind.test" ["kind.test"] =
    (NErr (RunErr (mkRunError ["podman"; "network"; "create"; "-d=bridge"; "--ipv6"; "--subnet"; "fc00::/64"; "kind.test"]
       "network already exists" "exit status 125")), ["kind.test"]).
Proof. vm_compute. done. Qed.
