(* ===== verification/Api.v ===== *)
(** * The API of the library

    src/pkg/cluster/provider.go and createoption.go, pkg/internal/runtime/runtime.go and
    pkg/cluster/internal/kubeconfig/kubeconfig.go: which runtime is used, the options of a
    creation, and the kubeconfig of a cluster, over the two node providers.  Shown: the
    order of the options of a provider is no matter for its logger; and the kubeconfig
    that is given out has one cluster, the one that was asked for, with the address that
    the provider names. *)

From S2P Require Import DockerProvider PodmanProvider Kubeconfig.
From S2P Require Import Prelude State Concurrent GoStr KeosTypes Errors Exec KindConfig Nodes Docker Network Create NodeProvider Runtime Images Machine.
Local Open Scope Z_scope.
Local Open Scope go_scope.
Local Open Scope stdpp_scope.

Inductive runtime := DockerRuntime | PodmanRuntime.
Definition program (r : runtime) : string := match r with DockerRuntime => "docker" | PodmanRuntime => "podman" end.

Definition DefaultName : string := "kind".
Definition defaultName (name : string) : string := if name =s "" then DefaultName else name.

(** ** Options of a provider *)

(** A logger is what it is; a provider keeps the one there is when it is made. *)
Section options.
Context {Logger : Type} (NoopLogger : Logger).

Inductive ProviderOption := ProviderWithLogger (l : Logger) | ProviderWithDocker | ProviderWithPodman.
Record Provider := mkProvider { pr_provider : option (runtime * Logger); pr_logger : Logger }.

Definition is_logger (o : option ProviderOption) : bool :=
  match o with Some (ProviderWithLogger _) => true | _ => false end.
(** [sort.SliceStable] with an order of which the loggers are the least. *)
Definition loggers_first (options : list (option ProviderOption)) : list (option ProviderOption) :=
  List.filter is_logger options ++ List.filter (λ o, negb (is_logger o)) options.

Definition apply_option (p : Provider) (o : option ProviderOption) : Provider :=
  match o with
  | None => p
  | Some (ProviderWithLogger l) => mkProvider (pr_provider p) l
  | Some ProviderWithDocker => mkProvider (Some (DockerRuntime, pr_logger p)) (pr_logger p)
  | Some ProviderWithPodman => mkProvider (Some (PodmanRuntime, pr_logger p)) (pr_logger p)
  end.

Context {W : Type} `{!HostExec W}.

(** Neither is there: the error is dropped by the caller. *)
Definition DetectNodeProvider : st W (option ProviderOption) :=
  docker ← DockerProvider.IsAvailable;
  if (docker : bool) then mret (Some ProviderWithDocker) else
  podman ← PodmanProvider.IsAvailable;
  mret (if (podman : bool) then Some ProviderWithPodman else None).

Definition NewProvider (options : list (option ProviderOption)) : st W Provider :=
  let p := fold_left apply_option (loggers_first options) (mkProvider None NoopLogger) in
  match pr_provider p with
  | Some _ => mret p
  | None =>
      providerOpt ← DetectNodeProvider;
      mret (apply_option p (Some (default ProviderWithDocker providerOpt)))
  end.

(** [runtime.GetDefault]; an unknown value is only warned of. *)
Definition GetDefault `{Host} : option ProviderOption :=
  let p := Getenv "KIND_EXPERIMENTAL_PROVIDER" in
  if p =s "podman" then Some ProviderWithPodman else if p =s "docker" then Some ProviderWithDocker else None.

(** The provider as the commands make it, of which they use the runtime. *)
Definition new_runtime `{Host} (logger : Logger) : st W runtime :=
  provider ← NewProvider [Some (ProviderWithLogger logger); GetDefault];
  mret (match pr_provider provider with Some (r, _) => r | None => DockerRuntime end).
End options.
Arguments ProviderOption : clear implicits.
Arguments Provider : clear implicits.

(** ** Options of a creation *)

Section creation.
Context (o : ClusterOptions).

Definition remade (c : option Cluster) (forceDelete : bool) (image : string) (retain : bool) (waitTime : Z) (path : string)
    (stop usage salutation : bool) : ClusterOptions :=
  mkClusterOptions c (opt_NameOverride o) (opt_VaultPassword o) (opt_DescriptorPath o) (opt_MoveManagement o)
    (opt_AvoidCreation o) (opt_UseLocalStratioImage o) (opt_BuildStratioImage o) (opt_KeosCluster o)
    (opt_ClusterConfig o) (opt_ClusterCredentials o) (opt_DockerRegUrl o) forceDelete image retain waitTime path
    stop usage salutation.
Definition with_Config (c : option Cluster) : ClusterOptions :=
  remade c (opt_ForceDelete o) (opt_NodeImage o) (opt_Retain o) (opt_WaitForReady o) (opt_KubeconfigPath o)
    (opt_StopBeforeSettingUpKubernetes o) (opt_DisplayUsage o) (opt_DisplaySalutation o).
Definition with_ForceDelete (forceDelete : bool) : ClusterOptions :=
  remade (opt_Config o) forceDelete (opt_NodeImage o) (opt_Retain o) (opt_WaitForReady o) (opt_KubeconfigPath o)
    (opt_StopBeforeSettingUpKubernetes o) (opt_DisplayUsage o) (opt_DisplaySalutation o).
Definition with_NodeImage (image : string) : ClusterOptions :=
  remade (opt_Config o) (opt_ForceDelete o) image (opt_Retain o) (opt_WaitForReady o) (opt_KubeconfigPath o)
    (opt_StopBeforeSettingUpKubernetes o) (opt_DisplayUsage o) (opt_DisplaySalutation o).
Definition with_Retain (retain : bool) : ClusterOptions :=
  remade (opt_Config o) (opt_ForceDelete o) (opt_NodeImage o) retain (opt_WaitForReady o) (opt_KubeconfigPath o)
    (opt_StopBeforeSettingUpKubernetes o) (opt_DisplayUsage o) (opt_DisplaySalutation o).
Definition with_WaitForReady (waitTime : Z) : ClusterOptions :=
  remade (opt_Config o) (opt_ForceDelete o) (opt_NodeImage o) (opt_Retain o) waitTime (opt_KubeconfigPath o)
    (opt_StopBeforeSettingUpKubernetes o) (opt_DisplayUsage o) (opt_DisplaySalutation o).
Definition with_KubeconfigPath (path : string) : ClusterOptions :=
  remade (opt_Config o) (opt_ForceDelete o) (opt_NodeImage o) (opt_Retain o) (opt_WaitForReady o) path
    (opt_StopBeforeSettingUpKubernetes o) (opt_DisplayUsage o) (opt_DisplaySalutation o).
Definition with_flags (stop usage salutation : bool) : ClusterOptions :=
  remade (opt_Config o) (opt_ForceDelete o) (opt_NodeImage o) (opt_Retain o) (opt_WaitForReady o) (opt_KubeconfigPath o)
    stop usage salutation.
End creation.

(** The decoders of a kind configuration. *)
Class KindYaml := {
  kind_meta : string → res v1alpha4.TypeMeta;
  kind_strict : string → res v1alpha4.V1Cluster
}.
(** Files, for those who read them. *)
Class ReadFiles (W : Type) := { os_ReadFile : string → W → res string }.

Section create_options.
Context {W : Type} `{!ReadFiles W, !KindYaml} (b : build).

Definition CreateOption : Type := ClusterOptions → st W ClusterOptions.
Definition setting (f : ClusterOptions → ClusterOptions) : CreateOption := λ o, mret (f o).

Definition CreateWithConfigFile (path : string) : CreateOption := λ o w,
  (config ← Load kind_meta kind_strict b (λ p, os_ReadFile p w) path; Ok (with_Config o (Some config)), w).
Definition CreateWithRawConfig (raw : string) : CreateOption := λ o,
  config ← pure (Parse kind_meta kind_strict b raw); mret (with_Config o (Some config)).
Definition CreateWithV1Alpha4Config (config : v1alpha4.V1Cluster) : CreateOption :=
  setting (λ o, with_Config o (Some (V1Alpha4ToInternal b config))).
Definition CreateWithNodeImage (nodeImage : string) : CreateOption := setting (λ o, with_NodeImage o nodeImage).
Definition CreateWithRetain (retain : bool) : CreateOption := setting (λ o, with_Retain o retain).
Definition CreateWithMove (move : bool) : CreateOption := setting (λ o, with_Retain o (move || opt_Retain o)).
Definition CreateWithAvoidCreation (avoidCreation : bool) : CreateOption :=
  setting (λ o, with_Retain o (avoidCreation || opt_Retain o)).
Definition CreateWithForceDelete (forceDelete : bool) : CreateOption := setting (λ o, with_ForceDelete o forceDelete).
Definition CreateWithWaitForReady (waitTime : Z) : CreateOption := setting (λ o, with_WaitForReady o waitTime).
Definition CreateWithKubeconfigPath (explicitPath : string) : CreateOption := setting (λ o, with_KubeconfigPath o explicitPath).
Definition CreateWithStopBeforeSettingUpKubernetes (stop : bool) : CreateOption :=
  setting (λ o, with_flags o stop (opt_DisplayUsage o) (opt_DisplaySalutation o)).
Definition CreateWithDisplayUsage (displayUsage : bool) : CreateOption :=
  setting (λ o, with_flags o (opt_StopBeforeSettingUpKubernetes o) displayUsage (opt_DisplaySalutation o)).
Definition CreateWithDisplaySalutation (displaySalutation : bool) : CreateOption :=
  setting (λ o, with_flags o (opt_StopBeforeSettingUpKubernetes o) (opt_DisplayUsage o) displaySalutation).

Fixpoint apply_options (options : list CreateOption) (o : ClusterOptions) : st W ClusterOptions :=
  match options with [] => mret o | f :: options => o ← f o; apply_options options o end.
End create_options.

(** ** The operations of the provider *)

Section api.
Context {W : Type} `{!HostExec W, !DockerLibs, !PodmanLibs, !NetLibs, !Host, !BuildContext W, !Schedule W, !Deadline W, !ProviderCache W}.
Context `{!KubeYaml, !ReadFiles W, !KindYaml}.

Definition on {A} (r : runtime) (docker podman : A) : A := match r with DockerRuntime => docker | PodmanRuntime => podman end.

Definition p_ListNodes (r : runtime) : string → st W (list string) := on r DockerProvider.ListNodes PodmanProvider.ListNodes.
Definition p_GetAPIServerEndpoint (r : runtime) : string → st W string :=
  on r DockerProvider.GetAPIServerEndpoint PodmanProvider.GetAPIServerEndpoint.

(** *** kubeconfig.go *)

Definition kubeconfig_get (r : runtime) (name : string) (external : bool) : st W Config :=
  n ← p_ListNodes r name;
  nodes ← rt_with_roles (program r) (λ Role, ControlPlaneNodes Role n);
  match nodes with
  | [] => pure (Err ("could not locate any control plane nodes for cluster named '" +:+ name +:+
                     "'. Use the --name option to select a different cluster"))
  | node :: _ =>
      raw ← st_wrap "failed to get cluster internal kubeconfig"
              (rt_node_Run (program r) node [] ["cat"; "/etc/kubernetes/admin.conf"] None);
      server ← (if external then endpoint ← p_GetAPIServerEndpoint r name; mret ("https://" +:+ endpoint) else mret "");
      pure (KINDFromRawKubeadm yaml_decode raw name server)
  end.
Definition kubeconfig_Get (r : runtime) (name : string) (external : bool) : st W string :=
  cfg ← kubeconfig_get r name external;
  pure (yaml_encode cfg).

(** [WriteMerged] and [RemoveKIND] run to their end; what they do to the files while others
    do the same is in [Kubeconfig]. *)
Class KubeFiles := {
  run_WriteMerged : Config → string → st W unit;
  run_RemoveKIND : string → string → st W unit
}.
(** The actions, on the nodes of a runtime. *)
Class Actions := {
  action_Execute : runtime → action → Cluster → st W unit;
  assign_Capx_opts : CAPX_Options → st W unit
}.
Context `{!KubeFiles, !Actions}.

Definition kubeconfig_ExportTo (r : runtime) (name explicitPath : string) (external : bool) : st W unit :=
  cfg ← kubeconfig_get r name external;
  run_WriteMerged cfg explicitPath.

(** *** provider.go *)

Definition runtime_env (r : runtime) : Env W := {|
  Create.Info := on r DockerProvider.Info PodmanProvider.Info;
  Create.ListNodes := p_ListNodes r;
  Create.Provision := on r DockerProvider.Provision PodmanProvider.Provision;
  Create.DeleteNodes := on r DockerProvider.DeleteNodes PodmanProvider.DeleteNodes;
  kubeconfig_Export := kubeconfig_ExportTo r;
  kubeconfig_Remove := run_RemoveKIND;
  set_Capx_opts := assign_Capx_opts;
  Execute := action_Execute r
|}.

Definition base_options (name vaultPassword descriptorPath : string)
    (moveManagement avoidCreation useLocalStratioImage buildStratioImage : bool) (dockerRegUrl : string)
    (clusterConfig : option ClusterConfig) (keosCluster : KeosCluster) (clusterCredentials : ClusterCredentials) : ClusterOptions :=
  mkClusterOptions None name vaultPassword descriptorPath moveManagement avoidCreation useLocalStratioImage
    buildStratioImage keosCluster clusterConfig clusterCredentials dockerRegUrl false "" false 0 "" false false false.
Definition api_Create (b : build) (r : runtime) (base : ClusterOptions) (options : list CreateOption) : st W unit :=
  opts ← apply_options options base;
  @create_Cluster W (runtime_env r) b opts.

Definition api_Delete (r : runtime) (name explicitKubeconfigPath : string) : st W unit :=
  @delete_Cluster W (runtime_env r) (defaultName name) explicitKubeconfigPath.
Definition api_List (r : runtime) : st W (list string) := on r DockerProvider.ListClusters PodmanProvider.ListClusters.
Definition api_KubeConfig (r : runtime) (name : string) (internal : bool) : st W string :=
  kubeconfig_Get r (defaultName name) (negb internal).
Definition api_ExportKubeConfig (r : runtime) (name explicitPath : string) (internal : bool) : st W unit :=
  kubeconfig_ExportTo r (defaultName name) explicitPath (negb internal).
Definition api_ListNodes (r : runtime) (name : string) : st W (list string) := p_ListNodes r (defaultName name).
(** Here the name has no default. *)
Definition api_ListInternalNodes (r : runtime) (name : string) : st W (list string) :=
  n ← p_ListNodes r name;
  rt_with_roles (program r) (λ Role, InternalNodes Role n).
End api.

(** ** The logger of a provider *)

Section logger.
Context {Logger : Type} (NoopLogger : Logger) {W : Type} `{!HostExec W}.

(** The last logger that is given. *)
Fixpoint last_logger (l : Logger) (options : list (option (ProviderOption Logger))) : Logger :=
  match options with
  | [] => l
  | Some (ProviderWithLogger l') :: options => last_logger l' options
  | _ :: options => last_logger l options
  end.

Lemma fold_loggers options p : Forall (λ o, is_logger o = true) options →
  fold_left apply_option options p = mkProvider (pr_provider p) (last_logger (pr_logger p) options).
Proof.
  intros Ho. revert p. induction Ho as [|o options Ho _ IH]; intros p; [by destruct p|].
  destruct o as [[l| |]|]; [|done..]. cbn [fold_left apply_option last_logger]. by rewrite IH.
Qed.
(** A provider that was made with the logger there is. *)
Definition consistent (p : Provider Logger) : Prop := ∀ r l, pr_provider p = Some (r, l) → l = pr_logger p.
Lemma fold_runtimes options p : Forall (λ o, is_logger o = false) options → consistent p →
  consistent (fold_left apply_option options p) ∧ pr_logger (fold_left apply_option options p) = pr_logger p.
Proof.
  intros Ho. revert p. induction Ho as [|o options Ho _ IH]; intros p Hp; [done|]. cbn [fold_left].
  destruct o as [[l| |]|]; [done| | |by apply IH];
    match goal with |- context [apply_option p ?o] => apply (IH (apply_option p o)) end; by intros r l [= _ <-].
Qed.
Lemma last_logger_filter l options : last_logger l (List.filter is_logger options) = last_logger l options.
Proof. revert l. induction options as [|[[]|] options IH]; intros l'; simpl; auto. Qed.

(** Whatever the order in which the options come, the provider and what it runs on log
    to the last logger that was given, and to none when there was none; and there is a
    runtime. *)
Theorem NewProvider_logger options (w w' : W) p :
  NewProvider NoopLogger options w = (Ok p, w') →
  pr_logger p = last_logger NoopLogger options ∧ ∃ r, pr_provider p = Some (r, last_logger NoopLogger options).
Proof.
  unfold NewProvider, loggers_first. rewrite fold_left_app, (fold_loggers (List.filter is_logger options)).
  2: { apply Forall_forall. intros o [_ Ho]%list_elem_of_In%filter_In. exact Ho. }
  cbn [pr_provider pr_logger]. rewrite last_logger_filter.
  set (p0 := mkProvider None _). set (rest := List.filter _ options).
  destruct (fold_runtimes rest p0) as [Hc Hl].
  { apply Forall_forall. intros o [_ Ho]%list_elem_of_In%filter_In. by apply negb_true_iff. }
  { by intros r l. }
  destruct (pr_provider (fold_left apply_option rest p0)) as [[r l]|] eqn:Hp.
  - intros [= <- _]. rewrite Hl. split; [done|]. exists r. rewrite Hp. by rewrite (Hc r l Hp), Hl.
  - intros (o & w1 & Hd & [= <- _])%st_bind_Ok.
    assert (o = None ∨ o = Some ProviderWithDocker ∨ o = Some ProviderWithPodman) as Ho.
    { unfold DetectNodeProvider in Hd. apply st_bind_Ok in Hd as (d & w2 & _ & Hd).
      destruct d; [injection Hd as <- _; auto|]. apply st_bind_Ok in Hd as (q & w3 & _ & [= <- _]). destruct q; auto. }
    destruct Ho as [->|[->| ->]]; cbn [default apply_option pr_logger pr_provider]; rewrite Hl; eauto.
Qed.
End logger.

(** ** The kubeconfig that is given out *)

Section kubeconfig.
Context {W : Type} `{!HostExec W, !DockerLibs, !PodmanLibs, !NetLibs, !Host, !BuildContext W, !Schedule W, !Deadline W, !ProviderCache W}.
Context `{!KubeYaml}.

(** A kubeconfig that is given out for a cluster has that cluster, its user and its
    context, each once and under the name of the cluster, and is set to it; the server
    is the address that the provider answers when the external one is asked for. *)
Theorem kubeconfig_get_spec r name external (w w' : W) cfg :
  kubeconfig_get r name external w = (Ok cfg, w') →
  let key := KINDClusterKey name in
  cfg_CurrentContext cfg = key ∧ (∃ cl u x, cfg_Clusters cfg = [mkNamedCluster key cl] ∧ cfg_Users cfg = [mkNamedUser key u] ∧
    cfg_Contexts cfg = [mkNamedContext key x] ∧ cx_Cluster x = key ∧ cx_User x = key ∧
    (external = true → ∃ endpoint w1, p_GetAPIServerEndpoint r name w1 = (Ok endpoint, w') ∧ cl_Server cl = "https://" +:+ endpoint)).
Proof.
  unfold kubeconfig_get. intros (n & w1 & _ & E)%st_bind_Ok. apply st_bind_Ok in E as (nodes & w2 & _ & E).
  destruct nodes as [|node nodes]; [done|]. apply st_bind_Ok in E as (raw & w3 & _ & E).
  apply st_bind_Ok in E as (server & w4 & Hs & [E ->]%pure_run). unfold KINDFromRawKubeadm in E.
  apply bind_Ok_iff in E as (c0 & _ & E). apply bind_unit_Ok in E as [_ E].
  apply bind_Ok_iff in E as (cluster & _ & E). apply bind_Ok_iff in E as (user & _ & E).
  apply bind_Ok_iff in E as (context & _ & <-%Ok_inj). cbn [cfg_CurrentContext cfg_Clusters cfg_Users cfg_Contexts].
  split; [done|]. do 3 eexists. split_and!; [done..|]. intros ->.
  apply st_bind_Ok in Hs as (endpoint & w5 & Hend & [= <- ->]). exists endpoint, w3. split; [done|]. reflexivity.
Qed.
End kubeconfig.

(** ** What the creation relies on *)

(** Kubeconfig files and the global variable are no containers, and the commands of the
    actions are for the containers there are. *)
Class ApiLaws (W : Type) (r : runtime) `{!HostExec W, !RuntimeLaws W (program r), !KubeFiles (W:=W), !Actions (W:=W)} := {
  run_WriteMerged_keeps cfg path : sat (run_WriteMerged cfg path) (same_boxes (program r)) (same_boxes (program r));
  run_RemoveKIND_keeps name path w res w' : run_RemoveKIND name path w = (res, w') → is_Panic res = false ∧ boxes w' = boxes w;
  assign_Capx_keeps v w : ∃ w', assign_Capx_opts v w = (Ok tt, w') ∧ boxes w' = boxes w;
  action_Execute_keeps a cfg : sat (action_Execute r a cfg) (same_boxes (program r)) (same_boxes (program r))
}.

Section steps.
Context {W : Type} `{!HostExec W, !DockerLibs, !PodmanLibs, !NetLibs, !Host, !BuildContext W, !Schedule W, !Deadline W, !ProviderCache W}.
Context `{!KubeYaml, !KubeFiles (W:=W), !Actions (W:=W)} (r : runtime) `{!RuntimeLaws W (program r), !ApiLaws W r}.
Abbreviation keeps m := (sat m (same_boxes (program r)) (same_boxes (program r))).

Definition api_steps : ClusterSteps W := {|
  cs_Export := kubeconfig_ExportTo r; cs_Remove := run_RemoveKIND;
  cs_set_Capx_opts := assign_Capx_opts; cs_Execute := action_Execute r
|}.

Lemma with_roles_keeps {A} (f : (string → res string) → res A) : keeps (rt_with_roles (program r) f).
Proof. intros w. unfold rt_with_roles. by destruct (f _). Qed.
Lemma node_Run_keeps n env command stdin : keeps (rt_node_Run (program r) n env command stdin).
Proof.
  apply sat_always. intros w res w'. unfold rt_node_Run, host_Run_with, rt_node_args. cbn [app].
  destruct (host _ stdin w) as [o w1] eqn:E. intros [= _ <-]. eapply quiet_spec; [exact E|by apply quiet_head].
Qed.
Lemma ListNodes_keeps name : keeps (p_ListNodes r name).
Proof. unfold p_ListNodes. destruct r; apply ListNodes_same. Qed.
Lemma endpoint_node_keeps message name : keeps (rt_endpoint_node (program r) message name).
Proof. unfold rt_endpoint_node. repeat (sat_step || apply ListNodes_same || apply with_roles_keeps). Qed.

Lemma GetAPIServerEndpoint_keeps name : keeps (p_GetAPIServerEndpoint r name).
Proof.
  pose proof endpoint_node_keeps as He. pose proof (quiet_OutputLines (program r)) as Hq. unfold p_GetAPIServerEndpoint.
  destruct r; cbn [on program] in *.
  - unfold DockerProvider.GetAPIServerEndpoint.
    repeat (sat_step || apply He || (apply Hq; apply quiet_head; reflexivity)).
  - unfold PodmanProvider.GetAPIServerEndpoint.
    repeat (sat_step || apply He || apply version_keeps || (apply Hq; apply quiet_head; reflexivity)).
Qed.

Lemma ExportTo_keeps name path external : keeps (kubeconfig_ExportTo r name path external).
Proof.
  unfold kubeconfig_ExportTo, kubeconfig_get.
  repeat (sat_step || apply ListNodes_keeps || apply with_roles_keeps || apply node_Run_keeps ||
          apply GetAPIServerEndpoint_keeps || apply run_WriteMerged_keeps).
Qed.

Lemma api_steps_laws : @ClusterStepsLaws W (program r) _ _ api_steps.
Proof.
  refine (@Build_ClusterStepsLaws _ _ _ _ api_steps _ _ _ _); cbn [cs_Export cs_Remove cs_set_Capx_opts cs_Execute api_steps].
  - apply ExportTo_keeps.
  - apply run_RemoveKIND_keeps.
  - apply assign_Capx_keeps.
  - apply action_Execute_keeps.
Qed.
End steps.

(** ** The two providers as one *)

Section providers.
Context {W : Type} `{!HostExec W, !DockerLibs, !PodmanLibs, !NetLibs, !Host, !BuildContext W, !Schedule W, !Deadline W, !ProviderCache W}.

Definition api_provider (r : runtime) {HL : RuntimeLaws W (program r)} {HO : OtherLaws W (program r)} : NodeProvider W (program r) :=
  match r return ∀ HL : RuntimeLaws W (program r), OtherLaws W (program r) → NodeProvider W (program r) with
  | DockerRuntime => λ HL HO, docker_provider
  | PodmanRuntime => λ HL HO, podman_provider set_p_info_keeps
  end HL HO.

Lemma api_provider_up (r : runtime) {HL : RuntimeLaws W (program r)} {HO : OtherLaws W (program r)} :
  RuntimeUp W (program r) → (r = PodmanRuntime → VolumesUp W) → @NodeProviderUp W (program r) _ _ (api_provider r).
Proof. destruct r; intros Hup Hv; [apply docker_provider_up|]. specialize (Hv eq_refl). apply podman_provider_up. Qed.

Context `{!KubeYaml, !KubeFiles (W:=W), !Actions (W:=W)}.

(** The world of a creation is that of the provider. *)
Lemma runtime_env_cluster (r : runtime) {HL : RuntimeLaws W (program r)} {HO : OtherLaws W (program r)} :
  runtime_env r = @cluster_env W (program r) _ _ (api_provider r) _ _ (api_steps r).
Proof. by destruct r. Qed.
End providers.

(** ** On a small machine *)

Module DemoApi.
Definition answer (args : list string) : string :=
  if str_in desktop_format args then "127.0.0.1:40000" else DemoProvider.answer args.
#[export] Instance exec : HostExec machine := machine_exec "docker" (λ _, false) answer.
#[export] Instance laws : RuntimeLaws machine "docker" := machine_runtime "docker" (λ _, false) answer.
#[export] Instance up : RuntimeUp machine "docker" := machine_up "docker" (λ _, false) answer.
#[export] Instance other : OtherLaws machine "docker".
Proof. refine (@Build_OtherLaws _ _ _ _ "docker" _ _ _ _); by intros. Defined.
#[export] Instance podman : PodmanLibs := {|
  json_podmanInfo := λ _, Err "json"; json_podmanStorageInfo := λ _, None; json_podmanNetworks := λ _, Ok [];
  json_portMappings20 := λ _, None; json_portMappings19 := λ _, Err "json"
|}.
#[export] Instance yaml : KubeYaml := {|
  yaml_decode := λ _, Ok (mkConfig [mkNamedCluster "kubernetes" (Kubeconfig.mkCluster "https://demo-control-plane:6443" ∅)]
    [mkNamedUser "kubernetes-admin" ∅] [mkNamedContext "kubernetes-admin@kubernetes" (mkContext "kubernetes" "kubernetes-admin" ∅)]
    "kubernetes-admin@kubernetes" ∅);
  yaml_encode := λ cfg, Ok (cfg_CurrentContext cfg)
|}.
#[export] Instance files : KubeFiles (W:=machine) := {| run_WriteMerged := λ _ _, mret tt; run_RemoveKIND := λ _ _, mret tt |}.
(** There is one node. *)
Definition one : machine :=
  mkMachine [mkBox "demo-control-plane" (<[nodeRoleLabelKey := "control-plane"]> {[clusterLabelKey := "demo"]})]
    [] None (mkCAPX_Options "" "" "" "") eq_refl.
Definition config : res Config * machine := @kubeconfig_get machine exec podman yaml DockerRuntime "demo" true one.
End DemoApi.

Lemma kubeconfig_get_spec_witness :
  ∃ cfg, fst DemoApi.config = Ok cfg ∧ cfg_CurrentContext cfg = "kind-demo".
Proof.
  destruct DemoApi.config as [[cfg|e|x] w'] eqn:E; [|exfalso; revert E; vm_compute; done..].
  exists cfg. split; [done|]. exact (proj1 (kubeconfig_get_spec DockerRuntime "demo" true DemoApi.one w' cfg E)).
Defined.
Example endpoint_given :
  (nc_Cluster <$> (match fst DemoApi.config with Ok c => cfg_Clusters c | _ => [] end)) = [Kubeconfig.mkCluster "https://127.0.0.1:40000" ∅].
Proof. vm_compute. reflexivity. Qed.

(** Neither runtime is there, and the options come with the logger last. *)
Lemma NewProvider_logger_witness :
  ∃ p, fst (NewProvider (HostExec0:=DemoApi.exec) "none" [None; Some ProviderWithPodman; Some (ProviderWithLogger "first"); Some (ProviderWithLogger "last")]
    empty_machine) = Ok p ∧ pr_logger p = "last".
Proof.
  eexists. split; [reflexivity|].
  exact (proj1 (NewProvider_logger (HostExec0:=DemoApi.exec) "none"
    [None; Some ProviderWithPodman; Some (ProviderWithLogger "first"); Some (ProviderWithLogger "last")]
    empty_machine empty_machine (mkProvider (Some (PodmanRuntime, "last")) "last") eq_refl)).
Defined.
