(* ===== verification/CreateCommand.v ===== *)
(** * The command that creates a cluster

    src/pkg/cmd/kind/create/cluster/{createcluster,privateUtils}.go: from the flags of the
    command line to the creation: the password, the descriptor, the validation, the
    configuration of the private registry, and what is passed on.  It composes
    [Descriptor], [Validate], [Clouds], [Api] and [Create].  Shown: a cluster is only
    created from a descriptor that was validated; what is not to be created changes no
    containers; and at the end the local cluster is gone, unless it was asked to keep it, its
    kubeconfig could not be exported or provisioning has failed. *)

From S2P Require Import Execution ValidateAWS DockerProvider PodmanProvider Kubeconfig Validate.
From S2P Require Import Prelude State Concurrent GoStr KeosTypes Descriptor NetIP ValidateUtils Secrets Aws ValidateAzure ValidateGCP.
From S2P Require Import Errors Exec Base64 Worker Builder Clouds KindConfig Nodes Docker Network Create NodeProvider Runtime Images Machine Api.
Local Open Scope Z_scope.
Local Open Scope go_scope.
Local Open Scope stdpp_scope.

Record flagpole := mkFlagpole {
  fl_Name : string;
  fl_Config : string;
  fl_ImageName : string;
  fl_Retain : bool;
  fl_Wait : Z;
  fl_Kubeconfig : string;
  fl_VaultPassword : string;
  fl_DescriptorPath : string;
  fl_MoveManagement : bool;
  fl_AvoidCreation : bool;
  fl_ForceDelete : bool;
  fl_ValidateOnly : bool;
  fl_UseLocalStratioImage : bool;
  fl_BuildStratioImage : bool
}.

Definition clusterDefaultPath : string := "./cluster.yaml".
Definition secretsDefaultPath : string := "./secrets.yml".

Definition validateFlags (flags : flagpole) : res unit :=
  let count := Z.b2z (fl_AvoidCreation flags) + Z.b2z (fl_Retain flags) + Z.b2z (fl_MoveManagement flags) in
  fail_when (1 <? count) "Flags --retain, --avoid-creation, and --keep-mgmt are mutually exclusive".

(** The terminal and the files that the command itself touches. *)
Class Terminal (W : Type) := {
  ReadPassword : st W string;
  ReadStdin : st W string;
  stat_ok : string → W → bool;
  stat_not_exist : string → W → bool;
  os_CreateTemp : string → string → st W string;
  WriteString : string → string → st W unit
}.

(** ** The configuration for a private registry *)

Record RegistryParams := mkRegistryParams { rp_Url : string; rp_User : string; rp_Pass : string }.

Definition hostname (s : string) : string := hd "" (Split s "/").
Definition privateconfig (p : RegistryParams) : string :=
  let host := hostname (rp_Url p) in
  js (Join [
    "kind: Cluster";
    "apiVersion: kind.x-k8s.io/v1alpha4";
    "networking:";
    "  disableDefaultCNI: true";
    "nodes:";
    "- role: control-plane";
    "containerdConfigPatches:";
    "- |-";
    "  [plugins.`io.containerd.grpc.v1.cri`.registry]";
    "    [plugins.`io.containerd.grpc.v1.cri`.registry.mirrors]";
    "      [plugins.`io.containerd.grpc.v1.cri`.registry.mirrors.`"] Runtime.newline) +:+ host +:+ js (Join ["`]";
    "        endpoint = [`https://"] Runtime.newline) +:+ host +:+ js (Join ["`]";
    "      [plugins.`io.containerd.grpc.v1.cri`.registry.configs]";
    "          [plugins.`io.containerd.grpc.v1.cri`.registry.configs.`"] Runtime.newline) +:+ host +:+ js (Join ["`.auth]";
    "            username = `"] Runtime.newline) +:+ rp_User p +:+ js (Join ["`";
    "            password = `"] Runtime.newline) +:+ rp_Pass p +:+ js "`".

Section private.
Context `{CloudApis} `{Texts}.

Definition ecr_keys (credentials : gmap string string) : gmap string string :=
  let given k := (k, map_get credentials k) in
  list_to_map ([given "AccessKey"; given "SecretKey"; given "Region"] ++
               (if map_get credentials "RoleARN" <>s "" then [given "RoleARN"] else [])).
Definition getECRCredentials (creds : ClusterCredentials) : res (string * string) :=
  ecr_login (ecr_keys (clc_ProviderCredentials creds)).
Definition getACRCredentials (creds : ClusterCredentials) (keosRegUrl : string) : res (string * string) :=
  acr_login (clc_ProviderCredentials creds) keosRegUrl.
(** The error of [json.Marshal] is dropped. *)
Definition getGARCredentials (creds : ClusterCredentials) : res (string * string) :=
  let jsonData := match json_Marshal (VMap (gcp_account (clc_ProviderCredentials creds))) with Ok s => s | _ => "" end in
  google ← google_CredentialsFromJSON jsonData "https://www.googleapis.com/auth/cloud-platform";
  token ← google_Token google;
  Ok ("oauth2accesstoken", token).

(** The registry that is marked, with the credentials for it; the first one, if there are
    several. *)
Definition registry_login (creds : ClusterCredentials) (registry : DockerRegistry) : res (string * string) :=
  let t := dr_Type registry in
  if t =s "ecr" then getECRCredentials creds
  else if t =s "acr" then getACRCredentials creds (dr_URL registry)
  else if str_in t ["gcr"; "gar"] then getGARCredentials creds
  else Ok (if dr_AuthRequired registry
           then (map_get (clc_KeosRegistryCredentials creds) "User", map_get (clc_KeosRegistryCredentials creds) "Pass")
           else ("", "")).
Fixpoint registry_params (creds : ClusterCredentials) (l : list DockerRegistry) : res RegistryParams :=
  match l with
  | [] => Ok (mkRegistryParams "" "" "")
  | registry :: l =>
      if dr_KeosRegistry registry then
        '(user, pass) ← registry_login creds registry; Ok (mkRegistryParams (dr_URL registry) user pass)
      else registry_params creds l
  end.

Context {W : Type} `{!HostExec W, !Terminal W}.

(** The error of the login comes without its message, which is dropped. *)
Definition docker_login (p : RegistryParams) : st W unit := λ w,
  let '(o, w) := host ["docker"; "login"; "-u"; rp_User p; "-p"; rp_Pass p; rp_Url p] None w in
  (match oc_error o with Some e => Err e | None => Ok tt end, w).

Definition getConfigFile (keosCluster : KeosCluster) (creds : ClusterCredentials) : st W string :=
  params ← pure (registry_params creds (ks_DockerRegistries (kc_Spec keosCluster)));
  st_when (rp_Url params <>s "") (docker_login params) ;;
  tempFile ← os_CreateTemp "" "configfile";
  WriteString tempFile (privateconfig params) ;;
  mret tempFile.
End private.

(** ** Running the command *)

Section password.
Context {W : Type} `{!Terminal W}.

(** The password is asked for twice when there is no secrets file yet. *)
Definition setPassword (secretsDefaultPath : string) : st W string :=
  firstPassword ← ReadPassword;
  missing ← get (stat_not_exist secretsDefaultPath);
  st_when missing
    (secondPassword ← ReadPassword;
     pure (fail_when (firstPassword <>s secondPassword) "The passwords do not match.")) ;;
  mret firstPassword.

Definition configOption `{!ReadFiles W, !KindYaml} (b : build) (rawConfigFlag : string) : st W CreateOption :=
  if rawConfigFlag <>s "-" then mret (CreateWithConfigFile b rawConfigFlag) else
  raw ← st_wrap "error reading config from stdin" ReadStdin;
  mret (CreateWithRawConfig b raw).
End password.

(** The last of the registries that are marked. *)
Definition keos_registry_url (l : list DockerRegistry) : string :=
  fold_left (λ url r, if dr_KeosRegistry r then dr_URL r else url) l "".

Section command.
Context `{DescriptorLib, ReflectLib, VaultLib, GoCidr, GcpSdk} `{AwsSdk} `{AzureSdk} `{!CloudApis} `{Texts}.
Context {W : Type} `{!HostExec W, !DockerLibs, !PodmanLibs, !NetLibs, !Host, !BuildContext W, !Schedule W, !Deadline W, !ProviderCache W}.
Context `{!KubeYaml, !ReadFiles W, !KindYaml, !KubeFiles (W:=W), !Actions (W:=W), !Terminal W}.
Context {Logger : Type} (NoopLogger logger : Logger) (b : build).

(** Of an error of the validation: it is passed over when its text speaks of the role of
    AWS, and then there are no credentials. *)
Definition role_missing : string := "RoleARN in not set".
Definition validated (r : res ClusterCredentials) : res ClusterCredentials :=
  match r with
  | Err e => if Contains e role_missing then Ok zero_ClusterCredentials else Err ("failed to validate cluster: " +:+ e)
  | o => o
  end.

(** What is read and validated before anything is created. *)
Definition prepare (flags : flagpole) : st W (string * string * KeosCluster * ClusterConfig * runtime * ClusterCredentials) :=
  pure (validateFlags flags) ;;
  let descriptorPath := if fl_DescriptorPath flags =s "" then clusterDefaultPath else fl_DescriptorPath flags in
  vaultPassword ← (if fl_VaultPassword flags =s "" then setPassword secretsDefaultPath else mret (fl_VaultPassword flags));
  there ← get (stat_ok descriptorPath);
  raw ← get (os_ReadFile descriptorPath);
  '(keosCluster, clusterConfig) ← pure (errors_Wrap "failed to parse cluster descriptor" (GetClusterDescriptor descriptorPath there raw));
  r ← new_runtime NoopLogger logger;
  secrets ← get (stat_ok secretsDefaultPath);
  creds ← pure (validated (Validate.Cluster (mkValidateParams keosCluster (Some clusterConfig) secretsDefaultPath vaultPassword secrets)));
  mret (vaultPassword, descriptorPath, keosCluster, clusterConfig, r, creds).

(** The options, in their order. *)
Definition create_options (withConfig : CreateOption (W:=W)) (flags : flagpole) : list CreateOption :=
  [withConfig; CreateWithNodeImage (fl_ImageName flags); CreateWithRetain (fl_Retain flags);
   CreateWithMove (fl_MoveManagement flags); CreateWithAvoidCreation (fl_AvoidCreation flags);
   CreateWithForceDelete (fl_ForceDelete flags); CreateWithWaitForReady (fl_Wait flags);
   CreateWithKubeconfigPath (fl_Kubeconfig flags); CreateWithDisplayUsage true; CreateWithDisplaySalutation true].

(** What the library is called with: the runtime, the base of the options, and the options;
    nothing when there is only to validate. *)
Definition settings (flags : flagpole) : st W (option (runtime * ClusterOptions * list CreateOption)) :=
  '(vaultPassword, descriptorPath, keosCluster, clusterConfig, r, creds) ← prepare flags;
  let private := ccs_Private (cc_Spec clusterConfig) in
  config ← (if private then st_wrap "Error getting private kubeadm config" (getConfigFile keosCluster creds)
            else mret (fl_Config flags));
  let dockerRegUrl := if private then keos_registry_url (ks_DockerRegistries (kc_Spec keosCluster)) else "" in
  if fl_ValidateOnly flags then mret None else
  withConfig ← configOption b config;
  mret (Some (r,
    base_options (fl_Name flags) vaultPassword descriptorPath (fl_MoveManagement flags) (fl_AvoidCreation flags)
      (fl_UseLocalStratioImage flags) (fl_BuildStratioImage flags) dockerRegUrl (Some clusterConfig) keosCluster creds,
    create_options withConfig flags)).

Definition runE (flags : flagpole) : st W unit :=
  s ← settings flags;
  match s with
  | None => mret tt
  | Some (r, base, options) => st_wrap "failed to create cluster" (api_Create b r base options)
  end.

(** The options that the cluster is created with, if it comes to that. *)
Definition given_options (flags : flagpole) (w : W) : option ClusterOptions :=
  match settings flags w with
  | (Ok (Some (_, base, options)), w) => match apply_options options base w with (Ok opts, _) => Some opts | _ => None end
  | _ => None
  end.
End command.

(** ** The containers that are left *)

(** No configuration names an image that looks like a flag. *)
Definition images_ok (cfg : Cluster) : Prop := Forall (λ n, image_ok (no_Image n)) (kc_Nodes cfg).

(** The terminal and temporary files are no containers. *)
Class TerminalLaws (W : Type) (rt : string) `{!HostExec W, !RuntimeLaws W rt, !Terminal W} := {
  ReadPassword_keeps : sat ReadPassword (same_boxes rt) (same_boxes rt);
  ReadStdin_keeps : sat ReadStdin (same_boxes rt) (same_boxes rt);
  os_CreateTemp_keeps dir pattern : sat (os_CreateTemp dir pattern) (same_boxes rt) (same_boxes rt);
  WriteString_keeps file text : sat (WriteString file text) (same_boxes rt) (same_boxes rt)
}.

Section steps.
Context `{DescriptorLib, ReflectLib, VaultLib, GoCidr, GcpSdk} `{AwsSdk} `{AzureSdk} `{!CloudApis} `{Texts}.
Context {W : Type} `{!HostExec W, !DockerLibs, !PodmanLibs, !NetLibs, !Host, !ReadFiles W, !KindYaml, !Terminal W}.
Context (r : runtime) `{!RuntimeLaws W (program r), !TerminalLaws W (program r)}.
Context {Logger : Type} (NoopLogger logger : Logger) (b : build).
Abbreviation keeps m := (sat m (same_boxes (program r)) (same_boxes (program r))).

Lemma setPassword_keeps path : keeps (setPassword path).
Proof. unfold setPassword. repeat (sat_step || apply ReadPassword_keeps). Qed.
Lemma available_keeps (d : bool) : keeps (if d then DockerProvider.IsAvailable else PodmanProvider.IsAvailable).
Proof.
  destruct d; [unfold DockerProvider.IsAvailable|unfold PodmanProvider.IsAvailable];
    (sat_step; [apply sat_try_always, quiet_OutputLines; by destruct r|apply sat_ret]).
Qed.
Lemma NewProvider_keeps options : keeps (NewProvider (Logger:=Logger) NoopLogger options).
Proof.
  unfold NewProvider, DetectNodeProvider. cbv zeta. destruct (pr_provider _); [apply sat_ret|].
  repeat (sat_step || apply (available_keeps true) || apply (available_keeps false)).
Qed.
Lemma prepare_keeps flags : keeps (prepare NoopLogger logger flags).
Proof.
  unfold prepare, new_runtime. cbv zeta. repeat (sat_step || apply setPassword_keeps || apply NewProvider_keeps).
Qed.
Lemma getConfigFile_keeps kc creds : keeps (getConfigFile kc creds).
Proof.
  unfold getConfigFile. repeat (sat_step || apply os_CreateTemp_keeps || apply WriteString_keeps).
  apply sat_always. intros w res w'. unfold docker_login. destruct (host _ None w) as [o w1] eqn:E.
  intros [= _ <-]. eapply quiet_spec; [exact E|]. by destruct r.
Qed.
Lemma configOption_keeps config : keeps (configOption b config).
Proof. unfold configOption. repeat (sat_step || apply ReadStdin_keeps). Qed.

(** Reading a configuration changes nothing else of the options. *)
Definition reads_config (f : CreateOption (W:=W)) : Prop := ∀ o (w : W), snd (f o w) = w ∧
  ∀ o', fst (f o w) = Ok o' → ∃ c, o' = with_Config o (Some c).

Lemma configOption_reads config (w : W) f w' : configOption b config w = (Ok f, w') → reads_config f.
Proof.
  unfold configOption. destruct (config <>s "-").
  - intros [= <- _] o v. split; [done|]. intros o' (c & Hc & [= <-])%bind_Ok_iff. by exists c.
  - intros (raw & w1 & _ & [= <- _])%st_bind_Ok o v. unfold CreateWithRawConfig, mbind, st_bind, pure.
    destruct (Parse kind_meta kind_strict b raw) as [c|e|x] eqn:Hc; (split; [done|]); [|done..].
    intros o' [= <-]. by exists c.
Qed.

(** What is passed on. *)
Lemma create_options_run f flags base (w w' : W) res : reads_config f →
  apply_options (create_options f flags) base w = (res, w') →
  w' = w ∧ ∀ opts, res = Ok opts →
    opt_Retain opts = (fl_AvoidCreation flags || (fl_MoveManagement flags || fl_Retain flags)) ∧
    opt_StopBeforeSettingUpKubernetes opts = opt_StopBeforeSettingUpKubernetes base ∧
    opt_KubeconfigPath opts = fl_Kubeconfig flags.
Proof.
  intros Hf. unfold create_options. cbn [apply_options]. destruct (Hf base w) as [Hw Hc].
  unfold mbind, st_bind. destruct (f base w) as [[o|e|x] w1] eqn:Ef; cbn [snd] in Hw; subst w1.
  - destruct (Hc o eq_refl) as (c & ->). intros E. apply (f_equal fst) in E as Er. apply (f_equal snd) in E as Ew.
    clear E. split; [symmetry; exact Ew|]. intros opts Ho. rewrite Ho in Er. clear Ho Ew Ef Hc. apply Ok_inj in Er as <-.
    split_and!; reflexivity.
  - intros [= <- <-]. split; [done|]. by intros opts.
  - intros [= <- <-]. split; [done|]. by intros opts.
Qed.
End steps.

Section containers.
Context `{DescriptorLib, ReflectLib, VaultLib, GoCidr, GcpSdk} `{AwsSdk} `{AzureSdk} `{!CloudApis} `{Texts}.
Context {W : Type} `{!HostExec W, !DockerLibs, !PodmanLibs, !NetLibs, !Host, !BuildContext W, !Schedule W, !Deadline W, !ProviderCache W}.
Context `{!KubeYaml, !ReadFiles W, !KindYaml, !KubeFiles (W:=W), !Actions (W:=W), !Terminal W}.
Context (r : runtime) `{!RuntimeLaws W (program r), !TerminalLaws W (program r), !OtherLaws W (program r), !ApiLaws W r}.
Context `{!RuntimeUp W (program r)} (Hvol : r = PodmanRuntime → VolumesUp W).
Context {Logger : Type} (NoopLogger logger : Logger) (b : build).

(** The runtime is the one that is picked. *)
Context (Hr : ∀ (w : W) q w', new_runtime NoopLogger logger w = (Ok q, w') → q = r).

Lemma prepare_runtime flags (w w' : W) vp dp kc cc r' creds :
  prepare NoopLogger logger flags w = (Ok (vp, dp, kc, cc, r', creds), w') → r' = r.
Proof.
  unfold prepare. cbv zeta. intros (_ & w1 & _ & E)%st_bind_Ok. apply st_bind_Ok in E as (? & w2 & _ & E).
  do 2 apply st_bind_Ok in E as (? & ? & _ & E). apply st_bind_Ok in E as ([? ?] & w3 & _ & E).
  apply st_bind_Ok in E as (q & w4 & Hp & E). do 2 apply st_bind_Ok in E as (? & ? & _ & E).
  apply Hr in Hp as ->. by injection E as _ _ _ _ <- _ _.
Qed.

(** Everything before the creation leaves the containers as they are. *)
Lemma settings_run flags (w w' : W) res : settings NoopLogger logger b flags w = (res, w') →
  boxes w' = boxes w ∧ ∀ q base options, res = Ok (Some (q, base, options)) →
    q = r ∧ fl_ValidateOnly flags = false ∧ opt_StopBeforeSettingUpKubernetes base = false ∧
    ∃ f, reads_config f ∧ options = create_options f flags.
Proof.
  unfold settings. intros E. pose proof (prepare_keeps r NoopLogger logger flags w) as Hk. unfold mbind at 1, st_bind at 1 in E.
  destruct (prepare NoopLogger logger flags w) as [[[[[[[vp dp] kc] cc] r'] creds]|e|x] w1] eqn:Ep; [|by injection E as <- <-..].
  apply prepare_runtime in Ep as ->. unfold same_boxes in Hk. cbv zeta in E.
  assert (sat (if ccs_Private (cc_Spec cc) then st_wrap "Error getting private kubeadm config" (getConfigFile kc creds)
            else mret (fl_Config flags)) (same_boxes (program r)) (same_boxes (program r))) as Hc
    by (destruct (ccs_Private _); [apply sat_wrap, (getConfigFile_keeps r)|apply sat_ret]).
  specialize (Hc w1). unfold mbind at 1, st_bind at 1 in E.
  match type of Hc with match ?m with _ => _ end => destruct m as [[config|e|x] w2] end;
    unfold same_boxes in Hc; [|injection E as <- <-; split; [congruence|done]..].
  destruct (fl_ValidateOnly flags); [injection E as <- <-; split; [congruence|done]|].
  pose proof (configOption_keeps r b config w2) as Hf. unfold mbind, st_bind in E.
  destruct (configOption b config w2) as [[f|e|x] w3] eqn:Ef; unfold same_boxes in Hf; injection E as <- <-;
    (split; [congruence|]); [|done..].
  intros q base options [= <- <- <-]. split_and!; [done..|]. exists f. split; [|done]. by eapply configOption_reads.
Qed.

(** C6. However the command ends, unless it was told to keep the local cluster: if it does not
    come to a creation, as when it is only to validate, no container has changed.  Otherwise
    let the cluster be the one of the options that were read.  The containers of all others
    are those there were before, if no image of its configuration looks like a flag; and of
    its own there is none left or exactly those there were before; except that its kubeconfig
    could not be exported, or that provisioning has failed, when functions may still run
    ([Racing] says what they may leave).  (A command that panics is left out.) *)
Theorem runE_leaves_no_containers flags (w w' : W) res :
  fl_Retain flags = false → fl_MoveManagement flags = false → fl_AvoidCreation flags = false →
  runE NoopLogger logger b flags w = (res, w') → is_Panic res = false →
  (fl_ValidateOnly flags = true → given_options NoopLogger logger b flags w = None) ∧
  match given_options NoopLogger logger b flags w with
  | None => boxes w' = boxes w
  | Some opts =>
      let cfg := fixupOptions b opts in
      let name := kc_Name cfg in
      (images_ok cfg → ∀ c, c ≠ name → nodes_in (program r) c w' = nodes_in (program r) c w) ∧
      (nodes_in (program r) name w' = [] ∨ nodes_in (program r) name w' = nodes_in (program r) name w ∨
       ∃ e, res = Err ("failed to create cluster: " +:+ e) ∧
         ((∃ w1, kubeconfig_ExportTo r name (fl_Kubeconfig flags) true w1 = (Err e, w')) ∨
          (∃ w1 w2, @Provision W (runtime_env r) cfg (opt_DockerRegUrl opts) (opt_UseLocalStratioImage opts)
             (opt_BuildStratioImage opts) w1 = (Err e, w2))))
  end.
Proof.
  intros Hre Hmo Hav E Hp. unfold given_options. unfold runE, mbind, st_bind in E.
  destruct (settings NoopLogger logger b flags w) as [o w1] eqn:Es. apply settings_run in Es as [B Ho].
  destruct o as [[[[q base] options]|]|e|x]; [|by injection E as <- <-..].
  destruct (Ho q base options eq_refl) as (-> & -> & Hs & f & Hf & ->). split; [done|]. clear Ho.
  unfold st_wrap, api_Create, mbind, st_bind in E. destruct (apply_options _ base w1) as [oo w2] eqn:Eo.
  apply create_options_run in Eo as [-> Ho]; [|done]. destruct oo as [opts|e|x]; [|by injection E as <- <-..].
  destruct (Ho opts eq_refl) as (Hret & Hstop & Hk). rewrite Hav, Hmo, Hre in Hret. rewrite Hs in Hstop.
  destruct (create_Cluster b opts w1) as [res1 w3] eqn:Ec. injection E as <- <-.
  rewrite (runtime_env_cluster r) in Ec |- *.
  pose proof (api_steps_laws r) as Hlaws. pose proof (api_provider_up r _ Hvol) as Hup.
  assert (∀ c', nodes_in (program r) c' w1 = nodes_in (program r) c' w) as Hw by (intros; unfold nodes_in; by rewrite B).
  cbv zeta. split.
  - intros Hi c Hc. rewrite <-Hw. exact (create_others (program r) b opts w1 w3 res1 Hi Ec c Hc).
  - rewrite <-Hw. destruct (create_cleans (program r) b opts w1 w3 res1 Hret Hstop Ec) as [E'|[E'|[(e & w2 & -> & E')|(e & w2 & w4 & -> & E')]]];
      [by destruct res1|auto..| |].
    + right; right. exists e. split; [done|]. left. rewrite Hk in E'. by exists w2.
    + right; right. exists e. split; [done|]. right. by exists w2, w4.
Qed.
End containers.

(** ** On a small machine *)

Module DemoCommand.
Import DemoApi.
#[local] Existing Instances demo_docker_libs Network.demo_libs demo_host DemoReflect.lib ValidateAWS.DemoCidr.cidr DemoGcp.sdk Aws.Demo.sdk
  Execution.Run.azure Execution.Run.clouds Execution.Run.texts.
Section demo.
Context (registry : DockerRegistry).
Definition spec : KeosSpec := DemoReflect.spec "azure" (ks_Credentials DemoReflect.azure) [registry].
#[export] Instance lib : DescriptorLib := {|
  Unmarshal_Resource := @Unmarshal_Resource DemoLib.lib;
  Unmarshal_KeosCluster := λ m k, Ok (mkKeosCluster "v1" "KeosCluster" (mkMetadata "demo" "" ∅ ∅) spec);
  Unmarshal_ClusterConfig := λ m k, Ok (mkClusterConfig "v1" "ClusterConfig" (mkMetadata "config" "" ∅ ∅) (cc_Spec k));
  Struct_Resource _ := None; Struct_KeosCluster _ := None; Struct_ClusterConfig _ := None
|}.
#[export] Instance vault : VaultLib := {| vault_DecryptFile := λ _ _, Err "no file"; Unmarshal_SecretsFile := λ _, Err "yaml" |}.
#[export] Instance terminal : Terminal machine := {|
  ReadPassword := mret "vault"; ReadStdin := mret "";
  stat_ok := λ p _, p =s clusterDefaultPath; stat_not_exist := λ _ _, false;
  os_CreateTemp := λ _ p, mret ("/tmp/" +:+ p +:+ "1"); WriteString := λ _ _, mret tt
|}.
#[export] Instance terminal_laws : TerminalLaws machine "docker".
Proof. split; by intros. Defined.
#[export] Instance read_files : ReadFiles machine := {| os_ReadFile := λ _ _, Ok DemoLib.raw |}.
#[export] Instance kind_yaml : KindYaml := {|
  kind_meta := λ _, Ok (v1alpha4.mkTypeMeta "Cluster" "kind.x-k8s.io/v1alpha4");
  kind_strict := λ _, Ok (v1alpha4.mkCluster (v1alpha4.mkTypeMeta "Cluster" "kind.x-k8s.io/v1alpha4") "demo" []
    (v1alpha4.mkNetworking "" 0 "" "" "" true "") ∅ ∅ [] [] [] [])
|}.
#[export] Instance actions : Actions (W:=machine) := {|
  action_Execute := λ _ _ _, mret tt;
  assign_Capx_opts := λ v, modify (λ m, mkMachine (mc_boxes m) (mc_volumes m) (mc_info m) v (mc_good m))
|}.
#[export] Instance api_laws : ApiLaws machine DockerRuntime.
Proof. split; [by intros|by intros name path w r w' [= <- <-]|by eexists|by intros]. Defined.
Definition flags : flagpole := mkFlagpole "" "" "" false 0 "" "secret" "" false false false false false false.
Definition run (flags : flagpole) : st machine unit := runE "none" "stderr" demo_build flags.
End demo.
(** The registry needs credentials and there are none. *)
Definition unknown (url : string) : DockerRegistry := mkDockerRegistry true "generic" url true true.
Definition outcome (url : string) : res unit * list string * list string :=
  let '(r, w) := run (unknown url) flags DemoProvider.busy in
  (r, bx_name <$> mc_boxes w, [CAPI_Version (mc_capx w)]).
End DemoCommand.

(** An error of the validation is passed over when its text holds the words that are looked
    for, wherever they come from: a cluster is made from a descriptor that was refused, and
    without credentials. *)
Example validation_passed_over :
  DemoCommand.outcome "registry.local/x" =
    (Err "failed to validate cluster: there aren't valid credentials for the registry: registry.local/x", ["prod-control-plane"], [""]) ∧
  DemoCommand.outcome "registry.local/RoleARN in not set" = (Ok tt, ["prod-control-plane"], ["v1.13.6"]).
Proof. vm_compute. done. Qed.

(** A quote in a password ends the string of the configuration. *)
Example password_not_escaped :
  Contains (privateconfig (mkRegistryParams "r.io/keos" "u" (js "a`b"))) (js "password = `a`b`") = true.
Proof. vm_compute. reflexivity. Qed.

Lemma runE_leaves_no_containers_witness :
  let url := "registry.local/RoleARN in not set" in
  let nodes c (w : machine) := @nodes_in machine DemoApi.exec "docker" DemoApi.laws c w in
  let w' := snd (DemoCommand.run (DemoCommand.unknown url) DemoCommand.flags DemoProvider.busy) in
  (∀ c, c ≠ "demo" → nodes c w' = nodes c DemoProvider.busy) ∧
  (nodes "demo" w' = [] ∨ nodes "demo" w' = nodes "demo" DemoProvider.busy).
Proof.
  intros url nodes w'.
  assert (DemoCommand.run (DemoCommand.unknown url) DemoCommand.flags DemoProvider.busy = (Ok tt, w')) as E.
  { assert (fst (DemoCommand.run (DemoCommand.unknown url) DemoCommand.flags DemoProvider.busy) = Ok tt) as <- by (vm_compute; reflexivity).
    apply surjective_pairing. }
  assert (DockerRuntime = PodmanRuntime → @VolumesUp machine DemoApi.exec) as Hvol by done.
  unshelve epose proof (@runE_leaves_no_containers (DemoCommand.lib (DemoCommand.unknown url)) _ _ _ _ _ _ _ _ machine DemoApi.exec _ _ _ _ _ _ _ _
    DemoApi.yaml _ _ DemoApi.files _ _ DockerRuntime DemoApi.laws DemoCommand.terminal_laws DemoApi.other DemoCommand.api_laws DemoApi.up Hvol
    string "none" "stderr" demo_build _ DemoCommand.flags DemoProvider.busy w' (Ok tt) eq_refl eq_refl eq_refl E eq_refl) as [_ H].
  { intros w q v Eq. by apply (f_equal fst), Ok_inj in Eq as <-. }
  match type of H with match ?g with _ => _ end => set (given := g) in H end.
  assert (match given with
          | Some opts => kc_Name (fixupOptions demo_build opts) = "demo" ∧
              forallb (λ n, negb (HasPrefix (no_Image n) "-")) (kc_Nodes (fixupOptions demo_build opts)) = true
          | None => False end) as Hg by (vm_compute; split; reflexivity).
  clearbody given. destruct given as [opts|]; [|destruct Hg]. cbv zeta in H. destruct Hg as [Hn Hi], H as [Ho Hl]. rewrite Hn in Ho, Hl.
  split; [|destruct Hl as [Hl|[Hl|(e & [=] & _)]]; [by left|by right]].
  apply Ho. apply Forall_forall. intros n Hin%list_elem_of_In. rewrite forallb_forall in Hi. by apply negb_true_iff, Hi.
Defined.
