(* ===== verification/Spinner.v ===== *)
(** * The spinner of the command line: [pkg/internal/cli/spinner.go]

    A goroutine that writes frames, a mutex, and two channels to stop it.  What a goroutine
    does while it holds the mutex is one step where it cannot block, and several where it
    sends on a channel.  [exec] does the step that is chosen; a run is a sequence of
    choices.  Shown, for one goroutine that starts and stops the spinner while any number of
    others write through it: no frame is written after [Stop] has returned, and nobody waits
    for ever.  With two that stop it this fails: see the examples. *)

From S2P Require Import Prelude GoStr.
Local Open Scope Z_scope.
Local Open Scope go_scope.
Local Open Scope stdpp_scope.

Definition spinnerFrames : list string :=
  ["⠈⠁"; "⠈⠑"; "⠈⠱"; "⠈⡱"; "⢀⡱"; "⢄⡱"; "⢄⡱"; "⢆⡱"; "⢎⡱"; "⢎⡰"; "⢎⡠"; "⢎⡀"; "⢎⠁"; "⠎⠁"; "⠊⠁"].

Definition chr_ (n : nat) : string := String (Ascii.ascii_of_nat n) "".
Definition esc : string := chr_ 27.
Definition cr : string := chr_ 13.
Definition frame_text (windows : bool) (prefix frame suffix : string) : string :=
  if windows then cr +:+ prefix +:+ frame +:+ suffix
  else esc +:+ "[?7l" +:+ cr +:+ prefix +:+ frame +:+ suffix +:+ esc +:+ "[?7h".

(** ** State *)

(** The fields that are shared: is the mutex held, how many signals are in the channel
    [stop] (it holds one), and what was written. *)
Record spinner := mkSpinner {
  sp_mu : bool;
  sp_running : bool;
  sp_stop : nat;
  sp_prefix : string;
  sp_suffix : string;
  sp_out : list string
}.
(** [NewSpinner]. *)
Definition NewSpinner : spinner := mkSpinner false false 0 "" "" [].

(** Where a goroutine that writes frames is: before its [select]; a tick was received, or
    the signal to stop; about to send on [stopped], with the mutex; about to release it. *)
Inductive go := Select (frame : nat) | Ticking (frame : nat) | Stopping | Signalling | Leaving.

Inductive call := SetPrefix (s : string) | SetSuffix (s : string) | Start | Stop | Write (p : string).
(** Where a goroutine that calls is: between two calls; in [Stop], about to send on [stop]
    with the mutex, or waiting to receive from [stopped]. *)
Inductive at_ := Ready | Sending | Waiting.
Record client := mkClient { cl_calls : list call; cl_at : at_ }.

Record sys := mkSys { sy_sp : spinner; sy_gos : list go; sy_clients : list client }.

#[global] Instance go_eq_dec : EqDecision go.
Proof. solve_decision. Defined.
#[global] Instance call_eq_dec : EqDecision call.
Proof. solve_decision. Defined.
#[global] Instance at_eq_dec : EqDecision at_.
Proof. solve_decision. Defined.

(** ** What is done under the mutex *)

Section spinner.
Context (windows : bool) (accepts : list string → string → bool).

Definition with_mu (b : bool) (s : spinner) : spinner :=
  mkSpinner b (sp_running s) (sp_stop s) (sp_prefix s) (sp_suffix s) (sp_out s).
Definition with_running (b : bool) (s : spinner) : spinner :=
  mkSpinner (sp_mu s) b (sp_stop s) (sp_prefix s) (sp_suffix s) (sp_out s).
Definition with_stop (n : nat) (s : spinner) : spinner :=
  mkSpinner (sp_mu s) (sp_running s) n (sp_prefix s) (sp_suffix s) (sp_out s).

(** A write that the inner writer may refuse. *)
Definition put (p : string) (s : spinner) : bool * spinner :=
  if accepts (sp_out s) p
  then (true, mkSpinner (sp_mu s) (sp_running s) (sp_stop s) (sp_prefix s) (sp_suffix s) (sp_out s ++ [p]))
  else (false, s).
Definition spinner_Write (p : string) (s : spinner) : bool * spinner :=
  if sp_running s then let '(ok, s) := put cr s in if ok then put p s else (false, s) else put p s.
Definition write_frame (frame : nat) (s : spinner) : spinner :=
  snd (put (frame_text windows (sp_prefix s) (default "" (spinnerFrames !! frame)) (sp_suffix s)) s).

(** A call, up to where it can block: the spinner, the goroutines that are started, and
    whether the call has returned. *)
Definition enter (c : call) (s : spinner) : spinner * list go * bool :=
  match c with
  | SetPrefix p => (mkSpinner (sp_mu s) (sp_running s) (sp_stop s) p (sp_suffix s) (sp_out s), [], true)
  | SetSuffix p => (mkSpinner (sp_mu s) (sp_running s) (sp_stop s) (sp_prefix s) p (sp_out s), [], true)
  | Start => if sp_running s then (s, [], true) else (with_running true s, [Select 0], true)
  | Stop => if sp_running s then (with_mu true s, [], false) else (s, [], true)
  | Write p => (snd (spinner_Write p s), [], true)
  end.

(** ** Steps *)

(** Who goes on: a client, with its next call or in the middle of [Stop]; a goroutine, to
    whom a tick has come, or which goes on by itself; or two of them, that meet on
    [stopped]. *)
Inductive choice := Call (i : nat) | Send (i : nat) | Tick (j : nat) | Go (j : nat) | Meet (j i : nat).

(** What is seen of a step. *)
Inductive event := Returned (c : call) | Frame.

Definition next_frame (frame : nat) : nat := if Nat.eqb (S frame) (length spinnerFrames) then 0 else S frame.

Definition exec (ch : choice) (s : sys) : option (list event * sys) :=
  let '(mkSys sp gos cls) := s in
  match ch with
  | Call i =>
      match cls !! i with
      | Some (mkClient (c :: cs) Ready) =>
          if sp_mu sp then None else
          let '(sp, new, returned) := enter c sp in
          Some (if returned then [Returned c] else [],
                mkSys sp (gos ++ new) (<[i := if returned then mkClient cs Ready else mkClient (c :: cs) Sending]> cls))
      | _ => None
      end
  | Send i =>
      match cls !! i with
      | Some (mkClient cs Sending) =>
          if Nat.ltb (sp_stop sp) 1
          then Some ([], mkSys (with_mu false (with_stop (S (sp_stop sp)) sp)) gos (<[i := mkClient cs Waiting]> cls))
          else None
      | _ => None
      end
  | Tick j =>
      match gos !! j with
      | Some (Select frame) => Some ([], mkSys sp (<[j := Ticking frame]> gos) cls)
      | _ => None
      end
  | Go j =>
      match gos !! j with
      | Some (Select _) =>
          if Nat.ltb 0 (sp_stop sp) then Some ([], mkSys (with_stop (sp_stop sp - 1) sp) (<[j := Stopping]> gos) cls) else None
      | Some (Ticking frame) =>
          if sp_mu sp then None
          else Some ([Frame], mkSys (write_frame frame sp) (<[j := Select (next_frame frame)]> gos) cls)
      | Some Stopping =>
          if sp_mu sp then None else Some ([], mkSys (with_mu true (with_running false sp)) (<[j := Signalling]> gos) cls)
      | Some Leaving => Some ([], mkSys (with_mu false sp) (take j gos ++ drop (S j) gos) cls)
      | _ => None
      end
  | Meet j i =>
      match gos !! j, cls !! i with
      | Some Signalling, Some (mkClient (c :: cs) Waiting) =>
          Some ([Returned c], mkSys sp (<[j := Leaving]> gos) (<[i := mkClient cs Ready]> cls))
      | _, _ => None
      end
  end.

(** A run, with what is seen of it, and how many ticks came. *)
Fixpoint run (chs : list choice) (s : sys) : option (list event * sys) :=
  match chs with
  | [] => Some ([], s)
  | ch :: chs => '(e, s) ← exec ch s; '(es, s) ← run chs s; Some (e ++ es, s)
  end.
Definition is_tick (ch : choice) : bool := match ch with Tick _ => true | _ => false end.
Definition ticks (chs : list choice) : nat := length (List.filter is_tick chs).
End spinner.

(** ** One goroutine starts and stops the spinner *)

Definition controls (c : call) : bool := match c with Start | Stop => true | _ => false end.
(** A client that only writes. *)
Definition plain (c : client) : Prop := cl_at c = Ready ∧ Forall (λ c, controls c = false) (cl_calls c).
Definition spinning (g : go) : Prop := match g with Select _ | Ticking _ => True | _ => False end.

(** What the spinner and the goroutines can be, with where the one that controls them is;
    [on] is whether frames are expected. *)
Inductive phase : bool → bool → bool → nat → list go → client → Prop :=
| P_off cs : phase false false false 0 [] (mkClient cs Ready)
| P_leaving cs : phase false true false 0 [Leaving] (mkClient cs Ready)
| P_on g cs : spinning g → phase true false true 0 [g] (mkClient cs Ready)
| P_sending g cs : spinning g → phase true true true 0 [g] (mkClient (Stop :: cs) Sending)
| P_sent g cs : spinning g → phase true false true 1 [g] (mkClient (Stop :: cs) Waiting)
| P_stopping cs : phase true false true 0 [Stopping] (mkClient (Stop :: cs) Waiting)
| P_signalling cs : phase true true false 0 [Signalling] (mkClient (Stop :: cs) Waiting).

Record inv (k : nat) (on : bool) (s : sys) : Prop := {
  inv_control : ∃ c, sy_clients s !! k = Some c ∧
    phase on (sp_mu (sy_sp s)) (sp_running (sy_sp s)) (sp_stop (sy_sp s)) (sy_gos s) c;
  inv_plain i c : sy_clients s !! i = Some c → i ≠ k → plain c
}.

(** Frames are only seen between a start and a stop. *)
Fixpoint watch (on : bool) (es : list event) : option bool :=
  match es with
  | [] => Some on
  | Returned Start :: es => watch true es
  | Returned Stop :: es => watch false es
  | Returned _ :: es => watch on es
  | Frame :: es => if on then watch on es else None
  end.
Lemma watch_app on es1 es2 : watch on (es1 ++ es2) = on ← watch on es1; watch on es2.
Proof. revert on. induction es1 as [|[[]|] es1 IH]; intros on; simpl; auto. by destruct on. Qed.

Section facts.
Context (windows : bool) (accepts : list string → string → bool).
Abbreviation exec_ := (exec windows accepts).
Abbreviation run := (run windows accepts).

Lemma put_fields p s : let s' := snd (put accepts p s) in
  sp_mu s' = sp_mu s ∧ sp_running s' = sp_running s ∧ sp_stop s' = sp_stop s.
Proof. unfold put. by destruct (accepts _ _). Qed.
Lemma Write_fields p s : let s' := snd (spinner_Write accepts p s) in
  sp_mu s' = sp_mu s ∧ sp_running s' = sp_running s ∧ sp_stop s' = sp_stop s.
Proof.
  unfold spinner_Write. destruct (sp_running s) eqn:E; [|by destruct (put_fields p s) as (-> & -> & ->)].
  destruct (put accepts cr s) as [ok s1] eqn:E1. pose proof (put_fields cr s) as (H1 & H2 & H3). rewrite E1 in *. cbn [snd] in *.
  destruct ok; [destruct (put_fields p s1) as (-> & -> & ->)|cbn [snd]]; split_and!; congruence.
Qed.

(** A call that does not control leaves the phase. *)
Lemma enter_plain c s s' new r : controls c = false → enter accepts c s = (s', new, r) →
  new = [] ∧ r = true ∧ sp_mu s' = sp_mu s ∧ sp_running s' = sp_running s ∧ sp_stop s' = sp_stop s.
Proof.
  destruct c; try done; intros _ E; injection E as <- <- <-; split_and!; try done; apply Write_fields.
Qed.
Lemma watch_plain on c : controls c = false → watch on [Returned c] = Some on.
Proof. by destruct c. Qed.

Lemma plain_insert (cls : list client) k i c : i ≠ k → plain c → (∀ j c', cls !! j = Some c' → j ≠ k → plain c') →
  ∀ j c', <[i:=c]> cls !! j = Some c' → j ≠ k → plain c'.
Proof. intros Hi Hc H j c' [(<- & <- & _)|[_ Hj]]%list_lookup_insert_Some Hne; [done|by eapply H]. Qed.
Lemma plain_insert_k (cls : list client) k c : (∀ j c', cls !! j = Some c' → j ≠ k → plain c') →
  ∀ j c', <[k:=c]> cls !! j = Some c' → j ≠ k → plain c'.
Proof. intros H j c' [(<- & _ & _)|[_ Hj]]%list_lookup_insert_Some Hne; [done|by eapply H]. Qed.

(** A call of the one that controls. *)
Lemma control_call k on s c cs es s' :
  inv k on s → sy_clients s !! k = Some (mkClient (c :: cs) Ready) → exec_ (Call k) s = Some (es, s') →
  ∃ on', watch on es = Some on' ∧ inv k on' s'.
Proof.
  intros [(c0 & Hc0 & Hp) Hpl] Hk E. destruct s as [sp gos cls]. cbn [sy_sp sy_gos sy_clients] in *.
  rewrite Hk in Hc0. injection Hc0 as <-. unfold Spinner.exec in E. rewrite Hk in E.
  destruct (sp_mu sp) eqn:Hmu; [done|]. destruct (controls c) eqn:Hcc.
  2: { destruct (enter accepts c sp) as [[sp' new] r] eqn:Een.
       apply enter_plain in Een as (-> & -> & H1 & H2 & H3); [|done]. injection E as <- <-. exists on.
       rewrite watch_plain by done. split; [done|]. split; cbn [sy_sp sy_gos sy_clients]; [|by apply plain_insert_k].
       exists (mkClient cs Ready). split; [by apply list_lookup_insert_eq, (lookup_lt_Some _ _ _ Hk)|].
       rewrite H1, H2, H3, Hmu, app_nil_r. inversion Hp; constructor; done. }
  assert (∀ c', <[k:=c']> cls !! k = Some c') as Hins
    by (intros; by apply list_lookup_insert_eq, (lookup_lt_Some _ _ _ Hk)).
  destruct c; [done|done| | |done]; cbn [enter] in E; destruct (sp_running sp) eqn:Hrun; injection E as <- <-; cbn [watch];
    (eexists; split; [done|]; split; cbn [sy_sp sy_gos sy_clients]; [|by apply plain_insert_k]);
    (eexists; split; [apply Hins|]); rewrite ?app_nil_r; inversion Hp; simplify_eq;
    cbn [sp_mu sp_running sp_stop with_running with_mu]; rewrite ?Hmu, ?Hrun;
    try match goal with H : _ = sp_stop sp |- _ => rewrite <- H end; by constructor.
Qed.

Lemma plain_call k on s i c cs es s' : i ≠ k →
  inv k on s → sy_clients s !! i = Some (mkClient (c :: cs) Ready) → exec_ (Call i) s = Some (es, s') →
  ∃ on', watch on es = Some on' ∧ inv k on' s'.
Proof.
  intros Hne [(c0 & Hc0 & Hp) Hpl] Hi E. destruct s as [sp gos cls]. cbn [sy_sp sy_gos sy_clients] in *.
  destruct (Hpl i _ Hi Hne) as [_ [Hc Hcs]%Forall_cons]. unfold Spinner.exec in E. rewrite Hi in E.
  destruct (sp_mu sp) eqn:Hmu; [done|]. destruct (enter accepts c sp) as [[sp' new] r] eqn:Een.
  apply enter_plain in Een as (-> & -> & H1 & H2 & H3); [|done]. injection E as <- <-. exists on.
  rewrite watch_plain by done. split; [done|]. split; cbn [sy_sp sy_gos sy_clients]; [|by apply plain_insert].
  exists c0. rewrite list_lookup_insert_ne, H1, H2, H3, Hmu, app_nil_r by done. by split.
Qed.

(** A client that is not between two calls is the one that controls. *)
Lemma busy_control k on s i c : inv k on s → sy_clients s !! i = Some c → cl_at c ≠ Ready → i = k.
Proof.
  intros [_ Hpl] Hi Hat. destruct (decide (i = k)) as [|Hne]; [done|]. by destruct (Hpl i c Hi Hne) as [? _].
Qed.
Lemma phase_goes on mu r n gos c : phase on mu r n gos c → ∀ j g, gos !! j = Some g → j = 0%nat ∧ gos = [g].
Proof. intros Hp j x Hx. inversion Hp; subst; by destruct j; simplify_eq/=. Qed.

Lemma write_frame_fields frame s : let s' := write_frame windows accepts frame s in
  sp_mu s' = sp_mu s ∧ sp_running s' = sp_running s ∧ sp_stop s' = sp_stop s.
Proof. apply put_fields. Qed.

Lemma go_inv k on j s es s' : inv k on s → exec_ (Go j) s = Some (es, s') → watch on es = Some on ∧ inv k on s'.
Proof.
  intros [(c & Hc & Hp) Hpl] E. destruct s as [sp gos cls]. cbn [sy_sp sy_gos sy_clients] in *.
  cbn [Spinner.exec] in E. destruct (gos !! j) as [g|] eqn:Hj; [|done].
  apply (phase_goes _ _ _ _ _ _ Hp) in Hj as [-> ->].
  assert (∀ es1 sp1 gos1, watch on es1 = Some on → phase on (sp_mu sp1) (sp_running sp1) (sp_stop sp1) gos1 c →
    Some (es1, mkSys sp1 gos1 cls) = Some (es, s') → watch on es = Some on ∧ inv k on s') as Hdone.
  { intros es1 sp1 gos1 Hw Hp1 [= <- <-]. split; [done|]. split; [by exists c|done]. }
  destruct sp as [mu rn n pre suf out]. cbn [sp_mu sp_running sp_stop] in *.
  inversion Hp; subst; try (destruct g as [i|i| | |]; try done); cbn [sp_mu sp_stop Nat.ltb Nat.leb] in E; try done;
    (eapply Hdone; [| |exact E]; [done|]); cbn [sp_mu sp_running sp_stop with_mu with_running with_stop Nat.sub];
    try (match goal with |- context [write_frame _ _ ?f ?sp] => destruct (write_frame_fields f sp) as (-> & -> & ->) end);
    cbn [sp_mu sp_running sp_stop]; by constructor.
Qed.

Lemma step_inv k on ch s es s' : inv k on s → exec_ ch s = Some (es, s') → ∃ on', watch on es = Some on' ∧ inv k on' s'.
Proof.
  intros Hinv E. destruct ch as [i|i|j|j|j i].
  - destruct (sy_clients s !! i) as [[[|c cs] []]|] eqn:Hi; try by (destruct s as [sp gos cls]; simpl in *; rewrite Hi in E).
    destruct (decide (i = k)) as [->|Hne]; [by eapply control_call|by eapply plain_call].
  - destruct (sy_clients s !! i) as [[cs []]|] eqn:Hi; try by (destruct s as [sp gos cls]; simpl in *; rewrite Hi in E).
    assert (i = k) as -> by by eapply busy_control. destruct Hinv as [(c & Hc & Hp) Hpl].
    destruct s as [[mu rn n pre suf out] gos cls]. cbn [sy_sp sy_gos sy_clients sp_mu sp_running sp_stop] in *.
    rewrite Hc in Hi. injection Hi as ->. cbn [Spinner.exec] in E. rewrite Hc in E. inversion Hp; subst.
    injection E as <- <-. exists true. split; [done|]. split; [|by apply plain_insert_k].
    eexists. split; [by apply list_lookup_insert_eq, (lookup_lt_Some _ _ _ Hc)|]. by constructor.
  - destruct Hinv as [(c & Hc & Hp) Hpl]. destruct s as [sp gos cls]. cbn [sy_sp sy_gos sy_clients] in *.
    cbn [Spinner.exec] in E. destruct (gos !! j) as [[]|] eqn:Hj; try done. injection E as <- <-. exists on. split; [done|].
    split; [|done]. exists c. split; [done|]. apply (phase_goes _ _ _ _ _ _ Hp) in Hj as [-> ->]. cbn [sy_sp sy_gos].
    inversion Hp; simplify_eq; by constructor.
  - exists on. by eapply go_inv.
  - destruct (sy_clients s !! i) as [[[|c cs] []]|] eqn:Hi;
      try by (destruct s as [sp gos cls]; simpl in *; destruct (gos !! j) as [[]|]; rewrite ?Hi in E).
    assert (i = k) as -> by by eapply busy_control. destruct Hinv as [(c' & Hc & Hp) Hpl].
    destruct s as [[mu rn n pre suf out] gos cls]. cbn [sy_sp sy_gos sy_clients sp_mu sp_running sp_stop] in *.
    rewrite Hc in Hi. injection Hi as ->. cbn [Spinner.exec] in E. rewrite Hc in E.
    destruct (gos !! j) as [[]|] eqn:Hj; try done.
    apply (phase_goes _ _ _ _ _ _ Hp) in Hj as [-> ->]. inversion Hp; subst; try done.
    injection E as <- <-. exists false. split; [done|]. split; [|by apply plain_insert_k].
    eexists. split; [by apply list_lookup_insert_eq, (lookup_lt_Some _ _ _ Hc)|]. constructor.
Qed.

Lemma run_inv k on chs s es s' : inv k on s → run chs s = Some (es, s') → ∃ on', watch on es = Some on' ∧ inv k on' s'.
Proof.
  revert on s es. induction chs as [|ch chs IH]; intros on s es Hinv; [intros [= <- <-]; by exists on|]. cbn [Spinner.run].
  destruct (exec_ ch s) as [[e s1]|] eqn:E; [|done]. cbn. destruct (run chs s1) as [[es1 s2]|] eqn:E1; [|done].
  intros [= <- <-]. destruct (step_inv _ _ _ _ _ _ Hinv E) as (on1 & Hw & Hi1).
  destruct (IH _ _ _ Hi1 E1) as (on2 & Hw2 & Hi2). exists on2. split; [|done]. by rewrite watch_app, Hw.
Qed.

(** ** Nobody waits for ever *)

Definition at_cost (a : at_) : nat := match a with Ready => 2 | Sending => 1 | Waiting => 0 end.
Definition client_cost (c : client) : nat := 6 * length (cl_calls c) + at_cost (cl_at c).
Definition go_cost (g : go) : nat :=
  match g with Select _ => 4 | Ticking _ => 5 | Stopping => 3 | Signalling => 2 | Leaving => 1 end.
(** How many steps are left, when no tick comes. *)
Definition measure (s : sys) : nat := sum_list_with client_cost (sy_clients s) + sum_list_with go_cost (sy_gos s).

Lemma sum_insert {A} (f : A → nat) (l : list A) i x y : l !! i = Some x →
  (sum_list_with f (<[i:=y]> l) + f x = sum_list_with f l + f y)%nat.
Proof.
  revert i. induction l as [|z l IH]; intros [|i] Hi; simplify_eq/=; [lia|]. specialize (IH _ Hi). lia.
Qed.
Lemma sum_remove {A} (f : A → nat) (l : list A) i x : l !! i = Some x →
  (sum_list_with f (take i l ++ drop (S i) l) + f x = sum_list_with f l)%nat.
Proof.
  revert i. induction l as [|z l IH]; intros [|i] Hi; simplify_eq/=; [unfold drop; lia|]. specialize (IH _ Hi). lia.
Qed.
Lemma enter_cost c s s' new r : enter accepts c s = (s', new, r) →
  (sum_list_with go_cost new + (if r then 0 else 5) <= 5)%nat.
Proof. destruct c; cbn [enter]; try (destruct (sp_running s)); intros [= _ <- <-]; cbn; lia. Qed.

Lemma exec_measure ch s es s' : exec_ ch s = Some (es, s') →
  (measure s' + 1 <= measure s + (if is_tick ch then 2 else 0))%nat.
Proof.
  destruct s as [sp gos cls]. unfold measure. cbn [sy_clients sy_gos]. intros E. destruct ch as [i|i|j|j|j i]; cbn [Spinner.exec is_tick] in *.
  - destruct (cls !! i) as [[[|c cs] []]|] eqn:Hi; try done. destruct (sp_mu sp); [done|].
    destruct (enter accepts c sp) as [[sp' new] r] eqn:Een. apply enter_cost in Een. injection E as _ <-.
    cbn [sy_clients sy_gos]. rewrite sum_list_with_app. pose proof (sum_insert client_cost _ _ _
      (if r then mkClient cs Ready else mkClient (c :: cs) Sending) Hi) as Hs.
    unfold client_cost in Hs at 2 4. destruct r; cbn [cl_calls cl_at at_cost length] in Hs; lia.
  - destruct (cls !! i) as [[cs []]|] eqn:Hi; try done. destruct (Nat.ltb _ 1); [|done]. injection E as _ <-.
    cbn [sy_clients sy_gos]. pose proof (sum_insert client_cost _ _ _ (mkClient cs Waiting) Hi) as Hs.
    unfold client_cost in Hs at 2 4. cbn [cl_calls cl_at at_cost] in Hs. lia.
  - destruct (gos !! j) as [[]|] eqn:Hj; try done. injection E as _ <-. cbn [sy_clients sy_gos].
    pose proof (sum_insert go_cost _ _ _ (Ticking frame) Hj) as Hs. cbn [go_cost] in Hs. lia.
  - destruct (gos !! j) as [g|] eqn:Hj; [|done]. destruct g; try done.
    + destruct (Nat.ltb 0 _); [|done]. injection E as _ <-. cbn [sy_clients sy_gos].
      pose proof (sum_insert go_cost _ _ _ Stopping Hj) as Hs. cbn [go_cost] in Hs. lia.
    + destruct (sp_mu sp); [done|]. injection E as _ <-. cbn [sy_clients sy_gos].
      pose proof (sum_insert go_cost _ _ _ (Select (next_frame frame)) Hj) as Hs. cbn [go_cost] in Hs. lia.
    + destruct (sp_mu sp); [done|]. injection E as _ <-. cbn [sy_clients sy_gos].
      pose proof (sum_insert go_cost _ _ _ Signalling Hj) as Hs. cbn [go_cost] in Hs. lia.
    + injection E as _ <-. cbn [sy_clients sy_gos]. pose proof (sum_remove go_cost _ _ _ Hj) as Hs. cbn [go_cost] in Hs. lia.
  - destruct (gos !! j) as [[]|] eqn:Hj; try done. destruct (cls !! i) as [[[|c cs] []]|] eqn:Hi; try done.
    injection E as _ <-. cbn [sy_clients sy_gos]. pose proof (sum_insert client_cost _ _ _ (mkClient cs Ready) Hi) as Hs.
    unfold client_cost in Hs at 2 4. cbn [cl_calls cl_at at_cost length] in Hs.
    pose proof (sum_insert go_cost _ _ _ Leaving Hj) as Hs'. cbn [go_cost] in Hs'. lia.
Qed.

Lemma run_measure chs s es s' : run chs s = Some (es, s') → (length chs + measure s' <= measure s + 2 * ticks chs)%nat.
Proof.
  revert s es. induction chs as [|ch chs IH]; intros s es; [intros [= _ <-]; cbn; lia|]. cbn [Spinner.run].
  destruct (exec_ ch s) as [[e s1]|] eqn:E; [|done]. cbn. destruct (run chs s1) as [[es1 s2]|] eqn:E1; [|done].
  intros [= _ <-]. apply exec_measure in E. apply IH in E1. unfold ticks in *. cbn [List.filter].
  destruct (is_tick ch); cbn [length]; lia.
Qed.

Definition finished (s : sys) : Prop := Forall (λ c, cl_calls c = [] ∧ cl_at c = Ready) (sy_clients s).
(** Somebody can go on, and it is not for a tick. *)
Definition goes_on (s : sys) : Prop := ∃ ch es s', is_tick ch = false ∧ exec_ ch s = Some (es, s').

Lemma call_goes s i c cs : sp_mu (sy_sp s) = false → sy_clients s !! i = Some (mkClient (c :: cs) Ready) → goes_on s.
Proof.
  intros Hmu Hi. exists (Call i). destruct s as [sp gos cls]. cbn [Spinner.exec sy_sp sy_clients] in *. rewrite Hi, Hmu.
  destruct (enter accepts c sp) as [[sp' new] r]. by do 2 eexists.
Qed.
(** Nobody is in the middle of a call. *)
Lemma ready_goes k on s : inv k on s → sp_mu (sy_sp s) = false → (∀ c, sy_clients s !! k = Some c → cl_at c = Ready) →
  finished s ∨ goes_on s.
Proof.
  intros [Hc Hpl] Hmu Hk. destruct (decide (finished s)) as [|Hn]; [by left|right].
  unfold finished in Hn. apply not_Forall_Exists in Hn; [|intros c; apply _].
  apply Exists_exists in Hn as (c & [i Hi]%list_elem_of_lookup & Hn).
  assert (cl_at c = Ready) as Hat. { destruct (decide (i = k)) as [->|Hne]; [by apply Hk|]. by destruct (Hpl i c Hi Hne). }
  destruct c as [[|c cs] a]; simpl in *; subst; [by destruct Hn|]. by eapply call_goes.
Qed.

Lemma inv_goes k on s : inv k on s → finished s ∨ goes_on s.
Proof.
  intros Hinv. pose proof Hinv as [(c & Hc & Hp) Hpl].
  assert (∀ ch es s', is_tick ch = false → exec_ ch s = Some (es, s') → finished s ∨ goes_on s) as Hgo.
  { intros ch es s' ??. right. by exists ch, es, s'. }
  inversion Hp as [cs E1 E2 E3 E4 E5 E6|cs E1 E2 E3 E4 E5 E6|g cs Hg E1 E2 E3 E4 E5 E6|g cs Hg E1 E2 E3 E4 E5 E6
    |g cs Hg E1 E2 E3 E4 E5 E6|cs E1 E2 E3 E4 E5 E6|cs E1 E2 E3 E4 E5 E6]; subst c.
  1,3: apply (ready_goes k on); [done..|]; rewrite Hc; by intros c' [= <-].
  all: destruct s as [sp gos cls]; cbn [sy_sp sy_gos sy_clients] in *; subst gos.
  - by eapply (Hgo (Go 0)).
  - eapply (Hgo (Send k)); [done|]. cbn [Spinner.exec]. by rewrite Hc, <- E4.
  - destruct g; try done; (eapply (Hgo (Go 0)); [done|]); cbn; by rewrite <- ?E2, <- ?E4.
  - eapply (Hgo (Go 0)); [done|]. cbn. by rewrite <- E2.
  - eapply (Hgo (Meet 0 k)); [done|]. cbn [Spinner.exec]. cbn. by rewrite Hc.
Qed.

(** The spinner is new and nobody calls; only the goroutine [k] will start and stop it. *)
Definition fresh (k : nat) (cls : list client) : Prop :=
  (∃ cs, cls !! k = Some (mkClient cs Ready)) ∧ ∀ i c, cls !! i = Some c → i ≠ k → plain c.
Lemma fresh_inv k cls : fresh k cls → inv k false (mkSys NewSpinner [] cls).
Proof. intros [[cs Hk] Hpl]. split; [|done]. exists (mkClient cs Ready). split; [done|constructor]. Qed.

(** When one goroutine starts and stops the spinner and any others write through it,
    then in every order of their steps: frames are only written between a start and the
    return of the next stop, and there is one goroutine that writes them at most. *)
Theorem frames_between k cls chs es s' :
  fresh k cls → run chs (mkSys NewSpinner [] cls) = Some (es, s') →
  is_Some (watch false es) ∧ (length (sy_gos s') <= 1)%nat.
Proof.
  intros Hf E. destruct (run_inv k false _ _ _ _ (fresh_inv _ _ Hf) E) as (on & Hw & [(c & _ & Hp) _]).
  split; [by exists on|]. inversion Hp; simpl; lia.
Qed.

(** C9. Nor does anybody wait for ever: whatever has happened, either all the calls have
    returned or somebody can go on without a tick; and the steps that are made are bounded
    by the calls that there are and the ticks that come. *)
Theorem spinner_no_deadlock k cls chs es s' :
  fresh k cls → run chs (mkSys NewSpinner [] cls) = Some (es, s') →
  (finished s' ∨ goes_on s') ∧
  (length chs <= 6 * sum_list_with (λ c, length (cl_calls c)) cls + 2 * length cls + 2 * ticks chs)%nat.
Proof.
  intros Hf E. split.
  - destruct (run_inv k false _ _ _ _ (fresh_inv _ _ Hf) E) as (on & _ & Hi). by apply (inv_goes k on).
  - apply run_measure in E. unfold measure in E. cbn [sy_clients sy_gos sum_list_with] in E.
    assert (∀ l : list client, sum_list_with client_cost l <= 6 * sum_list_with (λ c, length (cl_calls c)) l + 2 * length l)%nat as Hl.
    { induction l as [|[cs []] l IH]; unfold client_cost in *; cbn [sum_list_with cl_calls cl_at at_cost length] in *; lia. }
    specialize (Hl cls). lia.
Qed.
End facts.

(** ** Runs *)

Module DemoSpinner.
Definition accepts (_ : list string) (_ : string) : bool := true.
Definition runs (cls : list client) (chs : list choice) : option (list event * sys) :=
  run false accepts chs (mkSys NewSpinner [] cls).
Definition one : list client := [mkClient [SetSuffix " x "; Start; Stop] Ready; mkClient [Write "hello"] Ready].
(** A tick comes; while the frame waits for the mutex another goroutine writes. *)
Definition order : list choice :=
  [Call 0; Call 0; Tick 0; Call 1; Go 0; Call 0; Send 0; Go 0; Go 0; Meet 0 0; Go 0]%nat.
(** Two stop the spinner. *)
Definition two : list client := [mkClient [Start; Stop] Ready; mkClient [Stop] Ready].
Definition three : list client := mkClient [Stop; Write "x"] Ready :: two.
End DemoSpinner.

Example spinner_runs :
  (λ p, (fst p, sp_out (sy_sp (snd p)), sy_gos (snd p), sy_clients (snd p))) <$> DemoSpinner.runs DemoSpinner.one DemoSpinner.order =
  Some ([Returned (SetSuffix " x "); Returned Start; Returned (Write "hello"); Frame; Returned Stop],
        [cr; "hello"; esc +:+ "[?7l" +:+ cr +:+ "⠈⠁ x " +:+ esc +:+ "[?7h"], [], [mkClient [] Ready; mkClient [] Ready]).
Proof. vm_compute. reflexivity. Qed.

Lemma frames_between_witness :
  ∃ es s', DemoSpinner.runs DemoSpinner.one DemoSpinner.order = Some (es, s') ∧ (length (sy_gos s') <= 1)%nat.
Proof.
  destruct (DemoSpinner.runs DemoSpinner.one DemoSpinner.order) as [[es s']|] eqn:E; [|exfalso; by vm_compute in E].
  exists es, s'. split; [done|]. refine (proj2 (frames_between false DemoSpinner.accepts 0 DemoSpinner.one _ _ _ _ E)).
  split; [by eexists|]. intros [|[|i]] c Hi Hne; simplify_eq/=. repeat constructor.
Defined.

Lemma spinner_no_deadlock_witness :
  ∃ es s', DemoSpinner.runs DemoSpinner.one (take 7 DemoSpinner.order) = Some (es, s') ∧
    (finished s' ∨ goes_on false DemoSpinner.accepts s').
Proof.
  destruct (DemoSpinner.runs DemoSpinner.one (take 7 DemoSpinner.order)) as [[es s']|] eqn:E; [|exfalso; by vm_compute in E].
  exists es, s'. split; [done|]. refine (proj1 (spinner_no_deadlock false DemoSpinner.accepts 0 DemoSpinner.one _ _ _ _ E)).
  split; [by eexists|]. intros [|[|i]] c Hi Hne; simplify_eq/=. repeat constructor.
Defined.

(** Two goroutines stop the spinner: the second one has sent its signal when the first is
    taken, and then nobody answers it. *)
Definition stuck_waiting : option sys :=
  snd <$> DemoSpinner.runs DemoSpinner.two [Call 0; Call 0; Send 0; Go 0; Call 1; Send 1; Go 0; Meet 0 0; Go 0]%nat.
Example second_stop_hangs :
  stuck_waiting = Some (mkSys (mkSpinner false false 1 "" "" []) [] [mkClient [] Ready; mkClient [Stop] Waiting]) ∧
  ∀ s ch, stuck_waiting = Some s → exec false DemoSpinner.accepts ch s = None.
Proof.
  assert (stuck_waiting = Some (mkSys (mkSpinner false false 1 "" "" []) [] [mkClient [] Ready; mkClient [Stop] Waiting])) as E
    by (vm_compute; reflexivity).
  split; [exact E|]. rewrite E. intros s ch [= <-]. by destruct ch as [[|[|i]]|[|[|i]]|j|j|j [|[|i]]].
Qed.

(** The channel is still full, and the second one waits for it with the mutex, contrary to
    the comment, while a frame waits for the mutex: nobody can go on, nor can a third one. *)
Definition stuck_sending : option sys :=
  snd <$> DemoSpinner.runs DemoSpinner.three [Call 1; Tick 0; Call 1; Send 1; Call 0]%nat.
Example full_channel_deadlock :
  stuck_sending = Some (mkSys (mkSpinner true true 1 "" "" []) [Ticking 0]
    [mkClient [Stop; Write "x"] Sending; mkClient [Stop] Waiting; mkClient [Stop] Ready]) ∧
  ∀ s ch, stuck_sending = Some s → exec false DemoSpinner.accepts ch s = None.
Proof.
  assert (stuck_sending = Some (mkSys (mkSpinner true true 1 "" "" []) [Ticking 0]
    [mkClient [Stop; Write "x"] Sending; mkClient [Stop] Waiting; mkClient [Stop] Ready])) as E by (vm_compute; reflexivity).
  split; [exact E|]. rewrite E. intros s ch [= <-].
  by destruct ch as [[|[|[|i]]]|[|[|[|i]]]|[|[|j]]|[|[|j]]|[|[|j]] [|[|[|i]]]].
Qed.
