(* ===== verification/Cli.v ===== *)
(** * The logger and the status lines: [pkg/internal/cli], [pkg/internal/env], [pkg/cmd/logger.go]

    What the logger writes, with its pool of buffers, and the status lines, which drive the
    spinner of [Spinner].  Also the flags of the root command and the text of an error.
    Shown: every message that is enabled is written once, in order, on lines of its own,
    whatever buffers the pool hands out; and the status lines start and stop the spinner in
    turn. *)

From S2P Require Import Prelude GoStr Exec Spinner.
Local Open Scope Z_scope.
Local Open Scope go_scope.
Local Open Scope stdpp_scope.

Definition newline : string := String (Ascii.ascii_of_nat 10) "".

(** What a logger writes to: nothing, a file that is a terminal or not, or a spinner on a
    terminal. *)
Inductive writer := Discard | File (tty : bool) | Spinning.

(** ** Terminals *)

Section env.
Context (GOOS : string) (lookupEnv : string → option string).

Definition IsTerminal (w : writer) : bool := match w with File tty => tty | _ => false end.
Definition getenv (e : string) : string := default "" (lookupEnv e).
Definition isSmartTerminal (w : writer) : bool :=
  IsTerminal w &&
  negb (bool_decide (is_Some (lookupEnv "NO_COLOR"))) &&
  negb (getenv "TERM" =s "dumb") && negb (getenv "TERM" =s "st-256color") &&
  negb ((GOOS =s "windows") && (getenv "WT_SESSION" =s "")) &&
  negb ((getenv "HAS_JOSH_K_SEAL_OF_APPROVAL" =s "true") && (getenv "TRAVIS" =s "true")).

(** ** Logger *)

(** What is in the buffers of the pool, and what was written, where. *)
Record Logger := mkLogger {
  lg_writer : writer;
  lg_verbosity : Z;
  lg_isSmartWriter : bool;
  lg_pool : list string;
  lg_out : list (writer * string)
}.

Definition SetWriter (w : writer) (l : Logger) : Logger :=
  mkLogger w (lg_verbosity l) (match w with Spinning => true | _ => isSmartTerminal w end) (lg_pool l) (lg_out l).
Definition SetVerbosity (verbosity : Z) (l : Logger) : Logger :=
  mkLogger (lg_writer l) verbosity (lg_isSmartWriter l) (lg_pool l) (lg_out l).
Definition cli_NewLogger (w : writer) (verbosity : Z) : Logger := SetWriter w (mkLogger Discard verbosity false [] []).
Definition ColorEnabled (l : Logger) : bool := lg_isSmartWriter l.
(** [cmd.NewLogger]: to the standard error. *)
Definition cmd_NewLogger (stderr_tty : bool) : Logger :=
  let writer := File stderr_tty in
  cli_NewLogger (if isSmartTerminal writer then Spinning else writer) 0.
End env.

Section logger.
(** [sync.Pool.Get]: one of the buffers that were put, or none of them. *)
Context (pick : list string → option (string * list string)).

Definition write (p : string) (l : Logger) : Logger :=
  mkLogger (lg_writer l) (lg_verbosity l) (lg_isSmartWriter l) (lg_pool l) (lg_out l ++ [(lg_writer l, p)]).
Definition with_newline (buf : string) : string := if HasSuffix buf newline then buf else buf +:+ newline.
(** The buffer is changed, and its error is dropped. *)
Definition writeBuffer (buf : string) (l : Logger) : string * Logger := (with_newline buf, write (with_newline buf) l).

Definition set_pool (pool : list string) (l : Logger) : Logger :=
  mkLogger (lg_writer l) (lg_verbosity l) (lg_isSmartWriter l) pool (lg_out l).
Definition bufferPool_Get (l : Logger) : string * Logger :=
  match pick (lg_pool l) with Some (buf, pool) => (buf, set_pool pool l) | None => ("", l) end.
Definition bufferPool_Put (buf : string) (l : Logger) : Logger :=
  if Nat.ltb 256 (String.length buf) then l else set_pool ("" :: lg_pool l) l.

Definition print (message : string) (l : Logger) : Logger := snd (writeBuffer message l).
(** [text] is what [Fprintf] makes of the format and its arguments. *)
Definition printf (text : string) (l : Logger) : Logger :=
  let '(buf, l) := bufferPool_Get l in
  let '(buf, l) := writeBuffer (buf +:+ text) l in
  bufferPool_Put buf l.

(** [strings.LastIndex] of a byte. *)
Fixpoint LastIndexByte (s : string) (c : Ascii.ascii) : option nat :=
  match s with
  | "" => None
  | String d s =>
      match LastIndexByte s c with Some i => Some (S i) | None => if Ascii.eqb d c then Some 0%nat else None end
  end.
Definition from_index (i : nat) (s : string) : string := String.substring i (String.length s - i) s.
(** The file of the caller, with its directory, and the line. *)
Definition debug_file (file : string) : string :=
  match LastIndexByte file "/" with
  | Some slash =>
      match LastIndexByte (String.substring 0 slash file) "/" with
      | Some dirsep => from_index (S dirsep) file
      | None => from_index (S slash) file
      end
  | None => file
  end.
Definition debug_header (caller : option (string * Z)) : string :=
  let '(file, line) := match caller with Some (file, line) => (debug_file file, line) | None => ("???", 1) end in
  "DEBUG: " +:+ file +:+ ":" +:+ Itoa line +:+ "] ".
Definition debug (caller : option (string * Z)) (text : string) (l : Logger) : Logger :=
  let '(buf, l) := bufferPool_Get l in
  let '(buf, l) := writeBuffer (buf +:+ debug_header caller +:+ text) l in
  bufferPool_Put buf l.

(** The calls of a program; the methods with a format and those without write the same. *)
Inductive entry :=
| Warn (message : string)
| Warnf (text : string)
| Error (message : string)
| Errorf (text : string)
| Info (level : Z) (caller : option (string * Z)) (message : string)
| Infof (level : Z) (caller : option (string * Z)) (text : string).

Definition Enabled (level : Z) (l : Logger) : bool := level <=? lg_verbosity l.
Definition log (e : entry) (l : Logger) : Logger :=
  match e with
  | Warn s | Error s => print s l
  | Warnf s | Errorf s => printf s l
  | Info level caller s => if negb (Enabled level l) then l else if 0 <? level then debug caller s l else print s l
  | Infof level caller s => if negb (Enabled level l) then l else if 0 <? level then debug caller s l else printf s l
  end.

(** ** What is written *)

(** A pool hands out what was put into it. *)
Context (pick_put : ∀ pool buf rest, pick pool = Some (buf, rest) → buf ∈ pool ∧ rest ⊆ pool).

Definition clean (l : Logger) : Prop := Forall (λ buf, buf = "") (lg_pool l).
Definition wrote (l l' : Logger) (text : string) : Prop :=
  lg_out l' = lg_out l ++ [(lg_writer l, with_newline text)] ∧ lg_writer l' = lg_writer l ∧
  lg_verbosity l' = lg_verbosity l ∧ clean l'.

Lemma Get_clean l : clean l → let '(buf, l') := bufferPool_Get l in
  buf = "" ∧ clean l' ∧ lg_out l' = lg_out l ∧ lg_writer l' = lg_writer l ∧ lg_verbosity l' = lg_verbosity l.
Proof.
  intros Hc. unfold bufferPool_Get. destruct (pick (lg_pool l)) as [[buf pool]|] eqn:E; [|done].
  apply pick_put in E as [Hb Hp]. unfold clean in *. rewrite Forall_forall in Hc. split; [by apply Hc|].
  split; [|done]. apply Forall_forall. intros x Hx. by apply Hc, Hp.
Qed.
Lemma Put_clean buf l : clean l → clean (bufferPool_Put buf l).
Proof. intros Hc. unfold bufferPool_Put. destruct (Nat.ltb _ _); [done|]. by constructor. Qed.
Lemma buffered text l : clean l →
  wrote l (let '(buf, l) := bufferPool_Get l in let '(buf, l) := writeBuffer (buf +:+ text) l in bufferPool_Put buf l) text.
Proof.
  intros Hc. pose proof (Get_clean l Hc) as Hg. destruct (bufferPool_Get l) as [buf l1].
  destruct Hg as (-> & Hc1 & Ho & Hw & Hv). unfold writeBuffer. cbn [String.append].
  split_and!; [..|by apply Put_clean]; unfold bufferPool_Put; destruct (Nat.ltb _ _);
    cbn [set_pool write lg_out lg_writer lg_verbosity]; congruence.
Qed.
Lemma print_wrote text l : clean l → wrote l (print text l) text.
Proof. by intros Hc. Qed.

(** The text of a message, if it is written at this verbosity. *)
Definition entry_text (verbosity : Z) (e : entry) : option string :=
  match e with
  | Warn s | Warnf s | Error s | Errorf s => Some s
  | Info level caller s | Infof level caller s =>
      if level <=? verbosity then Some (if 0 <? level then debug_header caller +:+ s else s) else None
  end.

Lemma log_wrote e l : clean l →
  match entry_text (lg_verbosity l) e with Some text => wrote l (log e l) text | None => log e l = l end.
Proof.
  intros Hc. destruct e as [s|s|s|s|level caller s|level caller s]; cbn [entry_text log];
    auto using print_wrote; try (by apply buffered); unfold Enabled; destruct (level <=? lg_verbosity l); cbn [negb]; try done;
    destruct (0 <? level); auto using print_wrote; by apply buffered.
Qed.

(** Whatever buffers the pool hands out, the messages that are enabled are written once
    each and in their order, each with a header if it is for debugging and with a newline at
    its end, and nothing of one message is in another. *)
Theorem log_lines es l : clean l →
  lg_out (fold_left (λ l e, log e l) es l) =
  lg_out l ++ map (λ text, (lg_writer l, with_newline text)) (omap (entry_text (lg_verbosity l)) es).
Proof.
  revert l. induction es as [|e es IH]; intros l Hc; [by rewrite app_nil_r|]. cbn [fold_left omap list_omap].
  pose proof (log_wrote e l Hc) as He. destruct (entry_text (lg_verbosity l) e) as [text|].
  - destruct He as (Ho & Hw & Hv & Hc'). rewrite IH by done. by rewrite Ho, Hw, Hv, <- app_assoc.
  - by rewrite He, IH.
Qed.
End logger.

(** ** Status lines *)

Record Status := mkStatus { st_spinner : bool; st_status : string }.
(** The format of the outcome, before and behind the status. *)
Definition success_format (spinner : bool) : string * string :=
  if spinner then (" " +:+ esc +:+ "[32m✓" +:+ esc +:+ "[0m ", newline) else (" ✓ ", newline).
Definition failure_format (spinner : bool) : string * string :=
  if spinner then (" " +:+ esc +:+ "[31m✗" +:+ esc +:+ "[0m ", newline) else (" ✗ ", newline).
Definition outcome_line (spinner success : bool) (status : string) : string :=
  let '(before, behind) := (if success then success_format else failure_format) spinner in before +:+ status +:+ behind.

(** What a status does: a call of the spinner, a write to the writer behind it, or a message
    at level 0. *)
Inductive effect := Spin (c : call) | Raw (p : string) | Log (text : string).

(** A logger that is not that of the command line has no spinner. *)
Definition StatusForLogger (l : option Logger) : Status :=
  mkStatus (match l with Some l => match lg_writer l with Spinning => true | _ => false end | None => false end) "".
Definition Status_End (success : bool) (s : Status) : Status * list effect :=
  if st_status s =s "" then (s, []) else
  (mkStatus (st_spinner s) "",
   (if st_spinner s then [Spin Stop; Raw cr] else []) ++ [Log (outcome_line (st_spinner s) success (st_status s))]).
Definition Status_Start (status : string) (s : Status) : Status * list effect :=
  let '(s, es) := Status_End true s in
  (mkStatus (st_spinner s) status,
   es ++ (if st_spinner s then [Spin (SetSuffix (" " +:+ status +:+ " ")); Spin Start]
          else [Log (" • " +:+ status +:+ "  ..." +:+ newline)])).

Inductive status_call := StatusStart (status : string) | StatusEnd (success : bool).
Definition status_do (c : status_call) : Status → Status * list effect :=
  match c with StatusStart status => Status_Start status | StatusEnd success => Status_End success end.
Fixpoint status_run (cs : list status_call) (s : Status) : Status * list effect :=
  match cs with
  | [] => (s, [])
  | c :: cs => let '(s, es) := status_do c s in let '(s, es') := status_run cs s in (s, es ++ es')
  end.

(** The spinner is started when it does not run and stopped when it runs; whether it runs in
    the end. *)
Fixpoint balanced (on : bool) (es : list effect) : option bool :=
  match es with
  | [] => Some on
  | Spin Start :: es => if on then None else balanced true es
  | Spin Stop :: es => if on then balanced false es else None
  | _ :: es => balanced on es
  end.
Lemma balanced_app on es1 es2 : balanced on (es1 ++ es2) = on ← balanced on es1; balanced on es2.
Proof. revert on. induction es1 as [|[[]| |] es1 IH]; intros [|]; simpl; auto. Qed.

(** The spinner runs while there is a status. *)
Definition status_on (s : Status) : bool := st_spinner s && (st_status s <>s "").
Lemma status_do_balanced c s : (∀ status, c = StatusStart status → status ≠ "") →
  let '(s', es) := status_do c s in st_spinner s' = st_spinner s ∧ balanced (status_on s) es = Some (status_on s').
Proof.
  intros Hc. destruct s as [sp status]. destruct c as [new|success]; cbn [status_do]; unfold Status_Start, Status_End, status_on.
  - specialize (Hc new eq_refl). apply String.eqb_neq in Hc. cbn [st_status st_spinner].
    destruct (status =s "") eqn:E; destruct sp; cbn [st_status st_spinner app balanced negb andb]; rewrite ?E, ?Hc; done.
  - cbn [st_status st_spinner]. destruct (status =s "") eqn:E; destruct sp; cbn [st_status st_spinner app balanced negb andb]; rewrite ?E; done.
Qed.

(** However a status is used, with statuses that are not empty, it starts the spinner only
    when it does not run and stops it only when it runs, as one goroutine must; and when the
    last status has ended the spinner does not run. *)
Lemma status_balanced cs l : Forall (λ c, ∀ status, c = StatusStart status → status ≠ "") cs →
  let '(s, es) := status_run cs (StatusForLogger l) in balanced false es = Some (status_on s).
Proof.
  intros Hcs. assert (∀ s, let '(s', es) := status_run cs s in balanced (status_on s) es = Some (status_on s')) as H.
  { induction Hcs as [|c cs Hc Hcs IH]; intros s; [done|]. cbn [status_run].
    pose proof (status_do_balanced c s Hc) as H. destruct (status_do c s) as [s1 es1]. destruct H as [_ H1].
    specialize (IH s1). destruct (status_run cs s1) as [s2 es2]. by rewrite balanced_app, H1. }
  specialize (H (StatusForLogger l)). destruct (status_run cs _) as [s es].
  unfold status_on at 1 in H. cbn [StatusForLogger st_spinner st_status String.eqb negb] in H. by rewrite andb_false_r in H.
Qed.

(** An empty status starts the spinner and nothing stops it. *)
Example empty_status_spins :
  status_run [StatusStart ""; StatusEnd true] (mkStatus true "") = (mkStatus true "", [Spin (SetSuffix "  "); Spin Start]).
Proof. reflexivity. Qed.

(** ** The root command *)

(** The name of the cluster, unless the flag was given. *)
Definition OverrideDefaultName (changed : bool) (KIND_CLUSTER_NAME name : string) : string :=
  if negb changed && (KIND_CLUSTER_NAME <>s "") then KIND_CLUSTER_NAME else name.

Definition max_int32 : Z := 2147483647.
(** The verbosity of the flags: [-v], or the level of [--loglevel] if only that was given. *)
Definition flags_verbosity (LogLevel : option string) (Verbosity : option Z) : Z :=
  match LogLevel, Verbosity with
  | Some level, None => if level =s "debug" then 3 else if level =s "trace" then max_int32 else 0
  | _, v => default 0 v
  end.
Section root.
Context (GOOS : string) (lookupEnv : string → option string) (pick : list string → option (string * list string)).
Definition root_runE (LogLevel : option string) (Verbosity : option Z) (Quiet : bool) (l : Logger) : Logger :=
  let l := if Quiet then SetWriter GOOS lookupEnv Discard l else l in
  let l := SetVerbosity (flags_verbosity LogLevel Verbosity) l in
  match LogLevel with
  | Some _ =>
      log pick (Warn (if ColorEnabled l
        then esc +:+ "[93mWARNING" +:+ esc +:+ "[0m: --loglevel is deprecated, please switch to -v and -q!"
        else "WARNING: --loglevel is deprecated, please switch to -v and -q!")) l
  | None => l
  end.

(** What is logged of an error: its text, the output of the command that failed, and at
    verbosity 1 its stack trace, if it has them. *)
Definition logError (err : string) (output trace : option string) (l : Logger) : Logger :=
  let head name := if ColorEnabled l then esc +:+ "[31m" +:+ name +:+ esc +:+ "[0m" else name in
  let part name := if ColorEnabled l then head name else newline +:+ name in
  let l := log pick (Errorf (head "ERROR" +:+ ": " +:+ err)) l in
  let l := match output with Some text => log pick (Errorf (part "Command Output" +:+ ": " +:+ text)) l | None => l end in
  if Enabled 1 l then match trace with Some text => log pick (Errorf (part "Stack Trace" +:+ ": " +:+ text)) l | None => l end
  else l.
End root.

(** ** Examples *)

Module DemoCli.
(** The pool hands out the buffer that was put last. *)
Definition pick (pool : list string) : option (string * list string) :=
  match pool with [] => None | buf :: pool => Some (buf, pool) end.
Lemma pick_put pool buf rest : pick pool = Some (buf, rest) → buf ∈ pool ∧ rest ⊆ pool.
Proof. destruct pool; intros [= <- <-]; set_solver. Defined.
Definition logger : Logger := cmd_NewLogger "linux" (λ _, None) true.
Definition caller : option (string * Z) := Some ("/go/src/kind/pkg/cluster/provider.go", 42).
Definition entries : list entry :=
  [Warnf "first"; Info 1 caller "hidden"; Info 0 caller ("second" +:+ newline); Infof 0 caller ""; Error "third"].
Definition loud : list entry := [Infof 3 caller "x"; Errorf "y"].
End DemoCli.

Lemma log_lines_witness :
  lg_out (fold_left (λ l e, log DemoCli.pick e l) DemoCli.entries DemoCli.logger) =
  [(Spinning, "first" +:+ newline); (Spinning, "second" +:+ newline); (Spinning, newline); (Spinning, "third" +:+ newline)].
Proof. rewrite (log_lines DemoCli.pick DemoCli.pick_put); [reflexivity|constructor]. Defined.

Example debug_lines :
  lg_out (fold_left (λ l e, log DemoCli.pick e l) DemoCli.loud (SetVerbosity 3 DemoCli.logger)) =
  [(Spinning, "DEBUG: cluster/provider.go:42] x" +:+ newline); (Spinning, "y" +:+ newline)].
Proof. vm_compute. reflexivity. Qed.

(** An error goes to the terminal with its command output; a quiet logger writes it nowhere. *)
Example error_logged :
  let out l := lg_out (logError DemoCli.pick "failed" (Some "no such image") (Some "trace") l) in
  out (cli_NewLogger "linux" (λ _, None) (File false) 0) =
    [(File false, "ERROR: failed" +:+ newline); (File false, newline +:+ "Command Output: no such image" +:+ newline)] ∧
  map fst (out (root_runE "linux" (λ _, None) DemoCli.pick None (Some 1) true DemoCli.logger)) = [Discard; Discard; Discard].
Proof. vm_compute. done. Qed.
