(* ===== verification/Load.v ===== *)
(** * Loading images into the nodes

    src/pkg/cmd/kind/load/{docker-image/docker-image.go,image-archive/image-archive.go}: which
    nodes lack an image, what is only tagged, and what is loaded, over the commands on nodes
    of [NodeCommands] and those on the host.  Shown: when the command succeeds, every node
    that was asked for has every image with the identifier of the host by its own answers, or
    was given the archive to which all of them were saved before. *)

From S2P Require Import DockerProvider PodmanProvider.
From S2P Require Import Prelude State Concurrent GoStr Exec NodeCommands Nodes Docker Network Create NodeProvider Runtime Images Api.
Local Open Scope Z_scope.
Local Open Scope go_scope.
Local Open Scope stdpp_scope.

(** ** Names *)

(** The keys that were seen, and the result. *)
Definition add_unseen (acc : list string * list string) (k : string) : list string * list string :=
  let '(seen, result) := acc in if str_in k seen then (seen, result) else (k :: seen, result ++ [k]).
Definition removeDuplicates (slice : list string) : list string := snd (fold_left add_unseen slice ([], [])).

Definition load_sanitizeImage (image : string) : string :=
  let name := if Contains image "/" then image else "library/" +:+ image in
  let name := match before_slash name with
              | Some h => if names_registry h then name else "docker.io/" +:+ name
              | None => "docker.io/" +:+ name
              end in
  if Contains name ":" then name else name +:+ ":latest".

(** ** Files *)

(** Files of the host that the commands use; a directory may be removed. *)
Class LoadFiles := {
  load_TempDir : string → string → st calls string;
  load_RemoveAll : string → st calls unit;
  load_Open : string → calls → res string;
  load_Stat : string → calls → res unit
}.

Record load_flags := mkLoadFlags { lf_Name : string; lf_Nodes : list string }.

(** The nodes that are named, which must be there; all of them if none is named. *)
Definition pick_nodes (quote : string → string) (nodeList selected : list string) : res (list string) :=
  match selected with
  | [] => Ok nodeList
  | _ => fold_right (λ name rest,
           if str_in name nodeList then rest ← rest; Ok (name :: rest) else Err ("unknown node: " +:+ quote name)) (Ok []) selected
  end.

Section load.
Context `{!NodeHost, !ImageLibs, !HostExec calls, !Schedule calls, !LoadFiles, !Host}.
Context {Logger : Type} (NoopLogger logger : Logger).

Definition imageID (containerNameOrID : string) : st calls string :=
  lines ← host_OutputLines ["docker"; "image"; "inspect"; "-f"; "{{ .Id }}"; containerNameOrID];
  pure (fail_when (negb (Nat.eqb (length lines) 1))
    ("Docker image ID should only be one line, got " +:+ Itoa (Z.of_nat (length lines)) +:+ " lines")) ;;
  pure (index lines 0).
(** The error of the inspection is not passed on. *)
Fixpoint imageIDs (imageNames : list string) : st calls (list string) :=
  match imageNames with
  | [] => mret []
  | imageName :: imageNames =>
      id ← try_ (imageID imageName);
      match id with
      | Ok id => ids ← imageIDs imageNames; mret (id :: ids)
      | _ => pure (Err ("image: " +:+ Q imageName +:+ " not present locally"))
      end
  end.

Definition save (images : list string) (dest : string) : st calls unit :=
  host_Run (["docker"; "save"; "-o"; dest] ++ images).
Definition loadImage (imageTarName node : string) : st calls unit :=
  image ← st_wrap "failed to open image" (λ w, (load_Open imageTarName w, w));
  LoadImageArchive node image.

(** Whether the image is there, whether it lacks the tag, and its full name, which is only
    given when it is there. *)
Definition checkIfImageReTagRequired (node imageID imageName : string) : st calls (bool * bool * string) :=
  tags ← try_ (ImageTags node imageID);
  mret match tags with
       | Ok tags =>
           if decide (tags = ∅) then (false, false, "") else
           let sanitizedImage := load_sanitizeImage imageName in
           (true, negb (bool_decide (sanitizedImage ∈ tags)), sanitizedImage)
       | _ => (false, false, "")
       end.

(** Whether the image must be loaded into the node. *)
Definition needs_load (imageID imageName node : string) : st calls bool :=
  '(exists_, reTagRequired, imageName) ← checkIfImageReTagRequired node imageID imageName;
  if exists_ && negb reTagRequired then mret false
  else if (reTagRequired : bool) then
    r ← try_ (ReTagImage node imageID imageName);
    mret (negb (is_Ok r))
  else
    id ← try_ (ImageID node imageName);
    mret match id with Ok id => id <>s imageID | _ => true end.

Fixpoint select_nodes (imageID imageName : string) (candidateNodes : list string) : st calls (list string) :=
  match candidateNodes with
  | [] => mret []
  | node :: candidateNodes =>
      load ← needs_load imageID imageName node;
      rest ← select_nodes imageID imageName candidateNodes;
      mret (if (load : bool) then node :: rest else rest)
  end.
(** A node is selected once for each image that it lacks. *)
Fixpoint select_all (images : list (string * string)) (candidateNodes : list string) : st calls (list string) :=
  match images with
  | [] => mret []
  | (imageName, imageID) :: images =>
      selected ← select_nodes imageID imageName candidateNodes;
      rest ← select_all images candidateNodes;
      mret (selected ++ rest)
  end.

(** The nodes that the command is for. *)
Definition candidates (quote : string → string) (r : runtime) (flags : load_flags) : st calls (list string) :=
  nodeList ← api_ListInternalNodes r (lf_Name flags);
  match nodeList with [] => pure (Err ("no nodes found for cluster " +:+ Q (lf_Name flags))) | _ => mret tt end ;;
  pure (pick_nodes quote nodeList (lf_Nodes flags)).

Definition docker_image_runE (flags : load_flags) (args : list string) : st calls unit :=
  r ← new_runtime NoopLogger logger;
  let imageNames := removeDuplicates args in
  ids ← imageIDs imageNames;
  candidateNodes ← candidates Q r flags;
  selectedNodes ← select_all (zip imageNames ids) candidateNodes;
  match selectedNodes with
  | [] => mret tt
  | _ =>
      dir ← st_wrap "failed to create tempdir" (load_TempDir "" "images-tar");
      let imagesTarPath := dir +:+ "/images.tar" in
      finally (save imageNames imagesTarPath ;; until_error (loadImage imagesTarPath <$> selectedNodes)) (load_RemoveAll dir)
  end.

Definition image_archive_runE (flags : load_flags) (imageTarPath : string) : st calls unit :=
  r ← new_runtime NoopLogger logger;
  (λ w, (load_Stat imageTarPath w, w)) ;;
  selectedNodes ← candidates id r flags;
  until_error (loadImage imageTarPath <$> selectedNodes).
End load.

(** ** What the nodes have *)

Section facts.
Context `{!NodeHost, !ImageLibs, !HostExec calls, !Schedule calls, !LoadFiles, !Host}.
Context {Logger : Type} (NoopLogger logger : Logger).

(** Commands on the host and temporary files do not undo what was logged. *)
Class LogGrows := {
  host_grows args stdin (w : calls) : ∃ l, snd (host args stdin w) = l ++ w;
  TempDir_grows dir prefix w : ∃ l, snd (load_TempDir dir prefix w) = l ++ w;
  RemoveAll_grows dir w : ∃ l, snd (load_RemoveAll dir w) = l ++ w
}.
Context `{!LogGrows}.

Definition extends : relation calls := λ w w', ∃ l, w' = l ++ w.
#[local] Instance extends_refl : Reflexive extends.
Proof. by exists []. Qed.
#[local] Instance extends_trans : Transitive extends.
Proof. intros w1 w2 w3 [l1 ->] [l2 ->]. exists (l2 ++ l1). by rewrite app_assoc. Qed.
#[local] Instance extends_effect : Effect extends extends.
Proof. split; try apply _; [done|]. intros w1 w2 w3 ??. by etrans. Qed.
Abbreviation grows m := (sat m extends extends).

(** A command that ran on a node and succeeded, with its output. *)
Definition answered (log : calls) (n : string) (args : list string) (stdin : option string) (out : string) : Prop :=
  ∃ pre, extends ((mkCall n args stdin, None) :: pre) log ∧ reply pre (mkCall n args stdin) = (out, None).
Lemma answered_later log log' n args stdin out : extends log log' → answered log n args stdin out → answered log' n args stdin out.
Proof. intros He (pre & Hp & Hr). exists pre. split; [by etrans|done]. Qed.

Lemma node_run_grows n args stdin : grows (node_run n args stdin).
Proof. apply sat_always. intros w r w'. unfold node_run. destruct (reply _ _) as [out err]. intros [= _ <-]. by eexists [_]. Qed.
Lemma node_run_answered n args stdin w out w' : node_run n args stdin w = (Ok out, w') → answered w' n args stdin out.
Proof.
  unfold node_run. destruct (reply w _) as [o [e|]] eqn:E; intros [= <- <-]. exists w. by split.
Qed.
Lemma node_do_grows n args stdin : grows (node_do n args stdin).
Proof. unfold node_do. sat_step; [apply node_run_grows|apply sat_ret]. Qed.
Lemma node_do_answered n args stdin w w' : node_do n args stdin w = (Ok tt, w') → ∃ out, answered w' n args stdin out.
Proof.
  unfold node_do. intros (out & w1 & E & [= <-])%st_bind_Ok. exists out. by eapply node_run_answered.
Qed.
Lemma node_do_exact n args stdin w w' : node_do n args stdin w = (Ok tt, w') →
  ∃ out, reply w (mkCall n args stdin) = (out, None) ∧ w' = (mkCall n args stdin, None) :: w.
Proof.
  unfold node_do, node_run. intros (out & w1 & E & [= <-])%st_bind_Ok.
  destruct (reply w _) as [o [e|]]; injection E as E1 E2; [done|]. by exists o.
Qed.
Lemma host_Run_grows args : grows (host_Run args).
Proof.
  unfold host_Run. sat_step; [|apply sat_ret]. apply sat_always. intros w r w'. unfold host_Output, host_Run_with.
  destruct (host_grows args None w) as [l Hl]. destruct (host _ _ _) as [o w1]. cbn [snd] in Hl. intros [= _ <-]. by exists l.
Qed.
Lemma LoadImageArchive_grows n image : grows (LoadImageArchive n image).
Proof. unfold LoadImageArchive, getSnapshotter. repeat (sat_step || apply node_run_grows || apply node_do_grows). Qed.
Lemma loadImage_grows tar n : grows (loadImage tar n).
Proof. unfold loadImage. sat_step; [|apply LoadImageArchive_grows]. intros w. unfold st_wrap. destruct (load_Open tar w); by exists []. Qed.
Lemma ImageTags_grows n id : grows (ImageTags n id).
Proof. unfold ImageTags. repeat (sat_step || apply node_run_grows). Qed.
Lemma check_grows n id name : grows (checkIfImageReTagRequired n id name).
Proof. unfold checkIfImageReTagRequired. sat_step; [apply sat_try_always, ImageTags_grows|apply sat_ret]. Qed.
Lemma needs_load_grows id name n : grows (needs_load id name n).
Proof.
  unfold needs_load. sat_step; [apply check_grows|]. repeat (sat_step || case_match);
    apply sat_try_always; [apply node_do_grows|unfold ImageID; repeat (sat_step || apply node_run_grows)].
Qed.

(** What the answers of a node say of an image: it is there with its full name; it was
    tagged with it; or it is what the empty name stands for, which is asked for when the
    image is not there. *)
Definition has_image (n id name : string) (log : calls) : Prop :=
  (∃ out tags, answered log n ["crictl"; "inspecti"; id] None out ∧ inspect_RepoTags out = Ok tags ∧ load_sanitizeImage name ∈ tags) ∨
  (∃ out, answered log n ["ctr"; "--namespace=k8s.io"; "images"; "tag"; "--force"; id; load_sanitizeImage name] None out) ∨
  (∃ out, answered log n ["crictl"; "inspecti"; ""] None out ∧ inspect_ID out = Ok id).
(** An archive of the host was opened and imported into the node, after something. *)
Definition imported_since (since : calls) (n tar : string) (log : calls) : Prop :=
  ∃ u image pre snapshotter out, extends since u ∧ load_Open tar u = Ok image ∧ extends u pre ∧
    let import := mkCall n ["ctr"; "--namespace=k8s.io"; "images"; "import"; "--all-platforms"; "--digests";
                            "--snapshotter=" +:+ snapshotter; "-"] (Some image) in
    reply pre import = (out, None) ∧ extends ((import, None) :: pre) log.
(** What docker says of an image of the host, and that it wrote images to an archive. *)
Definition has_id (name id : string) : Prop :=
  ∃ u o u', host ["docker"; "image"; "inspect"; "-f"; "{{ .Id }}"; name] None u = (o, u') ∧ oc_error o = None ∧
    scan_lines (oc_stdout o) = [id].
Definition saved (names : list string) (tar : string) (u' : calls) : Prop :=
  ∃ u o, host (["docker"; "save"; "-o"; tar] ++ names) None u = (o, u') ∧ oc_error o = None.

Lemma has_image_later n id name log log' : extends log log' → has_image n id name log → has_image n id name log'.
Proof. intros He. unfold has_image. pose proof (answered_later log log') as Ha. naive_solver. Qed.
Lemma imported_later since n tar log log' : extends log log' → imported_since since n tar log → imported_since since n tar log'.
Proof.
  intros He (u & image & pre & snap & out & Hu1 & Hu2 & Hu3 & Hu4 & Hu5). exists u, image, pre, snap, out. cbv zeta.
  split_and!; [done..|by etrans].
Qed.

Lemma try_Ok {W A} (m : st W A) w r w' : try_ m w = (Ok r, w') → m w = (r, w').
Proof. unfold try_. by destruct (m w) as [[]]; intros [= <- <-]. Qed.
Lemma ImageTags_answered n id w tags w' : ImageTags n id w = (Ok tags, w') →
  ∃ out l, answered w' n ["crictl"; "inspecti"; id] None out ∧ inspect_RepoTags out = Ok l ∧ tags = list_to_set l.
Proof.
  unfold ImageTags. intros (out & w1 & E & E2)%st_bind_Ok. apply st_bind_Ok in E2 as (l & w2 & [E2 ->]%pure_run & [= <- <-]).
  exists out, l. split_and!; [by eapply node_run_answered|done|done].
Qed.
(** The image is asked for by the empty name. *)
Lemma by_name_has id name n w b w' :
  (r ← try_ (ImageID n ""); mret match r with Ok i => i <>s id | _ => true end) w = (Ok b, w') → b = false → has_image n id name w'.
Proof.
  intros (o & w3 & Eo%try_Ok & [= E <-])%st_bind_Ok ->. destruct o as [i|e|x]; [|done..].
  unfold ImageID in Eo. apply st_bind_Ok in Eo as (out & w4 & Er & [Eo ->]%pure_run). right; right. exists out.
  apply negb_false_iff, String.eqb_eq in E as ->. split; [by eapply node_run_answered|done].
Qed.
Lemma needs_load_has id name n w w' : needs_load id name n w = (Ok false, w') → has_image n id name w'.
Proof.
  unfold needs_load. intros ([[there retag] full] & w1 & Ec & E)%st_bind_Ok.
  unfold checkIfImageReTagRequired in Ec. apply st_bind_Ok in Ec as (tags & w2 & Et%try_Ok & [= Ec <-]).
  destruct tags as [tags|e|x]; [|simplify_eq; by apply (by_name_has _ name) in E..].
  destruct (decide (tags = ∅)) as [->|Hne]; simplify_eq; [by apply (by_name_has _ name) in E|].
  destruct (bool_decide _) eqn:Hb; cbn [negb andb] in E.
  - injection E as <-. apply bool_decide_eq_true in Hb.
    apply ImageTags_answered in Et as (out & l & Ha & Hl & ->). left. exists out, l. split_and!; [done..|]. set_solver.
  - apply st_bind_Ok in E as (o & w3 & Eo%try_Ok & [= E <-]). destruct o as [[]|e|x]; [|done..].
    right; left. by eapply node_do_answered.
Qed.

Lemma select_nodes_grows id name l : grows (select_nodes id name l).
Proof. induction l as [|n l IH]; cbn [select_nodes]; repeat (sat_step || apply needs_load_grows || apply IH). Qed.
Lemma select_all_grows images l : grows (select_all images l).
Proof. induction images as [|[name id] images IH]; cbn [select_all]; repeat (sat_step || apply select_nodes_grows || apply IH). Qed.
Lemma grows_Ok {A} (m : st calls A) w a w' : grows m → m w = (Ok a, w') → extends w w'.
Proof. intros Hm E. specialize (Hm w). by rewrite E in Hm. Qed.

(** A node that is not selected has the image. *)
Lemma select_nodes_Ok id name l w sel w' : select_nodes id name l w = (Ok sel, w') →
  sel ⊆ l ∧ ∀ n, n ∈ l → n ∈ sel ∨ has_image n id name w'.
Proof.
  revert w sel. induction l as [|n l IH]; cbn [select_nodes]; intros w sel.
  - intros [= <- <-]. split; [done|]. by intros n ?%not_elem_of_nil.
  - intros (load & w1 & E1 & E)%st_bind_Ok. apply st_bind_Ok in E as (rest & w2 & E2 & [= <- <-]).
    pose proof (grows_Ok _ _ _ _ (select_nodes_grows _ _ _) E2) as He. apply IH in E2 as [Hs Hall].
    split; [destruct load; set_solver|]. intros m [->|Hm]%elem_of_cons.
    + destruct load; [left; set_solver|right]. by eapply has_image_later, needs_load_has.
    + destruct (Hall m Hm); [left; destruct load; set_solver|by right].
Qed.
Lemma select_all_Ok images l w sel w' : select_all images l w = (Ok sel, w') →
  sel ⊆ l ∧ ∀ name id n, (name, id) ∈ images → n ∈ l → n ∈ sel ∨ has_image n id name w'.
Proof.
  revert w sel. induction images as [|[name id] images IH]; cbn [select_all]; intros w sel.
  - intros [= <- <-]. split; [set_solver|]. by intros name id n ?%not_elem_of_nil.
  - intros (s1 & w1 & E1 & E)%st_bind_Ok. apply st_bind_Ok in E as (rest & w2 & E2 & [= <- <-]).
    pose proof (grows_Ok _ _ _ _ (select_all_grows _ _) E2) as He. apply IH in E2 as [Hs Hall].
    apply select_nodes_Ok in E1 as [Hs1 Hone]. split; [set_solver|]. intros name' id' n [[= -> ->]|Hi]%elem_of_cons Hn.
    + destruct (Hone n Hn); [left; set_solver|right; by eapply has_image_later].
    + destruct (Hall name' id' n Hi Hn); [left; set_solver|by right].
Qed.

Lemma getSnapshotter_grows n : grows (getSnapshotter n).
Proof. unfold getSnapshotter. repeat (sat_step || apply node_run_grows). Qed.
Lemma loadImage_imported tar n w w' : loadImage tar n w = (Ok tt, w') → imported_since w n tar w'.
Proof.
  unfold loadImage. intros (image & w1 & E%st_wrap_Ok & E2)%st_bind_Ok. apply pair_equal_spec in E as [E ->].
  unfold LoadImageArchive in E2. apply st_bind_Ok in E2 as (snap & w2 & Es%(grows_Ok _ _ _ _ (getSnapshotter_grows n)) & E2%st_wrap_Ok).
  apply node_do_exact in E2 as (out & Hr & ->). exists w1, image, w2, snap, out. done.
Qed.
(** Every node that is selected has had the archive imported, after the functions began. *)
Lemma loads_imported tar sel w w' : until_error (loadImage tar <$> sel) w = (Ok tt, w') →
  ∀ n, n ∈ sel → imported_since w n tar w'.
Proof.
  intros E n Hn. assert (Forall (λ f, grows f) (loadImage tar <$> sel)) as Hf
    by (apply Forall_fmap, Forall_forall; intros m _; apply loadImage_grows).
  destruct (until_error_Ok _ _ _ Hf E (loadImage tar n) (list_elem_of_fmap_2 _ _ _ Hn))
    as (v & v' & (u & image & pre & snap & out & Hu1 & Hu2 & Hu3 & Hu4 & Hu5)%loadImage_imported & Hv & He).
  exists u, image, pre, snap, out. cbv zeta. split_and!; [by etrans|done..|by etrans].
Qed.

(** *** Names *)

Lemma removeDuplicates_spec l : NoDup (removeDuplicates l) ∧ ∀ x, x ∈ removeDuplicates l ↔ x ∈ l.
Proof.
  unfold removeDuplicates.
  assert (∀ l seen result, NoDup result → (∀ x, x ∈ seen ↔ x ∈ result) →
    let r := snd (fold_left add_unseen l (seen, result)) in NoDup r ∧ ∀ x, x ∈ r ↔ x ∈ result ∨ x ∈ l) as Hgen.
  { clear l. induction l as [|k l IH]; intros seen result Hn Hs; cbn [fold_left add_unseen].
    - split; [done|]. intros x. cbn [snd]. set_solver.
    - destruct (str_in k seen) eqn:E.
      + apply str_in_true in E. destruct (IH seen result Hn Hs) as [Hd Hm]. split; [done|]. intros x. rewrite Hm. set_solver.
      + assert (k ∉ seen) as Hk by (intros Hk%str_in_true; congruence).
        destruct (IH (k :: seen) (result ++ [k])) as [Hd Hm].
        * apply NoDup_app. split_and!; [done|set_solver|apply NoDup_singleton].
        * set_solver.
        * split; [done|]. intros x. rewrite Hm. set_solver. }
  destruct (Hgen l [] [] (NoDup_nil_2) ltac:(done)) as [Hd Hm]. split; [done|]. intros x. rewrite Hm. set_solver.
Qed.

(** The identifiers are those of the images, one for each and in their order. *)
Lemma imageIDs_Ok names w ids w' : imageIDs names w = (Ok ids, w') → Forall2 has_id names ids.
Proof.
  revert w ids. induction names as [|name names IH]; cbn [imageIDs]; intros w ids; [by intros [= <- _]|].
  intros (r & w1 & Er%try_Ok & E)%st_bind_Ok. destruct r as [id|e|x]; [|done..].
  apply st_bind_Ok in E as (rest & w2 & E & [= <- ->]). constructor; [|by eapply IH].
  unfold imageID in Er. apply st_bind_Ok in Er as (lines & w3 & (o & Eh & He & ->)%host_OutputLines_Ok & Er).
  apply st_bind_Ok in Er as ([] & w4 & [Hl ->]%pure_run & [Hx _]%pure_run). exists w, o, w3. split_and!; [done..|].
  destruct (scan_lines (oc_stdout o)) as [|l [|]]; [done| |done]. by injection Hx as ->.
Qed.

(** A node that was named is one of the nodes. *)
Lemma pick_nodes_Ok quote l selected n : pick_nodes quote l selected = Ok n →
  n = match selected with [] => l | _ => selected end ∧ n ⊆ l.
Proof.
  unfold pick_nodes. destruct selected as [|x xs]; [by intros [= <-]|]. generalize (x :: xs). clear x xs.
  intros xs. revert n. induction xs as [|x xs IH]; intros n; cbn [fold_right]; [intros [= <-]; split; [done|set_solver]|].
  destruct (str_in x l) eqn:Hx; [|done]. intros (rest & E & [= <-])%bind_Ok_iff. apply IH in E as [-> Hs].
  apply str_in_true in Hx. split; [done|set_solver].
Qed.

Lemma tempdir_extends w dir w' : st_wrap "failed to create tempdir" (load_TempDir "" "images-tar") w = (Ok dir, w') → extends w w'.
Proof.
  unfold st_wrap. destruct (TempDir_grows "" "images-tar" w) as [l El]. destruct (load_TempDir _ _ w) as [o u].
  intros [= _ <-]. by exists l.
Qed.
Lemma loads_grow tar sel : grows (until_error (loadImage tar <$> sel)).
Proof. apply until_error_sat, Forall_fmap, Forall_forall. intros m _. apply loadImage_grows. Qed.

(** C13. When the command succeeds, the images that were named have got, each once, the
    identifier that docker answers for it on the host.  And every node that is meant, by its
    name or as one of the cluster, has the image with that identifier by its own answers; or
    docker has saved all of the images to an archive, and afterwards that archive was opened
    and imported into the node. *)
Theorem docker_image_loaded flags args w w' :
  docker_image_runE NoopLogger logger flags args w = (Ok tt, w') →
  ∃ r nodeList v v' names ids, api_ListInternalNodes r (lf_Name flags) v = (Ok nodeList, v') ∧ nodeList ≠ [] ∧ lf_Nodes flags ⊆ nodeList ∧
  NoDup names ∧ (∀ name, name ∈ names ↔ name ∈ args) ∧ Forall2 has_id names ids ∧
  ∀ name id n, (name, id) ∈ zip names ids → n ∈ match lf_Nodes flags with [] => nodeList | _ => lf_Nodes flags end →
    has_image n id name w' ∨ ∃ tar u, saved names tar u ∧ imported_since u n tar w'.
Proof.
  unfold docker_image_runE. intros (r & w1 & _ & E)%st_bind_Ok. cbv zeta in E.
  apply st_bind_Ok in E as (ids & w2 & Hids%imageIDs_Ok & E).
  apply st_bind_Ok in E as (cands & w3 & Hc & E). apply st_bind_Ok in E as (sel & w4 & [_ Hsel]%select_all_Ok & E).
  unfold candidates in Hc. apply st_bind_Ok in Hc as (nodeList & w5 & Hl & Hc). apply st_bind_Ok in Hc as ([] & w6 & Hne & Hc).
  apply pure_run in Hc as [Hc ->]. apply pick_nodes_Ok in Hc as [-> Hsub].
  destruct (removeDuplicates_spec args) as [Hnd Hmem].
  exists r, nodeList, w2, w5, (removeDuplicates args), ids. split; [done|]. split; [intros Hnil; by rewrite Hnil in Hne|].
  split; [destruct (lf_Nodes flags); [set_solver|done]|]. do 3 (split; [done|]). intros name id n Hin Hn.
  destruct sel as [|s sel]; [injection E as <-; destruct (Hsel _ _ n Hin Hn) as [[]%not_elem_of_nil|]; by left|].
  apply st_bind_Ok in E as (dir & w7 & Hd & E). unfold finally in E.
  match type of E with (let '(_, _) := ?run in _) = _ => destruct run as [res w8] eqn:Erun end. injection E as -> <-.
  apply st_bind_Ok in Erun as ([] & w9 & Hsave & Erun). destruct (RemoveAll_grows dir w8) as [l8 El8].
  destruct (Hsel _ _ n Hin Hn) as [Hs|Hhas].
  - right. exists (dir +:+ "/images.tar"), w9. split; [|apply (loads_imported _ _ _ _ Erun n) in Hs; eapply imported_later; [|exact Hs]; by exists l8].
    apply host_Run_Ok in Hsave as (o & Hh & Ho). by exists w7, o.
  - left. eapply has_image_later; [|exact Hhas]. etrans; [exact (tempdir_extends _ _ _ Hd)|].
    etrans; [exact (grows_Ok _ _ _ _ (host_Run_grows _) Hsave)|].
    etrans; [exact (grows_Ok _ _ _ _ (loads_grow _ _) Erun)|]. by exists l8.
Qed.
End facts.

(** ** Two nodes *)

Module DemoLoad.
(** The control plane has the image with its tag; the worker has none. *)
#[export] Instance nodes : NodeHost := {|
  reply := λ _ c, if str_in "inspecti" (c_args c) && (c_node c =s "demo-worker") then ("", Some "exit status 1") else ("ok", None);
  node_IP := λ _ _, Err "no address"
|}.
#[export] Instance libs : ImageLibs := {|
  toml_Load := λ _, Ok (λ _, Some "overlayfs");
  inspect_ID := λ _, Err "json";
  inspect_RepoTags := λ _, Ok ["docker.io/library/app:latest"; "docker.io/library/web:latest"]
|}.
Definition answer (args : list string) : string :=
  if str_in "ps" args then Join ["demo-control-plane"; "demo-worker"; ""] Runtime.newline
  else if str_in "image" args then "sha256:" +:+ List.last args ""
  else if str_in "inspect" args then (if str_in "demo-worker" args then "worker" else "control-plane")
  else "x".
#[export] Instance exec : HostExec calls := {|
  host := λ args _ w, (mkOutcome (answer args) "" None, w);
  shell_Quote := λ s, s
|}.
#[export] Instance schedule : Schedule calls := {| finish := λ _ n, seq 0 n; late := λ _ _, 0%nat; finish_perm := λ _ n, reflexivity _ |}.
#[export] Instance files : LoadFiles := {|
  load_TempDir := λ _ p, mret ("/tmp/" +:+ p +:+ "1"); load_RemoveAll := λ _, mret tt;
  load_Open := λ p _, Ok ("content of " +:+ p); load_Stat := λ _ _, Ok tt
|}.
#[export] Instance grows : LogGrows.
Proof. split; intros; by exists []. Defined.
Definition load (names : list string) : res unit * calls :=
  docker_image_runE "none" "stderr" (mkLoadFlags "demo" []) names [].
Definition imports (w : calls) : list string :=
  omap (λ '(c, _), if str_in "import" (c_args c) then Some (c_node c) else None) w.
End DemoLoad.

(** The worker is asked to have two images that it lacks. *)
Lemma docker_image_loaded_witness :
  let run := @docker_image_runE DemoLoad.nodes DemoLoad.libs DemoLoad.exec DemoLoad.schedule DemoLoad.files demo_host string "none" "stderr" in
  let w' := snd (run (mkLoadFlags "demo" ["demo-worker"]) ["app"; "web"; "app"] []) in
  ∃ names ids, (∀ name, name ∈ names ↔ name ∈ ["app"; "web"; "app"]) ∧ Forall2 (@has_id DemoLoad.exec) names ids ∧
  ∀ name id, (name, id) ∈ zip names ids →
    @has_image DemoLoad.nodes DemoLoad.libs "demo-worker" id name w' ∨
    ∃ tar u, @saved DemoLoad.exec names tar u ∧ @imported_since DemoLoad.nodes DemoLoad.files u "demo-worker" tar w'.
Proof.
  intros run w'.
  destruct (@docker_image_loaded DemoLoad.nodes DemoLoad.libs DemoLoad.exec DemoLoad.schedule DemoLoad.files demo_host
    string "none" "stderr" DemoLoad.grows (mkLoadFlags "demo" ["demo-worker"]) ["app"; "web"; "app"] [] w')
    as (r & l & v & v' & names & ids & _ & _ & _ & _ & Hm & Hi & H).
  - assert (fst (run (mkLoadFlags "demo" ["demo-worker"]) ["app"; "web"; "app"] []) = Ok tt) as <- by (vm_compute; reflexivity).
    apply surjective_pairing.
  - exists names, ids. split_and!; [done..|]. intros name id Hin. apply (H name id); [done|by left].
Defined.

(** A node that lacks two images is loaded twice, at once. *)
Example loaded_twice :
  let '(r, w) := DemoLoad.load ["app"; "web"] in
  r = Ok tt ∧ DemoLoad.imports w = ["demo-worker"; "demo-worker"].
Proof. vm_compute. done. Qed.
(** The image that is not there is asked for by an empty name. *)
Example asked_by_empty_name :
  let '(_, w) := DemoLoad.load ["app"] in
  existsb (λ '(c, _), bool_decide (c_args c = ["crictl"; "inspecti"; ""])) w = true.
Proof. vm_compute. reflexivity. Qed.
(** The port of a registry is taken for a tag. *)
Example port_is_no_tag :
  load_sanitizeImage "app" = "docker.io/library/app:latest" ∧
  load_sanitizeImage "registry.local:5000/app" = "registry.local:5000/app".
Proof. vm_compute. done. Qed.
