(* ===== verification/Logs.v ===== *)
(** * Collecting the logs of a cluster

    src/pkg/cluster/internal/logs/logs.go, src/pkg/cluster/internal/providers/common/logs.go,
    CollectLogs of the docker and podman providers and of src/pkg/cluster/provider.go, and
    src/pkg/cmd/kind/export/logs: a file system, the archive of a directory of a node that is
    unpacked into it, and the commands whose outputs are written to files.  Unpacking follows
    the symbolic links that the host has ([Links]); the collection is made in a file system
    without links.  Shown: what is unpacked stays in its directory when no name and no link
    leads out of it, turns no directory into a file, writes only the files of the archive, and
    has the contents of the archive over what was there; and after a collection that succeeds
    every file has the output of its command. *)

From S2P Require Import DockerProvider PodmanProvider.
From S2P Require Import Prelude State Concurrent GoStr Exec Errors KindConfig Nodes Docker Network Create NodeProvider Runtime Images Api.
Local Open Scope Z_scope.
Local Open Scope go_scope.
Local Open Scope stdpp_scope.

(** ** Paths *)

(** A clean path: whether it is absolute, and its elements. *)
Abbreviation path := (bool * list string)%type.
Definition elems (s : string) : list string := List.filter (λ e, (e <>s "") && (e <>s ".")) (Split s "/").
(** [filepath.Clean], element by element: what is above the root is the root. *)
Definition push (rooted : bool) (l : list string) (e : string) : list string :=
  if e =s ".." then
    match last l with
    | None => if rooted then l else l ++ [e]
    | Some ".." => l ++ [e]
    | Some _ => removelast l
    end
  else l ++ [e].
Definition Clean (s : string) : path :=
  let rooted := HasPrefix s "/" in (rooted, fold_left (push rooted) (elems s) []).
(** [filepath.Join] of a clean path and a name. *)
Definition path_join (p : path) (rel : string) : path := (p.1, fold_left (push p.1) (elems rel) p.2).
Definition show (p : path) : string :=
  let l := Join p.2 "/" in if p.1 then "/" +:+ l else match p.2 with [] => "." | _ => l end.
Definition parent (p : path) : path := (p.1, removelast p.2).

Example clean_paths :
  map (λ s, show (Clean s)) ["/a/./b//../c/"; "a/../.."; "/../x"; ""; "./"] = ["/a/c"; ".."; "/x"; "."; "."].
Proof. vm_compute. reflexivity. Qed.

(** ** Files *)

(** The root and the working directory are there without being in the map. *)
Inductive file := Dir | File (content : string).
#[global] Instance file_eq_dec : EqDecision file.
Proof. solve_decision. Defined.
#[global] Instance path_eq_dec : EqDecision path := prod_eq_dec.
#[global] Instance path_countable : Countable path := prod_countable.
Abbreviation fs := (@gmap path path_eq_dec path_countable file).

(** Where a path leads through the symbolic links of the host; nothing here makes or removes
    a link. *)
Class Links := { follow : path → path }.
Definition stat (f : fs) (p : path) : option file := match p.2 with [] => Some Dir | _ => f !! p end.
Definition is_dir (f : fs) (p : path) : bool := bool_decide (stat f p = Some Dir).

Section files.
Context `{!Links}.
Fixpoint mkdirs (rooted : bool) (done todo : list string) : st fs unit :=
  match todo with
  | [] => mret tt
  | e :: todo =>
      let p := (rooted, done ++ [e]) in
      there ← get (λ f, stat f (follow p));
      match there with
      | Some Dir => mkdirs rooted (done ++ [e]) todo
      | Some (File _) => pure (Err ("mkdir " +:+ show p +:+ ": not a directory"))
      | None =>
          (** a link that leads nowhere *)
          if bool_decide (follow p = ((follow (rooted, done)).1, (follow (rooted, done)).2 ++ [e])) then
            modify (λ f : fs, <[follow p := Dir]> f) ;; mkdirs rooted (done ++ [e]) todo
          else pure (Err ("mkdir " +:+ show p +:+ ": file exists"))
      end
  end.
Definition MkdirAll (p : path) : st fs unit := mkdirs p.1 [] p.2.

(** [os.OpenFile] with [O_CREATE], and then a write from the start of the file. *)
Definition open_then (p : path) (write : string → string) : st fs unit :=
  there ← get (λ f, stat f (follow p));
  match there with
  | Some Dir => pure (Err ("open " +:+ show p +:+ ": is a directory"))
  | Some (File old) => modify (λ f : fs, <[follow p := File (write old)]> f)
  | None =>
      ok ← get (λ f, is_dir f (parent (follow p)));
      if (ok : bool) then modify (λ f : fs, <[follow p := File (write "")]> f)
      else pure (Err ("open " +:+ show p +:+ ": no such file or directory"))
  end.
End files.
(** Without links. *)
#[export] Instance no_links : Links := {| follow p := p |}.

(** What is written, and behind it what was there. *)
Definition overlay (data old : string) : string :=
  data +:+ String.substring (String.length data) (String.length old - String.length data) old.

(** ** Unpacking an archive *)

Inductive typeflag := TypeReg | TypeDir | TypeOther.
(** An entry: the data that could be read, and the error that ended the reading. *)
Record tar_entry := mkTarEntry {
  te_Name : string; te_Typeflag : typeflag; te_Size : Z; te_data : string; te_error : option string
}.
(** The entries of a stream, and how it ends: with an error of the reader, or at its end,
    and then what is behind it is drained. *)
Definition tar_stream : Type := list tar_entry * res (res unit).
Class TarReader := { tar_entries : string → tar_stream }.

Definition untar_entry `{!Links} (dir : path) (e : tar_entry) : st fs unit :=
  let abs := path_join dir (te_Name e) in
  match te_Typeflag e with
  | TypeReg =>
      open_then abs (overlay (te_data e)) ;;
      match te_error e with
      | Some err => pure (Err ("error writing to " +:+ show abs +:+ ": " +:+ err))
      | None =>
          let n := Z.of_nat (String.length (te_data e)) in
          pure (fail_when (negb (n =? te_Size e))
            ("only wrote " +:+ Itoa n +:+ " bytes to " +:+ show abs +:+ "; expected " +:+ Itoa (te_Size e)))
      end
  | TypeDir =>
      there ← get (λ f, bool_decide (is_Some (stat f (follow abs))));
      st_when (negb there) (MkdirAll abs)
  | TypeOther => mret tt
  end.
Definition untar `{!Links} (dir : path) (stream : tar_stream) : st fs unit :=
  st_each (untar_entry dir) stream.1 ;;
  pure (drained ← match stream.2 with Err e => Err ("tar reading error: " +:+ e +:+ ": " +:+ e) | o => o end; drained).

(** ** What is unpacked *)

(** A path at or below another. *)
Definition under (dir p : path) : Prop := p.1 = dir.1 ∧ dir.2 `prefix_of` p.2.
(** A path above another, or the same. *)
Definition above (p dir : path) : Prop := p.1 = dir.1 ∧ p.2 `prefix_of` dir.2.
(** A name that does not climb. *)
Definition local (name : string) : Prop := ".." ∉ elems name.

Lemma push_local rooted l es : ".." ∉ es → fold_left (push rooted) es l = l ++ es.
Proof.
  revert l. induction es as [|e es IH]; intros l Hl; [by rewrite app_nil_r|]. cbn [fold_left].
  apply not_elem_of_cons in Hl as [He Hl]. unfold push at 2. rewrite (proj2 (String.eqb_neq e "..")) by done.
  by rewrite IH, <- app_assoc.
Qed.
Lemma path_join_local p name : local name → path_join p name = (p.1, p.2 ++ elems name).
Proof. intros Hl. unfold path_join. by rewrite push_local. Qed.
Lemma join_under p name : local name → under p (path_join p name).
Proof. intros Hl. rewrite path_join_local by done. split; [done|]. by eexists. Qed.

(** Directories stay directories and files files, only these files are written or made, and
    only these directories are made. *)
Definition changes (P Q : path → Prop) : relation fs := λ f f', ∀ p,
  match f !! p with
  | Some Dir => f' !! p = Some Dir
  | Some (File s) => ∃ s', f' !! p = Some (File s') ∧ (P p ∨ s' = s)
  | None => f' !! p = None ∨ (Q p ∧ f' !! p = Some Dir) ∨ (P p ∧ ∃ s, f' !! p = Some (File s))
  end.
#[local] Instance changes_refl P Q : Reflexive (changes P Q).
Proof. intros f p. destruct (f !! p) as [[|s]|] eqn:E; naive_solver. Qed.
#[local] Instance changes_trans P Q : Transitive (changes P Q).
Proof.
  intros f1 f2 f3 H12 H23 p. specialize (H12 p). specialize (H23 p). destruct (f1 !! p) as [[|s]|].
  - by rewrite H12 in H23.
  - destruct H12 as (s1 & E & Hs1). rewrite E in H23. destruct H23 as (s2 & E2 & Hs2). exists s2.
    split; [done|]. destruct Hs1 as [?| ->]; auto.
  - destruct H12 as [E|[[HQ E]|[HP [s E]]]]; rewrite E in H23; [done|by auto|].
    destruct H23 as (s2 & E2 & _). eauto.
Qed.
#[local] Instance changes_effect P Q : Effect (changes P Q) (changes P Q).
Proof. split; try apply _; [done|]. intros f1 f2 f3 ??. by etrans. Qed.
Abbreviation changing P Q m := (sat m (changes P Q) (changes P Q)).

Section unpacked.
Context `{!Links}.

Lemma stat_lookup f p : stat f p ≠ Some Dir → f !! p = stat f p.
Proof. unfold stat. by destruct p as [ro [|x l]]. Qed.
Lemma insert_changes (P Q : path → Prop) f p x : stat f p ≠ Some Dir →
  match x with Dir => stat f p = None ∧ Q p | File _ => P p end → changes P Q f (<[p := x]> f).
Proof.
  intros Hs Hx q. destruct (decide (p = q)) as [<-|Hne].
  - rewrite lookup_insert_eq, (stat_lookup f p Hs).
    destruct (stat f p) as [[|s]|], x; try done; [by destruct Hx|eauto|right; left; tauto|eauto].
  - rewrite lookup_insert_ne by done. destruct (f !! q) as [[|s]|]; eauto.
Qed.
Lemma open_then_changes (P Q : path → Prop) p write : P (follow p) → changing P Q (open_then p write).
Proof.
  intros Hp f. unfold open_then, mbind, st_bind, get, modify. cbv zeta beta.
  destruct (stat f (follow p)) as [[|old]|] eqn:E; [by apply changes_refl| |].
  - apply insert_changes; [by rewrite E|done].
  - destruct (is_dir f _); [|by apply changes_refl]. apply insert_changes; [by rewrite E|done].
Qed.
Lemma mkdirs_changes (P Q : path → Prop) rooted done todo :
  (∀ l, l `prefix_of` todo → l ≠ [] → Q (follow (rooted, done ++ l))) → changing P Q (mkdirs rooted done todo).
Proof.
  revert done. induction todo as [|e todo IH]; intros done HQ; cbn [mkdirs]; [apply sat_ret|].
  assert (∀ l, l `prefix_of` todo → l ≠ [] → Q (follow (rooted, (done ++ [e]) ++ l))) as HQ'.
  { intros l Hl Hne. rewrite <- app_assoc. apply HQ; [by apply prefix_cons|done]. }
  intros f. unfold mbind, st_bind, get. cbv zeta beta. destruct (stat f (follow (rooted, done ++ [e]))) as [[|content]|] eqn:E.
  - by apply IH.
  - by apply (sat_pure (A:=unit)).
  - destruct (bool_decide _); [|by apply (sat_pure (A:=unit))].
    unfold modify. specialize (IH (done ++ [e]) HQ' (<[follow (rooted, done ++ [e]) := Dir]> f)).
    assert (changes P Q f (<[follow (rooted, done ++ [e]) := Dir]> f)) as Hc.
    { apply insert_changes; [by rewrite E|]. split; [done|]. apply HQ; [|done]. apply prefix_cons, prefix_nil. }
    destruct (mkdirs _ _ _ _) as [[]]; by etrans.
Qed.
Lemma MkdirAll_changes (P Q : path → Prop) p : (∀ q, above q p → Q (follow q)) → changing P Q (MkdirAll p).
Proof. intros HQ. apply mkdirs_changes. intros l Hl _. by apply HQ. Qed.

(** The path that an entry leads to, and whether it is the one of a file of the archive. *)
Definition target (dir : path) (e : tar_entry) : path := follow (path_join dir (te_Name e)).
Definition brought (dir : path) (l : list tar_entry) (p : path) : Prop :=
  ∃ e, e ∈ l ∧ te_Typeflag e = TypeReg ∧ p = target dir e.
(** The directory is reached without links, and the links in it do not lead out. *)
Definition links_within (dir : path) : Prop :=
  (∀ p, above p dir → follow p = p) ∧ (∀ p, under dir p → under dir (follow p)).

Lemma untar_changes dir stream : Forall (λ e, local (te_Name e)) stream.1 → links_within dir →
  changing (brought dir stream.1) (λ p, under dir p ∨ above p dir) (untar dir stream).
Proof.
  intros Hl [Ha Hw]. unfold untar. sat_step; [|apply sat_pure]. apply sat_each. intros e He. rewrite Forall_forall in Hl.
  pose proof (join_under dir _ (Hl e He)) as Hu. unfold untar_entry. cbv zeta. destruct (te_Typeflag e) eqn:Ht.
  - sat_step; [apply open_then_changes; by exists e|]. destruct (te_error e); apply sat_pure.
  - sat_step; [apply sat_get|]. apply sat_when. intros _. apply MkdirAll_changes. intros q [Hq1 Hq2].
    destruct Hu as [Hu1 Hu2]. destruct (prefix_weak_total _ _ _ Hu2 Hq2).
    + left. apply Hw. split; congruence.
    + right. assert (above q dir) as Hq by (split; congruence). by rewrite Ha.
  - apply sat_ret.
Qed.

(** *** The contents *)

(** What the regular entries with this path bring, in their order. *)
Definition datas (dir p : path) (l : list tar_entry) : list string :=
  omap (λ e, match te_Typeflag e with
             | TypeReg => if decide (target dir e = p) then Some (te_data e) else None
             | _ => None
             end) l.
Definition content (o : option file) : string := match o with Some (File s) => s | _ => "" end.
(** The files that are not written are as they were, or became directories. *)
Definition kept (o o' : option file) : Prop := o' = o ∨ (o = None ∧ o' = Some Dir).
Lemma kept_content o o' : kept o o' → content o' = content o.
Proof. intros [->|[-> ->]]; done. Qed.
Lemma kept_trans o1 o2 o3 : kept o1 o2 → kept o2 o3 → kept o1 o3.
Proof. intros [->|[-> ->]] [->|[? ->]]; [by left|by right|by right|done]. Qed.

Lemma open_then_Ok p write f f' : open_then p write f = (Ok tt, f') →
  f' = <[follow p := File (write (content (f !! follow p)))]> f.
Proof.
  unfold open_then, mbind, st_bind, get. cbv zeta beta. destruct (stat f (follow p)) as [[|old]|] eqn:E; [done|..].
  - rewrite (stat_lookup f (follow p)), E by (by rewrite E). by intros [= <-].
  - rewrite (stat_lookup f (follow p)), E by (by rewrite E). destruct (is_dir f _); [by intros [= <-]|done].
Qed.
Lemma mkdirs_kept rooted done todo f f' : mkdirs rooted done todo f = (Ok tt, f') → ∀ p, kept (f !! p) (f' !! p).
Proof.
  intros E p. pose proof (mkdirs_changes (λ _, False) (λ _, True) rooted done todo (λ _ _ _, I) f) as Hc.
  rewrite E in Hc. specialize (Hc p). destruct (f !! p) as [[|s]|]; [by left| |].
  - destruct Hc as (s' & -> & [[]| ->]). by left.
  - destruct Hc as [?|[[_ ?]|[[] _]]]; [by left|by right].
Qed.

Lemma untar_entry_Ok dir p e f f' : untar_entry dir e f = (Ok tt, f') →
  match datas dir p [e] with
  | [data] => f' !! p = Some (File (overlay data (content (f !! p))))
  | _ => kept (f !! p) (f' !! p)
  end.
Proof.
  unfold untar_entry, datas. cbv zeta. cbn [omap list_omap]. destruct (te_Typeflag e).
  - intros ([] & f1 & E%open_then_Ok & E2)%st_bind_Ok.
    assert (f' = f1) as -> by (by destruct (te_error e); apply pure_run in E2 as [_ ->]).
    subst f1. destruct (decide _) as [<-|Hne]; [by rewrite lookup_insert_eq|]. left. by rewrite lookup_insert_ne.
  - intros (there & f1 & [= Ht <-] & E)%st_bind_Ok. destruct (negb there); [|injection E as <-; by left].
    by eapply mkdirs_kept.
  - intros [= <-]. by left.
Qed.

(** When an archive is unpacked without an error, a path with regular entries is a file
    that holds their data, one after the other written from its start over what was there;
    and any other path is as it was, or was made a directory. *)
Theorem untar_content dir stream f f' p : untar dir stream f = (Ok tt, f') →
  match datas dir p stream.1 with
  | [] => kept (f !! p) (f' !! p)
  | ds => f' !! p = Some (File (fold_left (λ old data, overlay data old) ds (content (f !! p))))
  end.
Proof.
  unfold untar. intros ([] & f1 & E & [_ ->]%pure_run)%st_bind_Ok. generalize dependent f. generalize stream.1. clear stream.
  intros l. induction l as [|e l IH]; intros f; [intros [= <-]; by left|]. cbn [st_each].
  intros ([] & f2 & E1 & E)%st_bind_Ok. apply IH in E. apply (untar_entry_Ok dir p) in E1.
  change (datas dir p (e :: l)) with (datas dir p ([e] ++ l)). unfold datas in *. rewrite omap_app.
  destruct (omap _ [e]) as [|d [|d' ds]] eqn:Ed.
  - cbn [app]. destruct (omap _ l) as [|d ds]; [by eapply kept_trans|]. by rewrite E, (kept_content _ _ E1).
  - cbn [app fold_left]. destruct (omap _ l) as [|d2 ds]; [|by rewrite E, E1].
    destruct E as [->|[E _]]; [by rewrite E1|congruence].
  - exfalso. cbn in Ed. destruct (te_Typeflag e); try done. by destruct (decide _).
Qed.
(** C12. However an archive is unpacked, to its end or to an error, when no name in it climbs
    up and no link leads out of the directory then: nothing changes outside of the directory,
    but that the directories above it are made; every directory stays a directory and every
    file a file; and the only files that change or appear are those of the archive.  When it
    succeeds, a file that the archive has holds the data of its entries, one after the other
    written from its start over what was there. *)
Theorem untar_stays dir stream f r f' :
  Forall (λ e, local (te_Name e)) stream.1 → links_within dir → untar dir stream f = (r, f') →
  (∀ p, ¬ under dir p → f' !! p = f !! p ∨ (above p dir ∧ f !! p = None ∧ f' !! p = Some Dir)) ∧
  (∀ p, f !! p = Some Dir → f' !! p = Some Dir) ∧
  (∀ p s, f !! p = Some (File s) → ∃ s', f' !! p = Some (File s')) ∧
  (∀ p s, f' !! p = Some (File s) → f !! p = Some (File s) ∨
    ∃ e, e ∈ stream.1 ∧ te_Typeflag e = TypeReg ∧ p = target dir e) ∧
  (r = Ok tt → ∀ p, datas dir p stream.1 ≠ [] →
    f' !! p = Some (File (fold_left (λ old data, overlay data old) (datas dir p stream.1) (content (f !! p))))).
Proof.
  intros Hl Hw E. pose proof (untar_changes dir stream Hl Hw f) as Hs. rewrite E in Hs.
  assert (changes (brought dir stream.1) (λ p, under dir p ∨ above p dir) f f') as Hc by (by destruct r). clear Hs.
  assert (∀ p, brought dir stream.1 p → under dir p) as Hb.
  { intros p (e & He & _ & ->). apply Hw, join_under. by eapply Forall_forall in Hl. }
  unfold brought in *. split_and!; [intros p..|].
  - intros Hn. specialize (Hc p). destruct (f !! p) as [[|s]|]; [by left| |].
    + destruct Hc as (s' & -> & [Hp| ->]); [by apply Hb in Hp|by left].
    + destruct Hc as [?|[[[Hp|Hp] ?]|[Hp _]]]; [by left|done|by right|by apply Hb in Hp].
  - intros Hp. specialize (Hc p). by rewrite Hp in Hc.
  - intros s Hp. specialize (Hc p). rewrite Hp in Hc. destruct Hc as (s' & ? & _). by exists s'.
  - intros s Hp. specialize (Hc p). rewrite Hp in Hc. destruct (f !! p) as [[|s']|]; [done| |].
    + destruct Hc as (s2 & [= <-] & [?| ->]); [by right|by left].
    + destruct Hc as [?|[[_ ?]|[? _]]]; [done..|by right].
  - intros -> p Hd. pose proof (untar_content dir stream f f' p E) as Hc'. by destruct (datas dir p stream.1).
Qed.
End unpacked.

Module DemoTar.
Definition dir : path := Clean "/out/demo-worker".
Definition reg (name data : string) : tar_entry := mkTarEntry name TypeReg (Z.of_nat (String.length data)) data None.
Definition sub (name : string) : tar_entry := mkTarEntry name TypeDir 0 "" None.
Definition stream : tar_stream := ([sub "./"; sub "./pods/"; reg "./pods/a.log" "one"; reg "./syslog" "two"], Ok (Ok tt)).
Definition first : fs := snd (untar dir stream ∅).
Definition at_ (f : fs) (s : string) : option file := f !! Clean s.
End DemoTar.

Lemma untar_content_witness :
  DemoTar.at_ DemoTar.first "/out/demo-worker/pods/a.log" = Some (File "one").
Proof.
  refine (untar_content DemoTar.dir DemoTar.stream ∅ DemoTar.first (Clean "/out/demo-worker/pods/a.log") _).
  assert (fst (untar DemoTar.dir DemoTar.stream ∅) = Ok tt) as <- by (vm_compute; reflexivity). apply surjective_pairing.
Defined.
(** The directory holds a link to another directory in it, and a log from before. *)
Module DemoLinks.
#[export] Instance links : Links := {|
  follow p := match p with
              | (true, "out" :: "demo-worker" :: "containers" :: l) => (true, "out" :: "demo-worker" :: "pods" :: l)
              | (true, "out" :: "leads-out" :: "containers" :: l) => (true, "etc" :: l)
              | _ => p
              end
|}.
Definition before : fs := <[Clean "/etc" := Dir]> (<[Clean "/out/demo-worker/old.log" := File "old"]> DemoTar.first).
Definition stream : tar_stream := ([DemoTar.reg "./containers/b.log" "three"], Ok (Ok tt)).
Definition after (dir : path) : fs := snd (untar dir stream before).
End DemoLinks.

Lemma links_within_demo : @links_within DemoLinks.links DemoTar.dir.
Proof.
  split.
  - intros [ro l] [E [k Hk]]. cbn [fst snd] in *. subst ro. destruct l as [|x [|y [|z l]]]; try discriminate Hk.
    + done.
    + cbn in *. repeat case_match; congruence.
    + cbn in *. repeat case_match; congruence.
  - intros [ro l] [E [k Hk]]. cbn [fst snd] in *. subst ro l. cbn. repeat case_match; simplify_eq; split; try done; by eexists.
Qed.
Lemma untar_stays_witness :
  DemoTar.at_ (DemoLinks.after DemoTar.dir) "/etc" = Some Dir ∧
  DemoTar.at_ (DemoLinks.after DemoTar.dir) "/out/demo-worker/pods" = Some Dir ∧
  (∃ s, DemoTar.at_ (DemoLinks.after DemoTar.dir) "/out/demo-worker/pods/a.log" = Some (File s)) ∧
  DemoTar.at_ (DemoLinks.after DemoTar.dir) "/out/demo-worker/pods/b.log" = Some (File "three").
Proof.
  destruct (@untar_stays DemoLinks.links DemoTar.dir DemoLinks.stream DemoLinks.before
    (fst (@untar DemoLinks.links DemoTar.dir DemoLinks.stream DemoLinks.before))
    (DemoLinks.after DemoTar.dir)) as (Hout & Hdirs & Hfiles & _ & Hdata).
  - repeat constructor. refine (bool_decide_eq_true_1 _ _). vm_compute. reflexivity.
  - apply links_within_demo.
  - apply surjective_pairing.
  - split_and!.
    + destruct (Hout (Clean "/etc")) as [E|([_ [l Hl]] & _ & _)].
      * intros [_ [l Hl]]. by vm_compute in Hl.
      * exact E.
      * by vm_compute in Hl.
    + apply Hdirs. vm_compute. reflexivity.
    + apply (Hfiles _ "one"). vm_compute. reflexivity.
    + refine (Hdata _ (Clean "/out/demo-worker/pods/b.log") _); [vm_compute; reflexivity|by vm_compute].
Defined.
(** A link that leads out writes where the directory is not. *)
Example link_leads_out :
  let f := DemoLinks.after (Clean "/out/leads-out") in
  DemoTar.at_ f "/etc/b.log" = Some (File "three") ∧ DemoTar.at_ f "/out/leads-out/containers/b.log" = None.
Proof. vm_compute. done. Qed.

(** A name that climbs up writes where the directory is not. *)
Example name_climbs_out :
  DemoTar.at_ (snd (untar DemoTar.dir ([DemoTar.sub "./"; DemoTar.sub "../../etc"; DemoTar.reg "../../etc/passwd" "root"], Ok (Ok tt)) ∅))
    "/etc/passwd" = Some (File "root").
Proof. vm_compute. reflexivity. Qed.
(** A file is not truncated: when the logs are exported to the same directory again, what is
    shorter now ends with what was there. *)
Example old_end_stays :
  DemoTar.at_ (snd (untar DemoTar.dir ([DemoTar.reg "./syslog" "2"], Ok (Ok tt)) DemoTar.first)) "/out/demo-worker/syslog" =
    Some (File "2wo").
Proof. vm_compute. reflexivity. Qed.

(** ** Commands whose output is written *)

(** The files of the host; commands do not touch those of a collection. *)
Class HasFiles (W : Type) := {
  files : W → fs;
  set_files : fs → W → W;
  files_set f w : files (set_files f w) = f
}.

(** The text of the errors that there are: of one of them itself, of more each once. *)
Definition aggregate (errs : list string) : res unit :=
  match errs with [] => Ok tt | [e] => Err e | _ => Err (join_texts errs) end.

Section collecting.
Context {W : Type} `{!HasFiles W, !HostExec W, !Schedule W, !TarReader}.

Definition on_files {A} (m : st fs A) : st W A := λ w, let '(r, f) := m (files w) in (r, set_files f w).

(** [AggregateConcurrent]: all run, and their errors are collected as they arrive. *)
Fixpoint run_collect (fns : list (st W unit)) (errs : list string) : st W unit :=
  match fns with
  | [] => pure (aggregate errs)
  | f :: fns => r ← try_ f; run_collect fns (errs ++ match r with Err e => [e] | _ => [] end)
  end.
Definition aggregate_concurrent (fns : list (st W unit)) : st W unit := λ w,
  run_collect (omap (fns !!.) (finish w (length fns))) [] w.

(** [FileOnHost], and a command with both its outputs to the file. *)
Definition FileOnHost (p : path) : st W unit := on_files (MkdirAll (parent p) ;; open_then p (λ _, "")).
Definition output_to (args : list string) (p : path) : st W unit := λ w,
  let '(o, w) := host args None w in
  (match run_error args o with None => Ok tt | Some e => Err (RunError_Error e) end,
   set_files (<[p := File (oc_combined o)]> (files w)) w).
Definition execToPath (args : list string) (p : path) : st W unit := FileOnHost p ;; output_to args p.

(** *** providers/common/logs.go *)

Section provider.
Context (rt : string).
Definition node_args (n : string) (command : list string) : list string := rt_node_args rt n [] false command.
(** The files of a node, with the commands for them. *)
Definition node_logs (n : string) (dir : path) : list (path * list string) :=
  [(path_join dir "kubernetes-version.txt", node_args n ["cat"; "/kind/version"]);
   (path_join dir "journal.log", node_args n ["journalctl"; "--no-pager"]);
   (path_join dir "kubelet.log", node_args n ["journalctl"; "--no-pager"; "-u"; "kubelet.service"]);
   (path_join dir "containerd.log", node_args n ["journalctl"; "--no-pager"; "-u"; "containerd.service"]);
   (path_join dir "images.log", node_args n ["crictl"; "images"])].
Definition common_CollectLogs (n : string) (dir : path) : st W unit :=
  aggregate_concurrent (map (λ '(p, args), execToPath args p) (node_logs n dir)).

(** *** internal/logs *)

Definition dump_script (nodeDir : string) : string :=
  "tar --hard-dereference -C " +:+ shell_Quote (show (Clean nodeDir) +:+ "/") +:+ " -chf - . || (r=$?; [ $r -eq 1 ] || exit $r)".
(** The reader is done when the command is; the error of the reader comes first. *)
Definition DumpDir (n nodeDir : string) (hostDir : path) : st W unit := λ w,
  let args := node_args n ["sh"; "-c"; dump_script nodeDir] in
  let '(o, w) := host args None w in
  let '(r, w) := on_files (untar hostDir (tar_entries (oc_stdout o))) w in
  match r with
  | Panic x => (Panic x, w)
  | _ => (aggregate (match r with Err e => ["Untarring " +:+ Q nodeDir +:+ ": " +:+ e +:+ ": " +:+ e] | _ => [] end ++
                     match run_error args o with Some e => [RunError_Error e] | None => [] end), w)
  end.

(** *** CollectLogs of a provider *)

Definition node_fns (dir : path) (n : string) : list (st W unit) :=
  let p := path_join dir n in
  [common_CollectLogs n p;
   execToPath [rt; "inspect"; n] (path_join p "inspect.json");
   execToPath [rt; "logs"; n] (path_join p "serial.log")].
Fixpoint dump_all (dir : path) (nodes : list string) (errs : list string) : st W (list string) :=
  match nodes with
  | [] => mret errs
  | n :: nodes =>
      r ← try_ (DumpDir n "/var/log" (path_join dir n));
      dump_all dir nodes (errs ++ match r with Err e => [e] | _ => [] end)
  end.
Definition CollectLogs (dir : path) (nodes : list string) : st W unit :=
  errs ← dump_all dir nodes [];
  r ← try_ (aggregate_concurrent
             (execToPath [rt; "info"] (path_join dir (rt +:+ "-info.txt")) :: concat (map (node_fns dir) nodes)));
  pure (aggregate (errs ++ match r with Err e => [e] | _ => [] end)).
End provider.

(** *** provider.go of the library *)

Definition DisplayVersion (b : build) (goVersion GOOS GOARCH : string) : string :=
  "cloud-provisioner Version:" +:+ CLIVersion b true +:+ " GoVersion:" +:+ goVersion +:+ " Platform:" +:+ GOOS +:+ "/" +:+ GOARCH.
Definition api_CollectLogs (r : runtime) (version name dir : string) : st W unit :=
  n ← api_ListInternalNodes r name;
  st_wrap "failed to create logs directory" (on_files (MkdirAll (Clean dir))) ;;
  st_wrap "failed to write kind-version.txt"
    (on_files (open_then (path_join (Clean dir) "kind-version.txt") (λ _, version))) ;;
  CollectLogs (program r) (Clean dir) n.
End collecting.

(** *** The command *)

Section export.
Context {W : Type} `{!HasFiles W, !HostExec W, !Schedule W, !TarReader, !Host}.
Context {Logger : Type} (NoopLogger logger : Logger).
(** What is printed is the directory; [TempDir] makes one. *)
Definition export_logs_runE (TempDir : st W string) (version name : string) (args : list string) : st W string :=
  r ← new_runtime NoopLogger logger;
  nodes ← api_ListNodes r name;
  pure (fail_when (Nat.eqb (length nodes) 0) ("unknown cluster " +:+ Q name)) ;;
  dir ← match args with [] => TempDir | a :: _ => mret a end;
  api_CollectLogs r version name dir ;;
  mret dir.
End export.

(** ** What a collection leaves *)

Section collected.
Context {W : Type} `{!HasFiles W, !HostExec W, !Schedule W} {tar : TarReader}.
(** The commands leave the files alone. *)
Context (host_files : ∀ args stdin (w : W), files (snd (host args stdin w)) = files w).

(** The other files that were there stay what they are. *)
Definition spares (ps : list path) : relation W := λ w w',
  ∀ p s, p ∉ ps → files w !! p = Some (File s) → files w' !! p = Some (File s).
#[local] Instance spares_refl ps : Reflexive (spares ps).
Proof. by intros w p s. Qed.
#[local] Instance spares_trans ps : Transitive (spares ps).
Proof. intros w1 w2 w3 H1 H2 p s Hp E. eauto. Qed.
#[local] Instance spares_effect ps : Effect (spares ps) (spares ps).
Proof. split; try apply _; [done|]. intros w1 w2 w3 ??. by etrans. Qed.
Lemma spares_mono ps qs w w' : ps ⊆ qs → spares ps w w' → spares qs w w'.
Proof. intros Hs H p s Hp E. apply H; [set_solver|done]. Qed.

(** A file holds what a command printed. *)
Definition holds (w : W) (pa : path * list string) : Prop :=
  ∃ v, files w !! pa.1 = Some (File (oc_combined (fst (host pa.2 None v)))).
(** A function that writes these files, and when it gives no error each holds the output of
    its command. *)
Record task (plan : list (path * list string)) (m : st W unit) : Prop := {
  task_spares : sat m (spares plan.*1) (spares plan.*1);
  task_holds w w' : m w = (Ok tt, w') → Forall (holds w') plan
}.

Lemma changes_spares (P : path → Prop) (ps : list path) (w w' : W) :
  (∀ p, P p → p ∈ ps) → changes P (λ _, True) (files w) (files w') → spares ps w w'.
Proof.
  intros HP Hc p s Hp E. specialize (Hc p). rewrite E in Hc. destruct Hc as (s' & ? & [?%HP| ->]); done.
Qed.
Lemma on_files_spares (P : path → Prop) ps (m : st fs unit) :
  (∀ p, P p → p ∈ ps) → changing P (λ _, True) m → sat (on_files m) (spares ps) (spares ps).
Proof.
  intros HP Hm w. specialize (Hm (files w)). unfold on_files. destruct (m (files w)) as [r f].
  assert (spares ps w (set_files f w)) as Hs.
  { apply (changes_spares P); [done|]. rewrite files_set. by destruct r. }
  by destruct r.
Qed.

Lemma exec_task args p : task [(p, args)] (execToPath args p).
Proof.
  assert (∀ w r w', output_to args p w = (r, w') → files w' = <[p := File (oc_combined (fst (host args None w)))]> (files w)) as Hout.
  { intros w r w'. unfold output_to. pose proof (host_files args None w) as Hf. destruct (host args None w) as [o w1].
    intros [= _ <-]. cbn [snd fst] in *. by rewrite files_set, Hf. }
  split.
  - cbn. unfold execToPath. sat_step.
    + apply (on_files_spares (λ q, q = p)); [set_solver|]. sat_step; [by apply MkdirAll_changes|by apply open_then_changes].
    + apply sat_always. intros w r w' E%Hout q s Hq Hs. rewrite E, lookup_insert_ne; [done|set_solver].
  - intros w w'. unfold execToPath. intros ([] & w1 & _ & E%Hout)%st_bind_Ok. apply Forall_singleton.
    exists w1. cbn [fst snd]. by rewrite E, lookup_insert_eq.
Qed.

(** Functions that run one after the other, in any order. *)
Lemma run_collect_spares ps fns errs : Forall (λ f, sat f (spares ps) (spares ps)) fns →
  sat (run_collect fns errs) (spares ps) (spares ps).
Proof.
  intros Hf. revert errs. induction Hf as [|f fns Hf Hfs IH]; intros errs; cbn [run_collect]; [apply sat_pure|].
  sat_step; [by apply sat_try_always|apply IH].
Qed.
Lemma aggregate_Ok errs : aggregate errs = Ok tt → errs = [].
Proof. by destruct errs as [|e [|e' errs]]. Qed.
Lemma run_collect_errs (fns : list (st W unit)) errs (w w' : W) : run_collect fns errs w = (Ok tt, w') → errs = [].
Proof.
  revert errs w. induction fns as [|f fns IH]; intros errs w; cbn [run_collect].
  - intros [E _]%pure_run. by apply aggregate_Ok.
  - intros (r & w1 & _ & E)%st_bind_Ok. apply IH in E. by apply app_eq_nil in E as [-> _].
Qed.

Lemma holds_later ps w w' pa : spares ps w w' → pa.1 ∉ ps → holds w pa → holds w' pa.
Proof. intros Hs Hp [v E]. exists v. by apply Hs. Qed.
Lemma run_collect_holds (ts : list (list (path * list string) * st W unit)) (w w' : W) :
  Forall (λ t, task t.1 t.2) ts → NoDup (concat ts.*1).*1 → run_collect ts.*2 [] w = (Ok tt, w') →
  Forall (holds w') (concat ts.*1).
Proof.
  intros Ht. revert w. induction Ht as [|[plan m] ts [Hsp Hh] Hts IH]; intros w Hn; [constructor|].
  cbn [fmap list_fmap fst snd concat run_collect] in *. rewrite fmap_app in Hn. apply NoDup_app in Hn as (Hn1 & Hd & Hn2).
  intros (r & w1 & Er & E)%st_bind_Ok. pose proof (run_collect_errs _ _ _ _ E) as Hr.
  assert (m w = (Ok tt, w1)) as Em.
  { unfold try_ in Er. destruct (m w) as [[[]|e|x] w2]; simplify_eq/=; done. }
  destruct r as [[]|e|x]; [|done|by unfold try_ in Er; destruct (m w) as [[]]].
  apply Forall_app. split; [|by eapply IH].
  assert (sat (run_collect ts.*2 []) (spares (concat ts.*1).*1) (spares (concat ts.*1).*1)) as Hs.
  { apply run_collect_spares, Forall_fmap. rewrite Forall_forall in Hts |- *. intros [plan' m'] Hin.
    destruct (Hts _ Hin) as [Hsp' _]. cbn [fst snd] in *. intros v. specialize (Hsp' v). cbn [snd].
    assert (plan'.*1 ⊆ (concat ts.*1).*1) as Hsub.
    { intros q (pa & -> & Hpa)%list_elem_of_fmap. apply list_elem_of_fmap_2, list_elem_of_In, in_concat. exists plan'.
      split; [|by apply list_elem_of_In]. apply list_elem_of_In. by apply (list_elem_of_fmap_2 fst) in Hin. }
    destruct (m' v) as [[]]; by eapply spares_mono. }
  specialize (Hs w1). rewrite app_nil_l in E. rewrite E in Hs. specialize (Hh _ _ Em).
  rewrite Forall_forall in Hh |- *. intros pa Hpa. eapply holds_later; [exact Hs| |by apply Hh].
  apply Hd. by apply list_elem_of_fmap_2.
Qed.

Lemma aggregate_task (ts : list (list (path * list string) * st W unit)) :
  Forall (λ t, task t.1 t.2) ts → NoDup (concat ts.*1).*1 → task (concat ts.*1) (aggregate_concurrent ts.*2).
Proof.
  intros Ht Hn.
  assert (∀ w : W, ∃ us, us ≡ₚ ts ∧ aggregate_concurrent ts.*2 w = run_collect us.*2 [] w) as Hus.
  { intros w. exists (omap (ts !!.) (finish w (length ts))). split; [apply select_perm, finish_perm|].
    unfold aggregate_concurrent. by rewrite length_fmap, select_fmap. }
  split.
  - intros w. destruct (Hus w) as (us & Hp & ->).
    refine (run_collect_spares _ us.*2 [] _ w). apply Forall_fmap. rewrite Hp. rewrite Forall_forall in Ht |- *.
    intros t Hin. destruct (Ht t Hin) as [Hsp _]. cbn [compose]. intros v. specialize (Hsp v).
    assert (t.1.*1 ⊆ (concat ts.*1).*1) as Hsub.
    { intros q (pa & -> & Hpa)%list_elem_of_fmap. apply list_elem_of_fmap_2, list_elem_of_In, in_concat. exists t.1.
      split; [apply list_elem_of_In; by apply list_elem_of_fmap_2|by apply list_elem_of_In]. }
    destruct (t.2 v) as [[]]; by eapply spares_mono.
  - intros w w' E. destruct (Hus w) as (us & Hp & Heq). rewrite Heq in E.
    assert (concat us.*1 ≡ₚ concat ts.*1) as Hc by (by rewrite Hp).
    rewrite <- Hc. apply (run_collect_holds us w w'); [by rewrite Hp|by rewrite Hc|exact E].
Qed.

(** A name that is one element of a path. *)
Definition plain_name (n : string) : Prop := elems n = [n] ∧ n ≠ "..".
Lemma join_plain p n : plain_name n → path_join p n = (p.1, p.2 ++ [n]).
Proof. intros [He Hn]. rewrite path_join_local, He; [done|]. unfold local. rewrite He. set_solver. Qed.

(** The files of a collection, with the commands whose outputs they hold. *)
Definition node_files (rt : string) (dir : path) (n : string) : list (path * list string) :=
  let p := path_join dir n in
  node_logs rt n p ++ [(path_join p "inspect.json", [rt; "inspect"; n]); (path_join p "serial.log", [rt; "logs"; n])].
Definition collected_files (rt : string) (dir : path) (nodes : list string) : list (path * list string) :=
  (path_join dir (rt +:+ "-info.txt"), [rt; "info"]) :: concat (map (node_files rt dir) nodes).

Definition log_names : list string :=
  ["kubernetes-version.txt"; "journal.log"; "kubelet.log"; "containerd.log"; "images.log"; "inspect.json"; "serial.log"].
Lemma node_paths rt dir n : plain_name n →
  (node_files rt dir n).*1 = (λ f, (dir.1, dir.2 ++ [n; f])) <$> log_names.
Proof.
  intros Hn. unfold node_files, node_logs. cbv zeta. rewrite (join_plain dir n Hn).
  cbn [fmap list_fmap fst app log_names]. rewrite !join_plain by (split; [reflexivity|done]). cbn [fst snd].
  by rewrite <- !app_assoc.
Qed.
Lemma NoDup_node_paths rt dir n : plain_name n → NoDup (node_files rt dir n).*1.
Proof.
  intros Hn. rewrite node_paths by done. apply NoDup_fmap_2_strong.
  - intros f f' _ _ E. injection E as E. by apply app_inv_head in E as [= ->].
  - repeat (constructor; [set_solver|]). constructor.
Qed.
Lemma collected_path rt dir nodes p : Forall plain_name nodes → p ∈ (concat (map (node_files rt dir) nodes)).*1 →
  ∃ n f, n ∈ nodes ∧ p = (dir.1, dir.2 ++ [n; f]).
Proof.
  intros Hpl. induction Hpl as [|n nodes Hn Hpl IH]; cbn [map concat]; [by intros ?%not_elem_of_nil|].
  rewrite fmap_app, elem_of_app, node_paths by done. intros [(f & -> & _)%list_elem_of_fmap|(m & f & Hm & ->)%IH].
  - exists n, f. split; [by left|done].
  - exists m, f. split; [by right|done].
Qed.
Lemma NoDup_collected_paths r dir nodes : NoDup nodes → Forall plain_name nodes →
  NoDup (collected_files (program r) dir nodes).*1.
Proof.
  intros Hnd Hpl. unfold collected_files. rewrite fmap_cons. cbn [fst].
  assert (path_join dir (program r +:+ "-info.txt") = (dir.1, dir.2 ++ [program r +:+ "-info.txt"])) as -> by (by destruct r).
  constructor.
  { intros (n & f & _ & E)%collected_path; [|done]. injection E as E. by apply app_inv_head in E. }
  induction Hpl as [|n nodes Hn Hpl IH]; cbn [map concat]; [constructor|]. apply NoDup_cons in Hnd as [Hni Hnd].
  rewrite fmap_app. apply NoDup_app. split_and!; [by apply NoDup_node_paths| |by apply IH].
  rewrite node_paths by done. intros p (f & -> & _)%list_elem_of_fmap (m & f' & Hm & E)%collected_path; [|done].
  injection E as E. apply app_inv_head in E as [= -> _]. done.
Qed.

Lemma common_task rt n p : NoDup (node_logs rt n p).*1 → task (node_logs rt n p) (common_CollectLogs rt n p).
Proof.
  intros Hn. set (ts := (λ pa : path * list string, ([pa], execToPath pa.2 pa.1)) <$> node_logs rt n p).
  assert (concat ts.*1 = node_logs rt n p) as Hc by done. rewrite <- Hc in Hn |- *.
  change (common_CollectLogs rt n p) with (aggregate_concurrent ts.*2). apply aggregate_task; [|done].
  apply Forall_fmap, Forall_forall. intros [q args] _. apply exec_task.
Qed.

Definition node_tasks (rt : string) (dir : path) (n : string) : list (list (path * list string) * st W unit) :=
  let p := path_join dir n in
  [(node_logs rt n p, common_CollectLogs rt n p);
   ([(path_join p "inspect.json", [rt; "inspect"; n])], execToPath [rt; "inspect"; n] (path_join p "inspect.json"));
   ([(path_join p "serial.log", [rt; "logs"; n])], execToPath [rt; "logs"; n] (path_join p "serial.log"))].
Lemma node_tasks_task rt dir n : plain_name n → Forall (λ t, task t.1 t.2) (node_tasks rt dir n).
Proof.
  intros Hn. pose proof (NoDup_node_paths rt dir n Hn) as Hd. unfold node_files in Hd. cbv zeta in Hd.
  rewrite fmap_app in Hd. apply NoDup_app in Hd as (Hd & _ & _).
  apply Forall_cons. split; [by apply common_task|]. apply Forall_cons. split; [apply exec_task|]. apply Forall_singleton, exec_task.
Qed.

(** C37. When the logs are collected without an error, each of the files (of the runtime, and
    for every node its versions, journals, images, description and serial log) holds what its
    command printed, whatever the order in which the commands ended. *)
Theorem logs_collected r dir nodes (w w' : W) :
  NoDup nodes → Forall plain_name nodes → CollectLogs (program r) dir nodes w = (Ok tt, w') →
  Forall (holds w') (collected_files (program r) dir nodes).
Proof.
  intros Hnd Hpl. unfold CollectLogs. intros (errs & w1 & _ & E)%st_bind_Ok.
  apply st_bind_Ok in E as (res & w2 & Er & [E%aggregate_Ok ->]%pure_run). apply app_eq_nil in E as [_ E].
  set (ts := ([(path_join dir (program r +:+ "-info.txt"), [program r; "info"])],
              execToPath [program r; "info"] (path_join dir (program r +:+ "-info.txt"))) ::
             concat (map (node_tasks (program r) dir) nodes)).
  assert (concat ts.*1 = collected_files (program r) dir nodes) as Hc.
  { unfold ts, collected_files. cbn [fmap list_fmap fst concat app]. f_equal. clear. induction nodes as [|n nodes IH]; [done|].
    cbn [map concat]. rewrite fmap_app, concat_app, IH. done. }
  assert (ts.*2 = execToPath [program r; "info"] (path_join dir (program r +:+ "-info.txt")) ::
    concat (map (node_fns (program r) dir) nodes)) as Hm.
  { unfold ts. cbn [fmap list_fmap snd]. f_equal. clear. induction nodes as [|n nodes IH]; [done|].
    cbn [map concat]. rewrite fmap_app, IH. done. }
  assert (task (concat ts.*1) (aggregate_concurrent ts.*2)) as [_ Hh].
  { apply aggregate_task; [|rewrite Hc; by apply NoDup_collected_paths]. constructor; [apply exec_task|].
    clear -Hpl host_files. induction Hpl as [|n nodes Hn Hpl IH]; cbn [map concat]; [constructor|].
    apply Forall_app. split; [by apply node_tasks_task|done]. }
  rewrite <- Hc. apply (Hh w1). rewrite Hm. unfold try_ in Er.
  destruct (aggregate_concurrent _ w1) as [[[]|e|x] w3]; simplify_eq/=; done.
Qed.
End collected.

(** ** Two nodes *)

Module DemoLogs.
Record world := mkWorld { wo_files : fs }.
#[export] Instance has_files : HasFiles world.
Proof. refine {| files := wo_files; set_files := λ f _, mkWorld f |}. done. Defined.
(** A command prints its arguments, and to the other output. *)
Definition host (args : list string) (_ : option string) (w : world) : outcome * world :=
  (mkOutcome (Join args " ") (Join args " " +:+ "!") (if str_in "kubelet.service" args && str_in "broken" args then Some "exit status 1" else None), w).
#[export] Instance exec : HostExec world := {| Exec.host := host; shell_Quote := λ s, s |}.
(** The last function ends first. *)
#[export] Instance schedule : Schedule world.
Proof. refine {| finish := λ _ n, rev (seq 0 n); late := λ _ _, 0%nat |}. intros _ n. symmetry. apply Permutation_rev. Defined.
#[export] Instance tar : TarReader := {| tar_entries := λ _, DemoTar.stream |}.
Definition dir : path := Clean "/out".
Definition run (nodes : list string) : res unit * world := CollectLogs "docker" dir nodes (mkWorld ∅).
Definition at_ (w : world) (p : string) : option file := wo_files w !! Clean p.
End DemoLogs.

Lemma logs_collected_witness :
  Forall (@holds DemoLogs.world DemoLogs.has_files DemoLogs.exec (snd (DemoLogs.run ["demo-worker"; "demo-control-plane"])))
    (collected_files "docker" DemoLogs.dir ["demo-worker"; "demo-control-plane"]).
Proof.
  apply (@logs_collected DemoLogs.world DemoLogs.has_files DemoLogs.exec DemoLogs.schedule DemoLogs.tar (λ _ _ _, eq_refl) DockerRuntime DemoLogs.dir
    ["demo-worker"; "demo-control-plane"] (DemoLogs.mkWorld ∅)).
  - repeat constructor; set_solver.
  - repeat constructor; done.
  - assert (fst (DemoLogs.run ["demo-worker"; "demo-control-plane"]) = Ok tt) as <- by (vm_compute; reflexivity).
    apply surjective_pairing.
Defined.
Example logs_of_broken_node :
  let '(r, w) := DemoLogs.run ["broken"] in
  is_Ok r = false ∧ DemoLogs.at_ w "/out/broken/inspect.json" = Some (File "docker inspect broken!") ∧
  DemoLogs.at_ w "/out/broken/pods/a.log" = Some (File "one").
Proof. vm_compute. done. Qed.
