(* ===== verification/NodeManifests.v ===== *)
(** * The manifests of the node image

    src/pkg/build/nodeimage/{const.go,const_cni.go,const_storage.go}: the manifests of the
    default network plugin and of the default storage, which are written into the image, and
    the images that are pulled for them.  Shown: the images that a manifest names are among
    those that are pulled for it. *)

From S2P Require Import Prelude GoStr Patch.
Local Open Scope go_scope.
Local Open Scope stdpp_scope.

Definition defaultCNIManifestLocation : string := "/kind/manifests/default-cni.yaml".
Definition defaultStorageManifestLocation : string := "/kind/manifests/default-storage.yaml".

Definition kindnetdImage : string := "docker.io/kindest/kindnetd:v20250512-df8de77b".
Definition defaultCNIImages : list string := [kindnetdImage].
Definition defaultCNIManifest : string := js "
# kindnetd networking manifest
# would you kindly template this file
# would you kindly patch this file
---
kind: ClusterRole
apiVersion: rbac.authorization.k8s.io/v1
metadata:
  name: kindnet
rules:
  - apiGroups:
    - policy
    resources:
    - podsecuritypolicies
    verbs:
    - use
    resourceNames:
    - kindnet
  - apiGroups:
      - ``
    resources:
      - nodes
    verbs:
      - list
      - watch
---
kind: ClusterRoleBinding
apiVersion: rbac.authorization.k8s.io/v1
metadata:
  name: kindnet
roleRef:
  apiGroup: rbac.authorization.k8s.io
  kind: ClusterRole
  name: kindnet
subjects:
- kind: ServiceAccount
  name: kindnet
  namespace: kube-system
---
apiVersion: v1
kind: ServiceAccount
metadata:
  name: kindnet
  namespace: kube-system
---
apiVersion: apps/v1
kind: DaemonSet
metadata:
  name: kindnet
  namespace: kube-system
  labels:
    tier: node
    app: kindnet
    k8s-app: kindnet
spec:
  selector:
    matchLabels:
      app: kindnet
  template:
    metadata:
      labels:
        tier: node
        app: kindnet
        k8s-app: kindnet
    spec:
      hostNetwork: true
      tolerations:
      - operator: Exists
      serviceAccountName: kindnet
      containers:
      - name: kindnet-cni
        image: " +:+ kindnetdImage +:+ js "
        env:
        - name: HOST_IP
          valueFrom:
            fieldRef:
              fieldPath: status.hostIP
        - name: POD_IP
          valueFrom:
            fieldRef:
              fieldPath: status.podIP
        - name: POD_SUBNET
          value: {{ .PodSubnet }}
        volumeMounts:
        - name: cni-cfg
          mountPath: /etc/cni/net.d
        - name: xtables-lock
          mountPath: /run/xtables.lock
          readOnly: false
        - name: lib-modules
          mountPath: /lib/modules
          readOnly: true
        resources:
          requests:
            cpu: `100m`
            memory: `50Mi`
          limits:
            cpu: `100m`
            memory: `50Mi`
        securityContext:
          privileged: false
          capabilities:
            add: [`NET_RAW`, `NET_ADMIN`]
      volumes:
      - name: cni-cfg
        hostPath:
          path: /etc/cni/net.d
      - name: xtables-lock
        hostPath:
          path: /run/xtables.lock
          type: FileOrCreate
      - name: lib-modules
        hostPath:
          path: /lib/modules
---
".

Definition storageProvisionerImage : string := "docker.io/kindest/local-path-provisioner:v20260820-69b56db7".
Definition storageHelperImage : string := "docker.io/kindest/local-path-helper:v20220607-9a4d8d2a".
Definition defaultStorageImages : list string := [storageProvisionerImage; storageHelperImage].
Definition defaultStorageManifest : string := js "
apiVersion: v1
kind: Namespace
metadata:
  name: local-path-storage

---
apiVersion: v1
kind: ServiceAccount
metadata:
  name: local-path-provisioner-service-account
  namespace: local-path-storage

---
apiVersion: rbac.authorization.k8s.io/v1
kind: ClusterRole
metadata:
  name: local-path-provisioner-role
rules:
  - apiGroups: [ `` ]
    resources: [ `nodes`, `persistentvolumeclaims`, `configmaps` ]
    verbs: [ `get`, `list`, `watch` ]
  - apiGroups: [ `` ]
    resources: [ `endpoints`, `persistentvolumes`, `pods` ]
    verbs: [ `*` ]
  - apiGroups: [ `` ]
    resources: [ `events` ]
    verbs: [ `create`, `patch` ]
  - apiGroups: [ `storage.k8s.io` ]
    resources: [ `storageclasses` ]
    verbs: [ `get`, `list`, `watch` ]

---
apiVersion: rbac.authorization.k8s.io/v1
kind: ClusterRoleBinding
metadata:
  name: local-path-provisioner-bind
roleRef:
  apiGroup: rbac.authorization.k8s.io
  kind: ClusterRole
  name: local-path-provisioner-role
subjects:
  - kind: ServiceAccount
    name: local-path-provisioner-service-account
    namespace: local-path-storage

---
apiVersion: apps/v1
kind: Deployment
metadata:
  name: local-path-provisioner
  namespace: local-path-storage
spec:
  replicas: 1
  selector:
    matchLabels:
      app: local-path-provisioner
  template:
    metadata:
      labels:
        app: local-path-provisioner
    spec:
      nodeSelector:
        kubernetes.io/os: linux
      # TODO: Remove the `master` taint after kubeadm nodes no longer have it.
      # This can be done once kind no longer supports kubeadm 1.24.
      # https://github.com/kubernetes-sigs/kind/issues/1699
      tolerations:
      - key: node-role.kubernetes.io/control-plane
        operator: Equal
        effect: NoSchedule
      - key: node-role.kubernetes.io/master
        operator: Equal
        effect: NoSchedule
      serviceAccountName: local-path-provisioner-service-account
      containers:
        - name: local-path-provisioner
          image: " +:+ storageProvisionerImage +:+ js "
          imagePullPolicy: IfNotPresent
          command:
            - local-path-provisioner
            - --debug
            - start
            - --helper-image
            - " +:+ storageHelperImage +:+ js "
            - --config
            - /etc/config/config.json
          volumeMounts:
            - name: config-volume
              mountPath: /etc/config/
          env:
            - name: POD_NAMESPACE
              valueFrom:
                fieldRef:
                  fieldPath: metadata.namespace
      volumes:
        - name: config-volume
          configMap:
            name: local-path-config

---
apiVersion: storage.k8s.io/v1
kind: StorageClass
metadata:
  name: standard
  namespace: kube-system
  annotations:
    storageclass.kubernetes.io/is-default-class: `true`
allowVolumeExpansion: true
provisioner: rancher.io/local-path
volumeBindingMode: WaitForFirstConsumer
reclaimPolicy: Delete

---
kind: ConfigMap
apiVersion: v1
metadata:
  name: local-path-config
  namespace: local-path-storage
data:
  config.json: |-
    {
            `nodePathMap`:[
            {
                    `node`:`DEFAULT_PATH_FOR_NON_LISTED_NODES`,
                    `paths`:[`/var/local-path-provisioner`]
            }
            ]
    }
  setup: |-
    #!/bin/sh
    set -eu
    mkdir -m 0777 -p `$VOL_DIR`
  teardown: |-
    #!/bin/sh
    set -eu
    rm -rf `$VOL_DIR`
  helperPod.yaml: |-
    apiVersion: v1
    kind: Pod
    metadata:
      name: helper-pod
    spec:
      containers:
      - name: helper-pod
        image: " +:+ storageHelperImage +:+ js "
        imagePullPolicy: IfNotPresent
".

(** ** The images of a manifest *)

(** What stands behind a key, on its line. *)
Definition manifest_images (manifest : string) : list string :=
  omap (λ line, snd <$> cut "image: " line) (Split manifest newline).

Lemma defaultCNIManifest_images : manifest_images defaultCNIManifest = defaultCNIImages.
Proof. vm_compute. reflexivity. Qed.
(** The image of the helper is that of a pod in a text of the manifest. *)
Lemma defaultStorageManifest_images : manifest_images defaultStorageManifest = defaultStorageImages.
Proof. vm_compute. reflexivity. Qed.
