(* ===== verification/NodeImage.v ===== *)
(** * Building the image of the nodes

    src/pkg/build/nodeimage with its packages internal/container/docker and internal/kube: the
    build of Kubernetes, the container in which the image is put together, the archives of
    images whose repositories are renamed as they are loaded, and the images that are pulled
    because the archives do not have them.  Shown: the set of images that are taken to be
    built is that of the tags that the archives have once they are renamed; and how an image
    is split into its repository and its tag. *)

From S2P Require Import Prelude GoStr KeosTypes Patch.
Local Open Scope Z_scope.
Local Open Scope go_scope.
Local Open Scope stdpp_scope.

(** ** internal/container/docker *)

(** [strings.IndexByte]. *)
Fixpoint IndexByte (s : string) (c : Ascii.ascii) : Z :=
  match s with
  | "" => -1
  | String d s => if Ascii.eqb d c then 0 else let i := IndexByte s c in if i =? -1 then -1 else 1 + i
  end.
(** [s[:i]] and [s[i:]], for [i] up to the length. *)
Definition slice_to (s : string) (i : Z) : res string :=
  if i <? 0 then Panic ("runtime error: slice bounds out of range [:" +:+ Itoa i +:+ "]")
  else Ok (String.substring 0 (Z.to_nat i) s).
Definition slice_from (s : string) (i : Z) : string :=
  String.substring (Z.to_nat i) (String.length s - Z.to_nat i) s.

Definition SplitImage (image : string) : res (string * string) :=
  let firstColon := IndexByte image ":" in
  let firstAt := IndexByte image "@" in
  let len := slen image in
  if (firstColon =? 0) || (firstAt =? 0) || (firstColon + 1 =? len) || (firstAt + 1 =? len)
  then Err ("unexpected image: " +:+ Q image)
  else if (firstColon =? -1) && (firstAt =? -1) then Ok (image, "latest")
  else if negb (firstAt =? -1) && (firstAt <? firstColon)
  then name ← slice_to image firstAt; Ok (name, "latest" +:+ slice_from image firstAt)
  else name ← slice_to image firstColon; Ok (name, slice_from image (firstColon + 1)).

(** *** Archives *)

(** The entries of an archive that could be read, with their names, and how it ends. *)
Definition archive : Type := list (string * string) * res unit.
(** repository, tag, reference. *)
Abbreviation archiveRepositories := (gmap string (gmap string string)).
Record metadataEntry := mkMetadataEntry { me_Config : string; me_RepoTags : list string; me_Layers : list string }.

(** JSON, and the order in which the repositories of a map are gone through. *)
Class ArchiveLibs := {
  repositories_decode : string → res archiveRepositories;
  repositories_encode : archiveRepositories → res string;
  manifest_decode : string → res (list metadataEntry);
  manifest_encode : list metadataEntry → res string;
  entry_text : metadataEntry → string;                     (* the %s format *)
  config_decode : string → res (gmap string value);
  config_encode : gmap string value → res string;
  repositories_order : archiveRepositories → list (string * gmap string string);
  repositories_order_perm m : repositories_order m ≡ₚ map_to_list m
}.

Section archives.
Context `{ArchiveLibs}.

Definition tags_of (repoTags : archiveRepositories) : list string :=
  concat (map (λ '(repo, tags), map (λ t, repo +:+ ":" +:+ t.1) (map_to_list tags)) (repositories_order repoTags)).
(** The first entry of that name; an archive may break off before it. *)
Definition GetArchiveTags (a : archive) : res (list string) :=
  match List.find (λ e, e.1 =s "repositories") a.1 with
  | Some (_, b) => repoTags ← repositories_decode b; Ok (tags_of repoTags)
  | None => a.2 ;; Err "could not find image metadata"
  end.

Definition editConfigArchitecture (raw architectureOverride : string) : res string :=
  cfg ← config_decode raw;
  match cfg !! "architecture" with
  | Some _ => config_encode (<["architecture" := VStr architectureOverride]> cfg)
  | None => Ok raw
  end.
(** Of two repositories that get the same name, the one that comes last stays. *)
Definition edit_repositories (editRepositories : string → string) (tags : archiveRepositories) : archiveRepositories :=
  fold_left (λ fixed '(repository, tagsToRefs), <[editRepositories repository := tagsToRefs]> fixed)
    (repositories_order tags) ∅.
Definition editRepositoriesFile (editRepositories : string → string) (raw : string) : res string :=
  tags ← repositories_decode raw;
  repositories_encode (edit_repositories editRepositories tags).

Definition edit_tag (editRepositories : string → string) (entry : metadataEntry) (tag : string) : res string :=
  match Split tag ":" with
  | repository :: parts =>
      fail_when (Nat.ltb 1 (length parts)) ("invalid repotag: " +:+ entry_text entry) ;;
      Ok (Join (editRepositories repository :: parts) ":")
  | [] => Ok ""
  end.
Definition editManifestRepositories (editRepositories : string → string) (raw : string) : res string :=
  entries ← manifest_decode raw;
  entries ← collect (λ entry,
    tags ← collect (edit_tag editRepositories entry) (me_RepoTags entry);
    Ok (mkMetadataEntry (me_Config entry) tags (me_Layers entry))) entries;
  manifest_encode entries.

Definition edit_entry (editRepositories : string → string) (architectureOverride : string) (e : string * string) : res (string * string) :=
  let '(name, b) := e in
  b ← (if name =s "repositories" then editRepositoriesFile editRepositories b
       else if name =s "manifest.json" then editManifestRepositories editRepositories b
       else if HasSuffix name ".json" && (architectureOverride <>s "") then editConfigArchitecture b architectureOverride
       else Ok b);
  Ok (name, b).
(** What is written until the first error, and that error. *)
Fixpoint edit_entries (editRepositories : string → string) (architectureOverride : string) (l : list (string * string))
    (end_ : res unit) : archive :=
  match l with
  | [] => ([], end_)
  | e :: l =>
      match edit_entry editRepositories architectureOverride e with
      | Ok e => let '(es, r) := edit_entries editRepositories architectureOverride l end_ in (e :: es, r)
      | Err x => ([], Err x)
      | Panic x => ([], Panic x)
      end
  end.
Definition EditArchive (a : archive) (editRepositories : string → string) (architectureOverride : string) : archive :=
  edit_entries editRepositories architectureOverride a.1 a.2.

(** ** Names of images *)

(** The suffix of the architecture is dropped from the name of a repository. *)
Definition fixRepository (arch repository : string) : string :=
  let archSuffix := "-" +:+ arch in
  if HasSuffix repository archSuffix then TrimSuffix repository archSuffix else repository.

Fixpoint getBuiltImages (archives : list (res archive)) : res (gset string) :=
  match archives with
  | [] => Ok ∅
  | a :: archives => a ← a; tags ← GetArchiveTags a; rest ← getBuiltImages archives; Ok (list_to_set tags ∪ rest)
  end.
(** A set is gone through in order; the order of the errors aside, that is no matter. *)
Definition fix_images (arch : string) (images : gset string) : res (gset string) :=
  fixed ← collect (λ image,
    '(registry, tag) ← SplitImage image;
    Ok (fixRepository arch registry +:+ ":" +:+ tag)) (elements images);
  Ok (list_to_set fixed).

Definition is_space_char (c : Ascii.ascii) : bool := existsb (Nat.eqb (Ascii.nat_of_ascii c)) [9; 10; 12; 13; 32]%nat.
Fixpoint skip_spaces (s : string) : string :=
  match s with String c t => if is_space_char c then skip_spaces t else s | "" => "" end.
(** Before the last quote of a text. *)
Fixpoint before_last_quote (s : string) : option string :=
  match s with
  | "" => None
  | String c s =>
      match before_last_quote s with
      | Some t => Some (String c t)
      | None => if Ascii.eqb c (Ascii.ascii_of_nat 34) then Some "" else None
      end
  end.
Definition first_line (s : string) : string := match cut_at (Ascii.ascii_of_nat 10) s with Some (l, _) => l | None => s end.
Definition spaced (s : string) : option string :=
  match s with String c t => if is_space_char c then Some (skip_spaces t) else None | "" => None end.
(** The value behind the key at the start of a text: white space around [=], and what is
    between the first quote and the last one of the line. *)
Definition sandbox_at (s : string) : option string :=
  if negb (HasPrefix s "sandbox_image") then None else
  s ← spaced (slice_from s 13);
  match s with
  | String "=" s =>
      s ← spaced s;
      match s with
      | String q s =>
          if negb (Ascii.eqb q (Ascii.ascii_of_nat 34)) then None else
          image ← before_last_quote (first_line s);
          if image =s "" then None else Some image
      | "" => None
      end
  | _ => None
  end.
Fixpoint find_sandbox (s : string) : option string :=
  match sandbox_at s with
  | Some image => Some image
  | None => match s with "" => None | String _ s => find_sandbox s end
  end.
Definition findSandboxImage (config : string) : res string :=
  match find_sandbox config with Some image => Ok image | None => Err "failed to parse sandbox_image from config" end.
End archives.

Example images_split :
  map SplitImage ["alpine"; "alpine:latest"; "alpine@sha256:28ef"; "k8s.gcr.io/coredns:1.1.3@sha256:28ef"; ":"; "a@"; "localhost:5000/x";
    "alpine@latest"] =
  [Ok ("alpine", "latest"); Ok ("alpine", "latest"); Ok ("alpine", "latest@sha256:28ef");
   Ok ("k8s.gcr.io/coredns", "1.1.3@sha256:28ef"); Err (js "unexpected image: `:`"); Err (js "unexpected image: `a@`");
   Ok ("localhost", "5000/x"); Panic "runtime error: slice bounds out of range [:-1]"].
Proof. vm_compute. reflexivity. Qed.
Example sandbox_found :
  findSandboxImage (js "a = `b`
  sandbox_image   = `registry.k8s.io/pause:3.7` # `x`
c") = Ok (js "registry.k8s.io/pause:3.7` # `x").
Proof. vm_compute. reflexivity. Qed.

(** ** How an image is split *)

Lemma IndexByte_none s c : ¬ char_in c s → IndexByte s c = -1.
Proof.
  induction s as [|d s IH]; intros Hs; [done|]. rewrite char_in_cons in Hs. cbn [IndexByte].
  destruct (Ascii.eqb_spec d c) as [->|Hne]; [tauto|]. by rewrite IH by tauto.
Qed.
Lemma IndexByte_first s c t : ¬ char_in c s → IndexByte (s +:+ String c t) c = slen s.
Proof.
  induction s as [|d s IH]; intros Hs; [cbn [IndexByte String.append]; by rewrite Ascii.eqb_refl|].
  rewrite char_in_cons in Hs. cbn [IndexByte String.append].
  destruct (Ascii.eqb_spec d c) as [->|Hne]; [tauto|]. rewrite IH by tauto. unfold slen. cbn [String.length].
  rewrite (proj2 (Z.eqb_neq _ _)) by lia. lia.
Qed.
Lemma IndexByte_bounds s c : -1 ≤ IndexByte s c < slen s ∨ s = "" ∧ IndexByte s c = -1.
Proof.
  induction s as [|d s IH]; [by right|]. left. cbn [IndexByte]. unfold slen in *. cbn [String.length].
  destruct (Ascii.eqb d c); [lia|]. destruct (Z.eqb_spec (IndexByte s c) (-1)); [lia|].
  destruct IH as [?|[-> E]]; [lia|by rewrite E in *].
Qed.
Lemma slice_to_app s t : slice_to (s +:+ t) (slen s) = Ok s.
Proof.
  unfold slice_to, slen. rewrite (proj2 (Z.ltb_ge _ _)) by lia. by rewrite Nat2Z.id, substring_app.
Qed.
Lemma slice_from_app s t : slice_from (s +:+ t) (slen s) = t.
Proof.
  unfold slice_from, slen. rewrite Nat2Z.id. apply substring_behind.
  rewrite <- (Nat2Z.id (_ - _)). fold (slen s). pose proof (slen_app s t) as E. unfold slen in *. lia.
Qed.
Lemma slice_from_after s c t : slice_from (s +:+ String c t) (slen s + 1) = t.
Proof.
  assert (s +:+ String c t = (s +:+ String c "") +:+ t) as -> by (by rewrite string_app_assoc).
  replace (slen s + 1) with (slen (s +:+ String c "")) by (rewrite slen_app; reflexivity). apply slice_from_app.
Qed.

Lemma slen_String c s : slen (String c s) = 1 + slen s.
Proof. unfold slen. cbn [String.length]. lia. Qed.
Lemma slen_nonneg s : 0 ≤ slen s.
Proof. unfold slen. lia. Qed.
(** Comparisons of integers that are settled by the context. *)
Ltac decide_ints :=
  repeat match goal with
         | |- context [?a =? ?b] => first [rewrite (proj2 (Z.eqb_neq a b)) by lia | rewrite (proj2 (Z.eqb_eq a b)) by lia]
         | |- context [?a <? ?b] => first [rewrite (proj2 (Z.ltb_ge a b)) by lia | rewrite (proj2 (Z.ltb_lt a b)) by lia]
         end; cbn [orb andb negb].

(** A text in which there is neither [:] nor [@]. *)
Definition plain_name (s : string) : Prop := s ≠ "" ∧ ¬ char_in ":" s ∧ ¬ char_in "@" s.

Lemma slen_pos s : s ≠ "" → 0 < slen s.
Proof. destruct s; [done|]. intros _. unfold slen. cbn [String.length]. lia. Qed.

Lemma split_named name tag : plain_name name → tag ≠ "" → ¬ char_in "@" tag → SplitImage (name +:+ ":" +:+ tag) = Ok (name, tag).
Proof.
  intros (Hne & Hc & Ha) Ht Hta. pose proof (slen_pos name Hne). change (":" +:+ tag) with (String ":" tag).
  pose proof (slen_pos tag Ht). unfold SplitImage.
  rewrite IndexByte_first, IndexByte_none; [|rewrite char_in_app, char_in_cons; naive_solver|done].
  rewrite slen_app, slen_String. decide_ints. by rewrite slice_to_app, slice_from_after.
Qed.

(** An image is split into the name of its repository and its tag, which is [latest] when
    there is none; a digest counts to the tag.  An [@] without a colon behind it makes the
    function panic. *)
Theorem SplitImage_spec name : plain_name name →
  SplitImage name = Ok (name, "latest") ∧
  (∀ tag, tag ≠ "" → ¬ char_in "@" tag → SplitImage (name +:+ ":" +:+ tag) = Ok (name, tag)) ∧
  (∀ tag digest, ¬ char_in "@" tag → digest ≠ "" →
     SplitImage (name +:+ ":" +:+ tag +:+ "@" +:+ digest) = Ok (name, tag +:+ "@" +:+ digest)) ∧
  (∀ algorithm hex, ¬ char_in ":" algorithm → hex ≠ "" →
     SplitImage (name +:+ "@" +:+ algorithm +:+ ":" +:+ hex) = Ok (name, "latest@" +:+ algorithm +:+ ":" +:+ hex)) ∧
  (∀ digest, digest ≠ "" → ¬ char_in ":" digest → ∃ why, SplitImage (name +:+ "@" +:+ digest) = Panic why).
Proof.
  intros (Hne & Hc & Ha). pose proof (slen_pos name Hne) as Hpos.
  assert (Hin : ∀ c s, ¬ char_in c name → c ≠ ":"%char → ¬ char_in c s → ¬ char_in c (name +:+ String ":" s))
    by (intros c s Hn Hcc Hs; rewrite char_in_app, char_in_cons; naive_solver).
  split_and!.
  - unfold SplitImage. rewrite !IndexByte_none by done. by decide_ints.
  - intros tag Ht Hta. by apply split_named.
  - intros tag digest Hta Hd. change (":" +:+ tag +:+ "@" +:+ digest) with (String ":" (tag +:+ String "@" digest)).
    pose proof (slen_pos digest Hd). pose proof (slen_nonneg tag). unfold SplitImage. rewrite IndexByte_first by done.
    assert (IndexByte (name +:+ String ":" (tag +:+ String "@" digest)) "@" = slen name + 1 + slen tag) as ->.
    { assert (name +:+ String ":" (tag +:+ String "@" digest) = (name +:+ String ":" tag) +:+ String "@" digest) as ->
        by (by rewrite string_app_assoc).
      rewrite IndexByte_first by auto. rewrite slen_app, slen_String. lia. }
    rewrite slen_app, slen_String, slen_app, slen_String.
    decide_ints. by rewrite slice_to_app, slice_from_after.
  - intros alg hex Halg Hh. change ("@" +:+ alg +:+ ":" +:+ hex) with (String "@" (alg +:+ String ":" hex)).
    pose proof (slen_pos hex Hh). pose proof (slen_nonneg alg). unfold SplitImage. rewrite (IndexByte_first name "@") by done.
    assert (IndexByte (name +:+ String "@" (alg +:+ String ":" hex)) ":" = slen name + 1 + slen alg) as ->.
    { assert (name +:+ String "@" (alg +:+ String ":" hex) = (name +:+ String "@" alg) +:+ String ":" hex) as ->
        by (by rewrite string_app_assoc).
      rewrite IndexByte_first; [rewrite slen_app, slen_String; lia|].
      rewrite char_in_app, char_in_cons. naive_solver. }
    rewrite slen_app, slen_String, slen_app, slen_String.
    decide_ints. by rewrite slice_to_app, slice_from_app.
  - intros digest Hd Hdc. change ("@" +:+ digest) with (String "@" digest). pose proof (slen_pos digest Hd).
    unfold SplitImage. rewrite IndexByte_first, IndexByte_none; [|rewrite char_in_app, char_in_cons; naive_solver|done].
    rewrite slen_app, slen_String. decide_ints. eauto.
Qed.
Lemma SplitImage_spec_witness :
  SplitImage ("alpine" +:+ "@" +:+ "sha256" +:+ ":" +:+ "28ef") = Ok ("alpine", "latest@" +:+ "sha256" +:+ ":" +:+ "28ef") ∧
  ∃ why, SplitImage ("alpine" +:+ "@" +:+ "latest") = Panic why.
Proof.
  destruct (SplitImage_spec "alpine") as (_ & _ & _ & Hd & Hp).
  - split; [done|]. split; by apply (bool_decide_eq_false (char_in _ _)).
  - split; [apply Hd; [by apply (bool_decide_eq_false (char_in _ _))|done]|].
    apply Hp; [done|by apply (bool_decide_eq_false (char_in _ _))].
Defined.

(** ** The images that are taken to be built *)

(** A name without a colon is told from what is behind it. *)
Lemma same_split a b s t : ¬ char_in ":" a → ¬ char_in ":" b → a +:+ ":" +:+ s = b +:+ ":" +:+ t → a = b ∧ s = t.
Proof.
  intros Ha Hb E. assert (∀ x y, ¬ char_in ":" x → cut_at ":" (x +:+ ":" +:+ y) = Some (x, y)) as Hcut.
  { clear. intros x y. induction x as [|c x IH]; intros Hx; [done|]. rewrite char_in_cons in Hx. cbn [cut_at String.append].
    destruct (Ascii.eqb_spec ":" c) as [<-|Hne]; [tauto|]. specialize (IH ltac:(tauto)). cbn [String.append] in IH. by rewrite IH. }
  pose proof (Hcut a s Ha) as H1. rewrite E, Hcut in H1 by done. by injection H1.
Qed.

Section built.
Context `{ArchiveLibs}.

(** The texts of JSON: what is written is read again, for names of ASCII characters. *)
Definition ascii_text (s : string) : Prop := all_chars (λ c, Nat.ltb (Ascii.nat_of_ascii c) 128) s = true.
Class ArchiveLaws := {
  repositories_roundtrip m raw :
    (∀ repo tags, m !! repo = Some tags → ascii_text repo) →
    repositories_encode m = Ok raw → repositories_decode raw = Ok m
}.
Context `{!ArchiveLaws}.

Lemma tags_of_spec m i : i ∈ tags_of m ↔
  ∃ repo tags tag ref, m !! repo = Some tags ∧ tags !! tag = Some ref ∧ i = repo +:+ ":" +:+ tag.
Proof.
  unfold tags_of. rewrite list_elem_of_In, in_concat. setoid_rewrite in_map_iff. split.
  - intros (l & ([repo tags] & <- & Hr) & Hi). apply in_map_iff in Hi as ([tag ref] & <- & Ht).
    apply list_elem_of_In in Hr, Ht. rewrite repositories_order_perm in Hr. apply elem_of_map_to_list in Hr, Ht. naive_solver.
  - intros (repo & tags & tag & ref & Hr & Ht & ->). eexists. split.
    + exists (repo, tags). split; [done|]. apply list_elem_of_In. rewrite repositories_order_perm. by apply elem_of_map_to_list.
    + apply in_map_iff. exists (tag, ref). split; [done|]. apply list_elem_of_In. by apply elem_of_map_to_list.
Qed.

(** When no two repositories get the same name, every repository is found under its new one. *)
Definition distinct (f : string → string) (m : archiveRepositories) : Prop :=
  ∀ r1 r2, is_Some (m !! r1) → is_Some (m !! r2) → f r1 = f r2 → r1 = r2.

Lemma edit_fold f (l : list (string * gmap string string)) (acc : archiveRepositories) k tags :
  NoDup (f ∘ fst <$> l) →
  fold_left (λ fixed '(r, t), <[f r := t]> fixed) l acc !! k = Some tags ↔
  (∃ r, (r, tags) ∈ l ∧ f r = k) ∨ (∀ r t, (r, t) ∈ l → f r ≠ k) ∧ acc !! k = Some tags.
Proof.
  revert acc. induction l as [|[r t] l IH]; intros acc Hn; cbn [fold_left].
  - split; [by intros ?; right; split; [intros ?? ?%not_elem_of_nil|]|].
    by intros [(? & ?%not_elem_of_nil & _)|[_ ?]].
  - rewrite fmap_cons in Hn. apply NoDup_cons in Hn as [Hf Hn]. rewrite IH by done.
    assert (∀ r' t', (r', t') ∈ l → f r' ≠ f r) as Hother.
    { intros r' t' Hin E. apply Hf. rewrite list_elem_of_fmap. exists (r', t'). by split. }
    setoid_rewrite elem_of_cons. destruct (decide (f r = k)) as [<-|Hk].
    + rewrite lookup_insert_eq. naive_solver.
    + rewrite lookup_insert_ne by done. naive_solver.
Qed.

Lemma edit_repositories_lookup f m k tags : distinct f m →
  edit_repositories f m !! k = Some tags ↔ ∃ r, m !! r = Some tags ∧ f r = k.
Proof.
  intros Hd. unfold edit_repositories. rewrite edit_fold.
  - setoid_rewrite repositories_order_perm. setoid_rewrite elem_of_map_to_list. rewrite lookup_empty. naive_solver.
  - rewrite repositories_order_perm. assert (∀ l : list (string * gmap string string),
      NoDup l.*1 → (∀ r t, (r, t) ∈ l → m !! r = Some t) → NoDup (f ∘ fst <$> l)) as Hgen.
    { induction l as [|[r t] l IH]; intros Hn Hl; [constructor|]. rewrite fmap_cons in Hn |- *.
      apply NoDup_cons in Hn as [Hr Hn]. apply NoDup_cons. split.
      - rewrite list_elem_of_fmap. intros ([r' t'] & E & Hin). simpl in E.
        apply Hr, list_elem_of_fmap. exists (r', t'). split; [|done]. simpl. symmetry.
        apply Hd; [eexists; apply Hl; by right|eexists; apply Hl; by left|done].
      - apply IH; [done|]. intros r' t' Hin. apply Hl. by right. }
    apply Hgen; [apply NoDup_fst_map_to_list|]. intros r t. by rewrite elem_of_map_to_list.
Qed.

(** *** Archives that are edited *)

Definition is_repositories (e : string * string) : bool := e.1 =s "repositories".
Lemma edit_entry_name f arch e e' : edit_entry f arch e = Ok e' → e'.1 = e.1.
Proof. destruct e as [n b]. unfold edit_entry. intros (b' & _ & [= <-])%bind_Ok_iff. done. Qed.

Lemma edited_repositories f arch l end_ es : edit_entries f arch l end_ = (es, Ok tt) →
  match List.find is_repositories l with
  | Some (_, b) => ∃ n b', editRepositoriesFile f b = Ok b' ∧ List.find is_repositories es = Some (n, b')
  | None => List.find is_repositories es = None
  end.
Proof.
  revert es. induction l as [|e l IH]; cbn [edit_entries]; intros es; [by intros [= <- _]|].
  destruct (edit_entry f arch e) as [e'|x|x] eqn:Ee; [|done..].
  destruct (edit_entries f arch l end_) as [es' r] eqn:El. intros [= <- ->]. specialize (IH es' eq_refl).
  pose proof (edit_entry_name _ _ _ _ Ee) as Hn. cbn [List.find]. unfold is_repositories at 1 3 5. rewrite Hn.
  destruct (e.1 =s "repositories") eqn:Er; [|done].
  destruct e as [n b]. simpl in Er. unfold edit_entry in Ee. rewrite Er in Ee.
  apply bind_Ok_iff in Ee as (b' & Eb & [= <-]). eauto.
Qed.

(** What is asked of an archive: no two of its repositories get the same name, and its
    names can be split again. *)
Definition well_named (arch : string) (a : archive) : Prop :=
  ∀ n b m, List.find is_repositories a.1 = Some (n, b) → repositories_decode b = Ok m →
    distinct (fixRepository arch) m ∧
    ∀ repo tags, m !! repo = Some tags → plain_name repo ∧ ascii_text repo ∧
      ∀ tag, is_Some (tags !! tag) → tag ≠ "" ∧ ¬ char_in "@" tag.
Definition edited (arch : string) (a : archive) : archive := EditArchive a (fixRepository arch) arch.

Lemma GetArchiveTags_spec a tags : GetArchiveTags a = Ok tags ↔
  ∃ n b m, List.find is_repositories a.1 = Some (n, b) ∧ repositories_decode b = Ok m ∧ tags = tags_of m.
Proof.
  unfold GetArchiveTags. change (λ e : string * string, e.1 =s "repositories") with is_repositories.
  destruct (List.find is_repositories a.1) as [[n b]|].
  - rewrite bind_Ok_iff. split; [intros (m & ? & [= <-]); eauto 6|intros (? & ? & m & [= <- <-] & ? & ->); eauto].
  - split; [|by intros (? & ? & ? & ? & _)]. rewrite bind_Ok_iff. by intros (? & _ & ?).
Qed.

Lemma all_chars_substring p n m s : all_chars p s = true → all_chars p (String.substring n m s) = true.
Proof.
  revert n m. induction s as [|c s IH]; intros n m; [by destruct n, m|]. cbn [all_chars]. intros [Hc Hs]%andb_true_iff.
  destruct n as [|n]; [|by apply IH]. destruct m as [|m]; [done|]. cbn [String.substring all_chars]. by rewrite Hc, IH.
Qed.
Lemma fixRepository_ascii arch repo : ascii_text repo → ascii_text (fixRepository arch repo).
Proof. intros Hr. unfold fixRepository, TrimSuffix. destruct (HasSuffix _ _); [by apply all_chars_substring|done]. Qed.

(** The tags of the archive as it is loaded. *)
Lemma edited_tags arch a tags : well_named arch a → (edited arch a).2 = Ok tt → GetArchiveTags a = Ok tags →
  ∃ tags', GetArchiveTags (edited arch a) = Ok tags' ∧
    ∀ i, i ∈ tags' ↔ ∃ repo tag, plain_name repo ∧ tag ≠ "" ∧ ¬ char_in "@" tag ∧
      repo +:+ ":" +:+ tag ∈ tags ∧ i = fixRepository arch repo +:+ ":" +:+ tag.
Proof.
  intros Hw He (n & b & m & Hf & Hm & ->)%GetArchiveTags_spec. destruct (Hw n b m Hf Hm) as [Hd Hnames].
  unfold edited, EditArchive in *. destruct (edit_entries _ arch a.1 a.2) as [es r] eqn:E. cbn [snd] in He. subst r.
  apply edited_repositories in E. rewrite Hf in E. destruct E as (n' & b' & Eb & Ef).
  unfold editRepositoriesFile in Eb. rewrite Hm in Eb. cbn in Eb.
  pose proof (λ repo tags, edit_repositories_lookup (fixRepository arch) m repo tags Hd) as Hlook.
  exists (tags_of (edit_repositories (fixRepository arch) m)). split.
  - apply GetArchiveTags_spec. exists n', b'. eexists. split; [exact Ef|]. split; [|done].
    apply repositories_roundtrip; [|done]. intros repo tags (r & Hr & <-)%Hlook. by apply fixRepository_ascii, (Hnames r tags).
  - intros i. rewrite tags_of_spec. split.
    + intros (repo & tags & tag & ref & (r & Hr & <-)%Hlook & Ht & ->). exists r, tag.
      destruct (Hnames r tags Hr) as (Hp & _ & Htag). destruct (Htag tag) as [Hne Hat]; [by eexists|].
      split_and!; [done..| |done]. apply tags_of_spec. eauto 7.
    + intros (repo & tag & Hp & _ & _ & Hin & ->). apply tags_of_spec in Hin as (r & tags & t & ref & Hr & Ht & Eq).
      destruct (Hnames r tags Hr) as (Hp' & _). destruct (same_split repo r tag t) as [-> ->]; [by apply Hp|by apply Hp'|done|].
      exists (fixRepository arch r), tags, t, ref. split_and!; [apply Hlook; eauto|done..].
Qed.

Lemma getBuiltImages_spec archives built : getBuiltImages (map Ok archives) = Ok built →
  ∀ i, i ∈ built ↔ ∃ a tags, a ∈ archives ∧ GetArchiveTags a = Ok tags ∧ i ∈ tags.
Proof.
  revert built. induction archives as [|a archives IH]; intros built; simpl.
  - intros <-%Ok_inj i. rewrite elem_of_empty. split; [done|]. by intros (? & ? & ?%not_elem_of_nil & _).
  - intros (tags & Ht & E)%bind_Ok_iff. apply bind_Ok_iff in E as (rest & Hr & <-%Ok_inj). intros i.
    rewrite elem_of_union, elem_of_list_to_set, (IH rest Hr). split.
    + intros [Hi|(b & l & Hb & Hl & Hi)]; [exists a, tags|exists b, l]; split_and!; try done; [by left|by right].
    + intros (b & l & [->|Hb]%elem_of_cons & Hl & Hi); [left|right; eauto 6]. rewrite Ht in Hl. by apply Ok_inj in Hl as ->.
Qed.
Lemma getBuiltImages_tags archives built a : getBuiltImages (map Ok archives) = Ok built → a ∈ archives →
  ∃ tags, GetArchiveTags a = Ok tags.
Proof.
  revert built. induction archives as [|b archives IH]; intros built; simpl; [by intros _ ?%not_elem_of_nil|].
  intros (tags & Ht & E)%bind_Ok_iff. apply bind_Ok_iff in E as (rest & Hr & _). intros [->|Ha]%elem_of_cons; eauto.
Qed.

(** Every name is split, and what is in the set is a fixed one. *)
Lemma fix_images_spec arch built :
  (∀ i, i ∈ built → ∃ repo tag, plain_name repo ∧ tag ≠ "" ∧ ¬ char_in "@" tag ∧ i = repo +:+ ":" +:+ tag) →
  ∃ fixed, fix_images arch built = Ok fixed ∧
    ∀ i, i ∈ fixed ↔ ∃ repo tag, plain_name repo ∧ tag ≠ "" ∧ ¬ char_in "@" tag ∧
      repo +:+ ":" +:+ tag ∈ built ∧ i = fixRepository arch repo +:+ ":" +:+ tag.
Proof.
  intros Hb. unfold fix_images. setoid_rewrite <-elem_of_elements. setoid_rewrite <-elem_of_elements in Hb.
  match goal with |- context [collect ?f _] => set (g := f) end.
  assert (Hg : ∀ repo tag, plain_name repo → tag ≠ "" → ¬ char_in "@" tag →
    g (repo +:+ ":" +:+ tag) = Ok (fixRepository arch repo +:+ ":" +:+ tag)).
  { intros repo tag Hp Ht Ha. unfold g. by rewrite split_named. }
  assert (∃ l, collect g (elements built) = Ok l ∧ ∀ i, i ∈ l ↔ ∃ repo tag, plain_name repo ∧ tag ≠ "" ∧ ¬ char_in "@" tag ∧
      repo +:+ ":" +:+ tag ∈ elements built ∧ i = fixRepository arch repo +:+ ":" +:+ tag) as (l & -> & Hl).
  - revert Hb. induction (elements built) as [|i imgs IH]; intros Hb; [exists []; split; [done|]|].
    + intros i. split; [by intros ?%not_elem_of_nil|]. by intros (? & ? & _ & _ & _ & ?%not_elem_of_nil & _).
    + destruct (Hb i) as (repo & tag & Hp & Ht & Ha & ->); [by left|].
      destruct IH as (l & Hl & Hin); [intros; apply Hb; by right|].
      exists ((fixRepository arch repo +:+ ":" +:+ tag) :: l). cbn [collect]. rewrite Hg, Hl by done. split; [done|].
      intros i. rewrite elem_of_cons, Hin. split.
      * intros [->|(r & t & ? & ? & ? & ? & ->)]; [exists repo, tag|exists r, t]; split_and!; try done; [by left|by right].
      * intros (r & t & Hr & ? & ? & [E|E]%elem_of_cons & ->); [left|right; eauto 9].
        apply same_split in E as [-> ->]; [done|apply Hr|apply Hp].
  - exists (list_to_set l). split; [done|]. intros i. rewrite elem_of_elements, elem_of_list_to_set. apply Hl.
Qed.

(** The images that are taken to be built are the tags that the archives have as they
    are loaded, with the suffix of the architecture dropped from the names of their
    repositories, when no two repositories of an archive get the same name. *)
Lemma built_images_are_loaded arch archives built :
  Forall (well_named arch) archives → Forall (λ a, (edited arch a).2 = Ok tt) archives →
  getBuiltImages (map Ok archives) = Ok built →
  ∃ fixed, fix_images arch built = Ok fixed ∧
    ∀ i, i ∈ fixed ↔ ∃ a tags, a ∈ archives ∧ GetArchiveTags (edited arch a) = Ok tags ∧ i ∈ tags.
Proof.
  intros Hw He Hb. rewrite Forall_forall in Hw, He. pose proof (getBuiltImages_spec _ _ Hb) as Hspec.
  destruct (fix_images_spec arch built) as (fixed & Hf & Hin).
  - intros i (a & tags & Ha & Ht & Hi)%Hspec. apply GetArchiveTags_spec in Ht as (n & b & m & Hn & Hm & ->).
    apply tags_of_spec in Hi as (repo & tags & tag & ref & Hr & Htag & ->).
    destruct (Hw a Ha n b m Hn Hm) as [_ Hnames]. destruct (Hnames repo tags Hr) as (Hp & _ & Hts).
    destruct (Hts tag) as [??]; [by eexists|]. by exists repo, tag.
  - exists fixed. split; [done|]. intros i. rewrite Hin. split.
    + intros (repo & tag & Hp & Ht & Ha & Hi & Ei). pose proof (proj1 (Hspec _) Hi) as (a & tags & Hina & Htags & Hr).
      destruct (edited_tags arch a tags) as (tags' & E & Hs); [by apply Hw|by apply He|done|].
      exists a, tags'. split_and!; [done..|]. apply Hs. by exists repo, tag.
    + intros (a & tags' & Hina & E & Hi). destruct (getBuiltImages_tags _ _ a Hb Hina) as [tags Ht].
      destruct (edited_tags arch a tags) as (tags2 & E2 & Hs); [by apply Hw|by apply He|done|].
      rewrite E in E2. apply Ok_inj in E2 as <-. pose proof (proj1 (Hs i) Hi) as (repo & tag & Hp & Hne & Hat & Hr & Ei).
      exists repo, tag. split_and!; [done..| |done]. apply Hspec. eauto.
Qed.
End built.

Module DemoArchive.
Definition before : archiveRepositories := {["registry.k8s.io/kube-proxy-amd64" := {["v1.27.0" := "0a1b"]}]}.
Definition after : archiveRepositories := {["registry.k8s.io/kube-proxy" := {["v1.27.0" := "0a1b"]}]}.
(** A codec that knows two texts. *)
#[local] Instance libs : ArchiveLibs := {|
  repositories_decode := λ s, if s =s "before" then Ok before else if s =s "after" then Ok after else Err "invalid character";
  repositories_encode := λ m, if decide (m = before) then Ok "before" else if decide (m = after) then Ok "after" else Err "unsupported";
  manifest_decode := λ s, Ok [mkMetadataEntry "c.json" [s] []];
  manifest_encode := λ l, Ok (Join (concat (map me_RepoTags l)) ",");
  entry_text := λ e, me_Config e;
  config_decode := λ _, Ok {["architecture" := VStr "arm"]};
  config_encode := λ m, match m !! "architecture" with Some (VStr s) => Ok s | _ => Err "" end;
  repositories_order := map_to_list;
  repositories_order_perm m := reflexivity _
|}.
#[local] Instance laws : ArchiveLaws.
Proof.
  split. intros m raw _ E. cbn in E. destruct (decide (m = before)) as [->|]; [by apply Ok_inj in E as <-|].
  destruct (decide (m = after)) as [->|]; [by apply Ok_inj in E as <-|done].
Defined.
Definition image : archive :=
  ([("c.json", "{}"); ("manifest.json", "registry.k8s.io/kube-proxy-amd64:v1.27.0"); ("repositories", "before")], Ok tt).
End DemoArchive.
#[local] Existing Instances DemoArchive.libs DemoArchive.laws.

Example archive_edited :
  EditArchive DemoArchive.image (fixRepository "amd64") "amd64" =
    ([("c.json", "amd64"); ("manifest.json", "registry.k8s.io/kube-proxy:v1.27.0"); ("repositories", "after")], Ok tt).
Proof. vm_compute. reflexivity. Qed.
(** A registry with a port is no repository of an image; the error names what is printed of
    the entry. *)
Example port_is_refused :
  edit_tag id (mkMetadataEntry "c.json" [] []) "localhost:5000/app:v1" = Err "invalid repotag: c.json".
Proof. vm_compute. reflexivity. Qed.
(** Two repositories that get the same name: one is lost. *)
Example same_name_lost :
  let m : archiveRepositories := {["a" := {["v1" := "0"]}; "a-amd64" := {["v2" := "1"]}]} in
  size m = 2%nat ∧ size (edit_repositories (fixRepository "amd64") m) = 1%nat.
Proof. vm_compute. done. Qed.

Lemma DemoArchive_well_named : well_named "amd64" DemoArchive.image.
Proof.
  intros n b m. cbn. intros [= <- <-] <-%Ok_inj. unfold DemoArchive.before. split.
  - intros r1 r2 [t1 H1] [t2 H2] _. apply lookup_singleton_Some in H1 as [<- _], H2 as [<- _]. done.
  - intros repo tags [<- <-]%lookup_singleton_Some. split; [|split].
    { split; [done|]. split; by apply (bool_decide_eq_false (char_in _ _)). }
    { vm_compute. reflexivity. }
    intros tag [r [<- _]%lookup_singleton_Some]. split; [done|]. by apply (bool_decide_eq_false (char_in _ _)).
Qed.

(** The images of the example. *)
Lemma built_images_of_demo :
  ∃ fixed, fix_images "amd64" {["registry.k8s.io/kube-proxy-amd64:v1.27.0"]} = Ok fixed ∧
    ∀ i, i ∈ fixed ↔ ∃ a tags, a ∈ [DemoArchive.image] ∧ GetArchiveTags (edited "amd64" a) = Ok tags ∧ i ∈ tags.
Proof.
  apply (built_images_are_loaded "amd64" [DemoArchive.image]).
  - constructor; [apply DemoArchive_well_named|constructor].
  - constructor; [|constructor]. vm_compute. reflexivity.
  - vm_compute. reflexivity.
Qed.
