(* ===== verification/BuildImage.v ===== *)
(** * The build of the node image

    src/pkg/build/nodeimage (build.go, buildcontext.go, options.go, helpers.go, containerd.go,
    imageimporter.go) with internal/kube (builder_docker.go, source.go, bits.go) and
    internal/container/docker (exec.go, image.go, pull.go, run.go, save.go), and the command of
    src/pkg/cmd/kind/build/nodeimage: Kubernetes is built in its directory, a container is
    started from the base image, the binaries, the images and the manifests are put into it,
    and it is committed.  Shown: the program comes back to its working directory; the
    container is removed however the build ends; and every image that a node needs is in
    an archive that was loaded, or was asked for. *)

From S2P Require Import Logs.
From S2P Require Import Prelude State Concurrent GoStr Exec Version Patch Runtime NodeCommands NodeManifests NodeImage.
Local Open Scope Z_scope.
Local Open Scope go_scope.
Local Open Scope stdpp_scope.

(** ** What the build asks of the machine *)

(** The working directory of the program. *)
Class WorkDir (W : Type) := { os_Getwd : st W string; os_Chdir : string → st W unit }.
(** The directory that go build has for a package, with GOPATH. *)
Class GoBuild := { go_Import : string → res string; GOPATH : string }.
(** An archive of images, and the text of one as it is written. *)
Class ImageArchives (W : Type) := { open_archive : string → W → res archive; archive_text : archive → string }.
(** The time and the random number in the name of a container. *)
Class BuildIds (W : Type) := { build_unix : W → Z; build_random : W → Z }.

Definition path_Base (p : string) : string :=
  match p with
  | "" => "."
  | _ => List.last (List.filter (λ e, e <>s "") (Split p "/")) "/"
  end.
Example bases : map path_Base ["/a/kubeadm"; "kubeadm/"; "//"; ""] = ["kubeadm"; "kubeadm"; "/"; "."].
Proof. vm_compute. reflexivity. Qed.
(** [filepath.Join]. *)
Definition filepath_Join (root : string) (names : list string) : string := show (fold_left path_join names (Clean root)).

(** ** Building Kubernetes *)

Record Bits := mkBits { b_binaryPaths : list string; b_imagePaths : list string; b_version : string }.

Definition ImportPath : string := "k8s.io/kubernetes".
Definition maybeKubeDir (dir : string) : bool := dir <>s "".
(** An error that is none is printed as such. *)
Definition FindSource `{GoBuild} : res string :=
  let failed e := Err ("could not find " +:+ ImportPath +:+ " module source under GOPATH=" +:+ GOPATH +:+ ": " +:+ e) in
  match go_Import ImportPath with
  | Ok dir => if maybeKubeDir dir then Ok dir else failed "%!w(<nil>)"
  | Err e => failed e
  | Panic x => Panic x
  end.

(** The value of [gitVersion] in the lines of the status script. *)
Fixpoint git_version (output lines : list string) : res string :=
  match lines with
  | [] => Err ("could not obtain kubernetes version: " +:+ Q (Join output newline))
  | line :: lines =>
      match cut " " line with
      | None => Err ("could not parse kubernetes version: " +:+ Q (Join output newline))
      | Some (key, value) => if key =s "gitVersion" then Ok value else git_version output lines
      end
  end.

Definition kube_platform (arch : string) : string := "linux/" +:+ arch.
Definition kube_makeVars (arch : string) : list string :=
  ["KUBE_VERBOSE=0"; "KUBE_BUILD_HYPERKUBE=n"; "KUBE_BUILD_CONFORMANCE=n"; "KUBE_BUILD_PLATFORMS=" +:+ kube_platform arch].
Definition kube_what : string := Join ["cmd/kubeadm"; "cmd/kubectl"; "cmd/kubelet"] " ".
Definition extra_what_since : string := "v1.21.0-beta.1.153+35061acc28a666".

Section kube.
Context {W : Type} `{!HostExec W, !WorkDir W}.

Definition sourceVersion (kubeRoot : string) : st W string :=
  output ← host_OutputLines ["sh"; "-c"; "cd " +:+ shell_Quote kubeRoot +:+ " && hack/print-workspace-status.sh"];
  pure (git_version output output).

Definition kube_bits (kubeRoot arch version : string) : Bits :=
  let binDir := filepath_Join kubeRoot ["_output"; "dockerized"; "bin"; "linux"; arch] in
  let imageDir := filepath_Join kubeRoot ["_output"; "release-images"; arch] in
  mkBits (map (λ n, filepath_Join binDir [n]) ["kubeadm"; "kubelet"; "kubectl"])
         (map (λ n, filepath_Join imageDir [n]) ["kube-apiserver.tar"; "kube-controller-manager.tar"; "kube-scheduler.tar"; "kube-proxy.tar"])
         version.

(** [dockerBuilder.Build]: in the directory of the sources, and back. *)
Definition in_source (kubeRoot arch : string) : st W Bits :=
  os_Chdir kubeRoot ;;
  sourceVersionRaw ← sourceVersion kubeRoot;
  kubeVersion ← pure (errors_Wrap "failed to parse source version" (ParseSemantic sourceVersionRaw));
  st_wrap "failed to build images"
    (host_Run (["make"; "quick-release-images"; "KUBE_EXTRA_WHAT=" +:+ kube_what] ++ kube_makeVars arch)) ;;
  since ← pure (MustParseSemantic extra_what_since);
  st_when (LessThan kubeVersion since)
    (st_wrap "failed to build binaries"
      (host_Run (["build/run.sh"; "make"; "all"; "WHAT=" +:+ kube_what] ++ kube_makeVars arch))) ;;
  mret (kube_bits kubeRoot arch sourceVersionRaw).
Definition dockerBuilder_Build (kubeRoot arch : string) : st W Bits :=
  cwd ← os_Getwd;
  finally (in_source kubeRoot arch) (os_Chdir cwd).
End kube.

(** ** docker *)

Section docker.
Context {W : Type} `{!HostExec W}.

Definition docker_ImageInspect (containerNameOrID format : string) : st W (list string) :=
  host_OutputLines ["docker"; "image"; "inspect"; "-f"; format; containerNameOrID].
Definition docker_ImageID (containerNameOrID : string) : st W string :=
  lines ← docker_ImageInspect containerNameOrID "{{ .Id }}";
  pure (fail_when (negb (Nat.eqb (length lines) 1))
    ("Docker image ID should only be one line, got " +:+ Itoa (Z.of_nat (length lines)) +:+ " lines")) ;;
  pure (index lines 0).
Definition docker_Save (image dest : string) : st W unit := host_Run ["docker"; "save"; "-o"; dest; image].
Definition docker_Run (image : string) (runArgs containerArgs : list string) : st W unit :=
  host_Run (["docker"; "run"] ++ runArgs ++ [image] ++ containerArgs).
(** The first attempt, and up to [retries] others; the error is that of the last one. *)
Fixpoint docker_Pull (image platform : string) (retries : nat) : st W unit := λ w,
  match host_Run ["docker"; "pull"; "--platform=" +:+ platform; image] w with
  | (Err e, w) => match retries with O => (Err e, w) | S retries => docker_Pull image platform retries w end
  | o => o
  end.

(** [containerCmd.Run], without an environment. *)
Definition container_args (id : string) (interactive : bool) (command : list string) : list string :=
  rt_node_args "docker" id [] interactive command.
Definition in_container (id : string) (command : list string) (stdin : option string) : st W string :=
  host_Run_with (container_args id (match stdin with Some _ => true | None => false end) command) stdin.
Definition container_do (id : string) (command : list string) (stdin : option string) : st W unit :=
  _ ← in_container id command stdin; mret tt.

(** ** In the container *)

Definition createFile (id filePath contents : string) : st W unit :=
  container_do id ["mkdir"; "-p"; path_Dir filePath] None ;;
  container_do id ["cp"; "/dev/stdin"; filePath] (Some contents).

Definition containerdConfigPath : string := "/etc/containerd/config.toml".
Definition containerdConfigPatchSystemdCgroupFalse : string := js "
[plugins.`io.containerd.grpc.v1.cri`.containerd.runtimes.runc.options]
  SystemdCgroup = false

[plugins.`io.containerd.grpc.v1.cri`.containerd.runtimes.test-handler.options]
  SystemdCgroup = false
".
Definition configureContainerdSystemdCgroupFalse `{!PatchLibs} (id config : string) : st W unit :=
  let failed := "failed to configure containerd SystemdCgroup=false" in
  patched ← pure (errors_Wrap failed (TOML config [containerdConfigPatchSystemdCgroupFalse] []));
  st_wrap failed (container_do id ["cp"; "/dev/stdin"; containerdConfigPath] (Some patched)).

Definition importer_Prepare (id : string) : st W unit :=
  container_do id ["bash"; "-c"; "nohup containerd > /dev/null 2>&1 &"] None.
Definition importer_End (id : string) : st W unit := container_do id ["pkill"; "containerd"] None.
Definition pull_args (id platform image : string) : list string :=
  container_args id false ["ctr"; "--namespace=k8s.io"; "images"; "pull"; "--platform=" +:+ platform; image].
Definition importer_Pull (id image platform : string) : st W unit := host_Run (pull_args id platform image).
Definition load_args (id : string) : list string :=
  container_args id true ["ctr"; "--namespace=k8s.io"; "images"; "import"; "--all-platforms"; "--no-unpack"; "--digests"; "-"].
Definition importer_ListImported (id : string) : st W (list string) :=
  out ← in_container id ["ctr"; "--namespace=k8s.io"; "images"; "list"; "-q"] None; mret (scan_lines out).
End docker.

(** ** The image *)

Record buildContext := mkBuildContext { bc_image : string; bc_baseImage : string; bc_arch : string; bc_kubeRoot : string }.
Definition dockerBuildOsAndArch (arch : string) : string := "linux/" +:+ arch.

Section build.
Context {W : Type} `{!HostExec W, !WorkDir W, !ImageArchives W, !BuildIds W, !Schedule W, !ArchiveLibs, !PatchLibs}.
Context (c : buildContext).

(** The name of the container, and the error when it was not made. *)
Definition createBuildContainer : st W (string * res unit) :=
  ignore_err (docker_Pull (bc_baseImage c) (dockerBuildOsAndArch (bc_arch c)) 4) ;;
  random ← get build_random;
  unix ← get build_unix;
  let id := "kind-build-" +:+ Itoa unix +:+ "-" +:+ Itoa random in
  r ← try_ (st_wrap "failed to create build container"
    (docker_Run (bc_baseImage c)
      ["-d"; "--entrypoint=sleep"; "--name=" +:+ id; "--platform=" +:+ dockerBuildOsAndArch (bc_arch c);
       "--security-opt"; "seccomp=unconfined"]
      ["infinity"]));
  mret (id, r).

(** The archive is written as it is edited, up to the first error; the command reads it.
    (It is taken to end after the writer.) *)
Definition load_archive (id path : string) : st W unit := λ w,
  match open_archive path w with
  | Ok a =>
      let a := edited (bc_arch c) a in
      let '(o, w) := host (load_args id) (Some (archive_text a)) w in
      match a.2 with
      | Panic x => (Panic x, w)
      | r => (aggregate (match r with Err e => [e] | _ => [] end ++
                         match run_error (load_args id) o with Some e => [RunError_Error e] | None => [] end), w)
      end
  | Err e => (Err e, w)
  | Panic x => (Panic x, w)
  end.

(** An image that was not built is pulled; its error is dropped. *)
Definition pull_image (id : string) (builtImages : gset string) (image : string) : st W unit :=
  st_when (bool_decide (image ∉ builtImages)) (ignore_err (importer_Pull id image (dockerBuildOsAndArch (bc_arch c)))).

(** The images of the archives, as they are loaded. *)
Definition built_images (bits : Bits) : st W (gset string) :=
  built ← (λ w, (getBuiltImages (map (λ p, open_archive p w) (b_imagePaths bits)), w));
  pure (fix_images (bc_arch c) built).

(** The images that kubeadm names, with the pause image replaced. *)
Definition required_images (listed : list string) (pauseImage : string) : list string :=
  List.filter (λ image, negb (Contains image "pause")) listed ++ [pauseImage] ++ defaultCNIImages ++ defaultStorageImages.

Definition kubeadm_images (bits : Bits) (id : string) : st W (list string) :=
  out ← in_container id ["kubeadm"; "config"; "images"; "list"; "--kubernetes-version"; b_version bits] None;
  mret (scan_lines out).

Definition import_images (bits : Bits) (id : string) (builtImages : gset string) (required : list string) : st W (list string) :=
  importer_Prepare id ;;
  finally (
    aggregate_concurrent (pull_image id builtImages <$> required) ;;
    until_error (load_archive id <$> b_imagePaths bits) ;;
    importer_ListImported id) (importer_End id).

Definition prePullImagesAndWriteManifests (bits : Bits) (parsedVersion : Version) (id : string) : st W (list string) :=
  builtImages ← built_images bits;
  listed ← kubeadm_images bits id;
  containerdConfig ← in_container id ["cat"; containerdConfigPath] None;
  pauseImage ← pure (findSandboxImage containerdConfig);
  v1_24 ← pure (MustParseSemantic "v1.24.0");
  st_when (LessThan parsedVersion v1_24) (configureContainerdSystemdCgroupFalse id containerdConfig) ;;
  createFile id defaultCNIManifestLocation defaultCNIManifest ;;
  createFile id defaultStorageManifestLocation defaultStorageManifest ;;
  import_images bits id builtImages (required_images listed pauseImage).

Definition install_binary (id binary : string) : st W unit :=
  let nodePath := "/usr/bin/" +:+ path_Base binary in
  host_Run ["docker"; "cp"; binary; id +:+ ":" +:+ nodePath] ;;
  container_do id ["chmod"; "+x"; nodePath] None ;;
  container_do id ["chown"; "root:root"; nodePath] None.

Definition remove_args (id : string) : list string := ["docker"; "rm"; "-f"; "-v"; id].
Definition commit_args (id : string) : list string :=
  ["docker"; "commit"; "--change"; js "ENTRYPOINT [ `/usr/local/bin/entrypoint`, `/sbin/init` ]"; id; bc_image c].

Definition fill_image (bits : Bits) (id : string) : st W unit :=
  container_do id ["mkdir"; "/kind/"] None ;;
  st_each (install_binary id) (b_binaryPaths bits) ;;
  parsedVersion ← pure (errors_Wrap "invalid Kubernetes version" (ParseSemantic (b_version bits)));
  createFile id "/kind/version" (b_version bits) ;;
  _ ← prePullImagesAndWriteManifests bits parsedVersion id;
  host_Run (commit_args id).
Definition buildImage (bits : Bits) : st W unit :=
  '(id, r) ← createBuildContainer;
  finally (pure r ;; fill_image bits id) (st_when (id <>s "") (ignore_err (host_Run (remove_args id)))).

Definition buildContext_Build : st W unit :=
  bits ← st_wrap "failed to build kubernetes" (dockerBuilder_Build (bc_kubeRoot c) (bc_arch c));
  buildImage bits.
End build.

(** ** build.go, options.go *)

Definition DefaultImage : string := "kindest/node:latest".
Definition DefaultBaseImage : string := "docker.io/kindest/base:v20221025-014d1502".
Definition supportedArch (arch : string) : bool := str_in arch ["amd64"; "arm64"; "ppc64le"; "s390x"].

Definition WithImage (image : string) (b : buildContext) : res buildContext :=
  Ok (mkBuildContext image (bc_baseImage b) (bc_arch b) (bc_kubeRoot b)).
Definition WithBaseImage (image : string) (b : buildContext) : res buildContext :=
  Ok (mkBuildContext (bc_image b) image (bc_arch b) (bc_kubeRoot b)).
Definition WithKuberoot (root : string) (b : buildContext) : res buildContext :=
  Ok (mkBuildContext (bc_image b) (bc_baseImage b) (bc_arch b) root).
Definition WithArch (arch : string) (b : buildContext) : res buildContext :=
  Ok (if arch <>s "" then mkBuildContext (bc_image b) (bc_baseImage b) arch (bc_kubeRoot b) else b).
Fixpoint apply_options (options : list (buildContext → res buildContext)) (ctx : buildContext) : res buildContext :=
  match options with [] => Ok ctx | option :: options => ctx ← option ctx; apply_options options ctx end.

Section command.
Context {W : Type} `{!HostExec W, !WorkDir W, !ImageArchives W, !BuildIds W, !Schedule W, !ArchiveLibs, !PatchLibs, !GoBuild}.
Context (GOARCH : string).

(** The warning about the architecture is a parameter of what is logged. *)
Definition nodeimage_Build (Warn : string → st W unit) (options : list (buildContext → res buildContext)) : st W unit :=
  ctx ← pure (apply_options options (mkBuildContext DefaultImage DefaultBaseImage GOARCH ""));
  st_when (negb (supportedArch (bc_arch ctx))) (Warn ("unsupported architecture " +:+ Q (bc_arch ctx))) ;;
  ctx ← (if bc_kubeRoot ctx =s "" then
           kubeRoot ← pure (errors_Wrap "error finding kuberoot" FindSource); pure (WithKuberoot kubeRoot ctx)
         else mret ctx);
  buildContext_Build ctx.

Record nodeimage_flags := mkNodeimageFlags {
  nf_Image : string; nf_BaseImage : string; nf_KubeRoot : option string; nf_Arch : string; nf_type_changed : bool }.
Definition nodeimage_runE (Warn : string → st W unit) (flags : nodeimage_flags) (args : list string) : st W unit :=
  match nf_KubeRoot flags with
  | Some _ =>
      pure (fail_when (negb (Nat.eqb (length args) 0))
        "passing an argument and deprecated --kube-root is not supported, please switch to just the argument") ;;
      Warn "--kube-root is deprecated, please switch to passing this as an argument"
  | None => mret tt
  end ;;
  pure (fail_when (nf_type_changed flags) "--type is no longer supported, please remove this flag") ;;
  let kubeRoot := match args with a :: _ => a | [] => default "" (nf_KubeRoot flags) end in
  st_wrap "error building node image"
    (nodeimage_Build Warn [WithImage (nf_Image flags); WithBaseImage (nf_BaseImage flags); WithKuberoot kubeRoot; WithArch (nf_Arch flags)]).
End command.

(** ** What has run *)

Section facts.
Context {W : Type} `{!HostExec W, !WorkDir W, !ImageArchives W, !BuildIds W, !Schedule W, !ArchiveLibs, !PatchLibs}.

(** The names that [docker run] is given. *)
Fixpoint names_given (args : list string) : list string :=
  match args with
  | [] => []
  | a :: args => if HasPrefix a "--name=" then slice_from a 7 :: names_given args else names_given args
  end.

Definition made_by (args : list string) : gset string :=
  if bool_decide (take 2 args = ["docker"; "run"]) then list_to_set (names_given (drop 2 args)) else ∅.

(** Every command is recorded, with its input and its outcome; moving to a directory is not.
    The containers that there are: only [docker run] makes one, of the name it is given. *)
Class BuildLog := {
  log : W → list (list string * option string * outcome);
  containers : W → gset string;
  host_log args stdin w o w' : host args stdin w = (o, w') → log w' = (args, stdin, o) :: log w;
  host_containers args stdin w o w' : host args stdin w = (o, w') →
    containers w' ⊆ containers w ∪ made_by args;
  rm_containers id w o w' : host (remove_args id) None w = (o, w') → oc_error o = None → id ∉ containers w';
  chdir_log d w : log (snd (os_Chdir d w)) = log w;
  chdir_containers d w : containers (snd (os_Chdir d w)) = containers w
}.
Context `{!BuildLog}.

Definition later : relation W := λ w w', ∃ l, log w' = l ++ log w.
#[local] Instance later_preorder : PreOrder later.
Proof.
  split; [by exists []|]. intros w1 w2 w3 [l1 E1] [l2 E2]. exists (l2 ++ l1). by rewrite E2, E1, app_assoc.
Qed.
Lemma later_in e w w' : later w w' → e ∈ log w → e ∈ log w'.
Proof. intros [l ->] He. apply elem_of_app. by right. Qed.

(** A command ran without an error. *)
Definition ran_in (l : list (list string * option string * outcome)) (args : list string) (stdin : option string) : Prop :=
  ∃ o, oc_error o = None ∧ (args, stdin, o) ∈ l.
Definition ran (args : list string) (stdin : option string) (w : W) : Prop := ran_in (log w) args stdin.
Definition tried (args : list string) (w : W) : Prop := ∃ stdin o, (args, stdin, o) ∈ log w.
(** A command ran without an error and printed this. *)
Definition printed (args : list string) (out : string) (w : W) : Prop :=
  ∃ o, oc_error o = None ∧ oc_stdout o = out ∧ (args, None, o) ∈ log w.
Lemma ran_later args stdin w w' : later w w' → ran args stdin w → ran args stdin w'.
Proof. intros Hl (o & Ho & Hin). exists o. split; [done|by eapply later_in]. Qed.
Lemma tried_later args w w' : later w w' → tried args w → tried args w'.
Proof. intros Hl (i & o & Hin). exists i, o. by eapply later_in. Qed.
Lemma printed_later args out w w' : later w w' → printed args out w → printed args out w'.
Proof. intros Hl (o & Ho & Hs & Hin). exists o. split_and!; [done..|by eapply later_in]. Qed.

Lemma host_run_ran args stdin w out w' : host_Run_with args stdin w = (Ok out, w') → ran args stdin w'.
Proof.
  unfold host_Run_with. destruct (host args stdin w) as [o w1] eqn:E. unfold run_error.
  destruct (oc_error o) eqn:Eo; [done|]. intros [= _ <-]. exists o.
  rewrite (host_log _ _ _ _ _ E). split; [done|by left].
Qed.
Lemma host_run_printed args w out w' : host_Run_with args None w = (Ok out, w') → printed args out w'.
Proof.
  unfold host_Run_with. destruct (host args None w) as [o w1] eqn:E. unfold run_error.
  destruct (oc_error o) eqn:Eo; [done|]. intros [= <- <-]. exists o.
  rewrite (host_log _ _ _ _ _ E). split_and!; [done..|by left].
Qed.
Lemma host_run_later args stdin : sat (host_Run_with args stdin) later later.
Proof.
  apply sat_always. intros w r w'. unfold host_Run_with. destruct (host args stdin w) as [o w1] eqn:E.
  intros [= _ <-]. exists [(args, stdin, o)]. by rewrite (host_log _ _ _ _ _ E).
Qed.
Lemma host_do_ran args w w' : host_Run args w = (Ok tt, w') → ran args None w'.
Proof. unfold host_Run, host_Output. intros (out & v & E & [= <-])%st_bind_Ok. by eapply host_run_ran. Qed.
Lemma host_do_later args : sat (host_Run args) later later.
Proof. unfold host_Run, host_Output. sat_step; [apply host_run_later|apply sat_ret]. Qed.
Lemma host_do_tried args w r w' : host_Run args w = (r, w') → tried args w'.
Proof.
  unfold host_Run, host_Output, host_Run_with, mbind, st_bind. destruct (host args None w) as [o w1] eqn:E.
  intros Hr. exists None, o. assert (w' = w1) as -> by (destruct (run_error args o); by injection Hr).
  rewrite (host_log _ _ _ _ _ E). by left.
Qed.
Lemma chdir_later d : sat (os_Chdir d) later later.
Proof. apply sat_always. intros w r w' E. exists []. pose proof (chdir_log d w) as Hc. by rewrite E in Hc. Qed.
Lemma finally_Ok {A} (m : st W A) (cleanup : st W unit) w r w' : finally m cleanup w = (r, w') →
  ∃ w1, m w = (r, w1) ∧ w' = snd (cleanup w1).
Proof. unfold finally. destruct (m w) as [r1 w1]. intros [= <- <-]. eauto. Qed.

(** *** Building Kubernetes *)

(** A directory that was the working one is the working one again once it is entered. *)
Class WorkDirLaws := {
  getwd_pure w : snd (os_Getwd w) = w;
  chdir_again d u v v' : fst (os_Getwd u) = Ok d → os_Chdir d v = (Ok tt, v') → fst (os_Getwd v') = Ok d
}.

Definition images_command (arch : string) : list string :=
  ["make"; "quick-release-images"; "KUBE_EXTRA_WHAT=" +:+ kube_what] ++ kube_makeVars arch.
Definition binaries_command (arch : string) : list string :=
  ["build/run.sh"; "make"; "all"; "WHAT=" +:+ kube_what] ++ kube_makeVars arch.

Lemma in_source_spec kubeRoot arch w bits w' : in_source kubeRoot arch w = (Ok bits, w') →
  ∃ v since, ParseSemantic (b_version bits) = Ok v ∧ MustParseSemantic extra_what_since = Ok since ∧
    bits = kube_bits kubeRoot arch (b_version bits) ∧ ran (images_command arch) None w' ∧
    (LessThan v since = true → ran (binaries_command arch) None w').
Proof.
  unfold in_source. intros ([] & w1 & _ & E)%st_bind_Ok. apply st_bind_Ok in E as (raw & w2 & _ & E).
  apply st_bind_Ok in E as (v & w3 & [Ev%errors_Wrap_Ok_iff ->]%pure_run & E).
  apply st_bind_Ok in E as ([] & w4 & Em%st_wrap_Ok & E).
  apply st_bind_Ok in E as (since & w5 & [Es ->]%pure_run & E).
  apply st_bind_Ok in E as ([] & w6 & Eb & [= <- <-]). apply host_do_ran in Em.
  exists v, since. cbn [kube_bits b_version]. split_and!; [done..| |].
  - destruct (LessThan v since); [|by injection Eb as <-]. eapply ran_later; [|exact Em].
    cbn [st_when] in Eb. apply st_wrap_Ok in Eb. pose proof (host_do_later (binaries_command arch) w4) as Hl.
    unfold binaries_command in Hl. by rewrite Eb in Hl.
  - intros Hlt. rewrite Hlt in Eb. cbn [st_when] in Eb. by apply st_wrap_Ok, host_do_ran in Eb.
Qed.

(** The program comes back to the directory it was in however the build of Kubernetes
    ends; when it succeeds, the version is one that is understood, the command for the
    images has run, and for versions that need it the one for the binaries. *)
Theorem dockerBuilder_comes_back `{!WorkDirLaws} kubeRoot arch d w r w' :
  fst (os_Getwd w) = Ok d → (∀ v, ∃ v', os_Chdir d v = (Ok tt, v')) →
  dockerBuilder_Build kubeRoot arch w = (r, w') →
  fst (os_Getwd w') = Ok d ∧
  ∀ bits, r = Ok bits → ∃ v since, ParseSemantic (b_version bits) = Ok v ∧ MustParseSemantic extra_what_since = Ok since ∧
    bits = kube_bits kubeRoot arch (b_version bits) ∧ ran (images_command arch) None w' ∧
    (LessThan v since = true → ran (binaries_command arch) None w').
Proof.
  intros Hd Hback. unfold dockerBuilder_Build. pose proof (getwd_pure w) as Hp.
  destruct (os_Getwd w) as [r0 w0] eqn:E0. cbn [fst snd] in Hd, Hp. subst r0 w0. rewrite (st_run _ _ _ _ _ E0).
  intros (w1 & E & ->)%finally_Ok. destruct (Hback w1) as [v' Hv]. rewrite Hv. cbn [snd]. split.
  - apply (chdir_again d w w1); [by rewrite E0|done].
  - intros bits ->. apply in_source_spec in E as (v & since & Hv' & Hs & Hb & Hi & Hl). exists v, since.
    assert (log v' = log w1) as Hlog by (pose proof (chdir_log d w1) as Hc; by rewrite Hv in Hc).
    unfold ran in *. rewrite Hlog. by split_and!.
Qed.

(** *** The container *)

Definition shrinks : relation W := λ w w', containers w' ⊆ containers w.
#[local] Instance shrinks_preorder : PreOrder shrinks.
Proof. unfold shrinks. split; [by intros w|]. intros w1 w2 w3 ??. by etrans. Qed.

Lemma host_run_shrinks args stdin : made_by args = ∅ → sat (host_Run_with args stdin) shrinks shrinks.
Proof.
  intros Hn. apply sat_always. intros w r w'. unfold host_Run_with. destruct (host args stdin w) as [o w1] eqn:E.
  intros [= _ <-]. apply host_containers in E. unfold shrinks. set_solver.
Qed.
Lemma host_do_shrinks args : made_by args = ∅ → sat (host_Run args) shrinks shrinks.
Proof. intros Hn. unfold host_Run, host_Output. sat_step; [by apply host_run_shrinks|apply sat_ret]. Qed.
Lemma container_do_shrinks id command stdin : sat (container_do id command stdin) shrinks shrinks.
Proof. unfold container_do, in_container. sat_step; [by apply host_run_shrinks|apply sat_ret]. Qed.
Lemma sat_finally {A} (S : relation W) `{!PreOrder S} (m : st W A) (cleanup : st W unit) :
  sat m S S → sat cleanup S S → sat (finally m cleanup) S S.
Proof.
  intros Hm Hc w. specialize (Hm w). unfold finally. destruct (m w) as [r w1]. specialize (Hc w1).
  assert (S w w1 → S w (snd (cleanup w1))) as Ht by (intros; destruct (cleanup w1) as [[]]; cbn [snd]; by etrans).
  destruct r; by apply Ht.
Qed.
Lemma run_collect_sat (S : relation W) `{!PreOrder S} (fns : list (st W unit)) errs :
  Forall (λ f, sat f S S) fns → sat (run_collect fns errs) S S.
Proof.
  intros Hf. revert errs. induction Hf as [|f fns Hf Hfs IH]; intros errs; cbn [run_collect]; [apply sat_pure|].
  sat_step; [by apply sat_try_always|apply IH].
Qed.
Lemma aggregate_concurrent_sat (S : relation W) `{!PreOrder S} (fns : list (st W unit)) :
  Forall (λ f, sat f S S) fns → sat (aggregate_concurrent fns) S S.
Proof. intros Hf w. apply run_collect_sat; [done|]. by rewrite until_error_perm. Qed.

Lemma createFile_shrinks id p s : sat (createFile id p s) shrinks shrinks.
Proof. unfold createFile. repeat (sat_step || apply container_do_shrinks). Qed.
Lemma load_archive_shrinks c id p : sat (load_archive c id p) shrinks shrinks.
Proof.
  apply sat_always. intros w r w'. unfold load_archive. destruct (open_archive p w) as [a|e|x]; [|by intros [= _ <-]..].
  destruct (host _ _ w) as [o w1] eqn:E. apply host_containers in E. intros Er.
  assert (w' = w1) as -> by (destruct (snd (edited _ a)); by injection Er). unfold shrinks. change (made_by (load_args id)) with (∅ : gset string) in E. set_solver.
Qed.
Lemma import_images_shrinks c bits id built required : sat (import_images c bits id built required) shrinks shrinks.
Proof.
  unfold import_images. sat_step; [apply container_do_shrinks|]. apply (sat_finally shrinks); [|apply container_do_shrinks].
  sat_step; [|sat_step].
  - apply (aggregate_concurrent_sat shrinks). apply Forall_fmap, Forall_forall. intros i _. cbn. unfold pull_image.
    sat_step. apply sat_ignore. by apply host_do_shrinks.
  - apply until_error_sat. apply Forall_fmap, Forall_forall. intros p _. apply load_archive_shrinks.
  - unfold importer_ListImported, in_container. sat_step; [by apply host_run_shrinks|apply sat_ret].
Qed.
Lemma fill_image_shrinks c bits id : sat (fill_image c bits id) shrinks shrinks.
Proof.
  unfold fill_image, prePullImagesAndWriteManifests, built_images, kubeadm_images, configureContainerdSystemdCgroupFalse, install_binary.
  repeat (sat_step || apply container_do_shrinks || apply createFile_shrinks || apply import_images_shrinks ||
          (by apply host_do_shrinks) || (by apply host_run_shrinks)).
  apply sat_always. by intros w r w' [= _ <-].
Qed.
Lemma docker_Pull_shrinks image platform n : sat (docker_Pull image platform n) shrinks shrinks.
Proof.
  induction n as [|n IH]; intros w; cbn [docker_Pull];
    pose proof (host_do_shrinks ["docker"; "pull"; "--platform=" +:+ platform; image] eq_refl w) as Hs;
    destruct (host_Run _ w) as [[[]|e|x] w1]; [done..| |done].
  specialize (IH w1). destruct (docker_Pull image platform n w1) as [[]]; by etrans.
Qed.

Lemma docker_Pull_returns image platform n w x w' : docker_Pull image platform n w ≠ (Panic x, w').
Proof.
  revert w. induction n as [|n IH]; intros w; cbn [docker_Pull];
    destruct (host_Run _ w) as [r w1] eqn:E; apply host_Run_inv in E as (o & _ & ->); by destruct (run_error _ o).
Qed.

Definition container_name (w : W) : string := "kind-build-" +:+ Itoa (build_unix w) +:+ "-" +:+ Itoa (build_random w).
Lemma slice_name id : slice_from ("--name=" +:+ id) 7 = id.
Proof. apply (slice_from_app "--name=" id). Qed.
Lemma names_given_flag id l : names_given (("--name=" +:+ id) :: l) = id :: names_given l.
Proof.
  assert (HasPrefix ("--name=" +:+ id) "--name=" = true) as Hp by (apply HasPrefix_spec; eauto).
  cbn [names_given]. rewrite Hp. f_equal. apply slice_name.
Qed.
Lemma names_given_other a l : HasPrefix a "--name=" = false → names_given (a :: l) = names_given l.
Proof. cbn [names_given]. by intros ->. Qed.
(** What the container is named, whether it was made or not. *)
Lemma createBuildContainer_spec c w r w1 : HasPrefix (bc_baseImage c) "--name=" = false →
  createBuildContainer c w = (r, w1) →
  ∃ id e, r = Ok (id, e) ∧ id ≠ "" ∧ containers w1 ⊆ containers w ∪ {[id]}.
Proof.
  intros Hbase. unfold createBuildContainer. set (p := ignore_err _).
  assert (sat p shrinks shrinks) as Hp by apply sat_ignore, docker_Pull_shrinks. specialize (Hp w).
  unfold mbind at 1, st_bind at 1. destruct (p w) as [[[]|e|x] w2] eqn:Ep.
  2: { unfold p, ignore_err in Ep. by destruct (docker_Pull _ _ _ w) as [[]]. }
  2: { unfold p, ignore_err in Ep. destruct (docker_Pull _ _ _ w) as [[]] eqn:El; simplify_eq. by apply docker_Pull_returns in El. }
  unfold mbind, st_bind, get, try_, st_wrap, docker_Run, mret, st_ret. cbv beta iota. fold (container_name w2).
  match goal with |- context [host_Run ?a w2] => set (args := a) end.
  destruct (host_Run args w2) as [rr w3] eqn:E. apply host_Run_inv in E as (o & E & Err). apply host_containers in E.
  assert (names_given (drop 2 args) = [container_name w2]) as Hnames.
  { unfold args. cbn [app drop]. do 2 rewrite names_given_other by done. rewrite names_given_flag.
    do 3 rewrite names_given_other by done. by rewrite names_given_other, names_given_other. }
  intros Er. exists (container_name w2).
  assert (∃ e, r = Ok (container_name w2, e) ∧ w1 = w3) as (e & -> & ->).
  { rewrite Err in Er. destruct (run_error args o); cbn in Er; injection Er as <- <-; eauto. }
  exists e. split_and!; [done|done|].   unfold shrinks in Hp. change (made_by args) with (list_to_set (C:=gset string) (names_given (drop 2 args))) in E. rewrite Hnames in E. set_solver.
Qed.

Lemma fill_image_commits c bits id w w' : fill_image c bits id w = (Ok tt, w') → ran (commit_args c id) None w'.
Proof.
  unfold fill_image. intros ([] & w1 & _ & E)%st_bind_Ok. apply st_bind_Ok in E as ([] & w2 & _ & E).
  apply st_bind_Ok in E as (v & w3 & _ & E). apply st_bind_Ok in E as ([] & w4 & _ & E).
  apply st_bind_Ok in E as (l & w5 & _ & E). by eapply host_do_ran.
Qed.

(** C11. However the build of the image ends, the last command removes the container that the
    image was made in; unless it fails, no container is left; and when the build succeeds
    the container was committed to the image. *)
Theorem buildImage_cleans_up c bits w r w' :
  HasPrefix (bc_baseImage c) "--name=" = false → buildImage c bits w = (r, w') →
  ∃ id o l, log w' = (remove_args id, None, o) :: l ∧ containers w' ⊆ containers w ∪ {[id]} ∧
    (oc_error o = None → containers w' ⊆ containers w) ∧
    (r = Ok tt → ran_in l (commit_args c id) None).
Proof.
  intros Hbase. unfold buildImage. destruct (createBuildContainer c w) as [r1 w1] eqn:Ec.
  pose proof (createBuildContainer_spec c w r1 w1 Hbase Ec) as (id & e & -> & Hid & Hc1). rewrite (st_run _ _ _ _ _ Ec).
  intros (w2 & E & ->)%finally_Ok. rewrite (proj2 (String.eqb_neq id "")) by done. cbn [negb st_when].
  assert (sat (pure e ;; fill_image c bits id) shrinks shrinks) as Hs by (sat_step; [apply sat_pure|apply fill_image_shrinks]).
  specialize (Hs w1). rewrite E in Hs. assert (containers w2 ⊆ containers w1) as Hc2 by (by destruct r). clear Hs.
  destruct (host (remove_args id) None w2) as [o w3] eqn:Er.
  assert (snd (ignore_err (host_Run (remove_args id)) w2) = w3) as ->.
  { unfold ignore_err, host_Run, host_Output, host_Run_with, mbind, st_bind. rewrite Er. by destruct (run_error _ o). }
  pose proof (host_containers _ _ _ _ _ Er) as Hc3. change (made_by (remove_args id)) with (∅ : gset string) in Hc3. exists id, o, (log w2).
  split_and!; [by apply host_log|set_solver| |].
  - intros Ho. pose proof (rm_containers _ _ _ _ Er Ho). set_solver.
  - intros ->. apply st_bind_Ok in E as ([] & w4 & _ & E). by apply fill_image_commits in E.
Qed.

(** *** The images *)

Lemma container_do_later id command stdin : sat (container_do id command stdin) later later.
Proof. unfold container_do, in_container. sat_step; [apply host_run_later|apply sat_ret]. Qed.
Lemma pull_image_later c id built i : sat (pull_image c id built i) later later.
Proof. unfold pull_image. sat_step. apply sat_ignore, host_do_later. Qed.
Lemma load_archive_later c id p : sat (load_archive c id p) later later.
Proof.
  apply sat_always. intros w r w'. unfold load_archive. destruct (open_archive p w) as [a|e|x]; [|by intros [= _ <-]..].
  destruct (host _ _ w) as [o w1] eqn:E. apply host_log in E. intros Er.
  assert (w' = w1) as -> by (destruct (snd (edited _ a)); by injection Er). eexists [_]. by rewrite E.
Qed.
Lemma importer_ListImported_later id : sat (importer_ListImported id) later later.
Proof. unfold importer_ListImported, in_container. sat_step; [apply host_run_later|apply sat_ret]. Qed.

(** When functions run at once without an error, each has run. *)
Lemma run_collect_runs (fns : list (st W unit)) errs w w' : Forall (λ f, sat f later later) fns →
  run_collect fns errs w = (Ok tt, w') → ∀ f, f ∈ fns → ∃ v v', f v = (Ok tt, v') ∧ later v' w'.
Proof.
  intros Hf. revert errs w. induction Hf as [|f fns Hf Hfs IH]; intros errs w; cbn [run_collect]; [by intros _ f ?%not_elem_of_nil|].
  intros (r & w1 & Er & E)%st_bind_Ok g [->|Hg]%elem_of_cons; [|by eapply IH].
  pose proof (run_collect_errs _ _ _ _ E) as He. pose proof (run_collect_sat later fns (errs ++ match r with Err e => [e] | _ => [] end) Hfs w1) as Hl.
  rewrite E in Hl. exists w, w1. split; [|done]. unfold try_ in Er. destruct (f w) as [[[]|e|x] w2]; simplify_eq; [done|].
  by apply app_eq_nil in He as [_ [=]].
Qed.
Lemma aggregate_concurrent_runs (fns : list (st W unit)) w w' : Forall (λ f, sat f later later) fns →
  aggregate_concurrent fns w = (Ok tt, w') → ∀ f, f ∈ fns → ∃ v v', f v = (Ok tt, v') ∧ later v' w'.
Proof.
  intros Hf E f Hin. eapply run_collect_runs; [|exact E|by rewrite until_error_perm]. by rewrite until_error_perm.
Qed.

Lemma pull_image_tried c id built i v v' : pull_image c id built i v = (Ok tt, v') →
  i ∈ built ∨ tried (pull_args id (dockerBuildOsAndArch (bc_arch c)) i) v'.
Proof.
  unfold pull_image. case_bool_decide as Hb; [|left; by destruct (decide (i ∈ built))]. cbn [st_when]. intros E. right.
  unfold ignore_err, importer_Pull in E. destruct (host_Run _ v) as [r v1] eqn:Er. apply host_do_tried in Er.
  by destruct r as [[]|e|x]; simplify_eq.
Qed.
Lemma load_archive_ran c id p v v' : load_archive c id p v = (Ok tt, v') →
  ∃ a, open_archive p v = Ok a ∧ (edited (bc_arch c) a).2 = Ok tt ∧
    ran (load_args id) (Some (archive_text (edited (bc_arch c) a))) v'.
Proof.
  unfold load_archive. destruct (open_archive p v) as [a|e|x]; [|done..]. destruct (host _ _ v) as [o v1] eqn:E.
  intros Er. exists a. destruct ((edited (bc_arch c) a).2) as [[]|e|x]; [|by destruct (run_error _ o)|done].
  unfold run_error in Er. destruct (oc_error o) as [e|] eqn:Eo; [done|]. injection Er as <-. split_and!; [done..|].
  exists o. rewrite (host_log _ _ _ _ _ E). split; [done|by left].
Qed.

Lemma import_images_spec c bits id built required w l w' :
  import_images c bits id built required w = (Ok l, w') →
  (∀ i, i ∈ required → i ∈ built ∨ tried (pull_args id (dockerBuildOsAndArch (bc_arch c)) i) w') ∧
  (∀ p, p ∈ b_imagePaths bits → ∃ a v, open_archive p v = Ok a ∧ (edited (bc_arch c) a).2 = Ok tt ∧
     ran (load_args id) (Some (archive_text (edited (bc_arch c) a))) w').
Proof.
  unfold import_images. intros ([] & w1 & _ & E)%st_bind_Ok. apply finally_Ok in E as (w2 & E & ->).
  assert (later w2 (snd (importer_End id w2))) as Hend.
  { pose proof (container_do_later id ["pkill"; "containerd"] None w2) as Hl. unfold importer_End.
    by destruct (container_do _ _ _ w2) as [[]]. }
  apply st_bind_Ok in E as ([] & w3 & Ep & E). apply st_bind_Ok in E as ([] & w4 & El & E).
  pose proof (importer_ListImported_later id w4) as H42. rewrite E in H42.
  assert (Forall (λ f, sat f later later) (load_archive c id <$> b_imagePaths bits)) as Hloads
    by (apply Forall_fmap, Forall_forall; intros p _; apply load_archive_later).
  pose proof (until_error_sat _ Hloads w3) as H34. rewrite El in H34. split.
  - intros i Hi. eapply aggregate_concurrent_runs in Ep as (v & v' & Ev & Hv).
    + apply pull_image_tried in Ev as [?|Ht]; [by left|]. right.
      do 4 (eapply tried_later; [eassumption|]). exact Ht.
    + apply Forall_fmap, Forall_forall. intros j _. apply pull_image_later.
    + by apply list_elem_of_fmap_2.
  - intros p Hp. destruct (until_error_Ok _ _ _ Hloads El (load_archive c id p)) as (v & v' & Ev & _ & Hv).
    { by apply list_elem_of_fmap_2. }
    apply load_archive_ran in Ev as (a & Ha & He & Hr). exists a, v. split_and!; [done..|].
    do 3 (eapply ran_later; [eassumption|]). exact Hr.
Qed.
Lemma import_images_later c bits id built required : sat (import_images c bits id built required) later later.
Proof.
  unfold import_images. sat_step; [apply container_do_later|]. apply (sat_finally later); [|apply container_do_later].
  sat_step; [|sat_step].
  - apply (aggregate_concurrent_sat later). apply Forall_fmap, Forall_forall. intros i _. apply pull_image_later.
  - apply until_error_sat. apply Forall_fmap, Forall_forall. intros p _. apply load_archive_later.
  - apply importer_ListImported_later.
Qed.
Lemma createFile_later id p s : sat (createFile id p s) later later.
Proof. unfold createFile. repeat (sat_step || apply container_do_later). Qed.
Lemma configure_later id config : sat (configureContainerdSystemdCgroupFalse id config) later later.
Proof. unfold configureContainerdSystemdCgroupFalse. repeat (sat_step || apply container_do_later). Qed.

Lemma required_images_spec listed pause i :
  (i ∈ listed ∧ Contains i "pause" = false) ∨ i = pause ∨ i ∈ manifest_images defaultCNIManifest ∨
    i ∈ manifest_images defaultStorageManifest → i ∈ required_images listed pause.
Proof.
  rewrite defaultCNIManifest_images, defaultStorageManifest_images. unfold required_images.
  rewrite !elem_of_app, list_elem_of_singleton. intros [[Hi Hp]|[Hi|[Hi|Hi]]]; [left|tauto..].
  apply list_elem_of_In, filter_In. split; [by apply list_elem_of_In|by rewrite Hp].
Qed.

(** C8. When the images have been put into the container, every image that a node needs (those
    that kubeadm lists, without its pause image, the one that containerd is configured with,
    and those of the manifests of the network and of the storage) was asked for or is a tag of
    an archive that was loaded, as it was loaded. *)
Theorem node_image_has_images `{!ArchiveLaws} c bits archives version id w l w' :
  (∀ p u, p ∈ b_imagePaths bits → open_archive p u = Ok (archives p)) →
  Forall (λ p, well_named (bc_arch c) (archives p)) (b_imagePaths bits) →
  prePullImagesAndWriteManifests c bits version id w = (Ok l, w') →
  ∃ listed config pause,
    printed (container_args id false ["kubeadm"; "config"; "images"; "list"; "--kubernetes-version"; b_version bits]) listed w' ∧
    printed (container_args id false ["cat"; containerdConfigPath]) config w' ∧ findSandboxImage config = Ok pause ∧
    ∀ i, (i ∈ scan_lines listed ∧ Contains i "pause" = false) ∨ i = pause ∨
         i ∈ manifest_images defaultCNIManifest ∨ i ∈ manifest_images defaultStorageManifest →
      tried (pull_args id (dockerBuildOsAndArch (bc_arch c)) i) w' ∨
      ∃ p tags, p ∈ b_imagePaths bits ∧ ran (load_args id) (Some (archive_text (edited (bc_arch c) (archives p)))) w' ∧
        GetArchiveTags (edited (bc_arch c) (archives p)) = Ok tags ∧ i ∈ tags.
Proof.
  intros Hopen Hnames. unfold prePullImagesAndWriteManifests, kubeadm_images.
  intros (fixed & w1 & Ebuilt & E)%st_bind_Ok. apply st_bind_Ok in E as (lines & w2 & El & E).
  apply st_bind_Ok in El as (listed & w3 & Elist & [= <- <-]).
  apply st_bind_Ok in E as (config & w4 & Econf & E). apply st_bind_Ok in E as (pause & w5 & [Epause ->]%pure_run & E).
  apply st_bind_Ok in E as (v24 & w6 & [_ ->]%pure_run & E).
  apply st_bind_Ok in E as ([] & w7 & Eg & E). apply st_bind_Ok in E as ([] & w8 & Ef1 & E).
  apply st_bind_Ok in E as ([] & w9 & Ef2 & E).
  pose proof (import_images_later c bits id fixed (required_images (scan_lines listed) pause) w9) as L9. rewrite E in L9.
  pose proof (createFile_later id defaultStorageManifestLocation defaultStorageManifest w8) as L8. rewrite Ef2 in L8.
  pose proof (createFile_later id defaultCNIManifestLocation defaultCNIManifest w7) as L7. rewrite Ef1 in L7.
  assert (later w4 w7) as L4.
  { destruct (LessThan version v24); [|by injection Eg as <-]. cbn [st_when] in Eg.
    pose proof (configure_later id config w4) as Hl. by rewrite Eg in Hl. }
  pose proof (host_run_later (container_args id false ["cat"; containerdConfigPath]) None w3) as L3.
  change (host_Run_with _ None w3) with (in_container id ["cat"; containerdConfigPath] None w3) in L3. rewrite Econf in L3.
  apply import_images_spec in E as [Hreq Hload].
  exists listed, config, pause. split_and!.
  - apply host_run_printed in Elist. do 5 (eapply printed_later; [eassumption|]). exact Elist.
  - apply host_run_printed in Econf. do 4 (eapply printed_later; [eassumption|]). exact Econf.
  - done.
  - intros i [Hi|Hi]%required_images_spec%Hreq; [right|by left].
    unfold built_images in Ebuilt. apply st_bind_Ok in Ebuilt as (built & w0 & [= Eb <-] & [Efix ->]%pure_run).
    assert (map (λ p, open_archive p w) (b_imagePaths bits) = map Ok (map archives (b_imagePaths bits))) as Em.
    { rewrite map_map. apply map_ext_in. intros p Hp%list_elem_of_In. by apply Hopen. }
    rewrite Em in Eb. apply (built_images_are_loaded (bc_arch c)) in Eb as (fixed' & Ef & Hin).
    + rewrite Efix in Ef. apply Ok_inj in Ef as ->. apply Hin in Hi as (a & tags & Ha & Htags & Hi).
      apply list_elem_of_fmap in Ha as (p & -> & Hp). destruct (Hload p Hp) as (a & u & Ha & _ & Hran).
      rewrite Hopen in Ha by done. injection Ha as <-. exists p, tags. by split_and!.
    + by apply Forall_fmap.
    + apply Forall_fmap, Forall_forall. intros p Hp. destruct (Hload p Hp) as (a & u & Ha & He & _).
      rewrite Hopen in Ha by done. by injection Ha as <-.
Qed.
End facts.

(** ** A machine *)

Module DemoBuild.
(** The working directory, without its slash, what has run, and the containers. *)
Record machine := mkMachine {
  m_cwd : string; m_log : list (list string * option string * outcome); m_containers : gset string }.

Definition full (cwd d : string) : string := if HasPrefix d "/" then d else "/" +:+ cwd +:+ "/" +:+ d.
Definition directories : list string := ["/"; "/home"; "/home/kubernetes"].
Definition is_directory (cwd d : string) : bool := str_in (show (Clean (full cwd d))) directories.
#[local] Instance dirs : WorkDir machine := {|
  os_Getwd := λ w, (Ok ("/" +:+ m_cwd w), w);
  os_Chdir := λ d w,
    if is_directory (m_cwd w) d
    then (Ok tt, mkMachine (match full (m_cwd w) d with String _ s => s | "" => "" end) (m_log w) (m_containers w))
    else (Err ("chdir " +:+ d +:+ ": no such file or directory"), w)
|}.

Definition removed_by (args : list string) : gset string :=
  if bool_decide (take 4 args = ["docker"; "rm"; "-f"; "-v"]) then list_to_set (drop 4 args) else ∅.
Definition ok (out : string) : outcome := mkOutcome out out None.
(** The script of the sources is found from the directory that the shell goes to. *)
Definition answer (cwd : string) (args : list string) : outcome :=
  match args with
  | [_; _; script] =>
      match cut " && " script with
      | Some (String _ (String _ (String _ d)), _) =>
          if (show (Clean (full cwd d)) =s "/home/kubernetes") && is_directory cwd d
          then ok ("gitCommit 8f94" +:+ newline +:+ "gitVersion v1.27.0" +:+ newline)
          else mkOutcome "" "" (Some "exit status 2")
      | _ => ok ""
      end
  | _ =>
      if str_in "kubeadm" args then ok (Join ["registry.k8s.io/kube-proxy:v1.27.0"; "registry.k8s.io/etcd:3.5"; "registry.k8s.io/pause:3.9"; ""] newline)
      else if str_in "cat" args then ok (js "sandbox_image = `registry.k8s.io/pause:3.7`")
      else ok ""
  end.
#[local] Instance exec : HostExec machine := {|
  host := λ args stdin w,
    let o := answer (m_cwd w) args in
    (o, mkMachine (m_cwd w) ((args, stdin, o) :: m_log w) ((m_containers w ∪ made_by args) ∖ removed_by args));
  shell_Quote := λ s, s
|}.
#[local] Instance images : ImageArchives machine := {|
  open_archive := λ _ _, Ok DemoArchive.image;
  archive_text := λ a, Join (map (λ e, e.1 +:+ "=" +:+ e.2) a.1) ","
|}.
#[local] Instance ids : BuildIds machine := {| build_unix := λ _, 1700000000; build_random := λ w, Z.of_nat (length (m_log w)) |}.
#[local] Instance schedule : Schedule machine := {| finish := λ _ n, seq 0 n; late := λ _ _, 0%nat; finish_perm := λ _ n, reflexivity _ |}.
#[local] Instance patches : PatchLibs := {|
  JsonPatch := string; yaml_MatchInfo := λ _, Err "no type"; YAMLToJSON := Ok; JSONToYAML := Ok; DecodePatch := Ok;
  Apply := λ _ j, Ok j; MergePatch := λ j p, Ok (j +:+ p); toml_JSON := Ok; JSON_toml := Ok
|}.
#[local] Instance record_ : BuildLog.
Proof.
  refine {| log := m_log; containers := m_containers |}.
  - by intros args stdin w o w' [= <- <-].
  - intros args stdin w o w' [= <- <-]. cbn. set_solver.
  - intros id w o w' [= <- <-] _. cbn [m_containers]. change (removed_by (remove_args id)) with ({[id]} ∪ ∅ : gset string). set_solver.
  - intros d w. unfold os_Chdir, dirs. by destruct (is_directory (m_cwd w) d).
  - intros d w. unfold os_Chdir, dirs. by destruct (is_directory (m_cwd w) d).
Defined.
#[local] Instance dirs_laws : WorkDirLaws.
Proof.
  split; [done|]. intros d u v v' [= <-]. unfold os_Chdir, dirs. destruct (is_directory _ _); [|done]. intros [= <-].
  unfold full. by rewrite (proj2 (HasPrefix_spec _ _)) by eauto.
Defined.
Definition start : machine := mkMachine "home" [] ∅.
Definition c : buildContext := mkBuildContext DefaultImage DefaultBaseImage "amd64" "/home/kubernetes".
Definition bits : Bits := kube_bits "/home/kubernetes" "amd64" "v1.27.0".
End DemoBuild.
#[local] Existing Instances DemoBuild.dirs DemoBuild.exec DemoBuild.images DemoBuild.ids DemoBuild.schedule DemoBuild.patches
  DemoBuild.record_ DemoBuild.dirs_laws DemoArchive.libs DemoArchive.laws.

(** The sources are given by a relative path: the program goes there, and the shell that asks
    for the version goes there once more. *)
Example relative_root_fails :
  fst (dockerBuilder_Build "kubernetes" "amd64" DemoBuild.start) =
    Err (js "command `sh -c cd kubernetes && hack/print-workspace-status.sh` failed with error: exit status 2") ∧
  is_Ok (fst (dockerBuilder_Build "/home/kubernetes" "amd64" DemoBuild.start)) = true.
Proof. vm_compute. done. Qed.

Lemma dockerBuilder_comes_back_witness :
  let w' := snd (dockerBuilder_Build "/home/kubernetes" "amd64" DemoBuild.start) in
  fst (os_Getwd w') = Ok "/home" ∧ ran (images_command "amd64") None w'.
Proof.
  intros w'. destruct (dockerBuilder_comes_back "/home/kubernetes" "amd64" "/home" DemoBuild.start
    (fst (dockerBuilder_Build "/home/kubernetes" "amd64" DemoBuild.start)) w') as [Hd Hb].
  - reflexivity.
  - intros v. cbn. eexists. reflexivity.
  - apply surjective_pairing.
  - split; [exact Hd|]. destruct (Hb DemoBuild.bits) as (v & since & _ & _ & _ & Hr & _); [vm_compute; reflexivity|exact Hr].
Defined.

Lemma buildImage_cleans_up_witness :
  let w' := snd (buildImage DemoBuild.c DemoBuild.bits DemoBuild.start) in
  ∃ id o l, log w' = (remove_args id, None, o) :: l ∧ (oc_error o = None → containers w' ⊆ containers DemoBuild.start) ∧
    ran_in l (commit_args DemoBuild.c id) None.
Proof.
  intros w'. destruct (buildImage_cleans_up DemoBuild.c DemoBuild.bits DemoBuild.start (Ok tt) w') as (id & o & l & Hl & _ & Hc & Hr).
  - reflexivity.
  - assert (fst (buildImage DemoBuild.c DemoBuild.bits DemoBuild.start) = Ok tt) as <- by (vm_compute; reflexivity).
    apply surjective_pairing.
  - exists id, o, l. split; [exact Hl|]. split; [exact Hc|]. apply Hr. reflexivity.
Defined.

Lemma node_image_has_images_witness :
  let run := prePullImagesAndWriteManifests DemoBuild.c DemoBuild.bits (mkVersion [1; 23; 0] true "" "") "build" DemoBuild.start in
  let w' := snd run in
  tried (pull_args "build" "linux/amd64" kindnetdImage) w' ∨
  ∃ p tags, p ∈ b_imagePaths DemoBuild.bits ∧ ran (load_args "build") (Some (archive_text (edited "amd64" DemoArchive.image))) w' ∧
    GetArchiveTags (edited "amd64" DemoArchive.image) = Ok tags ∧ kindnetdImage ∈ tags.
Proof.
  intros run w'. destruct (node_image_has_images DemoBuild.c DemoBuild.bits (λ _, DemoArchive.image) (mkVersion [1; 23; 0] true "" "")
    "build" DemoBuild.start [] w') as (listed & config & pause & _ & _ & _ & H).
  - reflexivity.
  - apply Forall_forall. intros p _. apply DemoArchive_well_named.
  - assert (fst run = Ok []) as <- by (vm_compute; reflexivity). apply surjective_pairing.
  - apply H. right. right. left. vm_compute. left.
Defined.
