(* ===== verification/Commands.v ===== *)
(** * The commands on clusters that are there

    src/pkg/cmd/kind/{delete/cluster,delete/clusters,get/clusters,get/nodes,get/kubeconfig,
    export/kubeconfig}: what is asked of the library, and what is printed.  The name of a
    cluster is that of the flag, after [Cli.OverrideDefaultName].  Shown: of the clusters that
    the deletion reports nothing is left, the others keep their nodes, and while the runtime
    is up it reports all of them. *)

From S2P Require Import DockerProvider PodmanProvider Kubeconfig.
From S2P Require Import Prelude State Concurrent GoStr KindConfig Nodes Docker Network Create NodeProvider Runtime Images Machine Exec Api.
Local Open Scope Z_scope.
Local Open Scope go_scope.
Local Open Scope stdpp_scope.

Section commands.
Context {W : Type} `{!HostExec W, !DockerLibs, !PodmanLibs, !NetLibs, !Host, !BuildContext W, !Schedule W, !Deadline W, !ProviderCache W}.
Context `{!KubeYaml, !KubeFiles (W:=W), !Actions (W:=W)}.
Context {Logger : Type} (NoopLogger logger : Logger).

(** *** delete *)

Definition delete_cluster_runE (name kubeconfig : string) : st W unit :=
  r ← new_runtime NoopLogger logger;
  st_wrap ("failed to delete cluster " +:+ Q name) (api_Delete r name kubeconfig).

(** The error of a deletion is logged, and the next one follows; what is returned is
    logged as well. *)
Fixpoint delete_each (r : runtime) (kubeconfig : string) (clusters : list string) : st W (list string) :=
  match clusters with
  | [] => mret []
  | cluster :: clusters =>
      deleted ← try_ (api_Delete r cluster kubeconfig);
      success ← delete_each r kubeconfig clusters;
      mret (if is_Ok deleted then cluster :: success else success)
  end.
Definition delete_clusters_runE (All : bool) (kubeconfig : string) (args : list string) : st W (list string) :=
  pure (fail_when (negb All && Nat.eqb (length args) 0) "no cluster names provided") ;;
  r ← new_runtime NoopLogger logger;
  clusters ← (if All then st_wrap "failed listing clusters for delete" (api_List r) else mret args);
  delete_each r kubeconfig clusters.

(** *** get: the lines that are printed *)

Definition get_clusters_runE : st W (list string) := r ← new_runtime NoopLogger logger; api_List r.
Fixpoint nodes_of_all (r : runtime) (clusters : list string) : st W (list string) :=
  match clusters with
  | [] => mret []
  | clusterName :: clusters =>
      clusterNodes ← api_ListNodes r clusterName;
      rest ← nodes_of_all r clusters;
      mret (clusterNodes ++ rest)
  end.
Definition get_nodes_runE (name : string) (AllClusters : bool) : st W (list string) :=
  r ← new_runtime NoopLogger logger;
  if AllClusters then clusters ← api_List r; nodes_of_all r clusters else api_ListNodes r name.
Definition get_kubeconfig_runE (name : string) (internal : bool) : st W string :=
  r ← new_runtime NoopLogger logger; api_KubeConfig r name internal.

(** *** export *)

Definition export_kubeconfig_runE (name kubeconfig : string) (internal : bool) : st W unit :=
  r ← new_runtime NoopLogger logger; api_ExportKubeConfig r name kubeconfig internal.
End commands.

(** ** What a deletion leaves *)

Section deletion.
Context {W : Type} (rt : string) `{NodeProvider W rt, !Deadline W, !Schedule W, !ClusterSteps W, !ClusterStepsLaws W rt}.

Lemma delete_leaves_none name path (w w' : W) :
  @delete_Cluster W (cluster_env rt) name path w = (Ok tt, w') → nodes_in rt name w' = [].
Proof.
  unfold delete_Cluster. cbn [ListNodes kubeconfig_Remove DeleteNodes cluster_env].
  intros ([] & w1 & [_ ->]%pure_run & E)%st_bind_Ok.
  apply st_bind_Ok in E as (n & w2 & El%st_wrap_Ok & E). pose proof (ListNodes_same rt name w) as Hl. rewrite El in Hl.
  apply (ListNodes_Ok rt) in El as ->. apply st_bind_Ok in E as ([] & w3 & Er & E).
  unfold ignore_err in Er. destruct (cs_Remove name path w2) as [r2 w4] eqn:Ec. apply cs_Remove_keeps in Ec as [_ Ec].
  assert (w4 = w3) as -> by (by destruct r2; injection Er).
  assert (nodes_in rt name w3 = nodes_in rt name w) as E3 by (unfold nodes_in; unfold same_boxes in Hl; by rewrite Ec, Hl).
  apply np_DeleteNodes_removes in E as (gone & _ & Hg & Eb); [|rewrite <-E3; apply nodes_in_there].
  specialize (Hg eq_refl) as ->. rewrite (nodes_in_removed rt name _ _ _ Eb), E3.
  apply filter_all_gone.
Qed.

(** No cluster gets a node. *)
Definition fewer : relation W := λ w w', ∀ c, nodes_in rt c w' ⊆ nodes_in rt c w.
#[export] Instance fewer_preorder : PreOrder fewer.
Proof. split; [by intros w c|]. intros w1 w2 w3 H12 H23 c. by rewrite (H23 c), (H12 c). Qed.
Lemma same_fewer w w' : same_boxes rt w w' → fewer w w'.
Proof. intros E c. unfold nodes_in. by rewrite E. Qed.
Lemma delete_fewer name path : sat (@delete_Cluster W (cluster_env rt) name path) fewer fewer.
Proof.
  apply sat_always. intros w r w' E. unfold delete_Cluster in E. cbn [ListNodes kubeconfig_Remove DeleteNodes cluster_env] in E.
  apply (keeps_then rt) in E as [[E _]|([] & w1 & _ & E1 & E)]; [by apply same_fewer| |apply sat_pure].
  apply (keeps_then rt) in E as [[E _]|(n & w2 & El & E2 & E)]; [apply same_fewer; unfold same_boxes; congruence| |apply sat_wrap, ListNodes_same].
  apply st_wrap_Ok, (ListNodes_Ok rt) in El as ->.
  apply (keeps_then rt) in E as [[E _]|([] & w3 & _ & E3 & E)]; [apply same_fewer; unfold same_boxes; congruence| |].
  2: { apply sat_ignore, sat_always. intros v r1 v' [_ Er]%cs_Remove_keeps. exact Er. }
  assert (same_boxes rt w1 w3) as E13 by (unfold same_boxes; congruence).
  apply np_DeleteNodes_removes in E as (gone & _ & _ & Eb); [|rewrite E13; apply nodes_in_there].
  intros c. rewrite (nodes_in_removed rt c _ _ _ Eb). intros x [Hx _]%list_elem_of_In%filter_In.
  apply list_elem_of_In in Hx. unfold nodes_in in *. congruence.
Qed.
End deletion.

Section deleted.
Context {W : Type} `{!HostExec W, !DockerLibs, !PodmanLibs, !NetLibs, !Host, !BuildContext W, !Schedule W, !Deadline W, !ProviderCache W}.
Context `{!KubeYaml, !KubeFiles (W:=W), !Actions (W:=W)}.
Context (r : runtime) `{!RuntimeLaws W (program r), !OtherLaws W (program r), !ApiLaws W r}.
#[local] Instance the_provider : NodeProvider W (program r) := api_provider r.
#[local] Instance the_steps : ClusterSteps W := api_steps r.
#[local] Instance the_steps_laws : ClusterStepsLaws W (program r) := api_steps_laws r.

Lemma api_Delete_fewer name path : sat (api_Delete r name path) (fewer (program r)) (fewer (program r)).
Proof. unfold api_Delete. rewrite (runtime_env_cluster r). apply (delete_fewer (program r)). Qed.
Lemma api_Delete_none name path (w w' : W) :
  api_Delete r name path w = (Ok tt, w') → nodes_in (program r) (defaultName name) w' = [].
Proof. unfold api_Delete. rewrite (runtime_env_cluster r). apply (delete_leaves_none (program r)). Qed.
Lemma api_Delete_others name path :
  sat (api_Delete r name path) (others (program r) (defaultName name)) (others (program r) (defaultName name)).
Proof. unfold api_Delete. rewrite (runtime_env_cluster r). apply (delete_others (program r)). Qed.
Lemma delete_each_fewer kubeconfig clusters : sat (delete_each r kubeconfig clusters) (fewer (program r)) (fewer (program r)).
Proof.
  induction clusters as [|d clusters IH]; cbn [delete_each]; [apply sat_ret|].
  sat_step; [|sat_step; [apply IH|apply sat_ret]].
  apply sat_try_always, api_Delete_fewer.
Qed.

(** C14. Deleting several clusters gives no error for those that could not be deleted: of the
    ones that it reports no node is left, clusters that were not named keep their nodes, and
    while the runtime is up all are reported. *)
Theorem deleted_clusters_gone kubeconfig clusters (w w' : W) success :
  delete_each r kubeconfig clusters w = (Ok success, w') →
  success ⊆ clusters ∧
  (∀ c, c ∈ success → nodes_in (program r) (defaultName c) w' = []) ∧
  (∀ c, c ∉ map defaultName clusters → nodes_in (program r) c w' = nodes_in (program r) c w) ∧
  (RuntimeUp W (program r) → (r = PodmanRuntime → VolumesUp W) → success = clusters).
Proof.
  revert w success. induction clusters as [|cluster clusters IH]; intros w success; cbn [delete_each].
  - intros [= <- <-]. split_and!; [done|by intros c ?%not_elem_of_nil|done|done].
  - intros (deleted & w1 & Ed & E)%st_bind_Ok. apply st_bind_Ok in E as (rest & w2 & E & [= <- <-]).
    assert (api_Delete r cluster kubeconfig w = (deleted, w1)) as Edel.
    { unfold try_ in Ed. destruct (api_Delete r cluster kubeconfig w) as [[]]; by simplify_eq. }
    pose proof (delete_each_fewer kubeconfig clusters w1) as Hf. rewrite E in Hf.
    destruct (IH w1 rest E) as (Hsub & Hgone & Hother & Hall). split_and!.
    + destruct (is_Ok deleted); set_solver.
    + assert (is_Ok deleted = true → nodes_in (program r) (defaultName cluster) w2 = []) as Hc.
      { destruct deleted as [[]|e|x]; [|done..]. intros _. apply api_Delete_none in Edel.
        specialize (Hf (defaultName cluster)). rewrite Edel in Hf.
        destruct (nodes_in _ _ w2) as [|x l]; [done|]. exfalso. apply (not_elem_of_nil x), Hf. by left. }
      intros c Hin. destruct (is_Ok deleted); [|by apply Hgone]. apply elem_of_cons in Hin as [->|Hin]; [by apply Hc|by apply Hgone].
    + intros c [Hc Hcs]%not_elem_of_cons. rewrite Hother by done.
      pose proof (api_Delete_others cluster kubeconfig w) as Ho. rewrite Edel in Ho.
      destruct deleted; by apply Ho.
    + intros Hup Hvol. rewrite (Hall Hup Hvol). pose proof (api_provider_up r _ Hvol) as Hpu.
      destruct (@delete_removes W _ (cluster_env_laws (program r)) (defaultName cluster) kubeconfig w) as (w3 & E3 & _); [|done|].
      { unfold defaultName. by destruct (String.eqb_spec cluster ""). }
      assert (api_Delete r cluster kubeconfig w = (Ok tt, w3)) as E4 by (unfold api_Delete; by rewrite (runtime_env_cluster r)).
      assert (deleted = Ok tt) as -> by congruence. done.
Qed.
End deleted.

(** ** On a small machine *)

Module DemoDelete.
#[local] Existing Instances demo_docker_libs Network.demo_libs demo_host.
#[local] Instance actions : Actions (W:=machine) := {|
  action_Execute := λ _ _ _, mret tt;
  assign_Capx_opts := λ v, modify (λ m, mkMachine (mc_boxes m) (mc_volumes m) (mc_info m) v (mc_good m))
|}.
#[local] Instance api_laws : @ApiLaws machine DockerRuntime DemoApi.exec DemoApi.laws DemoApi.files actions.
Proof. split; [by intros|by intros name path w r w' [= <- <-]|by eexists|by intros]. Defined.
(** A runtime that removes nothing. *)
Definition stuck : HostExec machine := {|
  host := λ args stdin w,
    if str_in "rm" args then (mkOutcome "" "no" (Some "exit status 1"), w) else @host machine DemoApi.exec args stdin w;
  shell_Quote := @shell_Quote machine DemoApi.exec
|}.
Definition delete (exec : HostExec machine) (clusters : list string) : st machine (list string) :=
  @delete_each machine exec _ DemoApi.podman _ _ _ _ _ _ DemoApi.yaml DemoApi.files actions DockerRuntime "" clusters.
End DemoDelete.
#[local] Existing Instances demo_docker_libs Network.demo_libs demo_host.

Lemma deleted_clusters_gone_witness :
  let w' := snd (DemoDelete.delete DemoApi.exec ["other"; "demo"] DemoApi.one) in
  @nodes_in machine DemoApi.exec "docker" DemoApi.laws "demo" DemoApi.one = ["demo-control-plane"] ∧
  @nodes_in machine DemoApi.exec "docker" DemoApi.laws "demo" w' = [].
Proof.
  intros w'. split; [reflexivity|].
  destruct (@deleted_clusters_gone machine DemoApi.exec _ DemoApi.podman _ _ _ _ _ _ DemoApi.yaml DemoApi.files DemoDelete.actions
    DockerRuntime DemoApi.laws DemoApi.other DemoDelete.api_laws "" ["other"; "demo"] DemoApi.one w' ["other"; "demo"]) as (_ & H & _).
  - assert (fst (DemoDelete.delete DemoApi.exec ["other"; "demo"] DemoApi.one) = Ok ["other"; "demo"]) as <- by (vm_compute; reflexivity).
    apply surjective_pairing.
  - apply (H "demo"). right. left.
Defined.
(** A cluster that could not be deleted is passed over without an error. *)
Example deletion_failed :
  let '(r, w) := DemoDelete.delete DemoDelete.stuck ["demo"] DemoApi.one in
  r = Ok [] ∧ bx_name <$> mc_boxes w = ["demo-control-plane"].
Proof. vm_compute. done. Qed.
