(* ===== verification/Pipes.v ===== *)
(** * Pipes and writers of commands: [pkg/exec]

    src/pkg/exec/helpers.go and local.go.  First the pipe between a command and a function
    ([RunWithStdoutReader], [RunWithStdinWriter]): two goroutines, a bounded buffer, and the
    caller that waits for both, as a step relation.  Shown: it always ends, whatever the
    side that reads leaves unread; and what was read is what the command writes when it
    runs alone, which is how the other files take such a command.  Then [LocalCmd.Run]:
    which writers the outputs of a command go to, and what its error has captured. *)

From S2P Require Import Prelude GoStr Errors Exec.
Local Open Scope stdpp_scope.

Abbreviation bytes := (list ascii).

(** ** The two sides *)

(** The side that writes: what it does when all bytes of a write were taken ([true]), or the
    pipe has no reader any more ([false]). *)
Inductive writing :=
| WReturn (err : option error)
| WWrite (bs : bytes) (k : bool → writing).

(** What it writes when everything is taken, and the error it then returns. *)
Fixpoint alone (p : writing) : bytes * option error :=
  match p with
  | WReturn err => ([], err)
  | WWrite bs k => let '(out, err) := alone (k true) in (bs ++ out, err)
  end.

(** The side that reads, as an automaton: it returns, or reads up to [S n] bytes and goes on
    with them, or with [None] at the end of the input. *)
Inductive reaction (R : Type) :=
| Return (err : option error)
| Read (n : nat) (k : option bytes → R).
Arguments Return {R} err.
Arguments Read {R} n k.

Section pipe.
Context {R : Type} (react : R → reaction R) (cap : nat).

(** A goroutine runs its function, has closed its end of the pipe and is about to send, or
    has sent.  Its end of the pipe is open while the function runs. *)
Inductive wgo := WRun (p : writing) | WClosed (err : option error) | WDone (err : option error).
Inductive rgo := RRun (q : R) | RClosed (err : option error) | RDone (err : option error).
Record pipe := mkPipe {
  pp_buf : bytes;
  pp_writer : wgo;
  pp_reader : rgo;
  pp_chan : list (option error);
  pp_caller : caller
}.

Definition w_open (w : wgo) : bool := match w with WRun _ => true | _ => false end.
Definition r_open (r : rgo) : bool := match r with RRun _ => true | _ => false end.

(** A write takes as much as there is room for, in one piece or in several; a read takes
    any bytes that are there. *)
Inductive pipe_step : pipe → pipe → Prop :=
| W_write buf b1 b2 k r ch m :
    b1 ≠ [] → r_open r = true → (length buf + length b1 <= cap)%nat →
    pipe_step (mkPipe buf (WRun (WWrite (b1 ++ b2) k)) r ch m) (mkPipe (buf ++ b1) (WRun (WWrite b2 k)) r ch m)
| W_written buf k r ch m :
    pipe_step (mkPipe buf (WRun (WWrite [] k)) r ch m) (mkPipe buf (WRun (k true)) r ch m)
| W_broken buf bs k r ch m :
    bs ≠ [] → r_open r = false →
    pipe_step (mkPipe buf (WRun (WWrite bs k)) r ch m) (mkPipe buf (WRun (k false)) r ch m)
| W_close buf e r ch m :
    pipe_step (mkPipe buf (WRun (WReturn e)) r ch m) (mkPipe buf (WClosed e) r ch m)
| W_send buf e r ch m :
    pipe_step (mkPipe buf (WClosed e) r ch m) (mkPipe buf (WDone e) r (ch ++ [e]) m)
| R_read b1 b2 w q n k ch m :
    react q = Read n k → b1 ≠ [] → (length b1 <= S n)%nat →
    pipe_step (mkPipe (b1 ++ b2) w (RRun q) ch m) (mkPipe b2 w (RRun (k (Some b1))) ch m)
| R_eof w q n k ch m :
    react q = Read n k → w_open w = false →
    pipe_step (mkPipe [] w (RRun q) ch m) (mkPipe [] w (RRun (k None)) ch m)
| R_close buf w q e ch m :
    react q = Return e → pipe_step (mkPipe buf w (RRun q) ch m) (mkPipe buf w (RClosed e) ch m)
| R_send buf w e ch m :
    pipe_step (mkPipe buf w (RClosed e) ch m) (mkPipe buf w (RDone e) (ch ++ [e]) m)
| P_return buf e1 e2 ch :
    pipe_step (mkPipe buf (WDone e1) (RDone e2) ch (Receiving 0))
              (mkPipe buf (WDone e1) (RDone e2) ch (Returned (collect ch))).

(** [RunWithStdoutReader]: the command writes and the function reads; in
    [RunWithStdinWriter] it is the other way round. *)
Definition RunWithStdoutReader (cmd : writing) (readerFunc : R) : pipe :=
  mkPipe [] (WRun cmd) (RRun readerFunc) [] (Receiving 0).
Definition RunWithStdinWriter (writerFunc : writing) (cmd : R) : pipe :=
  mkPipe [] (WRun writerFunc) (RRun cmd) [] (Receiving 0).

(** The side that reads has taken these bytes, and seen the end of the input or not. *)
Inductive taken (q0 : R) : bytes → bool → R → Prop :=
| T_start : taken q0 [] false q0
| T_read s q n k b : taken q0 s false q → react q = Read n k → b ≠ [] → (length b <= S n)%nat →
    taken q0 (s ++ b) false (k (Some b))
| T_eof s eof q n k : taken q0 s eof q → react q = Read n k → taken q0 s true (k None).

(** It returns when it gets at most [m] bytes and then the end of the input, as often as it
    asks for it. *)
Inductive returns : nat → R → Prop :=
| Re_return m q e : react q = Return e → returns m q
| Re_read m q n k : react q = Read n k →
    (∀ b m', b ≠ [] → (length b + m' <= m)%nat → returns m' (k (Some b))) → returns 0 (k None) → returns m q.
End pipe.
Arguments pipe : clear implicits.
Arguments rgo : clear implicits.

(** ** It ends *)

Section ends.
Context {R : Type} (react : R → reaction R) (cap : nat).
Abbreviation step := (pipe_step react cap).

(** The bytes that may still be written, and the steps of the side that writes. *)
Fixpoint volume (p : writing) : nat :=
  match p with WReturn _ => 0 | WWrite bs k => length bs + Nat.max (volume (k true)) (volume (k false)) end.
Fixpoint work (p : writing) : nat :=
  match p with WReturn _ => 0 | WWrite bs k => S (length bs + Nat.max (work (k true)) (work (k false))) end.

Definition volume_of (st : pipe R) : nat :=
  length (pp_buf st) + match pp_writer st with WRun p => volume p | _ => 0 end.
(** The steps but those of the side that reads, while it runs. *)
Definition rest_of (st : pipe R) : nat :=
  match pp_writer st with WRun p => 2 + work p | WClosed _ => 1 | WDone _ => 0 end +
  match pp_reader st with RRun _ => 2 | RClosed _ => 1 | RDone _ => 0 end +
  match pp_caller st with Receiving _ => 1 | Returned _ => 0 end.

Lemma returns_mono m m' q : returns react m q → (m' <= m)%nat → returns react m' q.
Proof.
  intros Hq. revert m'. induction Hq as [m q e He|m q n k Hk Hb IH He _]; intros m' Hm; [by eapply Re_return|].
  eapply Re_read; [done| |done]. intros b m2 Hne Hl. apply Hb; [done|lia].
Qed.

(** What a read leaves of at most [m] bytes. *)
Definition after_read (m : nat) (q : R) (st : pipe R) : Prop :=
  ∃ n k, react q = Read n k ∧
    ((∃ b, b ≠ [] ∧ pp_reader st = RRun (k (Some b)) ∧ (length b + volume_of st <= m)%nat) ∨
     pp_reader st = RRun (k None) ∧ volume_of st = 0%nat).

(** Every step but a read takes work away, and no step adds bytes. *)
Lemma step_rest st st' : step st st' →
  (rest_of st' < rest_of st ∧ volume_of st' <= volume_of st)%nat ∧
    (∀ q, pp_reader st' = RRun q → pp_reader st = RRun q) ∨
  ∃ q, pp_reader st = RRun q ∧ after_read (volume_of st) q st'.
Proof.
  destruct 1; unfold rest_of, volume_of, after_read, volume_of; simpl; rewrite ?length_app;
    try (left; split; [split; simpl; lia|by intros ? [= <-]]); try (by left; split; [split; simpl; lia|]).
  - assert (length b1 ≠ 0%nat) by (by destruct b1). left. split; [lia|done].
  - right. exists q. split; [done|]. exists n, k. split; [done|]. left. exists b1. split_and!; [done..|lia].
  - right. exists q. split; [done|]. exists n, k. split; [done|]. right. split; [done|]. by destruct w.
Qed.

Lemma returned_sn st : (∀ q, pp_reader st ≠ RRun q) → sn step st.
Proof.
  remember (rest_of st) as f eqn:Hf. revert st Hf. induction (lt_wf f) as [f _ IH]. intros st -> Hq.
  constructor. intros st' [((Hlt & _) & Hr)|(q & E & _)]%step_rest; [|by destruct (Hq q)].
  eapply IH; [exact Hlt|done|]. intros q E%Hr. by destruct (Hq q).
Qed.

Lemma reads_sn m q : (∀ st, after_read m q st → sn step st) →
  ∀ st, pp_reader st = RRun q → (volume_of st <= m)%nat → sn step st.
Proof.
  intros Hr st. remember (rest_of st) as f eqn:Hf. revert st Hf. induction (lt_wf f) as [f _ IH].
  intros st -> Hq Hm. constructor. intros st' [((Hlt & Hv) & Hs)|(q' & E & n & k & Hk & Ha)]%step_rest.
  - destruct (pp_reader st') as [q'| |] eqn:E; [|apply returned_sn; congruence..].
    assert (q' = q) as -> by (pose proof (Hs _ eq_refl); congruence). eapply IH; [exact Hlt|done|done|lia].
  - assert (q' = q) as -> by congruence. apply Hr. exists n, k. split; [done|].
    destruct Ha as [(b & ? & ? & ?)|[? ?]]; [left; exists b; split_and!; [done..|lia]|by right].
Qed.

Lemma running_sn m q : returns react m q →
  ∀ st, pp_reader st = RRun q → (volume_of st <= m)%nat → sn step st.
Proof.
  induction 1 as [m q e He|m q n k Hk _ IHb _ IHe]; apply reads_sn; intros st (n' & k' & Hk' & Ha).
  { by rewrite He in Hk'. }
  rewrite Hk in Hk'. injection Hk' as <- <-. destruct Ha as [(b & Hne & Hq & Hl)|[Hq Hv]]; [by eapply IHb|].
  apply IHe; [done|lia].
Qed.

(** ** Nobody waits for ever *)

Definition pipe_wf (st : pipe R) : Prop :=
  (length (pp_buf st) <= cap)%nat ∧ (pp_caller st = Receiving 0 ∨ ∃ r, pp_caller st = Returned r).

Lemma step_wf st st' : step st st' → pipe_wf st → pipe_wf st'.
Proof.
  unfold pipe_wf. destruct 1; simpl; rewrite ?length_app; intros [? ?]; try (split; [lia|done]).
  split; [done|eauto].
Qed.

Lemma not_stuck st : (0 < cap)%nat → pipe_wf st → nf step st → ∃ r, pp_caller st = Returned r.
Proof.
  destruct st as [buf w r ch m]. intros Hcap [Hb Hm] Hnf. simpl in *.
  destruct Hm as [->|?]; [|done]. exfalso. apply Hnf. unfold red.
  destruct w as [[e|[|x bs] k]|e|e1]; [by eexists; constructor..| |by eexists; constructor|].
  - destruct r as [q|e|e2]; [|by eexists; constructor|by eexists; apply W_broken].
    destruct buf as [|y buf].
    + eexists. apply (W_write react cap [] [x] bs); [done|done|simpl; lia].
    + destruct (react q) as [e|n k'] eqn:E; [by eexists; eapply R_close|].
      eexists. eapply (R_read react cap [y] buf); [done|done|simpl; lia].
  - destruct r as [q|e|e2]; [|by eexists; constructor|by eexists; constructor].
    destruct (react q) as [e|n k'] eqn:E; [by eexists; eapply R_close|]. destruct buf as [|y buf].
    + by eexists; eapply R_eof.
    + eexists. eapply (R_read react cap [y] buf); [done|done|simpl; lia].
Qed.
End ends.

(** ** What is read *)

Section content.
Context {R : Type} (react : R → reaction R) (cap : nat) (cmd : writing) (q0 : R).
Abbreviation step := (pipe_step react cap).

(** What the side that writes has left, when nothing is refused, and its error. *)
Definition to_write (w : wgo) : bytes * option error :=
  match w with WRun p => alone p | WClosed e | WDone e => ([], e) end.
Definition sent_w (w : wgo) : list (option error) := match w with WDone e => [e] | _ => [] end.
Definition sent_r (r : rgo R) : list (option error) := match r with RDone e => [e] | _ => [] end.

(** While the side that reads runs, what it took, what is in the pipe and what is left
    are together what the command writes when it is alone. *)
Definition flow (st : pipe R) : Prop :=
  ∃ s eof q, taken react q0 s eof q ∧ s `prefix_of` (alone cmd).1 ∧
    match pp_reader st with
    | RRun q' => q' = q ∧ alone cmd = (s ++ pp_buf st ++ (to_write (pp_writer st)).1, (to_write (pp_writer st)).2)
    | RClosed e | RDone e => react q = Return e
    end ∧
    (eof = true → s = (alone cmd).1 ∧ w_open (pp_writer st) = false ∧ (to_write (pp_writer st)).2 = (alone cmd).2).

(** What was sent to the caller, and what it returned. *)
Definition sent (st : pipe R) : Prop :=
  pp_chan st ≡ₚ sent_w (pp_writer st) ++ sent_r (pp_reader st) ∧
  ∀ r, pp_caller st = Returned r → r = collect (pp_chan st) ∧ ∃ e1 e2, pp_writer st = WDone e1 ∧ pp_reader st = RDone e2.

Lemma sent_step st st' : step st st' → sent st → sent st'.
Proof.
  destruct 1; unfold sent; simpl; intros [Hch Hm]; try (by split; [done|]);
    try (split; [|by intros r' (_ & ? & ? & ? & ?)%Hm]); try done.
  - by rewrite Hch, Permutation_app_comm.
  - rewrite app_nil_r in Hch. by rewrite Hch.
  - split; [done|]. intros r [= <-]. eauto.
Qed.

Lemma to_write_written bs k : to_write (WRun (WWrite bs k)) = (bs ++ (to_write (WRun (k true))).1, (to_write (WRun (k true))).2).
Proof. simpl. by destruct (alone (k true)). Qed.

Lemma flow_step st st' : step st st' → flow st → flow st'.
Proof.
  intros Hs (s & eof & q & Ht & Hp & Hr & He). destruct Hs; cbn [pp_buf pp_writer pp_reader w_open] in *.
  - destruct r as [q'| |]; [|done..]. destruct Hr as [-> Hr]. exists s, eof, q. cbn [pp_buf pp_writer pp_reader w_open].
    rewrite to_write_written in *. cbn [fst snd] in *. rewrite <-!app_assoc in *. split_and!; [done..|].
    by intros (_ & ? & _)%He.
  - exists s, eof, q. cbn [pp_buf pp_writer pp_reader w_open]. rewrite to_write_written in *. cbn [fst snd app] in *.
    split_and!; [done..|]. by intros (_ & ? & _)%He.
  - exists s, eof, q. destruct r; [done|..]; split_and!; try done; by intros (_ & ? & _)%He.
  - exists s, eof, q. split_and!; try done. by intros (_ & ? & _)%He.
  - exists s, eof, q. by split_and!.
  - destruct Hr as [-> Hr].
    assert (eof = false) as ->.
    { destruct eof; [|done]. exfalso. destruct He as (-> & _ & _); [done|]. apply (f_equal (length ∘ fst)) in Hr.
      simpl in Hr. rewrite !length_app in Hr. by destruct b1; simpl in Hr; [|lia]. }
    exists (s ++ b1), false, (k (Some b1)). rewrite <-!app_assoc in *. cbn [pp_buf pp_writer pp_reader].
    split_and!; [by eapply T_read| |done|done|done]. rewrite Hr. exists (b2 ++ (to_write w).1). by rewrite <-app_assoc.
  - destruct Hr as [-> Hr]. exists s, true, (k None). cbn [pp_buf pp_writer pp_reader].
    assert (alone cmd = (s, (to_write w).2)) as Ha. { rewrite Hr. destruct w; [done|..]; simpl; by rewrite app_nil_r. }
    split_and!; [by eapply T_eof|done|done|done|]. intros _. by rewrite Ha.
  - destruct Hr as [-> Hr]. by exists s, eof, q.
  - by exists s, eof, q.
  - by exists s, eof, q.
Qed.

Lemma flow_start cap_ : pp_buf cap_ = [] → pp_writer cap_ = WRun cmd → pp_reader cap_ = RRun q0 → flow cap_.
Proof.
  intros Hb Hw Hr. exists [], false, q0. rewrite Hb, Hw, Hr. split_and!; [apply T_start|apply prefix_nil|done| |done].
  simpl. by destruct (alone cmd).
Qed.
End content.

Section run.
Context {R : Type} (react : R → reaction R) (cap : nat).
Abbreviation step := (pipe_step react cap).

Lemma pipe_reachable_inv cmd q0 st : rtc step (RunWithStdoutReader cmd q0) st →
  pipe_wf cap st ∧ flow react cmd q0 st ∧ sent st.
Proof.
  intros Hst. eapply rtc_ind_r with (P := λ st, pipe_wf cap st ∧ flow react cmd q0 st ∧ sent st); [| |exact Hst].
  - split_and!; [split; [simpl; lia|by left]|by apply flow_start|by split].
  - intros y z _ Hs (? & ? & ?). split_and!; [by eapply step_wf|by eapply flow_step|by eapply sent_step].
Qed.

(** C16. A command whose output is piped to a function, or whose input comes from one, always comes to
    an end, whichever side is scheduled and however much the side that reads leaves unread:
    no run is endless, and in a state in which nothing can happen any more the call has
    returned.  (The side that reads has to return on a finite input.) *)
Theorem pipe_ends cmd readerFunc :
  (0 < cap)%nat → (∀ m, returns react m readerFunc) →
  sn step (RunWithStdoutReader cmd readerFunc) ∧
  ∀ st, rtc step (RunWithStdoutReader cmd readerFunc) st → nf step st → ∃ r, pp_caller st = Returned r.
Proof.
  intros Hcap Hq. split; [by eapply running_sn; [apply Hq|done|]|].
  intros st (Hwf & _ & _)%pipe_reachable_inv Hnf. by eapply not_stuck.
Qed.

(** C10. However the two sides of the pipe interleave, when the call returns the function has
    read a prefix of what the command writes when it runs alone, and all of it if it saw
    the end of the input; then the command ended as it does alone.  The result of the call
    is that of the two errors, in either order. *)
Theorem pipe_content cmd readerFunc st r :
  rtc step (RunWithStdoutReader cmd readerFunc) st → pp_caller st = Returned r →
  ∃ s eof q e1 e2, taken react readerFunc s eof q ∧ react q = Return e2 ∧ s `prefix_of` (alone cmd).1 ∧
    (eof = true → s = (alone cmd).1 ∧ e1 = (alone cmd).2) ∧
    (r = collect [e1; e2] ∨ r = collect [e2; e1]).
Proof.
  intros (_ & (s & eof & q & Ht & Hp & Hr & He) & Hch & Hm)%pipe_reachable_inv Hc.
  apply Hm in Hc as (-> & e1 & e2 & Hw & Hrd). rewrite Hw, Hrd in *. exists s, eof, q, e1, e2.
  split_and!; [done..| |]. { intros (? & _ & ?)%He. done. }
  simpl in Hch. symmetry in Hch. apply Permutation_length_2_inv in Hch as [->| ->]; auto.
Qed.
End run.

(** ** The writers of a command

    What [cmd.Stdout] and [cmd.Stderr] may be: a pointer, which is equal to itself only, or
    a value of a type that cannot be compared, whose comparison panics. *)
Inductive writer := Pointer (id : nat) | Uncomparable (id : nat).
#[export] Instance writer_eq_dec : EqDecision writer.
Proof. solve_decision. Defined.

(** The panic of the comparison is recovered, and the result is still false. *)
Definition interfaceEqual (a b : option writer) : bool :=
  match a, b with
  | Some (Pointer i), Some (Pointer j) => Nat.eqb i j
  | None, None => true
  | _, _ => false
  end.

Record LocalCmd := mkLocalCmd {
  lc_Args : list string;
  lc_Env : list string;
  lc_Stdin : option nat;
  lc_Stdout : option writer;
  lc_Stderr : option writer
}.
Definition Command (name : string) (arg : list string) : LocalCmd := mkLocalCmd (name :: arg) [] None None None.
Definition SetEnv (env : list string) (cmd : LocalCmd) : LocalCmd :=
  mkLocalCmd (lc_Args cmd) env (lc_Stdin cmd) (lc_Stdout cmd) (lc_Stderr cmd).
Definition SetStdin (r : nat) (cmd : LocalCmd) : LocalCmd :=
  mkLocalCmd (lc_Args cmd) (lc_Env cmd) (Some r) (lc_Stdout cmd) (lc_Stderr cmd).
Definition SetStdout (w : writer) (cmd : LocalCmd) : LocalCmd :=
  mkLocalCmd (lc_Args cmd) (lc_Env cmd) (lc_Stdin cmd) (Some w) (lc_Stderr cmd).
Definition SetStderr (w : writer) (cmd : LocalCmd) : LocalCmd :=
  mkLocalCmd (lc_Args cmd) (lc_Env cmd) (lc_Stdin cmd) (lc_Stdout cmd) (Some w).

(** [os.Stdout] and [os.Stderr] are two pointers, 1 and 2. *)
Definition InheritOutput (cmd : LocalCmd) : LocalCmd := SetStdout (Pointer 1) (SetStderr (Pointer 2) cmd).

(** Where the bytes of an output go to; [Captured] is the buffer of [Run]. *)
Inductive sink := To (w : writer) | Captured.
#[export] Instance sink_eq_dec : EqDecision sink.
Proof. solve_decision. Defined.

(** The writers that [Run] gives to the two outputs; when they are one and the same, Go
    copies both with one goroutine. *)
Inductive plumbing := Shared (both : list sink) | Separate (out err : list sink).
Definition tee (w : option writer) : list sink :=
  match w with Some w => [To w; Captured] | None => [Captured] end.
Definition plumb (cmd : LocalCmd) : plumbing :=
  match lc_Stdout cmd, lc_Stderr cmd with
  | None, None => Shared [Captured]
  | out, err => if interfaceEqual out err then Shared (tee out) else Separate (tee out) (tee err)
  end.

(** What a process writes, in order; [true] is the standard error. *)
Abbreviation trace := (list (bool * bytes)).
Definition stream (fd : bool) (t : trace) : bytes := concat ((λ e, if Bool.eqb e.1 fd then e.2 else []) <$> t).
Definition everything (t : trace) : bytes := concat (snd <$> t).

Inductive interleaved {A} : list A → list A → list A → Prop :=
| I_nil : interleaved [] [] []
| I_left x l1 l2 l : interleaved l1 l2 l → interleaved (x :: l1) l2 (x :: l)
| I_right x l1 l2 l : interleaved l1 l2 l → interleaved l1 (x :: l2) (x :: l).

(** What a sink may get: with one goroutine the bytes as they were written; with two each
    copies its output in pieces, and a write to the sink is one piece (the captured output
    has a mutex for that). *)
Definition goes_to (d : sink) (l : list sink) : bool := bool_decide (d ∈ l).
Definition receives (p : plumbing) (t : trace) (d : sink) (got : bytes) : Prop :=
  match p with
  | Shared both => got = if goes_to d both then everything t else []
  | Separate out err => ∃ c1 c2 c : list bytes,
      concat c1 = (if goes_to d out then stream false t else []) ∧
      concat c2 = (if goes_to d err then stream true t else []) ∧ interleaved c1 c2 c ∧ got = concat c
  end.

Lemma interleaved_concat (c1 c2 c : list bytes) : interleaved c1 c2 c →
  concat c1 `sublist_of` concat c ∧ concat c2 `sublist_of` concat c ∧
  concat c ≡ₚ concat c1 ++ concat c2.
Proof.
  induction 1 as [|x c1 c2 c _ (IH1 & IH2 & IH)|x c1 c2 c _ (IH1 & IH2 & IH)]; simpl; [done|..]; split_and!.
  - by apply sublist_app.
  - by apply sublist_inserts_l.
  - by rewrite IH, app_assoc.
  - by apply sublist_inserts_l.
  - by apply sublist_app.
  - rewrite IH, !app_assoc. apply Permutation_app_tail, Permutation_app_comm.
Qed.

Lemma interleaved_one (c1 c2 c : list bytes) : interleaved c1 c2 c → concat c2 = [] → concat c = concat c1.
Proof.
  induction 1 as [|x c1 c2 c _ IH|x c1 c2 c _ IH]; simpl; [done|intros H; by rewrite IH|].
  intros [-> H]%app_nil. by apply IH.
Qed.

Lemma streams_everything t : stream false t ++ stream true t ≡ₚ everything t.
Proof.
  unfold stream, everything. induction t as [|[fd b] t IH]; [done|]. destruct fd; simpl; rewrite <-IH, !app_assoc;
    [apply Permutation_app_tail, Permutation_app_comm|done].
Qed.
Lemma stream_everything fd t : stream fd t `sublist_of` everything t.
Proof.
  unfold stream, everything. induction t as [|[fd' b] t IH]; [done|]. simpl.
  destruct (Bool.eqb fd' fd); simpl; [by apply sublist_app|by apply sublist_inserts_l].
Qed.

Lemma captured_tee w : goes_to Captured (tee w) = true.
Proof. by destruct w. Qed.
Lemma to_tee w v : goes_to (To w) (tee v) = bool_decide (v = Some w).
Proof.
  unfold goes_to. apply bool_decide_ext. destruct v as [v|]; simpl; rewrite !elem_of_cons, elem_of_nil; naive_solver.
Qed.

Lemma plumb_shared cmd : interfaceEqual (lc_Stdout cmd) (lc_Stderr cmd) = true →
  plumb cmd = Shared (tee (lc_Stdout cmd)).
Proof. unfold plumb. intros E. destruct (lc_Stdout cmd), (lc_Stderr cmd); rewrite ?E; try done; by destruct w. Qed.
Lemma plumb_separate cmd : interfaceEqual (lc_Stdout cmd) (lc_Stderr cmd) = false →
  plumb cmd = Separate (tee (lc_Stdout cmd)) (tee (lc_Stderr cmd)).
Proof. unfold plumb. intros E. by destruct (lc_Stdout cmd), (lc_Stderr cmd); rewrite ?E. Qed.

(** Whatever writers a command was given, the output that its error captures has every byte
    that it wrote, those of each output in their order; and when both outputs go to the
    same pointer, or to none, all in the order in which they were written.  A writer that
    was given for the standard output alone gets just that. *)
Theorem Run_captures cmd t :
  (∀ got, receives (plumb cmd) t Captured got →
     got ≡ₚ everything t ∧ (∀ fd, stream fd t `sublist_of` got) ∧
     (interfaceEqual (lc_Stdout cmd) (lc_Stderr cmd) = true → got = everything t)) ∧
  (∀ w got, lc_Stdout cmd = Some w → lc_Stderr cmd ≠ Some w → receives (plumb cmd) t (To w) got →
     got = stream false t) ∧
  (∀ i got, lc_Stdout cmd = Some (Pointer i) → lc_Stderr cmd = Some (Pointer i) →
     receives (plumb cmd) t (To (Pointer i)) got → got = everything t).
Proof.
  split_and!.
  - intros got Hr. destruct (interfaceEqual (lc_Stdout cmd) (lc_Stderr cmd)) eqn:E.
    + rewrite (plumb_shared _ E) in Hr. simpl in Hr. rewrite captured_tee in Hr. subst got.
      split_and!; [done|intros fd; apply stream_everything|done].
    + rewrite (plumb_separate _ E) in Hr. simpl in Hr. rewrite !captured_tee in Hr.
      destruct Hr as (c1 & c2 & c & H1 & H2 & (Hs1 & Hs2 & Hp)%interleaved_concat & ->).
      rewrite H1, H2 in *. split_and!; [by rewrite Hp, streams_everything|by intros []|done].
  - intros w got Ho He Hr. destruct (interfaceEqual (lc_Stdout cmd) (lc_Stderr cmd)) eqn:E.
    { rewrite Ho in E. destruct w as [i|], (lc_Stderr cmd) as [[]|]; try done. apply Nat.eqb_eq in E. congruence. }
    rewrite (plumb_separate _ E) in Hr. simpl in Hr. rewrite !to_tee, Ho in Hr.
    rewrite bool_decide_eq_true_2, bool_decide_eq_false_2 in Hr by done.
    destruct Hr as (c1 & c2 & c & H1 & H2 & Hi & ->). rewrite <-H1. by eapply interleaved_one.
  - intros i got Ho He Hr. rewrite plumb_shared in Hr by (rewrite Ho, He; apply Nat.eqb_refl).
    simpl in Hr. by rewrite to_tee, Ho, bool_decide_eq_true_2 in Hr.
Qed.

(** [CombinedOutputLines] and [Output]: what their buffers get. *)
Definition combined (cmd : LocalCmd) (buff : nat) : LocalCmd := SetStderr (Pointer buff) (SetStdout (Pointer buff) cmd).
Example combined_in_order t got :
  receives (plumb (combined (Command "kubectl" []) 7)) t (To (Pointer 7)) got → got = everything t.
Proof. done. Qed.

(** ** Concrete runs *)

Module PipeDemo.
(** Reads all there is, three bytes at a time, and returns. *)
Definition all (more : bool) : reaction bool :=
  if more then Read 2 (λ o, match o with Some _ => true | None => false end) else Return None.
Definition a : ascii := Ascii.ascii_of_nat 97.
Definition cmd : writing := WWrite [a] (λ taken, WReturn (if taken then None else New "broken pipe")).

Lemma all_returns m b : returns all m b.
Proof.
  assert (∀ m, returns all m false) as Hf by (intros; by eapply Re_return).
  revert b. induction (lt_wf m) as [m _ IH]. intros []; [|apply Hf].
  eapply Re_read; [done| |apply Hf]. intros c m' Hc Hl. apply IH. destruct c; [done|]. simpl in Hl. lia.
Qed.

Lemma pipe_ends_witness :
  (0 < 1)%nat ∧ (∀ m, returns all m true) ∧ sn (pipe_step all 1) (RunWithStdoutReader cmd true).
Proof.
  split_and!; [lia|intros; apply all_returns|]. apply (pipe_ends all 1); [lia|intros; apply all_returns].
Defined.

(** One run: the byte is written and read, and both sides end. *)
Definition last_ : pipe bool := mkPipe [] (WDone None) (RDone None) [None; None] (Returned None).
Lemma run_demo : rtc (pipe_step all 1) (RunWithStdoutReader cmd true) last_.
Proof.
  eapply rtc_l; [apply (W_write _ _ [] [a] []); simpl; [done|done|lia]|]. eapply rtc_l; [apply W_written|]. simpl.
  eapply rtc_l; [eapply (R_read _ _ [a] []); [done|done|simpl; lia]|]. simpl. eapply rtc_l; [apply W_close|].
  eapply rtc_l; [by eapply R_eof|]. simpl. eapply rtc_l; [by eapply R_close|].
  eapply rtc_l; [apply R_send|]. eapply rtc_l; [apply W_send|]. simpl. apply rtc_once, P_return.
Qed.

Lemma pipe_content_witness :
  rtc (pipe_step all 1) (RunWithStdoutReader cmd true) last_ ∧ pp_caller last_ = Returned None ∧
  ∃ s eof q e1 e2, taken all true s eof q ∧ all q = Return e2 ∧ s `prefix_of` (alone cmd).1 ∧
    (eof = true → s = (alone cmd).1 ∧ e1 = (alone cmd).2) ∧
    (None = collect [e1; e2] ∨ None = collect [e2; e1]).
Proof.
  split_and!; [apply run_demo|reflexivity|]. apply (pipe_content all 1 _ _ last_); [apply run_demo|reflexivity].
Defined.

(** A function that returns without reading: the command finds the pipe broken, and its error
    is that of the call, though the function had what it wanted. *)
Definition none (q : unit) : reaction unit := Return None.
Example unread : rtc (pipe_step none 1) (RunWithStdoutReader cmd ())
  (mkPipe [] (WDone (New "broken pipe")) (RDone None) [None; New "broken pipe"] (Returned (New "broken pipe"))).
Proof.
  eapply rtc_l; [by eapply R_close|]. eapply rtc_l; [apply R_send|]. eapply rtc_l; [by apply W_broken|]. simpl.
  eapply rtc_l; [apply W_close|]. eapply rtc_l; [apply W_send|]. simpl. apply rtc_once, P_return.
Qed.

Lemma both : plumb (combined (Command "kubectl" []) 7) = Shared [To (Pointer 7); Captured].
Proof. reflexivity. Qed.
End PipeDemo.
