(* ===== verification/Chains.v ===== *)
(** * Chains of causes: [pkg/errors] and [pkg/exec]

    src/pkg/errors/errors.go ([StackTrace]), aggregate.go ([Errors]), aggregate_forked.go
    ([Is]) and src/pkg/exec/helpers.go ([RunErrorForError]): loops that follow the causes of
    an error.  Shown: each gives what the deepest error of its kind has, and ends, unless
    the chain has a [RunError] without an inner error, which is its own cause; and an
    aggregate is what one of its errors is, also when it was flattened and reduced. *)

From S2P Require Import Prelude GoStr Errors Exec.
Local Open Scope stdpp_scope.

(** ** The values in a chain

    Which interfaces they have: [StackTracer] those with a stack, [Causer] those with a cause;
    a [RunError] always is a [Causer], with an inner error or without. *)
Abbreviation stack := (list string).
Inductive value :=
| VPlain (msg : string)
| VFundamental (msg : string) (st : stack)
| VMessage (msg : string) (cause : value)
| VStack (st : stack) (cause : value)
| VAggregate (errs : list value)
| VRun (command : list string) (output : string) (inner : option value).

(** [err.(Causer)] and its [Cause()]. *)
Definition Cause (err : value) : option value :=
  match err with
  | VMessage _ cause | VStack _ cause => Some cause
  | VRun _ _ (Some inner) => Some inner
  | VRun _ _ None => Some err
  | _ => None
  end.

(** The three loops are alike: the last value in the chain that is of a kind.  [None] means
    that the loop has not ended after [n] rounds. *)
Section walk.
Context {A : Type} (see : value → option A).
Fixpoint walk (n : nat) (seen : option A) (err : value) : option (option A) :=
  match n with
  | O => None
  | S n =>
      let seen := match see err with Some a => Some a | None => seen end in
      match Cause err with Some cause => walk n seen cause | None => Some seen end
  end.
End walk.

Definition as_StackTracer (err : value) : option stack :=
  match err with VFundamental _ st | VStack st _ => Some st | _ => None end.
Definition as_RunError (err : value) : option (list string * string) :=
  match err with VRun command output _ => Some (command, output) | _ => None end.
Definition as_Aggregate (err : value) : option (list value) :=
  match err with VAggregate errs => Some errs | _ => None end.

(** A nil error has no interface at all. *)
Definition loop {A} (see : value → option A) (n : nat) (err : option value) : option (option A) :=
  match err with Some err => walk see n None err | None => Some None end.
Definition StackTrace : nat → option value → option (option stack) := loop as_StackTracer.
Definition RunErrorForError : nat → option value → option (option (list string * string)) := loop as_RunError.
Definition chain_Errors : nat → option value → option (option (list value)) := loop as_Aggregate.

(** ** What the loops give *)

(** The values of a chain, from the outermost on, and whether it comes to an end. *)
Fixpoint chain_of (err : value) : list value :=
  err :: match err with
         | VMessage _ cause | VStack _ cause => chain_of cause
         | VRun _ _ (Some inner) => chain_of inner
         | _ => []
         end.
Fixpoint grounded (err : value) : bool :=
  match err with
  | VMessage _ cause | VStack _ cause => grounded cause
  | VRun _ _ (Some inner) => grounded inner
  | VRun _ _ None => false
  | _ => true
  end.

Section value_ind.
Context (P : value → Prop) (Hstop : ∀ err, Cause err = None → P err)
  (Hself : ∀ c o, P (VRun c o None))
  (Hnext : ∀ err cause, Cause err = Some cause → chain_of err = err :: chain_of cause →
     grounded err = grounded cause → P cause → P err).
(** Induction along the causes. *)
Fixpoint cause_ind (err : value) : P err :=
  match err with
  | VPlain m => Hstop (VPlain m) eq_refl
  | VFundamental m st => Hstop (VFundamental m st) eq_refl
  | VAggregate l => Hstop (VAggregate l) eq_refl
  | VMessage m c => Hnext (VMessage m c) c eq_refl eq_refl eq_refl (cause_ind c)
  | VStack st c => Hnext (VStack st c) c eq_refl eq_refl eq_refl (cause_ind c)
  | VRun c o (Some i) => Hnext (VRun c o (Some i)) i eq_refl eq_refl eq_refl (cause_ind i)
  | VRun c o None => Hself c o
  end.
End value_ind.

Lemma chain_stops err : Cause err = None → chain_of err = [err] ∧ grounded err = true.
Proof. by destruct err as [| | | | |? ? []]. Qed.

Section facts.
Context {A : Type} (see : value → option A).

Definition deepest (seen : option A) (err : value) : option A :=
  match last (omap see (chain_of err)) with Some a => Some a | None => seen end.

Lemma deepest_cons seen err cause : chain_of err = err :: chain_of cause →
  deepest seen err = deepest (match see err with Some a => Some a | None => seen end) cause.
Proof.
  intros E. unfold deepest. rewrite E. simpl. destruct (see err) as [a|]; simpl; [|done].
  rewrite last_cons. by destruct (last _).
Qed.

Lemma walk_grounded n seen err : grounded err = true → (length (chain_of err) <= n)%nat →
  walk see n seen err = Some (deepest seen err).
Proof.
  revert n seen. induction err as [err Hc|c o|err cause Hc E G IH] using cause_ind; intros n seen Hg Hn; [|done|].
  - destruct (chain_stops _ Hc) as [E _]. rewrite E in Hn. destruct n as [|n]; [simpl in Hn; lia|].
    simpl. rewrite Hc. unfold deepest. rewrite E. simpl. by destruct (see err).
  - rewrite E in Hn. destruct n as [|n]; [simpl in Hn; lia|]. simpl. rewrite Hc, (deepest_cons _ _ _ E).
    apply IH; [by rewrite <-G|simpl in Hn; lia].
Qed.

Lemma walk_endless n seen err : grounded err = false → walk see n seen err = None.
Proof.
  revert n seen. induction err as [err Hc|c o|err cause Hc E G IH] using cause_ind; intros n seen Hg.
  - destruct (chain_stops _ Hc) as [_ Ht]. congruence.
  - revert seen. induction n as [|n IHn]; intros seen; [done|]. simpl. apply IHn.
  - destruct n as [|n]; [done|]. simpl. rewrite Hc. apply IH. by rewrite <-G.
Qed.

(** Following the causes of an error ends exactly when there is no [RunError] without an inner error
    among them, within as many rounds as the chain is long, and gives the stack, the
    [RunError] or the errors of the innermost value that has them; otherwise it runs for
    ever. *)
Theorem loop_spec err :
  (grounded err = true →
     ∀ n, (length (chain_of err) <= n)%nat → loop see n (Some err) = Some (last (omap see (chain_of err)))) ∧
  (grounded err = false → ∀ n, loop see n (Some err) = None).
Proof.
  split.
  - intros Hg n Hn. unfold loop. rewrite walk_grounded by done. unfold deepest. by destruct (last _).
  - intros Hg n. by apply walk_endless.
Qed.
End facts.

(** A [RunError] made by [LocalCmd.Run] has an inner error; one without would make every
    caller hang. *)
Example own_cause n : RunErrorForError n (Some (VStack [] (VRun ["docker"] "" None))) = None.
Proof. by apply (proj2 (loop_spec as_RunError (VStack [] (VRun ["docker"] "" None)))). Qed.
Example wrapped_run_error :
  RunErrorForError 9 (Some (VStack ["main"] (VMessage "failed" (VStack [] (VRun ["docker"; "ps"] "x" (Some (VPlain "exit status 1")))))))
  = Some (Some (["docker"; "ps"], "x")).
Proof. reflexivity. Qed.

(** ** [errors.Is]

    [same err] says that [err] can be compared and is the target; an aggregate is a slice and
    cannot.  [errors.Is] of the standard library compares, asks the method [Is], and goes on
    with what the error wraps. *)
Section is_.
Context (same : error → bool).

Fixpoint Is (err : error) : bool :=
  match err with
  | Aggregate errs => (fix visit (errs : list error) : bool :=
      match errs with [] => false | e :: errs => Is e || visit errs end) errs
  | WithMessage _ cause | WithStack_ cause => same err || Is cause
  | Fundamental _ => same err
  end.
Definition visit (f : error → bool) (errs : list error) : bool := existsb f errs.

Lemma Is_aggregate errs : Is (Aggregate errs) = visit Is errs.
Proof. induction errs as [|e errs IH]; [done|]. simpl in *. by rewrite IH. Qed.

Lemma visit_concat f ls : visit f (concat ls) = existsb (visit f) ls.
Proof. unfold visit. induction ls as [|l ls IH]; [done|]. simpl. by rewrite existsb_app, IH. Qed.

Lemma Is_leaves e : Is e = visit Is (leaves e).
Proof.
  induction e as [m|m e _|e _|l IH] using error_nested_ind; try by (unfold visit; simpl; rewrite orb_false_r).
  rewrite Is_aggregate. cbn [leaves]. rewrite visit_concat. unfold visit.
  induction IH as [|e l He _ IHl]; [done|]. simpl. rewrite IHl. f_equal. exact He.
Qed.

(** C36. An aggregate of several errors is the target exactly when one of them is, also when aggregates
    among them were flattened and one that is left stands for itself.  (The value that
    records the stack is new, so it is not the target.) *)
Theorem NewAggregate_Is errlist err :
  NewAggregate errlist = Some err → same err = false → Is err = visit Is (omap id errlist).
Proof.
  rewrite NewAggregate_eq. intros He Hs.
  assert (visit Is (omap id errlist) = visit Is (concat (map leaves (omap id errlist)))) as ->.
  { rewrite visit_concat. clear He. unfold visit at 1. induction (omap id errlist) as [|e l IH]; [done|]. simpl.
    by rewrite IH, Is_leaves. }
  destruct (concat _) as [|e1 [|e2 l]]; [done|..]; injection He as <-.
  - simpl. by rewrite Hs, orb_false_r.
  - change (same (WithStack_ (Aggregate (e1 :: e2 :: l))) || Is (Aggregate (e1 :: e2 :: l)) = visit Is (e1 :: e2 :: l)).
    by rewrite Hs, Is_aggregate.
Qed.
End is_.

Lemma NewAggregate_Is_witness :
  let not_found := Fundamental "not found" in
  let same e := match e with Fundamental m => String.eqb m "not found" | _ => false end in
  let err := WithStack_ (Aggregate [Fundamental "other"; WithMessage "image" not_found]) in
  NewAggregate [None; Some (Fundamental "other"); Some (Aggregate [WithMessage "image" not_found])] = Some err ∧
  same err = false ∧ Is same err = true.
Proof.
  split_and!; [reflexivity|reflexivity|].
  rewrite (NewAggregate_Is _ [None; Some (Fundamental "other"); Some (Aggregate [WithMessage "image" (Fundamental "not found")])]
    _ eq_refl eq_refl). reflexivity.
Defined.
