(* ===== verification/KindnetMain.v ===== *)
(** * kindnetd: the start of the daemon

    [main] of src/images/kindnetd/cmd/kindnetd/main.go before its control loop,
    [computeBridgeMTU] of cni.go and the protocol of [NewIPMasqAgent] of masq.go: the choice of
    the API server, the MTU, the families of the subnets of the pods and an agent for
    each of them; then rounds of the control loop of [Kindnet].  Shown: which server is
    used; every subnet is given to one agent, and the family of the cluster is that of
    the agents; and the panic on subnets without a family can never happen. *)

From S2P Require Import Prelude State GoStr NetIP Masquerade Kindnet.
Local Open Scope Z_scope.
Local Open Scope go_scope.
Local Open Scope stdpp_scope.

(** ** What is outside *)

(** How [net.DialTimeout] ends: a connection, an error of the operation, another error. *)
Inductive dialled := Connected | OpError (timeout : bool) | OtherError.

(** [rest.InClusterConfig] with the host that it names, [os.Getenv], [net.ResolveTCPAddr],
    [net.DialTimeout], [kubernetes.NewForConfig], [net.Interfaces] with their names and MTUs,
    and [iptables.NewWithProtocol]. *)
Class Process (W : Type) := {
  InClusterConfig : st W string;
  os_Getenv : string → string;
  ResolveTCPAddr : string → st W unit;
  DialTimeout : string → W → dialled * W;
  NewForConfig : string → st W unit;
  Interfaces : st W (list (string * Z));
  NewWithProtocol : bool → st W unit
}.

(** [panic(err.Error())] *)
Definition or_panic {W A} (m : st W A) : st W A := λ w,
  let '(r, w) := m w in (match r with Err e => Panic e | _ => r end, w).

Section start.
Context {W : Type} `{Process W}.

Definition dial (address : string) : st W bool := λ w,
  let '(d, w) := DialTimeout address w in
  (Ok (match d with Connected => true | OpError _ | OtherError => false end), w).
Definition probeTCP (address : string) : st W bool :=
  r ← try_ (ResolveTCPAddr address);
  if is_Ok r then dial address else mret false.

(** Up to [n] probes; the host of the configuration is replaced by the first that succeeds. *)
Fixpoint probe_endpoint (n : nat) (endpoint host : string) : st W string :=
  match n with
  | O => mret host
  | S n => ok ← probeTCP endpoint; if (ok : bool) then mret ("https://" +:+ endpoint) else probe_endpoint n endpoint host
  end.
Definition config_Host : st W string :=
  host ← or_panic InClusterConfig;
  let controlPlaneEndpoint := os_Getenv "CONTROL_PLANE_ENDPOINT" in
  if controlPlaneEndpoint <>s "" then probe_endpoint 5 controlPlaneEndpoint host else mret host.

Definition computeBridgeMTU : st W Z :=
  interfaces ← Interfaces;
  match find (λ inter, fst inter =s "eth0") interfaces with
  | Some inter => mret (snd inter)
  | None => pure (Err "Found no eth0 device")
  end.

(** An agent, with its protocol. *)
Definition new_agent (ipv6 : bool) (cidrs : list string) : st W (bool * IPMasqAgent) :=
  NewWithProtocol ipv6 ;; mret (ipv6, NewIPMasqAgent cidrs).
Definition agents_for (ipv6 : bool) (cidrs : list string) : st W (list (bool * IPMasqAgent)) :=
  if Nat.ltb 0 (length cidrs) then a ← or_panic (new_agent ipv6 cidrs); mret [a] else mret [].

(** What the loops of the daemon are started with. *)
Record started := mkStarted {
  s_Host : string;
  s_writer : CNIConfigWriter;
  s_agents : list (bool * IPMasqAgent);
  s_hostIP : string;
  s_ipFamily : IPFamily
}.

Definition pod_subnets (env : string) : list string := Split (TrimSpace env) ",".

Definition start : st W started :=
  host ← config_Host;
  or_panic (NewForConfig host) ;;
  let hostIP := os_Getenv "HOST_IP" in
  mtu ← try_ computeBridgeMTU;
  let mtu := match mtu with Ok mtu => mtu | _ => 0 end in
  ipFamily ← pure (cluster_family (os_Getenv "POD_SUBNET"));
  let '(clusterIPv4Subnets, clusterIPv6Subnets) := splitCIDRs (pod_subnets (os_Getenv "POD_SUBNET")) in
  masqAgentIPv4 ← agents_for false clusterIPv4Subnets;
  masqAgentIPv6 ← agents_for true clusterIPv6Subnets;
  mret (mkStarted host (mkCNIConfigWriter cniConfigPath zero_inputs mtu) (masqAgentIPv4 ++ masqAgentIPv6) hostIP ipFamily).

(** [main] with [n] rounds of its control loop; the agents run besides. *)
Fixpoint control_loop `{Netlink W, Files W, Api W} (n : nat) (hostIP : string) (ipFamily : IPFamily) : st (daemon W) unit :=
  match n with O => mret tt | S n => Kindnet.round hostIP ipFamily ;; control_loop n hostIP ipFamily end.
Definition kindnetd_main `{Netlink W, Files W, Api W} (n : nat) : W → res unit * W := λ w,
  match start w with
  | (Ok s, w) => let '(r, d) := control_loop n (s_hostIP s) (s_ipFamily s) (mkDaemon (s_writer s) w) in (r, d_machine d)
  | (Err e, w) => (Err e, w)
  | (Panic x, w) => (Panic x, w)
  end.
End start.

(** ** Facts *)

(** The subnets always have a family: what is not an IPv6 subnet counts as an IPv4 one. *)
Lemma family_never_panics env : cluster_family env ≠ Panic "podSubnets ClusterCIDR/Pod_Subnet".
Proof.
  unfold cluster_family. destruct (env =s ""); [done|]. rewrite splitCIDRs_filter.
  pose proof (Split_nonempty (TrimSpace env) ",") as Hne. destruct (Split _ _) as [|x l]; [done|]. simpl.
  destruct (isIPv6CIDRString x); simpl; [|by destruct (length _)]. by destruct (length (List.filter _ l)).
Qed.

Section facts.
Context {W : Type} `{Process W}.
Implicit Types w : W.

Lemma or_panic_Ok {A} (m : st W A) w a w' : or_panic m w = (Ok a, w') → m w = (Ok a, w').
Proof. unfold or_panic. destruct (m w) as [[]]; naive_solver. Qed.

(** A probe that fails. *)
Definition unreachable (endpoint : string) : relation W := λ w w', probeTCP endpoint w = (Ok false, w').

Lemma probe_endpoint_spec n endpoint host w r w' : probe_endpoint n endpoint host w = (Ok r, w') →
  (r = host ∧ nsteps (unreachable endpoint) n w w') ∨
  ∃ k v, (k < n)%nat ∧ nsteps (unreachable endpoint) k w v ∧ probeTCP endpoint v = (Ok true, w') ∧
    r = "https://" +:+ endpoint.
Proof.
  revert w. induction n as [|n IH]; intros w; simpl.
  { intros [= <- <-]. left. split; [done|constructor]. }
  intros ([] & w1 & Ew & E)%st_bind_Ok.
  - injection E as <- <-. right. exists 0%nat, w. split_and!; [lia|constructor|done|done].
  - apply IH in E as [[-> Hs]|(k & v & Hk & Hs & Hp & ->)]; [left; split; [done|]; by econstructor|].
    right. exists (S k), v. split_and!; [lia|by econstructor|done|done].
Qed.

Lemma agents_for_Ok ipv6 cidrs w l w' : agents_for ipv6 cidrs w = (Ok l, w') →
  l = if decide (cidrs = []) then [] else [(ipv6, NewIPMasqAgent cidrs)].
Proof.
  unfold agents_for. destruct cidrs as [|c cidrs]; [by intros [= <- <-]|]. cbn [length Nat.ltb Nat.leb].
  rewrite decide_False by done. intros (a & w1 & Ea%or_panic_Ok & [= <- <-])%st_bind_Ok.
  unfold new_agent in Ea. by apply st_bind_Ok in Ea as (? & ? & _ & [= <- <-]).
Qed.

(** The protocols of the agents of a family. *)
Definition protocols (f : IPFamily) : list bool :=
  match f with IPv4Family => [false] | IPv6Family => [true] | DualStackFamily => [false; true] end.

Lemma start_inv w s w' : start w = (Ok s, w') →
  ∃ v, config_Host w = (Ok (s_Host s), v) ∧ cluster_family (os_Getenv "POD_SUBNET") = Ok (s_ipFamily s) ∧
    s_hostIP s = os_Getenv "HOST_IP" ∧
    let '(v4, v6) := splitCIDRs (pod_subnets (os_Getenv "POD_SUBNET")) in
    s_agents s = (if decide (v4 = []) then [] else [(false, NewIPMasqAgent v4)]) ++
                 (if decide (v6 = []) then [] else [(true, NewIPMasqAgent v6)]).
Proof.
  unfold start. intros (host & v & Eh & E)%st_bind_Ok. apply st_bind_Ok in E as ([] & v1 & _ & E).
  apply st_bind_Ok in E as (mtu & v2 & _ & E). apply st_bind_Ok in E as (fam & v3 & [= Ef <-] & E).
  exists v. destruct (splitCIDRs _) as [v4 v6]. apply st_bind_Ok in E as (l4 & v5 & E4%agents_for_Ok & E).
  apply st_bind_Ok in E as (l6 & v7 & E6%agents_for_Ok & [= <- <-]). simpl. by rewrite E4, E6.
Qed.

Lemma filter_split {A} (f : A → bool) l : List.filter (λ c, negb (f c)) l ++ List.filter f l ≡ₚ l.
Proof.
  induction l as [|x l IH]; [done|]. simpl. destruct (f x); simpl; [|by rewrite IH].
  by rewrite <-Permutation_middle, IH.
Qed.

(** C22. When kindnetd starts, it has an agent for each protocol of the family of the cluster and no
    other; the agent of a protocol keeps just the subnets of the pods of that protocol, and
    each subnet is with one of them.  It uses the endpoint that it was given when one of
    five probes reaches it, and otherwise, after five, the host of the cluster. *)
Theorem kindnetd_starts w s w' : start w = (Ok s, w') →
  let subnets := pod_subnets (os_Getenv "POD_SUBNET") in
  let endpoint := os_Getenv "CONTROL_PLANE_ENDPOINT" in
  (s_agents s).*1 = protocols (s_ipFamily s) ∧
  concat ((λ a, noMasqueradeCIDRs a.2) <$> s_agents s) ≡ₚ subnets ∧
  (∀ ipv6 ma, (ipv6, ma) ∈ s_agents s → noMasqueradeCIDRs ma = List.filter (λ c, Bool.eqb (isIPv6CIDRString c) ipv6) subnets) ∧
  ∃ host v v', InClusterConfig w = (Ok host, v) ∧
    if endpoint =s "" then s_Host s = host
    else (∃ k u, (k < 5)%nat ∧ nsteps (unreachable endpoint) k v u ∧ probeTCP endpoint u = (Ok true, v') ∧
            s_Host s = "https://" +:+ endpoint) ∨
         nsteps (unreachable endpoint) 5 v v' ∧ s_Host s = host.
Proof.
  intros (v & Eh & Ef & _ & Ea)%start_inv subnets endpoint. fold subnets in Ea.
  rewrite splitCIDRs_filter in Ea. unfold cluster_family in Ef. destruct (_ =s ""); [done|].
  fold (pod_subnets (os_Getenv "POD_SUBNET")) in Ef. fold subnets in Ef. rewrite splitCIDRs_filter in Ef.
  pose proof (filter_split isIPv6CIDRString subnets) as Hperm.
  assert (∀ ipv6, List.filter (λ c, Bool.eqb (isIPv6CIDRString c) ipv6) subnets =
    if (ipv6 : bool) then List.filter isIPv6CIDRString subnets else List.filter (λ c, negb (isIPv6CIDRString c)) subnets) as Hf.
  { intros []; apply filter_ext; intros c; by destruct (isIPv6CIDRString c). }
  setoid_rewrite Hf. clear Hf. revert Ef Ea Hperm.
  generalize (List.filter (λ c, negb (isIPv6CIDRString c)) subnets) (List.filter isIPv6CIDRString subnets).
  intros v4 v6 Ef Ea Hperm. split_and!.
  - rewrite Ea. destruct v4, v6; simpl in *; try done; by injection Ef as <-.
  - rewrite Ea, <-Hperm. destruct v4, v6; simpl; by rewrite ?app_nil_r.
  - rewrite Ea. intros ipv6 ma. destruct v4, v6; simpl; set_unfold; naive_solver.
  - unfold config_Host in Eh. apply st_bind_Ok in Eh as (host & u & Ei%or_panic_Ok & Eh). exists host, u.
    fold endpoint in Eh. destruct (endpoint =s ""); cbn [negb] in Eh; [exists v; split; [done|]; by injection Eh as <-|].
    exists v. split; [done|]. apply probe_endpoint_spec in Eh as [[-> ?]|(k & x & ? & ? & ? & ->)]; [by right|].
    left. by exists k, x.
Qed.
End facts.

(** ** Concrete starts *)

Module StartDemo.
(** The world is the number of probes that are still to fail. *)
Section demo.
Context (subnets : string).
Definition world : Process nat := {|
  InClusterConfig := mret "https://10.96.0.1:443";
  os_Getenv k := if k =s "CONTROL_PLANE_ENDPOINT" then "kind-control-plane:6443" else
                 if k =s "POD_SUBNET" then subnets else "172.18.0.2";
  ResolveTCPAddr _ := mret tt;
  DialTimeout _ w := match w with O => (Connected, O) | S w => (OpError true, w) end;
  NewForConfig _ := mret tt;
  Interfaces := mret [("lo", 65536); ("eth0", 1500)];
  NewWithProtocol _ := mret tt
|}.
End demo.
Definition dual : Process nat := world "10.244.0.0/16,fd00:10:244::/56".
#[local] Existing Instance dual.

Definition expected (host : string) : started :=
  mkStarted host (mkCNIConfigWriter cniConfigPath zero_inputs 1500)
    [(false, NewIPMasqAgent ["10.244.0.0/16"]); (true, NewIPMasqAgent ["fd00:10:244::/56"])] "172.18.0.2" DualStackFamily.

Lemma kindnetd_starts_witness :
  start 2%nat = (Ok (expected "https://kind-control-plane:6443"), 0%nat) ∧
  (s_agents (expected "https://kind-control-plane:6443")).*1 = protocols DualStackFamily.
Proof.
  assert (start 2%nat = (Ok (expected "https://kind-control-plane:6443"), 0%nat)) as E by (vm_compute; reflexivity).
  split; [exact E|]. exact (proj1 (kindnetd_starts _ _ _ E)).
Defined.

(** After five probes the host of the cluster is kept. *)
Example not_reached : start 7%nat = (Ok (expected "https://10.96.0.1:443"), 2%nat).
Proof. vm_compute. reflexivity. Qed.

(** A space behind the comma makes an IPv6 subnet one of IPv4. *)
Example space_in_subnets :
  s_agents <$> (fst (start (H := world "10.244.0.0/16, fd00:10:244::/56") 0%nat)) =
    Ok [(false, NewIPMasqAgent ["10.244.0.0/16"; " fd00:10:244::/56"])].
Proof. vm_compute. reflexivity. Qed.
(** Only spaces are a subnet, too: the empty one. *)
Example blank_subnets :
  s_agents <$> (fst (start (H := world " ") 0%nat)) = Ok [(false, NewIPMasqAgent [""])].
Proof. vm_compute. reflexivity. Qed.
End StartDemo.
