(* ===== verification/KubeconfigFile.v ===== *)
(** * kubeconfig files on the machine

    src/pkg/cluster/internal/kubeconfig/internal/kubeconfig/ (encode.go, read.go, write.go,
    lock.go, merge.go, remove.go): what [WriteMerged] and [RemoveKIND] do to the files, call by
    call, with the failures of each call.  [Kubeconfig] has the processes that do this at
    once, where a job is one update of a file; shown here: the calls of one process do
    just what its job says, whatever fails the lock is given back, and only a write
    that fails can damage the file. *)

From S2P Require Import Prelude State GoStr KeosTypes Kubeconfig NodeCommands.
Local Open Scope Z_scope.
Local Open Scope go_scope.
Local Open Scope stdpp_scope.

(** ** Encoding *)

(** gopkg.in/yaml.v3 for the types of [Kubeconfig], and sigs.k8s.io/yaml for any document. *)
Class Yaml := {
  document : Type;
  yaml_Marshal : Config → res string;
  yaml_Unmarshal : string → res Config;
  kubeyaml_Unmarshal : string → res document;
  kubeyaml_Marshal : document → res string
}.

Section encode.
Context `{Yaml}.

Definition empty_document : string := "{}" +:+ String (Ascii.ascii_of_nat 10) "".

Definition normYaml (y : string) : res string :=
  unstructured ← kubeyaml_Unmarshal y;
  encoded ← kubeyaml_Marshal unstructured;
  Ok (if encoded =s empty_document then "" else encoded).

Definition Encode (cfg : Config) : res string :=
  encoded ← errors_Wrap "failed to encode KUBECONFIG" (yaml_Marshal cfg);
  errors_Wrap "failed to normalize KUBECONFIG encoding" (normYaml encoded).

(** What the jobs of [Kubeconfig] read and write. *)
#[local] Instance kube_yaml : KubeYaml := { yaml_decode := yaml_Unmarshal; yaml_encode := Encode }.
End encode.

(** ** Files *)

(** The package [os]: is there no such directory, and the calls on files.  [ReadFile] is
    [os.Open] with [ioutil.ReadAll]: [None] when there is no such file. *)
Class Os (W : Type) := {
  os_IsNotExist : string → W → bool;
  os_MkdirAll : string → st W unit;
  os_OpenExcl : string → st W unit;
  os_Unlink : string → st W unit;
  ReadFile : string → st W (option string);
  ioutil_WriteFile : string → string → st W unit
}.

Section file.
Context {W : Type} `{Yaml, Os W}.

(** [if os.IsNotExist(err) { os.MkdirAll(dir, 0755) }] *)
Definition ensure_dir (dir : string) : st W unit :=
  missing ← get (os_IsNotExist dir);
  st_when missing (os_MkdirAll dir).

Definition lockFile (filename : string) : st W unit :=
  ensure_dir (path_Dir filename) ;; os_OpenExcl (lockName filename).
Definition unlockFile (filename : string) : st W unit := os_Unlink (lockName filename).

Definition read_file (configPath : string) : st W Config :=
  content ← ReadFile configPath;
  pure (match content with None => Ok zero_Config | Some raw => yaml_Unmarshal raw end).

Definition write (cfg : Config) (configPath : string) : st W unit :=
  encoded ← pure (Encode cfg);
  st_wrap "failed to create directory for KUBECONFIG" (ensure_dir (path_Dir configPath)) ;;
  st_wrap "failed to write KUBECONFIG" (ioutil_WriteFile configPath encoded).

(** [defer unlockFile(configPath)], whose error is dropped. *)
Definition with_lock (configPath : string) (body : st W unit) : st W unit :=
  st_wrap "failed to lock config file" (lockFile configPath) ;;
  finally body (ignore_err (unlockFile configPath)).

Definition merge_into (kindConfig : Config) (configPath : string) : st W unit :=
  existing ← st_wrap "failed to get kubeconfig to merge" (read_file configPath);
  existing ← pure (merge existing kindConfig);
  write existing configPath.
Definition WriteMerged_file (kindConfig : Config) (configPath : string) : st W unit :=
  with_lock configPath (merge_into kindConfig configPath).

Definition remove_from (kindClusterName configPath : string) : st W unit :=
  existing ← st_wrap "failed to read kubeconfig to remove KIND entry" (read_file configPath);
  let '(cfg, mutated) := remove existing kindClusterName in
  st_when mutated (write cfg configPath).
Definition RemoveKIND_file (kindClusterName : string) (paths : list string) : st W unit :=
  st_each (λ configPath, with_lock configPath (remove_from kindClusterName configPath)) paths.
End file.

(** ** What the calls do to the files

    A call that fails changes no file, but for a write, which may leave a part.  A directory
    is no file here.  Nobody else changes the files meanwhile: for others see [Kubeconfig]. *)
Class OsLaws (W : Type) `{Os W} := {
  files_of : W → gmap string string;
  MkdirAll_files d w r w' : os_MkdirAll d w = (r, w') → files_of w' = files_of w;
  OpenExcl_files p w r w' : os_OpenExcl p w = (r, w') →
    if is_Ok r then files_of w !! p = None ∧ files_of w' = <[p := ""]> (files_of w) else files_of w' = files_of w;
  Unlink_files p w r w' : os_Unlink p w = (r, w') →
    files_of w' = if is_Ok r then delete p (files_of w) else files_of w;
  ReadFile_files p w r w' : ReadFile p w = (r, w') → files_of w' = files_of w ∧ ∀ c, r = Ok c → c = files_of w !! p;
  WriteFile_files p s w r w' : ioutil_WriteFile p s w = (r, w') →
    if is_Ok r then files_of w' = <[p := s]> (files_of w)
    else files_of w' = files_of w ∨ ∃ part, files_of w' = <[p := part]> (files_of w)
}.

Section laws.
Context {W : Type} `{Yaml, OsLaws W}.
#[local] Existing Instance kube_yaml.
Implicit Types w : W.

Definition same_files_ : relation W := λ w w', files_of w' = files_of w.
#[local] Instance same_files_preorder : PreOrder same_files_.
Proof. split; [by intros w|]. intros w1 w2 w3 E1 E2. unfold same_files_ in *. congruence. Qed.

Lemma ensure_dir_files d w r w' : ensure_dir d w = (r, w') → files_of w' = files_of w.
Proof.
  unfold ensure_dir, get, mbind, st_bind. destruct (os_IsNotExist d w); simpl; [apply MkdirAll_files|by intros [= <- <-]].
Qed.

Lemma lockFile_files p w r w' : lockFile p w = (r, w') →
  if is_Ok r then files_of w !! lockName p = None ∧ files_of w' = <[lockName p := ""]> (files_of w)
  else files_of w' = files_of w.
Proof.
  unfold lockFile, mbind, st_bind. destruct (ensure_dir _ w) as [r1 w1] eqn:E1. apply ensure_dir_files in E1.
  destruct r1 as [[]|e|e]; [|by intros [= <- <-]..]. rewrite <-E1. apply OpenExcl_files.
Qed.

Lemma read_file_files p w r w' : read_file p w = (r, w') →
  files_of w' = files_of w ∧ ∀ cfg, r = Ok cfg → read (files_of w !! p) = Ok cfg.
Proof.
  unfold read_file, mbind, st_bind. destruct (ReadFile p w) as [r1 w1] eqn:E1. apply ReadFile_files in E1 as [E1 Hc].
  destruct r1 as [c|e|e]; [|by intros [= <- <-]..]. specialize (Hc c eq_refl). subst c.
  intros [= <- <-]. split; [done|]. intros cfg. unfold read. simpl. done.
Qed.

(** A write that went wrong after it was begun. *)
Definition write_error (r : res unit) : Prop :=
  match r with Err e => ∃ e', e = "failed to write KUBECONFIG: " +:+ e' | Panic _ => True | Ok _ => False end.

Lemma write_files cfg p w r w' : write cfg p w = (r, w') →
  match r with
  | Ok _ => ∃ text, Encode cfg = Ok text ∧ files_of w' = <[p := text]> (files_of w)
  | _ => files_of w' = files_of w ∨ write_error r ∧ ∃ part, files_of w' = <[p := part]> (files_of w)
  end.
Proof.
  unfold write, mbind, st_bind, pure. destruct (Encode cfg) as [text|e|e]; [|by intros [= <- <-]; left..].
  unfold st_wrap at 1. destruct (ensure_dir _ w) as [r1 w1] eqn:E1. apply ensure_dir_files in E1.
  destruct r1 as [[]|e|e]; [|by intros [= <- <-]; left..]. unfold st_wrap. simpl.
  destruct (ioutil_WriteFile p text w1) as [r2 w2] eqn:E2. apply WriteFile_files in E2. rewrite E1 in E2.
  intros [= <- <-]. destruct r2 as [[]|e|e]; simpl in *; [by exists text|..].
  - destruct E2 as [?|?]; [by left|]. right. split; [by eexists|done].
  - destruct E2 as [?|?]; [by left|]. by right.
Qed.

(** What a locked job may do to its file: all that its update says, or nothing but the
    damage of a write. *)
Definition updates (p : string) (u : update) (r : res unit) (before after : gmap string string) : Prop :=
  match r with
  | Ok _ => ∃ o, u (before !! p) = Ok o ∧ after = match o with Some text => <[p := text]> before | None => before end
  | _ => after = before ∨ write_error r ∧ ∃ part, after = <[p := part]> before
  end.

Lemma merge_into_updates kind p w r w' : merge_into kind p w = (r, w') →
  updates p (merge_update kind) r (files_of w) (files_of w').
Proof.
  unfold merge_into, mbind, st_bind, st_wrap at 1. destruct (read_file p w) as [r1 w1] eqn:E1.
  apply read_file_files in E1 as [E1 Hr]. destruct r1 as [cfg|e|e]; simpl; [|by intros [= <- <-]; left..].
  unfold pure. destruct (merge cfg kind) as [m|e|e] eqn:Em; [|by intros [= <- <-]; left..].
  intros Hw%write_files. rewrite E1 in Hw. unfold updates. destruct r as [[]|e|e]; [|done..].
  destruct Hw as (text & Et & ->). exists (Some text). split; [|done].
  unfold merge_update. rewrite (Hr cfg eq_refl). simpl. rewrite Em. simpl. by rewrite Et.
Qed.

Lemma remove_from_updates name p w r w' : remove_from name p w = (r, w') →
  updates p (remove_update name) r (files_of w) (files_of w').
Proof.
  unfold remove_from, mbind, st_bind, st_wrap. destruct (read_file p w) as [r1 w1] eqn:E1.
  apply read_file_files in E1 as [E1 Hr]. destruct r1 as [cfg|e|e]; simpl; [|by intros [= <- <-]; left..].
  unfold updates, remove_update. rewrite (Hr cfg eq_refl). simpl. destruct (remove cfg name) as [cfg' []]; simpl.
  - intros Hw%write_files. rewrite E1 in Hw. destruct r as [[]|e|e]; [|done..].
    destruct Hw as (text & Et & ->). exists (Some text). by rewrite Et.
  - intros [= <- <-]. by exists None.
Qed.

(** ** Under the lock *)

Lemma lockName_ne p : lockName p ≠ p.
Proof.
  intros E. apply (f_equal String.length) in E. unfold lockName in E. rewrite length_app_string in E. simpl in E. lia.
Qed.

(** What a locked job does to all files, with the lock given back at the end if that can be
    done. *)
Definition locked_job (p : string) (u : update) (r : res unit) (w w' : W) : Prop :=
  let F := files_of w in let F' := files_of w' in
  (∀ q, q ≠ p → q ≠ lockName p → F' !! q = F !! q) ∧
  (r = Ok tt → F !! lockName p = None ∧ ∃ o, u (F !! p) = Ok o ∧
     F' !! p = match o with Some text => Some text | None => F !! p end) ∧
  (is_Some (F !! lockName p) → is_Ok r = false ∧ F' = F) ∧
  (F' !! p ≠ F !! p → r = Ok tt ∨ write_error r) ∧
  ((∀ v, fst (os_Unlink (lockName p) v) = Ok tt) → F' !! lockName p = F !! lockName p).

Lemma updates_lookup p u r before after q : updates p u r before after → q ≠ p → after !! q = before !! q.
Proof.
  unfold updates. intros Hu Hq. destruct r as [[]|e|e].
  - destruct Hu as ([t|] & _ & ->); [by rewrite lookup_insert_ne|done].
  - destruct Hu as [->|(_ & part & ->)]; [done|by rewrite lookup_insert_ne].
  - destruct Hu as [->|(_ & part & ->)]; [done|by rewrite lookup_insert_ne].
Qed.

Lemma unlock_files p w : let w' := snd (ignore_err (unlockFile p) w) in
  files_of w' = files_of w ∧ fst (os_Unlink (lockName p) w) ≠ Ok tt ∨ files_of w' = delete (lockName p) (files_of w).
Proof.
  unfold ignore_err, unlockFile. destruct (os_Unlink (lockName p) w) as [r w'] eqn:E. apply Unlink_files in E.
  destruct r as [[]|e|e]; simpl in *; [by right|by left..].
Qed.

Lemma with_lock_job p u body w r w' :
  (∀ v r' v', body v = (r', v') → updates p u r' (files_of v) (files_of v')) →
  with_lock p body w = (r, w') → locked_job p u r w w'.
Proof.
  intros Hb. unfold with_lock, mbind, st_bind, st_wrap. destruct (lockFile p w) as [r1 w1] eqn:E1.
  apply lockFile_files in E1. destruct r1 as [[]|e|e]; simpl in *.
  2,3: intros [= <- <-]; unfold locked_job; rewrite E1; split_and!; done.
  destruct E1 as [Hfree E1]. unfold finally. destruct (body w1) as [r2 w2] eqn:E2. apply Hb in E2.
  intros [= <- <-]. pose proof (lockName_ne p) as Hne.
  assert (∀ q, q ≠ lockName p → files_of (snd (ignore_err (unlockFile p) w2)) !! q = files_of w2 !! q) as Hrest.
  { intros q Hq. destruct (unlock_files p w2) as [[-> _]| ->]; [done|by rewrite lookup_delete_ne]. }
  assert (files_of w1 !! p = files_of w !! p) as Hp by (by rewrite E1, lookup_insert_ne).
  split_and!.
  - intros q Hq Hl. rewrite Hrest, (updates_lookup _ _ _ _ _ _ E2 Hq), E1 by done. by rewrite lookup_insert_ne.
  - intros ->. split; [done|]. destruct E2 as (o & Ho & Hf). rewrite Hp in Ho. exists o. split; [done|].
    rewrite Hrest, Hf by done. destruct o; [by rewrite lookup_insert_eq|done].
  - intros [? ?]. congruence.
  - rewrite Hrest by done. intros Hch. destruct r2 as [[]|e|e]; [by left|right..]; destruct E2 as [E2|[? _]]; try done;
      rewrite E2 in Hch; by destruct Hch.
  - intros Hun. destruct (unlock_files p w2) as [[_ Hf]| ->]; [by destruct (Hf (Hun _))|]. by rewrite lookup_delete_eq, Hfree.
Qed.

(** C15. When nobody interferes, writing the entries of a cluster into a kubeconfig file does
    what its job of [Kubeconfig] says: on success the file was not locked, and has the text
    of its update; a file that is locked is left alone; other files are never touched; on
    an error the file is as it was, unless the write itself failed; and the lock is
    given back however it ends, when it can be removed. *)
Theorem WriteMerged_is_job kindConfig p w r w' : WriteMerged_file kindConfig p w = (r, w') →
  locked_job p (merge_update kindConfig) r w w'.
Proof. apply with_lock_job. apply merge_into_updates. Qed.

Lemma RemoveKIND_job name p w r w' : with_lock p (remove_from name p) w = (r, w') →
  locked_job p (remove_update name) r w w'.
Proof. apply with_lock_job. apply remove_from_updates. Qed.

(** Removing a cluster from the kubeconfig files, when it succeeds, does to every one of
    them what removing it there says. *)
Theorem RemoveKIND_all name ps w w' :
  NoDup ps → (∀ p q, p ∈ ps → q ∈ ps → lockName p ≠ q) → RemoveKIND_file name ps w = (Ok tt, w') →
  ∀ p, p ∈ ps → ∃ o, remove_update name (files_of w !! p) = Ok o ∧
    files_of w' !! p = match o with Some text => Some text | None => files_of w !! p end.
Proof.
  intros Hnd Hl. revert w. induction Hnd as [|p ps Hp Hnd IH]; intros w; [by intros _ ? ?%not_elem_of_nil|].
  unfold RemoveKIND_file. cbn [st_each]. intros ([] & w1 & (Hoth & Hok & _)%RemoveKIND_job & E)%st_bind_Ok q Hq.
  assert (∀ p' q', p' ∈ ps → q' ∈ ps → lockName p' ≠ q') as Hl' by (intros; apply Hl; by right).
  specialize (IH Hl' w1 E). destruct Hok as (_ & o & Ho & Hf); [done|].
  apply elem_of_cons in Hq as [->|Hq].
  - exists o. split; [done|]. rewrite <-Hf. clear IH Ho Hf Hoth o. revert w1 E.
    assert (∀ v r v', RemoveKIND_file name ps v = (r, v') → files_of v' !! p = files_of v !! p) as Hk; [|intros; by eapply Hk].
    assert (∀ q, q ∈ ps → p ≠ q ∧ p ≠ lockName q) as Hn.
    { intros q Hq. split; [by intros ->|]. intros Hc. apply (Hl q p); [by right|by left|done]. }
    clear -Hn. induction ps as [|q ps IH]; intros v r v'; unfold RemoveKIND_file; cbn [st_each]; [by intros [= <- <-]|].
    unfold mbind, st_bind. destruct (with_lock q _ v) as [r1 v1] eqn:E1. apply RemoveKIND_job in E1 as (E1 & _).
    destruct (Hn q) as [? ?]; [by left|]. rewrite <-(E1 p) by done.
    destruct r1 as [[]|e|e]; [|by intros [= <- <-]..]. apply IH. intros; apply Hn. by right.
  - destruct (IH q Hq) as (o' & Ho' & Hf'). exists o'. rewrite <-(Hoth q); [done|by intros ->|].
    intros ->. by apply (Hl p (lockName p)); [left|right|].
Qed.
End laws.

(** ** A machine *)

Module FileDemo.
(** Texts stand for themselves: a config is written as its current context. *)
#[local] Instance texts : Yaml := {
  document := string;
  yaml_Marshal c := Ok (cfg_CurrentContext c);
  yaml_Unmarshal s := Ok (mkConfig [] [] [] s ∅);
  kubeyaml_Unmarshal s := Ok s;
  kubeyaml_Marshal s := Ok (if s =s "" then empty_document else s)
}.
(** The disk holds [room] bytes in a file; a longer text is cut, with an error. *)
Record disk := mkDisk { room : nat; dk_files : gmap string string }.
Definition change (f : gmap string string → gmap string string) (w : disk) : disk := mkDisk (room w) (f (dk_files w)).
#[local] Instance disk_os : Os disk := {
  os_IsNotExist _ _ := false;
  os_MkdirAll _ := mret tt;
  os_OpenExcl p w := match dk_files w !! p with Some _ => (Err "file exists", w) | None => (Ok tt, change <[p := ""]> w) end;
  os_Unlink p w := (Ok tt, change (delete p) w);
  ReadFile p w := (Ok (dk_files w !! p), w);
  ioutil_WriteFile p s w :=
    if Nat.leb (String.length s) (room w) then (Ok tt, change <[p := s]> w)
    else (Err "no space left on device", change <[p := String.substring 0 (room w) s]> w)
}.
#[local] Instance disk_laws : OsLaws disk.
Proof.
  refine {| files_of := dk_files |}.
  - by intros d w r w' [= <- <-].
  - intros p w r w'. simpl. destruct (dk_files w !! p) eqn:E; by intros [= <- <-].
  - by intros p w r w' [= <- <-].
  - intros p w r w' [= <- <-]. split; [done|]. by intros c [= <-].
  - intros p s w r w'. simpl. destruct (Nat.leb _ _); intros [= <- <-]; simpl; [done|right; eauto].
Defined.

Definition kind : Config :=
  mkConfig [mkNamedCluster "kind-a" (mkCluster "https://127.0.0.1:6443" ∅)] [mkNamedUser "kind-a" ∅]
    [mkNamedContext "kind-a" (mkContext "kind-a" "kind-a" ∅)] "kind-a" ∅.
Definition before : disk := mkDisk 10 {["config" := "other"]}.
Definition after : disk := mkDisk 10 {["config" := "kind-a"]}.

Lemma WriteMerged_is_job_witness :
  WriteMerged_file kind "config" before = (Ok tt, after) ∧
  ∃ o, merge_update (H := kube_yaml) kind (Some "other") = Ok o ∧
    dk_files after !! "config" = match o with Some text => Some text | None => Some "other" end.
Proof.
  assert (WriteMerged_file kind "config" before = (Ok tt, after)) as E by (vm_compute; reflexivity).
  split; [exact E|]. destruct (WriteMerged_is_job _ _ _ _ _ E) as (_ & Hok & _).
  destruct (Hok eq_refl) as [_ Ho]. exact Ho.
Defined.

(** Removing the only context leaves an empty file, not the document of an empty map. *)
Lemma RemoveKIND_all_witness :
  RemoveKIND_file "a" ["config"] after = (Ok tt, mkDisk 10 {["config" := ""]}) ∧
  ∃ o, remove_update (H := kube_yaml) "a" (Some "kind-a") = Ok o ∧
    (({["config" := ""]} : gmap string string) !! "config") = match o with Some text => Some text | None => Some "kind-a" end.
Proof.
  assert (RemoveKIND_file "a" ["config"] after = (Ok tt, mkDisk 10 {["config" := ""]})) as E by (vm_compute; reflexivity).
  split; [exact E|].
  assert (∀ p q, p ∈ ["config"] → q ∈ ["config"] → lockName p ≠ q) as Hl.
  { intros p q Hp%list_elem_of_singleton Hq%list_elem_of_singleton. subst. discriminate. }
  destruct (RemoveKIND_all "a" ["config"] _ _ (NoDup_singleton _) Hl E "config") as (o & Ho & Hf); [by left|].
  exists o. split; [exact Ho|exact Hf].
Defined.

(** A write is not atomic: when the disk is full the file keeps a part of the new text, and the
    entries of all other clusters are gone. *)
Example torn : WriteMerged_file kind "config" (mkDisk 4 {["config" := "some"]}) =
  (Err "failed to write KUBECONFIG: no space left on device", mkDisk 4 {["config" := "kind"]}).
Proof. vm_compute. reflexivity. Qed.
End FileDemo.
