(* ===== verification/DeepCopies.v ===== *)
(** * Deep copies of configurations

    zz_generated.deepcopy.go of src/pkg/internal/apis/config/ and src/pkg/apis/config/v1alpha4/:
    [DeepCopy] of a cluster and of a node, over a heap in which slices and maps have
    addresses.  In [KindConfig] a configuration is a value; shown here is what that rests on:
    a copy has the value of the original, all that it reaches is new, and so whatever
    is written through the copy, the original keeps its value ([planCreation] and
    [Convertv1alpha4] change copies). *)

From S2P Require Import Prelude GoStr KindConfig.
Local Open Scope stdpp_scope.

Abbreviation loc := positive.

(** ** The heap

    The types of both packages are alike: [M], [P], [J] are the mounts, the port mappings and
    the JSON patches, [N] the networking, [T] the meta data; they hold no pointers.  A nil
    slice or map is [None], any other its address.  (The slices of a configuration are
    whole arrays: they come from the decoder or from [make].) *)
Section heap.
Context {M P J N T : Type}.

Record hNode := mkHNode {
  h_Role : string;
  h_Image : string;
  h_Labels : option loc;
  h_ExtraMounts : option loc;
  h_ExtraPortMappings : option loc;
  h_NodePatches : option loc;
  h_NodePatchesJSON6902 : option loc
}.
Record hCluster := mkHCluster {
  h_TypeMeta : T;
  h_Name : string;
  h_Nodes : option loc;
  h_Networking : N;
  h_FeatureGates : option loc;
  h_RuntimeConfig : option loc;
  h_KubeadmConfigPatches : option loc;
  h_KubeadmConfigPatchesJSON6902 : option loc;
  h_ContainerdConfigPatches : option loc;
  h_ContainerdConfigPatchesJSON6902 : option loc
}.

Inductive cell :=
| CStrings (l : list string)
| CFlags (m : gmap string bool)
| CLabels (m : gmap string string)
| CMounts (l : list M)
| CPorts (l : list P)
| CPatches (l : list J)
| CNodes (l : list hNode).
Abbreviation heap := (gmap loc cell).

(** A computation on the heap; [None] is a pointer to nothing, which Go does not have. *)
Definition on_heap (A : Type) : Type := heap → option (A * heap).
#[export] Instance heap_ret : MRet on_heap := λ A a h, Some (a, h).
#[export] Instance heap_bind : MBind on_heap := λ A B f m h,
  match m h with Some (a, h) => f a h | None => None end.

(** [make] *)
Definition make (c : cell) : on_heap loc := λ h, let l := fresh (dom h) in Some (l, <[l := c]> h).
Definition load (l : loc) : on_heap cell := λ h, (λ c, (c, h)) <$> h !! l.

(** A reference to something of another type, which Go does not have either. *)
Definition wrong_type {A} : on_heap A := λ _, None.

(** What is done for a field that is a slice or a map without pointers in its elements:
    unless it is nil, a new one is made and filled. *)
Definition copy_ref (in_ : option loc) : on_heap (option loc) :=
  match in_ with
  | None => mret None
  | Some l => c ← load l; l' ← make c; mret (Some l')
  end.

Definition Node_DeepCopyInto (in_ : hNode) : on_heap hNode :=
  labels ← copy_ref (h_Labels in_);
  mounts ← copy_ref (h_ExtraMounts in_);
  ports ← copy_ref (h_ExtraPortMappings in_);
  patches ← copy_ref (h_NodePatches in_);
  json ← copy_ref (h_NodePatchesJSON6902 in_);
  mret (mkHNode (h_Role in_) (h_Image in_) labels mounts ports patches json).

Fixpoint copy_each (l : list hNode) : on_heap (list hNode) :=
  match l with
  | [] => mret []
  | n :: l => n' ← Node_DeepCopyInto n; l' ← copy_each l; mret (n' :: l')
  end.

(** The slice of the nodes, whose elements are copied deeply. *)
Definition copy_nodes (in_ : option loc) : on_heap (option loc) :=
  match in_ with
  | None => mret None
  | Some l =>
      c ← load l;
      match c with
      | CNodes nodes => nodes' ← copy_each nodes; l' ← make (CNodes nodes'); mret (Some l')
      | _ => wrong_type
      end
  end.

Definition Cluster_DeepCopyInto (in_ : hCluster) : on_heap hCluster :=
  nodes ← copy_nodes (h_Nodes in_);
  gates ← copy_ref (h_FeatureGates in_);
  runtime ← copy_ref (h_RuntimeConfig in_);
  patches ← copy_ref (h_KubeadmConfigPatches in_);
  json ← copy_ref (h_KubeadmConfigPatchesJSON6902 in_);
  containerd ← copy_ref (h_ContainerdConfigPatches in_);
  containerdJSON ← copy_ref (h_ContainerdConfigPatchesJSON6902 in_);
  mret (mkHCluster (h_TypeMeta in_) (h_Name in_) nodes (h_Networking in_) gates runtime patches json containerd containerdJSON).

(** [DeepCopy] of a pointer. *)
Definition Cluster_DeepCopy (in_ : option hCluster) : on_heap (option hCluster) :=
  match in_ with None => mret None | Some c => c' ← Cluster_DeepCopyInto c; mret (Some c') end.
Definition Node_DeepCopy (in_ : option hNode) : on_heap (option hNode) :=
  match in_ with None => mret None | Some n => n' ← Node_DeepCopyInto n; mret (Some n') end.
End heap.
Arguments cell : clear implicits.
Arguments hCluster : clear implicits.

(** ** What a configuration on the heap is *)

Section value.
Context {M P J N T : Type}.
Abbreviation heap := (gmap loc (cell M P J)).
Implicit Types h : heap.

(** What a reference stands for, nil included. *)
Inductive content :=
| Nil
| Holds (c : cell M P J).
Definition ref_value h (r : option loc) : option content :=
  match r with None => Some Nil | Some l => Holds <$> h !! l end.

(** A node with the contents of its references; a cluster likewise, with its nodes. *)
Record node_value := mkNodeValue { v_Role : string; v_Image : string; v_refs : list content }.
Definition node_refs (n : hNode) : list (option loc) :=
  [h_Labels n; h_ExtraMounts n; h_ExtraPortMappings n; h_NodePatches n; h_NodePatchesJSON6902 n].
Definition node_val h (n : hNode) : option node_value :=
  refs ← mapM (ref_value h) (node_refs n); Some (mkNodeValue (h_Role n) (h_Image n) refs).

Record cluster_value := mkClusterValue {
  v_TypeMeta : T; v_Name : string; v_Nodes : option (list node_value); v_Networking : N; v_Fields : list content }.
Definition cluster_refs (c : hCluster N T) : list (option loc) :=
  [h_FeatureGates c; h_RuntimeConfig c; h_KubeadmConfigPatches c; h_KubeadmConfigPatchesJSON6902 c;
   h_ContainerdConfigPatches c; h_ContainerdConfigPatchesJSON6902 c].
Definition nodes_val h (r : option loc) : option (option (list node_value)) :=
  match r with
  | None => Some None
  | Some l => match h !! l with Some (CNodes nodes) => Some <$> mapM (node_val h) nodes | _ => None end
  end.
Definition cluster_val h (c : hCluster N T) : option cluster_value :=
  nodes ← nodes_val h (h_Nodes c);
  refs ← mapM (ref_value h) (cluster_refs c);
  Some (mkClusterValue (h_TypeMeta c) (h_Name c) nodes (h_Networking c) refs).

(** The addresses that a configuration reaches. *)
Definition node_locs (n : hNode) : list loc := omap id (node_refs n).
Definition nodes_locs h (r : option loc) : list loc :=
  match r with
  | None => []
  | Some l => l :: match h !! l with Some (CNodes nodes) => concat (node_locs <$> nodes) | _ => [] end
  end.
Definition cluster_locs h (c : hCluster N T) : list loc := nodes_locs h (h_Nodes c) ++ omap id (cluster_refs c).
End value.

(** ** A copy is new and has the value of the original *)

Section facts.
Context {M P J N T : Type}.
Abbreviation heap := (gmap loc (cell M P J)).
Implicit Types h : heap.

Lemma ref_value_mono h h' r v : h ⊆ h' → ref_value h r = Some v → ref_value h' r = Some v.
Proof.
  intros Hs. destruct r as [l|]; [|done]. simpl. destruct (h !! l) as [c|] eqn:E; [|done].
  by rewrite (lookup_weaken _ _ _ _ E Hs).
Qed.
Lemma refs_mono h h' rs vs : h ⊆ h' → mapM (ref_value h) rs = Some vs → mapM (ref_value h') rs = Some vs.
Proof.
  rewrite !mapM_Some. intros Hs Hf. eapply Forall2_impl; [exact Hf|]. intros r v. by apply ref_value_mono.
Qed.
Lemma node_val_mono h h' n v : h ⊆ h' → node_val h n = Some v → node_val h' n = Some v.
Proof.
  unfold node_val. intros Hs (refs & Er & [= <-])%bind_Some. by rewrite (refs_mono _ _ _ _ Hs Er).
Qed.

(** A copy on [h] of something in [h0]: it succeeds, nothing of [h] is changed, the result has the
    value [v], and reaches nothing of [h0]. *)
Definition copied {A V} (m : on_heap (M := M) (P := P) (J := J) A) (val : heap → A → option V) (locs : heap → A → list loc)
    (h0 h : heap) (v : V) : Prop :=
  ∃ a h', m h = Some (a, h') ∧ h ⊆ h' ∧ val h' a = Some v ∧ Forall (.∉ dom h0) (locs h' a).

Lemma make_fresh c h : ∃ l, make c h = Some (l, <[l := c]> h) ∧ h !! l = None ∧ h ⊆ <[l := c]> h.
Proof.
  exists (fresh (dom h)). assert (h !! fresh (dom h) = None) as E by (apply not_elem_of_dom, is_fresh).
  split_and!; [done|done|]. by apply insert_subseteq.
Qed.

Lemma not_in_smaller h0 h l : h0 ⊆ h → h !! l = None → l ∉ dom h0.
Proof. intros Hs E. rewrite not_elem_of_dom. by eapply lookup_weaken_None. Qed.

Lemma copy_ref_copied h0 h r v : h0 ⊆ h → ref_value h0 r = Some v →
  copied (copy_ref r) ref_value (λ _ r, omap id [r]) h0 h v.
Proof.
  intros Hs Hv. destruct r as [l|]; simpl in *.
  - destruct (h0 !! l) as [c|] eqn:E; [|done]. injection Hv as <-. pose proof (lookup_weaken _ _ _ _ E Hs) as E'.
    destruct (make_fresh c h) as (l' & Em & Hl & Hs'). exists (Some l'), (<[l' := c]> h).
    unfold mbind, heap_bind, load. rewrite E'. cbn [fmap option_fmap option_map]. rewrite Em.
    split_and!; [done|done|simpl; by rewrite lookup_insert_eq|]. simpl. constructor; [|constructor].
    by eapply not_in_smaller.
  - injection Hv as <-. exists None, h. split_and!; [done|done|done|constructor].
Qed.

Lemma copied_bind {A U B V} (m : on_heap A) (k : A → on_heap B) (valA : heap → A → option U) locsA
    (valB : heap → B → option V) locsB h0 h u v :
  copied m valA locsA h0 h u →
  (∀ a h', h ⊆ h' → valA h' a = Some u → Forall (.∉ dom h0) (locsA h' a) → copied (k a) valB locsB h0 h' v) →
  copied (m ≫= k) valB locsB h0 h v.
Proof.
  intros (a & h' & E & Hh & Hr & Hl) Hk. destruct (Hk a h' Hh Hr Hl) as (b & h2 & E2 & Hh2 & ? & ?). exists b, h2.
  unfold mbind, heap_bind. rewrite E. split_and!; [done|by etrans|done|done].
Qed.

(** Copying one reference after another. *)
Lemma copied_step {A V} (r : option loc) v (k : option loc → on_heap A) (val : heap → A → option V) locs h0 h w :
  h0 ⊆ h → ref_value h0 r = Some v →
  (∀ r' h', h ⊆ h' → ref_value h' r' = Some v → Forall (.∉ dom h0) (omap id [r']) → copied (k r') val locs h0 h' w) →
  copied (copy_ref r ≫= k) val locs h0 h w.
Proof. intros Hs Hv. by apply copied_bind, copy_ref_copied. Qed.

(** The end of such a sequence. *)
Lemma copied_end {A V} (a : A) (val : heap → A → option V) locs h0 h v :
  val h a = Some v → Forall (.∉ dom h0) (locs h a) → copied (mret a) val locs h0 h v.
Proof. intros Hv Hl. by exists a, h. Qed.

Lemma refs_new h0 r rs : Forall (.∉ dom h0) (omap id [r]) → Forall (.∉ dom h0) (omap id rs) →
  Forall (.∉ dom h0) (omap id (r :: rs)).
Proof. destruct r; simpl; [|done]. by intros Hr%Forall_inv ?; constructor. Qed.
Lemma refs_cons h r rs v vs : ref_value h r = Some v → mapM (ref_value h) rs = Some vs →
  mapM (ref_value h) (r :: rs) = Some (v :: vs).
Proof. intros E Es. simpl. by rewrite E; simpl; rewrite Es. Qed.

Lemma node_val_intro h n refs : mapM (ref_value h) (node_refs n) = Some refs →
  node_val h n = Some (mkNodeValue (h_Role n) (h_Image n) refs).
Proof. intros E. unfold node_val. by rewrite E. Qed.

Lemma cluster_val_intro h (c : hCluster N T) nodes refs : nodes_val h (h_Nodes c) = Some nodes →
  mapM (ref_value h) (cluster_refs c) = Some refs →
  cluster_val h c = Some (mkClusterValue (h_TypeMeta c) (h_Name c) nodes (h_Networking c) refs).
Proof. intros En Er. unfold cluster_val. by rewrite En, Er. Qed.

Ltac grown := repeat first [done | etrans; [done|]].
Ltac each_ref :=
  repeat match goal with
  | E : Forall2 _ (_ :: _) _ |- _ => apply Forall2_cons_inv_l in E as (? & ? & ? & E & ->)
  | E : Forall2 _ [] _ |- _ => apply Forall2_nil_inv_l in E as ->
  end.
Ltac copy_refs := repeat (eapply copied_step; [solve [grown]|done|intros]).
Ltac refs_done := repeat (apply refs_cons; [eapply ref_value_mono; [|done]; solve [grown]|]); done.

Lemma node_copied h0 h n v : h0 ⊆ h → node_val h0 n = Some v →
  copied (Node_DeepCopyInto n) node_val (λ _, node_locs) h0 h v.
Proof.
  intros Hs (refs & Er & [= <-])%bind_Some. unfold node_refs in Er. rewrite mapM_Some in Er. each_ref.
  unfold Node_DeepCopyInto. copy_refs. apply copied_end.
  - apply (node_val_intro _ (mkHNode _ _ _ _ _ _ _)). unfold node_refs. refs_done.
  - unfold node_locs, node_refs. repeat (apply refs_new; [done|]). constructor.
Qed.

Lemma nodes_copied h0 h l vs : h0 ⊆ h → mapM (node_val h0) l = Some vs →
  copied (copy_each l) (λ h, mapM (node_val h)) (λ _ l, concat (node_locs <$> l)) h0 h vs.
Proof.
  revert h vs. induction l as [|n l IH]; intros h vs Hs Hv.
  { injection Hv as <-. apply copied_end; [done|constructor]. }
  rewrite mapM_Some in Hv. apply Forall2_cons_inv_l in Hv as (v & vs' & Hv & Hvs & ->). rewrite <-mapM_Some in Hvs.
  destruct (node_copied h0 h n v Hs Hv) as (n' & h1 & E1 & Hs1 & Hv1 & Hl1).
  destruct (IH h1 vs') as (l' & h2 & E2 & Hs2 & Hv2 & Hl2); [by etrans|done|].
  exists (n' :: l'), h2. cbn [copy_each]. unfold mbind at 1, heap_bind at 1. rewrite E1. unfold mbind, heap_bind. rewrite E2.
  split_and!; [done|by etrans| |].
  - rewrite mapM_Some in *. constructor; [by eapply node_val_mono|done].
  - simpl. by apply Forall_app.
Qed.

Lemma copy_nodes_copied h0 h r vs : h0 ⊆ h → nodes_val h0 r = Some vs →
  copied (copy_nodes r) nodes_val nodes_locs h0 h vs.
Proof.
  intros Hs Hv. destruct r as [l|]; simpl in Hv.
  2: { injection Hv as <-. by apply copied_end; [|constructor]. }
  destruct (h0 !! l) as [[]|] eqn:E; try done. destruct (mapM (node_val h0) l0) as [v|] eqn:Ev; [|done]. injection Hv as <-.
  destruct (nodes_copied h0 h _ _ Hs Ev) as (l' & h1 & E1 & Hs1 & Hv1 & Hl1).
  destruct (make_fresh (CNodes l') h1) as (x & Em & Hx & Hs2). exists (Some x), (<[x := CNodes l']> h1).
  unfold copy_nodes, mbind, heap_bind, load. rewrite (lookup_weaken _ _ _ _ E Hs). cbn [fmap option_fmap option_map].
  rewrite E1, Em.
  assert (mapM (node_val (<[x:=CNodes l']> h1)) l' = Some v) as Hv2.
  { rewrite mapM_Some in *. eapply Forall2_impl; [exact Hv1|]. intros n w. by apply node_val_mono. }
  split_and!; [done|by etrans|by simpl; rewrite lookup_insert_eq, Hv2|]. simpl. rewrite lookup_insert_eq.
  constructor; [|done]. eapply not_in_smaller; [|exact Hx]. by etrans.
Qed.

Lemma nodes_locs_mono h h' r v : h ⊆ h' → nodes_val h r = Some v → nodes_locs h' r = nodes_locs h r ∧ nodes_val h' r = Some v.
Proof.
  intros Hs. destruct r as [l|]; simpl; [|done]. destruct (h !! l) as [c|] eqn:E; [|done].
  rewrite (lookup_weaken _ _ _ _ E Hs). destruct c; try done. intros Hv. split; [done|].
  destruct (mapM (node_val h) l0) as [vs|] eqn:Ev; [|done]. injection Hv as <-.
  assert (mapM (node_val h') l0 = Some vs) as ->; [|done]. rewrite mapM_Some in *.
  eapply Forall2_impl; [exact Ev|]. intros n w. by apply node_val_mono.
Qed.

Lemma cluster_copied h (c : hCluster N T) v : cluster_val h c = Some v →
  copied (Cluster_DeepCopyInto c) cluster_val cluster_locs h h v.
Proof.
  intros (nodes & En & (refs & Er & [= <-])%bind_Some)%bind_Some. unfold cluster_refs in Er. rewrite mapM_Some in Er. each_ref.
  unfold Cluster_DeepCopyInto. eapply copied_bind; [by apply copy_nodes_copied|]. intros r h1 Hs1 Hv1 Hl1.
  copy_refs. match goal with |- copied _ _ _ _ ?hf _ => assert (h1 ⊆ hf) as Hf by (solve [grown]) end.
  destruct (nodes_locs_mono _ _ _ _ Hf Hv1) as [Hn Hv2]. apply copied_end.
  - apply (cluster_val_intro _ (mkHCluster _ _ _ _ _ _ _ _ _ _)); [exact Hv2|]. unfold cluster_refs. refs_done.
  - unfold cluster_locs, cluster_refs. apply Forall_app. split; [|repeat (apply refs_new; [done|]); constructor].
    cbn [h_Nodes]. by rewrite Hn.
Qed.

Lemma cluster_val_mono h h' (c : hCluster N T) v : h ⊆ h' → cluster_val h c = Some v → cluster_val h' c = Some v.
Proof.
  intros Hs (nodes & En & (refs & Er & [= <-])%bind_Some)%bind_Some. apply cluster_val_intro.
  - by eapply nodes_locs_mono.
  - by eapply refs_mono.
Qed.

(** C17. A deep copy of a cluster has the value of the original and shares nothing with it: all that it
    reaches was allocated by the copy, so whatever is then written through the copy, the
    original keeps its value. *)
Theorem DeepCopy_independent h (c : hCluster N T) v : cluster_val h c = Some v →
  ∃ c' h', Cluster_DeepCopy (Some c) h = Some (Some c', h') ∧ cluster_val h' c' = Some v ∧
    (∀ l, l ∈ cluster_locs h' c' → l ∉ dom h) ∧
    ∀ h'', (∀ l, l ∉ cluster_locs h' c' → h'' !! l = h' !! l) → cluster_val h'' c = Some v.
Proof.
  intros Hv. destruct (cluster_copied h c v Hv) as (c' & h' & E & Hs & Hv' & Hl). rewrite Forall_forall in Hl.
  exists c', h'. split_and!; [|done|done|].
  - unfold Cluster_DeepCopy, mbind, heap_bind. by rewrite E.
  - intros h'' Hw. eapply cluster_val_mono; [|exact Hv]. apply map_subseteq_spec. intros l x Hx.
    rewrite Hw; [by eapply lookup_weaken|]. intros Hin. apply (Hl l Hin). by apply elem_of_dom_2 in Hx.
Qed.

Lemma Node_DeepCopy_independent h n v : node_val h n = Some v →
  ∃ n' h', Node_DeepCopy (Some n) h = Some (Some n', h') ∧ h ⊆ h' ∧ node_val h' n' = Some v ∧
    ∀ l, l ∈ node_locs n' → l ∉ dom h.
Proof.
  intros Hv. destruct (node_copied h h n v (reflexivity h) Hv) as (n' & h' & E & Hs & Hv' & Hl).
  rewrite Forall_forall in Hl. exists n', h'. unfold Node_DeepCopy, mbind, heap_bind. by rewrite E.
Qed.
End facts.

(** ** The copies of the two packages *)

Definition V1Node_DeepCopyInto :
    hNode → on_heap (M := v1alpha4.V1Mount) (P := v1alpha4.V1PortMapping) (J := v1alpha4.V1PatchJSON6902) hNode :=
  Node_DeepCopyInto.
Definition V1Cluster_DeepCopyInto :
    hCluster v1alpha4.V1Networking v1alpha4.TypeMeta →
    on_heap (M := v1alpha4.V1Mount) (P := v1alpha4.V1PortMapping) (J := v1alpha4.V1PatchJSON6902)
      (hCluster v1alpha4.V1Networking v1alpha4.TypeMeta) :=
  Cluster_DeepCopyInto.
Definition V1Cluster_DeepCopy :
    option (hCluster v1alpha4.V1Networking v1alpha4.TypeMeta) →
    on_heap (M := v1alpha4.V1Mount) (P := v1alpha4.V1PortMapping) (J := v1alpha4.V1PatchJSON6902)
      (option (hCluster v1alpha4.V1Networking v1alpha4.TypeMeta)) :=
  Cluster_DeepCopy.

(** ** The mounts of a planned node *)

Module CopyDemo.
Abbreviation cells := (gmap loc (cell Mount PortMapping PatchJSON6902)).
Definition mount (path : string) : Mount := mkMount "/data" path false false "".
Definition node : hNode := mkHNode "worker" "node:1" None (Some 1%positive) None None None.
Definition cluster : hCluster Networking unit :=
  mkHCluster () "kind" (Some 2%positive) (mkNetworking "ipv4" 0 "" "" "" false "") None None None None None None.
Definition before : cells := {[1%positive := CMounts [mount "data"]; 2%positive := CNodes [node]]}.

(** [node.ExtraMounts[m].HostPath = absHostPath] *)
Definition set_mounts (n : hNode) (l : list Mount) (h : cells) : cells :=
  match h_ExtraMounts n with Some x => <[x := CMounts l]> h | None => h end.

Lemma DeepCopy_independent_witness :
  ∃ v, cluster_val before cluster = Some v ∧
  ∃ c' h', Cluster_DeepCopy (Some cluster) before = Some (Some c', h') ∧ cluster_val h' c' = Some v.
Proof.
  destruct (cluster_val before cluster) as [v|] eqn:E; [|vm_compute in E; discriminate].
  exists v. split; [reflexivity|]. destruct (DeepCopy_independent before cluster v E) as (c' & h' & Hc & Hv & _).
  exists c', h'. split; [exact Hc|exact Hv].
Defined.

(** A copy of the struct alone shares its mounts with the original: making the path absolute
    changes the configuration. *)
Example shallow_copy_shares :
  node_val (set_mounts node [mount "/root/data"] before) node ≠ node_val before node.
Proof. vm_compute. discriminate. Qed.
Example deep_copy_does_not :
  match Node_DeepCopy (Some node) before with
  | Some (Some n', h') => bool_decide (node_locs n' = node_locs node) = false ∧
      node_val (set_mounts n' [mount "/root/data"] h') node = node_val before node
  | _ => False
  end.
Proof. vm_compute. done. Qed.
End CopyDemo.
