(* ===== verification/Sets.v ===== *)
(** * Sets of strings

    src/pkg/internal/sets/string.go (generated from the template of Kubernetes): a set is a map
    to empty structs, and a loop over it takes its elements in any order ([MapRange]).
    Elsewhere in the library such a set is a [gset]; shown here: the operations are those of
    [gset] whatever the order, and [List] is sorted. *)

From stdpp Require Import sorting.
From S2P Require Import Prelude GoStr.
Local Open Scope stdpp_scope.

Abbreviation String := (gset string).

(** The order in which a loop meets the keys of a map. *)
Class MapRange := {
  range : String → list string;
  range_perm s : range s ≡ₚ elements s
}.

(** ** The operations

    [Insert] and [Delete] change the set that they are called on, and return it. *)
Definition Insert (s : String) (items : list string) : String := fold_left (λ s item, {[item]} ∪ s) items s.
Definition Delete (s : String) (items : list string) : String := fold_left (λ s item, s ∖ {[item]}) items s.
Definition NewString (items : list string) : String := Insert ∅ items.
(** [StringKeySet] of a map whose keys are met in the given order. *)
Definition StringKeySet (keys : list string) : String := fold_left (λ ret k, Insert ret [k]) keys ∅.

Definition Has (s : String) (item : string) : bool := bool_decide (item ∈ s).
Fixpoint HasAll (s : String) (items : list string) : bool :=
  match items with [] => true | item :: items => if negb (Has s item) then false else HasAll s items end.
Fixpoint HasAny (s : String) (items : list string) : bool :=
  match items with [] => false | item :: items => if Has s item then true else HasAny s items end.
Definition Len (s : String) : nat := size s.
Definition lessString (lhs rhs : string) : bool := String.ltb lhs rhs.

Section loops.
Context `{MapRange}.

Definition Difference (s s2 : String) : String :=
  fold_left (λ result key, if negb (Has s2 key) then Insert result [key] else result) (range s) (NewString []).
Definition Union (s1 s2 : String) : String :=
  fold_left (λ result key, Insert result [key]) (range s2)
    (fold_left (λ result key, Insert result [key]) (range s1) (NewString [])).
Definition Intersection (s1 s2 : String) : String :=
  let '(walk, other) := if Nat.ltb (Len s1) (Len s2) then (s1, s2) else (s2, s1) in
  fold_left (λ result key, if Has other key then Insert result [key] else result) (range walk) (NewString []).
Fixpoint all_in (s1 : String) (items : list string) : bool :=
  match items with [] => true | item :: items => if negb (Has s1 item) then false else all_in s1 items end.
Definition IsSuperset (s1 s2 : String) : bool := all_in s1 (range s2).
Definition Equal (s1 s2 : String) : bool := Nat.eqb (Len s1) (Len s2) && IsSuperset s1 s2.

Definition UnsortedList (s : String) : list string := range s.
(** [sort.Sort]: the order is total, so every way of sorting gives the same. *)
Definition List (s : String) : list string := merge_sort String.le (range s).

(** The first element that the loop meets, and the set without it. *)
Definition PopAny (s : String) : string * bool * String :=
  match range s with key :: _ => (key, true, Delete s [key]) | [] => ("", false, s) end.
End loops.

(** ** They are those of sets *)

Lemma Insert_spec s items : Insert s items = list_to_set items ∪ s.
Proof.
  unfold Insert. revert s. induction items as [|x items IH]; intros s; simpl; [set_solver|]. rewrite IH. set_solver.
Qed.
Lemma Delete_spec s items : Delete s items = s ∖ list_to_set items.
Proof.
  unfold Delete. revert s. induction items as [|x items IH]; intros s; simpl; [set_solver|]. rewrite IH. set_solver.
Qed.

Section facts.
Context `{MapRange}.
Implicit Types s : String.

Lemma elem_of_range s x : x ∈ range s ↔ x ∈ s.
Proof. by rewrite range_perm, elem_of_elements. Qed.

(** A loop that inserts the keys that pass a test. *)
Lemma fold_insert (f : string → bool) l s :
  fold_left (λ result key, if f key then Insert result [key] else result) l s = list_to_set (List.filter f l) ∪ s.
Proof.
  revert s. induction l as [|x l IH]; intros s; simpl; [set_solver|]. rewrite IH. destruct (f x); simpl; set_solver.
Qed.
Lemma fold_insert_all l s : fold_left (λ result key, Insert result [key]) l s = list_to_set l ∪ s.
Proof. revert s. induction l as [|x l IH]; intros s; simpl; [set_solver|]. rewrite IH. set_solver. Qed.

Lemma elem_of_filter_range (f : string → bool) s x :
  x ∈ (list_to_set (List.filter f (range s)) : gset string) ↔ x ∈ s ∧ f x = true.
Proof. by rewrite elem_of_list_to_set, list_elem_of_In, filter_In, <-list_elem_of_In, elem_of_range. Qed.

Lemma all_in_spec s l : all_in s l = bool_decide (list_to_set l ⊆ s).
Proof.
  induction l as [|x l IH]; simpl; [by rewrite bool_decide_eq_true_2 by set_solver|].
  unfold Has. rewrite IH. destruct (bool_decide_reflect (x ∈ s)) as [Hx|Hx]; simpl; [apply bool_decide_ext; set_solver|].
  by rewrite bool_decide_eq_false_2 by set_solver.
Qed.

(** The operations on sets of strings are those of finite sets, in whatever order a loop meets the
    elements; in particular the result does not depend on it. *)
Theorem set_operations s1 s2 items :
  Union s1 s2 = s1 ∪ s2 ∧ Intersection s1 s2 = s1 ∩ s2 ∧ Difference s1 s2 = s1 ∖ s2 ∧
  Insert s1 items = list_to_set items ∪ s1 ∧ Delete s1 items = s1 ∖ list_to_set items ∧
  IsSuperset s1 s2 = bool_decide (s2 ⊆ s1) ∧ Equal s1 s2 = bool_decide (s1 = s2) ∧
  HasAll s1 items = bool_decide (list_to_set items ⊆ s1) ∧ HasAny s1 items = negb (bool_decide (list_to_set items ## s1)).
Proof.
  assert (IsSuperset s1 s2 = bool_decide (s2 ⊆ s1)) as Hsup.
  { unfold IsSuperset. rewrite all_in_spec. apply bool_decide_ext. unfold subseteq, set_subseteq_instance.
    setoid_rewrite elem_of_list_to_set. by setoid_rewrite elem_of_range. }
  split_and!; [| | |apply Insert_spec|apply Delete_spec|done| | |].
  - unfold Union. rewrite !fold_insert_all. apply leibniz_equiv. intros x.
    rewrite !elem_of_union, !elem_of_list_to_set, !elem_of_range. set_solver.
  - unfold Intersection. destruct (Nat.ltb _ _); rewrite fold_insert; apply leibniz_equiv; intros x;
      rewrite elem_of_union, elem_of_filter_range; unfold Has; rewrite bool_decide_eq_true; set_solver.
  - unfold Difference. rewrite fold_insert. apply leibniz_equiv. intros x.
    rewrite elem_of_union, elem_of_filter_range, negb_true_iff. unfold Has. rewrite bool_decide_eq_false. set_solver.
  - unfold Equal. rewrite Hsup. unfold Len. case_bool_decide as Hs; simpl.
    + rewrite andb_true_r. case_bool_decide as He; [subst; apply Nat.eqb_refl|]. apply Nat.eqb_neq. intros Hl.
      apply He. symmetry. apply leibniz_equiv, set_subseteq_size_equiv; [done|lia].
    + rewrite andb_false_r, bool_decide_eq_false_2; [done|]. set_solver.
  - induction items as [|x items IH]; simpl; [by rewrite bool_decide_eq_true_2 by set_solver|].
    rewrite IH. unfold Has. destruct (bool_decide_reflect (x ∈ s1)) as [Hx|Hx]; simpl; [apply bool_decide_ext; set_solver|].
    by rewrite bool_decide_eq_false_2 by set_solver.
  - induction items as [|x items IH]; simpl; [by rewrite bool_decide_eq_true_2 by set_solver|].
    rewrite IH. unfold Has. destruct (bool_decide_reflect (x ∈ s1)) as [Hx|Hx]; simpl; [by rewrite bool_decide_eq_false_2 by set_solver|].
    f_equal. apply bool_decide_ext. set_solver.
Qed.

(** The list of a set is sorted, has each element once and nothing else, and is the same in
    whatever order a loop meets them; what is popped is an element, which is then gone,
    unless the set is empty. *)
Theorem List_sorted s :
  Sorted String.le (List s) ∧ NoDup (List s) ∧ (∀ x, x ∈ List s ↔ x ∈ s) ∧
  (∀ l, Sorted String.le l → l ≡ₚ range s → l = List s) ∧
  match PopAny s with
  | (key, true, rest) => key ∈ s ∧ rest = s ∖ {[key]}
  | (_, false, rest) => s = ∅ ∧ rest = s
  end.
Proof.
  unfold List. split_and!.
  - apply Sorted_merge_sort. apply _.
  - rewrite merge_sort_Permutation, range_perm. apply NoDup_elements.
  - intros x. by rewrite merge_sort_Permutation, elem_of_range.
  - intros l Hl Hp. apply (Sorted_unique String.le); [done|apply Sorted_merge_sort; apply _|].
    by rewrite merge_sort_Permutation.
  - unfold PopAny. destruct (range s) as [|key l] eqn:E.
    + split; [|done]. apply leibniz_equiv. intros x. rewrite <-elem_of_range, E. set_solver.
    + split; [rewrite <-elem_of_range, E; by left|]. rewrite Delete_spec. set_solver.
Qed.
End facts.

(** What [RequiredNodeImages] and the lists of clusters use: the set of a list, as a list. *)
Lemma List_NewString `{MapRange} l : List (NewString l) = merge_sort String.le (remove_dups l).
Proof.
  unfold List. apply (Sorted_unique String.le); [apply Sorted_merge_sort; apply _..|].
  rewrite !merge_sort_Permutation. apply NoDup_Permutation.
  - rewrite range_perm. apply NoDup_elements.
  - apply NoDup_remove_dups.
  - intros x. rewrite elem_of_range, elem_of_remove_dups. unfold NewString. rewrite Insert_spec. set_solver.
Qed.

Module SetDemo.
#[local] Instance backwards : MapRange := {| range s := reverse (elements s); range_perm s := reverse_Permutation _ |}.
Example set_listed : List (NewString ["b"; "a"; "b"]) = ["a"; "b"].
Proof. vm_compute. reflexivity. Qed.
End SetDemo.
