(* ===== verification/CommandTree.v ===== *)
(** * The tree of commands: [NewCommand] of src/pkg/cmd/kind

    Every command with its arguments, its flags and their defaults, and what it calls with
    them; the parsing of the command line (github.com/spf13/cobra and pflag) is left to its
    result, the flags that were given and the words behind them.  The texts of the help are
    left out.  What is called is in [CreateCommand], [Load], [Logs], [Commands] and
    [BuildImage].  Shown: no flag is declared twice where both are seen, which would
    panic; and which name of a cluster a command takes. *)

From S2P Require Import Prelude GoStr KindConfig Cli Load BuildImage CreateCommand.
Local Open Scope Z_scope.
Local Open Scope go_scope.
Local Open Scope stdpp_scope.

(** ** Flags *)

Inductive value := VString (s : string) | VBool (b : bool) | VInt (z : Z) | VStrings (l : list string).
Record flag := mkFlag { fd_name : string; fd_short : string; fd_default : value }.
(** The flags that were given on the command line. *)
Abbreviation parsed := (gmap string value).

Definition value_of (fs : list flag) (p : parsed) (name : string) : option value :=
  match p !! name with Some v => Some v | None => fd_default <$> find (λ f, fd_name f =s name) fs end.
Definition string_flag (fs : list flag) (p : parsed) (name : string) : string :=
  match value_of fs p name with Some (VString s) => s | _ => "" end.
Definition bool_flag (fs : list flag) (p : parsed) (name : string) : bool :=
  match value_of fs p name with Some (VBool b) => b | _ => false end.
Definition int_flag (fs : list flag) (p : parsed) (name : string) : Z :=
  match value_of fs p name with Some (VInt z) => z | _ => 0 end.
Definition strings_flag (fs : list flag) (p : parsed) (name : string) : list string :=
  match value_of fs p name with Some (VStrings l) => l | _ => [] end.

(** ** Commands *)

(** What a command does in the end. *)
Inductive action :=
| Help
| GenCompletion (shell : string)
| PrintLine (text : string)
| BuildNodeImage (flags : nodeimage_flags) (args : list string)
| CreateCluster (flags : flagpole)
| DeleteCluster (name kubeconfig : string)
| DeleteClusters (all : bool) (kubeconfig : string) (args : list string)
| ExportLogs (name : string) (args : list string)
| ExportKubeconfig (name kubeconfig : string) (internal : bool)
| GetClusters
| GetNodes (name : string) (all : bool)
| GetKubeconfig (name : string) (internal : bool)
| LoadDockerImage (flags : load_flags) (args : list string)
| LoadImageArchive (flags : load_flags) (args : list string).

(** [cobra.PositionalArgs]; the texts of the errors of [cobra] are shortened. *)
Inductive positional := NoArgs | AnyArgs | MaximumNArgs (n : nat) | MinimumNArgs (n : nat) | NonEmptyArgs (message : string).
Definition check_args (a : positional) (args : list string) : res unit :=
  match a with
  | NoArgs => fail_when (Nat.ltb 0 (length args)) "unknown command"
  | AnyArgs => Ok tt
  | MaximumNArgs n => fail_when (Nat.ltb n (length args)) "accepts at most the given number of args"
  | MinimumNArgs n => fail_when (Nat.ltb (length args) n) "requires at least the given number of args"
  | NonEmptyArgs message => fail_when (Nat.ltb (length args) 1) message
  end.

Inductive command := Cmd {
  c_Use : string;
  c_Args : positional;
  c_Flags : list flag;
  c_PersistentFlags : list flag;
  c_RunE : parsed → list string → res action;
  c_commands : list command
}.

Section tree.
Context (KIND_CLUSTER_NAME : string) (b : build) (GoVersion GOOS GOARCH : string) (V0Enabled : bool).

(** A command that only has others prints its help. *)
Definition Subcommand_required (p : parsed) (args : list string) : res action := Err "Subcommand is required".

(** [cli.OverrideDefaultName(cmd.Flags())]: the error of setting a flag that there is not is
    dropped. *)
Definition OverrideDefaultName_flags (fs : list flag) (p : parsed) : parsed :=
  let declared := existsb (λ f, fd_name f =s "name") fs in
  if negb (opt_is_Some (p !! "name")) && (KIND_CLUSTER_NAME <>s "") && declared
  then <["name" := VString KIND_CLUSTER_NAME]> p else p.

Definition DefaultName : string := "kind".
Definition name_flag : flag := mkFlag "name" "n" (VString DefaultName).
Definition kubeconfig_flag : flag := mkFlag "kubeconfig" "" (VString "").
Definition internal_flag : flag := mkFlag "internal" "" (VBool false).
Definition nodes_flag : flag := mkFlag "nodes" "" (VStrings []).

(** *** completion, version *)

Definition completion_zsh_NewCommand : command := Cmd "zsh" NoArgs [] [] (λ _ _, Ok (GenCompletion "zsh")) [].
Definition completion_bash_NewCommand : command := Cmd "bash" NoArgs [] [] (λ _ _, Ok (GenCompletion "bash")) [].
Definition completion_fish_NewCommand : command := Cmd "fish" AnyArgs [] [] (λ _ _, Ok (GenCompletion "fish")) [].
Definition completion_NewCommand : command :=
  Cmd "completion" NoArgs [] [] Subcommand_required
    [completion_zsh_NewCommand; completion_bash_NewCommand; completion_fish_NewCommand].

Definition DisplayVersion : string :=
  "cloud-provisioner Version:" +:+ CLIVersion b true +:+ " GoVersion:" +:+ GoVersion +:+ " Platform:" +:+ GOOS +:+ "/" +:+ GOARCH.
Definition version_NewCommand : command :=
  Cmd "version" NoArgs [] [] (λ _ _, Ok (PrintLine (if V0Enabled then DisplayVersion else CLIVersion b true))) [].

(** *** build *)

Definition nodeimage_flag_list : list flag :=
  [mkFlag "type" "" (VString "docker"); mkFlag "image" "" (VString DefaultImage); mkFlag "kube-root" "" (VString "");
   mkFlag "base-image" "" (VString DefaultBaseImage); mkFlag "arch" "" (VString "")].
(** The closure looks at which flags were given; the rest is [nodeimage_runE]. *)
Definition nodeimage_NewCommand : command :=
  let fs := nodeimage_flag_list in
  Cmd "node-image [kubernetes-source]" (MaximumNArgs 1) fs []
    (λ p args, Ok (BuildNodeImage
       (mkNodeimageFlags (string_flag fs p "image") (string_flag fs p "base-image")
          (if opt_is_Some (p !! "kube-root") then Some (string_flag fs p "kube-root") else None)
          (string_flag fs p "arch") (opt_is_Some (p !! "type"))) args)) [].
Definition build_NewCommand : command := Cmd "build" NoArgs [] [] Subcommand_required [nodeimage_NewCommand].

(** *** create *)

Definition createcluster_flag_list : list flag :=
  [mkFlag "name" "n" (VString ""); mkFlag "config" "" (VString ""); mkFlag "image" "" (VString "");
   mkFlag "retain" "" (VBool false); mkFlag "wait" "" (VInt 0); kubeconfig_flag;
   mkFlag "vault-password" "p" (VString ""); mkFlag "descriptor" "d" (VString "");
   mkFlag "keep-mgmt" "" (VBool false); mkFlag "avoid-creation" "" (VBool false);
   mkFlag "delete-previous" "" (VBool false); mkFlag "validate-only" "" (VBool false);
   mkFlag "use-local-stratio-image" "" (VBool false); mkFlag "build-stratio-image" "" (VBool false)].
Definition createcluster_NewCommand : command :=
  let fs := createcluster_flag_list in
  Cmd "cluster" NoArgs fs []
    (λ p args,
       let p := OverrideDefaultName_flags fs p in
       Ok (CreateCluster (mkFlagpole (string_flag fs p "name") (string_flag fs p "config") (string_flag fs p "image")
         (bool_flag fs p "retain") (int_flag fs p "wait") (string_flag fs p "kubeconfig") (string_flag fs p "vault-password")
         (string_flag fs p "descriptor") (bool_flag fs p "keep-mgmt") (bool_flag fs p "avoid-creation")
         (bool_flag fs p "delete-previous") (bool_flag fs p "validate-only")
         (bool_flag fs p "use-local-stratio-image") (bool_flag fs p "build-stratio-image")))) [].
Definition create_NewCommand : command := Cmd "create" NoArgs [] [] Subcommand_required [createcluster_NewCommand].

(** *** delete *)

Definition deletecluster_NewCommand : command :=
  let fs := [name_flag; kubeconfig_flag] in
  Cmd "cluster" NoArgs fs []
    (λ p args, let p := OverrideDefaultName_flags fs p in
       Ok (DeleteCluster (string_flag fs p "name") (string_flag fs p "kubeconfig"))) [].
Definition deleteclusters_NewCommand : command :=
  let fs := [kubeconfig_flag; mkFlag "all" "A" (VBool false)] in
  Cmd "clusters" (MinimumNArgs 0) fs []
    (λ p args,
       fail_when (negb (bool_flag fs p "all") && Nat.eqb (length args) 0) "no cluster names provided" ;;
       Ok (DeleteClusters (bool_flag fs p "all") (string_flag fs p "kubeconfig") args)) [].
Definition delete_NewCommand : command :=
  Cmd "delete" NoArgs [] [] Subcommand_required [deletecluster_NewCommand; deleteclusters_NewCommand].

(** *** export *)

Definition export_logs_NewCommand : command :=
  let fs := [name_flag] in
  Cmd "logs [output-dir]" (MaximumNArgs 1) fs []
    (λ p args, let p := OverrideDefaultName_flags fs p in Ok (ExportLogs (string_flag fs p "name") args)) [].
Definition export_kubeconfig_NewCommand : command :=
  let fs := [name_flag; kubeconfig_flag; internal_flag] in
  Cmd "kubeconfig" NoArgs fs []
    (λ p args, let p := OverrideDefaultName_flags fs p in
       Ok (ExportKubeconfig (string_flag fs p "name") (string_flag fs p "kubeconfig") (bool_flag fs p "internal"))) [].
Definition export_NewCommand : command :=
  Cmd "export" NoArgs [] [] Subcommand_required [export_logs_NewCommand; export_kubeconfig_NewCommand].

(** *** get *)

Definition get_clusters_NewCommand : command := Cmd "clusters" NoArgs [] [] (λ _ _, Ok GetClusters) [].
Definition get_nodes_NewCommand : command :=
  let fs := [name_flag; mkFlag "all-clusters" "A" (VBool false)] in
  Cmd "nodes" NoArgs fs []
    (λ p args, let p := OverrideDefaultName_flags fs p in
       Ok (GetNodes (string_flag fs p "name") (bool_flag fs p "all-clusters"))) [].
Definition get_kubeconfig_NewCommand : command :=
  let fs := [name_flag; internal_flag] in
  Cmd "kubeconfig" NoArgs fs []
    (λ p args, let p := OverrideDefaultName_flags fs p in
       Ok (GetKubeconfig (string_flag fs p "name") (bool_flag fs p "internal"))) [].
Definition get_NewCommand : command :=
  Cmd "get" NoArgs [] [] Subcommand_required [get_clusters_NewCommand; get_nodes_NewCommand; get_kubeconfig_NewCommand].

(** *** load *)

Definition load_docker_image_NewCommand : command :=
  let fs := [name_flag; nodes_flag] in
  Cmd "docker-image <IMAGE> [IMAGE...]" (NonEmptyArgs "a list of image names is required") fs []
    (λ p args, let p := OverrideDefaultName_flags fs p in
       Ok (LoadDockerImage (mkLoadFlags (string_flag fs p "name") (strings_flag fs p "nodes")) args)) [].
Definition load_image_archive_NewCommand : command :=
  let fs := [name_flag; nodes_flag] in
  Cmd "image-archive <IMAGE.tar>" (NonEmptyArgs "name of image archive is required") fs []
    (λ p args, let p := OverrideDefaultName_flags fs p in
       Ok (LoadImageArchive (mkLoadFlags (string_flag fs p "name") (strings_flag fs p "nodes")) args)) [].
Definition load_NewCommand : command :=
  Cmd "load" NoArgs [] [] Subcommand_required [load_docker_image_NewCommand; load_image_archive_NewCommand].

(** *** The root, which itself does nothing but print its help *)

Definition root_NewCommand : command :=
  Cmd "cloud-provisioner" NoArgs []
    [mkFlag "loglevel" "" (VString ""); mkFlag "verbosity" "v" (VInt 0); mkFlag "quiet" "q" (VBool false)]
    (λ _ _, Ok Help)
    [build_NewCommand; completion_NewCommand; create_NewCommand; delete_NewCommand; export_NewCommand;
     get_NewCommand; version_NewCommand; load_NewCommand].
End tree.

(** ** Finding a command *)

(** [Command.Name]: the first word of [Use]. *)
Definition Name (c : command) : string := hd "" (Split (c_Use c) " ").
Fixpoint find_command (c : command) (path : list string) : option command :=
  match path with
  | [] => Some c
  | n :: path => match find (λ s, Name s =s n) (c_commands c) with Some s => find_command s path | None => None end
  end.
Definition invoke (root : command) (path : list string) (p : parsed) (args : list string) : res action :=
  match find_command root path with
  | Some c => check_args (c_Args c) args ;; c_RunE c p args
  | None => Err "unknown command"
  end.

(** ** Facts *)

(** No name twice, no letter twice ([pflag] panics on a flag that is declared again, and
    [cobra] on one that an outer command has declared for all). *)
Definition distinct_flags (fs : list flag) : bool :=
  bool_decide (NoDup (fd_name <$> fs)) &&
  bool_decide (NoDup (filter (λ s, s ≠ "") (fd_short <$> fs))).
Fixpoint well_declared (inherited : list flag) (c : command) : bool :=
  match c with
  | Cmd use args fs pfs run subs =>
      distinct_flags (inherited ++ pfs ++ fs) &&
      bool_decide (NoDup (Name <$> subs)) &&
      (fix all (l : list command) : bool := match l with [] => true | s :: l => well_declared (inherited ++ pfs) s && all l end) subs
  end.

Section facts.
Context (env : string) (b : build) (GoVersion GOOS GOARCH : string) (V0Enabled : bool).
Abbreviation root := (root_NewCommand env b GoVersion GOOS GOARCH V0Enabled).

(** Every command of the tree declares its flags once, and commands with the same parent have
    distinct names. *)
Lemma tree_well_declared : well_declared [] root = true.
Proof. vm_compute. reflexivity. Qed.

Definition cluster_name (a : action) : option string :=
  match a with
  | CreateCluster flags => Some (fl_Name flags)
  | DeleteCluster name _ | ExportLogs name _ | ExportKubeconfig name _ _ | GetNodes name _ | GetKubeconfig name _ => Some name
  | LoadDockerImage flags _ | LoadImageArchive flags _ => Some (lf_Name flags)
  | _ => None
  end.
(** The commands that take the name of a cluster, with its default. *)
Definition named_commands : list (list string * string) :=
  [(["create"; "cluster"], ""); (["delete"; "cluster"], "kind"); (["export"; "logs"], "kind");
   (["export"; "kubeconfig"], "kind"); (["get"; "nodes"], "kind"); (["get"; "kubeconfig"], "kind");
   (["load"; "docker-image"], "kind"); (["load"; "image-archive"], "kind")].

Definition name_in (fs : list flag) (p : parsed) : string := string_flag fs (OverrideDefaultName_flags env fs p) "name".
Lemma name_in_spec fs p short default : find (λ f, fd_name f =s "name") fs = Some (mkFlag "name" short (VString default)) →
  match p !! "name" with Some (VString _) | None => True | _ => False end →
  name_in fs p = match p !! "name" with Some (VString s) => s | _ => if env =s "" then default else env end.
Proof.
  intros Hf Hp. unfold name_in, OverrideDefaultName_flags, string_flag, value_of.
  assert (existsb (λ f, fd_name f =s "name") fs = true) as ->.
  { apply existsb_exists. apply find_some in Hf as [? ?]. eauto. }
  destruct (p !! "name") as [[]|] eqn:E; try done; simpl; [by rewrite E|].
  destruct (env =s "") eqn:Ee; simpl; [by rewrite E, Hf|by rewrite lookup_insert_eq].
Qed.

(** Every command that takes a cluster takes the name that was given with its flag, or else that
    of the environment, or else its default. *)
Theorem cluster_name_taken path default p args a :
  (path, default) ∈ named_commands → match p !! "name" with Some (VString _) | None => True | _ => False end →
  invoke root path p args = Ok a →
  cluster_name a = Some (match p !! "name" with Some (VString s) => s | _ => if env =s "" then default else env end).
Proof.
  intros Hin Hp. unfold named_commands in Hin. rewrite !elem_of_cons, elem_of_nil in Hin.
  repeat destruct Hin as [[= -> ->]|Hin]; [..|done]; unfold invoke; cbn -[string_flag OverrideDefaultName_flags check_args];
    rewrite bind_Ok_iff; intros (? & _ & [= <-]); simpl; f_equal;
    (eapply (name_in_spec _ p "n"); [reflexivity|exact Hp]).
Qed.
End facts.

Module TreeDemo.
Definition demo_build : build := mkBuild "" "" "" "".
Definition tree (env : string) : command := root_NewCommand env demo_build "go1.20" "linux" "amd64" true.

Lemma cluster_name_taken_witness :
  (["get"; "nodes"], "kind") ∈ named_commands ∧ invoke (tree "prod") ["get"; "nodes"] ∅ [] = Ok (GetNodes "prod" false) ∧
  cluster_name (GetNodes "prod" false) = Some "prod".
Proof.
  assert ((["get"; "nodes"], "kind") ∈ named_commands) as Hin by (unfold named_commands; rewrite !elem_of_cons; auto 10).
  assert (invoke (tree "prod") ["get"; "nodes"] ∅ [] = Ok (GetNodes "prod" false)) as E by (vm_compute; reflexivity).
  split; [exact Hin|split; [exact E|]].
  exact (cluster_name_taken "prod" demo_build "go1.20" "linux" "amd64" true _ _ ∅ [] _ Hin I E).
Defined.

(** Without flags nothing is asked for but the defaults. *)
Example create_without_flags : invoke (tree "") ["create"; "cluster"] ∅ [] =
  Ok (CreateCluster (mkFlagpole "" "" "" false 0 "" "" "" false false false false false false)).
Proof. vm_compute. reflexivity. Qed.
(** The environment does not name the clusters that [delete clusters] deletes. *)
Example delete_clusters_needs_names : invoke (tree "prod") ["delete"; "clusters"] ∅ [] = Err "no cluster names provided".
Proof. vm_compute. reflexivity. Qed.
End TreeDemo.
