(* ===== verification/Fs.v ===== *)
(** * Copying files and directories: src/pkg/fs/fs.go

    A file system is a map from absolute paths, lists of names, to files, directories and
    symbolic links; the calls of [os] that the code makes are functions on it: paths are
    resolved through links as the kernel does it, new files get their mode without the bits
    of the umask, and a path longer than [PATH_MAX] is an error.  Permissions are not
    checked, reads and writes do not fail, and a name has any length below that of a path.
    The texts of errors are those of the kernel.

    Shown: a copied tree is the original with its modes masked, and nothing else changes
    ([Copy_spec]); a copy always ends, since every directory makes the destination longer
    ([Copy_ends]), even of a directory into itself; a tree stays a tree ([Copy_wf]). *)

From S2P Require Import Prelude State.
From stdpp Require Import sorting.
Local Open Scope nat_scope.
Local Open Scope go_scope.
Local Open Scope stdpp_scope.

(** ** File systems *)

Abbreviation path := (list string).
Inductive entry :=
| File (mode : Z) (content : string)
| Dir (mode : Z)
| Symlink (absolute : bool) (target : path).
Abbreviation fsys := (@gmap path (@list_eq_dec string String.eq_dec) (@list_countable string String.eq_dec String.countable) entry).

Definition IsDir (e : entry) : bool := match e with Dir _ => true | _ => false end.
Definition is_link (e : entry) : bool := match e with Symlink _ _ => true | _ => false end.
(** [info.Mode()], without the bits that tell the kind. *)
Definition Mode (e : entry) : Z := match e with File m _ | Dir m => m | Symlink _ _ => 511 end.

(** What follows [q] in [p]. *)
Fixpoint strip (q p : path) : option path :=
  match q, p with
  | [], _ => Some p
  | x :: q, y :: p => if x =s y then strip q p else None
  | _ :: _, [] => None
  end.

Definition path_len (p : path) : nat := foldr (λ x n, S (String.length x) + n) 0 p.

(** ** The kernel *)

Definition ENOENT := "no such file or directory".
Definition ENOTDIR := "not a directory".
Definition ELOOP := "too many levels of symbolic links".
Definition ENAMETOOLONG := "file name too long".
Definition EEXIST := "file exists".
Definition EISDIR := "is a directory".

(** Where a path leads from the directory [cur], through at most [links] links; the last
    name may be one that there is not yet. *)
Fixpoint namei (links : nat) (follow : bool) (fs : fsys) : path → path → res path :=
  fix walk cur rest :=
    match rest with
    | [] => Ok cur
    | x :: rest =>
        if (x =s "") || (x =s ".") then walk cur rest else
        if x =s ".." then walk (removelast cur) rest else
        match fs !! (cur ++ [x]) with
        | Some (Dir _) => walk (cur ++ [x]) rest
        | Some (Symlink absolute target) =>
            if bool_decide (rest = []) && negb follow then Ok (cur ++ [x]) else
            match links with
            | O => Err ELOOP
            | S links => namei links follow fs (if absolute then [] else cur) (target ++ rest)
            end
        | Some (File _ _) => fail_when (negb (bool_decide (rest = []))) ENOTDIR ;; Ok (cur ++ [x])
        | None => fail_when (negb (bool_decide (rest = []))) ENOENT ;; Ok (cur ++ [x])
        end
    end.

Section os.
Context (PATH_MAX : nat) (umask : Z).

Definition masked (mode : Z) : Z := Z.ldiff mode umask.
Definition lookup_path (follow : bool) (p : path) : st fsys path := λ fs,
  (fail_when (Nat.leb PATH_MAX (path_len p)) ENAMETOOLONG ;; namei 40 follow fs [] p, fs).
Definition at_ (q : path) : st fsys (option entry) := get (λ fs, fs !! q).
Definition existing (q : path) : st fsys entry :=
  e ← at_ q; pure (match e with Some e => Ok e | None => Err ENOENT end).

Definition Stat (p : path) : st fsys entry := q ← lookup_path true p; existing q.
Definition Lstat (p : path) : st fsys entry := q ← lookup_path false p; existing q.

Definition Mkdir (p : path) (mode : Z) : st fsys unit :=
  q ← lookup_path false p;
  e ← at_ q;
  pure (fail_when (opt_is_Some e) EEXIST) ;;
  modify <[q := Dir (masked mode)]>.

(** [os.MkdirAll], the path backwards. *)
Fixpoint mkdir_all (rp : path) (mode : Z) : st fsys unit :=
  dir ← try_ (Stat (rev rp));
  match dir with
  | Ok e => pure (fail_when (negb (IsDir e)) ENOTDIR)
  | _ =>
      match rp with _ :: (_ :: _) as parent => mkdir_all parent mode | _ => mret tt end ;;
      made ← try_ (Mkdir (rev rp) mode);
      match made with
      | Ok _ => mret tt
      | _ =>
          dir ← try_ (Lstat (rev rp));
          match dir with Ok (Dir _) => mret tt | _ => pure made end
      end
  end.
Definition MkdirAll (p : path) (mode : Z) : st fsys unit := mkdir_all (rev p) mode.

(** [ioutil.ReadDir]: what is in a directory, by name. *)
Definition child_of (q p : path) : option string := match strip q p with Some [x] => Some x | _ => None end.
Definition names_in (fs : fsys) (q : path) : list string :=
  merge_sort String.le (omap (child_of q) (elements (dom fs))).
Definition entries_in (fs : fsys) (q : path) : list (string * entry) :=
  omap (λ x, pair x <$> fs !! (q ++ [x])) (names_in fs q).
Definition ReadDir (p : path) : st fsys (list (string * entry)) :=
  q ← lookup_path true p;
  e ← existing q;
  pure (fail_when (negb (IsDir e)) ENOTDIR) ;;
  get (λ fs, entries_in fs q).

(** [os.Open] *)
Definition Open (p : path) : st fsys path := q ← lookup_path true p; existing q ;; mret q.
(** [os.OpenFile] with [O_RDWR|O_CREATE|O_TRUNC]. *)
Definition OpenFile (p : path) (mode : Z) : st fsys path :=
  q ← lookup_path true p;
  e ← at_ q;
  match e with
  | Some (File m _) => modify <[q := File m ""]>
  | None => modify <[q := File (masked mode) ""]>
  | Some _ => pure (Err EISDIR)
  end ;;
  mret q.
(** [io.Copy] to the end of a file that was just truncated. *)
Definition io_Copy (out in_ : path) : st fsys unit :=
  e ← existing in_;
  content ← pure (match e with File _ c => Ok c | _ => Err EISDIR end);
  o ← existing out;
  modify <[out := File (Mode o) content]>.

(** [filepath.EvalSymlinks], with its own bound. *)
Definition EvalSymlinks (p : path) : st fsys path := λ fs,
  (q ← namei 255 true fs [] p; match fs !! q with Some _ => Ok q | None => Err ENOENT end, fs).

(** ** fs.go *)

(** [name] is what [ioutil.TempDir] gives. *)
Definition TempDir (GOOS : string) (name : res string) : res string :=
  name ← name;
  Ok (if (GOOS =s "darwin") && String.prefix "/var/" name then "/private" +:+ name else name).

Definition copyFile (src dst : path) (info : entry) : st fsys unit :=
  in_ ← Open src;
  out ← OpenFile dst (Mode info);
  io_Copy out in_.

Definition CopyFile (src dst : path) : st fsys unit := info ← Stat src; copyFile src dst info.

(** Every entry of a directory with [copy]; [None] when that ran out of fuel. *)
Fixpoint copy_entries (copy : path → path → entry → st fsys (option unit)) (src dst : path)
    (entries : list (string * entry)) : st fsys (option unit) :=
  match entries with
  | [] => mret (Some tt)
  | (name, info) :: entries =>
      r ← copy (src ++ [name]) (dst ++ [name]) info;
      match r with None => mret None | Some _ => copy_entries copy src dst entries end
  end.

(** What [copy] does with a link, and with a directory. *)
Definition copySymlink (copy : path → path → entry → st fsys (option unit)) (src dst : path) : st fsys (option unit) :=
  realSrc ← EvalSymlinks src;
  info ← Lstat realSrc;
  copy realSrc dst info.
Definition copyDir (copy : path → path → entry → st fsys (option unit)) (src dst : path) (info : entry) : st fsys (option unit) :=
  MkdirAll dst (Mode info) ;;
  entries ← ReadDir src;
  copy_entries copy src dst entries.

Fixpoint copy (fuel : nat) (src dst : path) (info : entry) : st fsys (option unit) :=
  match fuel with
  | O => mret None
  | S fuel =>
      if is_link info then copySymlink (copy fuel) src dst else
      if IsDir info then copyDir (copy fuel) src dst info else
      copyFile src dst info ;; mret (Some tt)
  end.

Definition Copy (fuel : nat) (src dst : path) : st fsys (option unit) :=
  info ← Lstat src;
  MkdirAll (removelast dst) 511 ;;
  copy fuel src dst info.
End os.

(** ** Paths *)

Lemma strip_Some q p rel : strip q p = Some rel ↔ p = q ++ rel.
Proof.
  revert p. induction q as [|x q IH]; intros p; simpl; [split; congruence|].
  destruct p as [|y p]; [done|]. destruct (String.eqb_spec x y) as [->|Hne]; [rewrite IH|]; split; congruence.
Qed.
Lemma strip_None q p : strip q p = None ↔ ∀ rel, p ≠ q ++ rel.
Proof.
  split.
  - intros E rel Hp. apply strip_Some in Hp. congruence.
  - intros Hn. destruct (strip q p) as [rel|] eqn:E; [|done]. apply strip_Some in E. by apply Hn in E.
Qed.
Lemma strip_below q rel : strip q (q ++ rel) = Some rel.
Proof. by apply strip_Some. Qed.
Lemma path_len_app p q : path_len (p ++ q) = path_len p + path_len q.
Proof.
  induction p as [|x p IH]; [done|]. change (path_len ((x :: p) ++ q)) with (S (String.length x) + path_len (p ++ q)).
  rewrite IH. change (path_len (x :: p)) with (S (String.length x) + path_len p). lia.
Qed.

(** A name that is no special one. *)
Definition proper (x : string) : bool := negb ((x =s "") || (x =s ".") || (x =s "..")).

(** Paths of which neither is in the other. *)
Definition apart (p q : path) : Prop := ∀ a b, p ++ a ≠ q ++ b.
Lemma apart_prefixes p q : ¬ p `prefix_of` q → ¬ q `prefix_of` p → apart p q.
Proof.
  intros Hp Hq a b E. revert q Hp Hq E. induction p as [|x p IH]; intros q Hp Hq E; [by destruct Hp; exists q|].
  destruct q as [|y q]; [by destruct Hq; eexists|]. simpl in E. injection E as -> E. eapply (IH q); [..|exact E].
  - intros Hpq. by apply Hp, prefix_cons.
  - intros Hqp. by apply Hq, prefix_cons.
Qed.
Lemma apart_below p q a b : apart p q → apart (p ++ a) (q ++ b).
Proof. intros H c d. rewrite <- !(assoc_L (++)). apply H. Qed.
#[export] Hint Resolve apart_below : core.

(** ** Trees *)

(** The root is a directory, and so is what something is in. *)
Record wf (fs : fsys) : Prop := {
  wf_root : ∃ m, fs !! [] = Some (Dir m);
  wf_parent p x e : fs !! (p ++ [x]) = Some e → (∃ m, fs !! p = Some (Dir m)) ∧ proper x = true
}.

Definition is_dir (fs : fsys) (p : path) : Prop := ∃ m, fs !! p = Some (Dir m).

(** Where a path can lead. *)
Definition resolved (follow : bool) (fs : fsys) (q : path) : Prop :=
  is_dir fs q ∨
  ∃ p x, q = p ++ [x] ∧ is_dir fs p ∧ proper x = true ∧ (follow = true → ∀ e, fs !! q = Some e → is_link e = false).

Lemma resolved_not_link fs q e : resolved true fs q → fs !! q = Some e → is_link e = false.
Proof. intros [[m Hm]|(p & x & -> & _ & _ & Hl)] He; [by simplify_eq|by apply Hl]. Qed.

Lemma wf_removelast fs p : wf fs → is_dir fs p → is_dir fs (removelast p).
Proof.
  intros Hwf [m Hp]. destruct p as [|x p] using rev_ind; [by exists m|].
  rewrite removelast_last. by apply (wf_parent _ Hwf) in Hp as [? _].
Qed.

Lemma wf_ancestor fs p rel e : wf fs → fs !! (p ++ rel) = Some e → rel ≠ [] → is_dir fs p.
Proof.
  intros Hwf. revert e. induction rel as [|x rel IH] using rev_ind; intros e He Hne; [done|].
  rewrite (assoc_L (++)) in He. apply (wf_parent _ Hwf) in He as [[m Hm] _].
  destruct (decide (rel = [])) as [->|Hr]; [|by eapply IH]. rewrite app_nil_r in Hm. by exists m.
Qed.

Lemma wf_insert follow fs q e :
  wf fs → resolved follow fs q → (is_dir fs q → IsDir e = true) → wf (<[q := e]> fs).
Proof.
  intros Hwf Hq Hd. split.
  - destruct (wf_root _ Hwf) as [m Hm]. destruct (decide (q = [])) as [->|Hne].
    + rewrite lookup_insert_eq. assert (IsDir e = true) as He by (apply Hd; by exists m). destruct e; try done. eauto.
    + rewrite lookup_insert_ne by done. eauto.
  - intros p x e' He'.
    assert ((∃ m, fs !! p = Some (Dir m)) ∧ proper x = true) as [[m Hm] Hx].
    { destruct (decide (p ++ [x] = q)) as [<-|Hne].
      - destruct Hq as [[m Hm]|(p' & x' & [-> ->]%app_inj_tail & ? & ? & _)]; [by eapply wf_parent|done].
      - rewrite lookup_insert_ne in He' by done. by eapply wf_parent. }
    split; [|done]. destruct (decide (p = q)) as [->|Hne]; [|rewrite lookup_insert_ne by done; eauto].
    rewrite lookup_insert_eq. assert (IsDir e = true) as He by (apply Hd; by exists m). destruct e; try done. eauto.
Qed.

(** *** Resolving paths *)

Lemma namei_resolved links follow fs cur rest q :
  wf fs → is_dir fs cur → namei links follow fs cur rest = Ok q → resolved follow fs q.
Proof.
  intros Hwf. revert cur rest. induction links as [links IHl] using lt_wf_ind. intros cur rest. revert cur.
  induction rest as [|x rest IH]; intros cur Hcur; destruct links as [|links]; cbn [namei];
    try (intros [= <-]; by left).
  all: destruct ((x =s "") || (x =s ".")) eqn:E1; [by apply IH|].
  all: destruct (x =s "..") eqn:E2; [apply IH; by apply wf_removelast|].
  all: assert (proper x = true) as Hx by (unfold proper; by rewrite E1, E2).
  all: destruct (fs !! (cur ++ [x])) as [[m c|m|absolute target]|] eqn:Ex.
  all: try (rewrite bind_Ok_iff; intros (? & _ & [= <-]); right; exists cur, x; repeat split; try done; intros; by simplify_eq).
  all: try (apply IH; by exists m).
  all: destruct (bool_decide (rest = []) && negb follow) eqn:E3;
    [intros [= <-]; right; exists cur, x; repeat split; try done; intros ->; by rewrite andb_false_r in E3|].
  - done.
  - apply IHl; [lia|]. destruct absolute; [exact (wf_root _ Hwf)|done].
Qed.

Lemma namei_dirs links follow fs a b rest :
  wf fs → is_dir fs (a ++ b) → namei links follow fs a (b ++ rest) = namei links follow fs (a ++ b) rest.
Proof.
  intros Hwf. revert a. induction b as [|x b IH]; intros a Hd; [by rewrite app_nil_r|].
  assert (is_dir fs (a ++ [x])) as [m Hx].
  { destruct (decide (b = [])) as [->|Hne]; [done|]. destruct Hd as [m Hm].
    eapply (wf_ancestor _ (a ++ [x]) b); [done| |done]. by rewrite <- (assoc_L (++)). }
  pose proof (wf_parent _ Hwf _ _ _ Hx) as [_ Hp]. unfold proper in Hp. apply negb_true_iff, orb_false_iff in Hp as [Hp1 Hp2].
  rewrite <- (app_comm_cons b rest x).
  transitivity (namei links follow fs (a ++ [x]) (b ++ rest)).
  { destruct links; cbn [namei]; by rewrite Hp1, Hp2, Hx. }
  rewrite IH by (by rewrite <- (assoc_L (++))). by rewrite <- (assoc_L (++)).
Qed.

Lemma namei_no_panic links follow fs cur rest e : namei links follow fs cur rest ≠ Panic e.
Proof.
  revert cur rest. induction links as [links IHl] using lt_wf_ind. intros cur rest. revert cur.
  induction rest as [|x rest IH]; intros cur; destruct links as [|links]; cbn [namei]; try done.
  all: destruct ((x =s "") || (x =s ".")); [apply IH|].
  all: destruct (x =s ".."); [apply IH|].
  all: destruct (fs !! (cur ++ [x])) as [[m c|m|absolute target]|]; try apply IH;
    try (by destruct (bool_decide (rest = []))).
  all: destruct (bool_decide (rest = []) && negb follow); [done|]; try done. apply IHl. lia.
Qed.

(** A path with no links leads to itself. *)
Lemma namei_new links follow fs p x : wf fs → is_dir fs p → proper x = true →
  (follow = true → ∀ e, fs !! (p ++ [x]) = Some e → is_link e = false) → namei links follow fs [] (p ++ [x]) = Ok (p ++ [x]).
Proof.
  intros Hwf Hp Hx Hl. rewrite (namei_dirs _ _ _ [] p [x]) by done. simpl.
  unfold proper in Hx. apply negb_true_iff, orb_false_iff in Hx as [H1 H2].
  assert (namei links follow fs p [x] = match fs !! (p ++ [x]) with
    | Some (Symlink absolute target) => if negb follow then Ok (p ++ [x]) else match links with O => Err ELOOP | S links => namei links follow fs (if absolute then [] else p) (target ++ []) end
    | _ => Ok (p ++ [x]) end) as ->.
  { destruct links; cbn [namei]; rewrite H1, H2; by destruct (fs !! (p ++ [x])) as [[]|]. }
  destruct (fs !! (p ++ [x])) as [[]|] eqn:E; try done. destruct follow; [by specialize (Hl eq_refl _ eq_refl)|done].
Qed.
Lemma namei_self links follow fs p e : wf fs → fs !! p = Some e → (follow = true → is_link e = false) →
  namei links follow fs [] p = Ok p.
Proof.
  intros Hwf He Hl. destruct p as [|x p _] using rev_ind; [by destruct links|].
  pose proof (wf_parent _ Hwf _ _ _ He) as [Hd Hx]. apply namei_new; [done..|]. intros Hf e' He'. simplify_eq. by apply Hl.
Qed.

(** ** Every call leaves a tree *)

Section trees.
Context (PATH_MAX : nat) (umask : Z).
Abbreviation os_lookup_path := (lookup_path PATH_MAX).
Abbreviation os_Stat := (Stat PATH_MAX).
Abbreviation os_Lstat := (Lstat PATH_MAX).
Abbreviation os_Mkdir := (Mkdir PATH_MAX umask).
Abbreviation os_MkdirAll := (MkdirAll PATH_MAX umask).
Abbreviation os_OpenFile := (OpenFile PATH_MAX umask).
Abbreviation os_copyFile := (copyFile PATH_MAX umask).
Abbreviation os_copy := (copy PATH_MAX umask).
Abbreviation os_Copy := (Copy PATH_MAX umask).

Definition keeps (w w' : fsys) : Prop := wf w → wf w'.
#[local] Instance keeps_preorder : PreOrder keeps.
Proof. split; unfold keeps; [intros w; auto|intros a b c; auto]. Qed.

Lemma lookup_path_run follow p w :
  (∃ q, os_lookup_path follow p w = (Ok q, w) ∧ namei 40 follow w [] p = Ok q ∧ path_len p < PATH_MAX) ∨
  ∃ r, os_lookup_path follow p w = (r, w) ∧ is_Ok r = false.
Proof.
  unfold Fs.lookup_path. destruct (Nat.leb_spec PATH_MAX (path_len p)) as [Hl|Hl]; [right; by eexists|].
  destruct (namei 40 follow w [] p) as [q| |] eqn:E; [left; by exists q|right; by eexists..].
Qed.

Lemma sat_lookup follow p : sat (os_lookup_path follow p) keeps keeps.
Proof. intros w. unfold Fs.lookup_path. destruct (_ : res path); reflexivity. Qed.
Lemma sat_existing q : sat (existing q) keeps keeps.
Proof. unfold existing, at_. repeat sat_step. Qed.
#[local] Hint Resolve sat_lookup sat_existing : sat.
Lemma sat_stat follow p : sat (q ← os_lookup_path follow p; existing q) keeps keeps.
Proof. sat_step; auto with sat. Qed.
Lemma sat_try_keeps {A} (m : st fsys A) : sat m keeps keeps → sat (try_ m) keeps keeps.
Proof. intros Hm w. specialize (Hm w). unfold try_. by destruct (m w) as [[]]. Qed.

Lemma sat_resolve {A} follow p (f : path → st fsys A) :
  (∀ q w, wf w → resolved follow w q → wf (snd (f q w))) → sat (os_lookup_path follow p ≫= f) keeps keeps.
Proof.
  intros Hf. apply sat_always. intros w r w' E Hwf. unfold mbind, st_bind in E.
  destruct (lookup_path_run follow p w) as [(q & Eq & Hq & _)|(r' & Er & Hr)].
  - rewrite Eq in E. apply namei_resolved in Hq; [|done|by apply wf_root]. specialize (Hf q w Hwf Hq). by rewrite E in Hf.
  - rewrite Er in E. by destruct r'; simplify_eq.
Qed.

Lemma sat_Mkdir p mode : sat (os_Mkdir p mode) keeps keeps.
Proof.
  apply sat_resolve. intros q w Hwf Hq. unfold at_, get, mbind, st_bind, pure, modify.
  destruct (w !! q) eqn:E; simpl; [done|]. by eapply wf_insert.
Qed.

Lemma sat_MkdirAll p mode : sat (os_MkdirAll p mode) keeps keeps.
Proof.
  unfold Fs.MkdirAll. generalize (rev p). clear p. intros rp.
  induction rp as [|x rp IH]; cbn [mkdir_all];
    (apply sat_bind; [apply sat_try_keeps, sat_stat|intros d]; destruct d; [apply sat_pure| |];
     (apply sat_bind; [|intros _; apply sat_bind; [apply sat_try_keeps, sat_Mkdir|intros made]; destruct made; [apply sat_ret|..];
        (apply sat_bind; [apply sat_try_keeps, sat_stat|intros d]; repeat sat_step)])).
  1,2: apply sat_ret.
  all: destruct rp; [apply sat_ret|exact IH].
Qed.

Lemma sat_copyFile src dst info : sat (os_copyFile src dst info) keeps keeps.
Proof.
  apply sat_bind; [unfold Open; sat_step; [auto with sat|]; sat_step; [auto with sat|sat_step]|intros in_].
  unfold os_OpenFile. apply sat_always. intros w r w' E Hwf.
  unfold mbind at 1, st_bind at 1, mbind at 1, st_bind at 1 in E.
  destruct (lookup_path_run true dst w) as [(q & Eq & Hq & _)|(r' & Er & Hr)].
  2: { unfold Fs.OpenFile, mbind, st_bind in E. rewrite Er in E. by destruct r'; simplify_eq. }
  apply namei_resolved in Hq; [|done|by apply wf_root].
  assert (∀ m c, (∀ d, ¬ w !! q = Some (Dir d)) → wf (<[q := File m c]> w)) as Hins.
  { intros m c Hnd. eapply wf_insert; [done..|]. intros [d Hd]. by apply Hnd in Hd. }
  assert (∀ m c, (∀ d, ¬ w !! q = Some (Dir d)) → wf (snd (io_Copy q in_ (<[q := File m c]> w)))) as Hio.
  { intros m c Hnd. unfold io_Copy, existing, at_, get, mbind, st_bind, pure, modify. rewrite lookup_insert_eq.
    destruct (<[q := File m c]> w !! in_) as [[m' c'|m'|a t]|]; simpl; rewrite ?insert_insert_eq; auto. }
  unfold Fs.OpenFile, mbind, st_bind in E. rewrite Eq in E. unfold at_, get, pure, modify in E.
  destruct (w !! q) as [[m c|m|a t]|] eqn:Ew; simpl in E; simplify_eq; try done.
  - specialize (Hio m "" ltac:(congruence)). by rewrite E in Hio.
  - specialize (Hio (masked umask (Mode info)) "" ltac:(congruence)). by rewrite E in Hio.
Qed.

Lemma sat_EvalSymlinks p : sat (EvalSymlinks p) keeps keeps.
Proof. intros w. unfold EvalSymlinks. destruct (_ : res path); reflexivity. Qed.
Lemma sat_ReadDir p : sat (ReadDir PATH_MAX p) keeps keeps.
Proof. unfold ReadDir. sat_step; [auto with sat|]. sat_step; [auto with sat|]. repeat sat_step. Qed.

Lemma sat_copy fuel src dst info : sat (os_copy fuel src dst info) keeps keeps.
Proof.
  revert src dst info. induction fuel as [|fuel IH]; intros src dst info; simpl; [apply sat_ret|].
  destruct info as [m c|m|a t]; cbn [is_link IsDir]; unfold copyDir, copySymlink; cbn [Mode].
  - apply sat_bind; [apply sat_copyFile|intros _; apply sat_ret].
  - apply sat_bind; [apply sat_MkdirAll|intros _]. apply sat_bind; [apply sat_ReadDir|intros es].
    induction es as [|[x e] es IHes]; simpl; [apply sat_ret|]. apply sat_bind; [apply IH|]. intros [[]|]; [done|apply sat_ret].
  - apply sat_bind; [apply sat_EvalSymlinks|intros q]. apply sat_bind; [apply sat_stat|intros e]. apply IH.
Qed.

(** A tree stays a tree: whatever is copied where, and however the copy ends, what there is
    is in a directory and the names in it are proper. *)
Lemma Copy_wf fuel src dst fs : wf fs → wf (snd (os_Copy fuel src dst fs)).
Proof.
  assert (sat (os_Copy fuel src dst) keeps keeps) as Hs.
  { apply sat_bind; [apply sat_stat|intros e]. apply sat_bind; [apply sat_MkdirAll|intros _]. apply sat_copy. }
  intros Hwf. specialize (Hs fs). destruct (os_Copy fuel src dst fs) as [[] w]; by apply Hs.
Qed.

(** ** A copy ends *)

Lemma lookup_too_long follow p w : PATH_MAX ≤ path_len p → os_lookup_path follow p w = (Err ENAMETOOLONG, w).
Proof. intros Hl. unfold Fs.lookup_path. by apply Nat.leb_le in Hl as ->. Qed.

Lemma MkdirAll_too_long p mode w : PATH_MAX ≤ path_len p → is_Ok (fst (os_MkdirAll p mode w)) = false.
Proof.
  intros Hl. unfold Fs.MkdirAll. assert (PATH_MAX ≤ path_len (rev (rev p))) as Hl' by (by rewrite rev_involutive).
  revert Hl'. generalize (rev p). clear p Hl. intros rp Hl.
  assert (∀ follow w, (q ← os_lookup_path follow (rev rp); existing q) w = (Err ENAMETOOLONG, w)) as Hst.
  { intros fl v. unfold mbind, st_bind. by rewrite lookup_too_long. }
  assert (∀ w, os_Mkdir (rev rp) mode w = (Err ENAMETOOLONG, w)) as Hmk.
  { intros v. unfold Fs.Mkdir, mbind, st_bind. by rewrite lookup_too_long. }
  destruct rp as [|x rp]; cbn [mkdir_all]; unfold mbind at 1, st_bind at 1, try_ at 1; unfold Fs.Stat; rewrite Hst.
  - unfold mbind, st_bind, try_. simpl. rewrite Hmk. unfold Fs.Lstat. by rewrite Hst.
  - unfold mbind at 1, st_bind at 1. set (m := match rp with [] => _ | _ => _ end). destruct (m w) as [[[]|e|e] w1]; [|done..].
    unfold mbind, st_bind, try_. rewrite Hmk. unfold Fs.Lstat. by rewrite Hst.
Qed.

(** The links that a link stands for are followed at once. *)
Lemma EvalSymlinks_info src w q w1 e w2 :
  wf w → EvalSymlinks src w = (Ok q, w1) → os_Lstat q w1 = (Ok e, w2) → w1 = w ∧ w2 = w ∧ is_link e = false.
Proof.
  intros Hwf Hq He. unfold EvalSymlinks in Hq. apply pair_equal_spec in Hq as [Hq <-].
  rewrite bind_Ok_iff in Hq. destruct Hq as (q' & Hn & Hq'). destruct (w !! q') as [e'|] eqn:Eq; [|done]. injection Hq' as ->.
  apply namei_resolved in Hn; [|done|by apply wf_root]. pose proof (resolved_not_link _ _ _ Hn Eq) as Hl.
  apply st_bind_Ok in He as (q' & v & Hq' & He).
  destruct (lookup_path_run false q w) as [(q2 & E2 & Hn2 & _)|(r & Er & Hr)]; [|rewrite Er in Hq'; by destruct r].
  rewrite E2 in Hq'. injection Hq' as -> <-. rewrite (namei_self _ _ _ _ _ Hwf Eq) in Hn2 by done. injection Hn2 as <-.
  unfold existing, at_, get, mbind, st_bind, pure in He. rewrite Eq in He. by simplify_eq.
Qed.

Definition fuel_for (dst : path) (info : entry) : nat := 2 * (PATH_MAX - path_len dst) + (if is_link info then 1 else 0).

Lemma copy_ends fuel src dst info w : wf w → fuel_for dst info < fuel → fst (os_copy fuel src dst info w) ≠ Ok None.
Proof.
  revert src dst info w. induction fuel as [|fuel IH]; intros src dst info w Hwf Hf; [lia|]. simpl.
  destruct info as [m c|m|a t]; cbn [is_link IsDir]; unfold copyDir, copySymlink; cbn [Mode].
  - unfold mbind, st_bind. destruct (os_copyFile src dst (File m c) w) as [[[]| |] w1]; done.
  - unfold mbind at 1, st_bind at 1. destruct (os_MkdirAll dst m w) as [[[]| |] w1] eqn:E1; [|done..].
    assert (path_len dst < PATH_MAX) as Hd.
    { apply Nat.nle_gt. intros Hl. pose proof (MkdirAll_too_long dst m w Hl) as Hn. by rewrite E1 in Hn. }
    assert (wf w1) as Hwf1 by (pose proof (sat_MkdirAll dst m w) as Hs; rewrite E1 in Hs; by apply Hs).
    unfold mbind, st_bind. destruct (ReadDir PATH_MAX src w1) as [[es| |] w2] eqn:E2; [|done..].
    assert (wf w2) as Hwf2 by (pose proof (sat_ReadDir src w1) as Hs; rewrite E2 in Hs; by apply Hs).
    clear E1 E2 Hwf1 w w1 Hwf. revert w2 Hwf2. induction es as [|[x e] es IHes]; intros w Hwf; simpl; [done|].
    unfold mbind, st_bind.
    assert (fst (os_copy fuel (src ++ [x]) (dst ++ [x]) e w) ≠ Ok None) as Hx.
    { apply IH; [done|]. unfold fuel_for in *. rewrite path_len_app. simpl in Hf. unfold path_len at 2. simpl. destruct (is_link e); lia. }
    pose proof (sat_copy fuel (src ++ [x]) (dst ++ [x]) e w) as Hs.
    destruct (os_copy fuel (src ++ [x]) (dst ++ [x]) e w) as [[[[]|]| |] w']; try done. apply IHes. by apply Hs.
  - unfold mbind, st_bind. destruct (EvalSymlinks src w) as [[q| |] w1] eqn:E1; [|done..].
    destruct (os_Lstat q w1) as [[e| |] w2] eqn:E2; [|done..].
    destruct (EvalSymlinks_info _ _ _ _ _ _ Hwf E1 E2) as (-> & -> & He).
    apply IH; [done|]. unfold fuel_for in *. rewrite He. simpl in Hf. lia.
Qed.

(** ** What is copied *)

Definition mask (e : entry) : entry :=
  match e with File m c => File (masked umask m) c | Dir m => Dir (masked umask m) | l => l end.
(** What there is below [src] is below [dst] too, and the rest is as it was. *)
Definition copied (src dst : path) (fs fs' : fsys) : Prop :=
  ∀ p, fs' !! p = match strip dst p with Some rel => mask <$> fs !! (src ++ rel) | None => fs !! p end.

Lemma stat_at follow p e w : wf w → w !! p = Some e → (follow = true → is_link e = false) → path_len p < PATH_MAX →
  os_lookup_path follow p w = (Ok p, w) ∧ (q ← os_lookup_path follow p; existing q) w = (Ok e, w).
Proof.
  intros Hwf He Hl Hp.
  assert (os_lookup_path follow p w = (Ok p, w)) as E.
  { unfold Fs.lookup_path. rewrite (proj2 (Nat.leb_gt _ _) Hp). by rewrite (namei_self _ _ _ _ _ Hwf He Hl). }
  split; [done|]. rewrite (st_run _ _ _ _ _ E). unfold existing, at_, get, mbind, st_bind, pure. by rewrite He.
Qed.

(** A path of which only the last name is missing. *)
Lemma lookup_missing follow p x w : wf w → is_dir w p → proper x = true → w !! (p ++ [x]) = None →
  path_len (p ++ [x]) < PATH_MAX → os_lookup_path follow (p ++ [x]) w = (Ok (p ++ [x]), w).
Proof.
  intros Hwf Hd Hx Hn Hl. unfold Fs.lookup_path. rewrite (proj2 (Nat.leb_gt _ _) Hl).
  rewrite (namei_new _ _ _ _ _ Hwf Hd Hx); [done|]. congruence.
Qed.

Lemma MkdirAll_there p m mode w : wf w → w !! p = Some (Dir m) → path_len p < PATH_MAX → os_MkdirAll p mode w = (Ok tt, w).
Proof.
  intros Hwf Hp Hl. unfold Fs.MkdirAll. rewrite <- (rev_involutive p) in Hp, Hl. revert Hp Hl. generalize (rev p). intros rp Hp Hl.
  destruct (stat_at true _ _ _ Hwf Hp (λ _, eq_refl) Hl) as [_ Hs].
  destruct rp as [|x rp]; cbn [mkdir_all]; unfold mbind at 1, st_bind at 1, try_ at 1, Fs.Stat; by rewrite Hs.
Qed.

Lemma Mkdir_missing p x mode w : wf w → is_dir w p → proper x = true → w !! (p ++ [x]) = None →
  path_len (p ++ [x]) < PATH_MAX → os_Mkdir (p ++ [x]) mode w = (Ok tt, <[p ++ [x] := Dir (masked umask mode)]> w).
Proof.
  intros Hwf Hd Hx Hn Hl. unfold Fs.Mkdir. rewrite (st_run _ _ _ _ _ (lookup_missing false _ _ _ Hwf Hd Hx Hn Hl)).
  unfold at_, get, mbind, st_bind, pure, modify. by rewrite Hn.
Qed.

(** The directories that are missing on the way to [p]. *)
Definition with_dirs (p : path) (mode : Z) (w w' : fsys) : Prop :=
  ∀ q, w' !! q = match w !! q with Some e => Some e | None => if bool_decide (q `prefix_of` p) then Some (Dir (masked umask mode)) else None end.

Lemma with_dirs_dir p mode w w' : (∀ q, q `prefix_of` p → w !! q = None ∨ is_dir w q) → with_dirs p mode w w' → is_dir w' p.
Proof.
  intros Hp Hw. specialize (Hw p). destruct (Hp p (reflexivity _)) as [E|[m E]]; rewrite E in Hw; [|by exists m].
  rewrite bool_decide_true in Hw by done. by eexists.
Qed.

(** A path without links leads nowhere else, wherever it ends. *)
Lemma namei_no_links links follow w cur rest q : is_dir w cur → Forall (λ x, proper x = true) rest →
  (∀ k, k `prefix_of` rest → w !! (cur ++ k) = None ∨ is_dir w (cur ++ k)) →
  namei links follow w cur rest = Ok q → q = cur ++ rest.
Proof.
  revert cur. induction rest as [|x rest IH]; intros cur Hd Hx Hk.
  - destruct links; intros [= <-]; by rewrite app_nil_r.
  - apply Forall_cons in Hx as [Hx Hxs]. unfold proper in Hx. apply negb_true_iff, orb_false_iff in Hx as [H1 H2].
    assert (w !! (cur ++ [x]) = None ∨ is_dir w (cur ++ [x])) as Hc by (apply Hk; by exists rest).
    assert (is_dir w (cur ++ [x]) → namei links follow w (cur ++ [x]) rest = Ok q → q = cur ++ x :: rest) as Hrec.
    { intros Hd' Hn. replace (cur ++ x :: rest) with ((cur ++ [x]) ++ rest) by by rewrite <- (assoc_L (++)).
      apply IH; [done..| |done]. intros k Hkk. rewrite <- (assoc_L (++)). apply Hk. by apply prefix_cons. }
    destruct links; cbn [namei]; rewrite H1, H2; (destruct Hc as [Hn|[m Hm]]; [rewrite Hn|rewrite Hm; apply Hrec; by exists m]);
      rewrite bind_Ok_iff; intros (? & Hr%fail_when_Ok & [= <-]); apply negb_false_iff, bool_decide_eq_true in Hr; by subst.
Qed.

Lemma Stat_missing p w : wf w → w !! p = None → (∀ q, q `prefix_of` p → w !! q = None ∨ is_dir w q) →
  Forall (λ x, proper x = true) p → ∃ e, os_Stat p w = (Err e, w).
Proof.
  intros Hwf Hn Hp Hx. unfold Fs.Stat, mbind, st_bind. destruct (lookup_path_run true p w) as [(q & -> & E & _)|(r & Er & Hr)].
  - apply namei_no_links in E as ->; [|by apply wf_root|done..].
    unfold existing, at_, get, mbind, st_bind, pure. simpl. rewrite Hn. by eexists.
  - rewrite Er. destruct r as [|e|e]; [done|by eexists|]. exfalso. apply pair_equal_spec in Er as [Er _].
    destruct (Nat.leb PATH_MAX (path_len p)); [done|]. by apply namei_no_panic in Er.
Qed.

Lemma MkdirAll_step p x mode w e w1 w2 : os_Stat (p ++ [x]) w = (Err e, w) → os_MkdirAll p mode w = (Ok tt, w1) →
  (p = [] → w1 = w) → os_Mkdir (p ++ [x]) mode w1 = (Ok tt, w2) → os_MkdirAll (p ++ [x]) mode w = (Ok tt, w2).
Proof.
  unfold Fs.MkdirAll. intros Hs Hm Hp Hk. rewrite rev_app_distr. cbn [rev app mkdir_all].
  rewrite rev_involutive. unfold mbind at 1, st_bind at 1, try_ at 1. rewrite Hs.
  unfold mbind at 1, st_bind at 1.
  assert (match rev p with [] => mret tt | _ :: _ => mkdir_all PATH_MAX umask (rev p) mode end w = (Ok tt, w1)) as ->.
  { destruct (rev p) as [|y rp] eqn:E; [|done]. rewrite Hp; [done|]. by rewrite <- (rev_involutive p), E. }
  unfold mbind, st_bind, try_. by rewrite Hk.
Qed.

Lemma MkdirAll_spec p mode w : wf w → (∀ q, q `prefix_of` p → w !! q = None ∨ is_dir w q) →
  Forall (λ x, proper x = true) p → path_len p < PATH_MAX →
  ∃ w', os_MkdirAll p mode w = (Ok tt, w') ∧ with_dirs p mode w w' ∧ wf w'.
Proof.
  intros Hwf. induction p as [|x p IH] using rev_ind; intros Hp Hx Hl.
  - destruct (wf_root _ Hwf) as [m Hm]. exists w. split_and!; [by eapply MkdirAll_there| |done].
    intros q. destruct (w !! q) eqn:E; [done|]. rewrite bool_decide_false; [done|]. intros ->%prefix_nil_inv. congruence.
  - destruct (Hp (p ++ [x]) (reflexivity _)) as [Hn|[m Hm]].
    2: { exists w. split_and!; [by eapply MkdirAll_there| |done]. intros q. destruct (w !! q) as [e|] eqn:E; [done|].
         rewrite bool_decide_false; [done|]. intros [rel Hrel]. rewrite Hrel in Hm.
         destruct (decide (rel = [])) as [->|Hr]; [rewrite app_nil_r in Hm; congruence|].
         destruct (wf_ancestor _ _ _ _ Hwf Hm Hr) as [? ?]. congruence. }
    apply Forall_app in Hx as [Hx Hx1]. pose proof (Forall_inv Hx1) as Hx2. simpl in Hx2. pose proof Hl as Hl'. rewrite path_len_app in Hl'.
    destruct IH as (w1 & E1 & Hw1 & Hwf1).
    { intros q Hq. apply Hp. etrans; [done|]. by exists [x]. } { done. } { lia. }
    assert (is_dir w1 p) as Hd.
    { eapply with_dirs_dir; [|exact Hw1]. intros q Hq. apply Hp. etrans; [done|]. by exists [x]. }
    assert (w1 !! (p ++ [x]) = None) as Hn1.
    { rewrite (Hw1 (p ++ [x])), Hn. rewrite bool_decide_false; [done|]. intros [k Hk]. apply (f_equal length) in Hk.
      rewrite !length_app in Hk. simpl in Hk. lia. }
    exists (<[p ++ [x] := Dir (masked umask mode)]> w1). split_and!.
    + destruct (Stat_missing (p ++ [x]) w) as [e He]; [done..|by apply Forall_app|].
      eapply MkdirAll_step; [done..| |by apply Mkdir_missing]. intros ->. destruct (wf_root _ Hwf) as [m Hm].
      rewrite (MkdirAll_there [] m) in E1; [by simplify_eq|done..|simpl; lia].
    + intros q. destruct (decide (q = p ++ [x])) as [->|Hne].
      * rewrite lookup_insert_eq, Hn, bool_decide_true; done.
      * rewrite lookup_insert_ne, (Hw1 q) by done. destruct (w !! q); [done|].
        assert (q `prefix_of` p ++ [x] ↔ q `prefix_of` p) as Hiff.
        { split; [|by apply prefix_app_r]. intros [k Hk]. destruct k as [|y k _] using rev_ind; [by rewrite app_nil_r in Hk|].
          rewrite (assoc_L (++)) in Hk. apply app_inj_tail in Hk as [-> _]. by exists k. }
        by rewrite (bool_decide_ext _ _ Hiff).
    + eapply (wf_insert true); [done| |done]. right. exists p, x. split_and!; [done..|]. congruence.
Qed.

(** *** Directories *)

Lemma child_of_Some q p x : child_of q p = Some x ↔ p = q ++ [x].
Proof.
  unfold child_of. destruct (strip q p) as [rel|] eqn:E.
  - apply strip_Some in E as ->. split.
    + destruct rel as [|y [|z rel]]; intros; by simplify_eq.
    + by intros ->%app_inv_head.
  - split; [done|]. intros ->. by rewrite strip_below in E.
Qed.
Lemma elem_of_names fs q x : x ∈ names_in fs q ↔ is_Some (fs !! (q ++ [x])).
Proof.
  unfold names_in. rewrite merge_sort_Permutation, list_elem_of_omap. split.
  - intros (p & Hp%elem_of_elements%elem_of_dom & ->%child_of_Some). done.
  - intros Hs. exists (q ++ [x]). split; [by apply elem_of_elements, elem_of_dom|by apply child_of_Some].
Qed.
Lemma NoDup_names fs q : NoDup (names_in fs q).
Proof.
  unfold names_in. rewrite merge_sort_Permutation. pose proof (NoDup_elements (dom fs)) as Hd. revert Hd.
  generalize (elements (dom fs)). intros l. induction 1 as [|p l Hp _ IH]; simpl; [constructor|].
  destruct (child_of q p) as [x|] eqn:E; [|done]. constructor; [|done].
  intros (p' & Hp' & ->%child_of_Some)%list_elem_of_omap. by apply child_of_Some in E as ->.
Qed.
Lemma entries_names fs q : (entries_in fs q).*1 = names_in fs q.
Proof.
  unfold entries_in. assert (∀ x, x ∈ names_in fs q → is_Some (fs !! (q ++ [x]))) as H by (intros x; apply elem_of_names).
  revert H. generalize (names_in fs q). intros l. induction l as [|x l IH]; intros H; simpl; [done|].
  destruct (H x) as [e ->]; [left|]. simpl. f_equal. apply IH. intros y Hy. apply H. by right.
Qed.
Lemma elem_of_entries fs q x e : (x, e) ∈ entries_in fs q → fs !! (q ++ [x]) = Some e.
Proof.
  unfold entries_in. intros (y & _ & Hy)%list_elem_of_omap. destruct (fs !! (q ++ [y])) eqn:E; simpl in Hy; by simplify_eq.
Qed.
Lemma ReadDir_at p m w : wf w → w !! p = Some (Dir m) → path_len p < PATH_MAX →
  ReadDir PATH_MAX p w = (Ok (entries_in w p), w).
Proof.
  intros Hwf Hp Hl. destruct (stat_at true _ _ _ Hwf Hp (λ _, eq_refl) Hl) as [E _].
  unfold ReadDir. rewrite (st_run _ _ _ _ _ E). unfold existing, at_, get, mbind, st_bind, pure. by rewrite Hp.
Qed.

(** *** Files *)

Lemma Open_at p e w : wf w → w !! p = Some e → is_link e = false → path_len p < PATH_MAX → Open PATH_MAX p w = (Ok p, w).
Proof.
  intros Hwf Hp Hl Hlen. destruct (stat_at true _ _ _ Hwf Hp (λ _, Hl) Hlen) as [E _].
  unfold Open. rewrite (st_run _ _ _ _ _ E). unfold existing, at_, get, mbind, st_bind, pure. by rewrite Hp.
Qed.

(** The mode of an existing file is kept. *)
Definition new_mode (w : fsys) (q : path) (mode : Z) : Z := match w !! q with Some e => Mode e | None => masked umask mode end.
Lemma OpenFile_at p q mode w : os_lookup_path true p w = (Ok q, w) → (w !! q = None ∨ ∃ m c, w !! q = Some (File m c)) →
  os_OpenFile p mode w = (Ok q, <[q := File (new_mode w q mode) ""]> w).
Proof.
  intros Hq Hw. unfold Fs.OpenFile, new_mode. rewrite (st_run _ _ _ _ _ Hq). unfold at_, get, mbind, st_bind, modify.
  by destruct Hw as [->|(m' & c' & ->)].
Qed.

Lemma copyFile_at src dst info w m c q : wf w → w !! src = Some (File m c) → path_len src < PATH_MAX →
  os_lookup_path true dst w = (Ok q, w) → (w !! q = None ∨ ∃ m' c', w !! q = Some (File m' c')) →
  os_copyFile src dst info w = (Ok tt, <[q := File (new_mode w q (Mode info)) (if bool_decide (q = src) then "" else c)]> w).
Proof.
  intros Hwf Hs Hl Hq Hw. unfold Fs.copyFile. rewrite (st_run _ _ _ _ _ (Open_at _ _ _ Hwf Hs eq_refl Hl)).
  rewrite (st_run _ _ _ _ _ (OpenFile_at _ _ _ _ Hq Hw)). unfold io_Copy, existing, at_, get, mbind, st_bind, pure, modify.
  case_bool_decide as Hqs; [subst q|]; rewrite ?lookup_insert_eq, ?lookup_insert_ne, ?Hs, ?lookup_insert_eq by done; simpl;
    by rewrite ?lookup_insert_eq, insert_insert_eq.
Qed.

(** A file that is copied onto itself is truncated before it is read, and empty in the end. *)
Lemma CopyFile_onto_itself p m c w : wf w → w !! p = Some (File m c) → path_len p < PATH_MAX →
  CopyFile PATH_MAX umask p p w = (Ok tt, <[p := File m ""]> w).
Proof.
  intros Hwf Hp Hl. destruct (stat_at true _ _ _ Hwf Hp (λ _, eq_refl) Hl) as [E Es].
  unfold CopyFile. rewrite (st_run _ _ _ _ _ Es), (copyFile_at _ _ _ _ _ _ _ Hwf Hp Hl E) by eauto.
  unfold new_mode. by rewrite Hp, bool_decide_true.
Qed.

(** *** The loop over a directory *)

(** The entries [names] of a directory are copied. *)
Definition partly (names : list string) (src dst : path) (mode : Z) (fs w : fsys) : Prop :=
  ∀ p, w !! p = match strip dst p with
                | None => fs !! p
                | Some [] => Some (Dir mode)
                | Some (x :: rel) => if bool_decide (x ∈ names) then mask <$> fs !! (src ++ x :: rel) else None
                end.

Lemma copied_partly names src dst mode fs w w' x : apart src dst →
  partly names src dst mode fs w → copied (src ++ [x]) (dst ++ [x]) w w' → partly (names ++ [x]) src dst mode fs w'.
Proof.
  intros Hap Hw Hc p. rewrite (Hc p). destruct (strip (dst ++ [x]) p) as [rel|] eqn:E.
  - apply strip_Some in E as ->. rewrite <- !(assoc_L (++)), strip_below. simpl.
    rewrite bool_decide_true by (apply elem_of_app; right; by left). rewrite (Hw (src ++ x :: rel)).
    assert (strip dst (src ++ x :: rel) = None) as -> by (apply strip_None; intros k; apply Hap). done.
  - rewrite (Hw p). destruct (strip dst p) as [[|y rel]|] eqn:Ed; [done| |done].
    apply strip_Some in Ed as ->. assert (y ≠ x) as Hne.
    { intros ->. apply (proj1 (strip_None _ _) E rel). by rewrite <- (assoc_L (++)). }
    assert (y ∈ names ↔ y ∈ names ++ [x]) as Hiff.
    { rewrite elem_of_app, list_elem_of_singleton. split; [by left|by intros [?|?]]. }
    by rewrite (bool_decide_ext _ _ Hiff).
Qed.

Lemma copy_entries_spec cp src dst mode fs : apart src dst →
  (∀ x e w, wf w → fs !! (src ++ [x]) = Some e → (∀ rel, w !! (src ++ rel) = fs !! (src ++ rel)) → is_dir w dst →
     (∀ rel, w !! (dst ++ x :: rel) = None) →
     ∃ w', cp (src ++ [x]) (dst ++ [x]) e w = (Ok (Some tt), w') ∧ copied (src ++ [x]) (dst ++ [x]) w w' ∧ wf w') →
  ∀ es names w, wf w → partly names src dst mode fs w → NoDup es.*1 →
    (∀ x e, (x, e) ∈ es → fs !! (src ++ [x]) = Some e ∧ x ∉ names) →
    ∃ w', copy_entries cp src dst es w = (Ok (Some tt), w') ∧ partly (names ++ es.*1) src dst mode fs w'.
Proof.
  intros Hap Hcp es. induction es as [|[x e] es IH]; intros names w Hwf Hw Hnd Hes; simpl.
  - exists w. by rewrite app_nil_r.
  - simpl in Hnd. apply NoDup_cons in Hnd as [Hx Hnd]. destruct (Hes x e) as [He Hxn]; [left|].
    destruct (Hcp x e w) as (w1 & E1 & Hc & Hwf1); [done..| | | |].
    + intros rel. rewrite (Hw (src ++ rel)). assert (strip dst (src ++ rel) = None) as -> by (apply strip_None; intros k; apply Hap). done.
    + exists mode. specialize (Hw dst). rewrite <- (app_nil_r dst) in Hw at 3. by rewrite strip_below in Hw.
    + intros rel. rewrite (Hw (dst ++ x :: rel)), strip_below. by rewrite bool_decide_false.
    + rewrite (st_run _ _ _ _ _ E1). destruct (IH (names ++ [x]) w1) as (w' & E' & Hw'); [done|by eapply copied_partly|done| |].
      { intros y e' Hy. destruct (Hes y e') as [? ?]; [by right|]. split; [done|].
        intros [?|Hyx%list_elem_of_singleton]%elem_of_app; [done|subst y]. apply Hx. apply list_elem_of_fmap. by exists (x, e'). }
      exists w'. split; [done|]. by rewrite <- (assoc_L (++)) in Hw'.
Qed.

(** *** A whole tree *)

Lemma MkdirAll_new p x mode w : wf w → is_dir w p → proper x = true → w !! (p ++ [x]) = None → path_len (p ++ [x]) < PATH_MAX →
  os_MkdirAll (p ++ [x]) mode w = (Ok tt, <[p ++ [x] := Dir (masked umask mode)]> w).
Proof.
  intros Hwf [m Hp] Hx Hn Hl. eapply MkdirAll_step.
  - unfold Fs.Stat. rewrite (st_run _ _ _ _ _ (lookup_missing true _ _ _ Hwf (ex_intro _ m Hp) Hx Hn Hl)).
    unfold existing, at_, get, mbind, st_bind, pure. by rewrite Hn.
  - eapply MkdirAll_there; [done..|]. rewrite path_len_app in Hl. lia.
  - done.
  - apply Mkdir_missing; [done|by exists m|done..].
Qed.

Lemma apart_ne p q a : apart p q → p ++ a ≠ q.
Proof. intros H E. apply (H a []). by rewrite app_nil_r. Qed.

Lemma app_inv_nil (p rel : path) : p = p ++ rel → rel = [].
Proof. intros E. rewrite <- (app_nil_r p) in E at 1. by apply app_inv_head in E. Qed.

Lemma copied_file src dst w m c : wf w → w !! src = Some (File m c) → (∀ rel, w !! (dst ++ rel) = None) →
  copied src dst w (<[dst := File (masked umask m) c]> w).
Proof.
  intros Hwf Hs Hn p. destruct (strip dst p) as [rel|] eqn:E.
  - apply strip_Some in E as ->. destruct (decide (rel = [])) as [->|Hr].
    + by rewrite !app_nil_r, lookup_insert_eq, Hs.
    + rewrite lookup_insert_ne, Hn by (intros Hd; by apply app_inv_nil in Hd).
      destruct (w !! (src ++ rel)) as [e|] eqn:Ee; [|done]. destruct (wf_ancestor _ _ _ _ Hwf Ee Hr) as [? ?]. congruence.
  - rewrite lookup_insert_ne; [done|]. intros <-. apply (proj1 (strip_None _ _) E []). by rewrite app_nil_r.
Qed.

Lemma partly_copied names src dst m w w' : wf w → w !! src = Some (Dir m) → (∀ x, is_Some (w !! (src ++ [x])) → x ∈ names) →
  partly names src dst (masked umask m) w w' → copied src dst w w'.
Proof.
  intros Hwf Hs Hn Hw p. rewrite (Hw p). destruct (strip dst p) as [[|x rel]|] eqn:E; [by rewrite app_nil_r, Hs| |done].
  case_bool_decide as Hx; [done|]. destruct (w !! (src ++ x :: rel)) as [e|] eqn:Ee; [|done].
  destruct Hx. apply Hn. destruct (decide (rel = [])) as [->|Hr]; [by eexists|].
  replace (src ++ x :: rel) with ((src ++ [x]) ++ rel) in Ee by by rewrite <- (assoc_L (++)).
  destruct (wf_ancestor _ _ _ _ Hwf Ee Hr) as [m' ?]. by eexists.
Qed.

(** A tree without links. *)
Record plain_tree (w : fsys) (src dst : path) (fuel : nat) : Prop := {
  pt_links rel e : w !! (src ++ rel) = Some e → is_link e = false;
  pt_length rel : is_Some (w !! (src ++ rel)) → path_len (src ++ rel) < PATH_MAX ∧ path_len (dst ++ rel) < PATH_MAX;
  pt_fuel rel : is_Some (w !! (src ++ rel)) → length rel < fuel
}.
Lemma plain_below w w' src dst x fuel : plain_tree w src dst (S fuel) →
  (∀ rel, w' !! (src ++ rel) = w !! (src ++ rel)) → plain_tree w' (src ++ [x]) (dst ++ [x]) fuel.
Proof.
  intros Hp Hw. split; intros rel; rewrite <- (assoc_L (++)), Hw.
  - apply (pt_links _ _ _ _ Hp).
  - rewrite <- (assoc_L (++)). apply (pt_length _ _ _ _ Hp).
  - intros Hs. pose proof (pt_fuel _ _ _ _ Hp _ Hs) as Hl. simpl in Hl. lia.
Qed.

Lemma copy_plain fuel src p x e w : wf w → w !! src = Some e → plain_tree w src (p ++ [x]) fuel → is_dir w p → proper x = true →
  (∀ rel, w !! ((p ++ [x]) ++ rel) = None) → apart src (p ++ [x]) →
  ∃ w', os_copy fuel src (p ++ [x]) e w = (Ok (Some tt), w') ∧ copied src (p ++ [x]) w w'.
Proof.
  revert src p x e w. induction fuel as [|fuel IH]; intros src p x e w Hwf He Hpt Hd Hx Hnew Hap.
  { exfalso. apply (Nat.nlt_0_r (length (@nil string))), (pt_fuel _ _ _ _ Hpt []). rewrite app_nil_r. by eexists. }
  destruct (pt_length _ _ _ _ Hpt []) as [Hls Hld]; [rewrite app_nil_r; by eexists|]. rewrite !app_nil_r in Hls, Hld.
  pose proof (Hnew []) as Hn. rewrite app_nil_r in Hn. cbn [Fs.copy].
  destruct e as [m c|m|a t]; cbn [is_link IsDir]; [| unfold copyDir; cbn [Mode] |by specialize (pt_links _ _ _ _ Hpt [] (Symlink a t) ltac:(by rewrite app_nil_r))].
  - eexists. split; [|by apply copied_file].
    assert (os_copyFile src (p ++ [x]) (File m c) w = (Ok tt, <[p ++ [x] := File (masked umask m) c]> w)) as E.
    { rewrite (copyFile_at _ _ _ _ _ _ _ Hwf He Hls (lookup_missing true _ _ _ Hwf Hd Hx Hn Hld)) by eauto.
      unfold new_mode. rewrite Hn, bool_decide_false; [done|]. intros E. apply (apart_ne _ _ [] Hap). by rewrite app_nil_r. }
    by rewrite (st_run _ _ _ _ _ E).
  - rewrite (st_run _ _ _ _ _ (MkdirAll_new _ _ m _ Hwf Hd Hx Hn Hld)).
    set (w1 := <[p ++ [x] := Dir (masked umask m)]> w).
    assert (∀ rel, w1 !! (src ++ rel) = w !! (src ++ rel)) as Hsrc.
    { intros rel. apply lookup_insert_ne. intros E. by apply (apart_ne _ _ rel Hap). }
    assert (wf w1) as Hwf1.
    { eapply (wf_insert true); [done| |done]. right. exists p, x. split_and!; [done..|]. congruence. }
    assert (w1 !! src = Some (Dir m)) as He1 by (specialize (Hsrc []); rewrite !app_nil_r in Hsrc; by rewrite Hsrc).
    rewrite (st_run _ _ _ _ _ (ReadDir_at _ _ _ Hwf1 He1 Hls)).
    destruct (copy_entries_spec (os_copy fuel) src (p ++ [x]) (masked umask m) w Hap) with (es := entries_in w1 src) (names := @nil string) (w := w1)
      as (w' & E & Hw'); [|done| | | |].
    + intros y e v Hwfv Hy Hsv Hdv Hnv.
      destruct (IH (src ++ [y]) (p ++ [x]) y e v) as (v' & Ev & Hv); [done| |by eapply plain_below|done| | | |].
      * by rewrite Hsv.
      * by apply (wf_parent _ Hwf _ _ _ Hy).
      * intros rel. rewrite <- (assoc_L (++)). apply Hnv.
      * by apply apart_below.
      * exists v'. split_and!; [done..|]. pose proof (sat_copy fuel (src ++ [y]) ((p ++ [x]) ++ [y]) e v) as Hs. rewrite Ev in Hs. by apply Hs.
    + intros q. destruct (strip (p ++ [x]) q) as [[|y rel]|] eqn:Eq.
      * apply strip_Some in Eq as ->. rewrite app_nil_r. apply lookup_insert_eq.
      * apply strip_Some in Eq as ->. rewrite bool_decide_false by apply not_elem_of_nil. unfold w1. rewrite lookup_insert_ne; [apply Hnew|].
        intros Hq. by apply app_inv_nil in Hq.
      * apply lookup_insert_ne. intros <-. apply (proj1 (strip_None _ _) Eq []). by rewrite app_nil_r.
    + rewrite entries_names. apply NoDup_names.
    + intros y e Hy%elem_of_entries. rewrite Hsrc in Hy. split; [done|apply not_elem_of_nil].
    + exists w'. split; [done|]. simpl in Hw'. rewrite entries_names in Hw'. eapply partly_copied; [done..| |done].
      intros y Hy. apply elem_of_names. by rewrite Hsrc.
Qed.

(** A tree without links that is copied to where there is nothing is there with the bits of the
    umask taken from its modes; the directories on the way are made, and nothing else changes. *)
Theorem Copy_spec fuel src p x e fs : PATH_MAX ≤ fuel → wf fs →
  fs !! src = Some e → (∀ rel l, fs !! (src ++ rel) = Some l → is_link l = false) →
  (∀ rel, is_Some (fs !! (src ++ rel)) → path_len (src ++ rel) < PATH_MAX ∧ path_len ((p ++ [x]) ++ rel) < PATH_MAX) →
  (∀ q, q `prefix_of` p → fs !! q = None ∨ is_dir fs q) → Forall (λ x, proper x = true) (p ++ [x]) →
  (∀ rel, fs !! ((p ++ [x]) ++ rel) = None) → ¬ src `prefix_of` p ++ [x] →
  ∃ fs', os_Copy fuel src (p ++ [x]) fs = (Ok (Some tt), fs') ∧
    (∀ rel, fs' !! ((p ++ [x]) ++ rel) = mask <$> fs !! (src ++ rel)) ∧
    (∀ q, ¬ p ++ [x] `prefix_of` q → fs' !! q =
       match fs !! q with Some e => Some e | None => if bool_decide (q `prefix_of` p) then Some (Dir (masked umask 511)) else None end).
Proof.
  intros Hf Hwf He Hlinks Hlen Hp Hproper Hnew Hsrc.
  assert (apart src (p ++ [x])) as Hap.
  { apply apart_prefixes; [done|]. intros [k ->]. by rewrite Hnew in He. }
  apply Forall_app in Hproper as [Hpp Hx]. apply Forall_inv in Hx.
  destruct (Hlen []) as [Hls Hld]; [rewrite app_nil_r; by eexists|]. rewrite app_nil_r in Hls. rewrite !path_len_app in Hld.
  destruct (MkdirAll_spec p 511 fs) as (w1 & E1 & Hw1 & Hwf1); [done..|lia|].
  assert (∀ rel, w1 !! (src ++ rel) = fs !! (src ++ rel)) as Hs1.
  { intros rel. rewrite (Hw1 (src ++ rel)). destruct (fs !! (src ++ rel)); [done|]. rewrite bool_decide_false; [done|].
    intros Hr. apply Hsrc. transitivity (src ++ rel); [by exists rel|]. transitivity p; [exact Hr|by exists [x]]. }
  assert (∀ q, p ++ [x] `prefix_of` q → bool_decide (q `prefix_of` p) = false) as Hbelow.
  { intros q Hq. apply bool_decide_eq_false. intros Hq'. pose proof (prefix_length _ _ Hq). pose proof (prefix_length _ _ Hq').
    rewrite length_app in *. simpl in *. lia. }
  destruct (copy_plain fuel src p x e w1) as (fs' & E & Hc); [done| | | |done| |done|].
  - specialize (Hs1 []). rewrite app_nil_r in Hs1. by rewrite Hs1.
  - split; intros rel; rewrite Hs1; [apply Hlinks|apply Hlen|]. intros [_ Hl]%Hlen.
    assert (length rel ≤ path_len rel) as Hle by (clear; induction rel as [|y rel IH]; [done|]; change (path_len (y :: rel)) with (S (String.length y) + path_len rel); simpl; lia).
    rewrite !path_len_app in Hl. unfold path_len at 2 in Hl. simpl in Hl. lia.
  - by eapply with_dirs_dir.
  - intros rel. rewrite (Hw1 _), Hnew, Hbelow; [done|by exists rel].
  - exists fs'. split_and!.
    + unfold Fs.Copy. destruct (stat_at false _ _ _ Hwf He) as [_ Es]; [done..|]. unfold Fs.Lstat. rewrite (st_run _ _ _ _ _ Es).
      rewrite removelast_last. by rewrite (st_run _ _ _ _ _ E1).
    + intros rel. by rewrite (Hc _), strip_below, Hs1.
    + intros q Hq. rewrite (Hc q). assert (strip (p ++ [x]) q = None) as -> by (apply strip_None; intros k ->; apply Hq; by exists k). apply Hw1.
Qed.

(** A copy always ends, with a tree: every directory makes the path of the destination longer,
    which the kernel does not let grow for ever.  So does a copy of a directory into itself, or
    through a link to a directory that it is in. *)
Theorem Copy_ends fuel src dst fs : wf fs → 2 * PATH_MAX + 1 < fuel →
  wf (snd (os_Copy fuel src dst fs)) ∧ fst (os_Copy fuel src dst fs) ≠ Ok None.
Proof.
  intros Hwf Hf. split; [by apply Copy_wf|]. unfold Fs.Copy. unfold mbind at 1, st_bind at 1.
  destruct (os_Lstat src fs) as [[e| |] w] eqn:E1; [|done..].
  assert (wf w) as Hw by (pose proof (sat_stat false src fs) as Hs; unfold Fs.Lstat in E1; rewrite E1 in Hs; by apply Hs).
  unfold mbind at 1, st_bind at 1. destruct (os_MkdirAll (removelast dst) 511 w) as [[[]| |] w1] eqn:E2; [|done..].
  assert (wf w1) as Hw1 by (pose proof (sat_MkdirAll (removelast dst) 511 w) as Hs; rewrite E2 in Hs; by apply Hs).
  apply copy_ends; [done|]. unfold fuel_for. destruct (is_link e); lia.
Qed.
End trees.

(** ** Examples *)

Module FsDemo.
(** The permissions of files and directories, in octal 0666 and 0755. *)
Definition rw : Z := 438.
Definition rwx : Z := 493.
Definition umask : Z := 18.
Definition fs : fsys :=
  {[ [] := Dir rwx; ["a"] := Dir rwx; ["a"; "f"] := File rw "hello"; ["a"; "d"] := Dir rwx; ["a"; "d"; "g"] := File rwx "" ]}.

Lemma fs_wf : wf fs.
Proof.
  split; [exists rwx; vm_compute; reflexivity|].
  intros p x e He.
  assert (map_Forall (λ q _, q = [] ∨ ((∃ m, fs !! removelast q = Some (Dir m)) ∧ proper (List.last q "") = true)) fs) as Hall.
  { unfold fs. repeat (apply map_Forall_insert_2); [..|apply map_Forall_empty];
      try (by left); right; (split; [eexists; vm_compute; reflexivity|vm_compute; reflexivity]). }
  specialize (Hall _ _ He) as [Hn|[Hd Hl]]; [by destruct p|].
  rewrite removelast_last in Hd. by rewrite List.last_last in Hl.
Qed.

Lemma below_a rel : is_Some (fs !! (["a"] ++ rel)) → rel ∈ [[]; ["f"]; ["d"]; ["d"; "g"]].
Proof.
  intros [e He]. assert (map_Forall (λ q _, match q with "a" :: r => r ∈ [[]; ["f"]; ["d"]; ["d"; "g"]] | _ => True end) fs) as Hall.
  { unfold fs. repeat (apply map_Forall_insert_2); [..|apply map_Forall_empty]; try done; rewrite !elem_of_cons; auto 10. }
  by specialize (Hall _ _ He).
Qed.

Lemma Copy_spec_witness : ∃ fs',
  Copy 4096 umask 4096 ["a"] ["b"; "c"] fs = (Ok (Some tt), fs') ∧
  fs' !! ["b"; "c"; "f"] = Some (File 420 "hello").
Proof.
  destruct (Copy_spec 4096 umask 4096 ["a"] ["b"] "c" (Dir rwx) fs) as (fs' & E & Hc & _).
  - lia.
  - exact fs_wf.
  - vm_compute. reflexivity.
  - intros rel l Hl. assert (rel ∈ [[]; ["f"]; ["d"]; ["d"; "g"]]) as Hr by (apply below_a; by exists l).
    rewrite !elem_of_cons in Hr. repeat destruct Hr as [->|Hr]; [vm_compute in Hl; injection Hl as <-; reflexivity..|].
    by apply elem_of_nil in Hr.
  - intros rel Hr%below_a. rewrite !elem_of_cons in Hr. repeat destruct Hr as [->|Hr];
      [(unfold path_len; simpl; lia)..|]. by apply elem_of_nil in Hr.
  - intros q [k Hk]. destruct q as [|y q]; [right; exists rwx; vm_compute; reflexivity|].
    simpl in Hk. injection Hk as <- Hk. symmetry in Hk. apply app_nil in Hk as [-> _]. left. vm_compute. reflexivity.
  - by repeat constructor.
  - intros rel. apply eq_None_not_Some. intros [e He].
    assert (map_Forall (λ q _, hd "" q ≠ "b") fs) as Hall.
    { unfold fs. repeat (apply map_Forall_insert_2); [..|apply map_Forall_empty]; done. }
    by apply (Hall _ _ He).
  - intros [k Hk]. discriminate.
  - exists fs'. split; [exact E|]. specialize (Hc ["f"]). exact Hc.
Defined.

(** A directory that is copied into itself is copied until the path is too long. *)
Definition nested : res (option unit) * fsys := Copy 12 umask 26 ["a"] ["a"; "b"] {[ [] := Dir rwx; ["a"] := Dir rwx ]}.
Example into_itself : fst nested = Err ENAMETOOLONG ∧ snd nested !! ["a"; "b"; "b"; "b"; "b"] = Some (Dir rwx) ∧ size (snd nested) = 6.
Proof. vm_compute. split_and!; reflexivity. Qed.

Lemma Copy_ends_witness : wf fs ∧ fst (Copy 12 umask 26 ["a"] ["b"] fs) ≠ Ok None.
Proof.
  split; [exact fs_wf|]. apply (Copy_ends 12 umask 26 ["a"] ["b"] fs); [exact fs_wf|lia].
Defined.

(** The mode of a file is not kept: the umask is taken from a new one, and an old one keeps
    its own. *)
Example mode_not_kept : snd (CopyFile 4096 umask ["a"; "f"] ["a"; "h"] fs) !! ["a"; "h"] = Some (File 420 "hello").
Proof. vm_compute. reflexivity. Qed.
Example old_mode_kept : snd (CopyFile 4096 umask ["a"; "f"] ["a"; "d"; "g"] fs) !! ["a"; "d"; "g"] = Some (File rwx "hello").
Proof. vm_compute. reflexivity. Qed.

(** On macOS temporary directories are given by the path that can be mounted. *)
Example temp_dir : TempDir "darwin" (Ok "/var/folders/x") = Ok "/private/var/folders/x" ∧ TempDir "linux" (Ok "/var/x") = Ok "/var/x".
Proof. split; reflexivity. Qed.
End FsDemo.
