(* ===== verification/RefreshLoop.v ===== *)
(** * The loop of the refresher (pkg/commons/kubeconfig.go, StartKubeconfigRefresher)

    The goroutine that [Execute] starts once it has the kubeconfig, as a step relation: the
    ticker, whose channel holds one tick and drops the others, the channel that is closed to
    stop it, and the commands that the action runs meanwhile.  A refresh is that of
    [Refresher]; its commands are taken together.  [select] chooses either channel when
    both are ready.

    Shown: the loop returns only when it was stopped, and then for good; when it has been
    stopped and no more ticks come it returns within four steps of its own, whatever the
    choices ([refresher_ends]).  While ticks come nothing bounds it: [select] may take a tick
    each time ([refresher_starved]).  [Execute] closes the channel only when it succeeds, so
    after an error the loop goes on for as long as the process. *)

From S2P Require Import Prelude State GoStr Worker Refresher.
Local Open Scope nat_scope.
Local Open Scope go_scope.
Local Open Scope stdpp_scope.

(** Refreshing, waiting in [select], or after [defer ticker.Stop()]. *)
Inductive place := Refreshing | Selecting | Returned.
Record state := mkState {
  at_place : place;
  ticked : bool;             (* what [ticker.C] holds *)
  closed : bool;             (* [stopChan] *)
  machine : world
}.
Inductive label := Tick | Command (ev : event) | Close | Refreshed | Again | Stop.

Section loop.
Context `{Host} (namespace clusterName path dir : string).

Inductive rstep : label → state → state → Prop :=
| step_tick p t c w : p ≠ Returned → rstep Tick (mkState p t c w) (mkState p true c w)
| step_command ev p t c w : rstep (Command ev) (mkState p t c w) (mkState p t c (snd (run_once ev w)))
| step_close p t w : rstep Close (mkState p t false w) (mkState p t true w)
| step_refreshed t c w :
    rstep Refreshed (mkState Refreshing t c w) (mkState Selecting t c (snd (refresh namespace clusterName path dir w)))
| step_again c w : rstep Again (mkState Selecting true c w) (mkState Refreshing false c w)
| step_stop t w : rstep Stop (mkState Selecting t true w) (mkState Returned t true w).

Inductive run : list label → state → state → Prop :=
| run_nil s : run [] s s
| run_cons l ls s1 s2 s3 : rstep l s1 s2 → run ls s2 s3 → run (l :: ls) s1 s3.

(** [StartKubeconfigRefresher] begins with a refresh. *)
Definition StartKubeconfigRefresher (w : world) : state := mkState Refreshing false false w.

Definition is_tick (l : label) : bool := match l with Tick => true | _ => false end.
(** The steps of the loop itself. *)
Definition own (l : label) : bool := match l with Refreshed | Again | Stop => true | _ => false end.
Definition is_refresh (l : label) : bool := match l with Refreshed => true | _ => false end.
Definition count (f : label → bool) (ls : list label) : nat := length (List.filter f ls).

(** What the loop can do on its own. *)
Definition potential (s : state) : nat :=
  match at_place s with Refreshing => 2 | Selecting => 1 | Returned => 0 end + (if ticked s then 2 else 0).
Definition refreshes_left (s : state) : nat :=
  match at_place s with Refreshing => 1 | _ => 0 end + (if ticked s then 1 else 0).

Lemma step_potential l s s' : rstep l s s' →
  potential s' + (if own l then 1 else 0) ≤ potential s + (if is_tick l then 2 else 0).
Proof. intros Hs. inversion Hs; subst; unfold potential; simpl; try lia; repeat case_match; simplify_eq/=; lia. Qed.
Lemma step_refreshes l s s' : rstep l s s' →
  refreshes_left s' + (if is_refresh l then 1 else 0) ≤ refreshes_left s + (if is_tick l then 1 else 0).
Proof. intros Hs. inversion Hs; subst; unfold refreshes_left; simpl; try lia; repeat case_match; simplify_eq/=; lia. Qed.

Lemma count_cons f l ls : count f (l :: ls) = (if f l then 1 else 0) + count f ls.
Proof. unfold count. simpl. by destruct (f l). Qed.

Lemma run_potential ls s s' : run ls s s' → potential s' + count own ls ≤ potential s + 2 * count is_tick ls.
Proof.
  induction 1 as [s|l ls s1 s2 s3 Hs _ IH]; [unfold count; simpl; lia|].
  rewrite !count_cons. apply step_potential in Hs. destruct (own l), (is_tick l); lia.
Qed.
Lemma run_refreshes ls s s' : run ls s s' → refreshes_left s' + count is_refresh ls ≤ refreshes_left s + count is_tick ls.
Proof.
  induction 1 as [s|l ls s1 s2 s3 Hs _ IH]; [unfold count; simpl; lia|].
  rewrite !count_cons. apply step_refreshes in Hs. destruct (is_refresh l), (is_tick l); lia.
Qed.

Lemma run_app ls ls' s1 s2 s3 : run ls s1 s2 → run ls' s2 s3 → run (ls ++ ls') s1 s3.
Proof. intros Hr Hr'. induction Hr; [done|]. econstructor; [done|auto]. Qed.

Lemma run_closed ls s s' : run ls s s' → closed s = true ∨ Close ∈ ls → closed s' = true.
Proof.
  induction 1 as [s|l ls s1 s2 s3 Hs _ IH]; [by intros [?|Hc%elem_of_nil]|].
  intros Hc. apply IH. destruct Hs, Hc as [Hc|[Hc|Hc]%elem_of_cons]; simpl in *; auto; discriminate.
Qed.
Lemma run_not_closed ls s s' : run ls s s' → closed s = false → Close ∉ ls → closed s' = false.
Proof.
  induction 1 as [s|l ls s1 s2 s3 Hs _ IH]; [done|]. intros Hc Hn. apply not_elem_of_cons in Hn as [Hl Hn].
  apply IH; [|done]. destruct Hs; simpl in *; congruence.
Qed.
Lemma run_returned_closed ls s s' : run ls s s' → (at_place s = Returned → closed s = true) →
  at_place s' = Returned → closed s' = true.
Proof. induction 1 as [s|l ls s1 s2 s3 Hs _ IH]; [done|]. intros Hr. apply IH. destruct Hs; simpl in *; auto; discriminate. Qed.

(** After it returned nothing but the action changes the machine. *)
Lemma returned_final l s s' : rstep l s s' → at_place s = Returned → at_place s' = Returned ∧ own l = false.
Proof. intros Hs. destruct Hs; simpl in *; done. Qed.

(** The loop is stuck only in [select] with nothing to receive. *)
Lemma loop_progress s : at_place s = Returned ∨ (at_place s = Selecting ∧ ticked s = false ∧ closed s = false) ∨
  ∃ l s', own l = true ∧ rstep l s s'.
Proof.
  destruct s as [[] [] [] w]; auto; right; right.
  1-4: eexists _, _; split; [|apply step_refreshed]; done.
  1-2: eexists _, _; split; [|apply step_again]; done.
  eexists _, _. split; [|apply step_stop]. done.
Qed.

(** From where its channel is closed, steps of its own bring the loop to its end. *)
Lemma loop_can_end s : closed s = true → ∃ ls s', run ls s s' ∧ Forall (λ l, own l = true) ls ∧ at_place s' = Returned.
Proof.
  remember (potential s) as n eqn:Hn. revert s Hn. induction n as [n IH] using lt_wf_ind. intros s -> Hc.
  destruct (loop_progress s) as [Hr|[(_ & _ & Hf)|(l & s2 & Hl & Hs)]]; [by exists [], s; split_and!; [constructor..|]|congruence|].
  pose proof (step_potential _ _ _ Hs) as Hp. rewrite Hl in Hp.
  destruct (IH (potential s2)) with (s := s2) as (ls & s' & Hr & Hown & Hret); [destruct l; simpl in *; try discriminate; lia|done| |].
  - by destruct Hs.
  - exists (l :: ls), s'. split_and!; [by econstructor|by constructor|done].
Qed.

(** C40. The refresher returns only when its channel was closed, and then it does nothing more.
    It refreshes at most once more than there were ticks.  Once the channel is closed it can
    always be brought to its end; and if no more ticks come, it takes at most four steps of
    its own, whatever [select] chooses, and until it has returned there is one.  (That it
    returns while ticks go on to come is not so: [refresher_starved].) *)
Theorem refresher_ends ls w s : run ls (StartKubeconfigRefresher w) s →
  (at_place s = Returned → Close ∈ ls) ∧
  count is_refresh ls ≤ 1 + count is_tick ls ∧
  (Close ∈ ls → ∃ ls' s', run ls' s s' ∧ Forall (λ l, own l = true) ls' ∧ at_place s' = Returned) ∧
  (Close ∈ ls → ∀ ls' s', run ls' s s' → Tick ∉ ls' →
     count own ls' ≤ 4 ∧ (at_place s' ≠ Returned → ∃ l s'', own l = true ∧ rstep l s' s'')) ∧
  (at_place s = Returned → ∀ ls' s', run ls' s s' → count own ls' = 0).
Proof.
  intros Hr. split_and!.
  - intros Hret. destruct (decide (count (λ l, match l with Close => true | _ => false end) ls = 0)) as [Hz|Hz].
    + assert (Close ∉ ls) as Hn.
      { intros Hin. unfold count in Hz. apply nil_length_inv in Hz.
        assert (In Close (List.filter (λ l, match l with Close => true | _ => false end) ls)) as Hf.
        { apply filter_In. split; [by apply list_elem_of_In|done]. }
        by rewrite Hz in Hf. }
      pose proof (run_not_closed _ _ _ Hr eq_refl Hn) as Hc. rewrite (run_returned_closed _ _ _ Hr) in Hc; done.
    + unfold count in Hz. destruct (List.filter _ ls) as [|l l'] eqn:Ef; [done|].
      assert (In l (l :: l')) as Hin by by left. rewrite <- Ef in Hin. apply filter_In in Hin as [Hin Hl].
      destruct l; try done. by apply list_elem_of_In.
  - apply run_refreshes in Hr. simpl in Hr. unfold refreshes_left in Hr. simpl in Hr. lia.
  - intros Hc. apply loop_can_end. apply (run_closed _ _ _ Hr). by right.
  - intros Hc ls' s' Hr' Hn. split.
    + apply run_potential in Hr'. assert (count is_tick ls' = 0) as Ht.
      { clear -Hn. unfold count. induction ls' as [|l ls' IH]; [done|]. apply not_elem_of_cons in Hn as [Hl Hn].
        cbn [List.filter]. destruct l; [done|by apply IH..]. }
      assert (potential s ≤ 4) by (unfold potential; repeat case_match; lia). lia.
    + intros Hp. destruct (loop_progress s') as [?|[(_ & _ & Hf)|?]]; [done| |done].
      rewrite (run_closed _ _ _ Hr') in Hf; [done|left]. apply (run_closed _ _ _ Hr). by right.
  - intros Hret ls' s' Hr'. clear Hr. induction Hr' as [s|l ls' s1 s2 s3 Hs _ IH]; [done|].
    destruct (returned_final _ _ _ Hs Hret) as [Hret' Hown]. rewrite count_cons, Hown. by apply IH.
Qed.

(** Closed or not, the loop can take a tick each time: there are runs after the close with any
    number of refreshes that have not returned. *)
Lemma refresher_starved n t w : ∃ ls s', run ls (mkState Refreshing t true w) s' ∧ count is_refresh ls = n ∧ at_place s' = Refreshing.
Proof.
  revert t w. induction n as [|n IH]; intros t w; [eexists [], _; split_and!; [apply run_nil|done|done]|].
  set (w1 := snd (refresh namespace clusterName path dir w)).
  destruct (IH false w1) as (ls & s' & Hr & Hc & Hp).
  exists (Refreshed :: Tick :: Again :: ls), s'. split_and!; [|rewrite !count_cons; simpl; lia|done].
  eapply run_cons; [apply step_refreshed|]. eapply run_cons; [by apply step_tick|]. eapply run_cons; [apply step_again|]. exact Hr.
Qed.

(** Without the channel closed it never returns. *)
Lemma refresher_left_running ls w s : run ls (StartKubeconfigRefresher w) s → Close ∉ ls → at_place s ≠ Returned.
Proof.
  intros Hr Hn Hret. pose proof (run_not_closed _ _ _ Hr eq_refl Hn) as Hc. rewrite (run_returned_closed _ _ _ Hr) in Hc; done.
Qed.
End loop.

(** ** Examples *)

Module LoopDemo.
Import RefreshDemo.
Definition once (w : world) : world := snd (@refresh host "cluster-demo" "demo" "/kind/worker-cluster.kubeconfig" "/kind" w).
Definition labels : list label := [Refreshed; Tick; Close; Again; Refreshed; Stop].
Definition final : state := mkState Returned false true (once (once start)).

(** A tick came before the channel was closed, and [select] took it first: the kubeconfig is
    written once more after the action is done with the loop. *)
Lemma labels_run : @run host "cluster-demo" "demo" "/kind/worker-cluster.kubeconfig" "/kind" labels (StartKubeconfigRefresher start) final.
Proof.
  unfold labels, final. eapply run_cons; [apply step_refreshed|]. eapply run_cons; [by apply step_tick|].
  eapply run_cons; [apply step_close|]. eapply run_cons; [apply step_again|]. eapply run_cons; [apply step_refreshed|].
  eapply run_cons; [apply step_stop|]. apply run_nil.
Qed.

Lemma refresher_ends_witness : at_place final = Returned ∧ Close ∈ labels ∧ count is_refresh labels = 2 ∧ count is_refresh labels ≤ 1 + count is_tick labels.
Proof.
  destruct (@refresher_ends host "cluster-demo" "demo" "/kind/worker-cluster.kubeconfig" "/kind" labels start final labels_run) as (Hc & Hn & _).
  split; [reflexivity|]. split; [exact (Hc eq_refl)|]. split; [reflexivity|exact Hn].
Defined.
End LoopDemo.
