(* ===== verification/ContainerCmd.v ===== *)
(** * Commands in containers

    The implementations of [exec.Cmd] for containers:
    src/pkg/build/nodeimage/internal/container/docker/exec.go ([containerCmd]) and node.go of
    src/pkg/cluster/internal/providers/docker and podman ([nodeCmd]), which have the same
    fields.  A command collects what it is given and is turned into a command of the
    container program when it runs.

    Shown: that program reads the container, the environment and the command back from its
    arguments, whatever they contain, and gets the writers and the reader that were set last
    ([Run_as_set]); what it is given is what [Runtime] takes it to be. *)

From S2P Require Import Prelude GoStr Exec Pipes Runtime.
Local Open Scope go_scope.
Local Open Scope stdpp_scope.

(** [containerCmd] and [nodeCmd]; readers are numbers, as in [Pipes]. *)
Record containerCmd := mkContainerCmd {
  nameOrID : string;
  cc_command : string;
  cc_args : list string;
  cc_env : list string;
  cc_stdin : option nat;
  cc_stdout : option writer;
  cc_stderr : option writer;
  cc_ctx : bool                  (* whether it has a context *)
}.

(** [ContainerCmder] and [node] are the name of the container. *)
Definition ContainerCmder (containerNameOrID : string) : string := containerNameOrID.
Definition containerCmder_Command (name command : string) (args : list string) : containerCmd :=
  mkContainerCmd name command args [] None None None false.
Definition containerCmder_CommandContext (name command : string) (args : list string) : containerCmd :=
  mkContainerCmd name command args [] None None None true.

(** The setters write the fields of the command and return it. *)
Definition cmd_SetEnv (env : list string) (c : containerCmd) : containerCmd :=
  mkContainerCmd (nameOrID c) (cc_command c) (cc_args c) env (cc_stdin c) (cc_stdout c) (cc_stderr c) (cc_ctx c).
Definition cmd_SetStdin (r : nat) (c : containerCmd) : containerCmd :=
  mkContainerCmd (nameOrID c) (cc_command c) (cc_args c) (cc_env c) (Some r) (cc_stdout c) (cc_stderr c) (cc_ctx c).
Definition cmd_SetStdout (w : writer) (c : containerCmd) : containerCmd :=
  mkContainerCmd (nameOrID c) (cc_command c) (cc_args c) (cc_env c) (cc_stdin c) (Some w) (cc_stderr c) (cc_ctx c).
Definition cmd_SetStderr (w : writer) (c : containerCmd) : containerCmd :=
  mkContainerCmd (nameOrID c) (cc_command c) (cc_args c) (cc_env c) (cc_stdin c) (cc_stdout c) (Some w) (cc_ctx c).

(** The arguments of the container program. *)
Definition exec_args (c : containerCmd) : list string :=
  let args := ["exec"; "--privileged"] in
  let args := match cc_stdin c with Some _ => args ++ ["-i"] | None => args end in
  let args := fold_left (λ args env, args ++ ["-e"; env]) (cc_env c) args in
  let args := args ++ [nameOrID c; cc_command c] in
  args ++ cc_args c.

(** [if field != nil { cmd.Set(field) }] *)
Definition set_some {A} (set : A → LocalCmd → LocalCmd) (o : option A) (cmd : LocalCmd) : LocalCmd :=
  match o with Some a => set a cmd | None => cmd end.
(** [Run], up to [cmd.Run()]; a context ends the process earlier and changes nothing else. *)
Definition local_cmd (program : string) (c : containerCmd) : LocalCmd :=
  let cmd := Pipes.Command program (exec_args c) in
  let cmd := set_some SetStdin (cc_stdin c) cmd in
  let cmd := set_some SetStderr (cc_stderr c) cmd in
  set_some SetStdout (cc_stdout c) cmd.
Definition containerCmd_Run : containerCmd → LocalCmd := local_cmd "docker".
Definition docker_nodeCmd_Run : containerCmd → LocalCmd := local_cmd "docker".
Definition podman_nodeCmd_Run : containerCmd → LocalCmd := local_cmd "podman".
Definition docker_node_Command (name command : string) (args : list string) : containerCmd := containerCmder_Command name command args.
Definition podman_node_Command (name command : string) (args : list string) : containerCmd := containerCmder_Command name command args.

(** ** Reading the arguments back *)

Record exec_request := mkRequest { er_interactive : bool; er_env : list string; er_container : string; er_command : list string }.

(** [docker exec] and [podman exec]: options, of which [-e] has a value; the first word that
    is none is the container, and the words behind it are the command. *)
Fixpoint parse_exec (interactive : bool) (env args : list string) : option exec_request :=
  match args with
  | [] => None
  | a :: args =>
      if a =s "--privileged" then parse_exec interactive env args else
      if a =s "-i" then parse_exec true env args else
      if a =s "-e" then match args with [] => None | e :: args => parse_exec interactive (env ++ [e]) args end else
      if HasPrefix a "-" then None else Some (mkRequest interactive env a args)
  end.

Lemma fold_env env args : fold_left (λ args e, args ++ ["-e"; e]) env args = args ++ concat (map (λ e, ["-e"; e]) env).
Proof. revert args. induction env as [|e env IH]; intros args; simpl; [by rewrite app_nil_r|]. rewrite IH. by rewrite <- (assoc_L (++)). Qed.

Lemma parse_env i env0 env args : parse_exec i env0 (concat (map (λ e, ["-e"; e]) env) ++ args) = parse_exec i (env0 ++ env) args.
Proof.
  revert env0. induction env as [|e env IH]; intros env0; simpl; [by rewrite app_nil_r|].
  rewrite IH. by rewrite <- (assoc_L (++)).
Qed.

Lemma parse_container i env name args : HasPrefix name "-" = false → parse_exec i env (name :: args) = Some (mkRequest i env name args).
Proof.
  intros Hn. simpl. repeat case_match; try done;
    match goal with E : (_ =s _) = true |- _ => apply eqb_string_true in E as -> end; discriminate.
Qed.

(** What is set is what the program gets. *)
Inductive setting := Env (env : list string) | Stdin (r : nat) | Stdout (w : writer) | Stderr (w : writer).
Definition set (c : containerCmd) (s : setting) : containerCmd :=
  match s with Env e => cmd_SetEnv e c | Stdin r => cmd_SetStdin r c | Stdout w => cmd_SetStdout w c | Stderr w => cmd_SetStderr w c end.
Definition last_of {A} (f : setting → option A) (ss : list setting) : option A :=
  fold_left (λ o s, match f s with Some a => Some a | None => o end) ss None.
Definition of_env (s : setting) : option (list string) := match s with Env e => Some e | _ => None end.
Definition of_stdin (s : setting) : option nat := match s with Stdin r => Some r | _ => None end.
Definition of_stdout (s : setting) : option writer := match s with Stdout w => Some w | _ => None end.
Definition of_stderr (s : setting) : option writer := match s with Stderr w => Some w | _ => None end.

Lemma last_of_snoc {A} (f : setting → option A) ss s :
  last_of f (ss ++ [s]) = match f s with Some a => Some a | None => last_of f ss end.
Proof. unfold last_of. by rewrite fold_left_app. Qed.

Lemma set_all name command args ctx ss :
  fold_left set ss (mkContainerCmd name command args [] None None None ctx) =
  mkContainerCmd name command args (match last_of of_env ss with Some e => e | None => [] end)
    (last_of of_stdin ss) (last_of of_stdout ss) (last_of of_stderr ss) ctx.
Proof.
  induction ss as [|s ss IH] using rev_ind; [done|]. rewrite fold_left_app. simpl. rewrite IH, !last_of_snoc. by destruct s.
Qed.

Lemma exec_args_eq c : exec_args c =
  ["exec"; "--privileged"] ++ (match cc_stdin c with Some _ => ["-i"] | None => [] end) ++
  concat (map (λ e, ["-e"; e]) (cc_env c)) ++ [nameOrID c] ++ cc_command c :: cc_args c.
Proof. unfold exec_args. rewrite fold_env. destruct (cc_stdin c); simpl; by rewrite <- !(assoc_L (++)). Qed.

(** What [Runtime] takes a command on a node for. *)
Lemma node_args_agree program c : lc_Args (local_cmd program c) =
  rt_node_args program (nameOrID c) (cc_env c) (opt_is_Some (cc_stdin c)) (cc_command c :: cc_args c).
Proof.
  unfold local_cmd, set_some, rt_node_args.
  assert (∀ o1 o2 o3, lc_Args (set_some SetStdout o1 (set_some SetStderr o2 (set_some SetStdin o3 (Pipes.Command program (exec_args c))))) =
    program :: exec_args c) as E by by intros [] [] [].
  unfold set_some in E. rewrite E, exec_args_eq. by destruct (cc_stdin c).
Qed.

(** However a command in a container is set up, the program that runs it reads from its arguments
    the container, the last environment and the command as they were given, even where they
    look like options, and a standard input exactly when one was set; the process has the
    reader and the writers that were set last. *)
Theorem Run_as_set program name command args ss : HasPrefix name "-" = false →
  let cmd := local_cmd program (fold_left set ss (containerCmder_Command name command args)) in
  hd "" (lc_Args cmd) = program ∧
  parse_exec false [] (drop 2 (lc_Args cmd)) =
    Some (mkRequest (opt_is_Some (last_of of_stdin ss)) (match last_of of_env ss with Some e => e | None => [] end) name (command :: args)) ∧
  lc_Stdin cmd = last_of of_stdin ss ∧ lc_Stdout cmd = last_of of_stdout ss ∧ lc_Stderr cmd = last_of of_stderr ss.
Proof.
  intros Hn cmd. unfold cmd, containerCmder_Command. rewrite set_all, node_args_agree. unfold rt_node_args. simpl.
  split_and!; [done| |by destruct (last_of of_stdin ss), (last_of of_stdout ss), (last_of of_stderr ss)..].
  destruct (last_of of_stdin ss); simpl; by rewrite parse_env, parse_container.
Qed.

Module ContainerDemo.
Definition ss : list setting := [Env ["A=1"]; Stdin 3; Env ["-i"; "HTTP_PROXY=x"]; Stdout (Pointer 5)].
Lemma Run_as_set_witness : HasPrefix "kind-worker" "-" = false ∧
  parse_exec false [] (drop 2 (lc_Args (podman_nodeCmd_Run (fold_left set ss (podman_node_Command "kind-worker" "-e" ["--privileged"]))))) =
    Some (mkRequest true ["-i"; "HTTP_PROXY=x"] "kind-worker" ["-e"; "--privileged"]).
Proof.
  assert (HasPrefix "kind-worker" "-" = false) as Hn by reflexivity.
  destruct (Run_as_set "podman" "kind-worker" "-e" ["--privileged"] ss Hn) as (_ & Hp & _). split; [exact Hn|exact Hp].
Defined.
(** A name that looks like an option is taken for one. *)
Example option_name : parse_exec false [] (drop 2 (lc_Args (containerCmd_Run (containerCmder_Command "-i" "true" [])))) =
  Some (mkRequest true [] "true" []).
Proof. reflexivity. Qed.
End ContainerDemo.
