(* ===== verification/App.v ===== *)
(** * An invocation: src/cmd/kind/app/main.go, src/pkg/log, src/pkg/cmd/kind/root.go

    From the arguments of the process to its exit code: the quiet flag, which is looked for
    before anything else, the command of [CommandTree] with its flags, the flags of the root
    command, the command itself, and the text of its error.  How the arguments are taken
    apart (cobra and pflag) and what the commands do are classes; the logger is that of
    [Cli], or the one that does nothing.

    Shown: the process fails exactly when there is an error; with [-q] not a line is logged,
    whatever the command and however it fails ([quiet_logs_nothing]); otherwise the error is
    the last thing that is logged, once ([error_logged_last]). *)

From S2P Require Import Prelude GoStr Exec Spinner KindConfig Load BuildImage CreateCommand CommandTree Cli.
Local Open Scope Z_scope.
Local Open Scope go_scope.
Local Open Scope stdpp_scope.

(** ** Loggers: pkg/log *)

(** [log.NoopLogger], or that of [Cli], of which there is one. *)
Inductive logger := NoopLogger | CliLogger.
Definition any_log (pick : list string → option (string * list string)) (k : logger) (e : entry) (l : Logger) : Logger :=
  match k with NoopLogger => l | CliLogger => log pick e l end.
Definition V_Enabled (k : logger) (level : Z) (l : Logger) : bool := match k with NoopLogger => false | CliLogger => Enabled level l end.
(** [cmd.ColorEnabled], [maybeSetWriter], [maybeSetVerbosity]: by the methods that a logger has. *)
Definition any_ColorEnabled (k : logger) (l : Logger) : bool := match k with NoopLogger => false | CliLogger => ColorEnabled l end.

(** ** Errors and commands *)

(** An error: its text, and what [RunErrorForError] and [StackTrace] find in its chain. *)
Record err := mkErr { er_text : string; er_output : option string; er_trace : option string }.

(** What cobra and pflag make of the arguments. *)
Class CommandLine := {
  (* the flags that are given, where unknown ones are passed over and errors end the parse *)
  pflag_lenient : list flag → list string → parsed;
  (* the path of the command, and the arguments that are not names of commands *)
  cobra_find : list string → list string * list string;
  (* the flags that are given, the other words, whether help is asked for *)
  pflag_parse : list flag → list string → res (parsed * list string * bool)
}.

(** What an action does: it may log, and fail. *)
Class Actions (W : Type) := { perform : logger → action → Logger * W → option err * (Logger * W) }.

Section app.
Context `{CommandLine} {W : Type} `{!Actions W}.
Context (GOOS : string) (lookupEnv : string → option string) (pick : list string → option (string * list string)).
Context (b : build) (GoVersion GOARCH : string).

Definition tree (V0Enabled : bool) : command :=
  root_NewCommand (Cli.getenv lookupEnv "KIND_CLUSTER_NAME") b GoVersion GOOS GOARCH V0Enabled.

(** [PersistentPreRunE] of the root command; the logger without methods ignores it all but
    the warning, which it does not write. *)
Definition any_root_runE (k : logger) (p : parsed) (l : Logger) : Logger :=
  match k with
  | NoopLogger => l
  | CliLogger =>
      let LogLevel := match p !! "loglevel" with Some (VString s) => Some s | _ => None end in
      let Verbosity := match p !! "verbosity" with Some (VInt z) => Some z | _ => None end in
      let Quiet := match p !! "quiet" with Some (VBool q) => q | _ => false end in
      root_runE GOOS lookupEnv pick LogLevel Verbosity Quiet l
  end.

Definition plain_err (text : string) : err := mkErr text None None.

(** [Command.Execute] of the root; the help text goes to the standard output. *)
Definition Execute (k : logger) (args : list string) (w : Logger * W) : option err * (Logger * W) :=
  let '(path, rest) := cobra_find args in
  match find_command (tree false) path with
  | None => (Some (plain_err "unknown command"), w)
  | Some c =>
      match pflag_parse (c_PersistentFlags (tree false) ++ c_Flags c) rest with
      | Ok (_, _, true) => (None, w)
      | Ok (p, words, false) =>
          match check_args (c_Args c) words with
          | Ok _ =>
              let '(l, v) := w in
              let l := any_root_runE k p l in
              match invoke (tree (V_Enabled k 0 l)) path p words with
              | Ok a => perform k a (l, v)
              | Err e | Panic e => (Some (plain_err e), (l, v))
              end
          | Err e | Panic e => (Some (plain_err e), w)
          end
      | Err e | Panic e => (Some (plain_err e), w)
      end
  end.

Definition checkQuiet (args : list string) : bool :=
  let flags := [mkFlag "quiet" "q" (VBool false)] in
  bool_flag flags (pflag_lenient flags args) "quiet".

Definition any_logError (k : logger) (e : err) (l : Logger) : Logger :=
  match k with NoopLogger => l | CliLogger => logError pick (er_text e) (er_output e) (er_trace e) l end.

(** The error of [Run], and the logger after it. *)
Definition Run (args : list string) (w : Logger * W) : option err * (Logger * W) :=
  let k := if checkQuiet args then NoopLogger else CliLogger in
  let '(e, (l, v)) := Execute k args w in
  match e with Some e => (Some e, (any_logError k e l, v)) | None => (None, (l, v)) end.

(** The exit code. *)
Definition Main (stderr_tty : bool) (args : list string) (v : W) : Z * (Logger * W) :=
  let '(e, w) := Run args (cmd_NewLogger GOOS lookupEnv stderr_tty, v) in
  (match e with Some _ => 1 | None => 0 end, w).
End app.

(** ** What is logged *)

Section facts.
Context `{CommandLine} {W : Type} `{!Actions W}.
Context (GOOS : string) (lookupEnv : string → option string) (pick : list string → option (string * list string)).
Context (b : build) (GoVersion GOARCH : string).
Abbreviation execute := (Execute GOOS lookupEnv pick b GoVersion GOARCH).
Abbreviation run_ := (Run GOOS lookupEnv pick b GoVersion GOARCH).

(** A command logs with the logger that it was given. *)
Definition logs_with_its_logger : Prop :=
  ∀ a (w : Logger * W), fst (snd (perform NoopLogger a w)) = fst w.

(** With the quiet flag nothing is logged, and the logger stays as it was, even when the flags
    of the root command ask for more. *)
Lemma quiet_logs_nothing args (w : Logger * W) : logs_with_its_logger → checkQuiet args = true →
  fst (snd (run_ args w)) = fst w.
Proof.
  intros Hp Hq. unfold App.Run. rewrite Hq.
  assert (fst (snd (execute NoopLogger args w)) = fst w) as He.
  { unfold App.Execute. destruct (cobra_find args) as [path rest]. destruct (find_command _ path) as [c|]; [|done].
    destruct (pflag_parse _ rest) as [[[p words] []]|e|e]; [done| |done..].
    destruct (check_args _ words); [|done..]. destruct w as [l v].
    cbn [any_root_runE]. destruct (invoke _ path p words); [apply Hp|done..]. }
  destruct (execute NoopLogger args w) as [[e|] [l v]]; done.
Qed.

(** The lines of an error. *)
Definition error_lines (color : bool) (verbosity : Z) (e : err) : list string :=
  let head name := if color then esc +:+ "[31m" +:+ name +:+ esc +:+ "[0m" else name in
  let part name := if color then head name else newline +:+ name in
  [head "ERROR" +:+ ": " +:+ er_text e] ++
  (match er_output e with Some s => [part "Command Output" +:+ ": " +:+ s] | None => [] end) ++
  (match er_trace e with Some s => if 1 <=? verbosity then [part "Stack Trace" +:+ ": " +:+ s] else [] | None => [] end).

Context (pick_put : ∀ pool buf rest, pick pool = Some (buf, rest) → buf ∈ pool ∧ rest ⊆ pool).

Lemma log_Errorf text l : clean l →
  let l' := log pick (Errorf text) l in
  lg_out l' = lg_out l ++ [(lg_writer l, with_newline text)] ∧ lg_writer l' = lg_writer l ∧
  lg_verbosity l' = lg_verbosity l ∧ lg_isSmartWriter l' = lg_isSmartWriter l ∧ clean l'.
Proof.
  intros Hc l'. pose proof (log_wrote pick pick_put (Errorf text) l Hc) as (Ho & Hw & Hv & Hcl). split_and!; [done..| |done].
  unfold l', log, printf, bufferPool_Get, bufferPool_Put, writeBuffer.
  destruct (pick (lg_pool l)) as [[buf pool]|]; case_match; done.
Qed.

(** The next message, with what it leaves. *)
Ltac logged Hc :=
  lazymatch type of Hc with clean ?x =>
    lazymatch goal with |- context [log pick (Errorf ?t) x] =>
      let Ho := fresh "Ho" in let Hw := fresh "Hw" in let Hv := fresh "Hv" in let Hc' := fresh "Hc" in
      destruct (log_Errorf t x Hc) as (Ho & Hw & Hv & _ & Hc'); revert Ho Hw Hv Hc'; generalize (log pick (Errorf t) x)
    end
  end.

Lemma logError_lines e l : clean l →
  lg_out (logError pick (er_text e) (er_output e) (er_trace e) l) =
  lg_out l ++ map (λ s, (lg_writer l, with_newline s)) (error_lines (lg_isSmartWriter l) (lg_verbosity l) e).
Proof.
  intros Hc. unfold logError, error_lines, ColorEnabled, Enabled. cbv zeta. destruct e as [text output trace]. cbn [er_text er_output er_trace].
  logged Hc. intros l1 Ho1 Hw1 Hv1 Hc1. destruct output as [out|].
  - logged Hc1. intros l2 Ho2 Hw2 Hv2 Hc2. rewrite Hv2, Hv1. destruct trace as [tr|]; destruct (1 <=? lg_verbosity l).
    1: logged Hc2; intros l3 Ho3 _ _ _; rewrite Ho3.
    all: by rewrite Ho2, Ho1, ?Hw2, Hw1, <- ?app_assoc.
  - rewrite Hv1. destruct trace as [tr|]; destruct (1 <=? lg_verbosity l).
    1: logged Hc1; intros l3 Ho3 _ _ _; rewrite Ho3.
    all: by rewrite Ho1, ?Hw1, <- ?app_assoc.
Qed.

(** A process whose invocation fails exits with 1 after its error, the output of the command
    that failed and, at verbosity 1, the stack trace were logged, once and behind all else;
    one that succeeds exits with 0 and logs nothing of its own. *)
Theorem error_logged_last tty args v code w e l1 :
  checkQuiet args = false → Main GOOS lookupEnv pick b GoVersion GOARCH tty args v = (code, w) →
  execute CliLogger args (cmd_NewLogger GOOS lookupEnv tty, v) = (e, l1) → clean (fst l1) →
  match e with
  | None => code = 0 ∧ w = l1
  | Some e => code = 1 ∧ snd w = snd l1 ∧
      lg_out (fst w) = lg_out (fst l1) ++
        map (λ s, (lg_writer (fst l1), with_newline s)) (error_lines (lg_isSmartWriter (fst l1)) (lg_verbosity (fst l1)) e)
  end.
Proof.
  intros Hq Hm He Hc. unfold Main, App.Run in Hm. rewrite Hq, He in Hm. destruct l1 as [l v1].
  destruct e as [e|]; injection Hm as <- <-; [|done]. cbn [fst snd any_logError].
  split_and!; [done..|]. by apply logError_lines.
Qed.
End facts.

(** ** An example *)

Module AppDemo.
(** The names of commands come first, and then the words; of the flags only [-q]. *)
#[export] Instance command_line : CommandLine := {
  pflag_lenient := λ _ args, if str_in "-q" args then {["quiet" := VBool true]} else ∅;
  cobra_find := λ args, match args with "get" :: "nodes" :: rest => (["get"; "nodes"], rest) | "version" :: rest => (["version"], rest) | _ => ([], args) end;
  pflag_parse := λ _ args, Ok (if str_in "-q" args then {["quiet" := VBool true]} else ∅, List.filter (λ a, a <>s "-q") args, false)
}.
Definition docker_down : err := mkErr "failed to list nodes" (Some "Cannot connect to the Docker daemon") None.
(** The text of [version] is logged here; there is no docker. *)
#[export] Instance actions : Actions unit := {
  perform := λ k a w, match a with
    | PrintLine text => (None, (any_log DemoCli.pick k (Info 0 None text) (fst w), snd w))
    | _ => (Some docker_down, w)
    end
}.
Definition demo (args : list string) : Z * (Logger * unit) :=
  Main "linux" (λ _, None) DemoCli.pick (mkBuild "" "" "" "") "go1.20" "amd64" false args tt.
Definition out (args : list string) : list string := map snd (lg_out (fst (snd (demo args)))).

Definition executed := App.Execute "linux" (λ _, None) DemoCli.pick (mkBuild "" "" "" "") "go1.20" "amd64" CliLogger ["get"; "nodes"]
  (cmd_NewLogger "linux" (λ _, None) false, tt).

Lemma error_logged_last_witness : fst (demo ["get"; "nodes"]) = 1 ∧
  out ["get"; "nodes"] = ["ERROR: failed to list nodes" +:+ newline;
                          newline +:+ "Command Output: Cannot connect to the Docker daemon" +:+ newline].
Proof.
  pose proof (error_logged_last "linux" (λ _, None) DemoCli.pick (mkBuild "" "" "" "") "go1.20" "amd64" DemoCli.pick_put false ["get"; "nodes"] tt
    (fst (demo ["get"; "nodes"])) (snd (demo ["get"; "nodes"])) (Some docker_down) (snd executed)) as Hl.
  assert (checkQuiet ["get"; "nodes"] = false) as Hq by reflexivity.
  assert (demo ["get"; "nodes"] = (fst (demo ["get"; "nodes"]), snd (demo ["get"; "nodes"]))) as Hd by (vm_compute; reflexivity).
  assert (executed = (Some docker_down, snd executed)) as He by (vm_compute; reflexivity).
  assert (clean (fst (snd executed))) as Hc by (vm_compute; constructor).
  destruct (Hl Hq Hd He Hc) as (Hcode & _ & Ho). split; [exact Hcode|]. unfold out. rewrite Ho. vm_compute. reflexivity.
Defined.

(** Quiet, the version is given alone and an error is not told but by the exit code. *)
Example quiet_error : demo ["get"; "nodes"; "-q"] = (1, (cmd_NewLogger "linux" (λ _, None) false, tt)).
Proof. vm_compute. reflexivity. Qed.
Example unknown_argument : out ["get"; "nodes"; "x"] = ["ERROR: unknown command" +:+ newline].
Proof. vm_compute. reflexivity. Qed.
End AppDemo.
